(* ===== verification/_CoqProject ===== *)
-Q . S2P
Prelude.v
GoStrings.v
Sha256.v
Connect.v
Data.v
Json.v
Usage.v
EventSnapshot.v
Segment.v
StoreWorld.v
StoreLogic.v
StoreIndex.v
StoreCompleted.v
StoreState.v
StoreLaws.v
StoreProps.v
StoreReplay.v
StoreResolve.v
JsonValue.v
HostedPolicy.v
Conc.v
Manager.v
ManagerOps.v
ManagerStore.v
ManagerInv.v
ManagerProps.v
ManagerDuties.v
Media.v
HostedSearch.v
Wire.v
WireProps.v
Protocol.v
ProtocolProps.v
HostedRun.v
Runner.v
RunnerLogic.v
RunnerSample.v
RunnerInv.v
RunnerProps.v
Projection.v
ProjectionProps.v
ProjectionBytes.v
Delivery.v
DeliveryProps.v
Responses.v
ResponsesProps.v
History.v
HistoryProps.v
Translate.v
TranslateRequest.v
TranslateTurn.v
TranslateProps.v
Dispatch.v
DispatchProps.v
Credentials.v
CredentialsProps.v
Effects.v
Sand.v
SandTools.v
SandWire.v
SandRun.v
SandLogic.v
SandInv.v
SandProps.v
SandResume.v
SandSample.v
Rely.v
Stream.v
StreamProps.v
StreamWrites.v
TokenText.v
Tokens.v
TokenProps.v
Prepare.v
PrepareProps.v
Plugin.v
PluginProps.v
Abi.v
AbiProps.v
PluginSample.v
