(* ===== verification/Prelude.v ===== *)
(** * cursor-agent2api: a verification library

    cursor-agent2api serves the Messages, chat-completion and Responses APIs on top of
    Cursor's agent protocol.  A request is translated into a managed run; the session
    manager starts or resumes the run; the runner speaks the protocol over one HTTP/2
    stream; its events are projected back into the caller's format.  What must survive
    a restart (pending tool calls, checkpoints, finished answers) is kept in files.
    A plugin with a C interface hands the host's requests to all this.  The library follows
    the Go packages under src/ file by file (cursoragentv1, where no other directory is
    named): every operation is a Rocq function that can be evaluated, with the name it has
    in the source.

    ** The parts and their files

    - Foundations.  [Prelude]: integers at their width, errors ([Err] lists the sentinel
      errors, [result] is a Go call), tactics.  [GoStrings]: the functions of package
      strings the code uses, on bytes.  [Sha256]: the hash, executable, and the class
      [Digest] with the collision hypothesis identity theorems ask for.  [JsonValue]: decoded
      JSON and the class [JSON] of the codec.  [Json]: the exact size of an encoded event.
      [Conc]: programs of atomic sections over a shared state and their interleavings;
      [Rely]: what one goroutine of a pool knows, from what the others guarantee.  [Effects]:
      code that threads a world, fails and emits, with its logic.
    - Data and accounting.  [Data] (runner.go, state.go, media.go): the records and limits.
      [Usage] (usage_observation.go): counters of a turn.  [EventSnapshot]
      (completed_events.go): coalescing the events of a segment.  [Segment] (segment.go,
      state.go, runner.go): identifiers, canonical tool results, digests, validation.
    - Session store (state.go, completed_state.go, completed_request.go).  [StoreWorld]: the
      file system, leases and the effect monad; [StoreIndex], [StoreCompleted], [StoreState]:
      the methods of FileStateStore; [StoreLogic], [StoreLaws], [StoreProps], [StoreReplay],
      [StoreResolve]: their logic and theorems.
    - Session manager (manager.go, manager_history.go).  [Manager]: requests, sessions,
      flights, outputs; [ManagerOps]: the handlers as programs; [ManagerStore]: the interface
      of the store and its instance by FileStateStore; [ManagerInv], [ManagerProps],
      [ManagerDuties]: invariants and theorems.
    - Protocol.  [Connect] (connect.go): the envelope.  [Wire] (wire.go) and [Protocol]
      (protocol.go, protocol_feedback.go): encoders and decoders; [WireProps],
      [ProtocolProps].  [HostedPolicy] (hosted_policy.go): limits and domain rules of
      hosted tools.
    - Runner (runner.go).  [HostedRun]: hosted approvals and searches; [Runner]: the run as
      a transition system over its inputs; [RunnerLogic], [RunnerInv], [RunnerProps] and
      [RunnerSample]: its logic, invariant, theorems and examples.
    - Sand runner (the files inference_*.go, profile_runner.go).  [Sand]: models, parameters
      and the memory of signatures; [SandTools]: web tools and checkpoints; [SandWire]: messages
      and the preparation of a turn; [SandRun]: the segments of a run over their streams;
      [SandLogic], [SandInv], [SandProps], [SandResume], [SandSample].
    - Transport (stream.go).  [Stream]: opening the stream, the dialer, the goroutine of the
      exchange and the methods of its users; [StreamProps], [StreamWrites].
    - Requests (translate.go, full_history.go, media.go).  [Media]: attachments and content
      blocks; [History]: rebuilding a conversation; [Translate], [TranslateRequest],
      [TranslateTurn]: the request to the managed request; [HistoryProps],
      [TranslateProps].
    - Answers (project_claude.go, project_responses.go, project_usage.go, executor.go).
      [HostedSearch]: results of hosted searches; [Projection], [Responses]: events to the
      caller's stream and body; [Delivery]: the executor's loops that drain an output, over
      the class [Projector] both projections implement; [Dispatch]: which handler of the
      manager a request goes to, chained follow-ups, receipts; [ProjectionProps],
      [ProjectionBytes], [DeliveryProps], [ResponsesProps], [DispatchProps].
    - Accounts (server_config.go, executor.go, models.go).  [Credentials]: the fields of a
      credential, token refresh, the identity check, server discovery; [CredentialsProps].
    - The executor as a whole (executor.go).  [Prepare]: Execute and ExecuteStream from the
      host's credential to the delivered answer, composed of the parts above;
      [PrepareProps].
    - Tokens (internal/helps: claude_input_tokens.go, token_helpers.go, logging.go).
      [TokenText]: the text that is counted; [Tokens]: tokenizers, counts, and the rewriting
      of a stream; [TokenProps].
    - Plugin (internal/plugin/plugin.go, internal/helps/proxy.go, cmd/cursor-agent2api/abi.go).
      [Plugin]: credential files, activation on first use, execution arguments, over the
      interface [PluginExecutor] that the executor's refresh discharges in [PluginProps];
      [Abi]: the calls across the C interface and the streams to and from the host;
      [AbiProps], [PluginSample].

    ** How state and effects are modelled

    - A store method runs in a world of files, lock tables, a clock and one oracle answer per
      system call: any call may fail, and the process may die at any of them.  The clock is
      read once per method.  Temporary names and tokens come from the world.  Each method is
      one atomic step of the world as far as other processes go: the code holds the
      session's file lock.
    - A manager handler is a [Conc] program: a critical section under the manager's mutex is
      one step, store calls, channel operations and blocking waits are steps of their own, and
      the theorems quantify over all interleavings of any number of handlers.  The upstream
      engine is any list of events with a final error.  What one handler does while the others
      run is a trace of its own steps between any interference its invariant allows ([rtrace],
      [meanwhile]); a save that failed leaves a mark in it.  The polling of waitFollowUpSnapshot
      is one step that may time out.
    - The runner consumes a list of inputs (bytes of the server, tool results, end of stream,
      cancellation) and produces a log of events and frames written, with a mark for every
      decision on a hosted tool.  The heartbeat goroutine
      and the timers are left out.
    - A Sand run threads a world (memory of signatures, answers of the network by number, the
      log of events) through the effects of [Effects]; a stream is the list of its chunks.  The
      memory of signatures is one per process: a run starts from any memory that satisfies its
      invariant, and what other runs of the process add to it meanwhile is left out.
    - The transport, the plugin and its C interface are [Conc] programs again: each Read, each
      byte of a Write into the pipe, each section under a mutex, each call of the executor or
      of the host, with its answer, is a step.  Plugins are objects that calls in flight go on using after the
      host has registered another.
    - The executor's selects are answered by an oracle that says at each of them whether the
      context is done; the calls it makes to the manager are recorded in order.

    ** Bounds and fuel

    Recursion is structural wherever the code's is.  [Connect.drain] has the length of the
    buffer plus one as fuel, a frame taking at least five bytes; [Protocol.scan] one turn per
    byte plus one, every field taking a byte ([ProtocolProps.decode_terminates] proves that
    the fuel is never short, and [Connect.drain_loop_fuel] that more of it changes nothing).
    A Sand run has fuel for its results and 18 rounds more; [SandProps.sand_run_bounded]
    proves that it always ends within it.  The text of a content has its own length and two as
    fuel and running out of it is an outcome of its own, which [TokenProps.token_text_terminates]
    shows never to happen.  The loop that reads a
    stream of the host is endless in the code and bounded by an argument here, over which its
    theorem is quantified.
    The lease of a batch is attempted 20 times, as in the code.  The attempts of StartHistory
    and the waits of followers are unbounded in the code and are steps of the interleaving.

    ** What the theorems show

    - Store: leases are exclusive and given back on every path; a retired owner changes
      nothing; a write is atomic at every crash point; a claim hands the session over; a
      finished segment replays exactly its events or refuses a different answer (media are not
      compared); a pending
      batch resolves to the session that waits for it.
    - Manager: one leader per generation; no channel is closed twice or sent on when closed;
      a handler that returns leaves nothing behind; the end of a turn reaches the caller only
      after it is saved.
    - Protocol and runner: frames and results read back; decoding ends; a request of the server
      is never masked by a notification, though by a later request; a run keeps its limits, in
      what it tells the server to go ahead with, answers each call once and does not depend on
      how its bytes are cut.
    - Requests: an accepted request is one the manager and the runner can run and honours the
      caller's tool choice; a rebuilt conversation pairs calls with results; a request is
      one run and at most one follow-up; whatever it asks of the manager it asks under its
      own credential, with a token of its identity and a server that token may be sent to.
    - Sand: a run settles once, is bounded, keeps signatures first in, first out, sends back
      only those that were minted for it, and continues a checkpoint with the answer to its
      call.
    - Transport: what the runner reads is a prefix of the response, with its end and its error;
      frames of concurrent writers reach the server whole.
    - Plugin: concurrent requests run with their own credential when it is complete, else
      with an exchanged one of its identifier; a refreshed credential survives its file; a
      stream to the host is in order, ends at the first payload not taken and is closed once; every
      call of the host is answered with an envelope.
    - Tokens: counting ends; the usage of a stream is rewritten at most once, in its first
      message_start.
    - Answers: the streamed answer is well formed and describes the body that the unstreamed
      request gets, in both families of formats, unless a search result interrupts an open
      block; a turn the delivery parks is never cancelled; accounting
      and replays survive coalescing, within the size limit.

    ** Parameters

    Code that is not under src/ is a parameter with what is relied on as named hypotheses:
    encoding/json ([JSON]), protowire and the generated protobuf types, net/url and
    net.ParseIP ([NetURL]), gzip, image headers, lower-casing of non-ASCII text, the format
    translator of the SDK ([SDK], [translate]), token estimates ([Tokens]), HTTP exchanges with
    the account service ([Outside]), the network of the transport ([Network]), gjson and
    sjson ([Gjson]), tokenizers ([Tokenizers]), what the Sand runner asks of the network and
    of structpb ([SandOutside]), the host's platform, YAML and times ([Platform]), the SDK's
    types across the C interface ([AbiCodec]) and what the host answers, the SHA-256
    collision hypothesis, and the outcome of writes.

    ** Not modelled

    The generated protobuf code, which is an interface; timers and the heartbeat, whose
    effects are inputs that may come at any moment; the memory of C buffers, answers of the
    host of 2^31 bytes or more, and the goroutines
    that only pass the chunks of one channel to another; log lines; constructors that only
    fill in defaults, and copies of values, which are the values themselves here. *)
From stdpp Require Import base tactics list gmap strings sorting.

(** ** Integers at their Go width *)

Definition wrap_i64 (z : Z) : Z := ((z + 2 ^ 63) mod 2 ^ 64 - 2 ^ 63)%Z.
Definition wrap_u64 (z : Z) : Z := (z mod 2 ^ 64)%Z.
Definition max_i64 : Z := (2 ^ 63 - 1)%Z.
Definition min_i64 : Z := (- 2 ^ 63)%Z.

(** A value a Go [int64] can hold. *)
Definition is_i64 (z : Z) : Prop := (min_i64 <= z <= max_i64)%Z.

Lemma wrap_i64_id z : is_i64 z -> wrap_i64 z = z.
Proof.
  unfold is_i64, wrap_i64, min_i64, max_i64. intros Hz.
  rewrite Z.mod_small; lia.
Qed.

Lemma wrap_i64_range z : is_i64 (wrap_i64 z).
Proof.
  unfold is_i64, wrap_i64, min_i64, max_i64.
  pose proof (Z.mod_pos_bound (z + 2 ^ 63) (2 ^ 64) ltac:(lia)). lia.
Qed.

Lemma wrap_i64_add_idemp a b : wrap_i64 (wrap_i64 a + b) = wrap_i64 (a + b).
Proof.
  unfold wrap_i64. f_equal.
  replace ((a + 2 ^ 63) mod 2 ^ 64 - 2 ^ 63 + b + 2 ^ 63)%Z
    with ((a + 2 ^ 63) mod 2 ^ 64 + b)%Z by lia.
  rewrite Zplus_mod_idemp_l. f_equal. lia.
Qed.

(** ** Errors

    A Go [error] value: the package's sentinels, the errors of the standard
    library the code tests for, and the two shapes [fmt.Errorf] builds (with
    and without [%w]). *)
Inductive Err : Type :=
  | ErrRetiredOwner | ErrCredentialMismatch | ErrStateLeaseHeld
  | ErrStatePending | ErrPendingAmbiguous | ErrToolResultConflict
  | ErrSessionActive | ErrSessionPending | ErrSessionNotPending
  | ErrMixedToolFollowUp | ErrCallerToolsDisabled
  | ErrNotExist                                (* os.ErrNotExist *)
  | ErrContextCanceled | ErrDeadlineExceeded   (* context errors *)
  | ErrOS (op : string)                        (* any other failure of an OS call *)
  | ErrMsg (text : string)                     (* fmt.Errorf without %w *)
  | ErrWrap (text : string) (inner : Err)      (* fmt.Errorf with %w *)
  | ErrRequest (status : Z) (text : string)    (* requestError *)
  | ErrHTTP (status : Z) (text : string)       (* httpStatusError *)
  | ErrConnect (code message : string).        (* connectError *)

#[export] Instance Err_eq_dec : EqDecision Err.
Proof. solve_decision. Defined.

(** [errors.Is]: equality with the error or one it wraps. *)
Fixpoint errors_is (e target : Err) : bool :=
  bool_decide (e = target) ||
  match e with ErrWrap _ inner => errors_is inner target | _ => false end.

Lemma errors_is_refl e : errors_is e e = true.
Proof. destruct e; cbn [errors_is]; apply orb_true_iff; left; by apply bool_decide_eq_true_2. Qed.

(** A Go call that returns a value or an error. *)
Inductive result (A : Type) : Type :=
  | Ok (a : A)
  | Fail (e : Err).
Arguments Ok {A} a.
Arguments Fail {A} e.

Definition rbind {A B} (m : result A) (k : A -> result B) : result B :=
  match m with Ok a => k a | Fail e => Fail e end.

Definition is_ok {A} (r : result A) : bool := match r with Ok _ => true | Fail _ => false end.

Declare Scope go_scope.
Delimit Scope go_scope with go.
Notation "x <-? m ; k" := (rbind m (fun x => k))
  (at level 100, m at next level, right associativity) : go_scope.

#[export] Instance result_eq_dec {A} `{EqDecision A} : EqDecision (result A).
Proof. solve_decision. Defined.

(** ** Tactics and hints the components share *)

Create HintDb go discriminated.
#[export] Hint Resolve errors_is_refl wrap_i64_range : go.

(** Split the boolean guards of a handler into propositions. *)
Ltac bool_hyps :=
  repeat match goal with
  | H : _ && _ = true |- _ => apply andb_true_iff in H as [? ?]
  | H : _ || _ = false |- _ => apply orb_false_iff in H as [? ?]
  | H : negb _ = true |- _ => apply negb_true_iff in H
  | H : negb _ = false |- _ => apply negb_false_iff in H
  | H : bool_decide _ = true |- _ => apply bool_decide_eq_true_1 in H
  | H : bool_decide _ = false |- _ => apply bool_decide_eq_false_1 in H
  | H : Z.ltb _ _ = true |- _ => apply Z.ltb_lt in H
  | H : Z.ltb _ _ = false |- _ => apply Z.ltb_ge in H
  | H : Z.leb _ _ = true |- _ => apply Z.leb_le in H
  | H : Z.leb _ _ = false |- _ => apply Z.leb_gt in H
  | H : Z.eqb _ _ = true |- _ => apply Z.eqb_eq in H
  | H : Z.eqb _ _ = false |- _ => apply Z.eqb_neq in H
  end.

(** Case split on the first [if] or [match] scrutinee of the goal. *)
Ltac go_case :=
  match goal with
  | |- context [if ?b then _ else _] => destruct b eqn:?
  | |- context [match ?x with _ => _ end] => destruct x eqn:?
  end.
