(* ===== verification/GoStrings.v ===== *)
(** * The parts of Go's [strings], [sort], [slices] and [strconv] packages the
    program uses, on byte strings.

    A Go string is a byte sequence: [string] here is Stdlib's [String.string],
    one [ascii] per byte. [strings.TrimSpace] trims the UTF-8 encodings of every
    code point of [unicode.IsSpace]; comparison and [sort.Strings] are bytewise. *)
From stdpp Require Import base tactics list gmap strings sorting pretty.
From Stdlib Require Import Strings.Byte.
From S2P Require Import Prelude.

Abbreviation bytes := (list byte).
Abbreviation to_bytes := String.list_byte_of_string.
Abbreviation of_bytes := String.string_of_list_byte.

Definition len (s : string) : Z := Z.of_nat (String.length s).
Definition blen (b : bytes) : Z := Z.of_nat (length b).

Lemma of_to_bytes s : of_bytes (to_bytes s) = s.
Proof. apply String.string_of_list_byte_of_string. Qed.
Lemma to_of_bytes b : to_bytes (of_bytes b) = b.
Proof. apply String.list_byte_of_string_of_list_byte. Qed.
Lemma to_bytes_inj s t : to_bytes s = to_bytes t -> s = t.
Proof. intros H. by rewrite <-(of_to_bytes s), H, of_to_bytes. Qed.

(** ** [strings.TrimSpace] *)

Open Scope byte_scope.
(** The UTF-8 encodings of the code points [unicode.IsSpace] accepts. *)
Definition space_encodings : list bytes :=
  [ [x09]; [x0a]; [x0b]; [x0c]; [x0d]; [x20];
    [xc2; x85]; [xc2; xa0]; [xe1; x9a; x80];
    [xe2; x80; x80]; [xe2; x80; x81]; [xe2; x80; x82]; [xe2; x80; x83];
    [xe2; x80; x84]; [xe2; x80; x85]; [xe2; x80; x86]; [xe2; x80; x87];
    [xe2; x80; x88]; [xe2; x80; x89]; [xe2; x80; x8a];
    [xe2; x80; xa8]; [xe2; x80; xa9]; [xe2; x80; xaf]; [xe2; x81; x9f];
    [xe3; x80; x80] ].
Close Scope byte_scope.

Fixpoint strip_prefix (p l : bytes) : option bytes :=
  match p, l with
  | [], _ => Some l
  | a :: p, b :: l => if Byte.eqb a b then strip_prefix p l else None
  | _ :: _, [] => None
  end.

Fixpoint strip_one (encs : list bytes) (l : bytes) : option bytes :=
  match encs with
  | [] => None
  | e :: encs => match strip_prefix e l with Some r => Some r | None => strip_one encs l end
  end.

Fixpoint strip_all (fuel : nat) (encs : list bytes) (l : bytes) : bytes :=
  match fuel with
  | O => l
  | S fuel => match strip_one encs l with Some r => strip_all fuel encs r | None => l end
  end.

Definition trim_left (encs : list bytes) (l : bytes) : bytes := strip_all (length l) encs l.
Definition trim_bytes (l : bytes) : bytes :=
  reverse (trim_left (reverse <$> space_encodings) (reverse (trim_left space_encodings l))).

Definition TrimSpace (s : string) : string := of_bytes (trim_bytes (to_bytes s)).

Lemma strip_prefix_Some p l r : strip_prefix p l = Some r <-> l = p ++ r.
Proof.
  revert l; induction p as [|a p IH]; intros [|b l]; simpl; try naive_solver.
  destruct (Byte.eqb a b) eqn:E.
  - apply Byte.byte_dec_bl in E as ->. rewrite IH. naive_solver.
  - split; [done|]. intros [= <- _]. by rewrite Byte.byte_dec_lb in E.
Qed.

Lemma strip_one_Some encs l r :
  strip_one encs l = Some r -> exists e, e ∈ encs /\ l = e ++ r.
Proof.
  induction encs as [|e encs IH]; simpl; [done|].
  destruct (strip_prefix e l) as [r'|] eqn:E.
  - intros [= <-]. apply strip_prefix_Some in E. exists e. split; [left|done].
  - intros (e' & ? & ?)%IH. exists e'. split; [by right|done].
Qed.

Lemma strip_one_None encs l :
  strip_one encs l = None <-> forall e, e ∈ encs -> ~ exists r, l = e ++ r.
Proof.
  split.
  - induction encs as [|e encs IH]; simpl; [set_solver|].
    destruct (strip_prefix e l) as [r|] eqn:E; [done|]. intros H e' He' [r Hr].
    apply elem_of_cons in He' as [->|He'].
    + apply strip_prefix_Some in Hr. congruence.
    + eapply IH; eauto.
  - intros H. destruct (strip_one encs l) as [r|] eqn:E; [|done].
    apply strip_one_Some in E as (e & He & ->). destruct (H e He). eauto.
Qed.

Section trim.
Context (encs : list bytes) (Hne : forall e, e ∈ encs -> e <> []).

Lemma strip_all_normal fuel l :
  length l <= fuel -> strip_one encs (strip_all fuel encs l) = None.
Proof using Hne.
  revert l; induction fuel as [|fuel IH]; intros l Hl; simpl.
  - destruct l; [|simpl in Hl; lia]. apply strip_one_None. intros e He [r Hr].
    symmetry in Hr. apply app_nil in Hr as [-> _]. by apply (Hne []).
  - destruct (strip_one encs l) as [r|] eqn:E; [|done]. apply IH.
    apply strip_one_Some in E as (e & He & ->). rewrite length_app in Hl.
    destruct e; [by destruct (Hne [])|]. simpl in Hl. lia.
Qed.

Lemma strip_all_id fuel l : strip_one encs l = None -> strip_all fuel encs l = l.
Proof. destruct fuel; simpl; [done|]. by intros ->. Qed.

Lemma strip_all_suffix fuel l : exists p, l = p ++ strip_all fuel encs l.
Proof.
  revert l; induction fuel as [|fuel IH]; intros l; simpl; [by exists []|].
  destruct (strip_one encs l) as [r|] eqn:E; [|by exists []].
  apply strip_one_Some in E as (e & _ & ->). destruct (IH r) as [p Hp].
  exists (e ++ p). rewrite <-app_assoc. by rewrite <-Hp.
Qed.
End trim.

Lemma space_encodings_nonempty e : e ∈ space_encodings -> e <> [].
Proof. unfold space_encodings. intros H ->. repeat (apply elem_of_cons in H as [H|H]; [done|]). by apply elem_of_nil in H. Qed.

Lemma rev_encodings_nonempty e : e ∈ reverse <$> space_encodings -> e <> [].
Proof.
  intros (e' & -> & He')%list_elem_of_fmap Hr. apply (space_encodings_nonempty e' He').
  by rewrite <-(reverse_involutive e'), Hr.
Qed.

(** No space encoding is left at either end. *)
Definition trimmed (l : bytes) : Prop :=
  strip_one space_encodings l = None /\
  strip_one (reverse <$> space_encodings) (reverse l) = None.

Lemma trim_bytes_trimmed l : trimmed (trim_bytes l).
Proof.
  unfold trimmed, trim_bytes, trim_left. rewrite reverse_involutive.
  set (y := strip_all (length l) space_encodings l).
  set (z := strip_all (length (reverse y)) (reverse <$> space_encodings) (reverse y)).
  assert (strip_one (reverse <$> space_encodings) z = None) as Hz.
  { apply strip_all_normal; [exact rev_encodings_nonempty|lia]. }
  assert (strip_one space_encodings y = None) as Hy.
  { apply strip_all_normal; [exact space_encodings_nonempty|lia]. }
  split; [|done].
  apply strip_one_None. intros e He [r Hr].
  rewrite strip_one_None in Hy. apply (Hy e He).
  destruct (strip_all_suffix (reverse <$> space_encodings) (length (reverse y)) (reverse y)) as [p Hp].
  fold z in Hp. exists (r ++ reverse p).
  rewrite <-(reverse_involutive y), Hp, reverse_app, Hr. by rewrite app_assoc.
Qed.

Lemma trimmed_trim_bytes l : trimmed l -> trim_bytes l = l.
Proof.
  intros [Hl Hr]. unfold trim_bytes, trim_left.
  rewrite (strip_all_id _ _ l Hl), (strip_all_id _ _ _ Hr). apply reverse_involutive.
Qed.

Lemma TrimSpace_idemp s : TrimSpace (TrimSpace s) = TrimSpace s.
Proof.
  unfold TrimSpace. rewrite to_of_bytes.
  by rewrite (trimmed_trim_bytes _ (trim_bytes_trimmed _)).
Qed.

Lemma TrimSpace_empty : TrimSpace "" = "".
Proof. reflexivity. Qed.

Example TrimSpace_ex : TrimSpace "  a b	 " = "a b".
Proof. vm_compute. reflexivity. Qed.

#[export] Hint Rewrite TrimSpace_idemp TrimSpace_empty of_to_bytes to_of_bytes : go.

(** ** Prefixes, joining, case folding *)

Definition HasPrefix (s p : string) : bool :=
  match strip_prefix (to_bytes p) (to_bytes s) with Some _ => true | None => false end.
Definition TrimPrefix (s p : string) : string :=
  match strip_prefix (to_bytes p) (to_bytes s) with Some r => of_bytes r | None => s end.
Definition HasSuffix (s p : string) : bool :=
  match strip_prefix (reverse (to_bytes p)) (reverse (to_bytes s)) with Some _ => true | None => false end.
Definition TrimSuffix (s p : string) : string :=
  match strip_prefix (reverse (to_bytes p)) (reverse (to_bytes s)) with
  | Some r => of_bytes (reverse r) | None => s end.

Fixpoint Join (parts : list string) (sep : string) : string :=
  match parts with
  | [] => ""
  | [p] => p
  | p :: ps => p +:+ sep +:+ Join ps sep
  end.

Lemma to_bytes_app s t : to_bytes (s +:+ t) = to_bytes s ++ to_bytes t.
Proof.
  unfold String.list_byte_of_string.
  induction s as [|a s IH]; [done|].
  change (String a s +:+ t) with (String a (s +:+ t)). simpl. by rewrite IH.
Qed.

Lemma HasPrefix_spec s p : HasPrefix s p = true <-> exists r, s = p +:+ r.
Proof.
  unfold HasPrefix. split.
  - destruct (strip_prefix _ _) as [r|] eqn:E; [|done]. intros _.
    apply strip_prefix_Some in E. exists (of_bytes r). apply to_bytes_inj.
    by rewrite to_bytes_app, to_of_bytes.
  - intros [r ->]. rewrite to_bytes_app.
    destruct (strip_prefix _ _) eqn:E; [done|].
    assert (strip_prefix (to_bytes p) (to_bytes p ++ to_bytes r) = Some (to_bytes r))
      by by apply strip_prefix_Some. congruence.
Qed.

(** The NUL byte the code joins key material with. *)
Definition NUL : string := String (Ascii.ascii_of_nat 0) "".

(** One code point folded the way [strings.ToLower] maps it when the result can
    be an ASCII letter: ASCII upper case, U+0130 (to [i]) and U+212A (to [k]).
    Every other code point keeps a non-ASCII image, so a comparison of the result
    with an ASCII constant is exact. *)
Fixpoint to_lower_bytes (l : bytes) : bytes :=
  match l with
  | xc4%byte :: xb0%byte :: r => x69%byte :: to_lower_bytes r
  | xe2%byte :: x84%byte :: xaa%byte :: r => x6b%byte :: to_lower_bytes r
  | b :: r =>
      let n := Byte.to_N b in
      (if (65 <=? n)%N && (n <=? 90)%N
       then match Byte.of_N (n + 32) with Some c => c | None => b end else b) :: to_lower_bytes r
  | [] => []
  end.
Definition ToLower (s : string) : string := of_bytes (to_lower_bytes (to_bytes s)).

(** [strings.EqualFold] against an ASCII lower-case constant [p]: besides its two
    cases a letter matches its simple folds U+017F (for [s]) and U+212A (for [k]). *)
Fixpoint fold_match (p l : bytes) : bool :=
  match p, l with
  | [], [] => true
  | x73%byte :: p, xc5%byte :: xbf%byte :: l => fold_match p l
  | x6b%byte :: p, xe2%byte :: x84%byte :: xaa%byte :: l => fold_match p l
  | a :: p, b :: l =>
      (Byte.eqb a b ||
       ((97 <=? Byte.to_N a)%N && (Byte.to_N a <=? 122)%N && (Byte.to_N b + 32 =? Byte.to_N a)%N))
      && fold_match p l
  | _, _ => false
  end.
Definition EqualFoldASCII (s p : string) : bool := fold_match (to_bytes p) (to_bytes s).

(** [%q] of text that needs no escaping; error texts are never parsed. *)
Definition Quote (s : string) : string := of_bytes ([Byte.x22] ++ to_bytes s ++ [Byte.x22]).

(** ** [sort.Strings] and [slices.Equal] *)

Definition sort_strings (l : list string) : list string := merge_sort String.le l.
Abbreviation slices_equal a b := (bool_decide (a = b)).

Lemma sort_strings_perm l : sort_strings l ≡ₚ l.
Proof. apply merge_sort_Permutation. Qed.
Lemma sort_strings_sorted l : Sorted String.le (sort_strings l).
Proof. apply Sorted_merge_sort. apply _. Qed.
Lemma sort_strings_unique l k : l ≡ₚ k -> sort_strings l = sort_strings k.
Proof.
  intros H. apply (Sorted_unique String.le); [apply sort_strings_sorted..|].
  by rewrite !sort_strings_perm.
Qed.
Lemma sort_strings_id l : Sorted String.le l -> sort_strings l = l.
Proof.
  intros H. apply (Sorted_unique String.le); [apply sort_strings_sorted|done|].
  apply sort_strings_perm.
Qed.

(** [strconv.Itoa] *)
Definition Itoa (z : Z) : string := pretty z.

(** ** Bytes and big-endian words ([encoding/binary]) *)
Open Scope Z_scope.

Definition byteZ (b : byte) : Z := Z.of_N (Byte.to_N b).
Definition Zbyte (z : Z) : byte :=
  match Byte.of_N (Z.to_N (z mod 256)) with Some b => b | None => x00%byte end.

Definition be_word (b0 b1 b2 b3 : byte) : Z :=
  byteZ b0 * 2 ^ 24 + byteZ b1 * 2 ^ 16 + byteZ b2 * 2 ^ 8 + byteZ b3.
Definition be_bytes (w : Z) : bytes :=
  [Zbyte (Z.shiftr w 24); Zbyte (Z.shiftr w 16); Zbyte (Z.shiftr w 8); Zbyte w].

Lemma byteZ_range b : 0 <= byteZ b < 256.
Proof. unfold byteZ. pose proof (Byte.to_N_bounded b). lia. Qed.

Lemma byteZ_Zbyte z : byteZ (Zbyte z) = z mod 256.
Proof.
  unfold Zbyte, byteZ. pose proof (Z.mod_pos_bound z 256 ltac:(lia)).
  destruct (Byte.of_N _) as [b|] eqn:E.
  - apply Byte.to_of_N in E. rewrite E. lia.
  - apply Byte.of_N_None_iff in E. lia.
Qed.

Lemma Zbyte_byteZ b : Zbyte (byteZ b) = b.
Proof.
  unfold Zbyte, byteZ. pose proof (Byte.to_N_bounded b).
  rewrite Z.mod_small by lia. rewrite N2Z.id, Byte.of_to_N. done.
Qed.

(** [binary.BigEndian.Uint32] after [PutUint32]. *)
Lemma be_word_bytes w b0 b1 b2 b3 :
  0 <= w < 2 ^ 32 -> be_bytes w = [b0; b1; b2; b3] -> be_word b0 b1 b2 b3 = w.
Proof.
  intros Hw [= <- <- <- <-]. unfold be_word. rewrite !byteZ_Zbyte, !Z.shiftr_div_pow2 by lia.
  change (2 ^ 32) with 4294967296 in Hw. change (2 ^ 24) with 16777216.
  change (2 ^ 16) with 65536. change (2 ^ 8) with 256.
  assert (w / 65536 = w / 256 / 256) as -> by (rewrite Z.div_div by lia; reflexivity).
  assert (w / 16777216 = w / 256 / 256 / 256) as -> by (rewrite !Z.div_div by lia; reflexivity).
  Z.div_mod_to_equations. lia.
Qed.

Lemma be_word_range b0 b1 b2 b3 : 0 <= be_word b0 b1 b2 b3 < 2 ^ 32.
Proof.
  unfold be_word. pose proof (byteZ_range b0). pose proof (byteZ_range b1).
  pose proof (byteZ_range b2). pose proof (byteZ_range b3). lia.
Qed.
