(* ===== verification/Sha256.v ===== *)
(** * SHA-256 and hexadecimal digests

    [crypto/sha256] and [encoding/hex] as the program uses them, written after
    FIPS 180-4 on 32-bit words, so that every file name, request key and digest of
    the model can be evaluated.  The components that need a digest take it from
    the class [Digest]; [sha256_digest] is the instance the program uses, and a
    property that needs distinct materials to have distinct digests asks for
    [CollisionFree] of the materials in question. *)
From stdpp Require Import base tactics list strings.
From Stdlib Require Import Strings.Byte.
From S2P Require Import Prelude GoStrings.
Open Scope Z_scope.

Definition mask32 : Z := 2 ^ 32 - 1.
Definition add32 (a b : Z) : Z := Z.land (a + b) mask32.
Definition rotr (n x : Z) : Z := Z.land (Z.lor (Z.shiftr x n) (Z.shiftl x (32 - n))) mask32.
Definition ch (x y z : Z) : Z := Z.lxor (Z.land x y) (Z.land (Z.lxor x mask32) z).
Definition maj (x y z : Z) : Z := Z.lxor (Z.lxor (Z.land x y) (Z.land x z)) (Z.land y z).
Definition bsig0 (x : Z) : Z := Z.lxor (Z.lxor (rotr 2 x) (rotr 13 x)) (rotr 22 x).
Definition bsig1 (x : Z) : Z := Z.lxor (Z.lxor (rotr 6 x) (rotr 11 x)) (rotr 25 x).
Definition ssig0 (x : Z) : Z := Z.lxor (Z.lxor (rotr 7 x) (rotr 18 x)) (Z.shiftr x 3).
Definition ssig1 (x : Z) : Z := Z.lxor (Z.lxor (rotr 17 x) (rotr 19 x)) (Z.shiftr x 10).

(** The constants are the first 32 bits of the fractional parts of the cube roots
    of the first 64 primes and of the square roots of the first 8. *)
Definition is_prime (n : Z) : bool :=
  forallb (fun d => negb (n mod d =? 0)) (seqZ 2 (Z.sqrt n - 1)).
Definition primes : list Z := List.filter is_prime (seqZ 2 310).
Definition cube_root (n : Z) : Z :=
  foldr (fun b x => let y := x + 2 ^ b in if y * y * y <=? n then y else x) 0 (seqZ 0 40).
Definition round_constants : list Z := (fun p => Z.land (cube_root (p * 2 ^ 96)) mask32) <$> primes.
Definition initial_hash : list Z := (fun p => Z.land (Z.sqrt (p * 2 ^ 64)) mask32) <$> take 8 primes.
Example round_constants_ends :
  length round_constants = 64%nat /\ hd 0 round_constants = 0x428a2f98 /\ last round_constants = Some 0xc67178f2.
Proof. vm_compute. done. Qed.

Fixpoint words (l : bytes) : list Z :=
  match l with
  | b0 :: b1 :: b2 :: b3 :: l => be_word b0 b1 b2 b3 :: words l
  | _ => []
  end.

(** The message schedule, most recent word first. *)
Fixpoint extend (n : nat) (w : list Z) : list Z :=
  match n with
  | O => w
  | S n =>
      let t := add32 (add32 (ssig1 (nth 1 w 0)) (nth 6 w 0)) (add32 (ssig0 (nth 14 w 0)) (nth 15 w 0)) in
      extend n (t :: w)
  end.

Definition round (st : list Z) (kw : Z * Z) : list Z :=
  match st with
  | [a; b; c; d; e; f; g; h] =>
      let t1 := add32 (add32 h (bsig1 e)) (add32 (add32 (ch e f g) (fst kw)) (snd kw)) in
      let t2 := add32 (bsig0 a) (maj a b c) in
      [add32 t1 t2; a; b; c; add32 d t1; e; f; g]
  | _ => st
  end.

Definition compress (h : list Z) (block : list Z) : list Z :=
  let w := reverse (extend 48 (reverse block)) in
  zip_with add32 h (fold_left round (zip round_constants w) h).

Fixpoint blocks (fuel : nat) (ws : list Z) (h : list Z) : list Z :=
  match fuel, ws with
  | S fuel, _ :: _ => blocks fuel (drop 16 ws) (compress h (take 16 ws))
  | _, _ => h
  end.

Definition pad (m : bytes) : bytes :=
  let l := Z.of_nat (length m) in
  let zeros := (55 - l) mod 64 in
  m ++ [x80%byte] ++ replicate (Z.to_nat zeros) x00%byte
    ++ be_bytes (Z.shiftr (8 * l) 32) ++ be_bytes (8 * l).

(** [sha256.Sum256] *)
Definition sha256_sum (m : bytes) : bytes :=
  let ws := words (pad m) in
  concat (map be_bytes (blocks (length ws) ws initial_hash)).

Definition hex_digit (z : Z) : byte := if z <? 10 then Zbyte (48 + z) else Zbyte (87 + z).
(** [hex.EncodeToString] *)
Definition hex_encode (l : bytes) : string :=
  of_bytes (concat (map (fun b => [hex_digit (Z.shiftr (byteZ b) 4); hex_digit (Z.land (byteZ b) 15)]) l)).

Example sha256_abc :
  hex_encode (sha256_sum (to_bytes "abc")) =
  "ba7816bf8f01cfea414140de5dae2223b00361a396177a9cb410ff61f20015ad".
Proof. vm_compute. reflexivity. Qed.

Example sha256_two_blocks :
  hex_encode (sha256_sum (to_bytes "abcdbcdecdefdefgefghfghighijhijkijkljklmklmnlmnomnopnopq")) =
  "248d6a61d20638b8e5c026930c3e6039a33ce45964ff2167f6ecedd419db06c1".
Proof. vm_compute. reflexivity. Qed.

(** The digest a component derives file names and request identities from:
    [hex.EncodeToString(sha256.Sum256(material)[:])]. *)
Class Digest := digest : string -> string.
Definition sha256_digest : Digest := fun m => hex_encode (sha256_sum (to_bytes m)).

(** The materials in [P] have pairwise distinct digests. *)
Definition CollisionFree `{Digest} (P : string -> Prop) : Prop :=
  forall a b, P a -> P b -> digest a = digest b -> a = b.
