(* ===== verification/Connect.v ===== *)
(** * Connect framing (src/cursoragentv1/connect.go)

    The 5-byte Connect envelope: encoding, incremental parsing, the end-stream
    trailer and the HTTP status a Connect error code maps to.  [drain] is the
    frame loop of [Runner.Run]; JSON decoding of the trailer is a parameter. *)
From stdpp Require Import base tactics list strings.
From Stdlib Require Import Strings.Byte.
From S2P Require Import Prelude GoStrings.
Open Scope Z_scope.

Definition connectCompressionFlag : byte := x01%byte.
Definition connectEndStreamFlag : byte := x02%byte.
Definition connectHeaderSize : nat := 5.
Definition maxConnectPayloadSize : Z := Z.shiftl 16 20.

(** [connectError.StatusCode] on a non-nil receiver *)
Definition connectError_StatusCode (code : string) : Z :=
  if bool_decide (code = "unauthenticated") then 401
  else if bool_decide (code = "permission_denied") then 403
  else if bool_decide (code = "invalid_argument") || bool_decide (code = "failed_precondition")
          || bool_decide (code = "out_of_range") then 400
  else if bool_decide (code = "resource_exhausted") then 429
  else if bool_decide (code = "unavailable") then 503
  else 502.

(** [connectError.Error] on a non-nil receiver *)
Definition connectError_Error (code message : string) : string :=
  "cursor Agent v1 Connect error " +:+ code +:+ ": " +:+ message.

Definition connectLimitMiB : Z := Z.shiftr maxConnectPayloadSize 20.

Definition errExceedsConnectLimit (kind : string) : Err :=
  ErrMsg (kind +:+ " exceeds " +:+ Itoa connectLimitMiB +:+ " MiB").
Definition errExceedsConnectLimitSize (kind : string) (n : Z) : Err :=
  ErrMsg (kind +:+ " exceeds " +:+ Itoa connectLimitMiB +:+ " MiB: " +:+ Itoa n).

(** [uint32(len(payload))] truncates to 32 bits. *)
Definition frameConnectWithFlags (payload : bytes) (flags : byte) : bytes :=
  flags :: be_bytes (blen payload mod 2 ^ 32) ++ payload.
Definition frameConnect (payload : bytes) : bytes := frameConnectWithFlags payload x00%byte.

(** The sole production write helper; [write] is the stream's [Write]. *)
Definition writeConnectPayload {S} (write : bytes -> S -> result unit * S)
    (payload : bytes) (target : S) : result unit * S :=
  if maxConnectPayloadSize <? blen payload
  then (Fail (errExceedsConnectLimit "Cursor Agent v1 outbound Connect payload"), target)
  else write (frameConnect payload) target.

(** [Ok None]: not enough bytes yet; [Ok (Some (flags, payload, consumed))]. *)
Definition parseConnectFrame (buffer : bytes) : result (option (byte * bytes * nat)) :=
  match buffer with
  | flags :: b0 :: b1 :: b2 :: b3 :: rest =>
      let length := be_word b0 b1 b2 b3 in
      if maxConnectPayloadSize <? length
      then Fail (errExceedsConnectLimitSize "cursor Agent v1 Connect frame" length)
      else if max_i64 - Z.of_nat connectHeaderSize <? length
      then Fail (ErrMsg ("cursor Agent v1 Connect frame length overflows int: " +:+ Itoa length))
      else
        let total := (connectHeaderSize + Z.to_nat length)%nat in
        if blen buffer <? Z.of_nat total then Ok None
        else Ok (Some (flags, take (Z.to_nat length) rest, total))
  | _ => Ok None
  end.

Section EndStream.
(** [jsonx.Unmarshal] into the trailer struct: [None] on a decoding error,
    otherwise the optional [error] object's code and message. *)
Context (decodeTrailer : bytes -> option (option (string * string))).

(** [None] is Go's nil error. *)
Definition parseConnectEndStream (payload : bytes) : option Err :=
  match payload with
  | [] => None
  | _ =>
      match decodeTrailer payload with
      | None => Some (ErrWrap "parse cursor Agent v1 Connect end stream" (ErrMsg "json"))
      | Some None => None
      | Some (Some (code, message)) =>
          let code := if bool_decide (code = "") then "unknown" else code in
          let message := if bool_decide (message = "") then "unknown error" else message in
          Some (ErrConnect code message)
      end
  end.
End EndStream.

(** The parse loop of [Runner.Run] over its receive buffer: the complete frames,
    the bytes left in the buffer and the error that ended the loop, if any. *)
Fixpoint drain_loop (fuel : nat) (buffer : bytes) : list (byte * bytes) * bytes * option Err :=
  match fuel with
  | O => ([], buffer, None)
  | S fuel =>
      match parseConnectFrame buffer with
      | Fail e => ([], buffer, Some e)
      | Ok None => ([], buffer, None)
      | Ok (Some (flags, payload, consumed)) =>
          let '(frames, rest, err) := drain_loop fuel (drop consumed buffer) in
          ((flags, payload) :: frames, rest, err)
      end
  end.
Definition drain (buffer : bytes) := drain_loop (S (length buffer)) buffer.

(** Receiving a sequence of chunks: [buffer.Write(chunk)], then the loop; the run
    stops at the first error. *)
Fixpoint receive (buffer : bytes) (chunks : list bytes) : list (byte * bytes) * bytes * option Err :=
  match chunks with
  | [] => ([], buffer, None)
  | c :: cs =>
      let '(frames, rest, err) := drain (buffer ++ c) in
      match err with
      | Some _ => (frames, rest, err)
      | None => let '(frames', rest', err') := receive rest cs in (frames ++ frames', rest', err')
      end
  end.

(** ** Lemmas *)

Lemma maxConnectPayloadSize_val : maxConnectPayloadSize = 16777216.
Proof. reflexivity. Qed.

Lemma frame_length payload flags : length (frameConnectWithFlags payload flags) = (5 + length payload)%nat.
Proof. reflexivity. Qed.

Lemma parse_some buffer flags payload consumed :
  parseConnectFrame buffer = Ok (Some (flags, payload, consumed)) ->
  (consumed <= length buffer)%nat /\ (5 <= consumed)%nat /\
  length payload = (consumed - 5)%nat /\ blen payload <= maxConnectPayloadSize /\
  (exists hdr, buffer = hdr ++ payload ++ drop consumed buffer /\ length hdr = 5%nat).
Proof.
  destruct buffer as [|fl [|b0 [|b1 [|b2 [|b3 rest]]]]]; try done.
  cbn [parseConnectFrame]. pose proof (be_word_range b0 b1 b2 b3) as Hr.
  set (w := be_word b0 b1 b2 b3) in *.
  destruct (_ <? w) eqn:E1; [done|]. destruct (_ - _ <? w) eqn:E2; [done|].
  destruct (_ <? Z.of_nat _) eqn:E3; [done|]. intros [= <- <- <-]. bool_hyps.
  unfold connectHeaderSize, blen in *. cbn [length] in *.
  repeat split; try rewrite length_take; try lia.
  exists [fl; b0; b1; b2; b3]. split; [|done]. cbn [Nat.add drop app]. by rewrite take_drop.
Qed.

Lemma parse_app buffer c x :
  parseConnectFrame buffer = Ok (Some x) -> parseConnectFrame (buffer ++ c) = Ok (Some x).
Proof.
  destruct buffer as [|fl [|b0 [|b1 [|b2 [|b3 rest]]]]]; try done.
  cbn [app parseConnectFrame]. pose proof (be_word_range b0 b1 b2 b3) as Hr.
  set (w := be_word b0 b1 b2 b3) in *.
  destruct (_ <? w) eqn:E1; [done|]. destruct (_ - _ <? w) eqn:E2; [done|].
  destruct (_ <? Z.of_nat _) eqn:E3; [done|]. intros [= <-]. bool_hyps.
  unfold connectHeaderSize, blen in *. cbn [length] in *.
  destruct (_ <? Z.of_nat _) eqn:E4; bool_hyps.
  - rewrite length_app in E4. lia.
  - do 4 f_equal. rewrite take_app_le by lia. done.
Qed.

Lemma parse_fail_app buffer c e :
  parseConnectFrame buffer = Fail e -> parseConnectFrame (buffer ++ c) = Fail e.
Proof.
  destruct buffer as [|fl [|b0 [|b1 [|b2 [|b3 rest]]]]]; try done.
  cbn [app parseConnectFrame].
  destruct (_ <? _) eqn:E1; [done|]. destruct (_ - _ <? _) eqn:E2; [done|].
  by destruct (_ <? Z.of_nat _).
Qed.

(** Enough fuel: every iteration consumes at least the header. *)
Lemma drain_loop_fuel n m buffer :
  (length buffer < n)%nat -> (length buffer < m)%nat -> drain_loop n buffer = drain_loop m buffer.
Proof.
  revert m buffer; induction n as [|n IH]; intros [|m] buffer Hn Hm; try lia.
  cbn [drain_loop]. destruct (parseConnectFrame buffer) as [[[[fl p] c]|]|] eqn:E; try done.
  apply parse_some in E as (Hc & H5 & _).
  rewrite (IH m); [done|rewrite length_drop; lia..].
Qed.

Lemma drain_unfold buffer :
  drain buffer =
  match parseConnectFrame buffer with
  | Fail e => ([], buffer, Some e)
  | Ok None => ([], buffer, None)
  | Ok (Some (flags, payload, consumed)) =>
      let '(frames, rest, err) := drain (drop consumed buffer) in
      ((flags, payload) :: frames, rest, err)
  end.
Proof.
  unfold drain at 1. cbn [drain_loop].
  destruct (parseConnectFrame buffer) as [[[[fl p] c]|]|] eqn:E; try done.
  apply parse_some in E as (Hc & H5 & _). unfold drain.
  rewrite (drain_loop_fuel (length buffer) (S (length (drop c buffer)))); [done|rewrite length_drop; lia|lia].
Qed.

(** Appending bytes after a drain resumes where it stopped. *)
Lemma drain_app buffer c frames rest :
  drain buffer = (frames, rest, None) ->
  drain (buffer ++ c) = let '(frames', rest', err) := drain (rest ++ c) in (frames ++ frames', rest', err).
Proof.
  remember (length buffer) as n eqn:Hn. revert buffer frames rest Hn.
  induction n as [n IH] using lt_wf_ind. intros buffer frames rest ->.
  rewrite (drain_unfold buffer).
  destruct (parseConnectFrame buffer) as [[[[fl p] k]|]|] eqn:E; try done.
  - destruct (drain (drop k buffer)) as [[fs r] err] eqn:D. intros [= <- <- ->].
    pose proof (parse_some _ _ _ _ E) as (Hk & H5 & _).
    rewrite (drain_unfold (buffer ++ c)), (parse_app _ c _ E), drop_app_le by done.
    rewrite (IH (length (drop k buffer)) ltac:(rewrite length_drop; lia) _ _ _ eq_refl D).
    by destruct (drain (r ++ c)) as [[? ?] ?].
  - intros [= <- <-]. by destruct (drain (buffer ++ c)) as [[? ?] ?].
Qed.

Lemma drain_fail_app buffer c frames rest e :
  drain buffer = (frames, rest, Some e) -> drain (buffer ++ c) = (frames, rest ++ c, Some e).
Proof.
  remember (length buffer) as n eqn:Hn. revert buffer frames rest Hn.
  induction n as [n IH] using lt_wf_ind. intros buffer frames rest ->.
  rewrite (drain_unfold buffer).
  destruct (parseConnectFrame buffer) as [[[[fl p] k]|]|e'] eqn:E; try done.
  - destruct (drain (drop k buffer)) as [[fs r] err] eqn:D. intros [= <- <- ->].
    pose proof (parse_some _ _ _ _ E) as (Hk & H5 & _).
    rewrite (drain_unfold (buffer ++ c)), (parse_app _ c _ E), drop_app_le by done.
    by rewrite (IH (length (drop k buffer)) ltac:(rewrite length_drop; lia) _ _ _ eq_refl D).
  - intros [= <- <- <-]. by rewrite drain_unfold, (parse_fail_app _ c _ E).
Qed.

Lemma parse_frame payload flags rest :
  blen payload <= maxConnectPayloadSize ->
  parseConnectFrame (frameConnectWithFlags payload flags ++ rest) =
  Ok (Some (flags, payload, (5 + length payload)%nat)).
Proof.
  intros Hl. rewrite maxConnectPayloadSize_val in Hl. unfold blen in Hl.
  unfold frameConnectWithFlags. cbn [app].
  assert (0 <= blen payload < 2 ^ 32) by (unfold blen; lia).
  rewrite Z.mod_small by done.
  destruct (be_bytes (blen payload)) as [|b0 [|b1 [|b2 [|b3 [|]]]]] eqn:B; try done.
  cbn [app parseConnectFrame]. rewrite (be_word_bytes (blen payload) b0 b1 b2 b3) by done.
  rewrite maxConnectPayloadSize_val. unfold blen, max_i64, connectHeaderSize in *.
  rewrite Nat2Z.id. cbn [length]. rewrite length_app.
  rewrite !(proj2 (Z.ltb_ge _ _)) by lia. by rewrite take_app_length.
Qed.

Definition encode_frames (frames : list (byte * bytes)) : bytes :=
  concat (map (fun f => frameConnectWithFlags (snd f) (fst f)) frames).
Definition frames_fit (frames : list (byte * bytes)) : bool :=
  forallb (fun f => blen (snd f) <=? maxConnectPayloadSize) frames.

Lemma drain_encode frames :
  frames_fit frames = true -> drain (encode_frames frames) = (frames, [], None).
Proof.
  induction frames as [|[fl p] frames IH]; [done|].
  intros H. unfold frames_fit in H. cbn [forallb snd] in H. bool_hyps.
  rewrite drain_unfold. unfold encode_frames. cbn [map concat fst snd].
  rewrite parse_frame by done.
  rewrite drop_app_length' by (by rewrite frame_length).
  fold (encode_frames frames). by rewrite IH.
Qed.

Lemma drain_rest_id buffer frames rest : drain buffer = (frames, rest, None) -> drain rest = ([], rest, None).
Proof.
  remember (length buffer) as n eqn:Hn. revert buffer frames rest Hn.
  induction n as [n IH] using lt_wf_ind. intros buffer frames rest ->.
  rewrite (drain_unfold buffer).
  destruct (parseConnectFrame buffer) as [[[[fl p] k]|]|] eqn:E; try done.
  - destruct (drain (drop k buffer)) as [[fs r] err] eqn:D. intros [= <- <- ->].
    pose proof (parse_some _ _ _ _ E) as (Hk & H5 & _).
    eapply (IH (length (drop k buffer))); [rewrite length_drop; lia|done|exact D].
  - intros [= <- <-]. by rewrite drain_unfold, E.
Qed.

(** Receiving chunk by chunk from a drained buffer. *)
Lemma receive_concat chunks buffer :
  drain buffer = ([], buffer, None) ->
  let '(frames, rest, err) := receive buffer chunks in
  let '(frames', rest', err') := drain (buffer ++ concat chunks) in
  frames = frames' /\ err = err' /\ (err = None -> rest = rest').
Proof.
  revert buffer; induction chunks as [|c cs IH]; intros buffer Hb; cbn [receive concat].
  { rewrite app_nil_r, Hb. done. }
  rewrite app_assoc. destruct (drain (buffer ++ c)) as [[fs r] [e|]] eqn:D.
  - rewrite (drain_fail_app _ (concat cs) _ _ _ D). done.
  - rewrite (drain_app _ (concat cs) _ _ D).
    specialize (IH r (drain_rest_id _ _ _ D)).
    destruct (receive r cs) as [[fs' r'] err'].
    destruct (drain (r ++ concat cs)) as [[fs'' r''] err'']. naive_solver.
Qed.

(** ** Properties *)

(** The stream survives any segmentation: however the network cuts the bytes
    of a sequence of frames into chunks, the receive loop returns exactly those
    frames, in order, with an empty buffer and no error. *)
Theorem chunked_frames_roundtrip (frames : list (byte * bytes)) (chunks : list bytes) :
  frames_fit frames = true -> concat chunks = encode_frames frames ->
  receive [] chunks = (frames, [], None).
Proof.
  intros Hf Hc. pose proof (receive_concat chunks [] eq_refl) as H.
  destruct (receive [] chunks) as [[fs r] err]. rewrite app_nil_l, Hc, drain_encode in H by done. naive_solver.
Qed.

Lemma drain_bounded buffer frames rest err :
  drain buffer = (frames, rest, err) ->
  frames_fit frames = true /\ (err = None -> blen rest < 5 + maxConnectPayloadSize).
Proof.
  remember (length buffer) as n eqn:Hn. revert buffer frames rest Hn.
  induction n as [n IH] using lt_wf_ind. intros buffer frames rest ->. rewrite (drain_unfold buffer).
  destruct (parseConnectFrame buffer) as [[[[fl p] k]|]|] eqn:E.
  - destruct (drain (drop k buffer)) as [[fs r] err'] eqn:D. intros [= <- <- ->].
    pose proof (parse_some _ _ _ _ E) as (Hk & H5 & _ & Hp & _).
    destruct (IH (length (drop k buffer)) ltac:(rewrite length_drop; lia) _ _ _ eq_refl D) as [H1 H2].
    split; [|done]. unfold frames_fit in *. cbn [forallb snd]. by rewrite H1, (proj2 (Z.leb_le _ _) Hp).
  - intros [= <- <- <-]. split; [done|]. intros _. revert E.
    destruct buffer as [|fl [|b0 [|b1 [|b2 [|b3 b]]]]]; try (intros _; rewrite maxConnectPayloadSize_val; unfold blen; simpl; lia).
    cbn [parseConnectFrame]. pose proof (be_word_range b0 b1 b2 b3).
    destruct (_ <? be_word _ _ _ _) eqn:E1; [done|]. destruct (_ - _ <? _) eqn:E2; [done|].
    destruct (_ <? Z.of_nat _) eqn:E3; [|done]. intros _. bool_hyps. unfold connectHeaderSize in *. lia.
  - intros [= <- <- <-]. done.
Qed.

(** Memory is bounded against any peer: whatever bytes arrive, every payload
    handed to the decoder is within the 16 MiB limit, and unless the run has
    failed the unread buffer holds less than one maximal frame. *)
Theorem receive_bounded (chunks : list bytes) (buffer : bytes) :
  blen buffer < 5 + maxConnectPayloadSize ->
  let '(frames, rest, err) := receive buffer chunks in
  frames_fit frames = true /\ (err = None -> blen rest < 5 + maxConnectPayloadSize).
Proof.
  revert buffer; induction chunks as [|c cs IH]; intros buffer Hb; cbn [receive]; [done|].
  destruct (drain (buffer ++ c)) as [[fs r] [e|]] eqn:D; destruct (drain_bounded _ _ _ _ D) as [H1 H2]; [done|].
  specialize (IH r (H2 eq_refl)). destruct (receive r cs) as [[fs' r'] err']. destruct IH as [H3 H4].
  split; [|done]. unfold frames_fit in *. by rewrite forallb_app, H1, H3.
Qed.

(** The writer never emits what the reader refuses: a payload within the
    limit is written as one frame that parses back to itself, and a larger one
    fails before a single byte reaches the stream. *)
Theorem write_connect_payload_checked {S} (write : bytes -> S -> result unit * S) (payload : bytes) (target : S) :
  (blen payload <= maxConnectPayloadSize /\
   writeConnectPayload write payload target = write (frameConnect payload) target /\
   drain (frameConnect payload) = ([(x00%byte, payload)], [], None)) \/
  (maxConnectPayloadSize < blen payload /\ exists e, writeConnectPayload write payload target = (Fail e, target)).
Proof.
  unfold writeConnectPayload. destruct (_ <? _) eqn:E; bool_hyps; [by right; eauto|left].
  split_and!; [done..|]. pose proof (drain_encode [(x00%byte, payload)]) as H.
  unfold encode_frames, frames_fit in H. cbn [map concat fst snd forallb] in H. rewrite app_nil_r in H.
  apply H. by rewrite (proj2 (Z.leb_le _ _) E).
Qed.

Definition sample_frames : list (byte * bytes) :=
  [(x00%byte, to_bytes "hi"); (x02%byte, to_bytes "{}")].

Lemma chunked_frames_roundtrip_witness :
  receive [] [take 3 (encode_frames sample_frames); []; drop 3 (encode_frames sample_frames)]
  = (sample_frames, [], None).
Proof. apply chunked_frames_roundtrip; vm_compute; reflexivity. Defined.
Lemma receive_bounded_witness :
  let '(frames, rest, err) := receive [x00%byte] [take 7 (drop 1 (encode_frames sample_frames))] in
  frames_fit frames = true /\ (err = None -> blen rest < 5 + maxConnectPayloadSize).
Proof. apply (receive_bounded [take 7 (drop 1 (encode_frames sample_frames))] [x00%byte]). vm_compute. reflexivity. Defined.
