(* ===== verification/Data.v ===== *)
(** * Data shared by the components

    The structs of src/cursoragentv1/{runner,state,media,usage_observation}.go.
    A nil and an empty slice are the same list (the code only asks for [len]), a
    nil pointer is [None], a [map] is a [gmap], a [time.Time] is its distance from
    the Unix epoch in nanoseconds. *)
From stdpp Require Import base tactics list gmap strings.
From Stdlib Require Import Strings.Byte.
From S2P Require Import Prelude GoStrings.
Open Scope Z_scope.

#[export] Instance byte_eq_dec : EqDecision byte := Byte.byte_eq_dec.

(** ** Time and durations *)
Abbreviation time := Z.
Definition zeroTime : time := -62135596800 * 1000000000.
Definition IsZero (t : time) : bool := t =? zeroTime.
(** [t.Sub(u)] saturates at the [time.Duration] range. *)
Definition Sub (t u : time) : Z := Z.max min_i64 (Z.min max_i64 (t - u)).
Definition Second : Z := 1000000000.
Definition Minute : Z := 60 * Second.
Definition Hour : Z := 60 * Minute.

(** ** Limits (state.go, runner.go) *)
Definition maxStateFileSize : Z := Z.shiftl 256 20.
Definition maxPendingTools : Z := 256.
Definition maxPendingToolBytes : Z := Z.shiftl 256 20.
Definition maxCompletedEventBytes : Z := Z.shiftl 16 20.
Definition maxStateFiles : Z := 10000.
Definition defaultStateTTL : Z := 30 * 24 * Hour.
Definition completedTombstoneTTL : Z := 5 * Minute.
Definition stateGCInterval : Z := Hour.
Definition maxBlobSize : Z := Z.shiftl 16 20.
Definition maxBlobStoreSize : Z := Z.shiftl 32 20.
Definition stateVersionV1 : Z := 1.
Definition stateVersion : Z := 2.

(** ** Events (runner.go) *)
Inductive EventType : Type :=
  | EventZero                      (* the zero value of a decoded event *)
  | EventText | EventThinking | EventUsage | EventCheckpoint | EventToolCall
  | EventToolResultAccepted | EventTurnEnded | EventHostedSearchCall | EventDone
  | EventHostedSearchStarted | EventHostedSearchCompleted | EventThinkingCompleted
  | EventUsageObservation.
#[export] Instance EventType_eq_dec : EqDecision EventType.
Proof. solve_decision. Defined.

Definition EventType_code (t : EventType) : Z :=
  match t with
  | EventZero => 0 | EventText => 1 | EventThinking => 2 | EventUsage => 3
  | EventCheckpoint => 4 | EventToolCall => 5 | EventToolResultAccepted => 6
  | EventTurnEnded => 7 | EventHostedSearchCall => 8 | EventDone => 9
  | EventHostedSearchStarted => 10 | EventHostedSearchCompleted => 11
  | EventThinkingCompleted => 12 | EventUsageObservation => 13
  end.

Definition HostedSearchKindWebSearch : string := "web_search".
Definition HostedSearchKindWebFetch : string := "web_fetch".
Definition HostedSearchKindExaSearch : string := "exa_search".
Definition HostedSearchKindExaFetch : string := "exa_fetch".

Record HostedSearchReference := { hr_Title : string; hr_URL : string; hr_Chunk : string }.
#[export] Instance HostedSearchReference_eq_dec : EqDecision HostedSearchReference.
Proof. solve_decision. Defined.

Record HostedSearch := {
  hs_CallID : string; hs_Kind : string; hs_Query : string; hs_URL : string;
  hs_ArgsJSON : string; hs_References : list HostedSearchReference;
  hs_Content : string; hs_Error : string }.
#[export] Instance HostedSearch_eq_dec : EqDecision HostedSearch.
Proof. solve_decision. Defined.

Record ToolDefinition := { td_Name : string; td_Description : string; td_InputSchema : bytes }.
#[export] Instance ToolDefinition_eq_dec : EqDecision ToolDefinition.
Proof. solve_decision. Defined.

Record ToolCall := {
  tc_MessageID : Z; tc_ExecID : string; tc_ToolCallID : string;
  tc_Name : string; tc_Arguments : string }.
#[export] Instance ToolCall_eq_dec : EqDecision ToolCall.
Proof. solve_decision. Defined.

Record MediaPart := { mp_Kind : string; mp_MimeType : string; mp_Data : string; mp_Filename : string }.
#[export] Instance MediaPart_eq_dec : EqDecision MediaPart.
Proof. solve_decision. Defined.

Record ToolResult := {
  tr_ToolCallID : string; tr_Content : string; tr_IsError : bool; tr_Media : list MediaPart }.
#[export] Instance ToolResult_eq_dec : EqDecision ToolResult.
Proof. solve_decision. Defined.

(** ** Usage counters (usage_observation.go) *)
Inductive UsageKind : Type := UsageKindUnknown | UsageKindTokenDelta | UsageKindTurnEnded.
#[export] Instance UsageKind_eq_dec : EqDecision UsageKind.
Proof. solve_decision. Defined.
Definition UsageKind_code (k : UsageKind) : Z :=
  match k with UsageKindUnknown => 0 | UsageKindTokenDelta => 1 | UsageKindTurnEnded => 2 end.

Record ObservedCount := { oc_Present : bool; oc_Invalid : bool; oc_Value : Z }.
#[export] Instance ObservedCount_eq_dec : EqDecision ObservedCount.
Proof. solve_decision. Defined.
Definition noCount : ObservedCount := {| oc_Present := false; oc_Invalid := false; oc_Value := 0 |}.

Record UsageObservation := {
  uo_Carried : bool; uo_Kind : UsageKind; uo_TokenDelta : ObservedCount;
  uo_Input : ObservedCount; uo_Output : ObservedCount; uo_CacheRead : ObservedCount;
  uo_CacheWrite : ObservedCount; uo_Reasoning : ObservedCount }.
#[export] Instance UsageObservation_eq_dec : EqDecision UsageObservation.
Proof. solve_decision. Defined.

Record Event := {
  ev_Type : EventType; ev_Text : string; ev_Signature : string; ev_ProgressEvents : Z;
  ev_Tokens : Z; ev_Usage : option UsageObservation; ev_Checkpoint : bytes;
  ev_Blobs : gmap string bytes; ev_ToolCall : option ToolCall;
  ev_ToolResult : option ToolResult; ev_HostedSearch : option HostedSearch }.
#[export] Instance Event_eq_dec : EqDecision Event.
Proof. solve_decision. Defined.

(** [Event{Type: t}] *)
Definition event_of (t : EventType) : Event :=
  {| ev_Type := t; ev_Text := ""; ev_Signature := ""; ev_ProgressEvents := 0; ev_Tokens := 0;
     ev_Usage := None; ev_Checkpoint := []; ev_Blobs := ∅; ev_ToolCall := None;
     ev_ToolResult := None; ev_HostedSearch := None |}.
Definition with_text (txt : string) (e : Event) : Event :=
  {| ev_Type := ev_Type e; ev_Text := txt; ev_Signature := ev_Signature e;
     ev_ProgressEvents := ev_ProgressEvents e; ev_Tokens := ev_Tokens e; ev_Usage := ev_Usage e;
     ev_Checkpoint := ev_Checkpoint e; ev_Blobs := ev_Blobs e; ev_ToolCall := ev_ToolCall e;
     ev_ToolResult := ev_ToolResult e; ev_HostedSearch := ev_HostedSearch e |}.
Definition with_progress (n : Z) (e : Event) : Event :=
  {| ev_Type := ev_Type e; ev_Text := ev_Text e; ev_Signature := ev_Signature e;
     ev_ProgressEvents := n; ev_Tokens := ev_Tokens e; ev_Usage := ev_Usage e;
     ev_Checkpoint := ev_Checkpoint e; ev_Blobs := ev_Blobs e; ev_ToolCall := ev_ToolCall e;
     ev_ToolResult := ev_ToolResult e; ev_HostedSearch := ev_HostedSearch e |}.
Definition with_usage (tokens : Z) (u : option UsageObservation) (e : Event) : Event :=
  {| ev_Type := ev_Type e; ev_Text := ev_Text e; ev_Signature := ev_Signature e;
     ev_ProgressEvents := ev_ProgressEvents e; ev_Tokens := tokens; ev_Usage := u;
     ev_Checkpoint := ev_Checkpoint e; ev_Blobs := ev_Blobs e; ev_ToolCall := ev_ToolCall e;
     ev_ToolResult := ev_ToolResult e; ev_HostedSearch := ev_HostedSearch e |}.
Definition with_tool_call (c : option ToolCall) (e : Event) : Event :=
  {| ev_Type := ev_Type e; ev_Text := ev_Text e; ev_Signature := ev_Signature e;
     ev_ProgressEvents := ev_ProgressEvents e; ev_Tokens := ev_Tokens e; ev_Usage := ev_Usage e;
     ev_Checkpoint := ev_Checkpoint e; ev_Blobs := ev_Blobs e; ev_ToolCall := c;
     ev_ToolResult := ev_ToolResult e; ev_HostedSearch := ev_HostedSearch e |}.

Definition with_payload (cp : bytes) (blobs : gmap string bytes) (e : Event) : Event :=
  {| ev_Type := ev_Type e; ev_Text := ev_Text e; ev_Signature := ev_Signature e;
     ev_ProgressEvents := ev_ProgressEvents e; ev_Tokens := ev_Tokens e; ev_Usage := ev_Usage e;
     ev_Checkpoint := cp; ev_Blobs := blobs; ev_ToolCall := ev_ToolCall e;
     ev_ToolResult := ev_ToolResult e; ev_HostedSearch := ev_HostedSearch e |}.

(** [cloneEvent] copies everything behind the pointers and drops the checkpoint
    payload, which is persisted separately. *)
Definition cloneEvent (e : Event) : Event :=
  {| ev_Type := ev_Type e; ev_Text := ev_Text e; ev_Signature := ev_Signature e;
     ev_ProgressEvents := ev_ProgressEvents e; ev_Tokens := ev_Tokens e; ev_Usage := ev_Usage e;
     ev_Checkpoint := []; ev_Blobs := ∅; ev_ToolCall := ev_ToolCall e;
     ev_ToolResult := ev_ToolResult e; ev_HostedSearch := ev_HostedSearch e |}.

Lemma cloneEvent_idemp e : cloneEvent (cloneEvent e) = cloneEvent e.
Proof. reflexivity. Qed.

(** ** Persisted events (completed_state.go) *)
Record persistedEvent := {
  pe_Type : EventType; pe_Text : string; pe_Signature : string; pe_ProgressEvents : Z;
  pe_Tokens : Z; pe_Usage : option UsageObservation; pe_ToolCall : option ToolCall;
  pe_ToolResult : option ToolResult; pe_HostedSearch : option HostedSearch }.
#[export] Instance persistedEvent_eq_dec : EqDecision persistedEvent.
Proof. solve_decision. Defined.

Definition persistedEventFrom (e : Event) : persistedEvent :=
  {| pe_Type := ev_Type e; pe_Text := ev_Text e; pe_Signature := ev_Signature e;
     pe_ProgressEvents := ev_ProgressEvents e; pe_Tokens := ev_Tokens e; pe_Usage := ev_Usage e;
     pe_ToolCall := ev_ToolCall e; pe_ToolResult := ev_ToolResult e;
     pe_HostedSearch := ev_HostedSearch e |}.

(** The [Event] literal of [eventsFromPersisted]. *)
Definition eventFromPersisted (p : persistedEvent) : Event :=
  {| ev_Type := pe_Type p; ev_Text := pe_Text p; ev_Signature := pe_Signature p;
     ev_ProgressEvents := pe_ProgressEvents p; ev_Tokens := pe_Tokens p; ev_Usage := pe_Usage p;
     ev_Checkpoint := []; ev_Blobs := ∅; ev_ToolCall := pe_ToolCall p;
     ev_ToolResult := pe_ToolResult p; ev_HostedSearch := pe_HostedSearch p |}.

Lemma eventFromPersisted_from e : eventFromPersisted (persistedEventFrom e) = cloneEvent e.
Proof. reflexivity. Qed.

(** ** Persisted state (state.go) *)
Record PendingTool := {
  pt_MessageID : Z; pt_ExecID : string; pt_ToolCallID : string;
  pt_UpstreamToolCallID : string; pt_Name : string; pt_Arguments : string }.
#[export] Instance PendingTool_eq_dec : EqDecision PendingTool.
Proof. solve_decision. Defined.

Record CompletedToolResult := {
  cr_ToolCallID : string; cr_Content : string; cr_IsError : bool; cr_Media : list MediaPart }.
#[export] Instance CompletedToolResult_eq_dec : EqDecision CompletedToolResult.
Proof. solve_decision. Defined.

Record CompletedReplay := {
  rp_RequestSegmentID : string; rp_SessionID : string; rp_ConversationID : string;
  rp_BillingRunID : string; rp_OriginalBatch : list string; rp_Events : list Event;
  rp_HasPending : bool; rp_FollowUpText : string }.
#[export] Instance CompletedReplay_eq_dec : EqDecision CompletedReplay.
Proof. solve_decision. Defined.

Definition runtimeAgentV1 : string := "agent_v1".
Definition runtimeSand : string := "sand".
