(* ===== verification/Json.v ===== *)
(** * [encoding/json] output for the persisted event records

    [json_string] is [json.Marshal] of a string (HTML escaping on, invalid UTF-8
    replaced); [json_persistedEvent] the encoding of
    [persistedEvent] (src/cursoragentv1/completed_state.go) with its [omitempty]
    fields.  The snapshot budget of [EventSnapshot] is counted in these bytes. *)
From stdpp Require Import base tactics list gmap strings.
From Stdlib Require Import Strings.Byte.
From S2P Require Import Prelude GoStrings Data.
Open Scope Z_scope.

Abbreviation lit := String.list_byte_of_string.

(** ** UTF-8 ([utf8.DecodeRune]) *)
Definition in_range (lo hi : Z) (b : byte) : bool := (lo <=? byteZ b) && (byteZ b <=? hi).
Definition is_cont (b : byte) : bool := in_range 128 191 b.

Definition second_ok3 (b0 b1 : byte) : bool :=
  if byteZ b0 =? 224 then in_range 160 191 b1
  else if byteZ b0 =? 237 then in_range 128 159 b1 else is_cont b1.
Definition second_ok4 (b0 b1 : byte) : bool :=
  if byteZ b0 =? 240 then in_range 144 191 b1
  else if byteZ b0 =? 244 then in_range 128 143 b1 else is_cont b1.

(** Size of the rune at the head of [l]; [0] when the encoding is invalid. *)
Definition rune_len (l : bytes) : nat :=
  match l with
  | [] => 0
  | b0 :: l =>
      if byteZ b0 <? 128 then 1
      else if in_range 194 223 b0 then
        match l with b1 :: _ => if is_cont b1 then 2 else 0 | _ => 0 end
      else if in_range 224 239 b0 then
        match l with
        | b1 :: b2 :: _ => if second_ok3 b0 b1 && is_cont b2 then 3 else 0
        | _ => 0
        end
      else if in_range 240 244 b0 then
        match l with
        | b1 :: b2 :: b3 :: _ => if second_ok4 b0 b1 && is_cont b2 && is_cont b3 then 4 else 0
        | _ => 0
        end
      else 0
  end.

Definition u_escape (z : Z) : bytes :=
  let hexd d := if d <? 10 then Zbyte (48 + d) else Zbyte (87 + d) in
  lit "\u00" ++ [hexd (Z.shiftr z 4); hexd (Z.land z 15)].

Definition escape_ascii (b : byte) : bytes :=
  let z := byteZ b in
  if (z =? 34) || (z =? 92) then [x5c%byte; b]
  else if z =? 8 then lit "\b" else if z =? 12 then lit "\f" else if z =? 10 then lit "\n"
  else if z =? 13 then lit "\r" else if z =? 9 then lit "\t"
  else if (z <? 32) || (z =? 60) || (z =? 62) || (z =? 38) then u_escape z
  else [b].

(** What the encoder writes for the rune of size [n] at the head of [l]. *)
Definition emit (n : nat) (l : bytes) : bytes :=
  match n, l with
  | O, _ => lit "\ufffd"
  | 1%nat, b :: _ => escape_ascii b
  | 3%nat, [xe2; x80; xa8]%byte => lit "\u2028"
  | 3%nat, [xe2; x80; xa9]%byte => lit "\u2029"
  | _, _ => l
  end.

Fixpoint json_body_fuel (fuel : nat) (l : bytes) : bytes :=
  match fuel, l with
  | S fuel, _ :: _ =>
      let n := rune_len l in
      emit n (take n l) ++ json_body_fuel fuel (drop (Nat.max 1 n) l)
  | _, _ => []
  end.
Definition json_body (l : bytes) : bytes := json_body_fuel (length l) l.
Definition json_string (s : string) : bytes := [x22%byte] ++ json_body (to_bytes s) ++ [x22%byte].

(** ** Values and structs *)
Definition json_int (z : Z) : bytes := to_bytes (Itoa z).
Definition json_bool (b : bool) : bytes := lit (if b then "true" else "false").

Fixpoint comma (parts : list bytes) : bytes :=
  match parts with
  | [] => []
  | [p] => p
  | p :: ps => p ++ lit "," ++ comma ps
  end.
Definition json_array (parts : list bytes) : bytes := lit "[" ++ comma parts ++ lit "]".
Definition json_list (parts : list bytes) : bytes :=
  match parts with [] => lit "null" | _ => json_array parts end.
Definition json_field (name : string) (v : bytes) : bytes := json_string name ++ lit ":" ++ v.
Definition json_object (fields : list bytes) : bytes := lit "{" ++ comma fields ++ lit "}".
(** An [omitempty] field. *)
Definition omit (empty : bool) (f : bytes) : list bytes := if empty then [] else [f].

Definition json_count (c : ObservedCount) : bytes :=
  json_object [json_field "Present" (json_bool (oc_Present c)); json_field "Invalid" (json_bool (oc_Invalid c));
               json_field "Value" (json_int (oc_Value c))].
Definition json_usage (u : UsageObservation) : bytes :=
  json_object [json_field "Carried" (json_bool (uo_Carried u));
    json_field "Kind" (json_int (UsageKind_code (uo_Kind u)));
    json_field "TokenDelta" (json_count (uo_TokenDelta u)); json_field "Input" (json_count (uo_Input u));
    json_field "Output" (json_count (uo_Output u)); json_field "CacheRead" (json_count (uo_CacheRead u));
    json_field "CacheWrite" (json_count (uo_CacheWrite u)); json_field "Reasoning" (json_count (uo_Reasoning u))].
Definition json_tool_call (c : ToolCall) : bytes :=
  json_object [json_field "MessageID" (json_int (tc_MessageID c)); json_field "ExecID" (json_string (tc_ExecID c));
    json_field "ToolCallID" (json_string (tc_ToolCallID c)); json_field "Name" (json_string (tc_Name c));
    json_field "Arguments" (json_string (tc_Arguments c))].
Definition json_media (m : MediaPart) : bytes :=
  json_object ([json_field "kind" (json_string (mp_Kind m)); json_field "mime_type" (json_string (mp_MimeType m));
     json_field "data" (json_string (mp_Data m))]
    ++ omit (bool_decide (mp_Filename m = "")) (json_field "filename" (json_string (mp_Filename m)))).
Definition json_tool_result (r : ToolResult) : bytes :=
  json_object [json_field "ToolCallID" (json_string (tr_ToolCallID r)); json_field "Content" (json_string (tr_Content r));
    json_field "IsError" (json_bool (tr_IsError r)); json_field "Media" (json_list (json_media <$> tr_Media r))].
Definition json_reference (r : HostedSearchReference) : bytes :=
  json_object [json_field "Title" (json_string (hr_Title r)); json_field "URL" (json_string (hr_URL r));
    json_field "Chunk" (json_string (hr_Chunk r))].
Definition json_hosted (h : HostedSearch) : bytes :=
  json_object [json_field "CallID" (json_string (hs_CallID h)); json_field "Kind" (json_string (hs_Kind h));
    json_field "Query" (json_string (hs_Query h)); json_field "URL" (json_string (hs_URL h));
    json_field "ArgsJSON" (json_string (hs_ArgsJSON h));
    json_field "References" (json_list (json_reference <$> hs_References h));
    json_field "Content" (json_string (hs_Content h)); json_field "Error" (json_string (hs_Error h))].

Definition omit_opt {A} (name : string) (enc : A -> bytes) (o : option A) : list bytes :=
  match o with Some a => [json_field name (enc a)] | None => [] end.

(** [json.Marshal] of a [persistedEvent] *)
Definition json_persistedEvent (e : persistedEvent) : bytes :=
  json_object
    ([json_field "type" (json_int (EventType_code (pe_Type e)))]
     ++ omit (bool_decide (pe_Text e = "")) (json_field "text" (json_string (pe_Text e)))
     ++ omit (bool_decide (pe_Signature e = "")) (json_field "signature" (json_string (pe_Signature e)))
     ++ omit (pe_ProgressEvents e =? 0) (json_field "progress_events" (json_int (pe_ProgressEvents e)))
     ++ omit (pe_Tokens e =? 0) (json_field "tokens" (json_int (pe_Tokens e)))
     ++ omit_opt "usage" json_usage (pe_Usage e) ++ omit_opt "tool_call" json_tool_call (pe_ToolCall e)
     ++ omit_opt "tool_result" json_tool_result (pe_ToolResult e)
     ++ omit_opt "hosted_search" json_hosted (pe_HostedSearch e)).

Example json_event_ex :
  length (json_persistedEvent (persistedEventFrom (with_text "a<b" (event_of EventText)))) = 28%nat.
Proof. vm_compute. reflexivity. Qed.

(** ** Lengths of encoded strings *)

Definition jlen (l : bytes) : nat := length (json_body l).

Lemma rune_len_le4 l : (rune_len l <= 4)%nat.
Proof. unfold rune_len. repeat (go_case; try lia). Qed.
Lemma rune_len_le l : (rune_len l <= length l)%nat.
Proof. unfold rune_len. repeat (go_case; simpl; try lia). Qed.

Lemma json_body_fuel_ge n m l :
  (length l <= n)%nat -> (length l <= m)%nat -> json_body_fuel n l = json_body_fuel m l.
Proof.
  revert m l; induction n as [|n IH]; intros [|m] [|b l] Hn Hm; simpl in Hn, Hm; try done; try lia.
  cbn [json_body_fuel]. f_equal. apply IH; rewrite length_drop; cbn [length]; lia.
Qed.

Lemma json_body_cons l :
  l <> [] -> json_body l = emit (rune_len l) (take (rune_len l) l) ++ json_body (drop (Nat.max 1 (rune_len l)) l).
Proof.
  destruct l as [|b l]; [done|]. intros _. unfold json_body at 1.
  change (json_body_fuel (length (b :: l)) (b :: l)) with
    (emit (rune_len (b :: l)) (take (rune_len (b :: l)) (b :: l)) ++
     json_body_fuel (length l) (drop (Nat.max 1 (rune_len (b :: l))) (b :: l))).
  f_equal. unfold json_body. apply json_body_fuel_ge; rewrite length_drop; cbn [length]; lia.
Qed.

Lemma jlen_nil : jlen [] = 0%nat.
Proof. done. Qed.
Lemma jlen_cons l :
  l <> [] ->
  jlen l = (length (emit (rune_len l) (take (rune_len l) l)) + jlen (drop (Nat.max 1 (rune_len l)) l))%nat.
Proof. intros H. unfold jlen. by rewrite (json_body_cons l H), length_app. Qed.

Lemma escape_ascii_length b : (length (escape_ascii b) <= 6)%nat.
Proof.
  unfold escape_ascii. cbv zeta.
  repeat match goal with |- context [if ?c then _ else _] => destruct c end; cbn [length]; try (vm_compute; lia).
Qed.

Lemma emit_length_aux n l : (n <= 4)%nat -> (length l <= n)%nat -> (length (emit n l) <= 6)%nat.
Proof.
  intros Hn Hl. destruct n as [|[|[|[|[|]]]]]; try lia.
  - vm_compute. lia.
  - destruct l; cbn [emit]; [cbn [length]; lia|apply escape_ascii_length].
  - cbn [emit]. lia.
  - destruct l as [|a l]; [cbn [emit length]; lia|]. destruct a; try (cbn [emit]; lia).
    destruct l as [|b l]; [cbn [emit length]; lia|]. destruct b; try (cbn [emit]; lia).
    destruct l as [|c l]; [cbn [emit length]; lia|].
    destruct l as [|d l]; [|cbn [length] in Hl; lia]. destruct c; vm_compute; lia.
  - cbn [emit]. lia.
Qed.

Lemma emit_length l : (length (emit (rune_len l) (take (rune_len l) l)) <= 6)%nat.
Proof.
  apply emit_length_aux; [apply rune_len_le4|]. rewrite length_take. lia.
Qed.

(** Once the head of [l] decodes, what follows does not change it. *)
Lemma rune_len_app l k : rune_len l <> 0%nat -> rune_len (l ++ k) = rune_len l.
Proof.
  destruct l as [|b0 l]; [done|]. cbn [app rune_len].
  destruct (_ <? 128); [done|]. destruct (in_range 194 223 b0).
  { by destruct l as [|b1 l]. }
  destruct (in_range 224 239 b0).
  { by destruct l as [|b1 [|b2 l]]. }
  destruct (in_range 240 244 b0); [|done].
  by destruct l as [|b1 [|b2 [|b3 l]]].
Qed.
Lemma rune_len_prefix l k :
  (rune_len (l ++ k) <= length l)%nat -> l <> [] -> rune_len l = rune_len (l ++ k).
Proof.
  destruct l as [|b0 l]; [done|]. intros H _. revert H. cbn [app rune_len length].
  destruct (_ <? 128); [done|]. destruct (in_range 194 223 b0).
  { destruct l as [|b1 l]; [|done]. destruct k as [|b1 k]; [done|]. cbn [app length]. go_case; [lia|done]. }
  destruct (in_range 224 239 b0).
  { destruct l as [|b1 [|b2 l]]; [| |done]; destruct k as [|c0 [|c1 k]]; cbn [app length]; try done;
      go_case; try lia; done. }
  destruct (in_range 240 244 b0); [|done].
  destruct l as [|b1 [|b2 [|b3 l]]]; [..|done]; destruct k as [|c0 [|c1 [|c2 k]]]; cbn [app length]; try done;
    go_case; try lia; done.
Qed.

Lemma second_ok_cont b0 b1 : second_ok3 b0 b1 = true \/ second_ok4 b0 b1 = true -> is_cont b1 = true.
Proof.
  unfold second_ok3, second_ok4, is_cont, in_range. intros H.
  apply andb_true_iff. rewrite !Z.leb_le.
  destruct H as [H|H]; repeat (destruct (_ =? _) in H); bool_hyps; lia.
Qed.

Lemma rune_tail_cont l n :
  rune_len l = S n -> Forall (fun b => is_cont b = true) (take n (drop 1 l)).
Proof.
  destruct l as [|b0 l]; [done|]. cbn [rune_len drop].
  destruct (_ <? 128); [intros [= <-]; constructor|]. destruct (in_range 194 223 b0).
  { destruct l as [|b1 l]; [done|]. destruct (is_cont b1) eqn:E; [|done]. intros [= <-]. by repeat constructor. }
  destruct (in_range 224 239 b0).
  { destruct l as [|b1 [|b2 l]]; [done..|]. destruct (_ && _) eqn:E; [|done]. intros [= <-].
    bool_hyps. repeat constructor; eauto using second_ok_cont. }
  destruct (in_range 240 244 b0); [|done].
  destruct l as [|b1 [|b2 [|b3 l]]]; [done..|]. destruct (_ && _ && _) eqn:E; [|done]. intros [= <-].
  bool_hyps. repeat constructor; eauto using second_ok_cont.
Qed.

Lemma rune_len_cont b l : is_cont b = true -> rune_len (b :: l) = 0%nat.
Proof.
  unfold is_cont, in_range. intros H. bool_hyps. cbn [rune_len]. unfold in_range.
  rewrite (proj2 (Z.ltb_ge _ _)) by lia.
  rewrite !(proj2 (Z.leb_gt _ (byteZ b))) by lia. done.
Qed.

Lemma jlen_conts p l : Forall (fun b => is_cont b = true) p -> jlen (p ++ l) = (6 * length p + jlen l)%nat.
Proof.
  induction 1 as [|b p Hb Hp IH]; [done|]. cbn [app].
  rewrite jlen_cons by done. rewrite rune_len_cont by done.
  change (drop (Nat.max 1 0) (b :: p ++ l)) with (p ++ l). change (take 0 (b :: p ++ l)) with (@nil byte).
  rewrite IH. cbn [length emit]. change (length (lit "\ufffd")) with 6%nat. lia.
Qed.

(** Splitting a string never makes its two encodings shorter: a rune cut at the
    boundary is replaced byte by byte, each replacement taking six bytes. *)
Lemma jlen_app a b : (jlen (a ++ b) <= jlen a + jlen b)%nat.
Proof.
  remember (length a) as n eqn:Hn. revert a Hn.
  induction n as [n IH] using lt_wf_ind. intros [|x a] ->; [done|].
  pose proof (emit_length ((x :: a) ++ b)) as He.
  destruct (rune_len (x :: a)) as [|r] eqn:R.
  - destruct (rune_len ((x :: a) ++ b)) as [|k] eqn:K.
    + rewrite (jlen_cons ((x :: a) ++ b)), (jlen_cons (x :: a)) by done. rewrite R, K.
      change (drop (Nat.max 1 0) ((x :: a) ++ b)) with (a ++ b). change (drop (Nat.max 1 0) (x :: a)) with a.
      cbn [emit]. specialize (IH (length a) ltac:(simpl; lia) a eq_refl).
      change (length (lit "\ufffd")) with 6%nat. lia.
    + assert (length (x :: a) < S k)%nat as Hk.
      { destruct (decide (S k <= length (x :: a))%nat) as [Hle|]; [|lia].
        rewrite <-K in Hle. apply rune_len_prefix in Hle; [|done]. congruence. }
      pose proof (rune_tail_cont _ _ K) as Hc. change (drop 1 ((x :: a) ++ b)) with (a ++ b) in Hc.
      pose proof (rune_len_le ((x :: a) ++ b)) as Hlen. rewrite K, length_app in Hlen.
      rewrite (jlen_cons ((x :: a) ++ b)) by done. rewrite K in *.
      cbn [length] in *. rewrite take_app_ge in Hc by lia. apply Forall_app in Hc as [Ha Hb].
      assert (jlen (x :: a) = 6 * S (length a))%nat as ->.
      { rewrite jlen_cons by done. rewrite R. change (drop (Nat.max 1 0) (x :: a)) with a. cbn [emit].
        rewrite <-(app_nil_r a), (jlen_conts a []) by done. rewrite app_nil_r.
        rewrite jlen_nil. change (length (lit "\ufffd")) with 6%nat. lia. }
      rewrite <-(take_drop (k - length a) b) at 3. rewrite jlen_conts by done.
      replace (drop (Nat.max 1 (S k)) ((x :: a) ++ b)) with (drop (k - length a) b).
      2: { rewrite Nat.max_r by lia. by rewrite drop_app_ge by (cbn [length]; lia). }
      lia.
  - assert (rune_len ((x :: a) ++ b) = S r) as K by (rewrite rune_len_app; [done|by rewrite R]).
    pose proof (rune_len_le (x :: a)) as Hl. rewrite R in Hl.
    rewrite (jlen_cons ((x :: a) ++ b)), (jlen_cons (x :: a)) by done. rewrite R, K.
    rewrite Nat.max_r by lia. rewrite take_app_le, drop_app_le by lia.
    specialize (IH (length (drop (S r) (x :: a))) ltac:(rewrite length_drop; cbn [length]; lia) _ eq_refl). lia.
Qed.

Lemma json_string_length s : length (json_string s) = (2 + jlen (to_bytes s))%nat.
Proof. unfold json_string, jlen. rewrite !length_app. simpl. lia. Qed.

Lemma json_string_app s t :
  (length (json_string (s +:+ t)) + 2 <= length (json_string s) + length (json_string t))%nat.
Proof. rewrite !json_string_length, to_bytes_app. pose proof (jlen_app (to_bytes s) (to_bytes t)). lia. Qed.
