(* ===== verification/Usage.v ===== *)
(** * Usage accounting (src/cursoragentv1/usage_observation.go)

    Observed counters keep presence, invalidity and value apart; [usageFacts]
    folds the events of one segment into the numbers the projections publish. *)
From stdpp Require Import base tactics list gmap strings.
From S2P Require Import Prelude GoStrings Data.
Open Scope Z_scope.

Definition observedOptionalInt64 (present : bool) (value : Z) : ObservedCount :=
  if negb present then noCount
  else if value <? 0 then {| oc_Present := true; oc_Invalid := true; oc_Value := value |}
  else {| oc_Present := true; oc_Invalid := false; oc_Value := value |}.

Definition observedInt32Tokens (value : Z) : ObservedCount :=
  if value <? 0 then {| oc_Present := true; oc_Invalid := true; oc_Value := value |}
  else {| oc_Present := true; oc_Invalid := false; oc_Value := value |}.

Record measuredTurnUsage := {
  mu_Input : Z; mu_TotalInput : Z; mu_Output : Z; mu_CacheRead : Z; mu_CacheWrite : Z; mu_Reasoning : Z }.

(** The [!count.Present || count.Invalid || count.Value < 0] guard. *)
Definition usable (c : ObservedCount) : bool :=
  oc_Present c && negb (oc_Invalid c) && (0 <=? oc_Value c).

Definition measuredTurn (o : option UsageObservation) : option measuredTurnUsage :=
  match o with
  | None => None
  | Some o =>
      if negb (bool_decide (uo_Kind o = UsageKindTurnEnded)) then None
      else if negb (forallb usable [uo_Input o; uo_Output o; uo_CacheRead o; uo_CacheWrite o]) then None
      else
        let input := oc_Value (uo_Input o) in let output := oc_Value (uo_Output o) in
        let cr := oc_Value (uo_CacheRead o) in let cw := oc_Value (uo_CacheWrite o) in
        if (input <? cr) || (wrap_i64 (input - cr) <? cw) || (wrap_i64 (max_i64 - input) <? output)
        then None
        else
          Some {| mu_Input := wrap_i64 (wrap_i64 (input - cr) - cw); mu_TotalInput := input;
                  mu_Output := output; mu_CacheRead := cr; mu_CacheWrite := cw;
                  mu_Reasoning :=
                    if usable (uo_Reasoning o) && (oc_Value (uo_Reasoning o) <=? output)
                    then oc_Value (uo_Reasoning o) else 0 |}
  end.

(** The [add] closure of [addTurnObservations]. *)
Definition addCount (x y : ObservedCount) : ObservedCount :=
  if negb (oc_Present x) || negb (oc_Present y) then noCount
  else if oc_Invalid x || oc_Invalid y || (oc_Value x <? 0) || (oc_Value y <? 0)
          || (wrap_i64 (max_i64 - oc_Value x) <? oc_Value y)
  then {| oc_Present := true; oc_Invalid := true; oc_Value := 0 |}
  else {| oc_Present := true; oc_Invalid := false; oc_Value := wrap_i64 (oc_Value x + oc_Value y) |}.

Definition addTurnObservations (a b : UsageObservation) : UsageObservation :=
  {| uo_Carried := false; uo_Kind := UsageKindTurnEnded; uo_TokenDelta := noCount;
     uo_Input := addCount (uo_Input a) (uo_Input b); uo_Output := addCount (uo_Output a) (uo_Output b);
     uo_CacheRead := addCount (uo_CacheRead a) (uo_CacheRead b);
     uo_CacheWrite := addCount (uo_CacheWrite a) (uo_CacheWrite b);
     uo_Reasoning := addCount (uo_Reasoning a) (uo_Reasoning b) |}.

Record usageFacts := {
  uf_measuredEnabled : bool; uf_terminalCount : Z; uf_freshTerminal : bool;
  uf_visibleOutput : string; uf_outputTokenDelta : Z; uf_outputTokenDeltaObserved : bool;
  uf_outputTokenDeltaInvalid : bool; uf_turnEnded : option UsageObservation;
  uf_hostedSearches : Z; uf_completedSearchCount : Z; uf_completedSearchObserved : bool;
  uf_progressEventCount : Z }.

Definition newFacts (measured : bool) : usageFacts :=
  {| uf_measuredEnabled := measured; uf_terminalCount := 0; uf_freshTerminal := false;
     uf_visibleOutput := ""; uf_outputTokenDelta := 0; uf_outputTokenDeltaObserved := false;
     uf_outputTokenDeltaInvalid := false; uf_turnEnded := None; uf_hostedSearches := 0;
     uf_completedSearchCount := 0; uf_completedSearchObserved := false; uf_progressEventCount := 0 |}.

Definition facts_visible (s : string) (f : usageFacts) : usageFacts :=
  {| uf_measuredEnabled := uf_measuredEnabled f; uf_terminalCount := uf_terminalCount f;
     uf_freshTerminal := uf_freshTerminal f; uf_visibleOutput := uf_visibleOutput f +:+ s;
     uf_outputTokenDelta := uf_outputTokenDelta f;
     uf_outputTokenDeltaObserved := uf_outputTokenDeltaObserved f;
     uf_outputTokenDeltaInvalid := uf_outputTokenDeltaInvalid f; uf_turnEnded := uf_turnEnded f;
     uf_hostedSearches := uf_hostedSearches f; uf_completedSearchCount := uf_completedSearchCount f;
     uf_completedSearchObserved := uf_completedSearchObserved f;
     uf_progressEventCount := uf_progressEventCount f |}.

Definition facts_delta (invalid : bool) (d : Z) (f : usageFacts) : usageFacts :=
  {| uf_measuredEnabled := uf_measuredEnabled f; uf_terminalCount := uf_terminalCount f;
     uf_freshTerminal := uf_freshTerminal f; uf_visibleOutput := uf_visibleOutput f;
     uf_outputTokenDelta := if invalid then uf_outputTokenDelta f else wrap_i64 (uf_outputTokenDelta f + d);
     uf_outputTokenDeltaObserved := uf_outputTokenDeltaObserved f || negb invalid;
     uf_outputTokenDeltaInvalid := uf_outputTokenDeltaInvalid f || invalid; uf_turnEnded := uf_turnEnded f;
     uf_hostedSearches := uf_hostedSearches f; uf_completedSearchCount := uf_completedSearchCount f;
     uf_completedSearchObserved := uf_completedSearchObserved f;
     uf_progressEventCount := uf_progressEventCount f |}.

Definition facts_counts (hosted completed progress : Z) (f : usageFacts) : usageFacts :=
  {| uf_measuredEnabled := uf_measuredEnabled f; uf_terminalCount := uf_terminalCount f;
     uf_freshTerminal := uf_freshTerminal f; uf_visibleOutput := uf_visibleOutput f;
     uf_outputTokenDelta := uf_outputTokenDelta f;
     uf_outputTokenDeltaObserved := uf_outputTokenDeltaObserved f;
     uf_outputTokenDeltaInvalid := uf_outputTokenDeltaInvalid f; uf_turnEnded := uf_turnEnded f;
     uf_hostedSearches := uf_hostedSearches f + hosted;
     uf_completedSearchCount := uf_completedSearchCount f + completed;
     uf_completedSearchObserved := uf_completedSearchObserved f || (0 <? completed);
     uf_progressEventCount := uf_progressEventCount f + progress |}.

Definition facts_turn (u : UsageObservation) (f : usageFacts) : usageFacts :=
  {| uf_measuredEnabled := uf_measuredEnabled f; uf_terminalCount := uf_terminalCount f + 1;
     uf_freshTerminal := uf_freshTerminal f || negb (uo_Carried u);
     uf_visibleOutput := uf_visibleOutput f; uf_outputTokenDelta := uf_outputTokenDelta f;
     uf_outputTokenDeltaObserved := uf_outputTokenDeltaObserved f;
     uf_outputTokenDeltaInvalid := uf_outputTokenDeltaInvalid f;
     uf_turnEnded :=
       match uf_turnEnded f with
       | Some previous =>
           if uf_measuredEnabled f then Some (addTurnObservations previous u) else Some u
       | None => Some u
       end;
     uf_hostedSearches := uf_hostedSearches f; uf_completedSearchCount := uf_completedSearchCount f;
     uf_completedSearchObserved := uf_completedSearchObserved f;
     uf_progressEventCount := uf_progressEventCount f |}.

Definition observeTokenDelta (e : Event) (f : usageFacts) : usageFacts :=
  let count :=
    match ev_Usage e with
    | Some u =>
        if bool_decide (uo_Kind u = UsageKindTokenDelta) then uo_TokenDelta u
        else {| oc_Present := true; oc_Invalid := ev_Tokens e <? 0; oc_Value := ev_Tokens e |}
    | None => {| oc_Present := true; oc_Invalid := ev_Tokens e <? 0; oc_Value := ev_Tokens e |}
    end in
  if oc_Invalid count then facts_delta true 0 f
  else if negb (oc_Present count) then f
  else facts_delta false (oc_Value count) f.

(** [usageFacts.observe]; the two event counters are unbounded here. *)
Definition observe (f : usageFacts) (e : Event) : usageFacts :=
  match ev_Type e with
  | EventText => facts_visible (ev_Text e) f
  | EventToolCall =>
      match ev_ToolCall e with
      | Some c => facts_visible (tc_Arguments c) (facts_visible (tc_Name c) f)
      | None => f
      end
  | EventUsage => observeTokenDelta e f
  | EventUsageObservation =>
      match ev_Usage e with
      | Some u => if bool_decide (uo_Kind u = UsageKindTurnEnded) then facts_turn u f else f
      | None => f
      end
  | EventHostedSearchCall => facts_counts 1 0 0 f
  | EventHostedSearchStarted => facts_counts 0 0 1 f
  | EventHostedSearchCompleted => facts_counts 0 1 1 f
  | EventThinking =>
      let f := facts_visible (ev_Text e) f in
      if bool_decide (ev_Text e = "") then f
      else facts_counts 0 0 (Z.max 1 (ev_ProgressEvents e)) f
  | EventThinkingCompleted => facts_counts 0 0 1 f
  | _ => f
  end.
Definition observe_all (f : usageFacts) (es : list Event) : usageFacts := fold_left observe es f.

Definition factsMeasuredTurn (f : usageFacts) : option measuredTurnUsage :=
  if negb (uf_measuredEnabled f) || negb (uf_freshTerminal f) then None
  else measuredTurn (uf_turnEnded f).

Definition publicOutputTokens (f : usageFacts) : Z :=
  match factsMeasuredTurn f with Some u => mu_Output u | None => uf_outputTokenDelta f end.

(** A field of the diagnostics map the projection attaches. *)
Inductive field := FInt (z : Z) | FBool (b : bool) | FStr (s : string).

Definition attachObservedCount (key : string) (c : ObservedCount) (fields : gmap string field) : gmap string field :=
  if oc_Invalid c then <[key +:+ "_invalid" := FBool true]> fields
  else if negb (oc_Present c) then fields
  else <[key := FInt (oc_Value c)]> (<[key +:+ "_observed" := FBool true]> fields).

Definition turn_key (name : string) : string := "cursor_agent_v1_turn_ended_" +:+ name +:+ "_tokens".

Definition privateDiagnosticFields (f : usageFacts) : gmap string field :=
  let m : gmap string field := ∅ in
  let m := if 0 <? uf_hostedSearches f
           then <["cursor_agent_v1_hosted_search_requests" := FInt (uf_hostedSearches f)]> m else m in
  let m := if uf_completedSearchObserved f
           then <["cursor_agent_v1_completed_search_count" := FInt (uf_completedSearchCount f)]> m else m in
  let m := if 0 <? uf_progressEventCount f
           then <["cursor_agent_v1_progress_event_count" := FInt (uf_progressEventCount f)]> m else m in
  let m := if uf_outputTokenDeltaObserved f
           then <["cursor_agent_v1_output_token_delta" := FInt (uf_outputTokenDelta f)]>
                  (<["cursor_agent_v1_output_token_delta_observed" := FBool true]> m) else m in
  let m := if uf_outputTokenDeltaInvalid f
           then <["cursor_agent_v1_output_token_delta_invalid" := FBool true]> m else m in
  match uf_turnEnded f with
  | None => m
  | Some t =>
      let m := <["cursor_agent_v1_turn_ended_observed" := FBool true]> m in
      let m := <["cursor_agent_v1_turn_ended_scope" := FStr "unresolved"]> m in
      let m := match factsMeasuredTurn f with
               | Some _ => <["cursor_agent_v1_turn_ended_scope" := FStr "agent_turn"]> m
               | None => m end in
      let m := <["cursor_agent_v1_turn_ended_source" := FStr "last_wire_turn_ended"]> m in
      let m := if uf_measuredEnabled f && (1 <? uf_terminalCount f)
               then <["cursor_agent_v1_turn_ended_source" := FStr "chained_wire_turns"]> m else m in
      let m := attachObservedCount (turn_key "input") (uo_Input t) m in
      let m := attachObservedCount (turn_key "output") (uo_Output t) m in
      let m := attachObservedCount (turn_key "cache_read") (uo_CacheRead t) m in
      let m := attachObservedCount (turn_key "cache_write") (uo_CacheWrite t) m in
      let m := attachObservedCount (turn_key "reasoning") (uo_Reasoning t) m in
      if uf_measuredEnabled f && negb (uf_freshTerminal f)
      then fold_left (fun m name => <[turn_key name +:+ "_observed" := FBool false]> m)
             ["input"; "output"; "cache_read"; "cache_write"; "reasoning"] m
      else m
  end.

(** ** Lemmas *)

(** Every value a decoder stores is a Go [int64]. *)
Definition count_ok (c : ObservedCount) : Prop := is_i64 (oc_Value c).
Definition obs_ok (o : UsageObservation) : Prop :=
  Forall count_ok [uo_Input o; uo_Output o; uo_CacheRead o; uo_CacheWrite o; uo_Reasoning o].

Lemma wrap_max_sub x : 0 <= x -> is_i64 x -> wrap_i64 (max_i64 - x) = max_i64 - x.
Proof. intros. apply wrap_i64_id. unfold is_i64, min_i64, max_i64 in *. lia. Qed.

Lemma addCount_usable x y :
  usable x = true -> usable y = true -> count_ok x -> count_ok y ->
  oc_Value x + oc_Value y <= max_i64 ->
  addCount x y = {| oc_Present := true; oc_Invalid := false; oc_Value := oc_Value x + oc_Value y |}.
Proof.
  unfold usable, addCount, count_ok. intros Hx Hy Ox Oy Hs. bool_hyps.
  destruct x as [px ix vx], y as [py iy vy]; simpl in *; subst; simpl.
  rewrite !(proj2 (Z.ltb_ge _ 0)) by lia. rewrite wrap_max_sub by done.
  rewrite (proj2 (Z.ltb_ge _ vy)) by lia. simpl.
  by rewrite wrap_i64_id by (unfold is_i64, min_i64 in *; lia).
Qed.

Lemma addCount_result x y :
  count_ok x -> count_ok y -> usable (addCount x y) = true ->
  usable x = true /\ usable y = true /\ oc_Value (addCount x y) = oc_Value x + oc_Value y /\
  oc_Value x + oc_Value y <= max_i64.
Proof.
  unfold count_ok, usable, addCount. intros Ox Oy.
  destruct x as [px ix vx], y as [py iy vy]; simpl in *.
  destruct px, py; try done; simpl.
  destruct (ix || iy || (vx <? 0) || (vy <? 0) || _) eqn:E; [done|]. simpl. bool_hyps. subst. intros _.
  rewrite wrap_max_sub in * by done.
  rewrite wrap_i64_id by (unfold is_i64, min_i64 in *; lia).
  simpl. rewrite !(proj2 (Z.leb_le 0 _)) by done. repeat split; lia.
Qed.

Lemma addCount_ok x y : count_ok (addCount x y).
Proof.
  unfold count_ok, addCount, noCount, is_i64, min_i64, max_i64.
  repeat go_case; simpl; try lia. apply wrap_i64_range.
Qed.

Lemma addTurnObservations_ok a b : obs_ok (addTurnObservations a b).
Proof. unfold obs_ok. repeat constructor; apply addCount_ok. Qed.

Lemma observe_all_app f es es' : observe_all f (es ++ es') = observe_all (observe_all f es) es'.
Proof. apply fold_left_app. Qed.
Lemma observe_measured f e : uf_measuredEnabled (observe f e) = uf_measuredEnabled f.
Proof.
  unfold observe, observeTokenDelta. repeat go_case; done.
Qed.
Lemma observe_all_measured f es : uf_measuredEnabled (observe_all f es) = uf_measuredEnabled f.
Proof.
  unfold observe_all. revert f; induction es as [|e es IH]; intros f; [done|]; simpl.
  by rewrite IH, observe_measured.
Qed.

Section laws.
Context (f : usageFacts).
Lemma facts_visible_app s t : facts_visible t (facts_visible s f) = facts_visible (s +:+ t) f.
Proof.
  unfold facts_visible; simpl. f_equal.
  induction (uf_visibleOutput f) as [|a r IH]; [done|].
  change (String a ((r +:+ s) +:+ t) = String a (r +:+ (s +:+ t))). by f_equal.
Qed.
Lemma facts_delta_add a b : facts_delta false b (facts_delta false a f) = facts_delta false (a + b) f.
Proof.
  unfold facts_delta; simpl. f_equal.
  - rewrite wrap_i64_add_idemp. f_equal. lia.
  - by destruct (uf_outputTokenDeltaObserved f).
  - by destruct (uf_outputTokenDeltaInvalid f).
Qed.
Lemma facts_counts_progress a b :
  facts_counts 0 0 b (facts_counts 0 0 a f) = facts_counts 0 0 (a + b) f.
Proof. unfold facts_counts; simpl. rewrite !orb_false_r. f_equal; lia. Qed.
Lemma facts_counts_visible h c p s :
  facts_visible s (facts_counts h c p f) = facts_counts h c p (facts_visible s f).
Proof. done. Qed.
End laws.

(** ** Properties *)

(** A published turn is consistent and overflow-free: the fresh input, cache
    reads and cache writes add up to the reported input, the grand total fits a
    Go [int64], and reasoning never exceeds the output it is part of. *)
Theorem measured_turn_consistent (o : UsageObservation) (m : measuredTurnUsage) :
  obs_ok o -> measuredTurn (Some o) = Some m ->
  mu_Input m + mu_CacheRead m + mu_CacheWrite m = mu_TotalInput m /\
  mu_TotalInput m = oc_Value (uo_Input o) /\ mu_Output m = oc_Value (uo_Output o) /\
  0 <= mu_Input m /\ 0 <= mu_CacheRead m /\ 0 <= mu_CacheWrite m /\
  0 <= mu_Reasoning m <= mu_Output m /\ mu_TotalInput m + mu_Output m <= max_i64.
Proof.
  intros Hok. cbn [measuredTurn]. destruct (negb (bool_decide _)); [done|].
  destruct (negb (forallb _ _)) eqn:U; [done|]. destruct (_ || _ || _) eqn:G; [done|]. intros [= <-].
  unfold obs_ok in Hok. repeat rewrite Forall_cons in Hok. destruct Hok as (Oi & Oo & Or & Ow & _).
  unfold usable in U. cbn [forallb] in U. bool_hyps. unfold count_ok in *.
  rewrite wrap_max_sub in * by done.
  rewrite (wrap_i64_id (oc_Value (uo_Input o) - oc_Value (uo_CacheRead o))) in *
    by (unfold is_i64, min_i64, max_i64 in *; lia).
  cbn [mu_Input mu_CacheRead mu_CacheWrite mu_TotalInput mu_Output mu_Reasoning].
  rewrite wrap_i64_id by (unfold is_i64, min_i64, max_i64 in *; lia).
  unfold usable. split_and!; try lia; destruct (_ && _) eqn:R; bool_hyps; lia.
Qed.

(** The turn observations of a stream, in order. *)
Definition turn_of (e : Event) : option UsageObservation :=
  match ev_Type e, ev_Usage e with
  | EventUsageObservation, Some u => if bool_decide (uo_Kind u = UsageKindTurnEnded) then Some u else None
  | _, _ => None
  end.
Definition turns (es : list Event) : list UsageObservation := omap turn_of es.
Definition sum_of (c : UsageObservation -> ObservedCount) (us : list UsageObservation) : Z :=
  foldr (fun u n => oc_Value (c u) + n) 0 us.

Definition fold_turns (acc : option UsageObservation) (us : list UsageObservation) : option UsageObservation :=
  fold_left (fun acc u => Some match acc with Some p => addTurnObservations p u | None => u end) us acc.

Lemma observe_turn f e :
  uf_measuredEnabled f = true ->
  uf_turnEnded (observe f e) = fold_turns (uf_turnEnded f) (option_list (turn_of e)) /\
  uf_freshTerminal (observe f e) =
    uf_freshTerminal f || existsb (fun u => negb (uo_Carried u)) (option_list (turn_of e)).
Proof.
  intros Hm. unfold observe, turn_of, observeTokenDelta.
  destruct (ev_Type e); try (repeat go_case; simpl; by rewrite ?orb_false_r).
  destruct (ev_Usage e) as [u|]; [|by rewrite orb_false_r].
  destruct (bool_decide _); [|by rewrite orb_false_r].
  cbn [facts_turn uf_turnEnded uf_freshTerminal]. rewrite Hm. simpl. rewrite orb_false_r.
  by destruct (uf_turnEnded f).
Qed.

Lemma observe_all_turns es f :
  uf_measuredEnabled f = true ->
  uf_turnEnded (observe_all f es) = fold_turns (uf_turnEnded f) (turns es) /\
  uf_freshTerminal (observe_all f es) = uf_freshTerminal f || existsb (fun u => negb (uo_Carried u)) (turns es).
Proof.
  revert f; induction es as [|e es IH]; intros f Hm; [by rewrite orb_false_r|].
  change (observe_all f (e :: es)) with (observe_all (observe f e) es).
  destruct (IH (observe f e)) as [-> ->]; [by rewrite observe_measured|].
  destruct (observe_turn f e Hm) as [-> ->]. unfold turns. simpl.
  destruct (turn_of e); simpl; by rewrite ?orb_false_r, ?orb_assoc.
Qed.

(** One counter of a chain of turns: usable at the end means usable throughout,
    and then the exact sum. *)
Lemma fold_turns_count (c : UsageObservation -> ObservedCount) us acc t :
  (forall a b, c (addTurnObservations a b) = addCount (c a) (c b)) ->
  (forall u, obs_ok u -> count_ok (c u)) ->
  obs_ok acc -> Forall obs_ok us -> fold_turns (Some acc) us = Some t -> usable (c t) = true ->
  usable (c acc) = true /\ Forall (fun u => usable (c u) = true) us /\ oc_Value (c t) = oc_Value (c acc) + sum_of c us.
Proof.
  intros Hc Hk. revert acc; induction us as [|u us IH]; intros acc Ha Hus Hf Ht.
  { injection Hf as <-. split_and!; [done|done|]. simpl. lia. }
  apply Forall_cons in Hus as [Hu Hus]. cbn [fold_turns fold_left] in Hf.
  destruct (IH (addTurnObservations acc u) (addTurnObservations_ok _ _) Hus Hf Ht) as (H1 & H2 & H3).
  rewrite Hc in H1, H3. destruct (addCount_result (c acc) (c u)) as (A & B & C & _); try eauto.
  split_and!; [done|by constructor|]. rewrite H3, C. simpl. lia.
Qed.

Lemma fold_turns_some acc us : exists t, fold_turns (Some acc) us = Some t.
Proof. revert acc; induction us as [|u us IH]; intros acc; simpl; eauto. Qed.

Lemma fold_turns_ok us acc t : obs_ok acc -> Forall obs_ok us -> fold_turns (Some acc) us = Some t -> obs_ok t.
Proof.
  revert acc; induction us as [|u us IH]; intros acc Ha Hus; simpl; [by intros [= <-]|].
  apply Forall_cons in Hus as [Hu Hus]. apply IH; [apply addTurnObservations_ok|done].
Qed.

Lemma measuredTurn_usable o m :
  measuredTurn (Some o) = Some m ->
  usable (uo_Input o) = true /\ usable (uo_Output o) = true /\ usable (uo_CacheRead o) = true /\
  usable (uo_CacheWrite o) = true /\ mu_TotalInput m = oc_Value (uo_Input o) /\
  mu_Output m = oc_Value (uo_Output o) /\ mu_CacheRead m = oc_Value (uo_CacheRead o) /\
  mu_CacheWrite m = oc_Value (uo_CacheWrite o).
Proof.
  cbn [measuredTurn]. destruct (negb (bool_decide _)); [done|].
  destruct (negb (forallb _ _)) eqn:U; [done|]. destruct (_ || _ || _) eqn:G; [done|]. intros [= <-].
  apply negb_false_iff in U. cbn [forallb] in U. rewrite !andb_true_iff in U. destruct_and!. done.
Qed.

(** What a measured session publishes is the exact sum of its turns: if the
    chain of turn observations yields a measured turn at all, every turn in it
    carried usable counters, the published totals are their mathematical sums
    (nothing wrapped), and at least one turn was fresh, so a replay alone is
    never billed again. *)
Theorem measured_session_sums_turns (es : list Event) (m : measuredTurnUsage) :
  Forall obs_ok (turns es) -> factsMeasuredTurn (observe_all (newFacts true) es) = Some m ->
  mu_TotalInput m = sum_of uo_Input (turns es) /\ mu_Output m = sum_of uo_Output (turns es) /\
  mu_CacheRead m = sum_of uo_CacheRead (turns es) /\ mu_CacheWrite m = sum_of uo_CacheWrite (turns es) /\
  Forall (fun u => usable (uo_Input u) = true /\ usable (uo_Output u) = true) (turns es) /\
  existsb (fun u => negb (uo_Carried u)) (turns es) = true.
Proof.
  intros Hok. unfold factsMeasuredTurn.
  destruct (observe_all_turns es (newFacts true) eq_refl) as [-> ->].
  destruct (negb _ || negb _) eqn:G; [done|]. bool_hyps. cbn [newFacts uf_turnEnded uf_freshTerminal orb] in *.
  destruct (turns es) as [|u us] eqn:T; [done|]. apply Forall_cons in Hok as [Hu Hus].
  change (fold_turns None (u :: us)) with (fold_turns (Some u) us).
  destruct (fold_turns_some u us) as [t Ht]. rewrite Ht. intros (Ui & Uo & Ur & Uw & -> & -> & -> & ->)%measuredTurn_usable.
  assert (forall c (P : forall u, obs_ok u -> count_ok (c u)) (Q : forall a b, c (addTurnObservations a b) = addCount (c a) (c b)),
    usable (c t) = true -> usable (c u) = true /\ Forall (fun u => usable (c u) = true) us /\ oc_Value (c t) = sum_of c (u :: us)) as S.
  { intros c P Q. by apply (fold_turns_count c us u t Q P). }
  assert (forall u, obs_ok u -> count_ok (uo_Input u) /\ count_ok (uo_Output u) /\ count_ok (uo_CacheRead u) /\ count_ok (uo_CacheWrite u)) as O.
  { intros v. unfold obs_ok. rewrite !Forall_cons. tauto. }
  destruct (S uo_Input) as (I1 & I2 & ->); [apply O|done|done|].
  destruct (S uo_Output) as (O1 & O2 & ->); [apply O|done|done|].
  destruct (S uo_CacheRead) as (_ & _ & ->); [apply O|done|done|].
  destruct (S uo_CacheWrite) as (_ & _ & ->); [apply O|done|done|].
  split_and!; try done. constructor; [done|]. by apply Forall_and.
Qed.

(** *** Two fresh turns *)
Definition some_count (z : Z) : ObservedCount := {| oc_Present := true; oc_Invalid := false; oc_Value := z |}.
Definition sample_turn (i o r w : Z) : UsageObservation :=
  {| uo_Carried := false; uo_Kind := UsageKindTurnEnded; uo_TokenDelta := noCount; uo_Input := some_count i;
     uo_Output := some_count o; uo_CacheRead := some_count r; uo_CacheWrite := some_count w;
     uo_Reasoning := some_count 1 |}.
Definition turn_event (u : UsageObservation) : Event := with_usage 0 (Some u) (event_of EventUsageObservation).
Lemma sample_turn_ok i o r w :
  forallb (fun z => (0 <=? z) && (z <? 1000)) [i; o; r; w] = true -> obs_ok (sample_turn i o r w).
Proof.
  cbn [forallb]. intros. bool_hyps. unfold obs_ok.
  rewrite !Forall_cons. unfold count_ok, is_i64, min_i64, max_i64. simpl. split_and!; first [lia | constructor].
Qed.

Lemma measured_turn_consistent_witness :
  exists m, measuredTurn (Some (sample_turn 100 20 30 10)) = Some m /\
  mu_Input m + mu_CacheRead m + mu_CacheWrite m = mu_TotalInput m.
Proof.
  eexists; split; [vm_compute; reflexivity|].
  apply (measured_turn_consistent (sample_turn 100 20 30 10)); [by apply sample_turn_ok|vm_compute; reflexivity].
Defined.
Lemma measured_session_sums_turns_witness :
  exists m, factsMeasuredTurn (observe_all (newFacts true)
      [turn_event (sample_turn 100 20 30 10); turn_event (sample_turn 50 5 0 0)]) = Some m /\
    mu_TotalInput m = 150.
Proof.
  eexists; split; [vm_compute; reflexivity|].
  apply (measured_session_sums_turns [turn_event (sample_turn 100 20 30 10); turn_event (sample_turn 50 5 0 0)]);
    [constructor; [by apply sample_turn_ok|]; constructor; [by apply sample_turn_ok|constructor]|vm_compute; reflexivity].
Defined.
