(* ===== verification/EventSnapshot.v ===== *)
(** * Bounded replay snapshots (src/cursoragentv1/completed_events.go)

    [eventSnapshot] accumulates the events of a segment, coalescing adjacent
    deltas, within a budget counted in JSON bytes. *)
From stdpp Require Import base tactics list gmap strings.
From S2P Require Import Prelude GoStrings Data Json Usage.
Open Scope Z_scope.

Record eventSnapshot := {
  es_events : list Event; es_bytes : Z; es_lastSize : Z; es_text : string }.
Definition emptySnapshot : eventSnapshot :=
  {| es_events := []; es_bytes := 0; es_lastSize := 0; es_text := "" |}.

Definition snapshotEventSize (e : Event) : Z := blen (json_persistedEvent (persistedEventFrom e)).

Definition snapshotText (e : Event) : bool :=
  (bool_decide (ev_Type e = EventText) || bool_decide (ev_Type e = EventThinking))
  && negb (bool_decide (ev_Text e = ""))
  && (ev_Tokens e =? 0) && bool_decide (ev_Usage e = None) && bool_decide (ev_ToolCall e = None)
  && bool_decide (ev_ToolResult e = None) && bool_decide (ev_HostedSearch e = None)
  && bool_decide (ev_Checkpoint e = []) && bool_decide (ev_Blobs e = ∅)
  && (bool_decide (ev_Type e = EventThinking) || (ev_ProgressEvents e =? 0)).

(** [len(`,"progress_events":`) + len(strconv.Itoa(count))] *)
Definition progressFieldSize (count : Z) : Z :=
  if count =? 0 then 0
  else blen (lit "," ++ json_string "progress_events" ++ lit ":") + len (Itoa count).

Definition set_delta (c : ObservedCount) (u : UsageObservation) : UsageObservation :=
  {| uo_Carried := uo_Carried u; uo_Kind := uo_Kind u; uo_TokenDelta := c; uo_Input := uo_Input u;
     uo_Output := uo_Output u; uo_CacheRead := uo_CacheRead u; uo_CacheWrite := uo_CacheWrite u;
     uo_Reasoning := uo_Reasoning u |}.

Definition mergeSnapshotUsage (a b : Event) : option Event :=
  if negb (bool_decide (ev_Type a = EventUsage)) || negb (bool_decide (ev_Type b = EventUsage))
     || (ev_Tokens a <? 0) || (ev_Tokens b <? 0) || (wrap_i64 (max_i64 - ev_Tokens a) <? ev_Tokens b)
  then None
  else
    let tokens := wrap_i64 (ev_Tokens a + ev_Tokens b) in
    match ev_Usage a, ev_Usage b with
    | None, None => Some (with_usage tokens None (cloneEvent a))
    | Some ua, Some ub =>
        if negb (bool_decide (uo_Kind ua = UsageKindTokenDelta))
           || negb (bool_decide (uo_Kind ub = UsageKindTokenDelta)) then None
        else
          let x := uo_TokenDelta ua in let y := uo_TokenDelta ub in
          if negb (oc_Present x) || negb (oc_Present y) || oc_Invalid x || oc_Invalid y
             || (oc_Value x <? 0) || (oc_Value y <? 0) || (wrap_i64 (max_i64 - oc_Value x) <? oc_Value y)
          then None
          else if negb (bool_decide (set_delta noCount ua = set_delta noCount ub)) then None
          else
            let c := {| oc_Present := oc_Present x; oc_Invalid := oc_Invalid x;
                        oc_Value := wrap_i64 (oc_Value x + oc_Value y) |} in
            Some (with_usage tokens (Some (set_delta c ua)) (cloneEvent a))
    | _, _ => None
    end.

Definition errSnapshotTooLarge : Err :=
  ErrMsg ("Cursor Agent v1 completed snapshot exceeds " +:+ Itoa maxCompletedEventBytes +:+ " bytes").

(** [grow]: [None] when the budget is exceeded, else the new byte count. *)
Definition grow (bytes delta : Z) : option Z :=
  if maxCompletedEventBytes - bytes <? delta then None else Some (bytes + delta).

(** [eventSnapshot.append] on a snapshot whose [bytes] already counts the array
    brackets: the error, or nil, and the snapshot afterwards. *)
Definition append_started (s : eventSnapshot) (event : Event) : option Err * eventSnapshot :=
  let push :=
    let size := snapshotEventSize event in
    let delta := match es_events s with [] => size | _ => size + 1 end in
    match grow (es_bytes s) delta with
    | None => (Some errSnapshotTooLarge, s)
    | Some n =>
        (None, {| es_events := es_events s ++ [cloneEvent event]; es_bytes := n; es_lastSize := size;
                  es_text := if snapshotText event then ev_Text event else "" |})
    end in
  match last (es_events s) with
  | None => push
  | Some l =>
      if bool_decide (ev_Type l = ev_Type event) && snapshotText l && snapshotText event then
        let delta := blen (json_string (ev_Text event)) - 2 in
        let thinking := bool_decide (ev_Type event = EventThinking) in
        let progress := if thinking then Z.max 1 (ev_ProgressEvents l) + Z.max 1 (ev_ProgressEvents event)
                        else ev_ProgressEvents l in
        let delta := if thinking then delta + (progressFieldSize progress - progressFieldSize (ev_ProgressEvents l))
                     else delta in
        match grow (es_bytes s) delta with
        | None => (Some errSnapshotTooLarge, s)
        | Some n =>
            let text := es_text s +:+ ev_Text event in
            (None, {| es_events := removelast (es_events s) ++ [with_progress progress (with_text text l)];
                      es_bytes := n; es_lastSize := es_lastSize s + delta; es_text := text |})
        end
      else
        match mergeSnapshotUsage l event with
        | Some merged =>
            let size := snapshotEventSize merged in
            match grow (es_bytes s) (size - es_lastSize s) with
            | None => (Some errSnapshotTooLarge, s)
            | Some n =>
                (None, {| es_events := removelast (es_events s) ++ [merged]; es_bytes := n;
                          es_lastSize := size; es_text := es_text s |})
            end
        | None => push
        end
  end.

Definition append (s : eventSnapshot) (event : Event) : option Err * eventSnapshot :=
  append_started
    (if es_bytes s =? 0
     then {| es_events := es_events s; es_bytes := 2; es_lastSize := es_lastSize s; es_text := es_text s |}
     else s) event.

(** The loop [for event := range events { snapshot.append(event) }] with its
    early return. *)
Fixpoint append_all (s : eventSnapshot) (events : list Event) : result eventSnapshot :=
  match events with
  | [] => Ok s
  | e :: es => match append s e with (None, s') => append_all s' es | (Some err, _) => Fail err end
  end.

Definition persistEvents (events : list Event) : result (list persistedEvent) :=
  match append_all emptySnapshot events with
  | Ok s => Ok (persistedEventFrom <$> es_events s)
  | Fail e => Fail e
  end.

Fixpoint eventsFromPersisted (events : list persistedEvent) : result (list Event) :=
  match events with
  | [] => Ok []
  | p :: ps =>
      if bool_decide (pe_Type p = EventZero)
      then Fail (ErrMsg "Cursor Agent v1 completed snapshot event is invalid")
      else rbind (eventsFromPersisted ps) (fun out => Ok (eventFromPersisted p :: out))
  end.

(** [newSnapshotOutput]: the buffered events and the result of the closed output. *)
Definition newSnapshotOutput (events : list Event) : list Event * option Err :=
  match append_all emptySnapshot events with
  | Ok s => (es_events s, None)
  | Fail e => ([], Some e)
  end.

(** ** The byte budget *)

(** The size of the serialized array of [events]. *)
Definition snapshot_json_size (events : list Event) : Z :=
  blen (json_array (json_persistedEvent ∘ persistedEventFrom <$> events)).

Definition sum_sizes (events : list Event) : Z :=
  foldr (fun e n => snapshotEventSize e + n) 0 events.

Definition total (parts : list bytes) : Z := foldr (fun p n => blen p + n) 0 parts.
Lemma total_app a b : total (a ++ b) = total a + total b.
Proof. induction a as [|p a IH]; [done|]. unfold total in *. simpl. lia. Qed.
Lemma total_one p : total [p] = blen p.
Proof. unfold total. simpl. lia. Qed.

Lemma comma_length parts :
  blen (comma parts) = total parts + Z.of_nat (pred (length parts)).
Proof.
  induction parts as [|p [|q ps] IH]; [done|unfold total; simpl; lia|].
  change (comma (p :: q :: ps)) with (p ++ lit "," ++ comma (q :: ps)).
  change (total (p :: q :: ps)) with (blen p + total (q :: ps)).
  unfold blen in *. rewrite !length_app. change (length (lit ",")) with 1%nat. cbn [length pred] in *. lia.
Qed.

Lemma snapshot_json_size_eq events :
  snapshot_json_size events = 2 + sum_sizes events + Z.of_nat (pred (length events)).
Proof.
  unfold snapshot_json_size, json_array, blen. rewrite !length_app.
  change (length (lit "[")) with 1%nat. change (length (lit "]")) with 1%nat.
  pose proof (comma_length (json_persistedEvent ∘ persistedEventFrom <$> events)) as H.
  unfold blen in H. rewrite length_fmap in H.
  assert (total (json_persistedEvent ∘ persistedEventFrom <$> events)
          = sum_sizes events) as E.
  { clear. induction events as [|e es IH]; [done|]. rewrite fmap_cons.
    change (sum_sizes (e :: es)) with (snapshotEventSize e + sum_sizes es). by rewrite <-IH. }
  rewrite E in H. lia.
Qed.

Lemma sum_sizes_app a b : sum_sizes (a ++ b) = sum_sizes a + sum_sizes b.
Proof. induction a as [|e a IH]; [done|]. simpl. rewrite IH. lia. Qed.

Lemma sum_sizes_nonneg es : 0 <= sum_sizes es.
Proof.
  induction es as [|x es IH]; [done|].
  change (0 <= snapshotEventSize x + sum_sizes es). unfold snapshotEventSize, blen. lia.
Qed.

(** Replacing the text and progress of a text delta changes its encoding by the
    encodings of those two fields only. *)
Lemma json_object_length fs : blen (json_object fs) = 2 + total fs + Z.of_nat (pred (length fs)).
Proof.
  unfold json_object. pose proof (comma_length fs). unfold blen in *. rewrite !length_app.
  change (length (lit "{")) with 1%nat. change (length (lit "}")) with 1%nat. lia.
Qed.

Lemma Itoa_length z : blen (json_int z) = len (Itoa z).
Proof.
  unfold json_int, blen, len. f_equal. generalize (Itoa z). intros s.
  unfold String.list_byte_of_string. induction s as [|a s IH]; [done|]. simpl. by rewrite IH.
Qed.

Lemma text_size_change txt p l :
  ev_Text l <> "" -> txt <> "" ->
  snapshotEventSize (with_progress p (with_text txt l)) - snapshotEventSize l =
  blen (json_string txt) - blen (json_string (ev_Text l))
  + (progressFieldSize p - progressFieldSize (ev_ProgressEvents l)).
Proof.
  intros Hl Ht. unfold snapshotEventSize, json_persistedEvent, progressFieldSize.
  cbn [persistedEventFrom with_progress with_text pe_Type pe_Text pe_Signature pe_ProgressEvents pe_Tokens
       pe_Usage pe_ToolCall pe_ToolResult pe_HostedSearch ev_Type ev_Text ev_Signature ev_ProgressEvents ev_Tokens
       ev_Usage ev_ToolCall ev_ToolResult ev_HostedSearch].
  rewrite !json_object_length. rewrite (bool_decide_eq_false_2 (txt = "")), (bool_decide_eq_false_2 (ev_Text l = "")) by done.
  assert (forall n v, blen (json_field n v) = blen (json_string n) + 1 + blen v) as Hf.
  { intros n v. unfold json_field, blen. rewrite !length_app. change (length (lit ":")) with 1%nat. lia. }
  assert (forall n, blen (lit "," ++ json_string n ++ lit ":") = blen (json_string n) + 2) as Hg.
  { intros n. unfold blen. rewrite !length_app. change (length (lit ":")) with 1%nat.
    change (length (lit ",")) with 1%nat. lia. }
  rewrite Hg. rewrite <-!Itoa_length. cbn [omit].
  rewrite !total_app, !length_app, !total_one.
  destruct (ev_ProgressEvents l =? 0), (p =? 0); cbn [omit app length pred Nat.add];
    rewrite ?total_one, !Hf; change (total []) with 0; lia.
Qed.

(** *** The invariant of the accumulator *)
Record snapshot_wf (s : eventSnapshot) : Prop := {
  wf_bytes : es_events s <> [] -> snapshot_json_size (es_events s) <= es_bytes s <= maxCompletedEventBytes;
  wf_start : es_events s = [] -> es_bytes s = 0 \/ es_bytes s = 2;
  (* the accumulated size of the last event covers its encoding and is part of the total *)
  wf_last : forall l, last (es_events s) = Some l ->
    snapshotEventSize l <= es_lastSize s /\
    snapshot_json_size (es_events s) - snapshotEventSize l <= es_bytes s - es_lastSize s /\
    cloneEvent l = l /\ (snapshotText l = true -> es_text s = ev_Text l) }.

Lemma emptySnapshot_wf : snapshot_wf emptySnapshot.
Proof. split; simpl; try done. by left. Qed.

Lemma snapshot_json_size_snoc es e :
  snapshot_json_size (es ++ [e]) =
  (match es with [] => 2 | _ => snapshot_json_size es + 1 end) + snapshotEventSize e.
Proof.
  destruct es as [|x es]; rewrite !snapshot_json_size_eq.
  - cbn. lia.
  - rewrite sum_sizes_app, length_app. cbn [sum_sizes foldr length pred Nat.add].
    rewrite Nat.add_1_r. lia.
Qed.

Lemma last_removelast {A} (l : list A) x : last l = Some x -> l = removelast l ++ [x].
Proof.
  intros H. apply last_Some in H as [k ->]. by rewrite removelast_last.
Qed.

Lemma last_split {A} (l : list A) x : last l = Some x -> exists k, l = k ++ [x] /\ removelast l = k.
Proof. intros H. apply last_Some in H as [k ->]. exists k. split; [done|]. by rewrite removelast_last. Qed.

(** Replacing the last event by one whose size grew by at most the accounted delta. *)
Lemma replace_last_size es l e :
  last es = Some l ->
  snapshot_json_size (removelast es ++ [e]) = snapshot_json_size es - snapshotEventSize l + snapshotEventSize e.
Proof.
  intros H. apply last_removelast in H. rewrite H at 2. rewrite !snapshot_json_size_snoc. lia.
Qed.

Lemma snapshotText_text e : snapshotText e = true -> ev_Text e <> "".
Proof. unfold snapshotText. intros H. bool_hyps. done. Qed.

Lemma snapshotText_update p t l :
  snapshotText l = true -> t <> "" -> (ev_Type l = EventThinking \/ p = 0) ->
  snapshotText (with_progress p (with_text t l)) = true.
Proof.
  unfold snapshotText. simpl. rewrite !andb_true_iff. intros H Ht Hp. destruct_and!. split_and!; try done.
  - by rewrite bool_decide_eq_false_2.
  - destruct Hp as [->| ->]; [by rewrite bool_decide_eq_true_2|]. by rewrite orb_true_r.
Qed.

Lemma string_app_nonempty s t : s <> "" -> s +:+ t <> "".
Proof. by destruct s. Qed.

Lemma grow_Some b d n : grow b d = Some n -> n = b + d /\ n <= maxCompletedEventBytes.
Proof. unfold grow. destruct (_ <? d) eqn:E; [done|]. intros [= <-]. bool_hyps. lia. Qed.

Lemma mergeSnapshotUsage_type a b m :
  mergeSnapshotUsage a b = Some m ->
  ev_Type a = EventUsage /\ ev_Type b = EventUsage /\ ev_Type m = EventUsage /\ cloneEvent m = m.
Proof.
  unfold mergeSnapshotUsage. repeat go_case; try done; intros [= <-]; bool_hyps; done.
Qed.

Lemma json_string_blen_app s t : blen (json_string (s +:+ t)) + 2 <= blen (json_string s) + blen (json_string t).
Proof. pose proof (json_string_app s t). unfold blen. lia. Qed.

(** Text deltas carry no checkpoint payload: [emit] never attaches one. *)
Definition payload_free (e : Event) : bool :=
  negb (bool_decide (ev_Type e = EventText) || bool_decide (ev_Type e = EventThinking))
  || (bool_decide (ev_Checkpoint e = []) && bool_decide (ev_Blobs e = ∅)).

Lemma snapshotText_clone e : payload_free e = true -> snapshotText (cloneEvent e) = snapshotText e.
Proof.
  unfold payload_free, snapshotText. cbn [cloneEvent ev_Type ev_Text ev_Tokens ev_Usage ev_ToolCall ev_ToolResult
    ev_HostedSearch ev_Checkpoint ev_Blobs ev_ProgressEvents].
  destruct (bool_decide (ev_Type e = EventText) || bool_decide (ev_Type e = EventThinking)); [|done].
  intros H. simpl in H. bool_hyps. rewrite H, H0. done.
Qed.

Lemma push_wf s e n :
  snapshot_wf s -> es_bytes s <> 0 -> payload_free e = true ->
  grow (es_bytes s) (match es_events s with [] => snapshotEventSize e | _ => snapshotEventSize e + 1 end) = Some n ->
  snapshot_wf {| es_events := es_events s ++ [cloneEvent e]; es_bytes := n; es_lastSize := snapshotEventSize e;
                 es_text := if snapshotText e then ev_Text e else "" |}.
Proof.
  intros [Hb Hs Hl] Hn Hp (-> & Hmax)%grow_Some.
  assert (snapshot_json_size (es_events s ++ [cloneEvent e])
    <= es_bytes s + match es_events s with [] => snapshotEventSize e | _ => snapshotEventSize e + 1 end) as Hsz.
  { rewrite snapshot_json_size_snoc. change (snapshotEventSize (cloneEvent e)) with (snapshotEventSize e).
    destruct (es_events s) as [|x es] eqn:E; [destruct (Hs eq_refl); [done|lia]|].
    specialize (Hb ltac:(done)). lia. }
  split; cbn [es_events es_bytes es_lastSize es_text].
  - intros _. split; [exact Hsz|exact Hmax].
  - intros H. by destruct (es_events s).
  - intros l. rewrite last_snoc. intros [= <-].
    change (snapshotEventSize (cloneEvent e)) with (snapshotEventSize e).
    split_and!; [lia|lia|done|]. rewrite snapshotText_clone by done. by intros ->.
Qed.

Lemma snapshotText_payload e : snapshotText e = true -> cloneEvent e = e.
Proof.
  unfold snapshotText. intros H. bool_hyps. destruct e; simpl in *. by subst.
Qed.

Lemma append_started_wf s e s' :
  snapshot_wf s -> es_bytes s <> 0 -> payload_free e = true ->
  append_started s e = (None, s') -> snapshot_wf s'.
Proof.
  intros Hwf Hn Hp. unfold append_started.
  destruct (last (es_events s)) as [l|] eqn:El.
  2: { destruct (grow _ _) eqn:G; intros [= <-]. by eapply push_wf. }
  destruct (wf_last _ Hwf l El) as (H1 & H2 & Hc & Ht).
  assert (es_events s <> []) as Hne by (by destruct (es_events s)).
  destruct (bool_decide _ && snapshotText l && snapshotText e) eqn:C.
  - apply andb_true_iff in C as [[Hty%bool_decide_eq_true_1 Hsl]%andb_true_iff Hse]. set (thinking := bool_decide (ev_Type e = EventThinking)).
    set (p := if thinking then Z.max 1 _ + Z.max 1 _ else _). destruct (grow _ _) as [n|] eqn:G; intros [= <-].
    apply grow_Some in G as [-> Hmax].
    assert (es_text s +:+ ev_Text e <> "") as Hnt.
    { rewrite Ht by done. apply string_app_nonempty. by apply snapshotText_text. }
    assert (snapshotText (with_progress p (with_text (es_text s +:+ ev_Text e) l)) = true) as Hst.
    { apply snapshotText_update; [done..|]. unfold p, thinking. case_bool_decide; [left; congruence|].
      right. unfold snapshotText in Hsl. apply andb_true_iff in Hsl as [_ [Hx|Hx]%orb_true_iff];
        bool_hyps; congruence. }
    set (m := with_progress p (with_text (es_text s +:+ ev_Text e) l)) in *.
    assert (snapshotEventSize m - snapshotEventSize l <=
       (if thinking then blen (json_string (ev_Text e)) - 2 + (progressFieldSize p - progressFieldSize (ev_ProgressEvents l))
        else blen (json_string (ev_Text e)) - 2)) as Hd.
    { unfold m. rewrite text_size_change; [|by apply snapshotText_text|done].
      rewrite Ht by done. pose proof (json_string_blen_app (ev_Text l) (ev_Text e)).
      unfold p, thinking. case_bool_decide; lia. }
    pose proof (replace_last_size _ l m El) as Hr.
    split; cbn [es_events es_bytes es_lastSize es_text].
    + intros _. lia.
    + intros H. by destruct (removelast (es_events s)).
    + intros l'. rewrite last_snoc. intros [= <-]. rewrite Hr.
      split_and!; [lia|lia|by apply snapshotText_payload|done].
  - destruct (mergeSnapshotUsage l e) as [m|] eqn:M.
    2: { destruct (grow _ _) eqn:G; intros [= <-]. by eapply push_wf. }
    destruct (grow _ _) as [n|] eqn:G; intros [= <-]. apply grow_Some in G as [-> Hmax].
    apply mergeSnapshotUsage_type in M as (_ & _ & Hm & Hcm).
    pose proof (replace_last_size _ l m El) as Hr.
    split; cbn [es_events es_bytes es_lastSize es_text].
    + intros _. lia.
    + intros H. by destruct (removelast (es_events s)).
    + intros l'. rewrite last_snoc. intros [= <-]. rewrite Hr. split_and!; [lia|lia|done|].
      unfold snapshotText. rewrite Hm. done.
Qed.

Lemma append_wf s e s' :
  snapshot_wf s -> payload_free e = true -> append s e = (None, s') -> snapshot_wf s'.
Proof.
  intros Hwf Hp. unfold append. destruct (es_bytes s =? 0) eqn:E.
  - apply append_started_wf; [|done|done].
    destruct Hwf as [Hb Hs Hl]. bool_hyps. split; cbn [es_events es_bytes es_lastSize es_text].
    + intros Hne. specialize (Hb Hne). rewrite snapshot_json_size_eq in Hb.
      pose proof (sum_sizes_nonneg (es_events s)). lia.
    + by right.
    + intros l Hl'. destruct (Hl l Hl') as (? & ? & ? & ?). repeat split; try done. lia.
  - bool_hyps. by apply append_started_wf.
Qed.

Lemma append_all_wf s es s' :
  snapshot_wf s -> forallb payload_free es = true -> append_all s es = Ok s' -> snapshot_wf s'.
Proof.
  revert s; induction es as [|e es IH]; intros s Hwf Hp; simpl in *; [by intros [= <-]|].
  bool_hyps. destruct (append s e) as [[err|] s1] eqn:A; [done|].
  apply IH; [by eapply append_wf|done].
Qed.

(** *** Accounting on the snapshot and on the live events agree *)
Lemma observe_clone f e : observe f (cloneEvent e) = observe f e.
Proof. done. Qed.

Lemma observe_delta_merge f a b m :
  mergeSnapshotUsage a b = Some m ->
  (forall u, ev_Usage a = Some u -> is_i64 (oc_Value (uo_TokenDelta u))) -> is_i64 (ev_Tokens a) ->
  observe f m = observe (observe f a) b.
Proof.
  intros M Hua Ha. pose proof (mergeSnapshotUsage_type _ _ _ M) as (Ta & Tb & Tm & _).
  unfold observe. rewrite Ta, Tb, Tm. unfold mergeSnapshotUsage in M.
  destruct (negb _ || _ || _ || _ || _) eqn:G1; [done|]. bool_hyps.
  rewrite wrap_max_sub in * by done.
  destruct (ev_Usage a) as [ua|] eqn:Ua, (ev_Usage b) as [ub|] eqn:Ub; try done.
  - destruct (negb _ || negb _) eqn:G2; [done|]. bool_hyps.
    destruct (negb _ || negb _ || _ || _ || _ || _ || _) eqn:G3; [done|]. bool_hyps.
    destruct (negb (bool_decide (set_delta _ _ = _))) eqn:G4; [done|]. injection M as <-.
    specialize (Hua ua eq_refl). rewrite wrap_max_sub in * by done.
    unfold observeTokenDelta. rewrite Ua, Ub. cbn [with_usage ev_Usage set_delta uo_Kind uo_TokenDelta].
    rewrite !bool_decide_eq_true_2 by done. cbn [oc_Invalid oc_Present oc_Value].
    destruct (uo_TokenDelta ua) as [pa ia va], (uo_TokenDelta ub) as [pb ib vb]; simpl in *; subst; simpl.
    rewrite facts_delta_add. by rewrite wrap_i64_id by (unfold is_i64, min_i64, max_i64 in *; lia).
  - injection M as <-. unfold observeTokenDelta. rewrite Ua, Ub.
    cbn [with_usage ev_Usage ev_Tokens oc_Invalid oc_Present oc_Value].
    rewrite wrap_i64_id by (unfold is_i64, min_i64, max_i64 in *; lia).
    rewrite !(proj2 (Z.ltb_ge _ 0)) by lia. cbn [negb]. by rewrite facts_delta_add.
Qed.

(** The counters of a live event are Go [int64]s. *)
Definition event_ok (e : Event) : Prop :=
  is_i64 (ev_Tokens e) /\ forall u, ev_Usage e = Some u -> is_i64 (oc_Value (uo_TokenDelta u)).

Lemma merge_event_ok a b m : event_ok a -> mergeSnapshotUsage a b = Some m -> event_ok m.
Proof.
  intros [Ha Hu]. unfold mergeSnapshotUsage. repeat go_case; try done; intros [= <-]; split; simpl;
    try apply wrap_i64_range; try done.
  intros ? [= <-]. simpl. apply wrap_i64_range.
Qed.

Lemma observe_text_merge f l e p :
  snapshotText l = true -> snapshotText e = true -> ev_Type l = ev_Type e ->
  (ev_Type e = EventThinking -> p = Z.max 1 (ev_ProgressEvents l) + Z.max 1 (ev_ProgressEvents e)) ->
  observe f (with_progress p (with_text (ev_Text l +:+ ev_Text e) l)) = observe (observe f l) e.
Proof.
  intros Hl He Ht Hp. unfold observe. cbn [with_progress with_text ev_Type ev_Text ev_ProgressEvents].
  rewrite Ht. pose proof (snapshotText_text _ Hl). pose proof (snapshotText_text _ He).
  destruct (ev_Type e) eqn:Te; try (unfold snapshotText in He; rewrite Te in He; done).
  - by rewrite facts_visible_app.
  - rewrite !bool_decide_eq_false_2 by (try done; by apply string_app_nonempty).
    rewrite facts_counts_visible, facts_visible_app, facts_counts_progress. f_equal.
    rewrite (Hp eq_refl). lia.
Qed.

Lemma append_started_observe s e s' f :
  snapshot_wf s -> Forall event_ok (es_events s) -> event_ok e -> append_started s e = (None, s') ->
  observe_all f (es_events s') = observe (observe_all f (es_events s)) e /\ Forall event_ok (es_events s').
Proof.
  intros Hwf Hok He. unfold append_started.
  assert (forall n sz t, observe_all f (es_events {| es_events := es_events s ++ [cloneEvent e]; es_bytes := n;
            es_lastSize := sz; es_text := t |}) = observe (observe_all f (es_events s)) e /\
          Forall event_ok (es_events s ++ [cloneEvent e])) as Hpush.
  { intros n sz t. simpl. rewrite observe_all_app. split; [done|]. apply Forall_app; split; [done|]. by constructor. }
  destruct (last (es_events s)) as [l|] eqn:El.
  2: { destruct (grow _ _); intros [= <-]. apply Hpush. }
  destruct (last_split _ _ El) as (front & Hsplit & Hrl). rewrite Hrl.
  rewrite Hsplit in Hok, Hpush |- *. apply Forall_app in Hok as [Hok1 [Hokl _]%Forall_cons].
  destruct (bool_decide _ && snapshotText l && snapshotText e) eqn:C.
  - destruct (grow _ _); intros [= <-]. cbn [es_events]. rewrite !observe_all_app.
    apply andb_true_iff in C as [[Hty%bool_decide_eq_true_1 Hsl]%andb_true_iff Hse].
    destruct (wf_last _ Hwf l El) as (_ & _ & _ & Ht). rewrite (Ht Hsl). split.
    + simpl. apply observe_text_merge; [done..|]. intros ->. by rewrite bool_decide_eq_true_2.
    + apply Forall_app; split; [done|]. by constructor.
  - destruct (mergeSnapshotUsage l e) as [m|] eqn:M.
    2: { destruct (grow _ _); intros [= <-]. apply Hpush. }
    destruct (grow _ _); intros [= <-]. cbn [es_events]. rewrite !observe_all_app. split.
    + simpl. apply observe_delta_merge; [done|apply Hokl|apply Hokl].
    + apply Forall_app; split; [done|]. constructor; [exact (merge_event_ok _ _ _ Hokl M)|done].
Qed.

Lemma append_observe s e s' f :
  snapshot_wf s -> Forall event_ok (es_events s) -> event_ok e -> append s e = (None, s') ->
  observe_all f (es_events s') = observe (observe_all f (es_events s)) e /\ Forall event_ok (es_events s').
Proof.
  intros Hwf Hok He. unfold append. destruct (es_bytes s =? 0) eqn:E.
  - intros H. destruct (es_events s) as [|x es] eqn:Ee.
    + change (append_started {| es_events := []; es_bytes := 2; es_lastSize := es_lastSize s; es_text := es_text s |} e = (None, s')) in H.
      eapply append_started_observe in H; [exact H|split; simpl; try done; by right|by constructor|done].
    + destruct Hwf as [Hb _ _]. rewrite Ee in Hb. specialize (Hb ltac:(done)). rewrite snapshot_json_size_eq in Hb.
      pose proof (sum_sizes_nonneg (x :: es)). bool_hyps. lia.
  - by apply append_started_observe.
Qed.

Lemma append_all_observe s es s' f :
  snapshot_wf s -> Forall event_ok (es_events s) -> Forall event_ok es -> forallb payload_free es = true ->
  append_all s es = Ok s' -> observe_all f (es_events s') = observe_all (observe_all f (es_events s)) es.
Proof.
  intros Hwf Hok He Hp. revert s Hwf Hok; induction es as [|e es IH]; intros s Hwf Hok; simpl.
  { by intros [= <-]. }
  apply Forall_cons in He as [He Hes]. simpl in Hp. bool_hyps.
  destruct (append s e) as [[err|] s1] eqn:A; [done|]. intros Hs'.
  destruct (append_observe s e s1 f Hwf Hok He A) as [Ho Hok1].
  rewrite (IH Hes H0 s1 (append_wf _ _ _ Hwf H A) Hok1 Hs'). by rewrite Ho.
Qed.

(** *** Types survive persistence *)
Lemma append_types s e s' :
  append s e = (None, s') ->
  Forall (fun x => ev_Type x <> EventZero) (es_events s) -> ev_Type e <> EventZero ->
  Forall (fun x => ev_Type x <> EventZero) (es_events s').
Proof.
  unfold append. intros A Hs He.
  assert (forall t, append_started t e = (None, s') -> es_events t = es_events s ->
    Forall (fun x => ev_Type x <> EventZero) (es_events s')) as H.
  2: { destruct (_ =? 0); eapply H; eauto. }
  clear A. intros t. unfold append_started. intros A Et. rewrite Et in A.
  destruct (last (es_events s)) as [l|] eqn:El.
  2: { destruct (grow _ _); [|done]. injection A as <-. apply Forall_app; split; [done|by constructor]. }
  destruct (last_split _ _ El) as (front & Hsplit & Hrl). rewrite Hrl in A. rewrite Hsplit in Hs. apply Forall_app in Hs as [Hs1 [Hl _]%Forall_cons].
  destruct (bool_decide _ && snapshotText l && snapshotText e).
  { destruct (grow _ _); [|done]. injection A as <-. apply Forall_app; split; [done|by constructor]. }
  destruct (mergeSnapshotUsage l e) as [m|] eqn:M.
  - destruct (grow _ _); [|done]. injection A as <-. apply mergeSnapshotUsage_type in M as (_ & _ & Hm & _).
    apply Forall_app; split; [done|]. constructor; [|done]. by rewrite Hm.
  - destruct (grow _ _); [|done]. injection A as <-. cbn [es_events]. rewrite Hsplit.
    repeat (apply Forall_app; split); [done|by constructor|by constructor].
Qed.

Lemma append_all_types s es s' :
  append_all s es = Ok s' -> Forall (fun x => ev_Type x <> EventZero) (es_events s) ->
  Forall (fun x => ev_Type x <> EventZero) es -> Forall (fun x => ev_Type x <> EventZero) (es_events s').
Proof.
  revert s; induction es as [|e es IH]; intros s; simpl; [by intros [= <-]|].
  destruct (append s e) as [[err|] s1] eqn:A; [done|]. intros Hs' Hs [He Hes]%Forall_cons.
  eapply IH; eauto using append_types.
Qed.

Lemma eventsFromPersisted_ok es :
  Forall (fun x => ev_Type x <> EventZero) es ->
  eventsFromPersisted (persistedEventFrom <$> es) = Ok (cloneEvent <$> es).
Proof.
  induction 1 as [|e es He Hes IH]; [done|].
  change (persistedEventFrom <$> e :: es) with (persistedEventFrom e :: (persistedEventFrom <$> es)).
  cbn [eventsFromPersisted]. rewrite bool_decide_eq_false_2 by done. by rewrite IH.
Qed.

(** Everything in a snapshot is already free of checkpoint payloads. *)
Lemma append_clone s e s' :
  append s e = (None, s') -> Forall (fun x => cloneEvent x = x) (es_events s) ->
  Forall (fun x => cloneEvent x = x) (es_events s').
Proof.
  unfold append. intros A Hs.
  assert (forall t, append_started t e = (None, s') -> es_events t = es_events s ->
    Forall (fun x => cloneEvent x = x) (es_events s')) as H.
  2: { destruct (_ =? 0); eapply H; eauto. }
  clear A. intros t. unfold append_started. intros A Et. rewrite Et in A.
  destruct (last (es_events s)) as [l|] eqn:El.
  2: { destruct (grow _ _); [|done]. injection A as <-. apply Forall_app; split; [done|by constructor]. }
  destruct (last_split _ _ El) as (front & Hsplit & Hrl). rewrite Hrl in A. rewrite Hsplit in Hs. apply Forall_app in Hs as [Hs1 [Hl _]%Forall_cons].
  destruct (bool_decide _ && snapshotText l && snapshotText e) eqn:C.
  { destruct (grow _ _); [|done]. injection A as <-. apply Forall_app; split; [done|]. constructor; [|done].
    rewrite <-Hl at 2. by rewrite <-Hl. }
  destruct (mergeSnapshotUsage l e) as [m|] eqn:M.
  - destruct (grow _ _); [|done]. injection A as <-. apply mergeSnapshotUsage_type in M as (_ & _ & _ & Hm).
    apply Forall_app; split; [done|]. by constructor.
  - destruct (grow _ _); [|done]. injection A as <-. cbn [es_events]. rewrite Hsplit.
    repeat (apply Forall_app; split); [done|by constructor|by constructor].
Qed.
Lemma append_all_clone s es s' :
  append_all s es = Ok s' -> Forall (fun x => cloneEvent x = x) (es_events s) ->
  Forall (fun x => cloneEvent x = x) (es_events s').
Proof.
  revert s; induction es as [|e es IH]; intros s; simpl; [by intros [= <-]|].
  destruct (append s e) as [[err|] s1] eqn:A; [done|]. eauto using append_clone.
Qed.

Lemma fmap_clone_id es : Forall (fun x => cloneEvent x = x) es -> cloneEvent <$> es = es.
Proof. induction 1 as [|e l He _ IH]; [done|]. rewrite fmap_cons. by rewrite He, IH. Qed.

(** *** A snapshot is a fixed point of snapshotting *)
Definition mergeable (l e : Event) : bool :=
  (bool_decide (ev_Type l = ev_Type e) && snapshotText l && snapshotText e)
  || bool_decide (is_Some (mergeSnapshotUsage l e)).

Fixpoint no_merge (es : list Event) : Prop :=
  match es with
  | l :: ((e :: _) as es') => mergeable l e = false /\ no_merge es'
  | _ => True
  end.

Lemma no_merge_snoc es l e : no_merge (es ++ [l]) -> mergeable l e = false -> no_merge ((es ++ [l]) ++ [e]).
Proof.
  induction es as [|x [|y es] IH]; simpl; [done|intros [? _] ?; done|].
  intros [? ?] ?. split; [done|]. by apply IH.
Qed.

(** Replacing the last event keeps the property when the new one merges with no
    more than the old one did. *)
Lemma no_merge_replace es l m :
  no_merge (es ++ [l]) -> (forall p, mergeable p l = false -> mergeable p m = false) -> no_merge (es ++ [m]).
Proof.
  intros H Hm. induction es as [|x [|y es] IH]; simpl in *; [done|naive_solver|].
  destruct H as [? ?]. split; [done|]. by apply IH.
Qed.

(** What the guards of [mergeSnapshotUsage] amount to on events within range. *)
Definition delta_merge (p l : Event) : Prop :=
  match ev_Usage p, ev_Usage l with
  | None, None => True
  | Some up, Some ul =>
      uo_Kind up = UsageKindTokenDelta /\ uo_Kind ul = UsageKindTokenDelta /\
      oc_Present (uo_TokenDelta up) = true /\ oc_Present (uo_TokenDelta ul) = true /\
      oc_Invalid (uo_TokenDelta up) = false /\ oc_Invalid (uo_TokenDelta ul) = false /\
      0 <= oc_Value (uo_TokenDelta up) /\ 0 <= oc_Value (uo_TokenDelta ul) /\
      oc_Value (uo_TokenDelta up) + oc_Value (uo_TokenDelta ul) <= max_i64 /\
      set_delta noCount up = set_delta noCount ul
  | _, _ => False
  end.
Definition usage_merge (p l : Event) : Prop :=
  ev_Type p = EventUsage /\ ev_Type l = EventUsage /\ 0 <= ev_Tokens p /\ 0 <= ev_Tokens l /\
  ev_Tokens p + ev_Tokens l <= max_i64 /\ delta_merge p l.

Lemma usage_merge_sound p l m : event_ok p -> mergeSnapshotUsage p l = Some m -> usage_merge p l.
Proof.
  intros [Hp Hup]. unfold mergeSnapshotUsage, usage_merge, delta_merge.
  destruct (negb _ || _ || _ || _ || _) eqn:G1; [done|]. bool_hyps. rewrite wrap_max_sub in * by done.
  destruct (ev_Usage p) as [up|] eqn:Up, (ev_Usage l) as [ul|] eqn:Ul; try done.
  - destruct (negb _ || negb _) eqn:G2; [done|]. bool_hyps.
    destruct (negb _ || negb _ || _ || _ || _ || _ || _) eqn:G3; [done|]. bool_hyps.
    rewrite wrap_max_sub in * by eauto.
    destruct (negb (bool_decide (set_delta _ _ = _))) eqn:G4; [done|]. bool_hyps. intros _.
    split_and!; try done; lia.
  - intros _. split_and!; first [done | lia].
Qed.

Lemma usage_merge_complete p l : event_ok p -> usage_merge p l -> is_Some (mergeSnapshotUsage p l).
Proof.
  intros [Hp Hup] (T1 & T2 & P1 & P2 & P3 & D). unfold mergeSnapshotUsage.
  rewrite T1, T2, wrap_max_sub by done.
  replace (ev_Tokens p <? 0) with false by lia. replace (ev_Tokens l <? 0) with false by lia.
  replace (max_i64 - ev_Tokens p <? ev_Tokens l) with false by lia.
  rewrite !(bool_decide_eq_true_2 (EventUsage = EventUsage)) by done. cbn [negb orb].
  unfold delta_merge in D. destruct (ev_Usage p) as [up|], (ev_Usage l) as [ul|]; try done.
  destruct D as (K1 & K2 & -> & -> & -> & -> & V1 & V2 & V3 & ->). rewrite K1, K2.
  rewrite wrap_max_sub by eauto.
  replace (oc_Value (uo_TokenDelta up) <? 0) with false by lia.
  replace (oc_Value (uo_TokenDelta ul) <? 0) with false by lia.
  replace (max_i64 - oc_Value (uo_TokenDelta up) <? oc_Value (uo_TokenDelta ul)) with false by lia.
  rewrite !(bool_decide_eq_true_2 (_ = _)) by done. by eexists.
Qed.

Lemma mergeable_usage_mono p l e m :
  event_ok l -> event_ok p -> mergeSnapshotUsage l e = Some m ->
  is_Some (mergeSnapshotUsage p m) -> is_Some (mergeSnapshotUsage p l).
Proof.
  intros Hl Hp M [m' M']. apply usage_merge_complete; [done|].
  pose proof (usage_merge_sound _ _ _ Hl M) as (L1 & _ & L3 & L4 & L5 & DL).
  pose proof (usage_merge_sound _ _ _ Hp M') as (Q1 & _ & Q3 & _ & Q5 & DP). clear M'.
  assert (ev_Tokens m = ev_Tokens l + ev_Tokens e /\
    delta_merge p l) as [E D].
  { revert M. unfold mergeSnapshotUsage, delta_merge in *. repeat go_case; try done; intros [= <-]; simpl in *;
      destruct_and?; rewrite ?wrap_i64_id in * by (unfold is_i64, min_i64, max_i64 in *; lia);
      split_and!; try done; try lia. }
  unfold usage_merge. split_and!; try done. lia.
Qed.

Lemma append_started_no_merge s e s' :
  snapshot_wf s -> Forall event_ok (es_events s) -> payload_free e = true -> no_merge (es_events s) ->
  append_started s e = (None, s') -> no_merge (es_events s').
Proof.
  intros Hwf Hok Hp Hn. unfold append_started.
  destruct (last (es_events s)) as [l|] eqn:El.
  2: { apply last_None in El. destruct (grow _ _); intros [= <-]. cbn [es_events]. by rewrite El. }
  destruct (last_split _ _ El) as (front & Hsplit & Hrl). rewrite Hrl. rewrite Hsplit in Hn, Hok |- *.
  apply Forall_app in Hok as [Hokf [Hokl _]%Forall_cons].
  destruct (bool_decide _ && snapshotText l && snapshotText e) eqn:C.
  - destruct (grow _ _); intros [= <-]. cbn [es_events].
    apply andb_true_iff in C as [[Hty%bool_decide_eq_true_1 Hsl]%andb_true_iff Hse].
    eapply no_merge_replace; [exact Hn|]. intros p. unfold mergeable.
    cbn [with_progress with_text ev_Type]. rewrite Hsl, andb_true_r. rewrite !orb_false_iff.
    intros [H1 _]. split.
    + apply andb_false_iff in H1 as [H1|H1]; rewrite H1; [done|]. by rewrite andb_false_r.
    + apply bool_decide_eq_false_2. intros [m M]. apply mergeSnapshotUsage_type in M as (_ & M & _).
      simpl in M. unfold snapshotText in Hsl. by rewrite M in Hsl.
  - destruct (mergeSnapshotUsage l e) as [m|] eqn:M.
    + destruct (grow _ _); intros [= <-]. cbn [es_events].
      assert (forall p, p ∈ front -> mergeable p l = false -> mergeable p m = false) as Hmono.
      { intros p Hpf. unfold mergeable. rewrite !orb_false_iff. intros [_ H2]. split.
        - apply mergeSnapshotUsage_type in M as (_ & _ & M & _).
          assert (snapshotText m = false) as -> by (unfold snapshotText; by rewrite M). by rewrite andb_false_r.
        - bool_hyps. apply bool_decide_eq_false_2. intros H3. apply H2.
          eapply mergeable_usage_mono; [exact Hokl| |exact M|exact H3].
          by eapply (proj1 (Forall_forall _ _) Hokf). }
      clear -Hn Hmono. induction front as [|x [|y es] IH]; simpl in *; [done| |].
      * destruct Hn. split; [|done]. apply Hmono; [by left|done].
      * destruct Hn as [? ?]. split; [done|]. apply IH; [done|]. intros p Hp'. apply Hmono. by right.
    + destruct (grow _ _); intros [= <-]. cbn [es_events]. apply no_merge_snoc; [done|].
      unfold mergeable. cbn [cloneEvent ev_Type]. rewrite snapshotText_clone by done. rewrite C.
      apply bool_decide_eq_false_2. change (mergeSnapshotUsage l (cloneEvent e)) with (mergeSnapshotUsage l e).
      rewrite M. by intros [].
Qed.

Lemma append_wf_ok_no_merge s e s' :
  snapshot_wf s -> Forall event_ok (es_events s) -> no_merge (es_events s) ->
  event_ok e -> payload_free e = true -> append s e = (None, s') ->
  snapshot_wf s' /\ Forall event_ok (es_events s') /\ no_merge (es_events s').
Proof.
  intros Hwf Hok Hn He Hp A. split_and!.
  - by eapply append_wf.
  - by destruct (append_observe s e s' (newFacts false) Hwf Hok He A).
  - revert A. unfold append. destruct (es_bytes s =? 0) eqn:E; [|by apply append_started_no_merge].
    apply append_started_no_merge; try done. destruct Hwf as [Hb Hs Hl]. bool_hyps.
    split; cbn [es_events es_bytes es_lastSize es_text].
    + intros Hne. specialize (Hb Hne). rewrite snapshot_json_size_eq in Hb.
      pose proof (sum_sizes_nonneg (es_events s)). lia.
    + by right.
    + intros l Hl'. destruct (Hl l Hl') as (? & ? & ? & ?). split_and!; try done. lia.
Qed.

Lemma append_all_no_merge s es s' :
  snapshot_wf s -> Forall event_ok (es_events s) -> no_merge (es_events s) ->
  Forall event_ok es -> forallb payload_free es = true -> append_all s es = Ok s' ->
  no_merge (es_events s').
Proof.
  revert s; induction es as [|e es IH]; intros s Hwf Hok Hn He Hp; simpl; [by intros [= <-]|].
  apply Forall_cons in He as [He Hes]. simpl in Hp. bool_hyps.
  destruct (append s e) as [[err|] s1] eqn:A; [done|].
  destruct (append_wf_ok_no_merge s e s1 Hwf Hok Hn He H A) as (? & ? & ?). by apply IH.
Qed.

Lemma snapshot_json_size_app es es' : es <> [] -> snapshot_json_size es <= snapshot_json_size (es ++ es').
Proof.
  intros Hne. rewrite !snapshot_json_size_eq, sum_sizes_app, length_app.
  pose proof (sum_sizes_nonneg es'). destruct es; [done|]. simpl. lia.
Qed.

(** Appending events that do not merge just pushes them. *)
Lemma append_all_push es s :
  es_bytes s = snapshot_json_size (es_events s) \/ (es_events s = [] /\ es_bytes s = 0) ->
  no_merge (es_events s ++ es) -> Forall (fun x => cloneEvent x = x) es ->
  (es <> [] -> snapshot_json_size (es_events s ++ es) <= maxCompletedEventBytes) ->
  exists s', append_all s es = Ok s' /\ es_events s' = es_events s ++ es.
Proof.
  revert s; induction es as [|e es IH]; intros s Hb Hn Hc Hmax.
  { exists s. by rewrite app_nil_r. }
  apply Forall_cons in Hc as [He Hes]. specialize (Hmax ltac:(done)).
  assert (append s e = (None, {| es_events := es_events s ++ [e]; es_bytes := snapshot_json_size (es_events s ++ [e]);
     es_lastSize := snapshotEventSize e; es_text := if snapshotText e then ev_Text e else "" |})) as A.
  { set (s0 := if es_bytes s =? 0
       then {| es_events := es_events s; es_bytes := 2; es_lastSize := es_lastSize s; es_text := es_text s |} else s).
    change (append s e) with (append_started s0 e).
    assert (es_events s0 = es_events s) as E0 by (unfold s0; by destruct (_ =? 0)).
    assert (es_bytes s0 = snapshot_json_size (es_events s)) as B0.
    { unfold s0. destruct Hb as [Hb|[Hb ->]]; [|by rewrite Hb]. destruct (es_bytes s =? 0) eqn:Z0; [|done]. bool_hyps.
      rewrite Hb, snapshot_json_size_eq in Z0. pose proof (sum_sizes_nonneg (es_events s)). lia. }
    assert (grow (es_bytes s0) (match es_events s0 with [] => snapshotEventSize e | _ => snapshotEventSize e + 1 end)
            = Some (snapshot_json_size (es_events s ++ [e]))) as G.
    { rewrite B0, E0, snapshot_json_size_snoc.
      pose proof (snapshot_json_size_app (es_events s ++ [e]) es ltac:(by destruct (es_events s))) as Hm.
      rewrite <-app_assoc in Hm. change ([e] ++ es) with (e :: es) in Hm. rewrite snapshot_json_size_snoc in Hm. unfold grow.
      destruct (es_events s) as [|x xs].
      - change (snapshot_json_size []) with 2 in *. rewrite (proj2 (Z.ltb_ge _ _)) by lia. f_equal; lia.
      - rewrite (proj2 (Z.ltb_ge _ _)) by lia. f_equal; lia. }
    unfold append_started. rewrite G, E0, He. destruct (last (es_events s)) as [l|] eqn:El; [|done].
    apply last_Some in El as [k Hk].
    assert (mergeable l e = false) as Hm.
    { clear -Hn Hk. rewrite Hk in Hn. clear Hk. induction k as [|x k IH]; simpl in Hn; [by destruct Hn|].
      apply IH. destruct ((k ++ [l]) ++ e :: es) eqn:K; [by destruct k|]. destruct Hn. done. }
    unfold mergeable in Hm. apply orb_false_iff in Hm as [H1 H2]. rewrite H1.
    apply bool_decide_eq_false_1 in H2. destruct (mergeSnapshotUsage l e); [by destruct H2|done]. }
  cbn [append_all]. rewrite A.
  edestruct IH as (s' & Hs' & Hev); [| | | |exists s'; split; [exact Hs'|]].
  - by left.
  - cbn [es_events]. by rewrite <-app_assoc.
  - done.
  - intros _. cbn [es_events]. by rewrite <-app_assoc.
  - rewrite Hev. cbn [es_events]. by rewrite <-app_assoc.
Qed.

(** ** Properties *)

(** C13 No segment, whatever its events, is persisted over budget: when every
    append succeeds the serialized array of the coalesced events is at most
    16 MiB, although the accumulator never re-encodes the merged text. *)
Theorem snapshot_within_budget (es : list Event) (s : eventSnapshot) :
  forallb payload_free es = true -> append_all emptySnapshot es = Ok s ->
  snapshot_json_size (es_events s) <= maxCompletedEventBytes.
Proof.
  intros Hp Ha. pose proof (append_all_wf _ _ _ emptySnapshot_wf Hp Ha) as [Hb _ _].
  destruct (es_events s) as [|e l] eqn:E; [done|]. specialize (Hb ltac:(done)). lia.
Qed.

(** C14 Coalescing is invisible to accounting: the facts a consumer folds out of
    the persisted events are those of the live stream, counter for counter. *)
Theorem snapshot_preserves_accounting (measured : bool) (es : list Event) (s : eventSnapshot) :
  Forall event_ok es -> forallb payload_free es = true -> append_all emptySnapshot es = Ok s ->
  observe_all (newFacts measured) (es_events s) = observe_all (newFacts measured) es.
Proof.
  intros He Hp Ha. by apply (append_all_observe _ _ _ (newFacts measured) emptySnapshot_wf (Forall_nil_2 _)) in Ha.
Qed.

(** Persisting a stream and reading it back yields exactly the events a
    replaying output hands out, and none of them fails to decode. *)
Theorem persist_events_roundtrip (es : list Event) (out : list Event) :
  Forall (fun e => ev_Type e <> EventZero) es -> newSnapshotOutput es = (out, None) ->
  exists ps, persistEvents es = Ok ps /\ eventsFromPersisted ps = Ok out.
Proof.
  unfold newSnapshotOutput, persistEvents. intros Ht.
  destruct (append_all emptySnapshot es) as [s|] eqn:A; [|done]. intros [= <-].
  eexists; split; [done|]. rewrite eventsFromPersisted_ok by (eapply append_all_types; [exact A|done|done]).
  f_equal. apply fmap_clone_id. exact (append_all_clone _ _ _ A (Forall_nil_2 _)).
Qed.

(** A replay is stable: the snapshot of a snapshot is the snapshot, so the
    output rebuilt from disk and the output of the live segment agree. *)
Theorem snapshot_output_idempotent (es out : list Event) :
  Forall event_ok es -> forallb payload_free es = true -> newSnapshotOutput es = (out, None) ->
  newSnapshotOutput out = (out, None).
Proof.
  unfold newSnapshotOutput. intros He Hp.
  destruct (append_all emptySnapshot es) as [s|] eqn:A; [|done]. intros [= <-].
  pose proof (append_all_wf _ _ _ emptySnapshot_wf Hp A) as [Hb _ _].
  destruct (append_all_push (es_events s) emptySnapshot) as (s' & -> & ->); [by right| | | |done].
  - apply (append_all_no_merge _ _ _ emptySnapshot_wf (Forall_nil_2 _) I He Hp A).
  - exact (append_all_clone _ _ _ A (Forall_nil_2 _)).
  - intros Hne. specialize (Hb Hne). cbn [emptySnapshot es_events app]. lia.
Qed.

(** *** A concrete segment: two text deltas, two usage deltas *)
Definition sample_events : list Event :=
  [with_text "Hello, " (event_of EventText); with_text "world" (event_of EventText);
   with_usage 3 None (event_of EventUsage); with_usage 4 None (event_of EventUsage)].
Definition sample_snapshot : eventSnapshot :=
  match append_all emptySnapshot sample_events with Ok s => s | Fail _ => emptySnapshot end.

Example sample_coalesced :
  es_events sample_snapshot =
  [with_text "Hello, world" (event_of EventText); with_usage 7 None (event_of EventUsage)].
Proof. vm_compute. reflexivity. Qed.
Lemma sample_ok : Forall event_ok sample_events.
Proof. repeat constructor; unfold min_i64, max_i64; simpl; try lia; done. Qed.

Lemma snapshot_within_budget_witness :
  snapshot_json_size (es_events sample_snapshot) <= maxCompletedEventBytes.
Proof. apply (snapshot_within_budget sample_events); vm_compute; reflexivity. Defined.
Lemma snapshot_preserves_accounting_witness :
  observe_all (newFacts true) (es_events sample_snapshot) = observe_all (newFacts true) sample_events.
Proof. apply snapshot_preserves_accounting; [exact sample_ok|vm_compute; reflexivity|vm_compute; reflexivity]. Defined.
Lemma persist_events_roundtrip_witness :
  exists ps, persistEvents sample_events = Ok ps /\ eventsFromPersisted ps = Ok (es_events sample_snapshot).
Proof. apply persist_events_roundtrip; [repeat constructor; done|vm_compute; reflexivity]. Defined.
Lemma snapshot_output_idempotent_witness :
  newSnapshotOutput (es_events sample_snapshot) = (es_events sample_snapshot, None).
Proof. apply (snapshot_output_idempotent sample_events); [exact sample_ok|vm_compute; reflexivity|vm_compute; reflexivity]. Defined.

(** A text delta carrying a checkpoint payload is stored without it, after which it
    counts as plain text whose accumulated text is empty: the next delta replaces it. *)
Example payload_text_lost :
  (es_events <$> (match append_all emptySnapshot
      [with_payload [Byte.x01] ∅ (with_text "first" (event_of EventText)); with_text "second" (event_of EventText)]
    with Ok s => Some s | Fail _ => None end))
  = Some [with_text "second" (event_of EventText)].
Proof. vm_compute. reflexivity. Qed.
