(* ===== verification/Segment.v ===== *)
(** * Segments, batches and tool results (src/cursoragentv1/segment.go, state.go, completed_state.go)

    The pure part of the session state: normalising tool identifiers, naming a
    billing run and a generation segment, canonicalising the tool results of a
    request and checking them against a pending batch. *)
From stdpp Require Import base tactics list gmap strings sorting.
From S2P Require Import Prelude GoStrings Sha256 Data.
Open Scope Z_scope.

(** ** Tool identifiers *)

Fixpoint normalize_loop (seen : gset string) (ids : list string) : list string :=
  match ids with
  | [] => []
  | id :: ids =>
      let id := TrimSpace id in
      if bool_decide (id = "") then normalize_loop seen ids
      else if bool_decide (id ∈ seen) then normalize_loop seen ids
      else id :: normalize_loop ({[id]} ∪ seen) ids
  end.
Definition normalizeToolIDs (ids : list string) : list string := sort_strings (normalize_loop ∅ ids).

Definition pendingToolIDs (pending : list PendingTool) : list string :=
  sort_strings ((fun t => TrimSpace (pt_ToolCallID t)) <$> pending).

Definition batchSubsetOf (batchIDs submittedIDs : list string) : bool :=
  let submitted : gset string := list_to_set (normalizeToolIDs submittedIDs) in
  let batch := normalizeToolIDs batchIDs in
  if bool_decide (batch = []) then false else forallb (fun id => bool_decide (id ∈ submitted)) batch.

(** ** Tool results *)

Definition result_le (a b : CompletedToolResult) : Prop := String.le (cr_ToolCallID a) (cr_ToolCallID b).
#[export] Instance result_le_dec a b : Decision (result_le a b).
Proof. unfold result_le. apply _. Defined.

(** [sort.Slice] by tool-call id; the slices it is used on have distinct ids. *)
Definition sort_results (l : list CompletedToolResult) : list CompletedToolResult := merge_sort result_le l.

Definition completedFrom (id : string) (r : ToolResult) : CompletedToolResult :=
  {| cr_ToolCallID := id; cr_Content := tr_Content r; cr_IsError := tr_IsError r; cr_Media := tr_Media r |}.

Definition result_size (item : CompletedToolResult) : Z :=
  foldr (fun m n => len (mp_Data m) + n) (len (cr_ToolCallID item) + len (cr_Content item)) (cr_Media item).

Definition errCompletedTooLarge : Err :=
  ErrMsg ("Cursor Agent v1 completed tool data exceeds " +:+ Itoa maxPendingToolBytes +:+ " bytes").

Fixpoint canonical_loop (seen : gset string) (total : Z) (results : list ToolResult)
    : result (list CompletedToolResult) :=
  match results with
  | [] => Ok []
  | r :: rs =>
      let id := TrimSpace (tr_ToolCallID r) in
      if bool_decide (id = "") then Fail ErrSessionNotPending
      else if bool_decide (id ∈ seen) then Fail ErrSessionNotPending
      else
        let item := completedFrom id r in
        let total := total + result_size item in
        if maxPendingToolBytes <? total then Fail errCompletedTooLarge
        else rbind (canonical_loop ({[id]} ∪ seen) total rs) (fun out => Ok (item :: out))
  end.

Definition canonicalToolResults (results : list ToolResult) : result (list CompletedToolResult) :=
  if bool_decide (results = []) || (maxPendingTools <? Z.of_nat (length results)) then Fail ErrSessionNotPending
  else rbind (canonical_loop ∅ 0 results) (fun out => Ok (sort_results out)).

Definition completedBatchIDs (results : list CompletedToolResult) : list string :=
  normalizeToolIDs (cr_ToolCallID <$> results).

(** The loop of [completedResultsForBatch]: the results kept, in order, and the
    identifiers still wanted. *)
Fixpoint wanted_loop (wanted : gset string) (results : list CompletedToolResult)
    : list CompletedToolResult * gset string :=
  match results with
  | [] => ([], wanted)
  | r :: rs =>
      if bool_decide (cr_ToolCallID r ∈ wanted)
      then let '(out, w) := wanted_loop (wanted ∖ {[cr_ToolCallID r]}) rs in (r :: out, w)
      else wanted_loop wanted rs
  end.

Definition completedResultsForBatch (results : list CompletedToolResult) (batchIDs : list string)
    : option (list CompletedToolResult) :=
  let wanted : gset string := list_to_set (normalizeToolIDs batchIDs) in
  if bool_decide (wanted = ∅) then None
  else
    let '(filtered, missing) := wanted_loop wanted results in
    if negb (bool_decide (missing = ∅)) then None else Some (sort_results filtered).

Definition toolResultFrom (r : CompletedToolResult) : ToolResult :=
  {| tr_ToolCallID := cr_ToolCallID r; tr_Content := cr_Content r; tr_IsError := cr_IsError r;
     tr_Media := cr_Media r |}.

Definition toolResultsForBatch (results : list ToolResult) (batchIDs : list string) : option (list ToolResult) :=
  match canonicalToolResults results with
  | Fail _ => None
  | Ok canonical => option_map (map toolResultFrom) (completedResultsForBatch canonical batchIDs)
  end.

Definition digest_record (r : CompletedToolResult) : string :=
  cr_ToolCallID r +:+ NUL +:+ cr_Content r +:+ NUL +:+ (if cr_IsError r then "1" else "0") +:+ NUL.
Definition concat_strings (l : list string) : string := foldr (fun s t => s +:+ t) "" l.
Definition digest_material (results : list CompletedToolResult) : string :=
  concat_strings (digest_record <$> results).

(** ** Billing runs and segments *)

Definition meteredTurnPrefix : string := "turn2:".
Definition isMeteredTurn (id : string) : bool := HasPrefix id meteredTurnPrefix.

(** [fresh] is what [uuid.NewString] returns in this call. *)
Definition meteredTurnID (fresh id : string) : string :=
  let id := TrimSpace id in
  if HasPrefix id meteredTurnPrefix then id
  else meteredTurnPrefix +:+ (if bool_decide (id = "") then fresh else id).

Definition normalizeFollowUp (text : string) : string := TrimSpace text.

Section digests.
Context `{Digest}.

Definition toolResultDigest (results : list CompletedToolResult) : string :=
  "sha256:" +:+ digest (digest_material results).

Definition generation_material (fingerprint : string) (originalBatch : list string)
    (accepted : list CompletedToolResult) (followUp : string) : string :=
  TrimSpace fingerprint +:+ NUL +:+ Join (normalizeToolIDs originalBatch) NUL +:+ NUL
    +:+ toolResultDigest accepted +:+ NUL +:+ normalizeFollowUp followUp.
Definition generationSegmentID (fingerprint : string) (originalBatch : list string)
    (accepted : list CompletedToolResult) (followUp : string) : string :=
  digest (generation_material fingerprint originalBatch accepted followUp).

Definition CredentialFingerprint (credentialScope accountKey : string) : result string :=
  let credentialScope := TrimSpace credentialScope in
  let accountKey := TrimSpace accountKey in
  if bool_decide (credentialScope = "") || bool_decide (accountKey = "")
  then Fail (ErrMsg "Cursor Agent v1 credential scope and stable account key are required")
  else Ok ("sha256:" +:+ digest ("scope:" +:+ credentialScope +:+ NUL +:+ "account:" +:+ accountKey)).
End digests.

Definition is_usage_evidence (e : Event) : bool :=
  match ev_Type e with
  | EventUsage | EventUsageObservation | EventHostedSearchCall | EventHostedSearchStarted
  | EventHostedSearchCompleted | EventThinkingCompleted => true
  | _ => false
  end.
Definition usageEvidenceEvents (events : list Event) : list Event :=
  cloneEvent <$> List.filter is_usage_evidence events.

Definition set_carried (u : UsageObservation) : UsageObservation :=
  {| uo_Carried := true; uo_Kind := uo_Kind u; uo_TokenDelta := uo_TokenDelta u; uo_Input := uo_Input u;
     uo_Output := uo_Output u; uo_CacheRead := uo_CacheRead u; uo_CacheWrite := uo_CacheWrite u;
     uo_Reasoning := uo_Reasoning u |}.
Definition is_turn_ended (e : Event) : bool :=
  bool_decide (ev_Type e = EventUsageObservation) &&
  match ev_Usage e with Some u => bool_decide (uo_Kind u = UsageKindTurnEnded) | None => false end.
Definition carry_event (e : Event) : Event :=
  if is_turn_ended e then with_usage (ev_Tokens e) (set_carried <$> ev_Usage e) e else e.
Definition empty_turn : UsageObservation :=
  {| uo_Carried := true; uo_Kind := UsageKindTurnEnded; uo_TokenDelta := noCount; uo_Input := noCount;
     uo_Output := noCount; uo_CacheRead := noCount; uo_CacheWrite := noCount; uo_Reasoning := noCount |}.

Definition meteredUsageCarry (events : list Event) : list Event :=
  let carry := usageEvidenceEvents events in
  let found := existsb is_turn_ended carry in
  let carry := carry_event <$> carry in
  if found then carry else carry ++ [with_usage 0 (Some empty_turn) (event_of EventUsageObservation)].

(** [visibleHistoryOutput] (full_history.go) *)
Definition visibleHistoryOutput (events : list Event) : bool :=
  existsb (fun e =>
    (bool_decide (ev_Type e = EventText) && negb (bool_decide (TrimSpace (ev_Text e) = "")))
    || (bool_decide (ev_Type e = EventToolCall) && negb (bool_decide (ev_ToolCall e = None)))
    || (bool_decide (ev_Type e = EventHostedSearchCompleted) && negb (bool_decide (ev_HostedSearch e = None)))) events.

(** ** Validation of what is persisted *)

Definition errPendingMany : Err := ErrMsg ("Cursor Agent v1 pending tools exceed " +:+ Itoa maxPendingTools).
Definition errPendingBytes : Err :=
  ErrMsg ("Cursor Agent v1 pending tool data exceeds " +:+ Itoa maxPendingToolBytes +:+ " bytes").

Fixpoint pending_loop (seen seenUpstream : gset string) (total : Z) (pending : list PendingTool) : option Err :=
  match pending with
  | [] => None
  | t :: ts =>
      let id := TrimSpace (pt_ToolCallID t) in
      if bool_decide (id = "") then Some (ErrMsg "Cursor Agent v1 pending tool id is required")
      else if bool_decide (id ∈ seen)
      then Some (ErrMsg ("Cursor Agent v1 pending tool id " +:+ Quote id +:+ " is duplicated"))
      else
        let up := TrimSpace (pt_UpstreamToolCallID t) in
        if HasPrefix id "toolu_bf_agentv1_" && bool_decide (up = "")
        then Some (ErrMsg "Cursor Agent v1 routed pending tool is missing its upstream id")
        else if negb (bool_decide (up = "")) && bool_decide (up ∈ seenUpstream)
        then Some (ErrMsg ("Cursor Agent v1 upstream pending tool id " +:+ Quote up +:+ " is duplicated"))
        else
          let seenUpstream := if bool_decide (up = "") then seenUpstream else {[up]} ∪ seenUpstream in
          let total := total + (len (pt_ExecID t) + len id + len up + len (pt_Name t) + len (pt_Arguments t)) in
          if maxPendingToolBytes <? total then Some errPendingBytes
          else pending_loop ({[id]} ∪ seen) seenUpstream total ts
  end.
Definition validatePendingTools (pending : list PendingTool) : option Err :=
  if maxPendingTools <? Z.of_nat (length pending) then Some errPendingMany else pending_loop ∅ ∅ 0 pending.

Section catalog.
(** [jsonx.Unmarshal] of a schema into an object, then [jsonx.Marshal] of it:
    [None] when it is not a JSON object. *)
Context (canonical_schema : bytes -> option bytes).

Definition defaultSchema : bytes :=
  to_bytes "{" ++ [Byte.x22] ++ to_bytes "type" ++ [Byte.x22] ++ to_bytes ":" ++ [Byte.x22] ++ to_bytes "object"
    ++ [Byte.x22] ++ to_bytes "," ++ [Byte.x22] ++ to_bytes "properties" ++ [Byte.x22] ++ to_bytes ":{}}".

Fixpoint definitions_loop (seen : gset string) (tools : list ToolDefinition) : result (list ToolDefinition) :=
  match tools with
  | [] => Ok []
  | t :: ts =>
      let name := TrimSpace (td_Name t) in
      if bool_decide (name = "") then Fail (ErrMsg "Cursor Agent v1 tool name is required")
      else if bool_decide (name ∈ seen) then Fail (ErrMsg ("Cursor Agent v1 duplicate tool " +:+ Quote name))
      else
        match canonical_schema (if bool_decide (td_InputSchema t = []) then defaultSchema else td_InputSchema t) with
        | None => Fail (ErrMsg ("Cursor Agent v1 tool " +:+ Quote name +:+ " input schema must be a JSON object"))
        | Some schema =>
            rbind (definitions_loop ({[name]} ∪ seen) ts) (fun out =>
              Ok ({| td_Name := name; td_Description := td_Description t; td_InputSchema := schema |} :: out))
        end
  end.
Definition normalizeToolDefinitions (tools : list ToolDefinition) : result (list ToolDefinition) :=
  definitions_loop ∅ tools.

Definition errCatalogBytes : Err :=
  ErrMsg ("Cursor Agent v1 tool catalog exceeds " +:+ Itoa maxPendingToolBytes +:+ " bytes").
Fixpoint catalog_total (total : Z) (tools : list ToolDefinition) : bool :=
  match tools with
  | [] => true
  | t :: ts =>
      let total := total + (len (td_Name t) + len (td_Description t) + blen (td_InputSchema t)) in
      if maxPendingToolBytes <? total then false else catalog_total total ts
  end.
Definition validateToolCatalog (tools : list ToolDefinition) : result (list ToolDefinition) :=
  if bool_decide (tools = []) then Ok []
  else rbind (normalizeToolDefinitions tools) (fun normalized =>
    if catalog_total 0 normalized then Ok normalized else Fail errCatalogBytes).
End catalog.

(** ** KV blobs (runner.go) *)
Definition errBlobSize (maxSingle : Z) : Err :=
  ErrMsg ("Cursor Agent v1 KV blob exceeds " +:+ Itoa maxSingle +:+ " bytes").
Definition errBlobStoreSize (maxTotal : Z) : Err :=
  ErrMsg ("Cursor Agent v1 KV blob store exceeds " +:+ Itoa maxTotal +:+ " bytes").

Definition storeBlob (store : gmap string bytes) (total : Z) (key : string) (value : bytes) (maxSingle maxTotal : Z)
    : result (gmap string bytes * Z) :=
  if bool_decide (key = "") then Fail (ErrMsg "Cursor Agent v1 KV blob id is empty")
  else if maxSingle <? blen value then Fail (errBlobSize maxSingle)
  else
    let previous := blen (default [] (store !! key)) in
    let nextTotal := total - previous + blen value in
    if maxTotal <? nextTotal then Fail (errBlobStoreSize maxTotal)
    else Ok (<[key := value]> store, nextTotal).

(** The loop of [validateBlobStore] over the values in an iteration order. *)
Fixpoint validate_blobs (maxSingle maxTotal total : Z) (values : list bytes) : result Z :=
  match values with
  | [] => Ok total
  | v :: vs =>
      if maxSingle <? blen v then Fail (errBlobSize maxSingle)
      else if maxTotal <? total + blen v then Fail (errBlobStoreSize maxTotal)
      else validate_blobs maxSingle maxTotal (total + blen v) vs
  end.
Definition validateBlobStore (store : gmap string bytes) (maxSingle maxTotal : Z) : result Z :=
  validate_blobs maxSingle maxTotal 0 (snd <$> map_to_list store).

(** ** Lemmas on identifiers *)

Lemma elem_normalize_loop x ids seen :
  x ∈ normalize_loop seen ids <-> x <> "" /\ x ∉ seen /\ x ∈ TrimSpace <$> ids.
Proof.
  revert seen; induction ids as [|i ids IH]; intros seen; cbn [normalize_loop].
  - set_solver.
  - rewrite fmap_cons. generalize (TrimSpace i); intros t. generalize dependent (TrimSpace <$> ids). intros l IH.
    destruct (decide (x = t)) as [->|Hx]; repeat case_bool_decide;
      rewrite ?elem_of_cons, ?IH, ?elem_of_union, ?elem_of_singleton; naive_solver.
Qed.
Lemma NoDup_normalize_loop ids seen : NoDup (normalize_loop seen ids).
Proof.
  revert seen; induction ids as [|i ids IH]; intros seen; simpl; [constructor|].
  repeat case_bool_decide; try done. constructor; [|done].
  rewrite elem_normalize_loop, elem_of_union, elem_of_singleton. naive_solver.
Qed.

Lemma elem_normalizeToolIDs x ids : x ∈ normalizeToolIDs ids <-> x <> "" /\ x ∈ TrimSpace <$> ids.
Proof. unfold normalizeToolIDs. rewrite sort_strings_perm, elem_normalize_loop.
  pose proof (not_elem_of_empty (C:=gset string) x). naive_solver.
Qed.
Lemma NoDup_normalizeToolIDs ids : NoDup (normalizeToolIDs ids).
Proof. unfold normalizeToolIDs. rewrite sort_strings_perm. apply NoDup_normalize_loop. Qed.

(** Two requests name the same batch when they name the same set. *)
Lemma normalizeToolIDs_ext a b :
  (forall x, x ∈ normalizeToolIDs a <-> x ∈ normalizeToolIDs b) -> normalizeToolIDs a = normalizeToolIDs b.
Proof.
  intros H. apply (Sorted_unique String.le); [apply sort_strings_sorted..|].
  apply NoDup_Permutation; [apply NoDup_normalizeToolIDs..|done].
Qed.

(** Lists that are already normal. *)
Definition normal_ids (ids : list string) : Prop :=
  Sorted String.le ids /\ NoDup ids /\ Forall (fun id => id <> "" /\ TrimSpace id = id) ids.

Lemma normalizeToolIDs_normal ids : normal_ids (normalizeToolIDs ids).
Proof.
  split_and!; [apply sort_strings_sorted|apply NoDup_normalizeToolIDs|].
  apply Forall_forall. intros x [? (i & -> & _)%list_elem_of_fmap]%elem_normalizeToolIDs.
  split; [done|]. apply TrimSpace_idemp.
Qed.

Lemma fmap_trim_normal ids : Forall (fun id => id <> "" /\ TrimSpace id = id) ids -> TrimSpace <$> ids = ids.
Proof. induction 1 as [|x l [_ Hx] _ IH]; [done|]. rewrite fmap_cons. by rewrite Hx, IH. Qed.

Lemma normalizeToolIDs_id ids : normal_ids ids -> normalizeToolIDs ids = ids.
Proof.
  intros (Hs & Hn & Hf). apply (Sorted_unique String.le); [apply sort_strings_sorted|done|].
  apply NoDup_Permutation; [apply NoDup_normalizeToolIDs|done|]. intros x.
  rewrite elem_normalizeToolIDs, fmap_trim_normal by done. split; [by intros []|].
  intros Hx. split; [|done]. by eapply (proj1 (Forall_forall _ _) Hf) in Hx as [? _].
Qed.
Lemma normalizeToolIDs_idemp ids : normalizeToolIDs (normalizeToolIDs ids) = normalizeToolIDs ids.
Proof. apply normalizeToolIDs_id, normalizeToolIDs_normal. Qed.

(** ** Lemmas on tool results *)

Lemma result_size_nonneg r : 0 <= result_size r.
Proof.
  unfold result_size. induction (cr_Media r) as [|m ms IH]; simpl; unfold len in *; lia.
Qed.
Definition sizes (l : list CompletedToolResult) : Z := foldr (fun r n => result_size r + n) 0 l.
Lemma sizes_nonneg l : 0 <= sizes l.
Proof. induction l as [|r l IH]; simpl; [done|]. pose proof (result_size_nonneg r). lia. Qed.
Lemma sizes_perm l k : l ≡ₚ k -> sizes l = sizes k.
Proof. induction 1; simpl; lia. Qed.

Definition completed_of (r : ToolResult) : CompletedToolResult := completedFrom (TrimSpace (tr_ToolCallID r)) r.
Definition canonical_ids (rs : list ToolResult) : list string := (fun r => TrimSpace (tr_ToolCallID r)) <$> rs.

Lemma fresh_ids (x : string) (seen : gset string) (l : list string) :
  Forall (fun id => id <> "" /\ id ∉ {[x]} ∪ seen) l <-> x ∉ l /\ Forall (fun id => id <> "" /\ id ∉ seen) l.
Proof.
  induction l as [|y l IH]; rewrite ?Forall_nil, ?Forall_cons, ?elem_of_cons, ?elem_of_nil; [naive_solver|].
  rewrite IH, not_elem_of_union, not_elem_of_singleton. naive_solver.
Qed.

(** The loop accepts exactly the lists of distinct, non-blank identifiers within
    the byte budget. *)
Lemma canonical_loop_spec seen total rs out :
  total <= maxPendingToolBytes ->
  canonical_loop seen total rs = Ok out <->
  out = completed_of <$> rs /\ NoDup (canonical_ids rs) /\
  Forall (fun id => id <> "" /\ id ∉ seen) (canonical_ids rs) /\ total + sizes (completed_of <$> rs) <= maxPendingToolBytes.
Proof.
  revert seen total out; induction rs as [|r rs IH]; intros seen total out Ht; cbn [canonical_loop].
  { split; [intros [= <-]|by intros (-> & _)]. split_and!; [done|constructor|constructor|simpl; lia]. }
  unfold canonical_ids in *. rewrite !fmap_cons, NoDup_cons, Forall_cons. cbn [sizes foldr]. fold (sizes (completed_of <$> rs)).
  change (completedFrom (TrimSpace (tr_ToolCallID r)) r) with (completed_of r).
  pose proof (sizes_nonneg (completed_of <$> rs)).
  case_bool_decide as Hid; [naive_solver|]. case_bool_decide as Hs; [naive_solver|].
  destruct (_ <? _) eqn:E; bool_hyps; [split; [done|]; intros (_ & _ & _ & ?); lia|].
  destruct (canonical_loop _ _ rs) as [o|e] eqn:L; cbn [rbind].
  - apply IH in L as (-> & Hn & Hf & Hz); [|done]. split.
    + apply fresh_ids in Hf as [? ?]. intros [= <-]. split_and!; try done. lia.
    + by intros (-> & _).
  - split; [done|]. intros (-> & (Hni & Hn) & (_ & Hf) & Hz).
    destruct (IH ({[TrimSpace (tr_ToolCallID r)]} ∪ seen) (total + result_size (completed_of r)) (completed_of <$> rs)) as [_ IH']; [done|].
    rewrite L in IH'. assert (Fail e = Ok (completed_of <$> rs)) as ?; [|done]. apply IH'. split_and!; try done; [by apply fresh_ids|lia].
Qed.

Lemma canonical_accepts rs out :
  canonicalToolResults rs = Ok out <->
  rs <> [] /\ Z.of_nat (length rs) <= maxPendingTools /\ NoDup (canonical_ids rs) /\
  Forall (fun id => id <> "") (canonical_ids rs) /\ sizes (completed_of <$> rs) <= maxPendingToolBytes /\
  out = sort_results (completed_of <$> rs).
Proof.
  unfold canonicalToolResults. destruct (_ || _) eqn:G.
  - split; [done|]. intros (? & ? & _). apply orb_true_iff in G as [G|G]; [by apply bool_decide_eq_true_1 in G|].
    apply Z.ltb_lt in G. lia.
  - bool_hyps. assert (forall (P : Prop), Forall (fun id => id <> "" /\ id ∉ (∅ : gset string)) (canonical_ids rs) <->
      Forall (fun id => id <> "") (canonical_ids rs)) as F.
    { intros _. rewrite !Forall_forall. pose proof (not_elem_of_empty (C:=gset string)). naive_solver. }
    destruct (canonical_loop ∅ 0 rs) as [o|e] eqn:L; cbn [rbind].
    + apply canonical_loop_spec in L as (-> & Hn & Hf & Hz); [|done]. rewrite (F True) in Hf. naive_solver.
    + split; [done|]. intros (_ & _ & Hn & Hf & Hz & _).
      assert (canonical_loop ∅ 0 rs = Ok (completed_of <$> rs)) as H1; [|by rewrite L in H1].
      apply canonical_loop_spec; [done|]. rewrite (F True). naive_solver.
Qed.

#[export] Instance result_le_trans : Transitive result_le.
Proof. intros a b c. unfold result_le. apply transitivity. Qed.
#[export] Instance result_le_total : Total result_le.
Proof. intros a b. unfold result_le. apply (total String.le). Qed.
Lemma sort_results_perm l : sort_results l ≡ₚ l.
Proof. apply merge_sort_Permutation. Qed.
Lemma sort_results_sorted l : StronglySorted result_le (sort_results l).
Proof. apply StronglySorted_merge_sort; apply _. Qed.

Lemma ids_sorted l : StronglySorted result_le l -> Sorted String.le (cr_ToolCallID <$> l).
Proof.
  intros H. apply StronglySorted_Sorted. induction H as [|r l Hl IH Hr]; [constructor|].
  rewrite fmap_cons. constructor; [done|]. rewrite Forall_fmap. exact Hr.
Qed.

(** Results with distinct identifiers have one sorted order. *)
Lemma sorted_results_unique l k :
  StronglySorted result_le l -> StronglySorted result_le k -> NoDup (cr_ToolCallID <$> l) -> l ≡ₚ k -> l = k.
Proof.
  intros Hl. revert k; induction Hl as [|x l Hl IH Hx]; intros k Hk Hn Hp.
  { symmetry in Hp. by apply Permutation_nil_r in Hp. }
  destruct Hk as [|y k Hk Hy]; [by apply Permutation_nil_r in Hp|].
  assert (x = y) as ->.
  { destruct (decide (x = y)) as [|Hne]; [done|]. exfalso.
    assert (y ∈ l) as Hyl by (assert (y ∈ x :: l) as H by (rewrite Hp; left); apply elem_of_cons in H; naive_solver).
    assert (x ∈ k) as Hxk by (assert (x ∈ y :: k) as H by (rewrite <-Hp; left); apply elem_of_cons in H; naive_solver).
    rewrite Forall_forall in Hx, Hy. specialize (Hx y Hyl). specialize (Hy x Hxk). unfold result_le in *.
    assert (cr_ToolCallID x = cr_ToolCallID y) as E by (by apply (anti_symm String.le)).
    rewrite fmap_cons, NoDup_cons in Hn. destruct Hn as [Hn _]. apply Hn. rewrite E. by apply list_elem_of_fmap_2. }
  f_equal. apply IH; [done| |by apply (Permutation.Permutation_cons_inv) in Hp].
  rewrite fmap_cons, NoDup_cons in Hn. by destruct Hn.
Qed.

Lemma sort_results_unique l k : l ≡ₚ k -> NoDup (cr_ToolCallID <$> l) -> sort_results l = sort_results k.
Proof.
  intros Hp Hn. apply sorted_results_unique; [apply sort_results_sorted..| |].
  - by rewrite sort_results_perm.
  - by rewrite !sort_results_perm.
Qed.

Lemma canonical_ids_of rs : cr_ToolCallID <$> (completed_of <$> rs) = canonical_ids rs.
Proof. rewrite <-list_fmap_compose. done. Qed.

(** The order in which a client sends its results does not matter. *)
Lemma canonical_perm rs rs' out : rs ≡ₚ rs' -> canonicalToolResults rs = Ok out -> canonicalToolResults rs' = Ok out.
Proof.
  intros Hp (Hne & Hl & Hn & Hf & Hz & Ho)%canonical_accepts.
  assert (canonical_ids rs ≡ₚ canonical_ids rs') as Hids by (unfold canonical_ids; by rewrite Hp).
  apply canonical_accepts. split_and!.
  - intros ->. by apply Permutation_nil_r in Hp.
  - by rewrite <-Hp.
  - by rewrite <-Hids.
  - by rewrite <-Hids.
  - rewrite <-(sizes_perm (completed_of <$> rs)); [done|by rewrite Hp].
  - rewrite Ho. apply sort_results_unique; [by rewrite Hp|by rewrite canonical_ids_of].
Qed.

(** A canonical list carries its normalised batch as its identifiers. *)
Lemma canonical_batch rs out :
  canonicalToolResults rs = Ok out ->
  cr_ToolCallID <$> out = completedBatchIDs out /\ normal_ids (cr_ToolCallID <$> out) /\
  StronglySorted result_le out /\ out <> [].
Proof.
  intros (Hne & _ & Hn & Hf & _ & ->)%canonical_accepts.
  assert (normal_ids (cr_ToolCallID <$> sort_results (completed_of <$> rs))) as Hnorm.
  { split_and!; [apply ids_sorted, sort_results_sorted|by rewrite sort_results_perm, canonical_ids_of|].
    rewrite sort_results_perm, canonical_ids_of. rewrite Forall_forall in *. intros x Hx. split; [by apply Hf|].
    unfold canonical_ids in Hx. apply list_elem_of_fmap in Hx as (r & -> & _). apply TrimSpace_idemp. }
  split_and!; [|done|apply sort_results_sorted|].
  - unfold completedBatchIDs. by rewrite normalizeToolIDs_id.
  - intros H. destruct rs as [|r rs]; [done|]. pose proof (sort_results_perm (completed_of <$> r :: rs)) as P.
    rewrite H in P. by apply Permutation_nil_l in P.
Qed.

(** ** Lemmas on batches *)

Lemma wanted_loop_spec W rs out w :
  wanted_loop W rs = (out, w) ->
  (forall r, r ∈ out -> r ∈ rs) /\ NoDup (cr_ToolCallID <$> out) /\ w ⊆ W /\
  (forall x, x ∈ cr_ToolCallID <$> out <-> x ∈ W /\ x ∉ w) /\
  (forall x, x ∈ w -> x ∉ cr_ToolCallID <$> rs).
Proof.
  revert W out w; induction rs as [|r rs IH]; intros W out w; cbn [wanted_loop].
  { intros [= <- <-]. split_and!; [done|constructor|done|..]; intros x; rewrite fmap_nil, elem_of_nil; tauto. }
  case_bool_decide as Hr.
  - destruct (wanted_loop (W ∖ _) rs) as [o w'] eqn:L. intros [= <- <-].
    destruct (IH _ _ _ L) as (H1 & H2 & H3 & H4 & H5).
    assert (forall x, x ∈ w' -> x ∈ W /\ x <> cr_ToolCallID r) as H6.
    { intros x Hx. apply H3 in Hx. rewrite elem_of_difference, elem_of_singleton in Hx. naive_solver. }
    rewrite !fmap_cons. split_and!.
    + intros y [->|Hy]%elem_of_cons; [by left|right; eauto].
    + constructor; [|done]. rewrite H4, elem_of_difference, elem_of_singleton. naive_solver.
    + intros x Hx. by apply H6.
    + intros x. rewrite elem_of_cons, H4, elem_of_difference, elem_of_singleton.
      destruct (decide (x = cr_ToolCallID r)) as [->|]; naive_solver.
    + intros x Hx [->|Hin]%elem_of_cons; [by apply H6 in Hx as [_ []]|by eapply H5].
  - intros L. destruct (IH _ _ _ L) as (H1 & H2 & H3 & H4 & H5). split_and!; try done.
    + intros y Hy. right. eauto.
    + intros x Hx. rewrite fmap_cons. intros [->|Hin]%elem_of_cons; [by apply H3 in Hx|by eapply H5].
Qed.

Lemma completedResultsForBatch_Some rs b out :
  completedResultsForBatch rs b = Some out ->
  cr_ToolCallID <$> out = normalizeToolIDs b /\ normalizeToolIDs b <> [] /\ (forall r, r ∈ out -> r ∈ rs) /\ StronglySorted result_le out.
Proof.
  unfold completedResultsForBatch. case_bool_decide as Hw; [done|].
  destruct (wanted_loop _ rs) as [o w] eqn:L. destruct (negb _) eqn:M; [done|]. intros [= <-]. bool_hyps. subst w.
  destruct (wanted_loop_spec _ _ _ _ L) as (H1 & H2 & _ & H4 & _). split_and!.
  - apply (Sorted_unique String.le); [apply ids_sorted, sort_results_sorted|apply sort_strings_sorted|].
    apply NoDup_Permutation; [by rewrite sort_results_perm|apply NoDup_normalizeToolIDs|].
    intros x. rewrite sort_results_perm, H4, elem_of_list_to_set.
    pose proof (not_elem_of_empty (C:=gset string) x). naive_solver.
  - intros Hb. by rewrite Hb in Hw.
  - intros r. rewrite sort_results_perm. apply H1.
  - apply sort_results_sorted.
Qed.

Lemma list_to_set_empty (l : list string) : (list_to_set l : gset string) = ∅ -> l = [].
Proof.
  destruct l as [|x l]; [done|]. intros H. exfalso. apply (not_elem_of_empty (C:=gset string) x).
  rewrite <-H. apply elem_of_list_to_set. by left.
Qed.

Lemma completedResultsForBatch_None rs b :
  completedResultsForBatch rs b = None ->
  normalizeToolIDs b = [] \/ exists id, id ∈ normalizeToolIDs b /\ id ∉ cr_ToolCallID <$> rs.
Proof.
  unfold completedResultsForBatch. case_bool_decide as Hw; [intros _; left; by apply list_to_set_empty|].
  destruct (wanted_loop _ rs) as [o w] eqn:L. destruct (negb _) eqn:M; [|done]. intros _. right. bool_hyps.
  destruct (wanted_loop_spec _ _ _ _ L) as (_ & _ & H3 & _ & H5).
  destruct (set_choose_L w) as [x Hx]; [done|]. exists x. split; [|by apply H5].
  apply H3 in Hx. by apply elem_of_list_to_set in Hx.
Qed.

(** A canonical request answers its own batch with itself. *)
Lemma canonical_own_batch rs out :
  canonicalToolResults rs = Ok out -> completedResultsForBatch out (completedBatchIDs out) = Some out.
Proof.
  intros H. pose proof (canonical_batch _ _ H) as (Hb & Hn & Hs & Hne). pose proof Hn as (_ & Hnd & _).
  destruct (completedResultsForBatch out (completedBatchIDs out)) as [o|] eqn:E.
  - apply completedResultsForBatch_Some in E as (Ho & _ & Hin & Hso). f_equal.
    unfold completedBatchIDs in Ho. rewrite normalizeToolIDs_idemp, (normalizeToolIDs_id (cr_ToolCallID <$> out)) in Ho by done.
    assert (NoDup (cr_ToolCallID <$> o)) as Hndo by (by rewrite Ho).
    apply sorted_results_unique; [done..|].
    apply NoDup_Permutation; [by eapply NoDup_fmap_1|by eapply NoDup_fmap_1|]. intros r. split; [apply Hin|].
    intros Hr. assert (cr_ToolCallID r ∈ cr_ToolCallID <$> o) as (r' & Er & Hr')%list_elem_of_fmap
      by (rewrite Ho; by apply list_elem_of_fmap_2).
    assert (r = r') as ->; [|done]. specialize (Hin r' Hr').
    apply list_elem_of_lookup in Hr as [i Hi], Hin as [j Hj].
    assert (i = j) as ->; [|congruence]. eapply (NoDup_lookup _ _ _ (cr_ToolCallID r) Hnd); rewrite list_lookup_fmap.
    + by rewrite Hi.
    + rewrite Hj. simpl. by rewrite Er.
  - exfalso. apply completedResultsForBatch_None in E as [E|(id & Hid & Hni)].
    + unfold completedBatchIDs in E. rewrite normalizeToolIDs_idemp, (normalizeToolIDs_id (cr_ToolCallID <$> out)) in E by done.
      by apply fmap_nil_inv in E.
    + unfold completedBatchIDs in Hid. by rewrite normalizeToolIDs_idemp, (normalizeToolIDs_id (cr_ToolCallID <$> out)) in Hid by done.
Qed.

Lemma batchSubsetOf_spec b s :
  batchSubsetOf b s = true <-> normalizeToolIDs b <> [] /\ (forall id, id ∈ normalizeToolIDs b -> id ∈ normalizeToolIDs s).
Proof.
  unfold batchSubsetOf. case_bool_decide as H; [naive_solver|]. rewrite forallb_forall. split.
  - intros Hf. split; [done|]. intros id Hid. apply list_elem_of_In in Hid. specialize (Hf id Hid).
    apply bool_decide_eq_true_1 in Hf. by apply elem_of_list_to_set in Hf.
  - intros [_ Hf] id Hid. apply bool_decide_eq_true_2, elem_of_list_to_set, Hf. by apply list_elem_of_In.
Qed.

(** ** Materials: NUL-terminated fields *)

Fixpoint nul_free (s : string) : bool :=
  match s with "" => true | String c r => negb (bool_decide (c = Ascii.zero)) && nul_free r end.

Definition fields (fs : list string) : string := concat_strings ((fun f => f +:+ NUL) <$> fs).

Lemma string_app_assoc (s t u : string) : (s +:+ t) +:+ u = s +:+ (t +:+ u).
Proof. induction s as [|c s IH]; [done|]. change (String c ((s +:+ t) +:+ u) = String c (s +:+ (t +:+ u))). by rewrite IH. Qed.
Lemma string_app_nil_r (s : string) : s +:+ "" = s.
Proof. induction s as [|c s IH]; [done|]. change (String c (s +:+ "") = String c s). by rewrite IH. Qed.

Lemma concat_strings_app a b : concat_strings (a ++ b) = concat_strings a +:+ concat_strings b.
Proof.
  induction a as [|s a IH]; [done|]. change (s +:+ concat_strings (a ++ b) = (s +:+ concat_strings a) +:+ concat_strings b).
  by rewrite IH, string_app_assoc.
Qed.
Lemma fields_app a b : fields (a ++ b) = fields a +:+ fields b.
Proof. unfold fields. by rewrite fmap_app, concat_strings_app. Qed.

Lemma nul_split s t r r' :
  nul_free s = true -> nul_free t = true -> s +:+ NUL +:+ r = t +:+ NUL +:+ r' -> s = t /\ r = r'.
Proof.
  revert t; induction s as [|c s IH]; intros [|d t] Hs Ht E; cbn [nul_free] in *; bool_hyps.
  - injection E as E. by split.
  - injection E as E1 E2. by subst d.
  - injection E as E1 E2. by subst c.
  - injection E as -> E. by destruct (IH t) as [-> ->].
Qed.

Lemma fields_inj a b :
  forallb nul_free a = true -> forallb nul_free b = true -> fields a = fields b -> a = b.
Proof.
  revert b; induction a as [|s a IH]; intros [|t b] Ha Hb E; cbn [forallb] in *; bool_hyps; [done| | |].
  - unfold fields in E. rewrite fmap_cons in E. by destruct t.
  - unfold fields in E. rewrite fmap_cons in E. by destruct s.
  - change (fields (s :: a)) with ((s +:+ NUL) +:+ fields a) in E. change (fields (t :: b)) with ((t +:+ NUL) +:+ fields b) in E.
    rewrite !string_app_assoc in E. apply nul_split in E as [-> E]; [|done..]. f_equal. by apply IH.
Qed.

Lemma fields_Join l : l <> [] -> Join l NUL +:+ NUL = fields l.
Proof.
  induction l as [|s [|t l] IH]; intros H; [done|symmetry; apply string_app_nil_r|].
  change (Join (s :: t :: l) NUL) with (s +:+ NUL +:+ Join (t :: l) NUL).
  rewrite !string_app_assoc, IH by done. change (fields (s :: t :: l)) with ((s +:+ NUL) +:+ fields (t :: l)).
  by rewrite string_app_assoc.
Qed.

Definition result_fields (r : CompletedToolResult) : list string :=
  [cr_ToolCallID r; cr_Content r; if cr_IsError r then "1" else "0"].
Lemma digest_material_fields l : digest_material l = fields (mjoin (result_fields <$> l)).
Proof.
  unfold digest_material. induction l as [|r l IH]; [done|]. rewrite !fmap_cons.
  change (mjoin (result_fields r :: (result_fields <$> l))) with (result_fields r ++ mjoin (result_fields <$> l)).
  rewrite fields_app, <-IH. change (concat_strings (digest_record r :: (digest_record <$> l)))
    with (digest_record r +:+ concat_strings (digest_record <$> l)). f_equal.
  unfold digest_record, result_fields, fields. cbn [fmap list_fmap concat_strings foldr].
  by rewrite !string_app_assoc, string_app_nil_r.
Qed.

(** A result whose identifier and content hold no NUL byte. *)
Definition nul_free_result (r : CompletedToolResult) : bool := nul_free (cr_ToolCallID r) && nul_free (cr_Content r).
Definition same_answer (a b : CompletedToolResult) : Prop :=
  cr_ToolCallID a = cr_ToolCallID b /\ cr_Content a = cr_Content b /\ cr_IsError a = cr_IsError b.

Lemma result_fields_free l :
  forallb nul_free_result l = true -> forallb nul_free (mjoin (result_fields <$> l)) = true.
Proof.
  induction l as [|r l IH]; [done|]. cbn [forallb]. intros H. bool_hyps. rewrite fmap_cons.
  change (mjoin (result_fields r :: (result_fields <$> l))) with (result_fields r ++ mjoin (result_fields <$> l)).
  rewrite forallb_app, IH, andb_true_r by done. unfold nul_free_result in *. bool_hyps.
  unfold result_fields. cbn [forallb]. rewrite H, H1. by destruct (cr_IsError r).
Qed.

Lemma digest_material_inj a b :
  forallb nul_free_result a = true -> forallb nul_free_result b = true ->
  digest_material a = digest_material b -> Forall2 same_answer a b.
Proof.
  intros Ha Hb E. rewrite !digest_material_fields in E. apply fields_inj in E; try by apply result_fields_free.
  clear Ha Hb. revert b E; induction a as [|x a IH]; intros [|y b] E; [constructor|discriminate E|discriminate E|].
  rewrite !fmap_cons in E. unfold result_fields in E. cbn [mjoin list_join app] in E.
  injection E as E1 E2 E3 E4. constructor; [|by apply IH]. unfold same_answer.
  destruct (cr_IsError x), (cr_IsError y); done.
Qed.

(** The fields a joined batch contributes: an empty batch still yields one. *)
Definition batch_fields (l : list string) : list string := match l with [] => [""] | _ :: _ => l end.
Lemma batch_fields_Join l : Join l NUL +:+ NUL = fields (batch_fields l).
Proof. destruct l as [|i l]; [done|]. by apply fields_Join. Qed.

(** A generation material is the list of its fields. *)
Lemma material_fields `{Digest} fp batch acc fu :
  generation_material fp batch acc fu +:+ NUL =
  fields (TrimSpace fp :: batch_fields (normalizeToolIDs batch)
          ++ [toolResultDigest acc; normalizeFollowUp fu]).
Proof.
  unfold generation_material. rewrite app_comm_cons, fields_app. set (l := normalizeToolIDs batch).
  assert (fields (TrimSpace fp :: batch_fields l) = TrimSpace fp +:+ NUL +:+ Join l NUL +:+ NUL) as ->.
  { change (fields (?x :: ?k)) with ((x +:+ NUL) +:+ fields k). rewrite string_app_assoc. do 2 f_equal.
    by rewrite batch_fields_Join. }
  change (fields [?x; ?y]) with ((x +:+ NUL) +:+ (y +:+ NUL) +:+ ""). by rewrite string_app_nil_r, !string_app_assoc.
Qed.

Lemma string_app_inj_r (s t u : string) : s +:+ u = t +:+ u -> s = t.
Proof.
  intros E. assert (String.length s = String.length t) as L.
  { assert (forall a b, String.length (a +:+ b) = (String.length a + String.length b)%nat) as A.
    { intros a b. induction a as [|c a IH]; [done|]. change (S (String.length (a +:+ b)) = S (String.length a + String.length b)). by rewrite IH. }
    apply (f_equal String.length) in E. rewrite !A in E. lia. }
  revert t E L; induction s as [|c s IH]; intros [|d t] E L; try done.
  injection E as -> E. injection L as L. f_equal. by apply IH.
Qed.

(** ** Properties *)

(** A batch is a set: normalising is idempotent, yields the trimmed non-blank
    identifiers sorted and without duplicates, and two requests that name the
    same identifiers, in any order or multiplicity, normalise to the same list. *)
Theorem normalizeToolIDs_canonical (a b : list string) :
  normal_ids (normalizeToolIDs a) /\ normalizeToolIDs (normalizeToolIDs a) = normalizeToolIDs a /\
  (forall x, x ∈ normalizeToolIDs a <-> x <> "" /\ x ∈ TrimSpace <$> a) /\
  ((forall x, x <> "" -> x ∈ TrimSpace <$> a <-> x ∈ TrimSpace <$> b) <-> normalizeToolIDs a = normalizeToolIDs b).
Proof.
  split; [apply normalizeToolIDs_normal|]. split; [apply normalizeToolIDs_idemp|].
  split; [intros x; apply elem_normalizeToolIDs|]. split.
  - intros H. apply normalizeToolIDs_ext. intros x. rewrite !elem_normalizeToolIDs. naive_solver.
  - intros H x Hx. pose proof (elem_normalizeToolIDs x a) as A. pose proof (elem_normalizeToolIDs x b) as B.
    rewrite H in A. naive_solver.
Qed.

(** Tool results are accepted exactly when the code's limits hold (one to 256
    results, distinct non-blank identifiers, at most 256 MiB), and the canonical
    form does not depend on the order in which the client sent them. *)
Theorem canonicalToolResults_order_free (rs rs' : list ToolResult) (out : list CompletedToolResult) :
  rs ≡ₚ rs' -> canonicalToolResults rs = Ok out ->
  canonicalToolResults rs' = Ok out /\ StronglySorted result_le out /\ out ≡ₚ completed_of <$> rs /\
  NoDup (cr_ToolCallID <$> out) /\ sizes out <= maxPendingToolBytes /\ 1 <= Z.of_nat (length rs) <= maxPendingTools.
Proof.
  intros Hp H. pose proof H as (Hne & Hl & Hn & Hf & Hz & Ho)%canonical_accepts.
  split_and!; [by apply (canonical_perm rs)|..].
  - rewrite Ho. apply sort_results_sorted.
  - by rewrite Ho, sort_results_perm.
  - by rewrite Ho, sort_results_perm, canonical_ids_of.
  - rewrite Ho. by rewrite (sizes_perm _ _ (sort_results_perm _)).
  - destruct rs; [done|]. cbn [length] in *. lia.
  - done.
Qed.

(** Answering a pending batch is all or nothing: results are returned exactly
    when the submitted identifiers cover the whole batch, they are then the
    submitted results of exactly that batch, in identifier order. *)
Theorem toolResultsForBatch_exact (rs : list ToolResult) (batch : list string) (canonical : list CompletedToolResult) :
  canonicalToolResults rs = Ok canonical ->
  (is_Some (toolResultsForBatch rs batch) <-> batchSubsetOf batch (tr_ToolCallID <$> rs) = true) /\
  (forall out, toolResultsForBatch rs batch = Some out ->
     tr_ToolCallID <$> out = normalizeToolIDs batch /\
     forall r, r ∈ out -> exists r', r' ∈ rs /\ completed_of r' = completed_of r /\ tr_ToolCallID r = TrimSpace (tr_ToolCallID r')).
Proof.
  intros Hc. pose proof Hc as (Hne & Hl & Hn & Hf & Hz & Ho)%canonical_accepts.
  assert (forall x, x ∈ cr_ToolCallID <$> canonical <-> x ∈ normalizeToolIDs (tr_ToolCallID <$> rs)) as Hids.
  { intros x. rewrite Ho, sort_results_perm, canonical_ids_of, elem_normalizeToolIDs, <-list_fmap_compose.
    change (x ∈ canonical_ids rs <-> x <> "" /\ x ∈ canonical_ids rs). rewrite Forall_forall in Hf. naive_solver. }
  unfold toolResultsForBatch. rewrite Hc.
  destruct (completedResultsForBatch canonical batch) as [o|] eqn:E; cbn [option_map].
  - apply completedResultsForBatch_Some in E as (E1 & E2 & E3 & _). split.
    + split; [intros _|by eexists]. apply batchSubsetOf_spec. split.
      * done.
      * intros id Hid. rewrite <-E1 in Hid. apply list_elem_of_fmap in Hid as (r & -> & Hr).
        apply Hids. by apply list_elem_of_fmap_2, E3.
    + intros out [= <-]. split.
      * rewrite <-E1. clear. induction o as [|r o IH]; [done|]. cbn [map]. by rewrite !fmap_cons, IH.
      * intros r Hr. apply list_elem_of_In, in_map_iff in Hr as (c & <- & Hc'). apply list_elem_of_In, E3 in Hc'.
        rewrite Ho, sort_results_perm in Hc'. apply list_elem_of_fmap in Hc' as (r' & -> & Hr').
        exists r'. split_and!; [done| |done]. unfold completed_of, completedFrom, toolResultFrom. simpl. by rewrite TrimSpace_idemp.
  - split; [|done]. split; [by intros []|]. intros (Hb & Hs)%batchSubsetOf_spec. exfalso.
    apply completedResultsForBatch_None in E as [E|(id & Hid & Hni)]; [done|]. apply Hni, Hids. by apply Hs.
Qed.

(** The result digest detects any change of an answer: over the same batch,
    two result lists without NUL bytes have the same digest only if they agree
    on every identifier, content and error flag (collisions of SHA-256 apart). *)
Theorem toolResultDigest_detects `{Digest} (a b : list CompletedToolResult) :
  CollisionFree (fun m => m = digest_material a \/ m = digest_material b) ->
  forallb nul_free_result a = true -> forallb nul_free_result b = true ->
  toolResultDigest a = toolResultDigest b -> Forall2 same_answer a b.
Proof.
  intros Hcf Ha Hb E. apply digest_material_inj; [done..|]. apply Hcf; [by left|by right|].
  unfold toolResultDigest in E. by injection E.
Qed.

(** A generation segment is named by what it generates: equal identifiers mean
    the same credential, the same original batch, the same result digest and the
    same follow-up (NUL-free inputs, SHA-256 collisions apart), and conversely
    the order and spacing of the identifiers and follow-up do not matter. *)
Theorem generationSegmentID_identifies `{Digest} (fp fp' fu fu' : string) (b b' : list string)
    (acc acc' : list CompletedToolResult) :
  CollisionFree (fun m => m = generation_material fp b acc fu \/ m = generation_material fp' b' acc' fu') ->
  forallb nul_free (TrimSpace fp :: toolResultDigest acc :: normalizeFollowUp fu :: normalizeToolIDs b) = true ->
  forallb nul_free (TrimSpace fp' :: toolResultDigest acc' :: normalizeFollowUp fu' :: normalizeToolIDs b') = true ->
  generationSegmentID fp b acc fu = generationSegmentID fp' b' acc' fu' <->
  TrimSpace fp = TrimSpace fp' /\ normalizeToolIDs b = normalizeToolIDs b' /\
  toolResultDigest acc = toolResultDigest acc' /\ normalizeFollowUp fu = normalizeFollowUp fu'.
Proof.
  intros Hcf Hf Hf'. split.
  - intros E. apply Hcf in E; [|by left|by right]. apply (f_equal (fun s => s +:+ NUL)) in E.
    rewrite !material_fields in E. cbn [forallb] in Hf, Hf'. bool_hyps.
    assert (forall f l d u, nul_free f = true -> forallb nul_free l = true -> nul_free d = true -> nul_free u = true ->
      forallb nul_free (f :: batch_fields l ++ [d; u]) = true) as Hm.
    { intros f l d u F L D U. cbn [forallb]. rewrite forallb_app. cbn [forallb]. rewrite F, D, U.
      destruct l; [done|]. cbn [batch_fields]. by rewrite L. }
    apply fields_inj in E; [|by apply Hm|by apply Hm].
    injection E as E1 E. apply app_inj_2 in E as [E2 E34]; [|done].
    pose proof (f_equal (hd "") E34) as E3. pose proof (f_equal (fun l => hd "" (tail l)) E34) as E4.
    cbn [hd tail] in E3, E4. split_and!; try done.
    pose proof (normalizeToolIDs_normal b) as (_ & _ & Nb). pose proof (normalizeToolIDs_normal b') as (_ & _ & Nb').
    destruct (normalizeToolIDs b), (normalizeToolIDs b'); try done.
    + injection E2 as <- _. apply Forall_cons in Nb' as [[? _] _]. done.
    + injection E2 as -> _. apply Forall_cons in Nb as [[? _] _]. done.
  - intros (E1 & E2 & E3 & E4). unfold generationSegmentID, generation_material. by rewrite E1, E2, E3, E4.
Qed.

(** *** Concrete requests *)
Definition tool_result (id content : string) : ToolResult :=
  {| tr_ToolCallID := id; tr_Content := content; tr_IsError := false; tr_Media := [] |}.
Definition sample_results : list ToolResult := [tool_result " b " "two"; tool_result "a" "one"].
Definition sample_canonical : list CompletedToolResult :=
  match canonicalToolResults sample_results with Ok l => l | Fail _ => [] end.
Example sample_canonical_ids : cr_ToolCallID <$> sample_canonical = ["a"; "b"].
Proof. vm_compute. reflexivity. Qed.

Lemma CollisionFree_pair `{Digest} a b :
  a = b \/ digest a <> digest b -> CollisionFree (fun m => m = a \/ m = b).
Proof. intros H' x y [->| ->] [->| ->] E; try done; destruct H' as [->|N]; done. Qed.

Lemma canonicalToolResults_order_free_witness :
  canonicalToolResults (reverse sample_results) = Ok sample_canonical.
Proof.
  apply (canonicalToolResults_order_free sample_results (reverse sample_results)); [by rewrite reverse_Permutation|].
  vm_compute. reflexivity.
Defined.
Lemma toolResultsForBatch_exact_witness :
  is_Some (toolResultsForBatch sample_results ["a"]) <-> batchSubsetOf ["a"] (tr_ToolCallID <$> sample_results) = true.
Proof. apply (toolResultsForBatch_exact sample_results ["a"] sample_canonical). vm_compute. reflexivity. Defined.
Lemma toolResultDigest_detects_witness :
  Forall2 same_answer sample_canonical sample_canonical.
Proof.
  apply (@toolResultDigest_detects sha256_digest); [apply CollisionFree_pair; by left|vm_compute; reflexivity..].
Defined.
Lemma generationSegmentID_identifies_witness :
  @generationSegmentID sha256_digest "cred" ["a"; "b"] sample_canonical "" <>
  @generationSegmentID sha256_digest "cred" ["a"; "c"] sample_canonical "".
Proof.
  intros E. apply (@generationSegmentID_identifies sha256_digest) in E; [|apply CollisionFree_pair; right; vm_compute; done
    |vm_compute; reflexivity|vm_compute; reflexivity]. destruct E as (_ & E & _). revert E. vm_compute. discriminate.
Defined.

(** The digest covers neither media nor the boundary between contents that hold
    NUL bytes: these different answers to one batch have the same digest. *)
Example digest_ignores_media `{Digest} :
  toolResultDigest [{| cr_ToolCallID := "a"; cr_Content := ""; cr_IsError := false; cr_Media := [] |}] =
  toolResultDigest [{| cr_ToolCallID := "a"; cr_Content := ""; cr_IsError := false;
    cr_Media := [{| mp_Kind := "image"; mp_MimeType := "image/png"; mp_Data := "AAAA"; mp_Filename := "" |}] |}].
Proof. reflexivity. Qed.
Definition plain_result (id content : string) : CompletedToolResult := completedFrom id (tool_result id content).
Example digest_nul_ambiguous `{Digest} :
  let mid := NUL +:+ "0" +:+ NUL +:+ "b" +:+ NUL in
  toolResultDigest [plain_result "a" ("x" +:+ mid +:+ "y"); plain_result "b" "z"] =
  toolResultDigest [plain_result "a" "x"; plain_result "b" ("y" +:+ mid +:+ "z")].
Proof. reflexivity. Qed.
