(* ===== verification/StoreWorld.v ===== *)
(** * The file system the session store runs on (src/cursoragentv1/state.go)

    Records persisted by the store, the file system with its advisory locks, and
    the error monad the store's methods are written in.  Every call to the
    operating system consults an oracle that may let it succeed, fail, or kill
    the process at that point, so a theorem about a method covers each of its
    partial executions.

    A file holds a decoded document: [encoding/json] gives back the value it
    wrote, and any other content is [DGarbage], which no decoder accepts.  The
    clock reads the same instant throughout a method. *)
From stdpp Require Import base tactics list gmap strings sorting countable.
From Stdlib Require Import Strings.Byte.
From S2P Require Import Prelude GoStrings Sha256 Data Segment.
Open Scope Z_scope.

(** ** Persisted records *)

Record StateSnapshot := {
  ss_Version : Z; ss_RuntimeProfile : string; ss_SessionID : string; ss_ConversationID : string;
  ss_CredentialFingerprint : string; ss_ToolCatalogDigest : string; ss_ToolCatalog : list ToolDefinition;
  ss_BillingRunID : string; ss_UsageCarry : list Event; ss_OwnerGeneration : Z; ss_OwnerToken : string;
  ss_Checkpoint : bytes; ss_Blobs : gmap string bytes; ss_PendingTools : list PendingTool;
  ss_PendingBatchIDs : list string; ss_FollowUpText : string; ss_EphemeralComplete : bool;
  ss_CompletedAt : time; ss_UpdatedAt : time }.

(** The zero value. *)
Definition zeroState : StateSnapshot :=
  {| ss_Version := 0; ss_RuntimeProfile := ""; ss_SessionID := ""; ss_ConversationID := "";
     ss_CredentialFingerprint := ""; ss_ToolCatalogDigest := ""; ss_ToolCatalog := []; ss_BillingRunID := "";
     ss_UsageCarry := []; ss_OwnerGeneration := 0; ss_OwnerToken := ""; ss_Checkpoint := []; ss_Blobs := ∅;
     ss_PendingTools := []; ss_PendingBatchIDs := []; ss_FollowUpText := ""; ss_EphemeralComplete := false;
     ss_CompletedAt := zeroTime; ss_UpdatedAt := zeroTime |}.

Record pendingIndex := {
  pi_Version : Z; pi_CredentialFingerprint : string; pi_BatchIDs : list string;
  pi_SessionIDs : list string; pi_UpdatedAt : time }.

Record toolBatchPointer := {
  tp_Version : Z; tp_CredentialFingerprint : string; tp_ToolCallID : string;
  tp_BatchIDs : list string; tp_UpdatedAt : time }.

Record completedTombstone := {
  ct_RequestKey : string; ct_RequestSegmentID : string; ct_Version : Z; ct_CredentialFingerprint : string;
  ct_BatchIDs : list string; ct_ResultDigest : string; ct_Results : list CompletedToolResult;
  ct_Events : list persistedEvent; ct_BillingRunID : string; ct_SessionID : string; ct_ConversationID : string;
  ct_HasPending : bool; ct_FollowUpText : string; ct_Ephemeral : bool; ct_UpdatedAt : time }.

Inductive Doc : Type :=
  | DState (x : StateSnapshot) | DIndex (x : pendingIndex) | DPointer (x : toolBatchPointer)
  | DTombstone (x : completedTombstone) | DGarbage.

(** ** Files and locks *)

(** The base name of a file: [<name>.json], or a temporary file that
    [os.CreateTemp] named after one of the [.cursor-agent-v1-*] patterns. *)
Inductive FileName : Type := FJson (name : string) | FTemp (n : nat).
#[export] Instance FileName_eq_dec : EqDecision FileName.
Proof. solve_decision. Defined.
#[export] Instance FileName_countable : Countable FileName.
Proof.
  refine (inj_countable' (fun f => match f with FJson s => inl s | FTemp n => inr n end)
    (fun x => match x with inl s => FJson s | inr n => FTemp n end) _). by intros [].
Defined.

(** A directory and a base name; [<name>.lock] in a directory for locks. *)
Abbreviation Path := (string * FileName)%type.
Abbreviation LockPath := (string * string)%type.

Record File := { f_doc : Doc; f_mtime : time }.

Record World := {
  w_files : gmap Path File;
  w_locks : gmap LockPath nat;       (* who holds the flock *)
  w_handles : gmap nat LockPath;     (* lease handles not yet released *)
  w_handle : nat;                    (* next lease handle *)
  w_temp : nat;                      (* next temporary file name *)
  w_uuid : nat;                      (* identifiers drawn so far *)
  w_now : time;
  w_lastGC : time;                   (* the store's lastGC *)
  w_os : nat }.                      (* system calls made *)

Definition set_files (f : gmap Path File -> gmap Path File) (w : World) : World :=
  {| w_files := f (w_files w); w_locks := w_locks w; w_handles := w_handles w; w_handle := w_handle w;
     w_temp := w_temp w; w_uuid := w_uuid w; w_now := w_now w; w_lastGC := w_lastGC w; w_os := w_os w |}.
Definition tick (w : World) : World :=
  {| w_files := w_files w; w_locks := w_locks w; w_handles := w_handles w; w_handle := w_handle w;
     w_temp := w_temp w; w_uuid := w_uuid w; w_now := w_now w; w_lastGC := w_lastGC w; w_os := S (w_os w) |}.
Definition bump_temp (w : World) : World :=
  {| w_files := w_files w; w_locks := w_locks w; w_handles := w_handles w; w_handle := w_handle w;
     w_temp := S (w_temp w); w_uuid := w_uuid w; w_now := w_now w; w_lastGC := w_lastGC w; w_os := w_os w |}.
Definition bump_uuid (w : World) : World :=
  {| w_files := w_files w; w_locks := w_locks w; w_handles := w_handles w; w_handle := w_handle w;
     w_temp := w_temp w; w_uuid := S (w_uuid w); w_now := w_now w; w_lastGC := w_lastGC w; w_os := w_os w |}.
Definition set_lastGC (t : time) (w : World) : World :=
  {| w_files := w_files w; w_locks := w_locks w; w_handles := w_handles w; w_handle := w_handle w;
     w_temp := w_temp w; w_uuid := w_uuid w; w_now := w_now w; w_lastGC := t; w_os := w_os w |}.
Definition take_lock (l : LockPath) (w : World) : World :=
  {| w_files := w_files w; w_locks := <[l := w_handle w]> (w_locks w); w_handles := <[w_handle w := l]> (w_handles w);
     w_handle := S (w_handle w); w_temp := w_temp w; w_uuid := w_uuid w; w_now := w_now w;
     w_lastGC := w_lastGC w; w_os := w_os w |}.
Definition drop_lock (h : nat) (w : World) : World :=
  {| w_files := w_files w;
     w_locks := match w_handles w !! h with Some l => delete l (w_locks w) | None => w_locks w end;
     w_handles := delete h (w_handles w); w_handle := w_handle w; w_temp := w_temp w; w_uuid := w_uuid w;
     w_now := w_now w; w_lastGC := w_lastGC w; w_os := w_os w |}.

(** ** The monad of the store's methods *)

Inductive Res (A : Type) : Type := ROk (a : A) | RFail (e : Err) | RCrash.
Arguments ROk {A} a.
Arguments RFail {A} e.
Arguments RCrash {A}.

Definition M (A : Type) : Type := World -> Res A * World.

#[export] Instance M_ret : MRet M := fun A a w => (ROk a, w).
#[export] Instance M_bind : MBind M := fun A B k m w =>
  match m w with
  | (ROk a, w') => k a w'
  | (RFail e, w') => (RFail e, w')
  | (RCrash, w') => (RCrash, w')
  end.
Definition fail {A} (e : Err) : M A := fun w => (RFail e, w).
(** [x, err := m]: the error is a value the code goes on to test. *)
Definition attempt {A} (m : M A) : M (result A) := fun w =>
  match m w with
  | (ROk a, w') => (ROk (Ok a), w')
  | (RFail e, w') => (ROk (Fail e), w')
  | (RCrash, w') => (RCrash, w')
  end.
Definition ignore {A} (m : M A) : M unit := attempt m ≫= fun _ => mret tt.
Definition lift {A} (r : result A) : M A := match r with Ok a => mret a | Fail e => fail e end.
Definition gets {A} (f : World -> A) : M A := fun w => (ROk (f w), w).
Definition modify (f : World -> World) : M unit := fun w => (ROk tt, f w).
Definition wrap_error {A} (text : string) (m : M A) : M A :=
  attempt m ≫= fun r => match r with Ok a => mret a | Fail e => fail (ErrWrap text e) end.

Fixpoint for_each {A} (l : list A) (body : A -> M unit) : M unit :=
  match l with [] => mret tt | x :: l => body x ≫= fun _ => for_each l body end.

(** [defer m]: runs after [body] unless the process died, its error dropped. *)
Definition deferred {A} (m : M unit) (body : M A) : M A := fun w =>
  match body w with
  | (RCrash, w') => (RCrash, w')
  | (r, w') => match m w' with (RCrash, w'') => (RCrash, w'') | (_, w'') => (r, w'') end
  end.

(** ** System calls *)

Inductive outcome := OsOk | OsError | OsCrash.

Section os.
Context (os : nat -> outcome).

Definition sys (op : string) : M unit := fun w =>
  (match os (w_os w) with OsOk => ROk tt | OsError => RFail (ErrOS op) | OsCrash => RCrash end, tick w).

(** [os.ReadFile], [os.Stat]. *)
Definition read_doc (op : string) (p : Path) : M File :=
  _ ← sys op;
  f ← gets (fun w => w_files w !! p);
  match f with Some f => mret f | None => fail ErrNotExist end.

(** [os.Remove], the store's [removeFile]. *)
Definition removeFile (p : Path) : M unit :=
  _ ← sys "remove";
  f ← gets (fun w => w_files w !! p);
  match f with Some _ => modify (set_files (delete p)) | None => fail ErrNotExist end.
(** [err != nil && !errors.Is(err, os.ErrNotExist)] after a removal. *)
Definition remove_if_present (wrap : Err -> Err) (p : Path) : M unit :=
  r ← attempt (removeFile p);
  match r with Ok _ => mret tt | Fail e => if errors_is e ErrNotExist then mret tt else fail (wrap e) end.

Definition mkdir_all (dir : string) : M unit := sys "mkdir".

(** [os.ReadDir] returns the entries by name: temporary files start with a dot. *)
Definition read_dir (dir : string) : M (list FileName) :=
  _ ← sys "readdir";
  gets (fun w =>
    let names := (map_to_list (w_files w)).*1 in
    let temps := omap (fun p => if bool_decide (p.1 = dir) then match p.2 with FTemp n => Some n | _ => None end else None) names in
    let jsons := omap (fun p => if bool_decide (p.1 = dir) then match p.2 with FJson n => Some n | _ => None end else None) names in
    (FTemp <$> merge_sort Nat.le temps) ++ (FJson <$> sort_strings jsons)).

Definition syncDirectory (dir : string) : M unit :=
  _ ← wrap_error "open Cursor Agent v1 state directory" (sys "open");
  wrap_error "sync Cursor Agent v1 state directory" (sys "fsync").

(** The common body of the four atomic writers: temporary file, chmod, write,
    fsync, close, rename, directory fsync.  [wrap] decorates the errors. *)
Definition replace_file (wrap : string -> Err -> Err) (p : Path) (doc : Doc) : M unit :=
  let step (what : string) (cleanup : M unit) (m : M unit) : M unit :=
    r ← attempt m;
    match r with Ok _ => mret tt | Fail e => _ ← cleanup; fail (wrap what e) end in
  r ← attempt (sys "createtemp");
  match r with
  | Fail e => fail (wrap "create" e)
  | Ok _ =>
      n ← gets w_temp;
      let tmp : Path := (p.1, FTemp n) in
      let unlink := ignore (removeFile tmp) in
      let cleanup := _ ← ignore (sys "close"); unlink in
      _ ← modify bump_temp;
      now ← gets w_now;
      _ ← modify (set_files <[tmp := {| f_doc := DGarbage; f_mtime := now |}]>);
      _ ← step "secure" cleanup (sys "chmod");
      _ ← step "write" cleanup (sys "write");
      _ ← modify (set_files <[tmp := {| f_doc := doc; f_mtime := now |}]>);
      _ ← step "sync" cleanup (sys "fsync");
      _ ← step "close" unlink (sys "close");
      _ ← step "replace" unlink (sys "rename");
      _ ← modify (set_files (fun fs => <[p := {| f_doc := doc; f_mtime := now |}]> (delete tmp fs)));
      syncDirectory p.1
  end.

(** *** Leases *)

Definition acquireLease (lockPath : LockPath) : M nat :=
  _ ← wrap_error "open Cursor Agent v1 state lock" (sys "open");
  _ ← wrap_error "lock Cursor Agent v1 state" (sys "flock");
  held ← gets (fun w => w_locks w !! lockPath);
  match held with
  | Some _ => fail ErrStateLeaseHeld
  | None => h ← gets w_handle; _ ← modify (take_lock lockPath); mret h
  end.

(** Closing the file drops the flock even when unlocking it failed. *)
Definition releaseHandle (h : nat) : M unit :=
  live ← gets (fun w => w_handles w !! h);
  match live with
  | None => mret tt
  | Some _ =>
      _ ← modify (drop_lock h);
      r ← attempt (sys "unlock");
      match r with
      | Fail e => _ ← ignore (sys "close"); fail (ErrWrap "unlock Cursor Agent v1 state" e)
      | Ok _ => wrap_error "close Cursor Agent v1 state lock" (sys "close")
      end
  end.

(** Up to 20 attempts, 5ms apart, while the lease is held. *)
Fixpoint acquire_attempts (n : nat) (lastErr : Err) (lockPath : LockPath) : M nat :=
  match n with
  | O => fail lastErr
  | S n =>
      r ← attempt (acquireLease lockPath);
      match r with
      | Ok h => mret h
      | Fail e => if negb (errors_is e ErrStateLeaseHeld) then fail e else acquire_attempts n e lockPath
      end
  end.
Definition acquirePendingIndexLease (lockPath : LockPath) : M nat := acquire_attempts 20 ErrStateLeaseHeld lockPath.

(** [handle, err := acquire(...); defer releaseHandle(handle)]. *)
Definition with_index_lease {A} (lockPath : LockPath) (body : M A) : M A :=
  h ← acquirePendingIndexLease lockPath;
  deferred (releaseHandle h) body.

(** The garbage collectors release explicitly: an error of the body wins and
    the release error is dropped; otherwise it is returned when [body] asks. *)
Definition release_after (h : nat) (body : M bool) : M unit :=
  r ← attempt body;
  match r with
  | Fail e => _ ← ignore (releaseHandle h); fail e
  | Ok true => releaseHandle h
  | Ok false => ignore (releaseHandle h)
  end.
End os.

#[global] Typeclasses Opaque fail attempt ignore lift gets modify wrap_error for_each deferred sys read_doc removeFile remove_if_present mkdir_all read_dir syncDirectory replace_file acquireLease releaseHandle acquire_attempts acquirePendingIndexLease with_index_lease release_after.
