(* ===== verification/StoreLogic.v ===== *)
(** * Reasoning about the store's methods

    Three classes of facts about a method, each closed under the monad's
    combinators, so that whole methods are covered by instance search: [Keeps]
    (a preorder on worlds holds across every execution), [Balanced] (every lease
    acquired is given back) and [FileFrame] (a set of files is not touched).  All
    of them speak about every oracle, errors and crashes included. *)
From stdpp Require Import base tactics list gmap strings sorting.
From S2P Require Import Prelude GoStrings Sha256 Data Segment StoreWorld.
Open Scope Z_scope.

Definition crashed {A} (r : Res A) : bool := match r with RCrash => true | _ => false end.

(** ** Leases *)

(** A lock is held by exactly one live handle, and handles are numbered. *)
Definition locks_wf (w : World) : Prop :=
  (forall l h, w_locks w !! l = Some h <-> w_handles w !! h = Some l) /\
  (forall h l, w_handles w !! h = Some l -> (h < w_handle w)%nat).

(** Handles that existed are as they were. *)
Definition handles_kept (w w' : World) : Prop :=
  locks_wf w' /\ (w_handle w <= w_handle w')%nat /\
  (forall h, (h < w_handle w)%nat -> w_handles w' !! h = w_handles w !! h).
Definition same_locks (w w' : World) : Prop := w_locks w' = w_locks w /\ w_handles w' = w_handles w.

Class Balanced {A} (m : M A) : Prop := balanced : forall w, locks_wf w ->
  handles_kept w (m w).2 /\ (crashed (m w).1 = false -> same_locks w (m w).2).

(** [m] gives back the lease [h]. *)
Class Releases {A} (h : nat) (m : M A) : Prop := releases : forall w l, locks_wf w -> w_handles w !! h = Some l ->
  locks_wf (m w).2 /\ (w_handle w <= w_handle (m w).2)%nat /\
  (forall h', (h' < w_handle w)%nat -> h' <> h -> w_handles (m w).2 !! h' = w_handles w !! h') /\
  (crashed (m w).1 = false -> w_locks (m w).2 = delete l (w_locks w) /\ w_handles (m w).2 = delete h (w_handles w)).

(** [m] takes [l]: on success the result is a fresh handle, the only change. *)
Class Acquires (l : LockPath) (m : M nat) : Prop := acquires : forall w, locks_wf w ->
  match m w with
  | (ROk h, w') =>
      h = w_handle w /\ w_locks w !! l = None /\ w_locks w' = <[l := h]> (w_locks w) /\
      w_handles w' = <[h := l]> (w_handles w) /\ w_handle w' = S h
  | (_, w') => same_locks w w' /\ w_handle w' = w_handle w
  end.

Lemma handles_kept_refl w : locks_wf w -> handles_kept w w.
Proof. done. Qed.
Lemma handles_kept_trans w1 w2 w3 : handles_kept w1 w2 -> handles_kept w2 w3 -> handles_kept w1 w3.
Proof.
  intros (H1 & H2 & H3) (H4 & H5 & H6). split_and!; [done|lia|]. intros h Hh. rewrite H6 by lia. by apply H3.
Qed.
Lemma locks_wf_same w w' : same_locks w w' -> w_handle w' = w_handle w -> locks_wf w -> locks_wf w'.
Proof. intros [E1 E2] E3 [H1 H2]. unfold locks_wf. rewrite E1, E2, E3. done. Qed.

Section combinators.
Context {A B : Type}.
Implicit Type m : M A.

(** A step that leaves the lease tables alone. *)
Lemma balanced_same m :
  (forall w, same_locks w (m w).2 /\ w_handle (m w).2 = w_handle w) -> Balanced m.
Proof.
  intros Hm w Hw. destruct (Hm w) as [Hs Hh]. split; [|done]. split_and!; [by eapply locks_wf_same|lia|].
  intros h _. by destruct Hs as [_ ->].
Qed.

#[export] Instance balanced_ret (a : A) : Balanced (mret a).
Proof. by apply balanced_same. Qed.
#[export] Instance balanced_fail e : Balanced (fail e : M A).
Proof. by apply balanced_same. Qed.
#[export] Instance balanced_gets (f : World -> A) : Balanced (gets f).
Proof. by apply balanced_same. Qed.
#[export] Instance balanced_lift (r : result A) : Balanced (lift r).
Proof. destruct r; by apply balanced_same. Qed.

#[export] Instance balanced_bind (m : M A) (k : A -> M B) :
  Balanced m -> (forall a, Balanced (k a)) -> Balanced (m ≫= k).
Proof.
  intros Hm Hk w Hw. unfold mbind, M_bind. destruct (Hm w Hw) as [H1 H2].
  destruct (m w) as [[a|e|] w']; cbn [fst snd] in *; [|done..].
  destruct (Hk a w' ltac:(by destruct H1)) as [H3 H4]. split; [by eapply handles_kept_trans|].
  intros Hc. destruct (H2 eq_refl) as [E1 E2], (H4 Hc) as [E3 E4]. by split; etrans.
Qed.

#[export] Instance balanced_attempt (m : M A) : Balanced m -> Balanced (attempt m).
Proof.
  intros Hm w Hw. destruct (Hm w Hw) as [H1 H2]. unfold attempt. by destruct (m w) as [[a|e|] w'].
Qed.

Lemma releases_acquire (acq : M nat) l (k : nat -> M A) :
  Acquires l acq -> (forall h, Releases h (k h)) -> Balanced (acq ≫= k).
Proof.
  intros Ha Hk w Hw. unfold mbind, M_bind. specialize (Ha w Hw). destruct (acq w) as [[h|e|] w1].
  2,3: destruct Ha as [Hs Hh]; split; [|done]; split_and!;
    [by eapply locks_wf_same|simpl; lia|intros h' _; cbn [snd]; by destruct Hs as [_ ->]].
  destruct Ha as (-> & Hl & E1 & E2 & E3). destruct Hw as [W1 W2].
  assert (w_handles w !! w_handle w = None) as Hfree.
  { destruct (w_handles w !! w_handle w) eqn:E; [|done]. apply W2 in E. lia. }
  assert (locks_wf w1) as Hw1.
  { split.
    - intros l' h'. rewrite E1, E2. destruct (decide (l' = l)) as [->|Hne].
      + rewrite lookup_insert_eq. destruct (decide (h' = w_handle w)) as [->|Hn'].
        * rewrite lookup_insert_eq. naive_solver.
        * rewrite lookup_insert_ne by done. rewrite <-W1. naive_solver.
      + rewrite lookup_insert_ne by done. destruct (decide (h' = w_handle w)) as [->|Hn'].
        * rewrite lookup_insert_eq. split; [|naive_solver]. intros Hx. apply W1 in Hx. congruence.
        * rewrite lookup_insert_ne by done. apply W1.
    - intros h' l'. rewrite E2, E3. destruct (decide (h' = w_handle w)) as [->|Hn'].
      + lia.
      + rewrite lookup_insert_ne by done. intros Hx. apply W2 in Hx. lia. }
  destruct (Hk (w_handle w) w1 l Hw1) as (R1 & R2 & R3 & R4); [by rewrite E2, lookup_insert_eq|].
  rewrite E3 in *. split.
  - split_and!; [done|lia|]. intros h' Hh'. rewrite R3 by lia. rewrite E2, lookup_insert_ne; [done|lia].
  - intros Hc. unfold same_locks. destruct (R4 Hc) as [-> ->]. rewrite E1, E2. split; by apply delete_insert_id.
Qed.

Lemma acquires_attempt (acq : M nat) l (k : result nat -> M A) :
  Acquires l acq -> (forall h, Releases h (k (Ok h))) -> (forall e, Balanced (k (Fail e))) ->
  Balanced (attempt acq ≫= k).
Proof.
  intros Ha Hk He w Hw. pose proof (releases_acquire acq l (fun h => k (Ok h)) Ha Hk w Hw) as HR.
  unfold mbind, M_bind, attempt in *. specialize (Ha w Hw). destruct (acq w) as [[h|e|] w1]; [exact HR| |exact HR].
  destruct Ha as [Hs Hh]. assert (locks_wf w1) as Hw1 by (by eapply locks_wf_same).
  destruct (He e w1 Hw1) as [H1 H2]. split.
  - eapply handles_kept_trans; [|exact H1]. split_and!; [done|lia|]. intros h' _. by destruct Hs as [_ ->].
  - intros Hc. destruct (H2 Hc) as [E1 E2], Hs as [E3 E4]. by split; etrans.
Qed.
End combinators.

Lemma balanced_for_each {A} (l : list A) (body : A -> M unit) :
  (forall x, Balanced (body x)) -> Balanced (for_each l body).
Proof. intros Hb. induction l as [|x l IH]; simpl; apply _. Qed.
#[export] Hint Resolve balanced_for_each : typeclass_instances.

#[export] Instance balanced_ignore {A} (m : M A) : Balanced m -> Balanced (ignore m).
Proof. unfold ignore. apply _. Qed.
#[export] Instance balanced_wrap_error {A} text (m : M A) : Balanced m -> Balanced (wrap_error text m).
Proof. intros Hm. unfold wrap_error. apply balanced_bind; [apply _|]. intros [a|e]; apply _. Qed.
#[export] Instance balanced_set_files f : Balanced (modify (set_files f)).
Proof. by apply balanced_same. Qed.
#[export] Instance balanced_bump_temp : Balanced (modify bump_temp).
Proof. by apply balanced_same. Qed.
#[export] Instance balanced_bump_uuid : Balanced (modify bump_uuid).
Proof. by apply balanced_same. Qed.
#[export] Instance balanced_set_lastGC t : Balanced (modify (set_lastGC t)).
Proof. by apply balanced_same. Qed.

(** Split the branches of a method and close each by instance search. *)
Ltac balanced_basic :=
  repeat lazymatch goal with
  | |- Balanced (match ?x with _ => _ end) => destruct x
  | |- Balanced (_ ≫= _) => apply balanced_bind
  | |- Balanced _ => solve [apply _]
  | |- forall _, _ => intros ?
  end.

Section os.
Context (os : nat -> outcome).

#[export] Instance balanced_sys op : Balanced (sys os op).
Proof. by apply balanced_same. Qed.
#[export] Instance balanced_read_doc op p : Balanced (read_doc os op p).
Proof. unfold read_doc. balanced_basic. Qed.
#[export] Instance balanced_removeFile p : Balanced (removeFile os p).
Proof. unfold removeFile. balanced_basic. Qed.
#[export] Instance balanced_remove_if_present f p : Balanced (remove_if_present os f p).
Proof. unfold remove_if_present. balanced_basic. Qed.
#[export] Instance balanced_mkdir_all d : Balanced (mkdir_all os d).
Proof. unfold mkdir_all. balanced_basic. Qed.
#[export] Instance balanced_read_dir d : Balanced (read_dir os d).
Proof. unfold read_dir. balanced_basic. Qed.
#[export] Instance balanced_syncDirectory d : Balanced (syncDirectory os d).
Proof. unfold syncDirectory. balanced_basic. Qed.
#[export] Instance balanced_replace_file wrap p d : Balanced (replace_file os wrap p d).
Proof. unfold replace_file. cbv zeta. balanced_basic. Qed.

Lemma sys_same op w : same_locks w (sys os op w).2 /\ w_handle (sys os op w).2 = w_handle w.
Proof. done. Qed.

#[export] Instance acquires_acquireLease l : Acquires l (acquireLease os l).
Proof.
  intros w Hw. unfold acquireLease, wrap_error, attempt, sys, gets, modify, mbind, M_bind, mret, M_ret, fail.
  destruct (os (w_os w)); try done. cbn [w_os tick].
  destruct (os (S (w_os w))); try done. cbn [w_locks tick]. destruct (w_locks w !! l) eqn:E; done.
Qed.

#[export] Instance acquires_attempts n e l : Acquires l (acquire_attempts os n e l).
Proof.
  revert e; induction n as [|n IH]; intros e w Hw; [done|]. cbn [acquire_attempts].
  unfold mbind, M_bind, attempt. pose proof (acquires_acquireLease l w Hw) as H.
  destruct (acquireLease os l w) as [[h|e'|] w1]; [done| |done].
  destruct (negb _); [done|]. destruct H as [Hs Hh]. pose proof Hs as [E1 E2].
  specialize (IH e' w1 (locks_wf_same _ _ Hs Hh Hw)). rewrite E1, E2, Hh in IH.
  destruct (acquire_attempts os n e' l w1) as [[h|e''|] w2]; [done|..];
    destruct IH as [[E3 E4] E5]; (split; [split; congruence|done]).
Qed.
#[export] Instance acquires_pending l : Acquires l (acquirePendingIndexLease os l).
Proof. apply acquires_attempts. Qed.

#[export] Instance releases_releaseHandle h : Releases h (releaseHandle os h).
Proof.
  intros w l [W1 W2] Hh. unfold releaseHandle, mbind, M_bind, gets. rewrite Hh.
  set (w1 := drop_lock h w).
  assert (w_locks w1 = delete l (w_locks w)) as E1 by (unfold w1, drop_lock; simpl; by rewrite Hh).
  assert (w_handles w1 = delete h (w_handles w)) as E2 by done.
  assert (locks_wf w1) as Hw1.
  { split.
    - intros l' h'. rewrite E1, E2, !lookup_delete_Some, W1. split; intros [Hne Hx]; (split; [|done]); intros <-.
      + by apply Hne; congruence.
      + apply W1 in Hx. apply W1 in Hh. congruence.
    - intros h' l'. rewrite E2, lookup_delete_Some. intros [_ Hx]. by apply W2 in Hx. }
  set (k := fun r : result unit => match r with Ok _ => wrap_error "close Cursor Agent v1 state lock" (sys os "close") | Fail e => ignore (sys os "close") ≫= fun _ => fail (ErrWrap "unlock Cursor Agent v1 state" e) end).
  assert (Balanced (attempt (sys os "unlock") ≫= k)) as Hb by (unfold k; balanced_basic).
  destruct (Hb w1 Hw1) as [(B1 & B2 & B3) B4]. unfold modify. fold w1.
  change (M_bind _ _ k (attempt (sys os "unlock")) w1) with ((attempt (sys os "unlock") ≫= k) w1).
  split_and!; [done|done| |].
  - intros h' Hlt Hne. etrans; [exact (B3 h' Hlt)|]. rewrite E2. by rewrite lookup_delete_ne.
  - intros Hc. destruct (B4 Hc) as [F1 F2]. split; [etrans; [exact F1|exact E1]|etrans; [exact F2|exact E2]].
Qed.
(** A body under a lease, then its release. *)
Lemma body_then_release {A} h (w w1 w2 : World) l :
  locks_wf w -> w_handles w !! h = Some l -> handles_kept w w1 -> same_locks w w1 -> @releaseHandle os h w1 = (A, w2) ->
  locks_wf w2 /\ (w_handle w <= w_handle w2)%nat /\
  (forall h', (h' < w_handle w)%nat -> h' <> h -> w_handles w2 !! h' = w_handles w !! h') /\
  (crashed A = false -> w_locks w2 = delete l (w_locks w) /\ w_handles w2 = delete h (w_handles w)).
Proof.
  intros Hw Hh (K1 & K2 & K3) [S1 S2] E. pose proof (releases_releaseHandle h w1 l K1) as R.
  rewrite S2, S1, E in R. destruct (R Hh) as (R1 & R2 & R3 & R4). split_and!; [done|cbn [snd] in *; lia| |done].
  intros h' Hlt Hne. rewrite R3; [done|lia|done].
Qed.

Lemma crash_kept (w w1 : World) h : handles_kept w w1 ->
  locks_wf w1 /\ (w_handle w <= w_handle w1)%nat /\
  (forall h', (h' < w_handle w)%nat -> h' <> h -> w_handles w1 !! h' = w_handles w !! h').
Proof. intros (H1 & H2 & H3). split_and!; auto. Qed.

#[export] Instance releases_deferred {A} h (body : M A) : Balanced body -> Releases h (deferred (releaseHandle os h) body).
Proof.
  intros Hb w l Hw Hh. destruct (Hb w Hw) as [H1 H2]. unfold deferred.
  destruct (body w) as [[a|e|] w1]; cbn [fst snd crashed] in *.
  1,2: destruct (releaseHandle os h w1) as [[[]|e'|] w2] eqn:E;
    exact (body_then_release h w w1 w2 l Hw Hh H1 (H2 eq_refl) E).
  destruct (crash_kept w w1 h H1) as (? & ? & ?). by split_and!.
Qed.

#[export] Instance releases_after h (body : M bool) : Balanced body -> Releases h (release_after os h body).
Proof.
  intros Hb w l Hw Hh. destruct (Hb w Hw) as [H1 H2]. unfold release_after, mbind, M_bind, attempt.
  destruct (body w) as [[[]|e|] w1]; cbn [fst snd crashed] in *.
  - destruct (releaseHandle os h w1) as [[[]|e'|] w2] eqn:E;
      exact (body_then_release h w w1 w2 l Hw Hh H1 (H2 eq_refl) E).
  - unfold ignore, mbind, M_bind, attempt, mret, M_ret.
    destruct (releaseHandle os h w1) as [[[]|e'|] w2] eqn:E;
      exact (body_then_release h w w1 w2 l Hw Hh H1 (H2 eq_refl) E).
  - unfold ignore, mbind, M_bind, attempt, mret, M_ret, fail.
    destruct (releaseHandle os h w1) as [[[]|e'|] w2] eqn:E;
      exact (body_then_release h w w1 w2 l Hw Hh H1 (H2 eq_refl) E).
  - destruct (crash_kept w w1 h H1) as (? & ? & ?). by split_and!.
Qed.

#[export] Instance balanced_with_index_lease {A} l (body : M A) : Balanced body -> Balanced (with_index_lease os l body).
Proof. intros Hb. unfold with_index_lease. apply (releases_acquire _ l); apply _. Qed.
End os.

(** The same for whole methods, whose leases are bracketed. *)
Ltac balanced_step :=
  lazymatch goal with
  | |- Balanced (match ?x with _ => _ end) => destruct x
  | |- Balanced (if ?x then _ else _) => destruct x
  | |- Balanced (attempt (acquirePendingIndexLease _ ?l) ≫= _) => apply (acquires_attempt _ l); [apply _| |]
  | |- Balanced (attempt (acquireLease _ ?l) ≫= _) => apply (acquires_attempt _ l); [apply _| |]
  | |- Balanced (acquireLease _ ?l ≫= _) => apply (releases_acquire _ l); [apply _|]
  | |- Balanced (_ ≫= _) => apply balanced_bind
  | |- Balanced (for_each _ _) => apply balanced_for_each
  | |- Balanced (with_index_lease _ _ _) => apply balanced_with_index_lease
  | |- Releases _ (deferred _ _) => apply releases_deferred
  | |- Releases _ (release_after _ _ _) => apply releases_after
  | |- Balanced _ => solve [apply _]
  | |- forall _, _ => intros ?; cbv beta iota
  end.
Ltac balance := repeat balanced_step.

(** ** Files *)

(** The clock stands still and identifiers are only drawn. *)
Record clocks (w w' : World) : Prop := {
  clock_now : w_now w' = w_now w; clock_uuid : (w_uuid w <= w_uuid w')%nat }.
Lemma clocks_trans w1 w2 w3 : clocks w1 w2 -> clocks w2 w3 -> clocks w1 w3.
Proof. intros [? ?] [? ?]. split; [congruence|lia]. Qed.
Lemma clocks_refl w : clocks w w.
Proof. done. Qed.
#[export] Hint Resolve clocks_refl : core.

(** [m] leaves alone every file that satisfies [P]. *)
Class FileFrame {A} (P : Path -> Prop) (m : M A) : Prop :=
  file_frame : forall w, clocks w (m w).2 /\ forall p, P p -> w_files (m w).2 !! p = w_files w !! p.

(** [m] may only remove files that satisfy [P]. *)
Class Shrinks {A} (P : Path -> Prop) (m : M A) : Prop :=
  shrinks : forall w, clocks w (m w).2 /\
    forall p, P p -> w_files (m w).2 !! p = w_files w !! p \/ w_files (m w).2 !! p = None.

(** Sets of files that atomic writers do not use as scratch. *)
Class NoTemp (P : Path -> Prop) : Prop := no_temp : forall d n, ~ P (d, FTemp n).

Section frame.
Context (P : Path -> Prop).

Lemma frame_same {A} (m : M A) :
  (forall w, w_files (m w).2 = w_files w /\ w_now (m w).2 = w_now w /\ (w_uuid w <= w_uuid (m w).2)%nat) -> FileFrame P m.
Proof. intros Hm w. destruct (Hm w) as (E & ? & ?). split; [by split|]. intros p _. by rewrite E. Qed.

#[export] Instance frame_ret {A} (a : A) : FileFrame P (mret a).
Proof. by apply frame_same. Qed.
#[export] Instance frame_fail {A} e : FileFrame P (fail e : M A).
Proof. by apply frame_same. Qed.
#[export] Instance frame_gets {A} (f : World -> A) : FileFrame P (gets f).
Proof. by apply frame_same. Qed.
#[export] Instance frame_lift {A} (r : result A) : FileFrame P (lift r).
Proof. destruct r; by apply frame_same. Qed.
#[export] Instance frame_bind {A B} (m : M A) (k : A -> M B) :
  FileFrame P m -> (forall a, FileFrame P (k a)) -> FileFrame P (m ≫= k).
Proof.
  intros Hm Hk w. unfold mbind, M_bind. destruct (Hm w) as [Hc Hf].
  destruct (m w) as [[a|e|] w']; cbn [snd] in *; [|done..]. destruct (Hk a w') as [Hc' Hf']. split; [by eapply clocks_trans|].
  intros p Hp. rewrite Hf' by done. by apply Hf.
Qed.
#[export] Instance frame_attempt {A} (m : M A) : FileFrame P m -> FileFrame P (attempt m).
Proof. intros Hm w. specialize (Hm w). unfold attempt. by destruct (m w) as [[a|e|] w']. Qed.
#[export] Instance frame_ignore {A} (m : M A) : FileFrame P m -> FileFrame P (ignore m).
Proof. unfold ignore. apply _. Qed.
#[export] Instance frame_wrap_error {A} text (m : M A) : FileFrame P m -> FileFrame P (wrap_error text m).
Proof. intros Hm. unfold wrap_error. apply frame_bind; [apply _|]. intros [a|e]; apply _. Qed.
#[export] Instance frame_deferred {A} (fin : M unit) (body : M A) :
  FileFrame P fin -> FileFrame P body -> FileFrame P (deferred fin body).
Proof.
  intros Hf Hb w. unfold deferred. destruct (Hb w) as [Hc H1].
  destruct (body w) as [[a|e|] w1]; [| |done]; destruct (Hf w1) as [Hc' H2];
    destruct (fin w1) as [[[]|e'|] w2]; cbn [fst snd] in *; (split; [by eapply clocks_trans|]);
    intros p Hp; rewrite H2 by done; by apply H1.
Qed.
Lemma frame_for_each {A} (l : list A) (body : A -> M unit) :
  (forall x, FileFrame P (body x)) -> FileFrame P (for_each l body).
Proof. intros Hb. induction l as [|x l IH]; simpl; apply _. Qed.

#[export] Instance frame_bump_temp : FileFrame P (modify bump_temp).
Proof. by apply frame_same. Qed.
#[export] Instance frame_bump_uuid : FileFrame P (modify bump_uuid).
Proof. apply frame_same. intros w. split_and!; try done. simpl. lia. Qed.
#[export] Instance frame_set_lastGC t : FileFrame P (modify (set_lastGC t)).
Proof. by apply frame_same. Qed.
#[export] Instance frame_take_lock l : FileFrame P (modify (take_lock l)).
Proof. by apply frame_same. Qed.
#[export] Instance frame_drop_lock h : FileFrame P (modify (drop_lock h)).
Proof. by apply frame_same. Qed.

(** *** Removal only *)
Lemma shrinks_frame {A} (m : M A) : FileFrame P m -> Shrinks P m.
Proof. intros Hm w. destruct (Hm w) as [Hc Hf]. split; [done|]. intros p Hp. left. by apply Hf. Qed.
Lemma shrinks_bind {A B} (m : M A) (k : A -> M B) :
  Shrinks P m -> (forall a, Shrinks P (k a)) -> Shrinks P (m ≫= k).
Proof.
  intros Hm Hk w. unfold mbind, M_bind. destruct (Hm w) as [Hc Hf].
  destruct (m w) as [[a|e|] w']; cbn [snd] in *; [|done..]. destruct (Hk a w') as [Hc' Hf']. split; [by eapply clocks_trans|].
  intros p Hp. destruct (Hf' p Hp) as [->|?]; [|by right]. by apply Hf.
Qed.
Lemma shrinks_attempt {A} (m : M A) : Shrinks P m -> Shrinks P (attempt m).
Proof. intros Hm w. specialize (Hm w). unfold attempt. by destruct (m w) as [[a|e|] w']. Qed.
Lemma shrinks_for_each {A} (l : list A) (body : A -> M unit) :
  (forall x, Shrinks P (body x)) -> Shrinks P (for_each l body).
Proof.
  intros Hb. induction l as [|x l IH]; simpl; [apply shrinks_frame; apply _|by apply shrinks_bind].
Qed.
End frame.

Ltac frame_step :=
  match goal with
  | |- forall _, _ => intros ?
  | |- FileFrame _ (match ?x with _ => _ end) => destruct x
  | |- FileFrame _ (if ?x then _ else _) => destruct x
  | |- FileFrame _ (let '(_, _) := ?x in _) => destruct x
  | |- FileFrame _ (_ ≫= _) => apply frame_bind
  | |- FileFrame _ (for_each _ _) => apply frame_for_each
  | |- FileFrame _ (deferred _ _) => apply frame_deferred
  | |- FileFrame _ _ => solve [apply _]
  end.
Ltac frame := repeat frame_step.

Section os_frame.
Context (os : nat -> outcome) (P : Path -> Prop).

#[export] Instance frame_sys op : FileFrame P (sys os op).
Proof. by apply frame_same. Qed.
#[export] Instance frame_read_doc op p : FileFrame P (read_doc os op p).
Proof. unfold read_doc. frame. Qed.
#[export] Instance frame_mkdir_all d : FileFrame P (mkdir_all os d).
Proof. unfold mkdir_all. frame. Qed.
#[export] Instance frame_read_dir d : FileFrame P (read_dir os d).
Proof. unfold read_dir. frame. Qed.
#[export] Instance frame_syncDirectory d : FileFrame P (syncDirectory os d).
Proof. unfold syncDirectory. frame. Qed.
#[export] Instance frame_acquireLease l : FileFrame P (acquireLease os l).
Proof. unfold acquireLease. frame. Qed.
#[export] Instance frame_acquirePending l : FileFrame P (acquirePendingIndexLease os l).
Proof.
  unfold acquirePendingIndexLease. generalize ErrStateLeaseHeld. generalize 20%nat; intros n; induction n as [|n IH]; intros e; cbn [acquire_attempts]; frame.
Qed.
#[export] Instance frame_releaseHandle h : FileFrame P (releaseHandle os h).
Proof. unfold releaseHandle. frame. Qed.
#[export] Instance frame_with_index_lease {A} l (body : M A) : FileFrame P body -> FileFrame P (with_index_lease os l body).
Proof. intros Hb. unfold with_index_lease. frame. Qed.
#[export] Instance frame_release_after h (body : M bool) : FileFrame P body -> FileFrame P (release_after os h body).
Proof. intros Hb. unfold release_after. frame. Qed.

Lemma frame_modify_files f : (forall fs p, P p -> f fs !! p = fs !! p) -> FileFrame P (modify (set_files f)).
Proof. intros Hf w. split; [done|]. intros p Hp. by apply Hf. Qed.
Lemma frame_removeFile p : ~ P p -> FileFrame P (removeFile os p).
Proof.
  intros Hn. unfold removeFile. frame. apply frame_modify_files. intros fs q Hq.
  rewrite lookup_delete_ne; [done|by intros <-].
Qed.
Lemma frame_remove_if_present f p : ~ P p -> FileFrame P (remove_if_present os f p).
Proof. intros Hn. unfold remove_if_present. pose proof (frame_removeFile p Hn). frame. Qed.

Lemma shrinks_removeFile p : Shrinks P (removeFile os p).
Proof.
  unfold removeFile. apply shrinks_bind; [apply shrinks_frame; apply _|]. intros _.
  apply shrinks_bind; [apply shrinks_frame; apply _|]. intros [f|]; [|apply shrinks_frame; apply _].
  intros w. split; [done|]. intros q _. cbn [modify set_files snd w_files].
  destruct (decide (q = p)) as [->|Hn]; [right; apply lookup_delete_eq|left; by apply lookup_delete_ne].
Qed.
Lemma shrinks_remove_if_present f p : Shrinks P (remove_if_present os f p).
Proof.
  unfold remove_if_present. apply shrinks_bind; [apply shrinks_attempt, shrinks_removeFile|].
  intros r. apply shrinks_frame. frame.
Qed.
Lemma shrinks_release_after h (body : M bool) : Shrinks P body -> Shrinks P (release_after os h body).
Proof.
  intros Hb. unfold release_after. apply shrinks_bind; [by apply shrinks_attempt|]. intros r. apply shrinks_frame. frame.
Qed.

(** The temporary file is no file of [P], so only the target matters. *)
Lemma frame_replace_file wrap p d `{!NoTemp P} : ~ P p -> FileFrame P (replace_file os wrap p d).
Proof.
  intros Hn. unfold replace_file. cbv zeta.
  assert (forall n x, FileFrame P (modify (set_files <[(p.1, FTemp n) := x]>))) as Hins.
  { intros n x. apply frame_modify_files. intros fs q Hq. apply lookup_insert_ne. intros <-. by apply (no_temp p.1 n). }
  assert (forall n, FileFrame P (removeFile os (p.1, FTemp n))) as Hrem by (intros n; apply frame_removeFile, no_temp).
  assert (forall n x, FileFrame P (modify (set_files (fun fs => <[p := x]> (delete (p.1, FTemp n) fs))))) as Hren.
  { intros n x. apply frame_modify_files. intros fs q Hq. rewrite lookup_insert_ne by (by intros <-).
    apply lookup_delete_ne. intros <-. by apply (no_temp p.1 n). }
  frame.
Qed.
End os_frame.

(** ** What a method returns *)

(** Every value [m] returns satisfies [Q]. *)
Class Returns {A} (m : M A) (Q : A -> Prop) : Prop := returns : forall w a w', m w = (ROk a, w') -> Q a.

Lemma returns_bind {A B} (m : M A) (k : A -> M B) Q : (forall a, Returns (k a) Q) -> Returns (m ≫= k) Q.
Proof.
  intros Hk w b w'. unfold mbind, M_bind. destruct (m w) as [[a|e|] w1]; [|done..]. apply Hk.
Qed.
Lemma returns_bind_with {A B} (m : M A) (k : A -> M B) P Q :
  Returns m P -> (forall a, P a -> Returns (k a) Q) -> Returns (m ≫= k) Q.
Proof.
  intros Hm Hk w b w'. unfold mbind, M_bind. destruct (m w) as [[a|e|] w1] eqn:E; [|done..].
  apply (Hk a). by eapply Hm.
Qed.
Lemma returns_ret {A} (a : A) (Q : A -> Prop) : Q a -> Returns (mret a) Q.
Proof. by intros Ha w ? ? [= <- <-]. Qed.
Lemma returns_fail {A} e (Q : A -> Prop) : Returns (fail e) Q.
Proof. by intros w ? ?. Qed.

Ltac returns_step :=
  lazymatch goal with
  | |- Returns (match ?x with _ => _ end) _ => destruct x
  | |- Returns (fail _) _ => apply returns_fail
  | |- Returns (_ ≫= _) _ => apply returns_bind
  | |- forall _, _ => intros ?; cbv beta iota
  end.
Ltac returning := repeat returns_step.

(** Case analysis on every answer of the oracle in a straight-line method. *)
Ltac oracle :=
  repeat (match goal with |- context [match ?os ?n with OsOk => _ | OsError => _ | OsCrash => _ end] => destruct (os n) end;
          cbn [w_files w_os w_temp w_now w_locks w_handles w_handle tick set_files bump_temp fst snd]).

(** ** The atomic writer *)

Definition is_temp (p : Path) : Prop := match p.2 with FTemp _ => True | FJson _ => False end.

(** Old or new, whatever fails and wherever the process dies; new when it returns. *)
Lemma replace_file_atomic os wrap d name doc w :
  let p : Path := (d, FJson name) in let '(r, w') := replace_file os wrap p doc w in
  w_now w' = w_now w /\
  ((w_files w' !! p = w_files w !! p /\ r <> ROk tt) \/
   w_files w' !! p = Some {| f_doc := doc; f_mtime := w_now w |}).
Proof.
  intros p. unfold replace_file, syncDirectory, wrap_error, ignore, removeFile, attempt, sys, gets, modify, fail,
    mbind, M_bind, mret, M_ret. cbv zeta. cbn [fst snd].
  assert (forall n, (d, FTemp n) <> p) as Hne by done.
  oracle; rewrite ?lookup_insert_eq; oracle; split; try done;
    first [ left; split; [|done]; unfold p; simplify_map_eq; done | right; unfold p; simplify_map_eq; done ].
Qed.

Lemma replace_file_others os wrap d name doc w :
  let p : Path := (d, FJson name) in
  forall q, q <> p -> ~ is_temp q -> w_files (replace_file os wrap p doc w).2 !! q = w_files w !! q.
Proof.
  intros p q Hq Ht. assert (NoTemp (fun q => q <> p /\ ~ is_temp q)) as Hnt by (intros d' n [_ []]; done).
  pose proof (frame_replace_file os (fun q => q <> p /\ ~ is_temp q) wrap p doc) as Hf.
  destruct (Hf ltac:(by intros [[] _]) w) as [_ Hf']. by apply Hf'.
Qed.
