(* ===== verification/StoreIndex.v ===== *)
(** * State files, the pending index and the tool pointers (src/cursoragentv1/state.go)

    Which file holds what, reading and writing it, and the two derived indexes of
    the pending sessions: by batch (a list of session identifiers) and by tool
    call (the batch it belongs to). *)
From stdpp Require Import base tactics list gmap strings sorting.
From S2P Require Import Prelude GoStrings Sha256 Data Segment StoreWorld.
Open Scope Z_scope.

(** The fields of [FileStateStore] that never change. *)
Record FileStateStore := {
  root : string; pendingRoot : string; pendingToolRoot : string; completedRoot : string;
  completedToolRoot : string; ttl : Z; maxFiles : Z }.

Definition migrateRecordVersion (version : Z) : result Z :=
  if (version =? stateVersionV1) || (version =? stateVersion) then Ok stateVersion
  else Fail (ErrMsg ("unsupported Cursor Agent v1 state version " +:+ Itoa version)).

Definition set_ss_Version (v : Z) (x : StateSnapshot) : StateSnapshot :=
  {| ss_Version := v; ss_RuntimeProfile := ss_RuntimeProfile x; ss_SessionID := ss_SessionID x;
     ss_ConversationID := ss_ConversationID x; ss_CredentialFingerprint := ss_CredentialFingerprint x;
     ss_ToolCatalogDigest := ss_ToolCatalogDigest x; ss_ToolCatalog := ss_ToolCatalog x;
     ss_BillingRunID := ss_BillingRunID x; ss_UsageCarry := ss_UsageCarry x;
     ss_OwnerGeneration := ss_OwnerGeneration x; ss_OwnerToken := ss_OwnerToken x;
     ss_Checkpoint := ss_Checkpoint x; ss_Blobs := ss_Blobs x; ss_PendingTools := ss_PendingTools x;
     ss_PendingBatchIDs := ss_PendingBatchIDs x; ss_FollowUpText := ss_FollowUpText x;
     ss_EphemeralComplete := ss_EphemeralComplete x; ss_CompletedAt := ss_CompletedAt x;
     ss_UpdatedAt := ss_UpdatedAt x |}.

Definition stateExpired (state : StateSnapshot) (now : time) (ttl : Z) : bool :=
  if IsZero (ss_UpdatedAt state) then false
  else if ss_EphemeralComplete state && bool_decide (ss_PendingTools state = []) then
    let completedAt := if IsZero (ss_CompletedAt state) then ss_UpdatedAt state else ss_CompletedAt state in
    completedTombstoneTTL <? Sub now completedAt
  else (0 <? ttl) && (ttl <? Sub now (ss_UpdatedAt state)).

(** [PendingBatchIDs], or the tools' own identifiers for older records. *)
Definition stateBatch (state : StateSnapshot) : list string :=
  if bool_decide (ss_PendingBatchIDs state = []) then pendingToolIDs (ss_PendingTools state)
  else ss_PendingBatchIDs state.

Definition errStateTooLarge : Err :=
  ErrMsg ("Cursor Agent v1 state exceeds " +:+ Itoa maxStateFileSize +:+ " bytes").

Section store.
Context `{Digest}.
(** The length of a document's JSON encoding. *)
Context (doc_size : Doc -> Z).
Context (os : nat -> outcome).
Context (s : FileStateStore).

(** ** State files *)

Definition statePath (sessionID : string) : Path := (root s, FJson (digest sessionID)).
Definition stateLock (sessionID : string) : LockPath := (root s, digest sessionID).

Definition readState (p : Path) : M StateSnapshot :=
  info ← read_doc os "stat" p;
  if maxStateFileSize <? doc_size (f_doc info) then fail errStateTooLarge
  else
    f ← read_doc os "read" p;
    match f_doc f with
    | DState state =>
        version ← lift (migrateRecordVersion (ss_Version state));
        mret (set_ss_Version version state)
    | _ => fail (ErrWrap "decode Cursor Agent v1 state" (ErrMsg "json"))
    end.

Definition wrapState (what : string) (e : Err) : Err :=
  if bool_decide (what = "create") then ErrWrap "create Cursor Agent v1 state temp file" e
  else if bool_decide (what = "secure") then ErrWrap "secure Cursor Agent v1 state temp file" e
  else ErrWrap (what +:+ " Cursor Agent v1 state") e.
Definition plainError (what : string) (e : Err) : Err := e.

Definition writeStateAtomic (p : Path) (state : StateSnapshot) : M unit :=
  replace_file os wrapState p (DState state).

(** ** Tool pointers *)

Definition pendingToolPointerPaths (credentialFingerprint toolCallID : string) : Path * LockPath :=
  let name := digest (TrimSpace credentialFingerprint +:+ NUL +:+ "tool" +:+ NUL +:+ TrimSpace toolCallID) in
  ((pendingToolRoot s, FJson name), (pendingToolRoot s, name)).
Definition completedToolPointerPaths (credentialFingerprint toolCallID : string) : Path * LockPath :=
  let name := digest (TrimSpace credentialFingerprint +:+ NUL +:+ "completed-tool" +:+ NUL +:+ TrimSpace toolCallID) in
  ((completedToolRoot s, FJson name), (completedToolRoot s, name)).

Definition writePrivateFileAtomic (p : Path) (doc : Doc) : M unit := replace_file os plainError p doc.

Definition set_tp (version : Z) (ids : list string) (x : toolBatchPointer) : toolBatchPointer :=
  {| tp_Version := version; tp_CredentialFingerprint := tp_CredentialFingerprint x;
     tp_ToolCallID := tp_ToolCallID x; tp_BatchIDs := ids; tp_UpdatedAt := tp_UpdatedAt x |}.

Definition writeToolBatchPointerAt (indexPath : Path) (lockPath : LockPath) (pointer : toolBatchPointer) : M unit :=
  with_index_lease os lockPath (
    writePrivateFileAtomic indexPath
      (DPointer (set_tp stateVersion (normalizeToolIDs (tp_BatchIDs pointer)) pointer))).

Definition decodePointer (f : File) : M toolBatchPointer :=
  match f_doc f with
  | DPointer pointer => mret pointer
  | _ => fail (ErrWrap "decode Cursor Agent v1 tool index" (ErrMsg "json"))
  end.

Definition readToolBatchPointer (indexPath : Path) (lockPath : LockPath) : M toolBatchPointer :=
  with_index_lease os lockPath (
    f ← read_doc os "read" indexPath;
    pointer ← decodePointer f;
    version ← lift (migrateRecordVersion (tp_Version pointer));
    mret (set_tp version (normalizeToolIDs (tp_BatchIDs pointer)) pointer)).

Definition removeToolBatchPointer (indexPath : Path) (lockPath : LockPath)
    (credentialFingerprint toolCallID : string) (batchIDs : list string) : M unit :=
  r ← attempt (acquirePendingIndexLease os lockPath);
  match r with
  | Fail e => if errors_is e ErrStateLeaseHeld then mret tt else fail e
  | Ok h =>
      deferred (releaseHandle os h) (
        r ← attempt (read_doc os "read" indexPath);
        match r with
        | Fail e => if errors_is e ErrNotExist then mret tt else fail e
        | Ok f =>
            pointer ← decodePointer f;
            if negb (bool_decide (tp_CredentialFingerprint pointer = credentialFingerprint))
               || negb (bool_decide (tp_ToolCallID pointer = toolCallID))
               || negb (slices_equal (normalizeToolIDs (tp_BatchIDs pointer)) (normalizeToolIDs batchIDs))
            then mret tt
            else removeFile os indexPath
        end)
  end.

Definition pointer_for (credentialFingerprint id : string) (batchIDs : list string) (now : time) : toolBatchPointer :=
  {| tp_Version := stateVersion; tp_CredentialFingerprint := credentialFingerprint; tp_ToolCallID := id;
     tp_BatchIDs := normalizeToolIDs batchIDs; tp_UpdatedAt := now |}.

Definition writePendingToolPointers (credentialFingerprint : string) (batchIDs : list string) : M unit :=
  if bool_decide (TrimSpace (pendingToolRoot s) = "") then mret tt
  else
    _ ← mkdir_all os (pendingToolRoot s);
    now ← gets w_now;
    for_each (normalizeToolIDs batchIDs) (fun id =>
      let '(indexPath, lockPath) := pendingToolPointerPaths credentialFingerprint id in
      writeToolBatchPointerAt indexPath lockPath (pointer_for credentialFingerprint id batchIDs now)).

Definition removePendingToolPointers (credentialFingerprint : string) (batchIDs : list string) : M unit :=
  for_each (normalizeToolIDs batchIDs) (fun id =>
    let '(indexPath, lockPath) := pendingToolPointerPaths credentialFingerprint id in
    removeToolBatchPointer indexPath lockPath credentialFingerprint id (normalizeToolIDs batchIDs)).

Definition readPendingToolPointer (credentialFingerprint toolCallID : string) : M toolBatchPointer :=
  let '(indexPath, lockPath) := pendingToolPointerPaths credentialFingerprint toolCallID in
  readToolBatchPointer indexPath lockPath.

Definition writeCompletedToolPointers (credentialFingerprint : string) (batchIDs : list string) : M unit :=
  if bool_decide (TrimSpace (completedToolRoot s) = "") then mret tt
  else
    _ ← mkdir_all os (completedToolRoot s);
    now ← gets w_now;
    for_each (normalizeToolIDs batchIDs) (fun id =>
      let '(indexPath, lockPath) := completedToolPointerPaths credentialFingerprint id in
      writeToolBatchPointerAt indexPath lockPath (pointer_for credentialFingerprint id batchIDs now)).

Definition removeCompletedToolPointers (credentialFingerprint : string) (batchIDs : list string) : M unit :=
  if bool_decide (TrimSpace (completedToolRoot s) = "") then mret tt
  else
    for_each (normalizeToolIDs batchIDs) (fun id =>
      let '(indexPath, lockPath) := completedToolPointerPaths credentialFingerprint id in
      removeToolBatchPointer indexPath lockPath credentialFingerprint id (normalizeToolIDs batchIDs)).

Definition readCompletedToolPointer (credentialFingerprint toolCallID : string) : M toolBatchPointer :=
  let '(indexPath, lockPath) := completedToolPointerPaths credentialFingerprint toolCallID in
  readToolBatchPointer indexPath lockPath.

(** ** The pending index *)

Definition pendingIndexPaths (credentialFingerprint : string) (batchIDs : list string) : Path * LockPath :=
  let name := digest (TrimSpace credentialFingerprint +:+ NUL +:+ Join (normalizeToolIDs batchIDs) NUL) in
  ((pendingRoot s, FJson name), (pendingRoot s, name)).

Definition readPendingIndex (p : Path) : M pendingIndex :=
  f ← read_doc os "read" p;
  match f_doc f with
  | DIndex index =>
      version ← lift (migrateRecordVersion (pi_Version index));
      mret {| pi_Version := version; pi_CredentialFingerprint := pi_CredentialFingerprint index;
              pi_BatchIDs := normalizeToolIDs (pi_BatchIDs index); pi_SessionIDs := pi_SessionIDs index;
              pi_UpdatedAt := pi_UpdatedAt index |}
  | _ => fail (ErrWrap "decode Cursor Agent v1 pending index" (ErrMsg "json"))
  end.

Definition writePendingIndexAtomic (p : Path) (index : pendingIndex) : M unit :=
  replace_file os plainError p (DIndex index).

(** The session set after adding or removing [sessionID], sorted. *)
Definition mutated_sessions (sessions : list string) (sessionID : string) (add : bool) : list string :=
  let others : gset string := list_to_set (List.filter (fun c => negb (bool_decide (c = sessionID))) sessions) in
  sort_strings (elements (if add then {[sessionID]} ∪ others else others)).

Definition mutatePendingIndex (credentialFingerprint : string) (batchIDs : list string) (sessionID : string)
    (add : bool) : M unit :=
  let '(indexPath, lockPath) := pendingIndexPaths credentialFingerprint batchIDs in
  with_index_lease os lockPath (
    r ← attempt (readPendingIndex indexPath);
    index ← match r with
            | Ok index => mret index
            | Fail e =>
                if errors_is e ErrNotExist
                then mret {| pi_Version := stateVersion; pi_CredentialFingerprint := credentialFingerprint;
                             pi_BatchIDs := normalizeToolIDs batchIDs; pi_SessionIDs := [];
                             pi_UpdatedAt := zeroTime |}
                else fail e
            end;
    if negb (bool_decide (pi_CredentialFingerprint index = credentialFingerprint))
       || negb (slices_equal (pi_BatchIDs index) (normalizeToolIDs batchIDs))
    then fail (ErrMsg "Cursor Agent v1 pending index identity mismatch")
    else
      let sessions := mutated_sessions (pi_SessionIDs index) sessionID add in
      if bool_decide (sessions = []) then
        _ ← remove_if_present os id indexPath;
        removePendingToolPointers credentialFingerprint batchIDs
      else
        _ ← (if add then writePendingToolPointers credentialFingerprint batchIDs else mret tt);
        if maxFiles s <? Z.of_nat (length sessions)
        then fail (ErrMsg ("Cursor Agent v1 pending index exceeds " +:+ Itoa (maxFiles s) +:+ " sessions"))
        else
          now ← gets w_now;
          writePendingIndexAtomic indexPath
            {| pi_Version := pi_Version index; pi_CredentialFingerprint := pi_CredentialFingerprint index;
               pi_BatchIDs := pi_BatchIDs index; pi_SessionIDs := sessions; pi_UpdatedAt := now |}).

Definition syncPendingIndex (credentialFingerprint sessionID : string) (previousBatch nextBatch : list string) : M unit :=
  let previousBatch := normalizeToolIDs previousBatch in
  let nextBatch := normalizeToolIDs nextBatch in
  _ ← (if negb (bool_decide (previousBatch = [])) && negb (slices_equal previousBatch nextBatch)
       then mutatePendingIndex credentialFingerprint previousBatch sessionID false else mret tt);
  if negb (bool_decide (nextBatch = [])) then mutatePendingIndex credentialFingerprint nextBatch sessionID true
  else mret tt.

(** The candidate batch of [pendingCoveringBatch]'s loop. *)
Fixpoint covering_loop (credentialFingerprint : string) (submittedIDs candidate ids : list string) : M (list string) :=
  match ids with
  | [] => mret candidate
  | id :: ids =>
      r ← attempt (readPendingToolPointer credentialFingerprint id);
      match r with
      | Fail e =>
          if errors_is e ErrNotExist then covering_loop credentialFingerprint submittedIDs candidate ids else fail e
      | Ok pointer =>
          if negb (bool_decide (tp_CredentialFingerprint pointer = credentialFingerprint))
             || negb (batchSubsetOf (tp_BatchIDs pointer) submittedIDs)
          then covering_loop credentialFingerprint submittedIDs candidate ids
          else if bool_decide (candidate = [])
          then covering_loop credentialFingerprint submittedIDs (tp_BatchIDs pointer) ids
          else if negb (slices_equal candidate (tp_BatchIDs pointer)) then fail ErrPendingAmbiguous
          else covering_loop credentialFingerprint submittedIDs candidate ids
      end
  end.
Definition pendingCoveringBatch (credentialFingerprint : string) (submittedIDs : list string) : M (list string) :=
  covering_loop credentialFingerprint submittedIDs [] (normalizeToolIDs submittedIDs).

Definition OriginalPendingBatch (credentialFingerprint : string) (toolCallIDs : list string) : M (list string) :=
  let submitted := normalizeToolIDs toolCallIDs in
  if bool_decide (submitted = []) then fail ErrSessionNotPending
  else
    covering ← pendingCoveringBatch credentialFingerprint submitted;
    if bool_decide (covering = []) then mret submitted else mret covering.

(** The sessions of an index that still wait for exactly this batch. *)
Fixpoint matching_sessions (credentialFingerprint : string) (batchIDs sessions : list string) : M (list string) :=
  match sessions with
  | [] => mret []
  | sessionID :: sessions =>
      r ← attempt (readState (statePath sessionID));
      match r with
      | Fail e => if errors_is e ErrNotExist then matching_sessions credentialFingerprint batchIDs sessions else fail e
      | Ok state =>
          if negb (bool_decide (ss_CredentialFingerprint state = credentialFingerprint))
             || bool_decide (ss_PendingTools state = [])
          then matching_sessions credentialFingerprint batchIDs sessions
          else if negb (slices_equal (normalizeToolIDs (stateBatch state)) batchIDs)
          then matching_sessions credentialFingerprint batchIDs sessions
          else
            rest ← matching_sessions credentialFingerprint batchIDs sessions;
            mret (ss_SessionID state :: rest)
      end
  end.

Definition resolvePendingExact (credentialFingerprint : string) (batchIDs : list string) : M string :=
  let '(indexPath, _) := pendingIndexPaths credentialFingerprint batchIDs in
  r ← attempt (readPendingIndex indexPath);
  match r with
  | Fail e => if errors_is e ErrNotExist then fail ErrSessionNotPending else fail e
  | Ok index =>
      if negb (bool_decide (pi_CredentialFingerprint index = credentialFingerprint))
         || negb (slices_equal (pi_BatchIDs index) batchIDs) || bool_decide (pi_SessionIDs index = [])
      then fail ErrSessionNotPending
      else
        matches ← matching_sessions credentialFingerprint batchIDs (pi_SessionIDs index);
        _ ← for_each (pi_SessionIDs index) (fun sessionID =>
              if bool_decide (sessionID ∈ matches) then mret tt
              else mutatePendingIndex credentialFingerprint batchIDs sessionID false);
        match matches with
        | [] => fail ErrSessionNotPending
        | [sessionID] => mret sessionID
        | _ => fail ErrPendingAmbiguous
        end
  end.

(** The entries are [.json] files and temporary files; every other name is skipped. *)
Definition rebuildPendingIndex : M unit :=
  _ ← (if bool_decide (TrimSpace (pendingToolRoot s) = "") then mret tt else mkdir_all os (pendingToolRoot s));
  entries ← read_dir os (root s);
  for_each entries (fun entry =>
    match entry with
    | FTemp _ => mret tt
    | FJson _ =>
        state ← readState (root s, entry);
        if bool_decide (ss_PendingTools state = []) then mret tt
        else syncPendingIndex (ss_CredentialFingerprint state) (ss_SessionID state) [] (stateBatch state)
    end).
End store.

#[global] Typeclasses Opaque readState writeStateAtomic writePrivateFileAtomic writeToolBatchPointerAt decodePointer readToolBatchPointer removeToolBatchPointer writePendingToolPointers removePendingToolPointers readPendingToolPointer writeCompletedToolPointers removeCompletedToolPointers readCompletedToolPointer readPendingIndex writePendingIndexAtomic mutatePendingIndex syncPendingIndex covering_loop pendingCoveringBatch OriginalPendingBatch matching_sessions resolvePendingExact rebuildPendingIndex.
