(* ===== verification/StoreCompleted.v ===== *)
(** * Completed snapshots (src/cursoragentv1/completed_state.go, completed_request.go)

    A tombstone keeps the events of a finished segment under its batch (or its
    full-history request key) so that a repeated request is replayed instead of
    executed again. *)
From stdpp Require Import base tactics list gmap strings sorting.
From S2P Require Import Prelude GoStrings Sha256 Data Json Usage EventSnapshot Segment StoreWorld StoreIndex.
Open Scope Z_scope.

(** ** Values *)

Definition completedTombstoneExpired (tombstone : completedTombstone) (now : time) (ttl : Z) : bool :=
  if IsZero (ct_UpdatedAt tombstone) then false
  else
    let ttl := if ct_Ephemeral tombstone then completedTombstoneTTL else ttl in
    if ttl <=? 0 then false else ttl <? Sub now (ct_UpdatedAt tombstone).

Record OwnerLease := {
  ol_RequestSegmentID : string; ol_SessionID : string; ol_Generation : Z; ol_Token : string;
  ol_CredentialHash : string; ol_ConversationID : string; ol_BillingRunID : string;
  ol_handle : option nat }.

Definition newCompletedTombstone `{Digest} (owner : OwnerLease) (results : list ToolResult) (events : list Event)
    (ephemeral : bool) (followUp : string) (now : time) : result completedTombstone :=
  rbind (canonicalToolResults results) (fun canonical =>
  rbind (persistEvents events) (fun persisted =>
  Ok {| ct_RequestKey := ""; ct_RequestSegmentID := ol_RequestSegmentID owner; ct_Version := stateVersion;
        ct_CredentialFingerprint := ol_CredentialHash owner; ct_BatchIDs := completedBatchIDs canonical;
        ct_ResultDigest := toolResultDigest canonical; ct_Results := canonical; ct_Events := persisted;
        ct_BillingRunID := ol_BillingRunID owner; ct_SessionID := ol_SessionID owner;
        ct_ConversationID := ol_ConversationID owner; ct_HasPending := false;
        ct_FollowUpText := TrimSpace followUp; ct_Ephemeral := ephemeral; ct_UpdatedAt := now |})).

Definition set_ct_Version (v : Z) (ids : list string) (x : completedTombstone) : completedTombstone :=
  {| ct_RequestKey := ct_RequestKey x; ct_RequestSegmentID := ct_RequestSegmentID x; ct_Version := v;
     ct_CredentialFingerprint := ct_CredentialFingerprint x; ct_BatchIDs := ids;
     ct_ResultDigest := ct_ResultDigest x; ct_Results := ct_Results x; ct_Events := ct_Events x;
     ct_BillingRunID := ct_BillingRunID x; ct_SessionID := ct_SessionID x; ct_ConversationID := ct_ConversationID x;
     ct_HasPending := ct_HasPending x; ct_FollowUpText := ct_FollowUpText x; ct_Ephemeral := ct_Ephemeral x;
     ct_UpdatedAt := ct_UpdatedAt x |}.

(** What [writeCompletedTombstone] stores when the key already holds [existing]:
    the first answer stays, the retention and the pending flag are renewed. *)
Definition merge_existing (existing tombstone : completedTombstone) : completedTombstone :=
  {| ct_RequestKey := ct_RequestKey tombstone; ct_RequestSegmentID := ct_RequestSegmentID tombstone;
     ct_Version := ct_Version tombstone; ct_CredentialFingerprint := ct_CredentialFingerprint tombstone;
     ct_BatchIDs := ct_BatchIDs tombstone; ct_ResultDigest := ct_ResultDigest tombstone;
     ct_Results := ct_Results existing; ct_Events := ct_Events existing;
     ct_BillingRunID := ct_BillingRunID existing; ct_SessionID := ct_SessionID existing;
     ct_ConversationID := ct_ConversationID existing; ct_HasPending := ct_HasPending tombstone;
     ct_FollowUpText := ct_FollowUpText existing;
     ct_Ephemeral := if negb (ct_Ephemeral tombstone) then ct_Ephemeral existing else ct_Ephemeral tombstone;
     ct_UpdatedAt := ct_UpdatedAt tombstone |}.

Definition errCompletedIdentity : Err := ErrMsg "Cursor Agent v1 completed index identity mismatch".
Definition errHistoryIdentity : Err := ErrMsg "Cursor history replay identity mismatch".

Section store.
Context `{Digest}.
Context (os : nat -> outcome).
Context (s : FileStateStore).

Definition completed_material (credentialFingerprint : string) (batchIDs : list string) (followUp : string) : string :=
  let material := TrimSpace credentialFingerprint +:+ NUL +:+ Join (normalizeToolIDs batchIDs) NUL in
  let text := normalizeFollowUp followUp in
  if bool_decide (text = "") then material else material +:+ NUL +:+ text.
Definition completedIndexPaths (credentialFingerprint : string) (batchIDs : list string) (followUp : string)
    : Path * LockPath :=
  let name := digest (completed_material credentialFingerprint batchIDs followUp) in
  ((completedRoot s, FJson name), (completedRoot s, name)).

Definition readCompletedTombstoneFile (p : Path) : M completedTombstone :=
  f ← read_doc os "read" p;
  match f_doc f with
  | DTombstone tombstone =>
      version ← lift (migrateRecordVersion (ct_Version tombstone));
      mret (set_ct_Version version (normalizeToolIDs (ct_BatchIDs tombstone)) tombstone)
  | _ => fail (ErrWrap "decode Cursor Agent v1 completed snapshot" (ErrMsg "json"))
  end.

Definition writeCompletedTombstoneAtomic (p : Path) (tombstone : completedTombstone) : M unit :=
  replace_file os plainError p (DTombstone tombstone).

Definition writeCompletedTombstone (tombstone : completedTombstone) : M unit :=
  let '(indexPath, lockPath) :=
    completedIndexPaths (ct_CredentialFingerprint tombstone) (ct_BatchIDs tombstone) (ct_FollowUpText tombstone) in
  with_index_lease os lockPath (
    r ← attempt (readCompletedTombstoneFile indexPath);
    tombstone ← match r with
      | Fail e => if errors_is e ErrNotExist then mret tombstone else fail e
      | Ok existing =>
          if negb (bool_decide (ct_CredentialFingerprint existing = ct_CredentialFingerprint tombstone))
             || negb (slices_equal (ct_BatchIDs existing) (ct_BatchIDs tombstone))
             || negb (bool_decide (normalizeFollowUp (ct_FollowUpText existing)
                                   = normalizeFollowUp (ct_FollowUpText tombstone)))
          then fail errCompletedIdentity
          else if negb (bool_decide (ct_ResultDigest existing = ct_ResultDigest tombstone))
          then fail ErrToolResultConflict
          else mret (merge_existing existing tombstone)
      end;
    let tombstone := set_ct_Version stateVersion (ct_BatchIDs tombstone) tombstone in
    _ ← writeCompletedTombstoneAtomic indexPath tombstone;
    if negb (bool_decide (normalizeFollowUp (ct_FollowUpText tombstone) = "")) then mret tt
    else writeCompletedToolPointers os s (ct_CredentialFingerprint tombstone) (ct_BatchIDs tombstone)).

(** The recursive call has an empty follow-up, so it never recurses again. *)
Definition readCompletedTombstone (credentialFingerprint : string) (batchIDs : list string) (followUp : string)
    : M completedTombstone :=
  let '(indexPath, lockPath) := completedIndexPaths credentialFingerprint batchIDs followUp in
  with_index_lease os lockPath (
    r ← attempt (readCompletedTombstoneFile indexPath);
    match r with
    | Ok tombstone => mret tombstone
    | Fail e =>
        if errors_is e ErrNotExist && negb (bool_decide (normalizeFollowUp followUp = ""))
        then
          let '(basePath, baseLock) := completedIndexPaths credentialFingerprint batchIDs "" in
          with_index_lease os baseLock (readCompletedTombstoneFile basePath)
        else fail e
    end).

Definition removeExpiredCompletedTombstone (credentialFingerprint : string) (batchIDs : list string)
    (followUp : string) : M unit :=
  let '(indexPath, lockPath) := completedIndexPaths credentialFingerprint batchIDs followUp in
  r ← attempt (acquirePendingIndexLease os lockPath);
  match r with
  | Fail e => if errors_is e ErrStateLeaseHeld then mret tt else fail e
  | Ok h =>
      deferred (releaseHandle os h) (
        r ← attempt (readCompletedTombstoneFile indexPath);
        match r with
        | Fail e => if errors_is e ErrNotExist then mret tt else fail e
        | Ok tombstone =>
            now ← gets w_now;
            if negb (completedTombstoneExpired tombstone now (ttl s)) then mret tt
            else
              _ ← remove_if_present os id indexPath;
              if negb (bool_decide (normalizeFollowUp (ct_FollowUpText tombstone) = "")) then mret tt
              else removeCompletedToolPointers os s credentialFingerprint batchIDs
        end)
  end.

(** [skip]: the last full collection was less than an hour ago. *)
Definition gc_recent (now lastGC : time) : bool := negb (IsZero lastGC) && (Sub now lastGC <? stateGCInterval).

Definition pruneExpiredCompleted (force : bool) : M unit :=
  if bool_decide (TrimSpace (completedRoot s) = "") then mret tt
  else
    now ← gets w_now;
    lastGC ← gets w_lastGC;
    if negb force && gc_recent now lastGC then mret tt
    else
      r ← attempt (read_dir os (completedRoot s));
      match r with
      | Fail e => if errors_is e ErrNotExist then mret tt else fail e
      | Ok entries =>
          for_each entries (fun entry =>
            match entry with
            | FTemp _ => mret tt
            | FJson name =>
                let path : Path := (completedRoot s, entry) in
                r ← attempt (acquirePendingIndexLease os (completedRoot s, name));
                match r with
                | Fail e => if errors_is e ErrStateLeaseHeld then mret tt else fail e
                | Ok h =>
                    release_after os h (
                      r ← attempt (readCompletedTombstoneFile path);
                      match r with
                      | Fail e => if errors_is e ErrNotExist then mret false else fail e
                      | Ok tombstone =>
                          if negb (completedTombstoneExpired tombstone now (ttl s)) then mret true
                          else
                            _ ← remove_if_present os id path;
                            _ ← (if bool_decide (normalizeFollowUp (ct_FollowUpText tombstone) = "")
                                 then removeCompletedToolPointers os s (ct_CredentialFingerprint tombstone)
                                        (ct_BatchIDs tombstone)
                                 else mret tt);
                            mret true
                      end)
                end
            end)
      end.

Definition matchCompletedTombstone (credentialFingerprint : string) (batchIDs : list string)
    (canonical : list CompletedToolResult) (followUp : string) : M completedTombstone :=
  r ← attempt (readCompletedTombstone credentialFingerprint batchIDs followUp);
  match r with
  | Fail e => if errors_is e ErrNotExist then fail ErrSessionNotPending else fail e
  | Ok tombstone =>
      if negb (bool_decide (ct_CredentialFingerprint tombstone = credentialFingerprint))
         || negb (slices_equal (ct_BatchIDs tombstone) batchIDs)
      then fail ErrSessionNotPending
      else if negb (bool_decide (normalizeFollowUp (ct_FollowUpText tombstone) = normalizeFollowUp followUp))
      then fail ErrSessionNotPending
      else
        now ← gets w_now;
        if completedTombstoneExpired tombstone now (ttl s) then
          _ ← removeExpiredCompletedTombstone credentialFingerprint batchIDs followUp;
          fail ErrSessionNotPending
        else
          match completedResultsForBatch canonical batchIDs with
          | None => fail ErrSessionNotPending
          | Some matched =>
              if negb (bool_decide (ct_ResultDigest tombstone = toolResultDigest matched))
              then fail ErrToolResultConflict
              else mret tombstone
          end
  end.

(** The loop of [lookupCompletedCovering]: the tombstones that match, in the
    order of the submitted identifiers, and whether one conflicted. *)
Fixpoint covering_matches (credentialFingerprint : string) (submittedIDs : list string)
    (canonical : list CompletedToolResult) (followUp : string) (seen : gset string) (ids : list string)
    : M (list completedTombstone * bool) :=
  let continue seen ids := covering_matches credentialFingerprint submittedIDs canonical followUp seen ids in
  match ids with
  | [] => mret ([], false)
  | id :: ids =>
      r ← attempt (readCompletedToolPointer os s credentialFingerprint id);
      match r with
      | Fail e => if errors_is e ErrNotExist then continue seen ids else fail e
      | Ok pointer =>
          if negb (bool_decide (tp_CredentialFingerprint pointer = credentialFingerprint))
             || negb (batchSubsetOf (tp_BatchIDs pointer) submittedIDs)
          then continue seen ids
          else
            let key := Join (tp_BatchIDs pointer) NUL in
            if bool_decide (key ∈ seen) then continue seen ids
            else
              let seen := {[key]} ∪ seen in
              r ← attempt (matchCompletedTombstone credentialFingerprint (tp_BatchIDs pointer) canonical followUp);
              match r with
              | Fail e =>
                  if errors_is e ErrSessionNotPending then continue seen ids
                  else if errors_is e ErrToolResultConflict then
                    rest ← continue seen ids;
                    mret (rest.1, true)
                  else fail e
              | Ok tombstone =>
                  rest ← continue seen ids;
                  mret (tombstone :: rest.1, rest.2)
              end
      end
  end.

(** The latest tombstone, the earlier one on a tie. *)
Definition latest_tombstone (l : list completedTombstone) : option completedTombstone :=
  fold_left (fun latest t =>
    match latest with
    | None => Some t
    | Some x => if ct_UpdatedAt x <? ct_UpdatedAt t then Some t else Some x
    end) l None.

Definition lookupCompletedCovering (credentialFingerprint : string) (canonical : list CompletedToolResult)
    (followUp : string) : M completedTombstone :=
  let submittedIDs := completedBatchIDs canonical in
  found ← covering_matches credentialFingerprint submittedIDs canonical followUp ∅ submittedIDs;
  let '(matches, conflict) := found in
  if (conflict : bool) then fail ErrToolResultConflict
  else
    let sessions : gset string := list_to_set (ct_SessionID <$> matches) in
    if bool_decide (1 < size sessions)%nat then fail ErrPendingAmbiguous
    else match latest_tombstone matches with
         | None => fail ErrSessionNotPending
         | Some latest => mret latest
         end.

Definition lookupCompletedTombstone (credentialFingerprint : string) (canonical : list CompletedToolResult)
    (followUp : string) : M completedTombstone :=
  r ← attempt (matchCompletedTombstone credentialFingerprint (completedBatchIDs canonical) canonical followUp);
  match r with
  | Ok tombstone => mret tombstone
  | Fail e =>
      if negb (errors_is e ErrSessionNotPending) then fail e
      else lookupCompletedCovering credentialFingerprint canonical followUp
  end.

Definition LookupCompleted (credentialFingerprint : string) (results : list ToolResult) (followUp : string)
    : M CompletedReplay :=
  let credentialFingerprint := TrimSpace credentialFingerprint in
  canonical ← lift (canonicalToolResults results);
  if bool_decide (TrimSpace (completedRoot s) = "") || bool_decide (credentialFingerprint = "")
  then fail ErrSessionNotPending
  else if bool_decide (completedBatchIDs canonical = []) then fail ErrSessionNotPending
  else
    _ ← pruneExpiredCompleted false;
    tombstone ← lookupCompletedTombstone credentialFingerprint canonical followUp;
    events ← lift (eventsFromPersisted (ct_Events tombstone));
    mret {| rp_RequestSegmentID := ct_RequestSegmentID tombstone; rp_SessionID := ct_SessionID tombstone;
            rp_ConversationID := ct_ConversationID tombstone; rp_BillingRunID := ct_BillingRunID tombstone;
            rp_OriginalBatch := ct_BatchIDs tombstone; rp_Events := events;
            rp_HasPending := ct_HasPending tombstone; rp_FollowUpText := ct_FollowUpText tombstone |}.

(** ** Full-history requests *)

Definition requestCompletedPaths (fingerprint key : string) : Path * LockPath :=
  let name := digest ("history-request" +:+ NUL +:+ fingerprint +:+ NUL +:+ key) in
  ((completedRoot s, FJson name), (completedRoot s, name)).

Definition LookupHistory (fingerprint key : string) : M CompletedReplay :=
  let '(path, lockPath) := requestCompletedPaths fingerprint key in
  with_index_lease os lockPath (
    r ← attempt (readCompletedTombstoneFile path);
    match r with
    | Fail e => if errors_is e ErrNotExist then fail ErrSessionNotPending else fail e
    | Ok record =>
        if negb (bool_decide (ct_RequestKey record = key))
           || negb (bool_decide (ct_CredentialFingerprint record = fingerprint))
        then fail errHistoryIdentity
        else
          now ← gets w_now;
          if completedTombstoneExpired record now (ttl s) then fail ErrSessionNotPending
          else
            events ← lift (eventsFromPersisted (ct_Events record));
            mret {| rp_RequestSegmentID := ct_RequestSegmentID record; rp_SessionID := ct_SessionID record;
                    rp_ConversationID := ct_ConversationID record; rp_BillingRunID := ct_BillingRunID record;
                    rp_OriginalBatch := []; rp_Events := events; rp_HasPending := ct_HasPending record;
                    rp_FollowUpText := "" |}
    end).

(** ** Rebuilding the tool pointers at start-up *)

Fixpoint rebuild_completed_loop (count : Z) (entries : list FileName) : M unit :=
  match entries with
  | [] => mret tt
  | FTemp _ :: entries => rebuild_completed_loop count entries
  | (FJson _ as entry) :: entries =>
      tombstone ← readCompletedTombstoneFile (completedRoot s, entry);
      now ← gets w_now;
      if completedTombstoneExpired tombstone now (ttl s) then
        if negb (bool_decide (ct_RequestKey tombstone = "")) then rebuild_completed_loop count entries
        else
          _ ← removeExpiredCompletedTombstone (ct_CredentialFingerprint tombstone) (ct_BatchIDs tombstone)
                (ct_FollowUpText tombstone);
          rebuild_completed_loop count entries
      else if negb (bool_decide (ct_RequestKey tombstone = "")) then rebuild_completed_loop count entries
      else if negb (bool_decide (normalizeFollowUp (ct_FollowUpText tombstone) = ""))
      then rebuild_completed_loop count entries
      else
        _ ← writeCompletedToolPointers os s (ct_CredentialFingerprint tombstone) (ct_BatchIDs tombstone);
        if maxFiles s <? count + 1
        then fail (ErrMsg ("Cursor Agent v1 completed index exceeds " +:+ Itoa (maxFiles s) +:+ " snapshots"))
        else rebuild_completed_loop (count + 1) entries
  end.
Definition rebuildCompletedIndex : M unit :=
  if bool_decide (TrimSpace (completedRoot s) = "") then mret tt
  else
    _ ← (if bool_decide (TrimSpace (completedToolRoot s) = "") then mret tt else mkdir_all os (completedToolRoot s));
    r ← attempt (read_dir os (completedRoot s));
    match r with
    | Fail e => if errors_is e ErrNotExist then mret tt else fail e
    | Ok entries => rebuild_completed_loop 0 entries
    end.
End store.

#[global] Typeclasses Opaque readCompletedTombstoneFile writeCompletedTombstoneAtomic writeCompletedTombstone readCompletedTombstone removeExpiredCompletedTombstone pruneExpiredCompleted matchCompletedTombstone covering_matches lookupCompletedCovering lookupCompletedTombstone LookupCompleted LookupHistory rebuild_completed_loop rebuildCompletedIndex.
