(* ===== verification/StoreState.v ===== *)
(** * Session state and its owner (src/cursoragentv1/state.go, completed_state.go, completed_request.go)

    Claiming a session, the writes its owner may make, deletion, garbage
    collection and opening the store. *)
From stdpp Require Import base tactics list gmap strings sorting.
From Stdlib Require Import Strings.Byte.
From S2P Require Import Prelude GoStrings Sha256 Connect Data Json Usage EventSnapshot Segment StoreWorld StoreIndex StoreCompleted.
Open Scope Z_scope.

(** ** Updates of a snapshot, field by field *)
Section setters.
Context (x : StateSnapshot).
Definition set_times (completed updated : time) (ephemeral : bool) : StateSnapshot :=
  {| ss_Version := ss_Version x; ss_RuntimeProfile := ss_RuntimeProfile x; ss_SessionID := ss_SessionID x;
     ss_ConversationID := ss_ConversationID x; ss_CredentialFingerprint := ss_CredentialFingerprint x;
     ss_ToolCatalogDigest := ss_ToolCatalogDigest x; ss_ToolCatalog := ss_ToolCatalog x;
     ss_BillingRunID := ss_BillingRunID x; ss_UsageCarry := ss_UsageCarry x;
     ss_OwnerGeneration := ss_OwnerGeneration x; ss_OwnerToken := ss_OwnerToken x;
     ss_Checkpoint := ss_Checkpoint x; ss_Blobs := ss_Blobs x; ss_PendingTools := ss_PendingTools x;
     ss_PendingBatchIDs := ss_PendingBatchIDs x; ss_FollowUpText := ss_FollowUpText x;
     ss_EphemeralComplete := ephemeral; ss_CompletedAt := completed; ss_UpdatedAt := updated |}.
Definition set_work (checkpoint : bytes) (blobs : gmap string bytes) (pending : list PendingTool)
    (batch : list string) : StateSnapshot :=
  {| ss_Version := ss_Version x; ss_RuntimeProfile := ss_RuntimeProfile x; ss_SessionID := ss_SessionID x;
     ss_ConversationID := ss_ConversationID x; ss_CredentialFingerprint := ss_CredentialFingerprint x;
     ss_ToolCatalogDigest := ss_ToolCatalogDigest x; ss_ToolCatalog := ss_ToolCatalog x;
     ss_BillingRunID := ss_BillingRunID x; ss_UsageCarry := ss_UsageCarry x;
     ss_OwnerGeneration := ss_OwnerGeneration x; ss_OwnerToken := ss_OwnerToken x;
     ss_Checkpoint := checkpoint; ss_Blobs := blobs; ss_PendingTools := pending;
     ss_PendingBatchIDs := batch; ss_FollowUpText := ss_FollowUpText x;
     ss_EphemeralComplete := ss_EphemeralComplete x; ss_CompletedAt := ss_CompletedAt x;
     ss_UpdatedAt := ss_UpdatedAt x |}.
Definition set_billing (run : string) (carry : list Event) (followUp : string) : StateSnapshot :=
  {| ss_Version := ss_Version x; ss_RuntimeProfile := ss_RuntimeProfile x; ss_SessionID := ss_SessionID x;
     ss_ConversationID := ss_ConversationID x; ss_CredentialFingerprint := ss_CredentialFingerprint x;
     ss_ToolCatalogDigest := ss_ToolCatalogDigest x; ss_ToolCatalog := ss_ToolCatalog x;
     ss_BillingRunID := run; ss_UsageCarry := carry;
     ss_OwnerGeneration := ss_OwnerGeneration x; ss_OwnerToken := ss_OwnerToken x;
     ss_Checkpoint := ss_Checkpoint x; ss_Blobs := ss_Blobs x; ss_PendingTools := ss_PendingTools x;
     ss_PendingBatchIDs := ss_PendingBatchIDs x; ss_FollowUpText := followUp;
     ss_EphemeralComplete := ss_EphemeralComplete x; ss_CompletedAt := ss_CompletedAt x;
     ss_UpdatedAt := ss_UpdatedAt x |}.
Definition set_identity (profile session conversation fingerprint : string) : StateSnapshot :=
  {| ss_Version := ss_Version x; ss_RuntimeProfile := profile; ss_SessionID := session;
     ss_ConversationID := conversation; ss_CredentialFingerprint := fingerprint;
     ss_ToolCatalogDigest := ss_ToolCatalogDigest x; ss_ToolCatalog := ss_ToolCatalog x;
     ss_BillingRunID := ss_BillingRunID x; ss_UsageCarry := ss_UsageCarry x;
     ss_OwnerGeneration := ss_OwnerGeneration x; ss_OwnerToken := ss_OwnerToken x;
     ss_Checkpoint := ss_Checkpoint x; ss_Blobs := ss_Blobs x; ss_PendingTools := ss_PendingTools x;
     ss_PendingBatchIDs := ss_PendingBatchIDs x; ss_FollowUpText := ss_FollowUpText x;
     ss_EphemeralComplete := ss_EphemeralComplete x; ss_CompletedAt := ss_CompletedAt x;
     ss_UpdatedAt := ss_UpdatedAt x |}.
Definition set_catalog (digest : string) (catalog : list ToolDefinition) : StateSnapshot :=
  {| ss_Version := ss_Version x; ss_RuntimeProfile := ss_RuntimeProfile x; ss_SessionID := ss_SessionID x;
     ss_ConversationID := ss_ConversationID x; ss_CredentialFingerprint := ss_CredentialFingerprint x;
     ss_ToolCatalogDigest := digest; ss_ToolCatalog := catalog;
     ss_BillingRunID := ss_BillingRunID x; ss_UsageCarry := ss_UsageCarry x;
     ss_OwnerGeneration := ss_OwnerGeneration x; ss_OwnerToken := ss_OwnerToken x;
     ss_Checkpoint := ss_Checkpoint x; ss_Blobs := ss_Blobs x; ss_PendingTools := ss_PendingTools x;
     ss_PendingBatchIDs := ss_PendingBatchIDs x; ss_FollowUpText := ss_FollowUpText x;
     ss_EphemeralComplete := ss_EphemeralComplete x; ss_CompletedAt := ss_CompletedAt x;
     ss_UpdatedAt := ss_UpdatedAt x |}.
Definition set_owner (generation : Z) (token : string) : StateSnapshot :=
  {| ss_Version := ss_Version x; ss_RuntimeProfile := ss_RuntimeProfile x; ss_SessionID := ss_SessionID x;
     ss_ConversationID := ss_ConversationID x; ss_CredentialFingerprint := ss_CredentialFingerprint x;
     ss_ToolCatalogDigest := ss_ToolCatalogDigest x; ss_ToolCatalog := ss_ToolCatalog x;
     ss_BillingRunID := ss_BillingRunID x; ss_UsageCarry := ss_UsageCarry x;
     ss_OwnerGeneration := generation; ss_OwnerToken := token;
     ss_Checkpoint := ss_Checkpoint x; ss_Blobs := ss_Blobs x; ss_PendingTools := ss_PendingTools x;
     ss_PendingBatchIDs := ss_PendingBatchIDs x; ss_FollowUpText := ss_FollowUpText x;
     ss_EphemeralComplete := ss_EphemeralComplete x; ss_CompletedAt := ss_CompletedAt x;
     ss_UpdatedAt := ss_UpdatedAt x |}.
End setters.
Definition touch (now : time) (x : StateSnapshot) : StateSnapshot :=
  set_times x (ss_CompletedAt x) now (ss_EphemeralComplete x).

(** [cloneSnapshot]: the copy the caller gets. *)
Definition cloneSnapshot (x : StateSnapshot) : StateSnapshot :=
  set_billing x (ss_BillingRunID x) (usageEvidenceEvents (ss_UsageCarry x)) (ss_FollowUpText x).

(** [strings.EqualFold] against an ASCII constant. *)
Definition normalizeRuntimeProfile (profile : string) : string :=
  if EqualFoldASCII (TrimSpace profile) runtimeSand then runtimeSand else runtimeAgentV1.

Record ClaimOptions := {
  co_RuntimeProfile : string; co_HistoryRequestKey : string; co_AllowPending : bool; co_RequireExisting : bool;
  co_AllowCredentialChange : bool; co_ToolCatalogDigest : string; co_ToolCatalog : list ToolDefinition;
  co_RequireToolCatalog : bool; co_NewBillingRunID : string; co_ReuseBillingRun : bool }.

Record ClaimResult := {
  cl_Replay : option CompletedReplay; cl_Owner : option OwnerLease; cl_Snapshot : StateSnapshot;
  cl_ColdRebuild : bool }.

Definition ownerMatches (current : StateSnapshot) (owner : OwnerLease) : bool :=
  bool_decide (ss_SessionID current = ol_SessionID owner)
  && (ss_OwnerGeneration current =? ol_Generation owner)
  && bool_decide (ss_OwnerToken current = ol_Token owner)
  && bool_decide (ss_CredentialFingerprint current = ol_CredentialHash owner)
  && bool_decide (ss_ConversationID current = ol_ConversationID owner).

(** *** The new snapshot of a claim, as [Claim] computes it step by step *)

(** A claim that starts a new history turn drops the previous turn's work. *)
Definition claim_history (options : ClaimOptions) (conversationID : string) (x : StateSnapshot) : StateSnapshot :=
  if bool_decide (co_HistoryRequestKey options = "") then x
  else
    set_times (set_identity (set_work x [] ∅ [] []) (ss_RuntimeProfile x) (ss_SessionID x) conversationID
                 (ss_CredentialFingerprint x)) zeroTime (ss_UpdatedAt x) false.
(** Another credential never sees the previous one's work, tools or billing run. *)
Definition claim_cold (cold : bool) (conversationID : string) (x : StateSnapshot) : StateSnapshot :=
  if cold then
    set_billing (set_catalog (set_identity (set_work x [] ∅ [] []) (ss_RuntimeProfile x) (ss_SessionID x) conversationID
                   (ss_CredentialFingerprint x)) (ss_ToolCatalogDigest x) [])
      "" (ss_UsageCarry x) (ss_FollowUpText x)
  else x.
(** Whether the claim continues the previous billing run. *)
Definition keeps_billing (options : ClaimOptions) (x : StateSnapshot) : bool :=
  co_ReuseBillingRun options || (co_AllowPending options && isMeteredTurn (ss_BillingRunID x)).
Definition claim_catalog (options : ClaimOptions) (digest : string) (catalog : list ToolDefinition)
    (x : StateSnapshot) : StateSnapshot :=
  if negb (co_RequireToolCatalog options) && bool_decide (ss_PendingTools x = []) then set_catalog x digest catalog else x.

Section store.
Context `{Digest}.
Context (doc_size : Doc -> Z).
Context (canonical_schema : bytes -> option bytes).
(** [uuid.NewString]: the identifiers the generator hands out, in order. *)
Context (uuid : nat -> string).
Context (os : nat -> outcome).
Context (s : FileStateStore).

Definition new_uuid : M string := n ← gets w_uuid; _ ← modify bump_uuid; mret (uuid n).

(** ** Garbage collection *)

Definition pruneExpired (force : bool) : M unit :=
  if ttl s <=? 0 then mret tt
  else
    now ← gets w_now;
    lastGC ← gets w_lastGC;
    if negb force && gc_recent now lastGC then mret tt
    else
      entries ← read_dir os (root s);
      _ ← for_each entries (fun entry =>
            let path : Path := (root s, entry) in
            match entry with
            | FTemp _ =>
                info ← attempt (read_doc os "lstat" path);
                match info with
                | Fail _ => mret tt
                | Ok f =>
                    if ttl s <? Sub now (f_mtime f)
                    then remove_if_present os (ErrWrap "remove expired Cursor Agent v1 temporary state") path
                    else mret tt
                end
            | FJson name =>
                state ← readState doc_size os path;
                if negb (stateExpired state now (ttl s)) then mret tt
                else
                  r ← attempt (acquireLease os (root s, name));
                  match r with
                  | Fail e => if errors_is e ErrStateLeaseHeld then mret tt else fail e
                  | Ok h =>
                      release_after os h (
                        latest ← attempt (readState doc_size os path);
                        match latest with
                        | Ok latest =>
                            if stateExpired latest now (ttl s) then
                              _ ← remove_if_present os (ErrWrap "remove expired Cursor Agent v1 state") path;
                              _ ← syncPendingIndex os s (ss_CredentialFingerprint latest) (ss_SessionID latest)
                                    (ss_PendingBatchIDs latest) [];
                              mret true
                            else mret true
                        | Fail _ => mret true
                        end)
                  end
            end);
      _ ← modify (set_lastGC now);
      pruneExpiredCompleted os s true.

(** ** Claim *)

(** [defer func() { if releaseOnError { releaseHandle(handle) } }()]: kept only
    by the result that carries an owner. *)
Definition released_on_error (h : nat) (body : M ClaimResult) : M ClaimResult := fun w =>
  match body w with
  | (RCrash, w') => (RCrash, w')
  | (ROk r, w') =>
      match cl_Owner r with
      | Some _ => (ROk r, w')
      | None => match releaseHandle os h w' with (RCrash, w'') => (RCrash, w'') | (_, w'') => (ROk r, w'') end
      end
  | (RFail e, w') =>
      match releaseHandle os h w' with (RCrash, w'') => (RCrash, w'') | (_, w'') => (RFail e, w'') end
  end.

(** Reading the current state: [None] is [os.ErrNotExist], also for a state
    that had expired and is removed here. *)
Definition claim_current (path : Path) (read : result StateSnapshot) : M (option StateSnapshot) :=
  match read with
  | Fail e => if errors_is e ErrNotExist then mret None else fail e
  | Ok current =>
      now ← gets w_now;
      if stateExpired current now (ttl s) then
        _ ← remove_if_present os (ErrWrap "remove expired Cursor Agent v1 state") path;
        _ ← syncPendingIndex os s (ss_CredentialFingerprint current) (ss_SessionID current)
              (ss_PendingBatchIDs current) [];
        mret None
      else mret (Some current)
  end.

(** The state a claim starts from, with its runtime profile filled in. *)
Definition claim_base (sessionID conversationID : string) (options : ClaimOptions) (current : option StateSnapshot)
    : StateSnapshot :=
  match current with
  | None =>
      set_identity (set_ss_Version stateVersion zeroState) (normalizeRuntimeProfile (co_RuntimeProfile options))
        sessionID conversationID ""
  | Some x =>
      if bool_decide (TrimSpace (ss_RuntimeProfile x) = "")
      then set_identity x runtimeAgentV1 (ss_SessionID x) (ss_ConversationID x) (ss_CredentialFingerprint x)
      else x
  end.

Definition claim_billing (options : ClaimOptions) (x : StateSnapshot) : M StateSnapshot :=
  if keeps_billing options x then
    if bool_decide (TrimSpace (ss_BillingRunID x) = "") then
      run ← new_uuid; mret (set_billing x run (ss_UsageCarry x) (ss_FollowUpText x))
    else mret x
  else
    let run := TrimSpace (co_NewBillingRunID options) in
    run ← (if bool_decide (run = "") then new_uuid else mret run);
    mret (set_billing x run [] (ss_FollowUpText x)).

(** From the checks after the state is read to the end of [Claim]. *)
Definition claim_write (h : nat) (path : Path) (sessionID conversationID credentialFingerprint : string)
    (options : ClaimOptions) (current : StateSnapshot) : M ClaimResult :=
  let previousPendingBatch := ss_PendingBatchIDs current in
  let previousCredentialFingerprint := ss_CredentialFingerprint current in
  if negb (co_AllowPending options) && negb (bool_decide (ss_PendingTools current = [])) then fail ErrStatePending
  else
    let toolCatalogDigest := TrimSpace (co_ToolCatalogDigest options) in
    toolCatalog ← lift (validateToolCatalog canonical_schema (co_ToolCatalog options));
    if co_RequireToolCatalog options
       && (bool_decide (ss_ToolCatalogDigest current = "")
           || (bool_decide (ss_ToolCatalog current = []) && negb (bool_decide (toolCatalogDigest = ""))
               && negb (bool_decide (ss_ToolCatalogDigest current = toolCatalogDigest))))
    then fail ErrSessionNotPending
    else
      let coldRebuild := negb (bool_decide (ss_CredentialFingerprint current = ""))
                         && negb (bool_decide (ss_CredentialFingerprint current = credentialFingerprint)) in
      if coldRebuild && negb (co_AllowCredentialChange options) then fail ErrCredentialMismatch
      else
        current ← claim_billing options (claim_cold coldRebuild conversationID
                    (claim_history options conversationID current));
        let current := claim_catalog options toolCatalogDigest toolCatalog current in
        let conversation := if bool_decide (ss_ConversationID current = "") then conversationID
                            else ss_ConversationID current in
        token ← new_uuid;
        now ← gets w_now;
        let current := touch now (set_owner (set_ss_Version stateVersion
              (set_identity current (ss_RuntimeProfile current) sessionID conversation credentialFingerprint))
              (wrap_u64 (ss_OwnerGeneration current + 1)) token) in
        _ ← writeStateAtomic os path current;
        _ ← (if negb (bool_decide (previousPendingBatch = []))
                && (negb (bool_decide (previousCredentialFingerprint = ss_CredentialFingerprint current))
                    || negb (slices_equal (normalizeToolIDs previousPendingBatch)
                                          (normalizeToolIDs (ss_PendingBatchIDs current))))
             then syncPendingIndex os s previousCredentialFingerprint (ss_SessionID current) previousPendingBatch []
             else mret tt);
        _ ← (if negb (bool_decide (ss_PendingBatchIDs current = []))
             then syncPendingIndex os s (ss_CredentialFingerprint current) (ss_SessionID current) []
                    (ss_PendingBatchIDs current)
             else mret tt);
        mret {| cl_Replay := None;
                cl_Owner := Some {| ol_RequestSegmentID := ""; ol_SessionID := sessionID;
                  ol_Generation := ss_OwnerGeneration current; ol_Token := ss_OwnerToken current;
                  ol_CredentialHash := credentialFingerprint; ol_ConversationID := ss_ConversationID current;
                  ol_BillingRunID := ss_BillingRunID current; ol_handle := Some h |};
                cl_Snapshot := cloneSnapshot current; cl_ColdRebuild := coldRebuild |}.

Definition claim_replay (replay : CompletedReplay) : ClaimResult :=
  {| cl_Replay := Some replay; cl_Owner := None; cl_Snapshot := zeroState; cl_ColdRebuild := false |}.

(** [Claim] with its arguments trimmed and the session lease held. *)
Definition claim_leased (h : nat) (sessionID conversationID credentialFingerprint : string)
    (options : ClaimOptions) : M ClaimResult :=
  let path := statePath s sessionID in
  read ← attempt (readState doc_size os path);
  replay ← (if bool_decide (co_HistoryRequestKey options = "") then mret None
            else
              r ← attempt (LookupHistory os s credentialFingerprint (co_HistoryRequestKey options));
              match r with
              | Ok replay => mret (Some replay)
              | Fail e => if errors_is e ErrSessionNotPending then mret None else fail e
              end);
  match replay with
  | Some replay => mret (claim_replay replay)
  | None =>
      current ← claim_current path read;
      if bool_decide (current = None) && co_RequireExisting options then fail ErrNotExist
      else claim_write h path sessionID conversationID credentialFingerprint options
             (claim_base sessionID conversationID options current)
  end.

Definition Claim (sessionID conversationID credentialFingerprint : string) (options : ClaimOptions) : M ClaimResult :=
  _ ← pruneExpired false;
  let sessionID := TrimSpace sessionID in
  let conversationID := TrimSpace conversationID in
  let credentialFingerprint := TrimSpace credentialFingerprint in
  if bool_decide (sessionID = "") || bool_decide (conversationID = "") || bool_decide (credentialFingerprint = "")
  then fail (ErrMsg "Cursor Agent v1 claim requires session, conversation, and credential fingerprint")
  else
    h ← acquireLease os (stateLock s sessionID);
    released_on_error h (claim_leased h sessionID conversationID credentialFingerprint options).

(** ** The owner's writes *)

Definition withOwner {A} (owner : OwnerLease) (fn : Path -> M A) : M A :=
  if bool_decide (TrimSpace (root s) = "") then fail ErrRetiredOwner
  else
    match ol_handle owner with
    | None => fail ErrRetiredOwner
    | Some h =>
        live ← gets (fun w => w_handles w !! h);
        match live with
        | None => fail ErrRetiredOwner
        | Some _ => fn (statePath s (ol_SessionID owner))
        end
    end.

(** [mutate] also returns what the caller's closure captured. *)
Definition update {A} (owner : OwnerLease) (mutate : StateSnapshot -> M (A * StateSnapshot)) : M A :=
  if bool_decide (TrimSpace (ol_SessionID owner) = "") || bool_decide (TrimSpace (ol_Token owner) = "")
  then fail ErrRetiredOwner
  else
    withOwner owner (fun path =>
      r ← attempt (readState doc_size os path);
      match r with
      | Fail e => if errors_is e ErrNotExist then fail ErrRetiredOwner else fail e
      | Ok current =>
          if negb (ownerMatches current owner) then fail ErrRetiredOwner
          else
            x ← mutate current;
            now ← gets w_now;
            _ ← writeStateAtomic os path (touch now x.2);
            mret x.1
      end).
Definition update_pure (owner : OwnerLease) (f : StateSnapshot -> result StateSnapshot) : M unit :=
  update owner (fun current => x ← lift (f current); mret (tt, x)).

Definition SaveUsageCarry (owner : OwnerLease) (events : list Event) : M unit :=
  update_pure owner (fun current =>
    Ok (set_billing current (ss_BillingRunID current) (usageEvidenceEvents events) (ss_FollowUpText current))).

Definition SaveCheckpoint (owner : OwnerLease) (checkpoint : bytes) (blobs : gmap string bytes) : M unit :=
  update_pure owner (fun current =>
    if Connect.maxConnectPayloadSize <? blen checkpoint
    then Fail (Connect.errExceedsConnectLimit "Cursor Agent v1 checkpoint")
    else rbind (validateBlobStore blobs maxBlobSize maxBlobStoreSize) (fun _ =>
      Ok (set_work current checkpoint blobs (ss_PendingTools current) (ss_PendingBatchIDs current)))).

Definition next_batch (current : StateSnapshot) (pending : list PendingTool) : list string :=
  if bool_decide (pending = []) then []
  else if bool_decide (ss_PendingBatchIDs current = [])
          || (Z.of_nat (length (ss_PendingTools current)) <? Z.of_nat (length pending))
  then pendingToolIDs pending
  else ss_PendingBatchIDs current.

Definition SavePending (owner : OwnerLease) (pending : list PendingTool) : M unit :=
  batches ← update owner (fun current =>
    match validatePendingTools pending with
    | Some e => fail e
    | None =>
        let next := next_batch current pending in
        mret ((ss_PendingBatchIDs current, next),
              set_work current (ss_Checkpoint current) (ss_Blobs current) pending next)
    end);
  syncPendingIndex os s (ol_CredentialHash owner) (ol_SessionID owner) batches.1 batches.2.

Definition SaveFollowUp (owner : OwnerLease) (followUp : string) : M unit :=
  update_pure owner (fun current =>
    Ok (set_billing current (ss_BillingRunID current) (ss_UsageCarry current) (TrimSpace followUp))).

Definition SetBillingRunID (owner : OwnerLease) (billingRunID : string) : M unit :=
  let billingRunID := TrimSpace billingRunID in
  if bool_decide (billingRunID = "") then fail (ErrMsg "Cursor Agent v1 billing segment id is required")
  else
    update_pure owner (fun current =>
      Ok (set_billing current billingRunID (ss_UsageCarry current) (ss_FollowUpText current))).

(** What the [update] closure of [SaveCompleted] fills in. *)
Definition completed_for (owner : OwnerLease) (current : StateSnapshot) (x : completedTombstone) : completedTombstone :=
  {| ct_RequestKey := ct_RequestKey x; ct_RequestSegmentID := ct_RequestSegmentID x; ct_Version := ct_Version x;
     ct_CredentialFingerprint := ct_CredentialFingerprint x; ct_BatchIDs := ct_BatchIDs x;
     ct_ResultDigest := ct_ResultDigest x; ct_Results := ct_Results x; ct_Events := ct_Events x;
     ct_BillingRunID := if bool_decide (ol_BillingRunID owner = "") then ss_BillingRunID current
                        else ol_BillingRunID owner;
     ct_SessionID := ct_SessionID x; ct_ConversationID := ss_ConversationID current;
     ct_HasPending := negb (bool_decide (ss_PendingTools current = []));
     ct_FollowUpText := ct_FollowUpText x; ct_Ephemeral := ct_Ephemeral x; ct_UpdatedAt := ct_UpdatedAt x |}.

Definition SaveCompleted (owner : OwnerLease) (results : list ToolResult) (events : list Event) (ephemeral : bool)
    (followUp : string) : M unit :=
  now ← gets w_now;
  completed ← lift (newCompletedTombstone owner results events ephemeral followUp now);
  update owner (fun current =>
    let completed := completed_for owner current completed in
    let current := if negb (bool_decide (followUp = ""))
                   then set_billing current (ss_BillingRunID current) (ss_UsageCarry current) followUp else current in
    _ ← writeCompletedTombstone os s completed;
    mret (tt, if ephemeral && negb (ct_HasPending completed)
              then set_times current (ct_UpdatedAt completed) (ss_UpdatedAt current) true else current)).

Definition SaveHistory (owner : OwnerLease) (key : string) (events : list Event) : M unit :=
  if negb (visibleHistoryOutput events)
  then fail (ErrMsg "Cursor Agent v1 completed without visible output or a tool handoff")
  else
    persisted ← lift (persistEvents events);
    now ← gets w_now;
    let handoff := existsb (fun e => bool_decide (ev_Type e = EventToolCall)) events in
    let record :=
      {| ct_RequestKey := key; ct_RequestSegmentID := ol_RequestSegmentID owner; ct_Version := stateVersion;
         ct_CredentialFingerprint := ol_CredentialHash owner; ct_BatchIDs := []; ct_ResultDigest := "";
         ct_Results := []; ct_Events := persisted; ct_BillingRunID := ol_BillingRunID owner;
         ct_SessionID := ol_SessionID owner; ct_ConversationID := ol_ConversationID owner;
         ct_HasPending := handoff; ct_FollowUpText := ""; ct_Ephemeral := true; ct_UpdatedAt := now |} in
    update owner (fun current =>
      let '(path, lockPath) := requestCompletedPaths s (ol_CredentialHash owner) key in
      with_index_lease os lockPath (
        r ← attempt (readCompletedTombstoneFile os path);
        kept ← match r with
               | Fail e => if errors_is e ErrNotExist then mret false else fail e
               | Ok previous =>
                   if completedTombstoneExpired previous now (ttl s) then mret false
                   else if negb (bool_decide (ct_RequestKey previous = key))
                           || negb (bool_decide (ct_CredentialFingerprint previous = ol_CredentialHash owner))
                   then fail errHistoryIdentity
                   else mret true
               end;
        if (kept : bool) then mret (tt, current)
        else
          _ ← writeCompletedTombstoneAtomic os path record;
          mret (tt, set_times (set_work current [] ∅ [] []) (ct_UpdatedAt record) (ss_UpdatedAt current) true))).

Definition remove_state (path : Path) (current : StateSnapshot) : M unit :=
  _ ← remove_if_present os (ErrWrap "delete Cursor Agent v1 state") path;
  _ ← syncDirectory os path.1;
  syncPendingIndex os s (ss_CredentialFingerprint current) (ss_SessionID current) (ss_PendingBatchIDs current) [].

Definition Delete (owner : OwnerLease) : M unit :=
  withOwner owner (fun path =>
    r ← attempt (readState doc_size os path);
    match r with
    | Fail e => if errors_is e ErrNotExist then mret tt else fail e
    | Ok current => if negb (ownerMatches current owner) then fail ErrRetiredOwner else remove_state path current
    end).

Definition DeleteSession (sessionID credentialFingerprint : string) : M unit :=
  let sessionID := TrimSpace sessionID in
  let credentialFingerprint := TrimSpace credentialFingerprint in
  if bool_decide (sessionID = "") || bool_decide (credentialFingerprint = "") then fail ErrCredentialMismatch
  else
    let path := statePath s sessionID in
    h ← acquireLease os (stateLock s sessionID);
    deferred (releaseHandle os h) (
      r ← attempt (readState doc_size os path);
      match r with
      | Fail e => if errors_is e ErrNotExist then mret tt else fail e
      | Ok current =>
          if negb (bool_decide (ss_CredentialFingerprint current = credentialFingerprint)) then fail ErrCredentialMismatch
          else remove_state path current
      end).

Definition Release (owner : OwnerLease) : M unit :=
  match ol_handle owner with None => mret tt | Some h => releaseHandle os h end.

(** ** Finding the session that waits for tool results *)

Definition ResolvePending (credentialFingerprint : string) (toolCallIDs : list string) : M string :=
  let credentialFingerprint := TrimSpace credentialFingerprint in
  if bool_decide (TrimSpace (root s) = "") || bool_decide (credentialFingerprint = "") || bool_decide (toolCallIDs = [])
  then fail ErrSessionNotPending
  else
    let batchIDs := normalizeToolIDs toolCallIDs in
    if bool_decide (batchIDs = []) then fail ErrSessionNotPending
    else
      _ ← pruneExpired false;
      r ← attempt (resolvePendingExact doc_size os s credentialFingerprint batchIDs);
      match r with
      | Ok sessionID => mret sessionID
      | Fail e =>
          if negb (errors_is e ErrSessionNotPending) then fail e
          else
            coveringBatch ← pendingCoveringBatch os s credentialFingerprint batchIDs;
            if bool_decide (coveringBatch = []) || slices_equal coveringBatch batchIDs then fail ErrSessionNotPending
            else resolvePendingExact doc_size os s credentialFingerprint coveringBatch
      end.

(** ** Opening the store: collect, then rebuild both indexes *)
Definition open_store : M unit :=
  _ ← pruneExpired true;
  _ ← rebuildPendingIndex doc_size os s;
  rebuildCompletedIndex os s.
End store.

(** [newFileStateStore]: the directories it makes and the store on them. *)
Definition file_store (root : string) (ttl : Z) : FileStateStore :=
  {| root := root; pendingRoot := root +:+ "/pending-index"; pendingToolRoot := root +:+ "/pending-index/by-tool";
     completedRoot := root +:+ "/completed-index"; completedToolRoot := root +:+ "/completed-index/by-tool";
     ttl := ttl; maxFiles := maxStateFiles |}.

Definition newFileStateStore `{Digest} (doc_size : Doc -> Z) (os : nat -> outcome) (root : string) (ttl : Z)
    : M FileStateStore :=
  let root := TrimSpace root in
  if bool_decide (root = "") then fail (ErrMsg "Cursor Agent v1 state directory is required")
  else
    let s := file_store root ttl in
    _ ← wrap_error "create Cursor Agent v1 state directory" (mkdir_all os root);
    _ ← wrap_error "secure Cursor Agent v1 state directory" (sys os "chmod");
    if ttl <=? 0 then fail (ErrMsg "Cursor Agent v1 state TTL must be positive")
    else
      _ ← wrap_error "create Cursor Agent v1 pending index" (mkdir_all os (pendingRoot s));
      _ ← wrap_error "create Cursor Agent v1 pending tool index" (mkdir_all os (pendingToolRoot s));
      _ ← wrap_error "create Cursor Agent v1 completed index" (mkdir_all os (completedRoot s));
      _ ← wrap_error "create Cursor Agent v1 completed tool index" (mkdir_all os (completedToolRoot s));
      _ ← open_store doc_size os s;
      mret s.

#[global] Typeclasses Opaque new_uuid pruneExpired released_on_error claim_current claim_billing claim_write claim_leased Claim withOwner update update_pure SaveUsageCarry SaveCheckpoint SavePending SaveFollowUp SetBillingRunID SaveCompleted SaveHistory remove_state Delete DeleteSession Release ResolvePending open_store newFileStateStore.
