(* ===== verification/StoreLaws.v ===== *)
(** * What the session store guarantees

    Leases are balanced and exclusive, writes are atomic and fenced, an index
    never touches a state file, and what is saved is what is claimed, resolved or
    replayed. *)
From stdpp Require Import base tactics list gmap strings sorting.
From Stdlib Require Import Strings.Byte.
From S2P Require Import Prelude GoStrings Sha256 Connect Data Json Usage EventSnapshot Segment StoreWorld StoreLogic StoreIndex StoreCompleted StoreState.
Open Scope Z_scope.

(** ** Every method gives its leases back *)
Section balanced.
Context `{Digest} (doc_size : Doc -> Z) (canonical_schema : bytes -> option bytes) (uuid : nat -> string).
Context (os : nat -> outcome) (s : FileStateStore).

#[export] Instance balanced_readState p : Balanced (readState doc_size os p).
Proof. unfold readState. balance. Qed.
#[export] Instance balanced_writeStateAtomic p x : Balanced (writeStateAtomic os p x).
Proof. unfold writeStateAtomic. balance. Qed.
#[export] Instance balanced_writeToolBatchPointerAt p l x : Balanced (writeToolBatchPointerAt os p l x).
Proof. unfold writeToolBatchPointerAt, writePrivateFileAtomic. balance. Qed.
#[export] Instance balanced_decodePointer f : Balanced (decodePointer f).
Proof. unfold decodePointer. balance. Qed.
#[export] Instance balanced_readToolBatchPointer p l : Balanced (readToolBatchPointer os p l).
Proof.
  unfold readToolBatchPointer. balance.
Qed.
#[export] Instance balanced_removeToolBatchPointer p l fp id b : Balanced (removeToolBatchPointer os p l fp id b).
Proof.
  unfold removeToolBatchPointer. balance.
Qed.
#[export] Instance balanced_writePendingToolPointers fp b : Balanced (writePendingToolPointers os s fp b).
Proof. unfold writePendingToolPointers. balance. Qed.
#[export] Instance balanced_removePendingToolPointers fp b : Balanced (removePendingToolPointers os s fp b).
Proof. unfold removePendingToolPointers. balance. Qed.
#[export] Instance balanced_writeCompletedToolPointers fp b : Balanced (writeCompletedToolPointers os s fp b).
Proof. unfold writeCompletedToolPointers. balance. Qed.
#[export] Instance balanced_removeCompletedToolPointers fp b : Balanced (removeCompletedToolPointers os s fp b).
Proof. unfold removeCompletedToolPointers. balance. Qed.
#[export] Instance balanced_readPendingToolPointer fp id : Balanced (readPendingToolPointer os s fp id).
Proof. unfold readPendingToolPointer. balance. Qed.
#[export] Instance balanced_readCompletedToolPointer fp id : Balanced (readCompletedToolPointer os s fp id).
Proof. unfold readCompletedToolPointer. balance. Qed.
#[export] Instance balanced_readPendingIndex p : Balanced (readPendingIndex os p).
Proof. unfold readPendingIndex. balance. Qed.
#[export] Instance balanced_mutatePendingIndex fp b sid add : Balanced (mutatePendingIndex os s fp b sid add).
Proof. unfold mutatePendingIndex, writePendingIndexAtomic. cbv zeta. balance. Qed.
#[export] Instance balanced_syncPendingIndex fp sid p n : Balanced (syncPendingIndex os s fp sid p n).
Proof. unfold syncPendingIndex. cbv zeta. balance. Qed.
#[export] Instance balanced_covering_loop fp sub c ids : Balanced (covering_loop os s fp sub c ids).
Proof. revert c. induction ids as [|i ids IH]; intros c; cbn [covering_loop]; balance. Qed.
#[export] Instance balanced_pendingCoveringBatch fp ids : Balanced (pendingCoveringBatch os s fp ids).
Proof. unfold pendingCoveringBatch. balance. Qed.
#[export] Instance balanced_OriginalPendingBatch fp ids : Balanced (OriginalPendingBatch os s fp ids).
Proof. unfold OriginalPendingBatch. cbv zeta. balance. Qed.
#[export] Instance balanced_matching_sessions fp b l : Balanced (matching_sessions doc_size os s fp b l).
Proof. induction l as [|i l IH]; cbn [matching_sessions]; balance. Qed.
#[export] Instance balanced_resolvePendingExact fp b : Balanced (resolvePendingExact doc_size os s fp b).
Proof. unfold resolvePendingExact. cbv zeta. balance. Qed.
#[export] Instance balanced_rebuildPendingIndex : Balanced (rebuildPendingIndex doc_size os s).
Proof. unfold rebuildPendingIndex. balance. Qed.

#[export] Instance balanced_readCompletedTombstoneFile p : Balanced (readCompletedTombstoneFile os p).
Proof. unfold readCompletedTombstoneFile. balance. Qed.
#[export] Instance balanced_writeCompletedTombstoneAtomic p x : Balanced (writeCompletedTombstoneAtomic os p x).
Proof. unfold writeCompletedTombstoneAtomic. balance. Qed.
#[export] Instance balanced_writeCompletedTombstone x : Balanced (writeCompletedTombstone os s x).
Proof. unfold writeCompletedTombstone. cbv zeta. balance. Qed.
#[export] Instance balanced_readCompletedTombstone fp b fu : Balanced (readCompletedTombstone os s fp b fu).
Proof.
  unfold readCompletedTombstone. cbv zeta. balance.
Qed.
#[export] Instance balanced_removeExpiredCompletedTombstone fp b fu :
  Balanced (removeExpiredCompletedTombstone os s fp b fu).
Proof.
  unfold removeExpiredCompletedTombstone. cbv zeta. balance.
Qed.
#[export] Instance balanced_pruneExpiredCompleted force : Balanced (pruneExpiredCompleted os s force).
Proof.
  unfold pruneExpiredCompleted. cbv zeta. balance.
Qed.
#[export] Instance balanced_matchCompletedTombstone fp b c fu : Balanced (matchCompletedTombstone os s fp b c fu).
Proof. unfold matchCompletedTombstone. balance. Qed.
#[export] Instance balanced_covering_matches fp sub c fu seen ids :
  Balanced (covering_matches os s fp sub c fu seen ids).
Proof. revert seen. induction ids as [|i ids IH]; intros seen; cbn [covering_matches]; cbv zeta; balance. Qed.
#[export] Instance balanced_lookupCompletedTombstone fp c fu : Balanced (lookupCompletedTombstone os s fp c fu).
Proof. unfold lookupCompletedTombstone, lookupCompletedCovering. cbv zeta. balance. Qed.
#[export] Instance balanced_LookupCompleted fp rs fu : Balanced (LookupCompleted os s fp rs fu).
Proof. unfold LookupCompleted. cbv zeta. balance. Qed.
#[export] Instance balanced_LookupHistory fp key : Balanced (LookupHistory os s fp key).
Proof. unfold LookupHistory. cbv zeta. balance. Qed.
#[export] Instance balanced_rebuild_completed_loop count l : Balanced (rebuild_completed_loop os s count l).
Proof. revert count. induction l as [|[name|n] l IH]; intros count; cbn [rebuild_completed_loop]; balance. Qed.
#[export] Instance balanced_rebuildCompletedIndex : Balanced (rebuildCompletedIndex os s).
Proof. unfold rebuildCompletedIndex. balance. Qed.

#[export] Instance balanced_new_uuid : Balanced (new_uuid uuid).
Proof. unfold new_uuid. balance. Qed.
#[export] Instance balanced_pruneExpired force : Balanced (pruneExpired doc_size os s force).
Proof.
  unfold pruneExpired. cbv zeta. balance.
Qed.
#[export] Instance balanced_claim_leased h sid cid fp opts :
  Balanced (claim_leased doc_size canonical_schema uuid os s h sid cid fp opts).
Proof. unfold claim_leased, claim_current, claim_write, claim_billing. cbv zeta. balance. Qed.
#[export] Instance balanced_update {A} owner (f : StateSnapshot -> M (A * StateSnapshot)) :
  (forall x, Balanced (f x)) -> Balanced (update doc_size os s owner f).
Proof. intros Hf. unfold update, withOwner. balance. Qed.
#[export] Instance balanced_update_pure owner f : Balanced (update_pure doc_size os s owner f).
Proof. unfold update_pure. balance. Qed.
#[export] Instance balanced_SavePending owner p : Balanced (SavePending doc_size os s owner p).
Proof. unfold SavePending. cbv zeta. balance; apply balanced_update; balance. Qed.
#[export] Instance balanced_SaveCompleted owner rs es eph fu : Balanced (SaveCompleted doc_size os s owner rs es eph fu).
Proof. unfold SaveCompleted. cbv zeta. balance; apply balanced_update; balance. Qed.
#[export] Instance balanced_SaveHistory owner key es : Balanced (SaveHistory doc_size os s owner key es).
Proof. unfold SaveHistory. cbv zeta. balance; apply balanced_update; balance. Qed.
#[export] Instance balanced_remove_state p x : Balanced (remove_state os s p x).
Proof. unfold remove_state. balance. Qed.
#[export] Instance balanced_Delete owner : Balanced (Delete doc_size os s owner).
Proof. unfold Delete, withOwner. balance. Qed.
#[export] Instance balanced_DeleteSession sid fp : Balanced (DeleteSession doc_size os s sid fp).
Proof.
  unfold DeleteSession. cbv zeta. balance.
Qed.
#[export] Instance balanced_ResolvePending fp ids : Balanced (ResolvePending doc_size os s fp ids).
Proof. unfold ResolvePending. cbv zeta. balance. Qed.
#[export] Instance balanced_open_store : Balanced (open_store doc_size os s).
Proof. unfold open_store. balance. Qed.
End balanced.

(** ** Claims and leases *)
Section claims.
Context `{Digest} (doc_size : Doc -> Z) (canonical_schema : bytes -> option bytes) (uuid : nat -> string).
Context (s : FileStateStore).

(** The owner a claim hands out carries the lease the claim took. *)
Lemma claim_leased_owner os h sid cid fp opts :
  Returns (claim_leased doc_size canonical_schema uuid os s h sid cid fp opts)
    (fun r => forall o, cl_Owner r = Some o -> ol_handle o = Some h /\ ol_SessionID o = sid).
Proof.
  unfold claim_leased, claim_write. cbv zeta. returning; apply returns_ret; [by intros|].
  cbn [cl_Owner]. intros o [= <-]. done.
Qed.

(** What a method does to the lease tables when it may hand out a lease. *)
Definition leased (sid : string) (w w' : World) (o : OwnerLease) : Prop :=
  exists h, ol_handle o = Some h /\ ol_SessionID o = sid /\ (w_handle w <= h < w_handle w')%nat /\
    w_handles w' = <[h := stateLock s sid]> (w_handles w) /\ w_locks w !! stateLock s sid = None.

Lemma handles_kept_take w w1 l :
  locks_wf w -> w_locks w !! l = None -> w_locks w1 = <[l := w_handle w]> (w_locks w) ->
  w_handles w1 = <[w_handle w := l]> (w_handles w) -> w_handle w1 = S (w_handle w) -> handles_kept w w1.
Proof.
  intros [W1 W2] Hl E1 E2 E3. split_and!; [|lia|].
  - split.
    + intros l' h'. rewrite E1, E2, !lookup_insert_Some. split.
      * intros [[<- <-]|[Hn Hx]]; [by left|right]. apply W1 in Hx. split; [|done]. intros <-. apply W2 in Hx. lia.
      * intros [[<- <-]|[Hn Hx]]; [by left|right]. split; [|by apply W1]. intros <-. apply W1 in Hx. congruence.
    + intros h' l'. rewrite E2, E3, lookup_insert_Some. intros [[<- <-]|[_ Hx]]; [lia|]. apply W2 in Hx. lia.
  - intros h' Hh'. rewrite E2, lookup_insert_ne; [done|lia].
Qed.

Lemma Claim_leases os sid cid fp opts w :
  locks_wf w ->
  let '(r, w') := Claim doc_size canonical_schema uuid os s sid cid fp opts w in
  handles_kept w w' /\
  match r with
  | ROk c => match cl_Owner c with Some o => leased (TrimSpace sid) w w' o | None => same_locks w w' end
  | RFail _ => same_locks w w'
  | RCrash => True
  end.
Proof.
  intros Hw. unfold Claim. unfold mbind at 1, M_bind at 1.
  destruct (balanced_pruneExpired doc_size os s false w Hw) as [P1 P2].
  destruct (pruneExpired doc_size os s false w) as [[[]|e|] w1]; cbn [fst snd crashed] in *; [|by split; [|apply P2]|done].
  specialize (P2 eq_refl). destruct P2 as [S1 S2]. cbv zeta.
  destruct (_ || _ || _); [by split|].
  set (id := TrimSpace sid). unfold mbind, M_bind.
  pose proof (acquires_acquireLease os (stateLock s id) w1 ltac:(by destruct P1)) as Ha.
  destruct (acquireLease os (stateLock s id) w1) as [[h|e|] w2].
  2,3: destruct Ha as [[A1 A2] A3]; split; [|try done; split; congruence];
    eapply handles_kept_trans; [exact P1|]; split_and!;
    [eapply locks_wf_same; [by split|done|by destruct P1]|lia|intros h' _; by rewrite A2].
  destruct Ha as (-> & A1 & A2 & A3 & A4).
  pose proof (handles_kept_take _ _ _ ltac:(by destruct P1) A1 A2 A3 A4) as K2.
  unfold released_on_error.
  set (body := claim_leased _ _ _ _ _ _ _ _ _ _).
  assert (Balanced body) as Hb by (unfold body; apply _).
  destruct (Hb w2 ltac:(by destruct K2)) as [B1 B2].
  pose proof (handles_kept_trans _ _ _ P1 (handles_kept_trans _ _ _ K2 B1)) as K.
  assert (w_handles w2 !! w_handle w1 = Some (stateLock s id)) as Hh by (by rewrite A3, lookup_insert_eq).
  assert (locks_wf w2) as Hw2 by (by destruct K2).
  assert (w_handles w1 !! w_handle w1 = None) as Hfree.
  { destruct P1 as ([_ W2] & _). destruct (w_handles w1 !! w_handle w1) eqn:E; [|done]. apply W2 in E. lia. }
  (* the release of the two error paths *)
  assert (forall w3 r w4, handles_kept w2 w3 -> same_locks w2 w3 -> releaseHandle os (w_handle w1) w3 = (r, w4) ->
    handles_kept w w4 /\ (crashed r = false -> same_locks w w4)) as Hrel.
  { intros w3 r w4 Hk Hs E. destruct (body_then_release os _ w2 w3 w4 _ Hw2 Hh Hk Hs E) as (R1 & R2 & R3 & R4). split.
    - eapply handles_kept_trans; [exact P1|]. split_and!; [done|lia|]. intros h' Hlt.
      rewrite R3 by lia. rewrite A3. apply lookup_insert_ne. lia.
    - intros Hc. destruct (R4 Hc) as [E1 E2]. split.
      + rewrite E1, A2, delete_insert_id by done. done.
      + rewrite E2, A3, delete_insert_id by done. done. }
  destruct (body w2) as [[r|e|] w3] eqn:Eb; cbn [fst snd crashed] in *; [| |by split].
  - specialize (B2 eq_refl). destruct (cl_Owner r) as [o|] eqn:Eo.
    + split; [done|]. rewrite Eo. apply (claim_leased_owner os _ _ _ _ _ _ _ _ Eb) in Eo as [O1 O2].
      exists (w_handle w1). destruct P1 as (_ & P1 & _), B1 as (_ & B1 & _), B2 as [_ B2].
      split_and!; [done|done|lia|lia|by rewrite B2, A3, S2|by rewrite <-S1].
    + destruct (releaseHandle os (w_handle w1) w3) as [[[]|e'|] w4] eqn:Er; destruct (Hrel _ _ _ B1 B2 Er) as [H1 H2];
        rewrite ?Eo; split; try done; by apply H2.
  - specialize (B2 eq_refl).
    destruct (releaseHandle os (w_handle w1) w3) as [[[]|e'|] w4] eqn:Er; destruct (Hrel _ _ _ B1 B2 Er) as [H1 H2];
      split; try done; by apply H2.
Qed.

(** ** The store as a transition system

    Several processes share the directory: each step is one method of one of
    them, under an oracle of its own, or the death of a process (its leases are
    dropped by the kernel) or the passing of time. *)
Inductive Op : Type :=
  | OpSaveUsageCarry (o : OwnerLease) (es : list Event)
  | OpSaveCheckpoint (o : OwnerLease) (cp : bytes) (blobs : gmap string bytes)
  | OpSavePending (o : OwnerLease) (pending : list PendingTool)
  | OpSaveCompleted (o : OwnerLease) (rs : list ToolResult) (es : list Event) (ephemeral : bool) (fu : string)
  | OpSaveHistory (o : OwnerLease) (key : string) (es : list Event)
  | OpSaveFollowUp (o : OwnerLease) (fu : string)
  | OpSetBillingRunID (o : OwnerLease) (run : string)
  | OpDelete (o : OwnerLease)
  | OpDeleteSession (sid fp : string)
  | OpResolvePending (fp : string) (ids : list string)
  | OpOriginalPendingBatch (fp : string) (ids : list string)
  | OpLookupCompleted (fp : string) (rs : list ToolResult) (fu : string)
  | OpLookupHistory (fp key : string)
  | OpOpen.

Definition run_op (os : nat -> outcome) (op : Op) : M unit :=
  match op with
  | OpSaveUsageCarry o es => SaveUsageCarry doc_size os s o es
  | OpSaveCheckpoint o cp blobs => SaveCheckpoint doc_size os s o cp blobs
  | OpSavePending o pending => SavePending doc_size os s o pending
  | OpSaveCompleted o rs es eph fu => SaveCompleted doc_size os s o rs es eph fu
  | OpSaveHistory o key es => SaveHistory doc_size os s o key es
  | OpSaveFollowUp o fu => SaveFollowUp doc_size os s o fu
  | OpSetBillingRunID o run => SetBillingRunID doc_size os s o run
  | OpDelete o => Delete doc_size os s o
  | OpDeleteSession sid fp => DeleteSession doc_size os s sid fp
  | OpResolvePending fp ids => ignore (ResolvePending doc_size os s fp ids)
  | OpOriginalPendingBatch fp ids => ignore (OriginalPendingBatch os s fp ids)
  | OpLookupCompleted fp rs fu => ignore (LookupCompleted os s fp rs fu)
  | OpLookupHistory fp key => ignore (LookupHistory os s fp key)
  | OpOpen => open_store doc_size os s
  end.

#[export] Instance balanced_run_op os op : Balanced (run_op os op).
Proof.
  destruct op; cbn [run_op]; try apply _; unfold SaveUsageCarry, SaveCheckpoint, SaveFollowUp, SetBillingRunID; cbv zeta;
    try case_bool_decide; apply _.
Qed.

Definition set_clock (now lastGC : time) (w : World) : World :=
  {| w_files := w_files w; w_locks := w_locks w; w_handles := w_handles w; w_handle := w_handle w;
     w_temp := w_temp w; w_uuid := w_uuid w; w_now := now; w_lastGC := lastGC; w_os := w_os w |}.

(** A world and the leases handed out so far. *)
Inductive step : World * list OwnerLease -> World * list OwnerLease -> Prop :=
  | step_claim os sid cid fp opts w w' r issued :
      Claim doc_size canonical_schema uuid os s sid cid fp opts w = (r, w') ->
      step (w, issued)
        (w', match r with ROk c => option_list (cl_Owner c) ++ issued | _ => issued end)
  | step_op os op w issued : step (w, issued) ((run_op os op w).2, issued)
  | step_release os o w issued : step (w, issued) ((Release os o w).2, issued)
  | step_exit hs w issued : step (w, issued) (foldr drop_lock w hs, issued)
  | step_clock now gc w issued : step (w, issued) (set_clock now gc w, issued).

Definition initial (w : World) : Prop := w_locks w = ∅ /\ w_handles w = ∅.
Definition reachable (x : World * list OwnerLease) : Prop :=
  exists w0, initial w0 /\ rtc step (w0, []) x.

(** Every lease handed out is numbered below the counter, names its session's
    lock while it is live, and no two leases share a handle. *)
Record leases_ok (x : World * list OwnerLease) : Prop := {
  lo_wf : locks_wf x.1;
  lo_handle : forall o, o ∈ x.2 -> exists h, ol_handle o = Some h /\ (h < w_handle x.1)%nat /\
    (forall l, w_handles x.1 !! h = Some l -> l = stateLock s (ol_SessionID o));
  lo_nodup : NoDup (ol_handle <$> x.2) }.

Lemma leases_ok_kept w w' issued : handles_kept w w' -> leases_ok (w, issued) -> leases_ok (w', issued).
Proof.
  intros (K1 & K2 & K3) [L1 L2 L3]. split; cbn [fst snd] in *; [done| |done].
  intros o Ho. destruct (L2 o Ho) as (h & E & Hlt & Hl). exists h. split_and!; [done|lia|]. rewrite K3 by done. done.
Qed.

Lemma drop_lock_wf h w : locks_wf w -> locks_wf (drop_lock h w) /\ w_handle (drop_lock h w) = w_handle w /\
  (forall h' l, w_handles (drop_lock h w) !! h' = Some l -> w_handles w !! h' = Some l).
Proof.
  intros [W1 W2]. split_and!; [|done|].
  - split.
    + intros l' h'. cbn [drop_lock w_locks w_handles]. rewrite lookup_delete_Some. destruct (w_handles w !! h) as [l|] eqn:E.
      * rewrite lookup_delete_Some, W1. split; intros [Hne Hx]; (split; [|done]); intros <-; [congruence|].
        apply W1 in Hx. apply W1 in E. congruence.
      * rewrite W1. naive_solver.
    + intros h' l'. cbn [drop_lock w_handles w_handle]. rewrite lookup_delete_Some. intros [_ Hx]. by apply W2 in Hx.
  - intros h' l'. cbn [drop_lock w_handles]. rewrite lookup_delete_Some. naive_solver.
Qed.

Lemma leases_ok_drop w w' issued :
  locks_wf w' -> w_handle w' = w_handle w -> (forall h l, w_handles w' !! h = Some l -> w_handles w !! h = Some l) ->
  leases_ok (w, issued) -> leases_ok (w', issued).
Proof.
  intros H1 H2 H3 [L1 L2 L3]. split; cbn [fst snd] in *; [done| |done].
  intros o Ho. destruct (L2 o Ho) as (h & E & Hlt & Hl). exists h. rewrite H2. split_and!; [done|done|]. eauto.
Qed.

Lemma release_drops os h w : locks_wf w ->
  locks_wf (releaseHandle os h w).2 /\ (w_handle w <= w_handle (releaseHandle os h w).2)%nat /\
  (forall h' l, (h' < w_handle w)%nat -> w_handles (releaseHandle os h w).2 !! h' = Some l -> w_handles w !! h' = Some l).
Proof.
  intros Hw. destruct (w_handles w !! h) as [l|] eqn:E.
  - destruct (drop_lock_wf h w Hw) as (D1 & D2 & D3).
    unfold releaseHandle, mbind, M_bind, gets, modify. rewrite E.
    assert (forall w2, handles_kept (drop_lock h w) w2 -> locks_wf w2 /\ (w_handle w <= w_handle w2)%nat /\
      (forall h' l', (h' < w_handle w)%nat -> w_handles w2 !! h' = Some l' -> w_handles w !! h' = Some l')) as Hk.
    { intros w2 (X1 & X2 & X3). rewrite D2 in *. split_and!; [done|done|]. intros h' l' Hlt. rewrite X3 by done. apply D3. }
    match goal with |- context [attempt ?m ?x] => set (k := attempt m); set (w1 := x) end.
    destruct (balanced (m:=k) w1 D1) as [K1 _].
    destruct (k w1) as [[[u|e]|e|] w2]; cbn [fst snd] in *; [| |by apply Hk|by apply Hk].
    + destruct (balanced (m:=wrap_error "close Cursor Agent v1 state lock" (sys os "close")) w2 ltac:(by destruct K1)) as [K2 _].
      apply Hk. by eapply handles_kept_trans.
    + destruct (balanced (m:=ignore (sys os "close")) w2 ltac:(by destruct K1)) as [K2 _].
      destruct (ignore (sys os "close") w2) as [[[]|e'|] w3]; cbn [fst snd fail] in *;
        apply Hk; by eapply handles_kept_trans.
  - unfold releaseHandle, mbind, M_bind, gets. rewrite E. done.
Qed.

Lemma Release_drops os o w : locks_wf w ->
  locks_wf (Release os o w).2 /\ (w_handle w <= w_handle (Release os o w).2)%nat /\
  (forall h' l, (h' < w_handle w)%nat -> w_handles (Release os o w).2 !! h' = Some l -> w_handles w !! h' = Some l).
Proof. unfold Release. destruct (ol_handle o) as [h|]; [apply release_drops|done]. Qed.

Lemma drop_all_wf hs w : locks_wf w -> locks_wf (foldr drop_lock w hs) /\ w_handle (foldr drop_lock w hs) = w_handle w /\
  (forall h l, w_handles (foldr drop_lock w hs) !! h = Some l -> w_handles w !! h = Some l).
Proof.
  intros Hw. induction hs as [|h hs (I1 & I2 & I3)]; [done|]. cbn [foldr].
  destruct (drop_lock_wf h _ I1) as (D1 & D2 & D3). split_and!; [done|by rewrite D2|eauto].
Qed.

Lemma step_leases_ok x y : step x y -> leases_ok x -> leases_ok y.
Proof.
  intros [os sid cid fp opts w w' r issued E|os op w issued|os o w issued|hs w issued|now gc w issued] L;
    pose proof (lo_wf _ L) as Hw; cbn [fst snd] in Hw.
  - pose proof (Claim_leases os sid cid fp opts w Hw) as HC. rewrite E in HC. destruct HC as [K HC].
    pose proof (leases_ok_kept _ _ _ K L) as L'. destruct r as [c|e|]; [|done..].
    destruct (cl_Owner c) as [o|]; [|done]. destruct HC as (h & O1 & O2 & Hh & Eh & _).
    destruct L' as [L1 L2 L3]. split; cbn [fst snd option_list app] in *; [done| |].
    + intros o' [->|Ho]%elem_of_cons; [|by apply L2].
      exists h. split_and!; [done|lia|]. intros l. rewrite Eh, lookup_insert_eq. intros [= <-]. by rewrite O2.
    + constructor; [|done]. intros (o' & Eo' & Ho')%list_elem_of_fmap.
      destruct L as [_ L _]. destruct (L o' Ho') as (h' & E' & Hlt & _). cbn [fst] in Hlt.
      rewrite O1, E' in Eo'. injection Eo' as ->. lia.
  - apply (leases_ok_kept w); [|done]. by apply (balanced_run_op os op w Hw).
  - destruct (Release_drops os o w Hw) as (D1 & D2 & D3). destruct L as [L1 L2 L3]. split; cbn [fst snd] in *; [done| |done].
    intros o' Ho'. destruct (L2 o' Ho') as (h & E & Hlt & Hl). exists h. split_and!; [done|lia|]. intros l Hx. apply Hl. eauto.
  - destruct (drop_all_wf hs w Hw) as (D1 & D2 & D3). by apply (leases_ok_drop w).
  - by apply (leases_ok_drop w).
Qed.

Lemma reachable_leases_ok x : reachable x -> leases_ok x.
Proof.
  intros (w0 & (I1 & I2) & Hr). remember (w0, []) as x0 eqn:E0.
  assert (leases_ok x0) as L0.
  { subst. split; cbn [fst snd]; [|by intros o Ho; apply elem_of_nil in Ho|constructor].
    split; intros *; [by rewrite I1, I2, !lookup_empty|by rewrite I2, lookup_empty]. }
  clear E0 I1 I2. induction Hr as [|x y z Hxy _ IH]; [done|]. apply IH. by eapply step_leases_ok.
Qed.

(** A lease is live while its handle has not been released or lost. *)
Definition live (w : World) (o : OwnerLease) : Prop := exists h l, ol_handle o = Some h /\ w_handles w !! h = Some l.

(** ** Properties *)

(** C1 A session has at most one owner: in every reachable state of any number of
    processes sharing the directory, whatever calls failed and whoever died, two
    live leases for the same session are one and the same lease. *)
Theorem session_lease_exclusive (w : World) (issued : list OwnerLease) (o o' : OwnerLease) :
  reachable (w, issued) -> o ∈ issued -> o' ∈ issued -> live w o -> live w o' ->
  ol_SessionID o = ol_SessionID o' -> o = o'.
Proof.
  intros Hr Ho Ho' (h & l & Eh & Hl) (h' & l' & Eh' & Hl') Es.
  destruct (reachable_leases_ok _ Hr) as [[W _] L N]. cbn [fst snd] in *.
  destruct (L o Ho) as (h1 & E1 & _ & S1), (L o' Ho') as (h2 & E2 & _ & S2).
  rewrite E1 in Eh. rewrite E2 in Eh'. injection Eh as ->. injection Eh' as ->.
  rewrite (S1 l Hl) in Hl. rewrite (S2 l' Hl'), <-Es in Hl'.
  apply W in Hl. apply W in Hl'. rewrite Hl in Hl'. injection Hl' as ->.
  apply list_elem_of_lookup in Ho as [i Hi], Ho' as [j Hj].
  assert (i = j) as ->; [|congruence]. apply (NoDup_lookup _ _ _ (Some h') N); rewrite list_lookup_fmap.
  - rewrite Hi. simpl. by rewrite E1.
  - rewrite Hj. simpl. by rewrite E2.
Qed.

(** No lease leaks: every method other than a successful claim leaves the lock
    table exactly as it found it, on every error path, and a claim that fails
    gives its lease back. *)
Theorem leases_given_back (os : nat -> outcome) (w : World) :
  locks_wf w ->
  (forall op, crashed (run_op os op w).1 = false -> same_locks w (run_op os op w).2) /\
  (forall sid cid fp opts e w', Claim doc_size canonical_schema uuid os s sid cid fp opts w = (RFail e, w') -> same_locks w w').
Proof.
  intros Hw. split.
  - intros op Hc. by apply (balanced_run_op os op w Hw).
  - intros sid cid fp opts e w' E. pose proof (Claim_leases os sid cid fp opts w Hw) as HC. rewrite E in HC. by destruct HC.
Qed.
End claims.

(** *** A concrete store: one session claimed twice *)
Definition all_ok : nat -> outcome := fun _ => OsOk.
Definition sample_digest : Digest := fun m => m.
Definition sample_uuid (n : nat) : string := "uuid-" +:+ Itoa (Z.of_nat n).
Definition sample_store : FileStateStore := file_store "/state" defaultStateTTL.
Definition empty_world : World :=
  {| w_files := ∅; w_locks := ∅; w_handles := ∅; w_handle := 0; w_temp := 0; w_uuid := 0; w_now := 0;
     w_lastGC := zeroTime; w_os := 0 |}.
Definition sample_options : ClaimOptions :=
  {| co_RuntimeProfile := "agent_v1"; co_HistoryRequestKey := ""; co_AllowPending := true; co_RequireExisting := false;
     co_AllowCredentialChange := false; co_ToolCatalogDigest := ""; co_ToolCatalog := []; co_RequireToolCatalog := false;
     co_NewBillingRunID := ""; co_ReuseBillingRun := false |}.
Definition sample_claim : Res ClaimResult * World :=
  @Claim sample_digest (fun _ => 0) Some sample_uuid all_ok sample_store "session" "conversation" "cred" sample_options empty_world.
Definition sample_owner : OwnerLease :=
  {| ol_RequestSegmentID := ""; ol_SessionID := "session"; ol_Generation := 1; ol_Token := "uuid-1";
     ol_CredentialHash := "cred"; ol_ConversationID := "conversation"; ol_BillingRunID := "uuid-0"; ol_handle := Some 0%nat |}.
Example sample_claim_owner :
  match sample_claim.1 with ROk c => cl_Owner c | _ => None end = Some sample_owner.
Proof. vm_compute. reflexivity. Qed.
(** The lease is held: a second claim is refused. *)
Example second_claim_refused :
  (@Claim sample_digest (fun _ => 0) Some sample_uuid all_ok sample_store "session" "conversation" "cred" sample_options
     sample_claim.2).1 = RFail ErrStateLeaseHeld.
Proof. vm_compute. reflexivity. Qed.

Lemma session_lease_exclusive_witness : sample_owner = sample_owner.
Proof.
  apply (@session_lease_exclusive sample_digest (fun _ => 0) Some sample_uuid sample_store sample_claim.2 [sample_owner]);
    [|by left|by left| | |done].
  - exists empty_world. split; [done|]. apply rtc_once.
    apply (@step_claim sample_digest (fun _ => 0) Some sample_uuid sample_store all_ok "session" "conversation" "cred"
      sample_options empty_world sample_claim.2 sample_claim.1 []).
    exact (surjective_pairing sample_claim).
  - exists 0%nat, ("/state", "session"). by vm_compute.
  - exists 0%nat, ("/state", "session"). by vm_compute.
Defined.
Lemma leases_given_back_witness :
  same_locks empty_world (@run_op sample_digest (fun _ => 0) sample_store all_ok OpOpen empty_world).2.
Proof.
  apply (@leases_given_back sample_digest (fun _ => 0) Some sample_uuid sample_store all_ok empty_world); [done|].
  vm_compute. reflexivity.
Defined.
