(* ===== verification/StoreProps.v ===== *)
(** * Correctness of the session store's operations

    Fencing of retired owners, atomic and isolated writes, what a claim hands
    over, which session a set of tool results resolves to, and the replay of
    completed segments. *)
From stdpp Require Import base tactics list gmap strings sorting.
From Stdlib Require Import Strings.Byte.
From S2P Require Import Prelude GoStrings Sha256 Connect Data Json Usage EventSnapshot Segment StoreWorld StoreLogic StoreIndex StoreCompleted StoreState StoreLaws.
Open Scope Z_scope.

(** ** The indexes never touch a state file *)

(** Files outside the four index directories, temporary files apart. *)
Definition state_file (s : FileStateStore) (p : Path) : Prop := p.1 = root s /\ ~ is_temp p.

(** The directories [newFileStateStore] makes are distinct from the root. *)
Class IndexDirs (s : FileStateStore) : Prop := index_dirs :
  pendingRoot s <> root s /\ pendingToolRoot s <> root s /\ completedRoot s <> root s /\ completedToolRoot s <> root s.

Lemma string_app_neq (a b : string) : b <> "" -> a +:+ b <> a.
Proof.
  intros Hb. induction a as [|c a IH]; [done|]. change (String c (a +:+ b) <> String c a). intros [= E]. done.
Qed.
#[export] Instance file_store_dirs r t : IndexDirs (file_store r t).
Proof. split_and!; cbn [file_store pendingRoot pendingToolRoot completedRoot completedToolRoot root]; by apply string_app_neq. Qed.

Section frames.
Context `{Digest} (doc_size : Doc -> Z) (os : nat -> outcome) (s : FileStateStore).
(** Any set of state files; instantiated with all of them but the owner's. *)
Context (P : Path -> Prop) (HP : forall p, P p -> state_file s p) `{!IndexDirs s}.

#[local] Instance P_no_temp : NoTemp P.
Proof. intros d n Hp. by apply HP in Hp as [_ []]. Qed.

Lemma index_file d name : d <> root s -> ~ P (d, FJson name).
Proof. intros Hd Hp. by apply HP in Hp as [Hp _]. Qed.

#[export] Instance frame_decodePointer f : FileFrame P (decodePointer f).
Proof. unfold decodePointer. frame. Qed.
#[export] Instance frame_readState p : FileFrame P (readState doc_size os p).
Proof. unfold readState. frame. Qed.
#[export] Instance frame_readToolBatchPointer p l : FileFrame P (readToolBatchPointer os p l).
Proof. unfold readToolBatchPointer, with_index_lease. frame. Qed.
#[export] Instance frame_readPendingIndex p : FileFrame P (readPendingIndex os p).
Proof. unfold readPendingIndex. frame. Qed.
#[export] Instance frame_readCompletedTombstoneFile p : FileFrame P (readCompletedTombstoneFile os p).
Proof. unfold readCompletedTombstoneFile. frame. Qed.

Lemma frame_write d name wrap doc : d <> root s -> FileFrame P (replace_file os wrap (d, FJson name) doc).
Proof. intros Hd. apply frame_replace_file; [apply _|by apply index_file]. Qed.
Lemma frame_remove d name : d <> root s -> FileFrame P (removeFile os (d, FJson name)).
Proof. intros Hd. apply frame_removeFile. by apply index_file. Qed.
Lemma frame_remove_present d name f : d <> root s -> FileFrame P (remove_if_present os f (d, FJson name)).
Proof. intros Hd. apply frame_remove_if_present. by apply index_file. Qed.

Lemma frame_write_pointer d name l x : d <> root s -> FileFrame P (writeToolBatchPointerAt os (d, FJson name) l x).
Proof. intros Hd. unfold writeToolBatchPointerAt. apply frame_with_index_lease. by apply frame_write. Qed.
Lemma frame_remove_pointer d name l fp id b : d <> root s -> FileFrame P (removeToolBatchPointer os (d, FJson name) l fp id b).
Proof. intros Hd. unfold removeToolBatchPointer. pose proof (frame_remove d name Hd). frame. Qed.

#[export] Instance frame_writePendingToolPointers fp b : FileFrame P (writePendingToolPointers os s fp b).
Proof.
  unfold writePendingToolPointers, pendingToolPointerPaths. cbv beta iota zeta. destruct index_dirs as (_ & D & _).
  frame. by apply frame_write_pointer.
Qed.
#[export] Instance frame_removePendingToolPointers fp b : FileFrame P (removePendingToolPointers os s fp b).
Proof.
  unfold removePendingToolPointers. destruct index_dirs as (_ & D & _). apply frame_for_each. intros id.
  by apply frame_remove_pointer.
Qed.
#[export] Instance frame_writeCompletedToolPointers fp b : FileFrame P (writeCompletedToolPointers os s fp b).
Proof.
  unfold writeCompletedToolPointers, completedToolPointerPaths. cbv beta iota zeta. destruct index_dirs as (_ & _ & _ & D). frame. by apply frame_write_pointer.
Qed.
#[export] Instance frame_removeCompletedToolPointers fp b : FileFrame P (removeCompletedToolPointers os s fp b).
Proof.
  unfold removeCompletedToolPointers, completedToolPointerPaths. cbv beta iota zeta. destruct index_dirs as (_ & _ & _ & D). frame. by apply frame_remove_pointer.
Qed.
#[export] Instance frame_mutatePendingIndex fp b sid add : FileFrame P (mutatePendingIndex os s fp b sid add).
Proof.
  unfold mutatePendingIndex, writePendingIndexAtomic, pendingIndexPaths. cbv beta iota zeta. destruct index_dirs as (D & _).
  apply frame_with_index_lease. frame; [by apply frame_remove_present|by apply frame_write].
Qed.
#[export] Instance frame_syncPendingIndex fp sid p n : FileFrame P (syncPendingIndex os s fp sid p n).
Proof. unfold syncPendingIndex. cbv zeta. frame. Qed.
#[export] Instance frame_covering_loop fp sub c ids : FileFrame P (covering_loop os s fp sub c ids).
Proof.
  revert c. induction ids as [|i ids IH]; intros c; cbn [covering_loop]; unfold readPendingToolPointer; frame.
Qed.
#[export] Instance frame_matching_sessions fp b l : FileFrame P (matching_sessions doc_size os s fp b l).
Proof. induction l as [|i l IH]; cbn [matching_sessions]; frame. Qed.
#[export] Instance frame_resolvePendingExact fp b : FileFrame P (resolvePendingExact doc_size os s fp b).
Proof. unfold resolvePendingExact. cbv zeta. frame. Qed.

#[export] Instance frame_writeCompletedTombstone x : FileFrame P (writeCompletedTombstone os s x).
Proof.
  unfold writeCompletedTombstone, writeCompletedTombstoneAtomic, completedIndexPaths. cbv beta iota zeta. destruct index_dirs as (_ & _ & D & _).
  apply frame_with_index_lease. frame. by apply frame_write.
Qed.
#[export] Instance frame_readCompletedTombstone fp b fu : FileFrame P (readCompletedTombstone os s fp b fu).
Proof. unfold readCompletedTombstone, with_index_lease. cbv zeta. frame. Qed.
#[export] Instance frame_removeExpiredCompletedTombstone fp b fu :
  FileFrame P (removeExpiredCompletedTombstone os s fp b fu).
Proof.
  unfold removeExpiredCompletedTombstone, completedIndexPaths. cbv beta iota zeta. destruct index_dirs as (_ & _ & D & _). frame. by apply frame_remove_present.
Qed.
#[export] Instance frame_pruneExpiredCompleted force : FileFrame P (pruneExpiredCompleted os s force).
Proof.
  unfold pruneExpiredCompleted. cbv zeta. destruct index_dirs as (_ & _ & D & _). frame. apply frame_release_after. frame.
  by apply frame_remove_present.
Qed.
#[export] Instance frame_matchCompletedTombstone fp b c fu : FileFrame P (matchCompletedTombstone os s fp b c fu).
Proof. unfold matchCompletedTombstone. frame. Qed.
#[export] Instance frame_covering_matches fp sub c fu seen ids : FileFrame P (covering_matches os s fp sub c fu seen ids).
Proof.
  revert seen. induction ids as [|i ids IH]; intros seen; cbn [covering_matches]; cbv zeta; unfold readCompletedToolPointer; frame.
Qed.
#[export] Instance frame_LookupCompleted fp rs fu : FileFrame P (LookupCompleted os s fp rs fu).
Proof. unfold LookupCompleted, lookupCompletedTombstone, lookupCompletedCovering. cbv zeta. frame. Qed.
#[export] Instance frame_LookupHistory fp key : FileFrame P (LookupHistory os s fp key).
Proof. unfold LookupHistory, with_index_lease. cbv zeta. frame. Qed.
End frames.

(** ** Reading *)

Lemma read_doc_spec os op p w :
  let '(r, w') := read_doc os op p w in
  w_files w' = w_files w /\ w_handles w' = w_handles w /\ clocks w w' /\
  (forall f, r = ROk f -> w_files w !! p = Some f).
Proof.
  unfold read_doc, sys, mbind, M_bind, gets, mret, M_ret, fail. destruct (os (w_os w)); [|done..].
  cbn [tick w_files]. destruct (w_files w !! p) as [f|] eqn:E; split_and!; try done. naive_solver.
Qed.

Lemma migrate_ok v v' : migrateRecordVersion v = Ok v' -> v' = stateVersion.
Proof. unfold migrateRecordVersion. destruct (_ || _); [by intros [= <-]|done]. Qed.

(** What [readState] returns is the file's state, at the current version. *)
Lemma readState_spec doc_size os p w :
  let '(r, w') := readState doc_size os p w in
  w_files w' = w_files w /\ w_handles w' = w_handles w /\ clocks w w' /\
  (forall x, r = ROk x -> exists f st, w_files w !! p = Some f /\ f_doc f = DState st /\ x = set_ss_Version stateVersion st).
Proof.
  unfold readState, mbind, M_bind. pose proof (read_doc_spec os "stat" p w) as H1.
  destruct (read_doc os "stat" p w) as [[f|e|] w1]; destruct H1 as (E1 & E2 & C1 & F1); [|split_and!; try done..].
  destruct (_ <? _); [by split_and!|].
  pose proof (read_doc_spec os "read" p w1) as H2.
  destruct (read_doc os "read" p w1) as [[f'|e|] w2]; destruct H2 as (E3 & E4 & C2 & F2);
    (assert (clocks w w2) as C3 by (by eapply clocks_trans)); [|split_and!; try congruence; done..].
  specialize (F2 f' eq_refl). destruct (f_doc f') as [st| | | |] eqn:D; unfold fail, lift, mret, M_ret; try (split_and!; congruence || done).
  destruct (migrateRecordVersion (ss_Version st)) as [v|e] eqn:Ev; split_and!; try congruence; try done.
  intros x [= <-]. apply migrate_ok in Ev as ->. exists f', st. by rewrite <-E1.
Qed.

Section owners.
Context `{Digest} (doc_size : Doc -> Z) (canonical_schema : bytes -> option bytes) (uuid : nat -> string).
Context (s : FileStateStore) `{!IndexDirs s}.

(** [o] is live and its session's file records it as the owner. *)
Record owns (w : World) (o : OwnerLease) (st : StateSnapshot) : Prop := {
  owns_live : live w o;
  owns_file : exists f, w_files w !! statePath s (ol_SessionID o) = Some f /\ f_doc f = DState st;
  owns_match : ownerMatches st o = true }.

Lemma ownerMatches_version v st o : ownerMatches (set_ss_Version v st) o = ownerMatches st o.
Proof. done. Qed.

(** The state files other than the owner's. *)
Definition other_state (o : OwnerLease) (p : Path) : Prop := state_file s p /\ p <> statePath s (ol_SessionID o).

Lemma state_file_path sid : state_file s (statePath s sid).
Proof. split; [done|]. intros []. Qed.

(** Everything an update can do: refuse, fail with the file as it was, or replace
    it by the mutated state of the session the caller owns. *)
Lemma update_cases {A} os o (mutate : StateSnapshot -> M (A * StateSnapshot)) w :
  (forall x, FileFrame (state_file s) (mutate x)) ->
  let '(r, w') := update doc_size os s o mutate w in
  clocks w w' /\ (forall p, other_state o p -> w_files w' !! p = w_files w !! p) /\
  ((w_files w' !! statePath s (ol_SessionID o) = w_files w !! statePath s (ol_SessionID o) /\ (forall a, r <> ROk a) /\
    ((exists st, owns w o st) \/ w_files w' = w_files w)) \/
   (exists st w1 a x w2, owns w o st /\ w_files w1 = w_files w /\ clocks w w1 /\
      mutate (set_ss_Version stateVersion st) w1 = (ROk (a, x), w2) /\ clocks w1 w2 /\
      w_files w' !! statePath s (ol_SessionID o) = Some {| f_doc := DState (touch (w_now w) x); f_mtime := w_now w |} /\
      (forall a', r = ROk a' -> a' = a))).
Proof.
  intros Hm. set (p := statePath s (ol_SessionID o)).
  assert (forall e, clocks w w /\ (forall q, other_state o q -> w_files w !! q = w_files w !! q) /\
    ((w_files w !! p = w_files w !! p /\ (forall a : A, RFail e <> ROk a) /\
      ((exists st, owns w o st) \/ w_files w = w_files w)) \/
     (exists st w1 a x w2, owns w o st /\ w_files w1 = w_files w /\ clocks w w1 /\
        mutate (set_ss_Version stateVersion st) w1 = (ROk (a, x), w2) /\ clocks w1 w2 /\
        w_files w !! p = Some {| f_doc := DState (touch (w_now w) x); f_mtime := w_now w |} /\
        (forall a' : A, RFail e = ROk a' -> a' = a)))) as Hrefuse.
  { intros e. split_and!; [done|done|]. left. split_and!; [done|done|by right]. }
  unfold update. destruct (_ || _); [apply Hrefuse|]. unfold withOwner. destruct (bool_decide _); [apply Hrefuse|].
  destruct (ol_handle o) as [h|] eqn:Eh; [|apply Hrefuse].
  unfold mbind at 1, M_bind at 1, gets at 1. destruct (w_handles w !! h) as [l|] eqn:El; [|apply Hrefuse]. clear Hrefuse.
  unfold mbind at 1, M_bind at 1, attempt. pose proof (readState_spec doc_size os p w) as Hr. fold p.
  destruct (readState doc_size os p w) as [[x|e|] w1]; destruct Hr as (F1 & F2 & C1 & R1).
  2: { destruct (errors_is e ErrNotExist); unfold fail;
       (split_and!; [done|by intros; rewrite F1|left; split_and!; [by rewrite F1|done|by right]]). }
  2: { split_and!; [done|by intros; rewrite F1|left; split_and!; [by rewrite F1|done|by right]]. }
  destruct (R1 x eq_refl) as (f & st & Ef & Ed & ->). rewrite ownerMatches_version.
  destruct (ownerMatches st o) eqn:Eo; cbn [negb].
  2: { split_and!; [done|by intros; rewrite F1|left; split_and!; [by rewrite F1|done|by right]]. }
  assert (owns w o st) as Hown by (split; [by exists h, l|by exists f|done]).
  unfold mbind at 1, M_bind at 1. destruct (Hm (set_ss_Version stateVersion st) w1) as [C2 M2].
  destruct (mutate (set_ss_Version stateVersion st) w1) as [[[a x]|e|] w2] eqn:Em; cbn [snd] in *.
  2,3: pose proof (clocks_trans _ _ _ C1 C2) as ?; split_and!; [done| |left; split_and!; [|done|left; by exists st]];
       [intros q [Hq _]; rewrite M2, F1 by done; done|rewrite M2, F1 by apply state_file_path; done].
  unfold mbind, M_bind, gets, mret, M_ret, writeStateAtomic.
  pose proof (replace_file_atomic os wrapState (root s) (digest (ol_SessionID o)) (DState (touch (w_now w2) x)) w2) as Hw.
  pose proof (replace_file_others os wrapState (root s) (digest (ol_SessionID o)) (DState (touch (w_now w2) x)) w2) as Ho.
  cbv zeta in Hw, Ho. cbn [fst snd] in *. fold p in Hw, Ho. change (root s, FJson (digest (ol_SessionID o))) with p in Hw, Ho.
  assert (forall P', NoTemp P' -> ~ P' p -> clocks w2 (replace_file os wrapState p (DState (touch (w_now w2) x)) w2).2) as Hc.
  { intros P' HP' Hn. by destruct (frame_replace_file os P' wrapState p (DState (touch (w_now w2) x)) Hn w2). }
  specialize (Hc (fun _ => False) ltac:(by intros ? ? []) ltac:(by intros [])).
  destruct (replace_file os wrapState p (DState (touch (w_now w2) x)) w2) as [r3 w3]; cbn [snd] in *.
  destruct Hw as [_ Hw]. pose proof C1 as [T1 U1]. pose proof C2 as [T2 U2].
  assert (clocks w w3) as Hc3 by (destruct Hc; split; [congruence|lia]).
  assert (forall q, other_state o q -> w_files w3 !! q = w_files w !! q) as Hq.
  { intros q [Hq1 Hq2]. rewrite Ho; [|done|by destruct Hq1]. by rewrite M2, F1. }
  destruct Hw as [[Hw1 Hw2]|Hw].
  - assert (w_files w3 !! p = w_files w !! p) as Hsame by (rewrite Hw1, M2 by apply state_file_path; by rewrite F1).
    destruct r3 as [[]|e|]; [done|..]; (split; [done|]; split; [done|]; left; split_and!; [done|done|left; by exists st]).
  - assert (w_files w3 !! p = Some {| f_doc := DState (touch (w_now w) x); f_mtime := w_now w |}) as Hnew
      by (by rewrite Hw, T2, T1).
    destruct r3 as [[]|e|]; (split; [done|]; split; [done|]; right; exists st, w1, a, x, w2;
      split_and!; try done; by intros a' [= <-]).
Qed.
(** An owner's write keeps every field that says who the owner is. *)
Definition same_owner (x y : StateSnapshot) : Prop :=
  (ss_SessionID x, ss_OwnerGeneration x, ss_OwnerToken x, ss_CredentialFingerprint x, ss_ConversationID x) =
  (ss_SessionID y, ss_OwnerGeneration y, ss_OwnerToken y, ss_CredentialFingerprint y, ss_ConversationID y).

Lemma same_owner_matches x y o : same_owner x y -> ownerMatches x o = ownerMatches y o.
Proof. unfold same_owner, ownerMatches. by intros [= -> -> -> -> ->]. Qed.

(** The outcome of a write by [o], on any oracle. *)
Definition written {A} (w : World) (o : OwnerLease) (r : Res A) (w' : World) : Prop :=
  (forall p, other_state o p -> w_files w' !! p = w_files w !! p) /\
  ((w_files w' !! statePath s (ol_SessionID o) = w_files w !! statePath s (ol_SessionID o) /\ (forall a, r <> ROk a)) \/
   (exists st x, owns w o st /\ same_owner st x /\
      w_files w' !! statePath s (ol_SessionID o) = Some {| f_doc := DState (touch (w_now w) x); f_mtime := w_now w |})).

Lemma update_written {A} os o (mutate : StateSnapshot -> M (A * StateSnapshot)) w :
  (forall x, FileFrame (state_file s) (mutate x)) -> (forall x, Returns (mutate x) (fun ax => same_owner x ax.2)) ->
  written w o (update doc_size os s o mutate w).1 (update doc_size os s o mutate w).2.
Proof.
  intros Hf Hr. pose proof (update_cases os o mutate w Hf) as Hu.
  destruct (update doc_size os s o mutate w) as [r w']. destruct Hu as (_ & Ho & Hu). split; [done|].
  destruct Hu as [(H1 & H2 & _)|(st & w1 & a & x & w2 & H1 & _ & _ & Hm & _ & H2 & _)]; [by left|right].
  exists st, x. split_and!; [done| |done]. by apply Hr in Hm.
Qed.

(** Frames and identities of the closures passed to [update]. *)
#[local] Instance frame_result (r : result StateSnapshot) :
  FileFrame (state_file s) (x ← lift r; mret (tt, x)).
Proof. apply _. Qed.

Lemma returns_lift {A} (r : result A) (Q : A -> Prop) : (forall a, r = Ok a -> Q a) -> Returns (lift r) Q.
Proof. intros Hq w a w'. destruct r; [intros [= <- <-]; by apply Hq|done]. Qed.

Lemma update_pure_written os o f w :
  (forall x y, f x = Ok y -> same_owner x y) ->
  written w o (update_pure doc_size os s o f w).1 (update_pure doc_size os s o f w).2.
Proof.
  intros Hf. unfold update_pure. apply update_written; [intros x; apply _|].
  intros x. apply (returns_bind_with _ _ (fun y => same_owner x y)).
  - apply returns_lift. intros y. apply Hf.
  - intros y Hy. by apply returns_ret.
Qed.

(** The owner of a writing method. *)
Definition writer (op : Op) : option OwnerLease :=
  match op with
  | OpSaveUsageCarry o _ | OpSaveCheckpoint o _ _ | OpSavePending o _ | OpSaveCompleted o _ _ _ _
  | OpSaveHistory o _ _ | OpSaveFollowUp o _ | OpSetBillingRunID o _ => Some o
  | _ => None
  end.

Lemma written_fail {A} w o e : @written A w o (RFail e) w.
Proof. split; [done|left; by split]. Qed.

Lemma written_gets {A B} o (f : World -> A) (k : A -> M B) w :
  written w o (k (f w) w).1 (k (f w) w).2 -> written w o ((gets f ≫= k) w).1 ((gets f ≫= k) w).2.
Proof. done. Qed.
Lemma written_lift {A B} o (r : result A) (k : A -> M B) w :
  (forall a, written w o (k a w).1 (k a w).2) -> written w o ((lift r ≫= k) w).1 ((lift r ≫= k) w).2.
Proof. intros Hk. destruct r; [apply Hk|apply written_fail]. Qed.

(** Steps that leave every state file alone, before or after a write. *)
Lemma written_then {A B} o (m : M A) (k : A -> M B) w :
  written w o (m w).1 (m w).2 -> (forall a, FileFrame (state_file s) (k a)) ->
  written w o ((m ≫= k) w).1 ((m ≫= k) w).2.
Proof.
  intros [Ho Hw] Hk. unfold mbind, M_bind. destruct (m w) as [[a|e|] w1]; cbn [fst snd] in *.
  - destruct (Hk a w1) as [_ Hf]. split.
    + intros p Hp. rewrite Hf by (by destruct Hp). by apply Ho.
    + right. destruct Hw as [[_ Hw]|(st & x & H1 & H2 & H3)]; [by destruct (Hw a)|]. exists st, x. split_and!; [done|done|].
      rewrite Hf; [done|apply state_file_path].
  - split; [done|]. destruct Hw as [[H1 _]|H1]; [left; by split|by right].
  - split; [done|]. destruct Hw as [[H1 _]|H1]; [left; by split|by right].
Qed.

Lemma run_op_written os op o w : writer op = Some o ->
  written w o (run_op doc_size s os op w).1 (run_op doc_size s os op w).2.
Proof.
  destruct op; intros [= ->]; cbn [run_op].
  - apply update_pure_written. by intros x y [= <-].
  - apply update_pure_written. intros x y. destruct (_ <? _); [done|]. destruct (validateBlobStore _ _ _); [|done].
    by intros [= <-].
  - unfold SavePending. set (f := fun current : StateSnapshot => _).
    assert (forall x, FileFrame (state_file s) (f x)) as Hf by (intros x; unfold f; destruct (validatePendingTools _); apply _).
    assert (forall x, Returns (f x) (fun ax => same_owner x ax.2)) as Hr.
    { intros x. unfold f. destruct (validatePendingTools _); [apply returns_fail|by apply returns_ret]. }
    pose proof (update_written os o f w Hf Hr) as Hw. apply written_then; [done|].
    intros [p n]. apply frame_syncPendingIndex; [|done]. by intros q.
  - unfold SaveCompleted. apply written_gets, written_lift. intros t. apply update_written.
    + intros x. cbv zeta. apply frame_bind; [apply frame_writeCompletedTombstone; [by intros q|done]|intros; apply _].
    + intros x. cbv zeta. apply returns_bind. intros _. apply returns_ret. cbn [snd].
      destruct (ephemeral && _), (negb _); done.
  - unfold SaveHistory. destruct (negb (visibleHistoryOutput es)); [apply written_fail|].
    apply written_lift. intros ps. apply written_gets. cbv zeta. apply update_written.
    + intros x. destruct index_dirs as (_ & _ & D & _). unfold requestCompletedPaths, writeCompletedTombstoneAtomic. cbv beta iota zeta.
      apply frame_with_index_lease.
      assert (forall p doc, FileFrame (state_file s) (replace_file os plainError (completedRoot s, FJson p) doc)) as Hw.
      { intros p doc. apply (frame_write os s (state_file s)); [by intros q|done]. }
      assert (forall p, FileFrame (state_file s) (readCompletedTombstoneFile os p)) by (intros; apply frame_readCompletedTombstoneFile).
      frame.
    + intros x. unfold with_index_lease. destruct (requestCompletedPaths s (ol_CredentialHash o) key) as [p l]. apply returns_bind. intros h w0 a w1.
      unfold deferred. match goal with |- context [match ?m w0 with _ => _ end] => set (body := m) end.
      assert (Returns body (fun ax => same_owner x ax.2)) as Hb by (unfold body; returning; by apply returns_ret).
      destruct (body w0) as [[b|e|] w2] eqn:E; [|by destruct (releaseHandle os h w2) as [[]]|done].
      destruct (releaseHandle os h w2) as [[[]|e|] w3]; intros [= <- <-]; by eapply Hb.
  - apply update_pure_written. by intros x y [= <-].
  - unfold SetBillingRunID. case_bool_decide; [apply written_fail|]. apply update_pure_written. by intros x y [= <-].
Qed.

(** C2 A retired owner is fenced off: if the lease is no longer live or the file no
    longer records it (another runtime took over, the state expired or was
    deleted), every one of its writes fails and no state file changes. *)
Theorem retired_owner_fenced (os : nat -> outcome) (op : Op) (o : OwnerLease) (w : World) :
  writer op = Some o -> (forall st, ~ owns w o st) ->
  (run_op doc_size s os op w).1 <> ROk tt /\
  forall p, state_file s p -> w_files (run_op doc_size s os op w).2 !! p = w_files w !! p.
Proof.
  intros Hop Hno. destruct (run_op_written os op o w Hop) as [Ho [[Hf Hr]|(st & x & Hst & _)]]; [|by apply Hno in Hst].
  split; [apply Hr|]. intros p Hp. destruct (decide (p = statePath s (ol_SessionID o))) as [->|Hn]; [done|by apply Ho].
Qed.

(** C3 Writes are atomic, isolated and keep the owner: at whatever system call a
    write fails or the process dies, the session's file holds either the previous
    state or one complete new state with the same owner, generation and token, and
    the files of all other sessions are untouched. *)
Theorem owner_write_atomic (os : nat -> outcome) (op : Op) (o : OwnerLease) (w : World) :
  writer op = Some o ->
  let w' := (run_op doc_size s os op w).2 in let p := statePath s (ol_SessionID o) in
  (forall q, state_file s q -> q <> p -> w_files w' !! q = w_files w !! q) /\
  (w_files w' !! p = w_files w !! p \/
   exists st x, owns w o st /\ same_owner st x /\ ownerMatches x o = true /\
     w_files w' !! p = Some {| f_doc := DState (touch (w_now w) x); f_mtime := w_now w |}).
Proof.
  intros Hop w' p. destruct (run_op_written os op o w Hop) as [Ho Hf]. split; [intros q H1 H2; by apply Ho|].
  destruct Hf as [[Hf _]|(st & x & H1 & H2 & H3)]; [by left|right]. exists st, x. split_and!; try done.
  rewrite <-(same_owner_matches _ _ _ H2). by destruct H1.
Qed.

Lemma validate_blobs_ok ms mt t vs n :
  validate_blobs ms mt t vs = Ok n -> (t <= mt \/ vs <> []) ->
  Forall (fun v => blen v <= ms) vs /\ n = t + foldr (fun v a => blen v + a) 0 vs /\ n <= mt.
Proof.
  revert t; induction vs as [|v vs IH]; intros t; cbn [validate_blobs].
  { intros [= <-] [?|[]]; [|done]. split_and!; [constructor|simpl; lia|done]. }
  destruct (_ <? _) eqn:E1; [done|]. destruct (mt <? _) eqn:E2; [done|]. bool_hyps. intros Hn _.
  destruct (IH _ Hn) as (H1 & H2 & H3); [by left|]. split_and!; [by constructor|simpl; lia|done].
Qed.

(** A checkpoint is saved exactly: when [SaveCheckpoint] returns, the session's
    file is the previous state with that checkpoint and those blobs and nothing
    else changed but the time, and what was stored is within the limits (16 MiB
    for the checkpoint and each blob, 32 MiB for all blobs). *)
Theorem checkpoint_saved (os : nat -> outcome) (o : OwnerLease) (cp : bytes) (blobs : gmap string bytes) (w w' : World) :
  SaveCheckpoint doc_size os s o cp blobs w = (ROk tt, w') ->
  exists st, owns w o st /\ blen cp <= maxConnectPayloadSize /\
    (forall k v, blobs !! k = Some v -> blen v <= maxBlobSize) /\
    foldr (fun v a => blen v + a) 0 (snd <$> map_to_list blobs) <= maxBlobStoreSize /\
    w_files w' !! statePath s (ol_SessionID o) =
      Some {| f_doc := DState (touch (w_now w) (set_work (set_ss_Version stateVersion st) cp blobs
                (ss_PendingTools st) (ss_PendingBatchIDs st))); f_mtime := w_now w |}.
Proof.
  unfold SaveCheckpoint, update_pure. set (f := fun current : StateSnapshot => _). intros E.
  pose proof (update_cases os o f w) as Hu. rewrite E in Hu. destruct Hu as (_ & _ & Hu); [intros x; unfold f; apply _|].
  destruct Hu as [(_ & Hr & _)|(st & w1 & [] & x & w2 & H1 & _ & _ & Hm & _ & H2 & _)]; [by destruct (Hr tt)|].
  exists st. split; [done|]. unfold f, lift, mbind, M_bind in Hm. destruct (_ <? _) eqn:E1; [done|]. bool_hyps.
  destruct (validateBlobStore blobs maxBlobSize maxBlobStoreSize) as [n|] eqn:V; [|done]. injection Hm as <- <-.
  apply validate_blobs_ok in V as (V1 & V2 & V3); [|left; by vm_compute]. split_and!; [done| |lia|done].
  intros k v Hk. rewrite Forall_fmap, Forall_forall in V1. apply (V1 (k, v)). by apply elem_of_map_to_list.
Qed.
(** ** Claims *)

Definition other_credential (base : StateSnapshot) (fp : string) : bool :=
  negb (bool_decide (ss_CredentialFingerprint base = "")) && negb (bool_decide (ss_CredentialFingerprint base = fp)).
(** The claim starts without the previous turn's work. *)
Definition fresh_start (base : StateSnapshot) (fp : string) (opts : ClaimOptions) : bool :=
  other_credential base fp || negb (bool_decide (co_HistoryRequestKey opts = "")).

(** The state's time is up: a completed ephemeral session with nothing pending is
    kept [completedTombstoneTTL] from its completion, any other state [ttl] from its last write,
    for ever when [ttl] is not positive; a state without a time is kept. *)
Definition lapsed (x : StateSnapshot) (now : time) : Prop :=
  ss_UpdatedAt x <> zeroTime /\
  (ss_EphemeralComplete x = true /\ ss_PendingTools x = [] /\
     completedTombstoneTTL < Sub now (if ss_CompletedAt x =? zeroTime then ss_UpdatedAt x else ss_CompletedAt x) \/
   (ss_EphemeralComplete x = false \/ ss_PendingTools x <> []) /\ 0 < ttl s /\ ttl s < Sub now (ss_UpdatedAt x)).
Lemma stateExpired_lapsed x now : stateExpired x now (ttl s) = true <-> lapsed x now.
Proof.
  unfold stateExpired, lapsed, IsZero. destruct (Z.eqb_spec (ss_UpdatedAt x) zeroTime) as [E|E]; [naive_solver|].
  destruct (ss_EphemeralComplete x); cbn [andb]; [case_bool_decide as P|]; rewrite ?andb_true_iff, ?Z.ltb_lt; naive_solver.
Qed.
Lemma lapsed_version v x now : lapsed (set_ss_Version v x) now <-> lapsed x now.
Proof. done. Qed.

(** What a claim that finds the state [base] leaves in the session's file. *)
Record handed_over (base st : StateSnapshot) (fp : string) (opts : ClaimOptions) (cold : bool) : Prop := {
  ho_generation : ss_OwnerGeneration st = wrap_u64 (ss_OwnerGeneration base + 1);
  ho_credential : ss_CredentialFingerprint st = fp;
  ho_cold : cold = other_credential base fp;
  ho_allowed : cold = true -> co_AllowCredentialChange opts = true;
  ho_pending : co_AllowPending opts = false -> ss_PendingTools base = [];
  ho_work : (ss_Checkpoint st, ss_Blobs st, ss_PendingTools st, ss_PendingBatchIDs st) =
    if fresh_start base fp opts then ([], ∅, [], [])
    else (ss_Checkpoint base, ss_Blobs base, ss_PendingTools base, ss_PendingBatchIDs base) }.

(** The fields a billing decision does not concern. *)
Definition same_work (x y : StateSnapshot) : Prop :=
  (ss_Checkpoint x, ss_Blobs x, ss_PendingTools x, ss_PendingBatchIDs x, ss_OwnerGeneration x) =
  (ss_Checkpoint y, ss_Blobs y, ss_PendingTools y, ss_PendingBatchIDs y, ss_OwnerGeneration y).

Lemma handed_over_base sid cid opts old st fp cold :
  handed_over (claim_base sid cid opts old) st fp opts cold -> handed_over (default zeroState old) st fp opts cold.
Proof.
  intros [H1 H2 H3 H4 H5 H6]. destruct old as [x|]; cbn [claim_base default from_option] in *; [|by split].
  destruct (bool_decide (TrimSpace (ss_RuntimeProfile x) = "")); by split.
Qed.

Lemma claim_billing_work opts x : Returns (claim_billing uuid opts x) (same_work x).
Proof.
  unfold claim_billing. destruct (keeps_billing opts x); [case_bool_decide|]; returning; by apply returns_ret.
Qed.

#[local] Instance frame_new_uuid P : FileFrame P (new_uuid uuid).
Proof. unfold new_uuid. frame. Qed.
#[local] Instance frame_claim_billing P opts x : FileFrame P (claim_billing uuid opts x).
Proof. unfold claim_billing. frame. Qed.

#[local] Instance no_temp_none : NoTemp (fun _ => False).
Proof. by intros d n []. Qed.

Lemma bind_ok {A B} (m : M A) (k : A -> M B) w b w' :
  (m ≫= k) w = (ROk b, w') -> exists a w1, m w = (ROk a, w1) /\ k a w1 = (ROk b, w').
Proof. unfold mbind, M_bind. destruct (m w) as [[a|e|] w1]; [|done..]. eauto. Qed.

Lemma claim_write_spec os h sid cid fp opts base w c w' :
  claim_write canonical_schema uuid os s h (statePath s sid) sid cid fp opts base w = (ROk c, w') ->
  exists st k o, cl_Owner c = Some o /\ cl_Snapshot c = cloneSnapshot st /\ handed_over base st fp opts (cl_ColdRebuild c) /\
    ol_handle o = Some h /\ ol_SessionID o = sid /\ ownerMatches st o = true /\
    ss_OwnerToken st = uuid k /\ (w_uuid w <= k < w_uuid w')%nat /\
    w_files w' !! statePath s sid = Some {| f_doc := DState st; f_mtime := w_now w |}.
Proof.
  unfold claim_write. cbv zeta. destruct (negb (co_AllowPending opts) && _) eqn:Gp; [done|].
  intros (cat & w1 & H1 & E)%bind_ok. assert (w1 = w) as -> by (revert H1; unfold lift; destruct (validateToolCatalog _ _); by intros [= _ <-]).
  destruct (co_RequireToolCatalog opts && _); [done|]. fold (other_credential base fp) in E.
  destruct (other_credential base fp && negb (co_AllowCredentialChange opts)) eqn:Gc; [done|].
  apply bind_ok in E as (b & w2 & H2 & E).
  set (x := claim_cold _ _ _) in H2. pose proof (claim_billing_work opts x _ _ _ H2) as Hb.
  destruct (frame_claim_billing (state_file s) opts x w) as [[T2 U2] _]. rewrite H2 in T2, U2. cbn [snd] in T2, U2.
  set (b' := claim_catalog _ _ _ _) in E. set (conv := if bool_decide _ then cid else _) in E.
  apply bind_ok in E as (tok & w3 & H3 & E). unfold new_uuid, mbind, M_bind, gets, modify, mret, M_ret in H3. injection H3 as <- <-.
  apply bind_ok in E as (now & w4 & H4 & E). unfold gets in H4. injection H4 as <- <-.
  cbn [bump_uuid w_now] in E. set (st := touch _ _) in E.
  apply bind_ok in E as ([] & w5 & H5 & E). apply bind_ok in E as ([] & w6 & H6 & E). apply bind_ok in E as ([] & w7 & H7 & E).
  injection E as <- <-.
  pose proof (replace_file_atomic os wrapState (root s) (digest sid) (DState st) (bump_uuid w2)) as Ha. cbv zeta in Ha.
  unfold writeStateAtomic in H5. change (root s, FJson (digest sid)) with (statePath s sid) in Ha. rewrite H5 in Ha.
  destruct Ha as [_ [[_ Ha]|Ha]]; [done|]. cbn [bump_uuid w_now] in Ha.
  assert (clocks (bump_uuid w2) w5) as [_ U5].
  { destruct (frame_replace_file os (fun _ => False) wrapState (statePath s sid) (DState st) (fun x => x) (bump_uuid w2)) as [C _].
    by rewrite H5 in C. }
  assert (forall prev n fp' w1 w2, syncPendingIndex os s fp' (ss_SessionID st) prev n w1 = (ROk tt, w2) ->
    (w_uuid w1 <= w_uuid w2)%nat /\ w_files w2 !! statePath s sid = w_files w1 !! statePath s sid) as Hs.
  { intros prev n fp' wa wb Ew. destruct (frame_syncPendingIndex os s (state_file s) ltac:(done) fp' (ss_SessionID st) prev n wa) as [[_ U] F].
    rewrite Ew in U, F. split; [done|]. apply F, state_file_path. }
  assert ((w_uuid w5 <= w_uuid w6)%nat /\ w_files w6 !! statePath s sid = w_files w5 !! statePath s sid) as [U6 F6].
  { destruct (negb _ && _) in H6; [by eapply Hs|]. by injection H6 as <-. }
  assert ((w_uuid w6 <= w_uuid w7)%nat /\ w_files w7 !! statePath s sid = w_files w6 !! statePath s sid) as [U7 F7].
  { destruct (negb _) in H7; [by eapply Hs|]. by injection H7 as <-. }
  exists st, (w_uuid w2). eexists. split; [reflexivity|]. split; [reflexivity|].
  split; [|split; [done|split; [done|split; [|split; [done|split]]]]].
  - assert (same_work x b') as Hw.
    { unfold b', claim_catalog. by match goal with |- context [if ?c then _ else _] => destruct c end. }
    unfold same_work in Hw. injection Hw as E1 E2 E3 E4 E5.
    split; try done.
    + unfold st. cbn. rewrite <-E5. unfold x, claim_cold, claim_history. repeat case_match; done.
    + cbn [cl_ColdRebuild]. intros Hc. rewrite Hc in Gc. cbn [andb] in Gc. by apply negb_false_iff in Gc.
    + intros Hp. rewrite Hp in Gp. cbn [negb andb] in Gp. apply negb_false_iff in Gp. by apply bool_decide_eq_true_1 in Gp.
    + unfold st. cbn [touch set_times set_owner set_ss_Version set_identity ss_Checkpoint ss_Blobs ss_PendingTools ss_PendingBatchIDs].
      rewrite <-E1, <-E2, <-E3, <-E4. unfold x, claim_cold, claim_history, fresh_start.
      destruct (other_credential base fp), (bool_decide (co_HistoryRequestKey opts = "")); done.
  - unfold ownerMatches. cbn. rewrite !bool_decide_eq_true_2 by done. by rewrite Z.eqb_refl.
  - cbn [bump_uuid w_uuid] in U5. lia.
  - rewrite F7, F6, Ha. do 2 f_equal. congruence.
Qed.
(** Collection only removes state files. *)
Ltac shrink_step :=
  lazymatch goal with
  | |- Shrinks _ (match ?x with _ => _ end) => destruct x
  | |- Shrinks _ (attempt (acquireLease _ _) ≫= _) => apply shrinks_bind; [apply shrinks_frame; apply _|]
  | |- Shrinks _ (_ ≫= _) => apply shrinks_bind
  | |- Shrinks _ (attempt _) => apply shrinks_attempt
  | |- Shrinks _ (for_each _ _) => apply shrinks_for_each
  | |- Shrinks _ (release_after _ _ _) => apply shrinks_release_after
  | |- Shrinks _ (remove_if_present _ _ _) => apply shrinks_remove_if_present
  | |- Shrinks _ _ => apply shrinks_frame; solve [apply _]
  | |- forall _, _ => intros ?; cbv beta iota
  end.

#[local] Instance state_file_no_temp : NoTemp (state_file s).
Proof. intros d n [_ []]. done. Qed.

Lemma shrinks_pruneExpired os force : Shrinks (state_file s) (pruneExpired doc_size os s force).
Proof.
  unfold pruneExpired. cbv zeta.
  pose proof (frame_syncPendingIndex os s (state_file s) ltac:(done)) as F1.
  pose proof (frame_pruneExpiredCompleted os s (state_file s) ltac:(done)) as F2.
  pose proof (fun p => frame_readState doc_size os (state_file s) p) as F3.
  repeat shrink_step.
Qed.

(** *** A state whose time is not up stays *)
Definition retains (p : Path) (f : File) (now : time) {A} (m : M A) : Prop :=
  forall w, w_now w = now -> w_files w !! p = Some f -> w_now (m w).2 = now /\ w_files (m w).2 !! p = Some f.
Section retains.
Context (p : Path) (f : File) (now : time).
Lemma retains_frame {A} (m : M A) : FileFrame (fun q => q = p) m -> retains p f now m.
Proof. intros Hm w Hn Hf. destruct (Hm w) as [[T _] F]. by rewrite T, F. Qed.
Lemma retains_bind {A B} (m : M A) (k : A -> M B) :
  retains p f now m ->
  (forall w a w', w_now w = now -> w_files w !! p = Some f -> m w = (ROk a, w') -> retains p f now (k a)) ->
  retains p f now (m ≫= k).
Proof.
  intros Hm Hk w Hn Hf. unfold mbind, M_bind. specialize (Hm w Hn Hf).
  destruct (m w) as [[a|e|] w'] eqn:E; cbn [snd] in *; [|done..]. destruct Hm. by eapply (Hk w).
Qed.
Lemma retains_attempt {A} (m : M A) : retains p f now m -> retains p f now (attempt m).
Proof. intros Hm w Hn Hf. specialize (Hm w Hn Hf). unfold attempt. by destruct (m w) as [[a|e|] w']. Qed.
Lemma retains_for_each {A} (l : list A) (body : A -> M unit) :
  (forall x, retains p f now (body x)) -> retains p f now (for_each l body).
Proof.
  intros Hb. induction l as [|x l IH]; simpl; [apply retains_frame; apply _|]. apply retains_bind; [done|]. by intros.
Qed.
Lemma retains_release_after os h (body : M bool) : retains p f now body -> retains p f now (release_after os h body).
Proof.
  intros Hb. unfold release_after. apply retains_bind; [by apply retains_attempt|]. intros _ r _ _ _ _. apply retains_frame. frame.
Qed.
End retains.

Lemma retains_pruneExpired os force sid f x now :
  f_doc f = DState x -> ~ lapsed x now -> retains (statePath s sid) f now (pruneExpired doc_size os s force).
Proof.
  intros Hx Hl. set (p := statePath s sid). assert (NoTemp (fun q => q = p)) as Hnt by (by intros d n [=]).
  pose proof (fun q => frame_readState doc_size os (fun q => q = p) q) as F3.
  pose proof (frame_pruneExpiredCompleted os s (fun q => q = p) ltac:(intros q ->; apply state_file_path)) as F2.
  pose proof (frame_syncPendingIndex os s (fun q => q = p) ltac:(intros q ->; apply state_file_path)) as F1.
  unfold pruneExpired. destruct (ttl s <=? 0); [apply retains_frame; apply _|].
  apply retains_bind; [apply retains_frame; apply _|]. intros w n _ Hn _ [= <- _]. rewrite Hn. clear w Hn.
  apply retains_bind; [apply retains_frame; apply _|]. intros _ gc _ _ _ _.
  destruct (negb force && gc_recent now gc); [apply retains_frame; apply _|].
  apply retains_bind; [apply retains_frame; apply _|]. intros _ entries _ _ _ _.
  apply retains_bind; [|intros; apply retains_frame; frame]. apply retains_for_each. intros [name|n].
  - apply retains_bind; [apply retains_frame, F3|]. intros _ st _ _ _ _. destruct (negb (stateExpired st now (ttl s))); [apply retains_frame; apply _|].
    apply retains_bind; [apply retains_frame; apply _|]. intros _ [h|e] _ _ _ _; [|apply retains_frame; frame].
    apply retains_release_after, retains_bind; [apply retains_attempt, retains_frame, F3|].
    intros w [latest|e] w' _ Hf Hr; [|apply retains_frame; apply _]. destruct (stateExpired latest now (ttl s)) eqn:Ee; [|apply retains_frame; apply _].
    assert (~ (root s, FJson name) = p) as Hne.
    { intros Ep. unfold attempt in Hr. pose proof (readState_spec doc_size os (root s, FJson name) w) as Hs. rewrite Ep in *.
      destruct (readState doc_size os p w) as [[y|e|] w1]; [|done..]. injection Hr as -> ->. destruct Hs as (_ & _ & _ & Hs).
      destruct (Hs latest eq_refl) as (g & z & Hg & Hz & ->). rewrite Hf in Hg. injection Hg as <-. rewrite Hx in Hz. injection Hz as <-.
      by apply Hl, stateExpired_lapsed. }
    apply retains_frame. pose proof (fun g => frame_remove_if_present os (fun q => q = p) g (root s, FJson name) Hne) as F4. frame.
  - apply retains_bind; [apply retains_frame; apply _|]. intros _ [g|e] _ _ _ _; [|apply retains_frame; apply _].
    assert (~ (root s, FTemp n) = p) as Hne by done.
    pose proof (fun g => frame_remove_if_present os (fun q => q = p) g (root s, FTemp n) Hne) as F4. apply retains_frame. frame.
Qed.

Lemma claim_current_spec os path read w cur w' :
  claim_current os s path read w = (ROk cur, w') ->
  clocks w w' /\ forall x, cur = Some x <-> read = Ok x /\ ~ lapsed x (w_now w).
Proof.
  assert (Shrinks (fun _ => False) (claim_current os s path read)) as Hc.
  { unfold claim_current. pose proof (frame_syncPendingIndex os s (fun _ => False) ltac:(by intros ? [])) as F1. repeat shrink_step. }
  destruct (Hc w) as [C _]. intros E. rewrite E in C. split; [done|].
  revert E. unfold claim_current. destruct read as [x|e].
  - intros (now & w1 & H1 & E)%bind_ok. injection H1 as <- <-. destruct (stateExpired x (w_now w) (ttl s)) eqn:Ee.
    + apply bind_ok in E as ([] & w2 & H2 & E). apply bind_ok in E as ([] & w3 & H3 & E). injection E as <- <-.
      apply stateExpired_lapsed in Ee. intros y. split; [done|]. by intros [[= ->] Hn].
    + injection E as <- <-. assert (~ lapsed x (w_now w)) as Hn by (intros Hl%stateExpired_lapsed; congruence). naive_solver.
  - destruct (errors_is e ErrNotExist); [|done]. intros [= <- _]. naive_solver.
Qed.

(** A state file that is there is never taken for a missing one. *)
Lemma readState_present os p w f x e w' :
  w_files w !! p = Some f -> f_doc f = DState x -> readState doc_size os p w = (RFail e, w') -> errors_is e ErrNotExist = false.
Proof.
  intros Hf Hx. unfold readState, read_doc, sys, mbind, M_bind, gets, mret, M_ret, fail, lift.
  destruct (os (w_os w)); cbn [tick w_files w_os]; [|by intros [= <- _]|done]. rewrite Hf.
  destruct (_ <? _); [by intros [= <- _]|]. destruct (os _); cbn [tick w_files w_os]; [|by intros [= <- _]|done]. rewrite Hf, Hx.
  unfold migrateRecordVersion, mret, M_ret, fail. destruct (_ || _); by intros [= <- _].
Qed.

(** A claim with its lease held: the old state it read, if it kept any. *)
Lemma claim_leased_spec os h sid cid fp opts w c o w' :
  claim_leased doc_size canonical_schema uuid os s h sid cid fp opts w = (ROk c, w') -> cl_Owner c = Some o ->
  exists st k old, cl_Snapshot c = cloneSnapshot st /\
    (forall y, old = Some y <-> exists f x, y = set_ss_Version stateVersion x /\
       w_files w !! statePath s sid = Some f /\ f_doc f = DState x /\ ~ lapsed x (w_now w)) /\
    handed_over (default zeroState old) st fp opts (cl_ColdRebuild c) /\
    ol_handle o = Some h /\ ol_SessionID o = sid /\ ownerMatches st o = true /\
    ss_OwnerToken st = uuid k /\ (w_uuid w <= k < w_uuid w')%nat /\
    w_files w' !! statePath s sid = Some {| f_doc := DState st; f_mtime := w_now w |}.
Proof.
  unfold claim_leased. cbv zeta. intros E Ho. apply bind_ok in E as (read & w1 & H1 & E).
  pose proof (readState_spec doc_size os (statePath s sid) w) as Hr. unfold attempt in H1.
  assert (clocks w w1 /\ (forall x, read = Ok x -> exists f st,
    w_files w !! statePath s sid = Some f /\ f_doc f = DState st /\ x = set_ss_Version stateVersion st)) as (C1 & R1).
  { destruct (readState doc_size os (statePath s sid) w) as [[x|e|] w1']; [| |discriminate H1]; destruct Hr as (Hr1 & _ & Hr2 & Hr3);
      injection H1 as <- <-; split_and!; try done. intros y [= <-]. by apply Hr3. }
  apply bind_ok in E as (replay & w2 & H2 & E).
  assert (clocks w1 w2) as C2.
  { assert (FileFrame (fun _ => False) (if bool_decide (co_HistoryRequestKey opts = "") then mret None
      else r ← attempt (LookupHistory os s fp (co_HistoryRequestKey opts));
           match r with Ok replay => mret (Some replay) | Fail e => if errors_is e ErrSessionNotPending then mret None else fail e end)) as Hf.
    { pose proof (frame_LookupHistory os s (fun _ => False)) as F. frame. }
    destruct (Hf w1) as [C _]. by rewrite H2 in C. }
  destruct replay as [rp|]; [injection E as <- <-; done|].
  apply bind_ok in E as (cur & w3 & H3 & E). destruct (claim_current_spec _ _ _ _ _ _ H3) as [C3 R3].
  destruct (bool_decide (cur = None) && _); [done|].
  destruct (claim_write_spec _ _ _ _ _ _ _ _ _ _ E) as (st & k & o' & O1 & O2 & O3 & O4 & O5 & O6 & O7 & O8 & O9).
  rewrite Ho in O1. injection O1 as <-. destruct C1 as [T1 U1], C2 as [T2 U2], C3 as [T3 U3].
  exists st, k, cur. split_and!; try done; [|by eapply handed_over_base|lia..|by rewrite O9, T3, T2, T1].
  intros y. rewrite R3, T2, T1. split.
  - intros [Hy Hl]. destruct (R1 y Hy) as (f & x & E1 & E2 & ->). by exists f, x.
  - intros (f & x & -> & E1 & E2 & Hl). split; [|done]. destruct read as [z|e].
    + destruct (R1 z eq_refl) as (f' & x' & E1' & E2' & ->). congruence.
    + exfalso. unfold claim_current in H3. assert (errors_is e ErrNotExist = false) as Hne; [|by rewrite Hne in H3].
      destruct (readState doc_size os (statePath s sid) w) as [[z|e'|] w1'] eqn:Er; [done| |done]. injection H1 as -> _.
      by eapply readState_present.
Qed.

(** C12 What a claim hands over: the session's file then records exactly the returned
    snapshot, with the caller as owner under the next generation and a token drawn
    in this call.  The state it starts from is the one the session's file held, unless
    that had expired by then, and nothing otherwise; its work survives unless the credential
    changed or a new history turn starts, in which case nothing of it does; a change
    of credential was allowed by the caller, and pending tools only if it asked. *)
Theorem claim_hands_over (os : nat -> outcome) (sid cid fp : string) (opts : ClaimOptions) (w w' : World)
    (c : ClaimResult) (o : OwnerLease) :
  locks_wf w -> Claim doc_size canonical_schema uuid os s sid cid fp opts w = (ROk c, w') -> cl_Owner c = Some o ->
  exists st k old, owns w' o st /\ cl_Snapshot c = cloneSnapshot st /\ ss_OwnerToken st = uuid k /\
    (w_uuid w <= k < w_uuid w')%nat /\ w_locks w !! stateLock s (TrimSpace sid) = None /\
    (forall y, old = Some y <-> exists f x, y = set_ss_Version stateVersion x /\
       w_files w !! statePath s (TrimSpace sid) = Some f /\ f_doc f = DState x /\ ~ lapsed x (w_now w)) /\
    handed_over (default zeroState old) st (TrimSpace fp) opts (cl_ColdRebuild c).
Proof.
  intros Hw E Ho. pose proof (Claim_leases doc_size canonical_schema uuid s os sid cid fp opts w Hw) as HL.
  rewrite E, Ho in HL. destruct HL as [_ (h & L1 & L2 & _ & L3 & L4)].
  unfold Claim in E. apply bind_ok in E as ([] & w1 & H1 & E). cbv zeta in E.
  destruct (shrinks_pruneExpired os false w) as [[T1 U1] S1]. pose proof (retains_pruneExpired os false (TrimSpace sid)) as P1.
  rewrite H1 in T1, U1, S1. cbn [snd] in T1, U1, S1.
  destruct (_ || _ || _); [done|]. apply bind_ok in E as (h' & w2 & H2 & E).
  destruct (frame_acquireLease os (fun _ => True) (stateLock s (TrimSpace sid)) w1) as [[T2 U2] S2].
  rewrite H2 in T2, U2, S2. cbn [snd] in T2, U2, S2. unfold released_on_error in E.
  destruct (claim_leased _ _ _ _ _ _ _ _ _ _ w2) as [[r|e|] w3] eqn:E3.
  2: by destruct (releaseHandle os h' w3) as [[]]. 2: done.
  assert (r = c /\ w3 = w') as [-> ->].
  { destruct (cl_Owner r) eqn:Er; [by injection E as <- <-|].
    destruct (releaseHandle os h' w3) as [[]]; simplify_eq; congruence. }
  destruct (claim_leased_spec _ _ _ _ _ _ _ _ _ _ E3 Ho) as (st & k & old & O1 & O2 & O3 & O4 & O5 & O6 & O7 & O8 & O9).
  exists st, k, old. split_and!; try done; [|lia..|].
  - split; [exists h, (stateLock s (TrimSpace sid)); split; [done|by rewrite L3, lookup_insert_eq]| |done].
    rewrite O5. eexists. split; [exact O9|done].
  - rewrite T2, T1 in O2. intros y. rewrite O2. split; intros (f & x & Hy & Hf & Hx & Hl); exists f, x; (split_and!; [done| |done..]).
    + rewrite S2 in Hf by done. destruct (S1 (statePath s (TrimSpace sid)) (state_file_path _)) as [S|S]; congruence.
    + rewrite S2 by done. specialize (P1 f x (w_now w) Hx Hl w eq_refl Hf). rewrite H1 in P1. apply P1.
Qed.
End owners.

(** *** A session claimed, written and claimed again *)
#[local] Existing Instance sample_digest.
Definition no_size : Doc -> Z := fun _ => 0.
Definition claimed_world : World := sample_claim.2.
Definition sample_checkpoint : bytes := to_bytes "cp".
Definition saved_world : World :=
  (SaveCheckpoint no_size all_ok sample_store sample_owner sample_checkpoint ∅ claimed_world).2.

Lemma retired_owner_fenced_witness :
  (run_op no_size sample_store all_ok (OpSaveFollowUp sample_owner "x") empty_world).1 <> ROk tt.
Proof.
  apply (retired_owner_fenced no_size sample_store all_ok (OpSaveFollowUp sample_owner "x") sample_owner empty_world); [done|].
  intros st [(h & l & _ & Hl) _ _]. revert Hl. vm_compute. discriminate.
Defined.
Lemma owner_write_atomic_witness :
  let p := statePath sample_store "session" in
  w_files saved_world !! p = w_files claimed_world !! p \/
  exists st x, owns sample_store claimed_world sample_owner st /\ same_owner st x /\ ownerMatches x sample_owner = true /\
     w_files saved_world !! p = Some {| f_doc := DState (touch (w_now claimed_world) x); f_mtime := w_now claimed_world |}.
Proof.
  apply (owner_write_atomic no_size sample_store all_ok (OpSaveCheckpoint sample_owner sample_checkpoint ∅) sample_owner claimed_world).
  reflexivity.
Defined.
Lemma checkpoint_saved_witness :
  exists st, owns sample_store claimed_world sample_owner st /\ blen sample_checkpoint <= maxConnectPayloadSize.
Proof.
  destruct (checkpoint_saved no_size sample_store all_ok sample_owner sample_checkpoint ∅ claimed_world saved_world) as (st & H1 & H2 & _).
  - vm_compute. reflexivity.
  - by exists st.
Defined.
(** The session is given up and claimed again. *)
Definition released_world : World := (Release all_ok sample_owner saved_world).2.
Definition second_claim : Res ClaimResult * World :=
  Claim no_size Some sample_uuid all_ok sample_store "session" "conversation" "cred" sample_options released_world.
Definition second_result : ClaimResult :=
  match second_claim.1 with ROk c => c | _ => claim_replay
      {| rp_RequestSegmentID := ""; rp_SessionID := ""; rp_ConversationID := ""; rp_BillingRunID := ""; rp_OriginalBatch := [];
         rp_Events := []; rp_HasPending := false; rp_FollowUpText := "" |} end.
Definition kept_state : StateSnapshot :=
  match w_files released_world !! statePath sample_store "session" with
  | Some {| f_doc := DState x |} => x | _ => zeroState end.
Lemma claim_hands_over_witness :
  exists st, ss_Checkpoint st = sample_checkpoint /\ ss_OwnerGeneration st = 2 /\ ss_SessionID st = "session".
Proof.
  destruct (claim_hands_over no_size Some sample_uuid sample_store all_ok "session" "conversation" "cred" sample_options
    released_world second_claim.2 second_result (default sample_owner (cl_Owner second_result)))
    as (st & k & old & [_ _ H1] & _ & _ & _ & _ & H2 & [H3 H4 H5 H6 H7 H8]).
  - by vm_compute.
  - vm_compute. reflexivity.
  - vm_compute. reflexivity.
  - assert (old = Some (set_ss_Version stateVersion kept_state)) as ->.
    { apply H2. exists {| f_doc := DState kept_state; f_mtime := w_now released_world |}, kept_state.
      split; [reflexivity|]. split; [vm_compute; reflexivity|]. split; [reflexivity|]. intros [_ [(Hx & _)|(_ & _ & Hx)]]; vm_compute in Hx; discriminate Hx. }
    exists st. split; [|split].
    + vm_compute in H8. by injection H8.
    + rewrite H3. vm_compute. reflexivity.
    + unfold ownerMatches in H1. bool_hyps. rewrite H. vm_compute. reflexivity.
Defined.
