(* ===== verification/StoreReplay.v ===== *)
(** * Replays

    A completed segment is replayed to a repeated request and refused to a
    different answer; the lemmas on calls under an oracle that lets every call
    succeed. *)
From stdpp Require Import base tactics list gmap strings sorting.
From Stdlib Require Import Strings.Byte.
From S2P Require Import Prelude GoStrings Sha256 Connect Data Json Usage EventSnapshot Segment StoreWorld StoreLogic StoreIndex StoreCompleted StoreState StoreLaws StoreProps.
Open Scope Z_scope.

(** An oracle under which no system call fails. *)
Definition reliable (os : nat -> outcome) : Prop := forall n, os n = OsOk.

Section reliable.
Context (os : nat -> outcome) (Hos : reliable os).

Lemma acquire_free l w : w_locks w !! l = None ->
  exists w1, acquirePendingIndexLease os l w = (ROk (w_handle w), w1) /\
    w_files w1 = w_files w /\ w_now w1 = w_now w /\ w_lastGC w1 = w_lastGC w.
Proof.
  intros Hl. unfold acquirePendingIndexLease. cbn [acquire_attempts].
  unfold acquireLease, wrap_error, attempt, sys, gets, modify, mbind, M_bind, mret, M_ret.
  repeat (rewrite Hos; cbn [tick w_os w_locks]). rewrite Hl.
  eexists. split; [reflexivity|]. done.
Qed.

Lemma release_reliable h w : exists w1, releaseHandle os h w = (ROk tt, w1) /\ w_files w1 = w_files w.
Proof.
  unfold releaseHandle, wrap_error, attempt, gets, modify, sys, mbind, M_bind, mret, M_ret.
  destruct (w_handles w !! h); [repeat (rewrite Hos; cbn [tick w_os])|]; eexists; split; reflexivity.
Qed.

(** Under a free lock the lease is transparent. *)
Lemma with_lease_free {A} l (body : M A) w r :
  w_locks w !! l = None -> r <> RCrash ->
  (forall w1, w_files w1 = w_files w -> w_now w1 = w_now w -> (body w1).1 = r) ->
  (with_index_lease os l body w).1 = r.
Proof.
  intros Hl Hr Hb. unfold with_index_lease, mbind, M_bind. destruct (acquire_free l w Hl) as (w1 & -> & F1 & T1 & _).
  specialize (Hb w1 F1 T1). unfold deferred. destruct (body w1) as [[a|e|] w2]; cbn [fst] in Hb; subst r; [| |done];
    destruct (release_reliable (w_handle w) w2) as (w3 & -> & _); done.
Qed.

Lemma read_doc_reliable op p f w : w_files w !! p = Some f -> exists w1, read_doc os op p w = (ROk f, w1) /\ w_files w1 = w_files w /\ w_now w1 = w_now w.
Proof.
  intros Hf. unfold read_doc, sys, mbind, M_bind, gets, mret, M_ret. rewrite Hos. cbn [tick w_files]. rewrite Hf. eexists. split; [reflexivity|]. done.
Qed.

Lemma read_tombstone_reliable p f t w :
  w_files w !! p = Some f -> f_doc f = DTombstone t -> ct_Version t = stateVersion ->
  (readCompletedTombstoneFile os p w).1 = ROk (set_ct_Version stateVersion (normalizeToolIDs (ct_BatchIDs t)) t).
Proof.
  intros Hf Hd Hv. unfold readCompletedTombstoneFile, mbind, M_bind. destruct (read_doc_reliable "read" p f w Hf) as (w1 & -> & _).
  rewrite Hd, Hv. done.
Qed.
End reliable.

Section replay.
Context `{Digest} (doc_size : Doc -> Z).
Context (s : FileStateStore) `{!IndexDirs s}.

(** The batch a request answers, and the file and lock of its completed snapshot. *)
Definition request_batch (rs : list ToolResult) : list string := normalizeToolIDs (tr_ToolCallID <$> rs).

Lemma canonical_request rs c : canonicalToolResults rs = Ok c -> completedBatchIDs c = request_batch rs.
Proof.
  intros Hc. pose proof Hc as (_ & _ & _ & Hf & _ & Ho)%canonical_accepts.
  unfold completedBatchIDs, request_batch. apply normalizeToolIDs_ext. intros x. rewrite !elem_normalizeToolIDs.
  assert (x <> "" -> (x ∈ TrimSpace <$> (cr_ToolCallID <$> c)) <-> x ∈ TrimSpace <$> (tr_ToolCallID <$> rs)) as Hx; [|tauto].
  intros _. rewrite Ho, sort_results_perm, canonical_ids_of. unfold canonical_ids. rewrite !list_elem_of_fmap. split.
  - intros (y & -> & (r & -> & Hr)%list_elem_of_fmap). exists (tr_ToolCallID r). split; [apply TrimSpace_idemp|by apply list_elem_of_fmap_2].
  - intros (y & -> & (r & -> & Hr)%list_elem_of_fmap). exists (TrimSpace (tr_ToolCallID r)). rewrite TrimSpace_idemp.
    split; [done|]. apply list_elem_of_fmap. eauto.
Qed.

Lemma completed_material_norm fp b fu : completed_material fp (normalizeToolIDs b) (TrimSpace fu) = completed_material fp b fu.
Proof. unfold completed_material, normalizeFollowUp. by rewrite normalizeToolIDs_idemp, TrimSpace_idemp. Qed.
Lemma completedIndexPaths_norm fp b fu :
  completedIndexPaths s fp (normalizeToolIDs b) (TrimSpace fu) = completedIndexPaths s fp b fu.
Proof. unfold completedIndexPaths. by rewrite completed_material_norm. Qed.

(** Lookup of a stored tombstone that is not expired. *)
Lemma match_stored os fp b fu c f t w :
  reliable os -> let '(p, l) := completedIndexPaths s fp b fu in
  w_files w !! p = Some f -> f_doc f = DTombstone t -> ct_Version t = stateVersion -> w_locks w !! l = None ->
  ct_CredentialFingerprint t = fp -> normalizeToolIDs (ct_BatchIDs t) = b -> normalizeFollowUp (ct_FollowUpText t) = normalizeFollowUp fu ->
  completedTombstoneExpired t (w_now w) (ttl s) = false ->
  (matchCompletedTombstone os s fp b c fu w).1 =
    match completedResultsForBatch c b with
    | None => RFail ErrSessionNotPending
    | Some m => if bool_decide (ct_ResultDigest t = toolResultDigest m) then ROk (set_ct_Version stateVersion b t)
                else RFail ErrToolResultConflict
    end.
Proof.
  intros Hos. destruct (completedIndexPaths s fp b fu) as [p l] eqn:Ep. intros Hf Hd Hv Hl Hfp Hb Hfu He.
  assert ((readCompletedTombstone os s fp b fu w).1 = ROk (set_ct_Version stateVersion b t)) as Hr.
  { unfold readCompletedTombstone. rewrite Ep. apply with_lease_free; [done|done|done|]. intros w1 F1 _.
    unfold mbind, M_bind, attempt. pose proof (read_tombstone_reliable os Hos p f t w1 ltac:(by rewrite F1) Hd Hv) as R.
    rewrite Hb in R. destruct (readCompletedTombstoneFile os p w1) as [[x|e|] w2]; try done. }
  assert (w_now (readCompletedTombstone os s fp b fu w).2 = w_now w) as Ht.
  { destruct (frame_readCompletedTombstone os s (fun _ => False) fp b fu w) as [[T _] _]. exact T. }
  unfold matchCompletedTombstone, mbind, M_bind, attempt.
  destruct (readCompletedTombstone os s fp b fu w) as [[x|e|] w1]; cbn [fst snd] in Hr, Ht; [|done..]. injection Hr as ->.
  cbn [set_ct_Version ct_CredentialFingerprint ct_BatchIDs ct_FollowUpText ct_ResultDigest].
  rewrite !bool_decide_eq_true_2 by done. cbn [negb orb]. unfold gets. rewrite Ht.
  change (completedTombstoneExpired (set_ct_Version stateVersion b t)) with (completedTombstoneExpired t). rewrite He.
  destruct (completedResultsForBatch c b) as [m|]; [|done]. by destruct (bool_decide _).
Qed.

Lemma lookup_stored os fp rs fu c f t w :
  reliable os -> let '(p, l) := completedIndexPaths s fp (request_batch rs) fu in
  canonicalToolResults rs = Ok c -> TrimSpace fp = fp -> fp <> "" -> TrimSpace (completedRoot s) <> "" ->
  gc_recent (w_now w) (w_lastGC w) = true ->
  w_files w !! p = Some f -> f_doc f = DTombstone t -> ct_Version t = stateVersion -> w_locks w !! l = None ->
  ct_CredentialFingerprint t = fp -> normalizeToolIDs (ct_BatchIDs t) = request_batch rs ->
  normalizeFollowUp (ct_FollowUpText t) = normalizeFollowUp fu ->
  completedTombstoneExpired t (w_now w) (ttl s) = false ->
  (LookupCompleted os s fp rs fu w).1 =
    if bool_decide (ct_ResultDigest t = toolResultDigest c) then
      match eventsFromPersisted (ct_Events t) with
      | Ok events => ROk {| rp_RequestSegmentID := ct_RequestSegmentID t; rp_SessionID := ct_SessionID t;
          rp_ConversationID := ct_ConversationID t; rp_BillingRunID := ct_BillingRunID t;
          rp_OriginalBatch := request_batch rs; rp_Events := events; rp_HasPending := ct_HasPending t;
          rp_FollowUpText := ct_FollowUpText t |}
      | Fail e => RFail e
      end
    else RFail ErrToolResultConflict.
Proof.
  intros Hos. pose proof (fun f t => match_stored os fp (request_batch rs) fu c f t w Hos) as Hm.
  destruct (completedIndexPaths s fp (request_batch rs) fu) as [p l]. intros Hc Ht Hne Hroot Hgc Hf Hd Hv Hl Hfp Hb Hfu He.
  specialize (Hm f t Hf Hd Hv Hl Hfp Hb Hfu He). pose proof (canonical_request _ _ Hc) as Hq.
  pose proof (canonical_own_batch _ _ Hc) as Hown. rewrite Hq in Hown. rewrite Hown in Hm.
  pose proof (canonical_batch _ _ Hc) as (Hids & _ & _ & Hcne). rewrite Hq in Hids.
  unfold LookupCompleted. rewrite Ht, Hc. unfold mbind at 1, M_bind at 1, lift at 1, mret at 1, M_ret at 1.
  rewrite !bool_decide_eq_false_2 by done. cbn [orb]. rewrite Hq, bool_decide_eq_false_2 by (rewrite <-Hids; by intros Hn%fmap_nil_inv).
  unfold mbind at 1, M_bind at 1, pruneExpiredCompleted. rewrite bool_decide_eq_false_2 by done.
  unfold mbind at 1, M_bind at 1, gets at 1. unfold mbind at 1, M_bind at 1, gets at 1. rewrite Hgc. cbn [negb andb].
  unfold mret at 1, M_ret at 1. unfold lookupCompletedTombstone, attempt, mbind, M_bind. rewrite Hq.
  destruct (matchCompletedTombstone os s fp (request_batch rs) c fu w) as [[x|e|] w1]; cbn [fst] in Hm;
    destruct (bool_decide _); try done.
  - injection Hm as ->. unfold mret, M_ret. cbn [set_ct_Version ct_Events ct_RequestSegmentID ct_SessionID ct_ConversationID
      ct_BillingRunID ct_BatchIDs ct_HasPending ct_FollowUpText]. unfold lift. by destruct (eventsFromPersisted (ct_Events t)).
  - by injection Hm as ->.
Qed.
(** ** The writer *)

Lemma deferred_ok {A} os h (body : M A) w a w' :
  deferred (releaseHandle os h) body w = (ROk a, w') -> exists w1, body w = (ROk a, w1) /\ w_files w' = w_files w1.
Proof.
  unfold deferred. destruct (body w) as [[b|e|] w1]; [| |done].
  - destruct (releaseHandle os h w1) as [r w2] eqn:E. intros Hx. exists w1.
    assert (a = b /\ w' = w2) as [-> ->] by (destruct r; by simplify_eq). split; [done|].
    apply map_eq. intros p. destruct (frame_releaseHandle os (fun _ => True) h w1) as [_ F]. rewrite E in F. by apply F.
  - destruct (releaseHandle os h w1) as [[] w2]; by intros ?.
Qed.

Lemma write_stored os t w w' :
  completedToolRoot s <> completedRoot s -> writeCompletedTombstone os s t w = (ROk tt, w') ->
  let p := (completedIndexPaths s (ct_CredentialFingerprint t) (ct_BatchIDs t) (ct_FollowUpText t)).1 in
  w_files w !! p = None ->
  w_files w' !! p = Some {| f_doc := DTombstone (set_ct_Version stateVersion (ct_BatchIDs t) t); f_mtime := w_now w |}.
Proof.
  intros Hd. unfold writeCompletedTombstone. cbv zeta.
  destruct (completedIndexPaths s (ct_CredentialFingerprint t) (ct_BatchIDs t) (ct_FollowUpText t)) as [p l] eqn:Ep. cbn [fst].
  assert (exists name, p = (completedRoot s, FJson name)) as [name Hp] by (unfold completedIndexPaths in Ep; injection Ep as <- _; eauto).
  intros E Hnone. unfold with_index_lease in E. apply bind_ok in E as (h & w1 & H1 & E).
  destruct (frame_acquirePending os (fun _ => True) l w) as [[T1 _] F1]. rewrite H1 in T1, F1. cbn [snd] in T1, F1.
  apply deferred_ok in E as (w2 & E & ->). apply bind_ok in E as (r & w3 & H3 & E).
  destruct (frame_readCompletedTombstoneFile os (fun _ => True) p w1) as [[T3 _] F3].
  assert (r = Fail ErrNotExist \/ exists e, r = Fail e /\ errors_is e ErrNotExist = false) as Hr.
  { revert H3. unfold attempt, readCompletedTombstoneFile, read_doc, sys, mbind, M_bind, gets, mret, M_ret, fail.
    destruct (os (w_os w1)); cbn [tick w_files]; [|intros [= <- _]; right; by exists (ErrOS "read")|done].
    rewrite F1 by done. rewrite Hnone. intros [= <- _]. by left. }
  assert (w_files w3 !! p = None /\ w_now w3 = w_now w) as [F4 T4].
  { unfold attempt in H3. destruct (readCompletedTombstoneFile os p w1) as [[x|e|] w3']; [injection H3 as <- <-..|done];
      cbn [snd] in *; (split; [rewrite F3, F1 by done; done|congruence]). }
  apply bind_ok in E as (t' & w4 & H4 & E).
  assert (t' = t /\ w4 = w3) as [-> ->].
  { destruct Hr as [->|(e & -> & He)]; [by injection H4 as <- <-|]. by rewrite He in H4. }
  apply bind_ok in E as ([] & w5 & H5 & E).
  unfold writeCompletedTombstoneAtomic in H5.
  pose proof (replace_file_atomic os plainError (completedRoot s) name (DTombstone (set_ct_Version stateVersion (ct_BatchIDs t) t)) w3) as Ha.
  cbv zeta in Ha. rewrite <-Hp, H5 in Ha. destruct Ha as [T5 [[_ Ha]|Ha]]; [done|]. rewrite T4 in Ha.
  destruct (negb _) in E; [by injection E as <-|].
  assert (FileFrame (fun q => q = p) (writeCompletedToolPointers os s (ct_CredentialFingerprint t) (ct_BatchIDs t))) as Hf.
  { assert (NoTemp (fun q => q = p)) as Hnt by (intros d n Hq; by rewrite Hp in Hq).
    unfold writeCompletedToolPointers, completedToolPointerPaths. cbv beta iota zeta. frame.
    unfold writeToolBatchPointerAt, writePrivateFileAtomic. apply frame_with_index_lease, frame_replace_file; [done|].
    rewrite Hp. intros [= Hx _]. done. }
  destruct (Hf w5) as [_ F6]. cbn [set_ct_Version ct_CredentialFingerprint ct_BatchIDs] in E. rewrite E in F6.
  cbn [snd] in F6. by rewrite F6.
Qed.

(** What [SaveCompleted] leaves under a free key. *)
Lemma SaveCompleted_stored os o rs es eph fu w w1 :
  completedToolRoot s <> completedRoot s ->
  SaveCompleted doc_size os s o rs es eph fu w = (ROk tt, w1) ->
  let p := (completedIndexPaths s (ol_CredentialHash o) (request_batch rs) fu).1 in
  w_files w !! p = None ->
  exists t st, newCompletedTombstone o rs es eph fu (w_now w) = Ok t /\ owns s w o st /\
    w_files w1 !! p = Some {| f_doc := DTombstone (completed_for o (set_ss_Version stateVersion st) t); f_mtime := w_now w |}.
Proof.
  intros Hd E p Hnone. unfold SaveCompleted in E. apply bind_ok in E as (now & w0 & H0 & E).
  unfold gets in H0. injection H0 as <- <-.
  apply bind_ok in E as (t & w0 & H0 & E). destruct (newCompletedTombstone o rs es eph fu (w_now w)) as [t'|e] eqn:Et; [|done].
  injection H0 as -> <-. set (mutate := fun current : StateSnapshot => _) in E.
  assert (completedIndexPaths s (ct_CredentialFingerprint t) (ct_BatchIDs t) (ct_FollowUpText t)
          = completedIndexPaths s (ol_CredentialHash o) (request_batch rs) fu) as Epath.
  { unfold newCompletedTombstone in Et. destruct (canonicalToolResults rs) as [c|] eqn:Ec; [|done]. cbn [rbind] in Et.
    destruct (persistEvents es); [|done]. injection Et as <-. cbn [ct_CredentialFingerprint ct_BatchIDs ct_FollowUpText].
    rewrite (canonical_request _ _ Ec). unfold completedIndexPaths, completed_material, normalizeFollowUp.
    by rewrite TrimSpace_idemp. }
  exists t. unfold update in E. destruct (_ || _) in E; [done|]. unfold withOwner in E. destruct (bool_decide _) in E; [done|].
  destruct (ol_handle o) as [h|] eqn:Eh; [|done]. apply bind_ok in E as (lv & w2 & H2 & E). unfold gets in H2. injection H2 as <- <-.
  destruct (w_handles w !! h) as [l|] eqn:El; [|done]. apply bind_ok in E as (r & w2 & H2 & E).
  pose proof (readState_spec doc_size os (statePath s (ol_SessionID o)) w) as Hr. unfold attempt in H2.
  destruct (readState doc_size os (statePath s (ol_SessionID o)) w) as [[x|e|] w2']; destruct Hr as (F1 & _ & [T1 _] & R1);
    [injection H2 as <- <-| |done].
  2: { injection H2 as <- <-. by destruct (errors_is e ErrNotExist). }
  destruct (R1 x eq_refl) as (f & st & Ef & Ed & ->). rewrite ownerMatches_version in E.
  destruct (ownerMatches st o) eqn:Eo; [|done]. cbn [negb] in E.
  exists st. split; [done|]. split; [split; [by exists h, l|by exists f|done]|].
  apply bind_ok in E as ([[] y] & w3 & H3 & E). unfold mutate in H3. cbv zeta in H3.
  apply bind_ok in H3 as ([] & w4 & H4 & H3). injection H3 as _ <-.
  pose proof (write_stored os _ _ _ Hd H4) as Hs. cbv zeta in Hs. cbn [completed_for ct_CredentialFingerprint ct_BatchIDs ct_FollowUpText] in Hs.
  rewrite Epath in Hs. fold p in Hs. rewrite F1, T1 in Hs. specialize (Hs Hnone).
  apply bind_ok in E as (now & w5 & H5 & E). unfold gets in H5. injection H5 as <- <-.
  apply bind_ok in E as ([] & w6 & H6 & E). injection E as <-.
  assert (FileFrame (fun q => q = p) (writeStateAtomic os (statePath s (ol_SessionID o)) (touch (w_now w4) y))) as Hf.
  { unfold writeStateAtomic. assert (exists n, p = (completedRoot s, FJson n)) as [n Hp] by (unfold p, completedIndexPaths; eauto).
    apply frame_replace_file; [intros d m Hq; by rewrite Hp in Hq|]. rewrite Hp. intros [= Hx _].
    destruct (index_dirs (s:=s)) as (_ & _ & D & _). done. }
  destruct (Hf w4) as [_ F6]. cbn [snd] in F6, H6. rewrite H6 in F6. cbn [snd] in F6. rewrite F6 by done. rewrite Hs.
  do 3 f_equal. unfold newCompletedTombstone in Et. destruct (canonicalToolResults rs); [|done]. cbn [rbind] in Et.
  destruct (persistEvents es); [|done]. by injection Et as <-.
Qed.

(** Saving under a free key and looking up while it is fresh. *)
Lemma saved_lookup os os' o rs rs' es out eph fu w w1 w2 :
  completedToolRoot s <> completedRoot s -> TrimSpace (completedRoot s) <> "" -> completedTombstoneTTL <= ttl s ->
  TrimSpace (ol_CredentialHash o) = ol_CredentialHash o -> ol_CredentialHash o <> "" ->
  SaveCompleted doc_size os s o rs es eph fu w = (ROk tt, w1) -> newSnapshotOutput es = (out, None) ->
  Forall (fun e => ev_Type e <> EventZero) es ->
  let '(p, l) := completedIndexPaths s (ol_CredentialHash o) (request_batch rs) fu in
  w_files w !! p = None -> w_files w2 !! p = w_files w1 !! p -> w_locks w2 !! l = None -> reliable os' ->
  gc_recent (w_now w2) (w_lastGC w2) = true -> Sub (w_now w2) (w_now w) <= completedTombstoneTTL ->
  forall c c', canonicalToolResults rs = Ok c -> canonicalToolResults rs' = Ok c' -> request_batch rs' = request_batch rs ->
  exists st, owns s w o st /\
  (LookupCompleted os' s (ol_CredentialHash o) rs' fu w2).1 =
    if bool_decide (toolResultDigest c = toolResultDigest c') then
      ROk {| rp_RequestSegmentID := ol_RequestSegmentID o; rp_SessionID := ol_SessionID o;
             rp_ConversationID := ss_ConversationID st;
             rp_BillingRunID := if bool_decide (ol_BillingRunID o = "") then ss_BillingRunID st else ol_BillingRunID o;
             rp_OriginalBatch := request_batch rs; rp_Events := out;
             rp_HasPending := negb (bool_decide (ss_PendingTools st = [])); rp_FollowUpText := TrimSpace fu |}
    else RFail ErrToolResultConflict.
Proof.
  intros Hd Hroot Httl Hcred Hcne Hsave Hout Hty.
  pose proof (SaveCompleted_stored os o rs es eph fu w w1 Hd Hsave) as Hst. cbv zeta in Hst.
  destruct (completedIndexPaths s (ol_CredentialHash o) (request_batch rs) fu) as [p l] eqn:Ep. cbn [fst] in Hst.
  intros Hnone Hfile Hlock Hos Hgc Hage c c' Hc Hc' Hb.
  destruct (Hst Hnone) as (t & st & Et & Hown & Hf). exists st. split; [done|].
  pose proof (fun f t => lookup_stored os' (ol_CredentialHash o) rs' fu c' f t w2 Hos) as Hl. rewrite Hb, Ep in Hl.
  unfold newCompletedTombstone in Et. rewrite Hc in Et. cbn [rbind] in Et. unfold persistEvents in Et.
  unfold newSnapshotOutput in Hout. destruct (append_all emptySnapshot es) as [sn|] eqn:A; [|done]. injection Hout as <-.
  cbn [rbind] in Et. injection Et as <-.
  rewrite Hf in Hfile. specialize (Hl _ _ Hc' Hcred Hcne Hroot Hgc Hfile eq_refl eq_refl Hlock eq_refl). rewrite Hl; clear Hl.
  - cbn [completed_for ct_ResultDigest ct_Events ct_RequestSegmentID ct_SessionID ct_ConversationID ct_BillingRunID ct_HasPending ct_FollowUpText].
    destruct (bool_decide _); [|done].
    rewrite eventsFromPersisted_ok by (eapply append_all_types; [exact A|done|done]).
    by rewrite (fmap_clone_id _ (append_all_clone _ _ _ A (Forall_nil_2 _))).
  - cbn [completed_for ct_BatchIDs]. rewrite (canonical_request _ _ Hc). unfold request_batch. apply normalizeToolIDs_idemp.
  - cbn [completed_for ct_FollowUpText]. unfold normalizeFollowUp. apply TrimSpace_idemp.
  - unfold completedTombstoneExpired. cbn [completed_for ct_UpdatedAt ct_Ephemeral]. destruct (IsZero _); [done|].
    destruct eph; [|destruct (ttl s <=? 0); [done|]]; try destruct (_ <=? 0); lia.
Qed.
(** The key [SaveCompleted] writes was free, nobody rewrote it before the lookup,
    its lock is free then, and the snapshot is younger than an hour. *)
Record replay_window (fp : string) (rs : list ToolResult) (fu : string) (w w1 w2 : World) : Prop := {
  rw_free : w_files w !! (completedIndexPaths s fp (request_batch rs) fu).1 = None;
  rw_kept : w_files w2 !! (completedIndexPaths s fp (request_batch rs) fu).1 =
            w_files w1 !! (completedIndexPaths s fp (request_batch rs) fu).1;
  rw_unlocked : w_locks w2 !! (completedIndexPaths s fp (request_batch rs) fu).2 = None;
  rw_gc : gc_recent (w_now w2) (w_lastGC w2) = true;
  rw_fresh : Sub (w_now w2) (w_now w) <= completedTombstoneTTL }.

(** The directories a completed snapshot and its pointers live in. *)
Class CompletedDirs : Prop := completed_dirs :
  completedToolRoot s <> completedRoot s /\ TrimSpace (completedRoot s) <> "" /\ completedTombstoneTTL <= ttl s.

Lemma saved_window os os' o rs rs' es out eph fu w w1 w2 c' :
  CompletedDirs -> TrimSpace (ol_CredentialHash o) = ol_CredentialHash o -> ol_CredentialHash o <> "" ->
  SaveCompleted doc_size os s o rs es eph fu w = (ROk tt, w1) -> newSnapshotOutput es = (out, None) ->
  Forall (fun e => ev_Type e <> EventZero) es -> replay_window (ol_CredentialHash o) rs fu w w1 w2 -> reliable os' ->
  canonicalToolResults rs' = Ok c' -> request_batch rs' = request_batch rs ->
  exists c st, canonicalToolResults rs = Ok c /\ owns s w o st /\
  (LookupCompleted os' s (ol_CredentialHash o) rs' fu w2).1 =
    if bool_decide (toolResultDigest c = toolResultDigest c') then
      ROk {| rp_RequestSegmentID := ol_RequestSegmentID o; rp_SessionID := ol_SessionID o;
             rp_ConversationID := ss_ConversationID st;
             rp_BillingRunID := if bool_decide (ol_BillingRunID o = "") then ss_BillingRunID st else ol_BillingRunID o;
             rp_OriginalBatch := request_batch rs; rp_Events := out;
             rp_HasPending := negb (bool_decide (ss_PendingTools st = [])); rp_FollowUpText := TrimSpace fu |}
    else RFail ErrToolResultConflict.
Proof.
  intros (D1 & D2 & D3) Hcred Hcne Hsave Hout Hty [W1 W2 W3 W4 W5] Hos Hc' Hb.
  destruct (canonicalToolResults rs) as [c|e] eqn:Hc.
  - pose proof (saved_lookup os os' o rs rs' es out eph fu w w1 w2 D1 D2 D3 Hcred Hcne Hsave Hout Hty) as Hl.
    destruct (completedIndexPaths s (ol_CredentialHash o) (request_batch rs) fu) as [p l].
    destruct (Hl W1 W2 W3 Hos W4 W5 c c' Hc Hc' Hb) as (st & H1 & H2). by exists c, st.
  - exfalso. unfold SaveCompleted, mbind, M_bind, gets in Hsave. unfold newCompletedTombstone in Hsave.
    by rewrite Hc in Hsave.
Qed.

(** C8 A repeated request is answered from the saved snapshot: after a segment was
    saved under a free key, the same tool results in any order replay exactly its
    events, under the same session, conversation, billing run and segment; nothing
    is generated twice. *)
Theorem completed_segment_replays (os os' : nat -> outcome) (o : OwnerLease) (rs rs' : list ToolResult)
    (es out : list Event) (eph : bool) (fu : string) (w w1 w2 : World) :
  CompletedDirs -> TrimSpace (ol_CredentialHash o) = ol_CredentialHash o -> ol_CredentialHash o <> "" ->
  SaveCompleted doc_size os s o rs es eph fu w = (ROk tt, w1) -> newSnapshotOutput es = (out, None) ->
  Forall (fun e => ev_Type e <> EventZero) es -> replay_window (ol_CredentialHash o) rs fu w w1 w2 -> reliable os' ->
  rs ≡ₚ rs' ->
  exists st, owns s w o st /\
  (LookupCompleted os' s (ol_CredentialHash o) rs' fu w2).1 =
    ROk {| rp_RequestSegmentID := ol_RequestSegmentID o; rp_SessionID := ol_SessionID o;
           rp_ConversationID := ss_ConversationID st;
           rp_BillingRunID := if bool_decide (ol_BillingRunID o = "") then ss_BillingRunID st else ol_BillingRunID o;
           rp_OriginalBatch := request_batch rs; rp_Events := out;
           rp_HasPending := negb (bool_decide (ss_PendingTools st = [])); rp_FollowUpText := TrimSpace fu |}.
Proof.
  intros HD Hcred Hcne Hsave Hout Hty HW Hos Hp.
  destruct (canonicalToolResults rs') as [c'|e] eqn:Hc'.
  - assert (request_batch rs' = request_batch rs) as Hb.
    { unfold request_batch. apply normalizeToolIDs_ext. intros x. rewrite !elem_normalizeToolIDs. by rewrite Hp. }
    destruct (saved_window os os' o rs rs' es out eph fu w w1 w2 c' HD Hcred Hcne Hsave Hout Hty HW Hos Hc' Hb)
      as (c & st & Hc & H1 & H2). exists st. split; [done|]. rewrite H2.
    apply (canonical_perm rs rs') in Hc; [|done]. assert (c = c') as -> by congruence. by rewrite bool_decide_eq_true_2.
  - exfalso. unfold SaveCompleted, mbind, M_bind, gets in Hsave. unfold newCompletedTombstone in Hsave.
    destruct (canonicalToolResults rs) as [c|] eqn:Hc; [|done]. apply (canonical_perm rs rs') in Hc; [congruence|done].
Qed.

(** C9 Tools are answered once: when a batch was completed with one set of answers, a
    request that answers the same batch with another content or another error mark
    for some call is refused with a conflict and replays nothing.  Answers are
    compared by identifier, content and error mark, so answers that differ only in
    their media are the same answer here; contents without NUL bytes, and a digest
    that does not collide on these two sets, are assumed. *)
Theorem completed_conflict_refused (os os' : nat -> outcome) (o : OwnerLease) (rs rs' : list ToolResult)
    (es out : list Event) (eph : bool) (fu : string) (w w1 w2 : World) (c c' : list CompletedToolResult) :
  CompletedDirs -> TrimSpace (ol_CredentialHash o) = ol_CredentialHash o -> ol_CredentialHash o <> "" ->
  SaveCompleted doc_size os s o rs es eph fu w = (ROk tt, w1) -> newSnapshotOutput es = (out, None) ->
  Forall (fun e => ev_Type e <> EventZero) es -> replay_window (ol_CredentialHash o) rs fu w w1 w2 -> reliable os' ->
  canonicalToolResults rs = Ok c -> canonicalToolResults rs' = Ok c' -> request_batch rs' = request_batch rs ->
  CollisionFree (fun m => m = digest_material c \/ m = digest_material c') ->
  forallb nul_free_result c = true -> forallb nul_free_result c' = true -> ~ Forall2 same_answer c c' ->
  (LookupCompleted os' s (ol_CredentialHash o) rs' fu w2).1 = RFail ErrToolResultConflict.
Proof.
  intros HD Hcred Hcne Hsave Hout Hty HW Hos Hc Hc' Hb Hcf Hn Hn' Hdiff.
  destruct (saved_window os os' o rs rs' es out eph fu w w1 w2 c' HD Hcred Hcne Hsave Hout Hty HW Hos Hc' Hb)
    as (c0 & st & Hc0 & _ & ->). assert (c0 = c) as -> by congruence.
  rewrite bool_decide_eq_false_2; [done|]. intros E. apply Hdiff, digest_material_inj; [done..|].
  apply Hcf; [by left|by right|]. unfold toolResultDigest in E. by injection E.
Qed.
End replay.

(** *** A batch answered, saved and asked for again *)
#[local] Existing Instance sample_digest.
#[export] Instance sample_completed_dirs : CompletedDirs sample_store.
Proof. split_and!; vm_compute; discriminate. Defined.
Lemma all_ok_reliable : reliable all_ok.
Proof. done. Qed.

Definition no_replay : CompletedReplay :=
  {| rp_RequestSegmentID := ""; rp_SessionID := ""; rp_ConversationID := ""; rp_BillingRunID := ""; rp_OriginalBatch := [];
     rp_Events := []; rp_HasPending := false; rp_FollowUpText := "" |}.
Definition sample_out : list Event := (newSnapshotOutput sample_events).1.
Definition answered_world : World :=
  (SaveCompleted no_size all_ok sample_store sample_owner sample_results sample_events false "" claimed_world).2.
(** The same results with another content for "a". *)
Definition other_results : list ToolResult := [tool_result "b" "two"; tool_result "a" "other"].
Definition other_canonical : list CompletedToolResult :=
  match canonicalToolResults other_results with Ok l => l | Fail _ => [] end.

Lemma sample_window : replay_window sample_store "cred" sample_results "" claimed_world answered_world answered_world.
Proof. split; vm_compute; done. Qed.

Lemma completed_segment_replays_witness :
  exists r, (LookupCompleted all_ok sample_store "cred" (reverse sample_results) "" answered_world).1 = ROk r /\
    rp_Events r = sample_out.
Proof.
  destruct (completed_segment_replays no_size sample_store all_ok all_ok sample_owner sample_results (reverse sample_results)
    sample_events sample_out false "" claimed_world answered_world answered_world) as (st & _ & E);
    [exact _|vm_compute; reflexivity|discriminate|vm_compute; reflexivity|vm_compute; reflexivity
    |repeat constructor; discriminate|exact sample_window|exact all_ok_reliable|by rewrite reverse_Permutation|].
  eexists. split; [exact E|reflexivity].
Defined.
Lemma completed_conflict_refused_witness :
  (LookupCompleted all_ok sample_store "cred" other_results "" answered_world).1 = RFail ErrToolResultConflict.
Proof.
  apply (completed_conflict_refused no_size sample_store all_ok all_ok sample_owner sample_results other_results
    sample_events sample_out false "" claimed_world answered_world answered_world sample_canonical other_canonical);
    [exact _|vm_compute; reflexivity|discriminate|vm_compute; reflexivity|vm_compute; reflexivity
    |repeat constructor; discriminate|exact sample_window|exact all_ok_reliable|vm_compute; reflexivity|vm_compute; reflexivity
    |vm_compute; reflexivity|intros x y _ _ E; exact E|vm_compute; reflexivity|vm_compute; reflexivity|].
  intros Hf. vm_compute in Hf. inversion_clear Hf as [|? ? ? ? Ha]. destruct Ha as (_ & Hc & _). discriminate Hc.
Defined.
