(* ===== verification/StoreResolve.v ===== *)
(** * Which session a set of tool results belongs to

    [ResolvePending] only ever names a session that waits for a batch of tools the
    request covers, and after [SavePending] it finds that session. *)
From stdpp Require Import base tactics list gmap strings sorting.
From S2P Require Import Prelude GoStrings Sha256 Connect Data Json Usage EventSnapshot Segment StoreWorld StoreLogic StoreIndex StoreCompleted StoreState StoreLaws StoreProps StoreReplay.
Open Scope Z_scope.

Section resolve.
Context `{Digest} (doc_size : Doc -> Z).
Context (s : FileStateStore) `{!IndexDirs s}.

(** Some state file of the store records session [sid], of this credential, with
    tools pending whose whole batch is [batch]. *)
Definition waits (w : World) (fp : string) (batch : list string) (sid : string) : Prop :=
  exists sid0 f st, w_files w !! statePath s sid0 = Some f /\ f_doc f = DState st /\ ss_SessionID st = sid /\
    ss_CredentialFingerprint st = fp /\ ss_PendingTools st <> [] /\ normalizeToolIDs (stateBatch st) = batch.

Lemma matching_sessions_sound os fp b l w ms w' :
  matching_sessions doc_size os s fp b l w = (ROk ms, w') -> forall sid, sid ∈ ms -> waits w fp b sid.
Proof.
  revert w ms; induction l as [|i l IH]; intros w ms; cbn [matching_sessions]; [intros [= <- _] sid Hs; by apply elem_of_nil in Hs|].
  intros (r & w1 & H1 & E)%bind_ok sid Hsid. unfold attempt in H1.
  pose proof (readState_spec doc_size os (statePath s i) w) as Hr.
  destruct (readState doc_size os (statePath s i) w) as [[x|e|] w1']; [| |done]; destruct Hr as (F & _ & _ & R);
    injection H1 as <- <-.
  - destruct (R x eq_refl) as (f & st & Ef & Ed & ->).
    assert (forall ms', matching_sessions doc_size os s fp b l w1' = (ROk ms', w') -> sid ∈ ms' -> waits w fp b sid) as Hrest.
    { intros ms' E' Hs'. destruct (IH _ _ E' sid Hs') as (j & g & t & G & Hx). exists j, g, t. by rewrite <-F. }
    destruct (negb _ || _) eqn:G1; [by eapply Hrest|]. match type of E with (if ?c then _ else _) _ = _ => destruct c eqn:G2 end; [by eapply Hrest|].
    apply bind_ok in E as (rest & w2 & H2 & E). injection E as <- ->.
    apply elem_of_cons in Hsid as [->|Hsid]; [|by eapply Hrest]. exists i, f, st. cbn in G1, G2. bool_hyps. done.
  - destruct (errors_is e ErrNotExist); [|done]. destruct (IH _ _ E sid Hsid) as (j & g & t & G & Hx). exists j, g, t. by rewrite <-F.
Qed.

Lemma resolvePendingExact_sound os fp b w sid w' :
  resolvePendingExact doc_size os s fp b w = (ROk sid, w') -> waits w fp b sid.
Proof.
  unfold resolvePendingExact. destruct (pendingIndexPaths s fp b) as [p l].
  intros (r & w1 & H1 & E)%bind_ok. assert (w_files w1 = w_files w) as F1.
  { apply map_eq. intros q. destruct (frame_readPendingIndex os (fun _ => True) p w) as [_ F]. unfold attempt in H1.
    destruct (readPendingIndex os p w) as [[x|e|] w2]; [injection H1 as _ <-|injection H1 as _ <-|done]; by apply F. }
  destruct r as [ix|e]; [|by destruct (errors_is e ErrNotExist)]. destruct (_ || _ || _); [done|].
  apply bind_ok in E as (ms & w2 & H2 & E). apply bind_ok in E as ([] & w3 & _ & E).
  destruct ms as [|m [|]]; [done| |done]. injection E as <- _.
  destruct (matching_sessions_sound _ _ _ _ _ _ _ H2 m) as (j & g & t & G & Hx); [by left|]. exists j, g, t. by rewrite <-F1.
Qed.

Lemma covering_loop_sound os fp sub ids cand w b w' :
  covering_loop os s fp sub cand ids w = (ROk b, w') -> b = cand \/ batchSubsetOf b sub = true.
Proof.
  revert w cand; induction ids as [|i ids IH]; intros w cand; cbn [covering_loop]; [intros [= <- _]; by left|].
  intros ([x|e] & w1 & _ & E)%bind_ok.
  - destruct (negb _ || negb _) eqn:G; [by eapply IH|]. bool_hyps.
    destruct (bool_decide (cand = [])); [|destruct (negb _); [done|by eapply IH]].
    apply IH in E as [->|E]; by right.
  - destruct (errors_is e ErrNotExist); [by eapply IH|done].
Qed.

Lemma covering_batch_sound os fp sub w b w' :
  pendingCoveringBatch os s fp sub w = (ROk b, w') -> b <> [] -> batchSubsetOf b sub = true.
Proof. unfold pendingCoveringBatch. intros [->|E]%covering_loop_sound Hb; done. Qed.

Lemma waits_shrinks P {A} (m : M A) w fp b sid :
  Shrinks P m -> (forall i, P (statePath s i)) -> waits (m w).2 fp b sid -> waits w fp b sid.
Proof.
  intros Hm HP (i & f & st & Hf & Hx). destruct (Hm w) as [_ S].
  exists i, f, st. split; [|done]. destruct (S (statePath s i) (HP i)) as [S'|S']; congruence.
Qed.

(** C10 Tool results are never routed to the wrong session: the session
    [ResolvePending] names is recorded on disk under the caller's credential, still
    has tools pending, and the caller submitted every tool of its batch. *)
Theorem resolved_session_waits (os : nat -> outcome) (fp : string) (ids : list string) (w w' : World) (sid : string) :
  ResolvePending doc_size os s fp ids w = (ROk sid, w') ->
  exists batch, waits w (TrimSpace fp) batch sid /\ (forall id, id ∈ batch -> id ∈ normalizeToolIDs ids).
Proof.
  unfold ResolvePending. destruct (_ || _); [done|]. destruct (bool_decide (normalizeToolIDs ids = [])); [done|].
  intros ([] & w1 & H1 & E)%bind_ok. set (fp' := TrimSpace fp) in *. set (b := normalizeToolIDs ids) in *.
  assert (forall batch, waits w1 fp' batch sid -> waits w fp' batch sid) as Hw.
  { intros batch Hx. apply (waits_shrinks (state_file s) (pruneExpired doc_size os s false)).
    - by apply shrinks_pruneExpired.
    - apply state_file_path.
    - by rewrite H1. }
  apply bind_ok in E as (r & w2 & H2 & E). unfold attempt in H2.
  destruct (resolvePendingExact doc_size os s fp' b w1) as [[x|e|] w2'] eqn:R; [..|done]; injection H2 as <- <-.
  { injection E as <- <-. exists b. split; [|done]. by eapply Hw, resolvePendingExact_sound. }
  destruct (negb _); [done|]. apply bind_ok in E as (c & w3 & H3 & E). destruct (_ || _) eqn:G; [done|]. bool_hyps.
  pose proof (covering_batch_sound _ _ _ _ _ _ H3 ltac:(done)) as [_ Hc]%batchSubsetOf_spec.
  apply resolvePendingExact_sound in E. exists c. split.
  - apply Hw. apply (waits_shrinks (state_file s) (resolvePendingExact doc_size os s fp' b));
      [by apply shrinks_frame, frame_resolvePendingExact|apply state_file_path|]. rewrite R. cbn [snd].
    apply (waits_shrinks (state_file s) (pendingCoveringBatch os s fp' b)); [|apply state_file_path|by rewrite H3].
    apply shrinks_frame. by apply frame_covering_loop.
  - intros id Hid. destruct E as (i & f & st & _ & _ & _ & _ & _ & Eb). specialize (Hc id).
    rewrite <-Eb, normalizeToolIDs_idemp, Eb in Hc. unfold b in Hc. rewrite normalizeToolIDs_idemp in Hc. by apply Hc.
Qed.

(** ** The other direction: a waiting session is found *)

Class PendingDirs : Prop := pending_dirs : pendingToolRoot s <> pendingRoot s /\ TrimSpace (root s) <> "".

(** The first session of a batch gets an index file that names it alone. *)
Lemma mutate_add_spec os fp b sid w w' :
  PendingDirs -> mutatePendingIndex os s fp b sid true w = (ROk tt, w') ->
  w_files w !! (pendingIndexPaths s fp b).1 = None ->
  exists f t, w_files w' !! (pendingIndexPaths s fp b).1 = Some f /\
    f_doc f = DIndex {| pi_Version := stateVersion; pi_CredentialFingerprint := fp; pi_BatchIDs := normalizeToolIDs b;
                        pi_SessionIDs := [sid]; pi_UpdatedAt := t |}.
Proof.
  intros [Hd _]. unfold mutatePendingIndex. destruct (pendingIndexPaths s fp b) as [p l] eqn:Ep. cbn [fst]. cbv zeta.
  assert (exists name, p = (pendingRoot s, FJson name)) as [name Hp] by (unfold pendingIndexPaths in Ep; injection Ep as <- _; eauto).
  intros E Hnone. unfold with_index_lease in E. apply bind_ok in E as (h & w1 & H1 & E).
  destruct (frame_acquirePending os (fun _ => True) l w) as [_ F1]. rewrite H1 in F1. cbn [snd] in F1.
  apply deferred_ok in E as (w2 & E & ->). apply bind_ok in E as (r & w3 & H3 & E).
  destruct (frame_readPendingIndex os (fun _ => True) p w1) as [_ F3].
  assert (w_files w3 !! p = None /\ (r = Fail ErrNotExist \/ exists e, r = Fail e /\ errors_is e ErrNotExist = false)) as [F4 Hr].
  { revert H3 F3. unfold attempt, readPendingIndex, read_doc, sys, mbind, M_bind, gets, mret, M_ret, fail.
    destruct (os (w_os w1)); cbn [tick w_files]; [|intros [= <- <-] _; split; [cbn [tick w_files]; by rewrite F1|right; by exists (ErrOS "read")]|done].
    rewrite F1 by done. rewrite Hnone. intros [= <- <-] _. cbn [tick w_files]. rewrite F1 by done. by split; [|left]. }
  apply bind_ok in E as (ix & w4 & H4 & E). destruct Hr as [->|(e & -> & He)]; [|by rewrite He in H4].
  injection H4 as <- <-. cbn [pi_CredentialFingerprint pi_BatchIDs pi_SessionIDs pi_Version] in E.
  rewrite !bool_decide_eq_true_2 in E by done. cbn [negb orb] in E.
  assert (mutated_sessions [] sid true = [sid]) as Hm.
  { unfold mutated_sessions. cbn [List.filter list_to_set]. rewrite union_empty_r_L, elements_singleton. by vm_compute. }
  rewrite Hm in E. cbn [bool_decide] in E. apply bind_ok in E as ([] & w5 & H5 & E).
  assert (FileFrame (fun q => q = p) (writePendingToolPointers os s fp b)) as Hf.
  { assert (NoTemp (fun q => q = p)) as Hnt by (intros d n Hq; by rewrite Hp in Hq).
    unfold writePendingToolPointers, pendingToolPointerPaths. cbv beta iota zeta. frame.
    unfold writeToolBatchPointerAt, writePrivateFileAtomic. apply frame_with_index_lease, frame_replace_file; [done|].
    rewrite Hp. intros [= Hx _]. done. }
  destruct (_ <? _) in E; [done|]. apply bind_ok in E as (now & w6 & H6 & E). injection H6 as <- <-.
  unfold writePendingIndexAtomic in E. lazymatch type of E with replace_file _ _ _ ?d ?x = _ =>
    pose proof (replace_file_atomic os plainError (pendingRoot s) name d x) as Ha end.
  cbv zeta in Ha. rewrite <-Hp, E in Ha. destruct Ha as [_ [[_ Ha]|Ha]]; [done|].
  eexists _, _. split; [exact Ha|done].
Qed.

(** An index file that lists only [st]'s session, and that session's state file, waiting. *)
Record listed (fp : string) (ids : list string) (st : StateSnapshot) (w : World) : Prop := {
  li_index : exists f t, w_files w !! (pendingIndexPaths s fp ids).1 = Some f /\
    f_doc f = DIndex {| pi_Version := stateVersion; pi_CredentialFingerprint := fp; pi_BatchIDs := normalizeToolIDs ids;
                        pi_SessionIDs := [ss_SessionID st]; pi_UpdatedAt := t |};
  li_state : exists f, w_files w !! statePath s (ss_SessionID st) = Some f /\ f_doc f = DState st;
  li_size : doc_size (DState st) <= maxStateFileSize;
  li_version : ss_Version st = stateVersion;
  li_credential : ss_CredentialFingerprint st = fp;
  li_pending : ss_PendingTools st <> [];
  li_batch : normalizeToolIDs (stateBatch st) = normalizeToolIDs ids }.

Lemma readState_reliable os p f st w :
  reliable os -> w_files w !! p = Some f -> f_doc f = DState st -> ss_Version st = stateVersion ->
  doc_size (DState st) <= maxStateFileSize -> exists w', readState doc_size os p w = (ROk (set_ss_Version stateVersion st), w').
Proof.
  intros Hos Hf Hd Hv Hsz. unfold readState, mbind, M_bind.
  destruct (read_doc_reliable os Hos "stat" p f w Hf) as (w1 & -> & F1 & _).
  rewrite Hd. rewrite (proj2 (Z.ltb_ge _ _)) by done. rewrite <-F1 in Hf.
  destruct (read_doc_reliable os Hos "read" p f w1 Hf) as (w2 & -> & _). rewrite Hd, Hv. by eexists.
Qed.

Lemma resolve_exact_listed os fp ids st w :
  reliable os -> listed fp ids st w ->
  (resolvePendingExact doc_size os s fp (normalizeToolIDs ids) w).1 = ROk (ss_SessionID st).
Proof.
  intros Hos [(f & t & Hf & Hd) (g & Hg & Hgd) Hsz Hv Hc Hp Hb]. unfold resolvePendingExact.
  assert (pendingIndexPaths s fp (normalizeToolIDs ids) = pendingIndexPaths s fp ids) as ->
    by (unfold pendingIndexPaths; by rewrite normalizeToolIDs_idemp).
  destruct (pendingIndexPaths s fp ids) as [p l]. cbn [fst] in Hf.
  unfold mbind at 1, M_bind at 1, attempt at 1, readPendingIndex, mbind at 1, M_bind at 1.
  destruct (read_doc_reliable os Hos "read" p f w Hf) as (w1 & -> & F1 & _). rewrite Hd.
  unfold mbind at 1, M_bind at 1, lift at 1. cbn [pi_Version migrateRecordVersion].
  change (migrateRecordVersion stateVersion) with (Ok stateVersion). cbn [pi_CredentialFingerprint pi_BatchIDs pi_SessionIDs].
  unfold mret at 1, M_ret at 1. unfold mret at 1, M_ret at 1. cbn [pi_CredentialFingerprint pi_BatchIDs pi_SessionIDs].
  rewrite normalizeToolIDs_idemp, !bool_decide_eq_true_2 by done.
  rewrite (bool_decide_eq_false_2 ([ss_SessionID st] = [])) by done. cbn [negb orb].
  rewrite <-F1 in Hg. destruct (readState_reliable os _ g st w1 Hos Hg Hgd Hv Hsz) as (w2 & E2).
  cbn [matching_sessions]. unfold mbind at 1, M_bind at 1. unfold mbind at 1, M_bind at 1, attempt at 1.
  rewrite E2.
  cbn [set_ss_Version ss_CredentialFingerprint ss_PendingTools ss_SessionID].
  change (stateBatch (set_ss_Version stateVersion st)) with (stateBatch st).
  rewrite (bool_decide_eq_true_2 (ss_CredentialFingerprint st = fp)), (bool_decide_eq_false_2 (ss_PendingTools st = [])) by done.
  rewrite Hb, bool_decide_eq_true_2 by done. cbn [negb orb].
  unfold mbind, M_bind, mret, M_ret. cbn [for_each]. rewrite bool_decide_eq_true_2 by set_solver. done.
Qed.

Lemma resolve_listed os fp ids st w :
  reliable os -> PendingDirs -> TrimSpace fp = fp -> fp <> "" -> normalizeToolIDs ids <> [] ->
  gc_recent (w_now w) (w_lastGC w) = true -> listed fp ids st w ->
  (ResolvePending doc_size os s fp ids w).1 = ROk (ss_SessionID st).
Proof.
  intros Hos [_ Hroot] Hfp Hne Hids Hgc Hl. assert (ids <> []) as Hids' by (by intros ->).
  unfold ResolvePending. rewrite Hfp, !bool_decide_eq_false_2 by done. cbn [orb].
  assert (pruneExpired doc_size os s false w = (ROk tt, w)) as Hpr.
  { unfold pruneExpired. destruct (ttl s <=? 0); [done|]. unfold mbind, M_bind, gets. cbv beta iota. by rewrite Hgc. }
  unfold mbind at 1, M_bind at 1. rewrite Hpr. pose proof (resolve_exact_listed os fp ids st w Hos Hl) as Hr.
  unfold mbind, M_bind, attempt. destruct (resolvePendingExact doc_size os s fp (normalizeToolIDs ids) w) as [r w1].
  cbn [fst] in Hr. by subst r.
Qed.

(** An owner's update touches no file but its state file and those of the closure. *)
Lemma frame_update {A} os P o (mutate : StateSnapshot -> M (A * StateSnapshot)) :
  NoTemp P -> ~ P (statePath s (ol_SessionID o)) -> (forall x, FileFrame P (mutate x)) ->
  FileFrame P (update doc_size os s o mutate).
Proof.
  intros HP Hn Hm. unfold update, withOwner, writeStateAtomic.
  pose proof (fun p => frame_readState doc_size os P p) as F1.
  pose proof (fun x => frame_replace_file os P wrapState (statePath s (ol_SessionID o)) (DState x) Hn) as F2. frame.
Qed.

(** What a successful [SavePending] of a first batch leaves on disk. *)
Lemma SavePending_listed os o pending w w' :
  PendingDirs -> SavePending doc_size os s o pending w = (ROk tt, w') ->
  let ids := pendingToolIDs pending in
  normalizeToolIDs ids <> [] -> w_files w !! (pendingIndexPaths s (ol_CredentialHash o) ids).1 = None ->
  exists st, owns s w o st /\
  let st' := touch (w_now w) (set_work (set_ss_Version stateVersion st) (ss_Checkpoint st) (ss_Blobs st) pending ids) in
  (ss_PendingBatchIDs st = [] ->
   (forall f, w_files w' !! statePath s (ol_SessionID o) = Some f -> doc_size (f_doc f) <= maxStateFileSize) ->
   listed (ol_CredentialHash o) ids st' w').
Proof.
  intros HD. unfold SavePending. set (f := fun current : StateSnapshot => _). cbv zeta. intros (bs & w1 & H1 & E)%bind_ok Hids Hnone.
  set (ids := pendingToolIDs pending) in *. set (fp := ol_CredentialHash o) in *.
  pose proof (update_cases doc_size s os o f w) as Hu. rewrite H1 in Hu. destruct Hu as (C1 & _ & Hu);
    [intros x; unfold f; destruct (validatePendingTools _); apply _|].
  destruct Hu as [(_ & Hr & _)|(st & w0 & a & x & w2 & Hown & _ & _ & Hm & _ & Hf & Ha)]; [by destruct (Hr bs)|].
  exists st. split; [done|]. intros Hprev Hsz. rewrite (Ha bs eq_refl) in E. clear Ha.
  unfold f in Hm. destruct (validatePendingTools pending); [done|]. injection Hm as <- <- <-. cbn [fst snd] in E.
  assert (pending <> []) as Hne by (by intros ->).
  assert (next_batch (set_ss_Version stateVersion st) pending = ids) as Hnext.
  { unfold next_batch. rewrite bool_decide_eq_false_2 by done. cbn [set_ss_Version ss_PendingBatchIDs].
    by rewrite Hprev, bool_decide_eq_true_2. }
  rewrite Hnext in *. cbn [set_ss_Version ss_PendingBatchIDs ss_Checkpoint ss_Blobs] in *. rewrite Hprev in E.
  destruct Hown as [Hlive (g & Hg & Hgd) Hmatch]. unfold ownerMatches in Hmatch. bool_hyps.
  unfold syncPendingIndex in E. change (normalizeToolIDs []) with (@nil string) in E.
  rewrite (bool_decide_eq_true_2 ([] = [])), (bool_decide_eq_false_2 (normalizeToolIDs ids = [])) in E by done.
  cbn [negb andb] in E. apply bind_ok in E as ([] & w3 & Hs3 & E). injection Hs3 as <-.
  assert (pendingIndexPaths s fp (normalizeToolIDs ids) = pendingIndexPaths s fp ids) as Hpath
    by (unfold pendingIndexPaths; by rewrite normalizeToolIDs_idemp).
  assert (w_files w1 !! (pendingIndexPaths s fp ids).1 = None) as Hnone1.
  { assert (FileFrame (fun q => q = (pendingIndexPaths s fp ids).1) (update doc_size os s o f)) as Hf0.
    { apply frame_update; [by intros d n| |].
      - intros [= Hx _]. destruct (index_dirs (s:=s)) as (D & _). done.
      - intros x. unfold f. destruct (validatePendingTools pending); apply _. }
    destruct (Hf0 w) as [_ F]. rewrite H1 in F. by rewrite F. }
  rewrite <-Hpath in Hnone1. destruct (mutate_add_spec _ _ _ _ _ _ HD E Hnone1) as (f1 & t1 & Hf1 & Hd1).
  rewrite Hpath, normalizeToolIDs_idemp in *.
  destruct (frame_mutatePendingIndex os s (state_file s) ltac:(done) fp (normalizeToolIDs ids) (ol_SessionID o) true w1) as [_ F].
  rewrite E in F. cbn [snd] in F.
  rewrite F in Hsz by apply state_file_path. specialize (Hsz _ Hf). cbn [f_doc] in Hsz.
  split; cbn [touch set_times set_work ss_SessionID ss_Version ss_CredentialFingerprint ss_PendingTools set_ss_Version]; try done.
  - exists f1, t1. split; [done|]. by rewrite Hd1, H0.
  - eexists. rewrite F by apply state_file_path. rewrite H0. split; [exact Hf|done].
  - unfold stateBatch. cbn [touch set_times set_work ss_PendingBatchIDs]. rewrite bool_decide_eq_false_2; [done|by intros ->].
Qed.

(** C11 A session that waits for tools is found again: after [SavePending] recorded a
    first batch that no other session waits for, in a state file no larger than
    readers accept, any later request that submits the same identifiers, in any
    order and with any spacing, resolves to that session. *)
Theorem pending_batch_resolves (os os' : nat -> outcome) (o : OwnerLease) (pending : list PendingTool)
    (ids : list string) (w w1 w2 : World) :
  PendingDirs -> SavePending doc_size os s o pending w = (ROk tt, w1) ->
  TrimSpace (ol_CredentialHash o) = ol_CredentialHash o -> ol_CredentialHash o <> "" ->
  let index := (pendingIndexPaths s (ol_CredentialHash o) (pendingToolIDs pending)).1 in
  let state := statePath s (ol_SessionID o) in
  w_files w !! index = None -> w_files w2 !! index = w_files w1 !! index -> w_files w2 !! state = w_files w1 !! state ->
  gc_recent (w_now w2) (w_lastGC w2) = true -> reliable os' ->
  (forall f, w_files w1 !! state = Some f -> doc_size (f_doc f) <= maxStateFileSize) ->
  (forall st, owns s w o st -> ss_PendingBatchIDs st = []) ->
  normalizeToolIDs ids = normalizeToolIDs (pendingToolIDs pending) -> normalizeToolIDs ids <> [] ->
  (ResolvePending doc_size os' s (ol_CredentialHash o) ids w2).1 = ROk (ol_SessionID o).
Proof.
  intros HD Hsave Hcred Hcne index state Hfree Hindex Hstate Hgc Hos Hsz Hprev Hids Hne.
  destruct (SavePending_listed os o pending w w1 HD Hsave) as (st & Hown & Hl); [by rewrite <-Hids|done|].
  cbv zeta in Hl. specialize (Hl (Hprev st Hown) Hsz). destruct Hown as [_ _ Hmatch].
  unfold ownerMatches in Hmatch. bool_hyps. rewrite <-H0. set (st' := touch _ _) in Hl.
  change (ss_SessionID st) with (ss_SessionID st'). apply resolve_listed; try done.
  assert (pendingIndexPaths s (ol_CredentialHash o) ids = pendingIndexPaths s (ol_CredentialHash o) (pendingToolIDs pending)) as Hp
    by (unfold pendingIndexPaths; by rewrite Hids).
  destruct Hl as [L1 L2 L3 L4 L5 L6 L7]. split; try done.
  - rewrite Hp, Hids. unfold index in Hindex. by rewrite Hindex.
  - change (ss_SessionID st') with (ss_SessionID st) in *. rewrite H0 in *. unfold state in Hstate. by rewrite Hstate.
  - by rewrite Hids.
Qed.
End resolve.

(** *** A session that asks for two tools *)
#[local] Existing Instance sample_digest.
Definition pending_tool (id : string) : PendingTool :=
  {| pt_MessageID := 0; pt_ExecID := ""; pt_ToolCallID := id; pt_UpstreamToolCallID := ""; pt_Name := "tool"; pt_Arguments := "{}" |}.
Definition sample_pending : list PendingTool := [pending_tool "b"; pending_tool "a"].
(** The size of a state grows with what it holds, without a bound. *)
Definition sample_size (d : Doc) : Z :=
  match d with
  | DState x => 400 + 2 * blen (ss_Checkpoint x) + foldr (fun t a => 100 + len (pt_Arguments t) + len (pt_ToolCallID t) + a) 0 (ss_PendingTools x)
  | _ => 100
  end.
Definition pending_world : World := (SavePending sample_size all_ok sample_store sample_owner sample_pending claimed_world).2.

Lemma pending_batch_resolves_witness :
  (ResolvePending sample_size all_ok sample_store "cred" [" a "; "b"] pending_world).1 = ROk "session".
Proof.
  apply (pending_batch_resolves sample_size sample_store all_ok all_ok sample_owner sample_pending [" a "; "b"]
    claimed_world pending_world pending_world);
    [|vm_compute; reflexivity|vm_compute; reflexivity|discriminate|vm_compute; reflexivity|reflexivity|reflexivity
    |vm_compute; reflexivity|exact all_ok_reliable| | |vm_compute; reflexivity|vm_compute; discriminate].
  - split; vm_compute; discriminate.
  - intros f Hf. vm_compute in Hf. injection Hf as <-. vm_compute. discriminate.
  - intros st [_ (f & Hf & Hd) _]. vm_compute in Hf. injection Hf as <-. cbn [f_doc] in Hd. injection Hd as <-. reflexivity.
Defined.
Lemma resolved_session_waits_witness :
  exists batch, waits sample_store pending_world "cred" batch "session" /\ (forall id, id ∈ batch -> id ∈ normalizeToolIDs ["a"; "b"]).
Proof.
  apply (resolved_session_waits sample_size sample_store all_ok "cred" ["a"; "b"] pending_world
    (ResolvePending sample_size all_ok sample_store "cred" ["a"; "b"] pending_world).2).
  vm_compute. reflexivity.
Defined.
