(* ===== verification/JsonValue.v ===== *)
(** * Decoded JSON (what src/internal/jsonx hands to the code)

    The values of Go's [any] that the JSON decoders and the request translation
    produce, the type assertions the code makes on them, and the JSON library as
    an interface.  [src/internal/jsonx] only forwards to [encoding/json]. *)
From stdpp Require Import base tactics list gmap strings sorting.
From Stdlib Require Import Strings.Byte.
From S2P Require Import Prelude GoStrings.
Open Scope Z_scope.

(** A finite [float64] is [mantissa * 2 ^ exponent]; a map lists its entries, with
    distinct keys, in the order an iteration visits them. *)
Inductive any : Type :=
  | AnyNil | AnyBool (b : bool) | AnyInt (z : Z) | AnyFloat (mantissa exponent : Z)
  | AnyNumber (text : string) | AnyString (s : string) | AnyList (l : list any)
  | AnyMap (entries : list (string * any)).
Abbreviation object := (list (string * any)).

Fixpoint any_eqb (x y : any) : bool :=
  match x, y with
  | AnyNil, AnyNil => true
  | AnyBool a, AnyBool b => Bool.eqb a b
  | AnyInt a, AnyInt b => a =? b
  | AnyFloat a c, AnyFloat b d => (a =? b) && (c =? d)
  | AnyNumber a, AnyNumber b | AnyString a, AnyString b => String.eqb a b
  | AnyList l, AnyList k =>
      (fix go l k := match l, k with [], [] => true | x :: l, y :: k => any_eqb x y && go l k | _, _ => false end) l k
  | AnyMap l, AnyMap k =>
      (fix go l k := match l, k with
         | [], [] => true
         | (a, x) :: l, (b, y) :: k => String.eqb a b && any_eqb x y && go l k
         | _, _ => false end) l k
  | _, _ => false
  end.

Lemma any_eqb_eq : forall x y, any_eqb x y = true -> x = y.
Proof.
  fix IH 1. intros x y. destruct x, y; cbn [any_eqb]; try discriminate; intros E; try done.
  - f_equal. by apply Bool.eqb_prop.
  - f_equal. by apply Z.eqb_eq.
  - apply andb_prop in E as [E1 E2]. f_equal; by apply Z.eqb_eq.
  - f_equal. by apply String.eqb_eq.
  - f_equal. by apply String.eqb_eq.
  - f_equal. revert l0 E. induction l as [|x l IHl]; intros [|y k] E; try discriminate; [done|].
    apply andb_prop in E as [E1 E2]. f_equal; [by apply IH|by apply IHl].
  - f_equal. revert entries0 E. induction entries as [|[a x] l IHl]; intros [|[b y] k] E; try discriminate; [done|].
    apply andb_prop in E as [[E1 E2]%andb_prop E3]. f_equal; [|by apply IHl]. f_equal; [by apply String.eqb_eq|by apply IH].
Qed.

(** [m[key]]: nil when the key is absent, or present with a null. *)
Definition map_find (m : object) (key : string) : option any :=
  match List.find (fun e => bool_decide (e.1 = key)) m with Some e => Some e.2 | None => None end.
Definition map_get (m : object) (key : string) : any := default AnyNil (map_find m key).
(** [m[key] = value] on a copy. *)
Definition map_delete (m : object) (key : string) : object := List.filter (fun e => negb (bool_decide (e.1 = key))) m.
Definition map_set (m : object) (key : string) (value : any) : object := map_delete m key ++ [(key, value)].

(** Type assertions [x, ok := v.(T)]. *)
Definition as_string (v : any) : option string := match v with AnyString s => Some s | _ => None end.
Definition as_list (v : any) : option (list any) := match v with AnyList l => Some l | _ => None end.
Definition as_map (v : any) : option object := match v with AnyMap m => Some m | _ => None end.
Definition as_bool (v : any) : option bool := match v with AnyBool b => Some b | _ => None end.

(** translate.go's [stringValue] and [boolValue]. *)
Definition stringValue (value : any) : string :=
  match value with AnyString s => TrimSpace s | _ => "" end.
Definition boolValue (value : any) : bool := match value with AnyBool b => b | _ => false end.

(** ** The JSON library

    [json.Unmarshal] of one value, [json.Marshal], [json.Valid]. *)
Class JSON := {
  json_unmarshal : bytes -> option any;
  json_marshal : any -> option bytes;
  json_valid : bytes -> bool }.

(** [Unmarshal] into a [map[string]any]: an object, or null. *)
Definition unmarshal_map `{JSON} (data : bytes) : option object :=
  match json_unmarshal data with Some (AnyMap m) => Some m | Some AnyNil => Some [] | _ => None end.

Lemma map_find_set_eq m k v : map_find (map_set m k v) k = Some v.
Proof.
  unfold map_find, map_set, map_delete. induction m as [|[k' v'] m IH]; cbn [List.filter app List.find fst].
  - by rewrite bool_decide_eq_true_2.
  - destruct (bool_decide (k' = k)) eqn:E; cbn [negb app List.find fst]; [done|]. by rewrite E.
Qed.
Lemma map_find_set_ne m k k' v : k <> k' -> map_find (map_set m k v) k' = map_find m k'.
Proof.
  intros Hn. unfold map_find, map_set, map_delete.
  induction m as [|[j w] m IH]; cbn [List.filter app List.find fst]; [by rewrite bool_decide_eq_false_2|].
  destruct (decide (j = k)) as [->|Hj].
  - rewrite (bool_decide_eq_true_2 (k = k)), (bool_decide_eq_false_2 (k = k')) by done. exact IH.
  - rewrite (bool_decide_eq_false_2 (j = k)) by done. cbn [negb app List.find fst]. by destruct (bool_decide (j = k')).
Qed.

(** ** A small codec for examples
    [unmarshal] finds [root] in whatever it is given; [marshal] prints JSON whose
    strings need no escapes. *)
Definition quoted (s : string) : string := of_bytes ([x22] ++ to_bytes s ++ [x22]).
Fixpoint show_json (v : any) : string :=
  match v with
  | AnyNil => "null"
  | AnyBool b => if b then "true" else "false"
  | AnyInt z => Itoa z
  | AnyFloat m e => Itoa m +:+ "e" +:+ Itoa e
  | AnyNumber text => text
  | AnyString s => quoted s
  | AnyList l => "[" +:+ Join ((fix go l := match l with [] => [] | x :: l => show_json x :: go l end) l) "," +:+ "]"
  | AnyMap l => "{" +:+ Join ((fix go l := match l with [] => [] | (k, x) :: l => (quoted k +:+ ":" +:+ show_json x) :: go l end) l) "," +:+ "}"
  end.
Definition table_json (root : any) : JSON :=
  {| json_unmarshal _ := Some root; json_marshal v := Some (to_bytes (show_json v)); json_valid _ := true |}.
