(* ===== verification/HostedPolicy.v ===== *)
(** * Hosted web tools: declarations, limits and domain rules (src/cursoragentv1/hosted_policy.go)

    What a caller may declare on a server web tool, how several declarations are
    summarised into one policy of a run, and which URLs a domain policy permits.
    [net/url] parsing and the case mapping of non-ASCII text are parameters. *)
From stdpp Require Import base tactics list gmap strings sorting.
From Stdlib Require Import Strings.Byte.
From S2P Require Import Prelude GoStrings JsonValue.
Open Scope Z_scope.

(** The integer a [float64] equals, if any. *)
Definition float_integer (m e : Z) : option Z :=
  if 0 <=? e then Some (m * 2 ^ e)
  else if m mod 2 ^ (- e) =? 0 then Some (m / 2 ^ (- e)) else None.

(** [strconv.ParseInt(s, 10, 64)]. *)
Definition digit_of (b : byte) : option Z :=
  let n := Z.of_N (Byte.to_N b) in if (48 <=? n) && (n <=? 57) then Some (n - 48) else None.
Fixpoint parse_digits (acc : Z) (l : bytes) : option Z :=
  match l with
  | [] => Some acc
  | b :: l => match digit_of b with Some d => parse_digits (acc * 10 + d) l | None => None end
  end.
Definition parse_int64 (s : string) : option Z :=
  let '(neg, digits) := match to_bytes s with
    | x2d%byte :: r => (true, r) | x2b%byte :: r => (false, r) | r => (false, r) end in
  if bool_decide (digits = []) then None
  else match parse_digits 0 digits with
       | Some n => let z := if neg : bool then - n else n in
                   if (min_i64 <=? z) && (z <=? max_i64) then Some z else None
       | None => None
       end.

Definition errHostedMaxUses : Err := ErrMsg "hosted max_uses must be a non-negative integer".

(** [int64(typed)] of an integral [float64]; 2^63 passes the bound check because
    [float64(math.MaxInt)] rounds up, and converting it is implementation-specific. *)
Definition nonNegativeIntFromJSON (overflowed : Z) (value : any) : result (option Z) :=
  let checked number :=
    if (number <? 0) || (max_i64 <? number) then Fail errHostedMaxUses else Ok (Some number) in
  match value with
  | AnyNil => Ok None
  | AnyInt z => checked z
  | AnyFloat m e =>
      match float_integer m e with
      | None => Fail errHostedMaxUses
      | Some z => if (z <? 0) || (2 ^ 63 <? z) then Fail errHostedMaxUses
                  else checked (if z =? 2 ^ 63 then overflowed else z)
      end
  | AnyNumber text => match parse_int64 text with Some z => checked z | None => Fail errHostedMaxUses end
  | _ => Fail errHostedMaxUses
  end.

Fixpoint domain_items (l : list any) : option (list string) :=
  match l with
  | [] => Some []
  | AnyString s :: l =>
      match domain_items l with
      | Some ds => Some (if bool_decide (TrimSpace s = "") then ds else TrimSpace s :: ds)
      | None => None
      end
  | _ :: _ => None
  end.
Definition domainListFromJSON (value : any) : option (list string) :=
  match value with AnyNil => Some [] | AnyList l => domain_items l | _ => None end.

(** ** Domain rules *)

Record hostedDomainPolicy := { dp_Allowed : list string; dp_Blocked : list string }.
Definition no_domains : hostedDomainPolicy := {| dp_Allowed := []; dp_Blocked := [] |}.

Definition restricts (p : hostedDomainPolicy) : bool :=
  negb (bool_decide (dp_Allowed p = [])) || negb (bool_decide (dp_Blocked p = [])).

Definition append_unique (base : list string) (value : string) : list string :=
  let value := TrimSpace value in
  if bool_decide (value = "") then base
  else if bool_decide (value ∈ base) then base else base ++ [value].
Definition appendUniqueStrings (base values : list string) : list string := fold_left append_unique values base.

Definition merge_domains (p next : hostedDomainPolicy) : hostedDomainPolicy :=
  {| dp_Allowed := appendUniqueStrings (dp_Allowed p) (dp_Allowed next);
     dp_Blocked := appendUniqueStrings (dp_Blocked p) (dp_Blocked next) |}.

(** [strings.Cut(s, "/")], without the flag. *)
Fixpoint cut_slash (l : bytes) : bytes * bytes :=
  match l with
  | [] => ([], [])
  | x2f%byte :: r => ([], r)
  | b :: r => let '(h, t) := cut_slash r in (b :: h, t)
  end.

Definition is_ascii (s : string) : bool := forallb (fun b => (Byte.to_N b <? 128)%N) (to_bytes s).

Section domains.
(** [strings.ToLower] of text that is not all ASCII, and [url.Parse] giving the
    host name and the escaped path. *)
Context (unicode_lower : string -> string).
Context (parse_url : string -> option (string * string)).

Definition lower (s : string) : string := if is_ascii s then ToLower s else unicode_lower s.

(** The host and the path a rule asks for. *)
Definition rule_parts (rule : string) : string * string :=
  let rule := lower (TrimSpace rule) in
  let rule := TrimPrefix (TrimPrefix rule "https://") "http://" in
  let '(ruleHost, rulePath) := cut_slash (to_bytes rule) in
  (TrimPrefix (of_bytes ruleHost) "www.", of_bytes rulePath).

Definition rule_matches (host path rule : string) : bool :=
  let '(ruleHost, rulePath) := rule_parts rule in
  let candidate := TrimPrefix host "www." in
  if bool_decide (ruleHost = "") then false
  else if negb (bool_decide (candidate = ruleHost)) && negb (HasSuffix candidate ("." +:+ ruleHost)) then false
  else if bool_decide (rulePath = "") then true
  else HasPrefix (TrimPrefix path "/") (TrimSuffix rulePath "/").

Definition permits (p : hostedDomainPolicy) (rawURL : string) : bool :=
  if negb (restricts p) then true
  else match parse_url (TrimSpace rawURL) with
       | None => false
       | Some (hostname, path) =>
           if bool_decide (hostname = "") then false
           else
             let host := lower hostname in
             if existsb (rule_matches host path) (dp_Blocked p) then false
             else if bool_decide (dp_Allowed p = []) then true
             else existsb (rule_matches host path) (dp_Allowed p)
       end.
End domains.

(** ** Declarations *)

Record hostedDeclaredTool := {
  ht_Kind : string; ht_Name : string; ht_MaxUses : option Z; ht_Domains : hostedDomainPolicy }.

Definition knownServerWebKind (typeName : string) : string :=
  let typeName := ToLower (TrimSpace typeName) in
  if HasPrefix typeName "web_search_" then "search"
  else if HasPrefix typeName "web_fetch_" then "fetch" else "".

Definition unprocessable (text : string) : Err := ErrRequest 422 text.

Definition set_uses (uses : option Z) (d : hostedDeclaredTool) : hostedDeclaredTool :=
  {| ht_Kind := ht_Kind d; ht_Name := ht_Name d; ht_MaxUses := uses; ht_Domains := ht_Domains d |}.
Definition set_domains (p : hostedDomainPolicy) (d : hostedDeclaredTool) : hostedDeclaredTool :=
  {| ht_Kind := ht_Kind d; ht_Name := ht_Name d; ht_MaxUses := ht_MaxUses d; ht_Domains := p |}.

Definition apply_field (overflowed : Z) (declared : hostedDeclaredTool) (key : string) (value : any)
    : result hostedDeclaredTool :=
  if bool_decide (key ∈ ["type"; "name"; "input_schema"; "cache_control"]) then Ok declared
  else if bool_decide (key ∈ ["user_location"; "citations"; "max_content_tokens"]) then Ok declared
  else if bool_decide (key = "max_uses") then
    match nonNegativeIntFromJSON overflowed value with
    | Fail _ => Fail (unprocessable "Cursor Agent v1 hosted search max_uses must be a non-negative integer")
    | Ok uses => Ok (set_uses uses declared)
    end
  else if bool_decide (key ∈ ["allowed_domains"; "blocked_domains"]) then
    match domainListFromJSON value with
    | None => Fail (unprocessable ("Cursor Agent v1 hosted search " +:+ key +:+ " must be a list of domains"))
    | Some domains =>
        Ok (set_domains (if bool_decide (key = "allowed_domains")
          then {| dp_Allowed := domains; dp_Blocked := dp_Blocked (ht_Domains declared) |}
          else {| dp_Allowed := dp_Allowed (ht_Domains declared); dp_Blocked := domains |}) declared)
    end
  else Fail (unprocessable "Cursor Agent v1 hosted search cannot faithfully apply extra server-tool fields").

Fixpoint apply_fields (overflowed : Z) (declared : hostedDeclaredTool) (entries : list (string * any))
    : result hostedDeclaredTool :=
  match entries with
  | [] => Ok declared
  | (key, value) :: entries =>
      rbind (apply_field overflowed declared key value) (fun declared => apply_fields overflowed declared entries)
  end.

Definition parseHostedDeclaredTool (overflowed : Z) (tool : list (string * any)) (kind : string)
    : result hostedDeclaredTool :=
  let name := stringValue (map_get tool "name") in
  let name := if bool_decide (name = "")
              then if bool_decide (kind = "search") then "web_search" else "web_fetch" else name in
  rbind (apply_fields overflowed {| ht_Kind := kind; ht_Name := name; ht_MaxUses := None; ht_Domains := no_domains |} tool)
    (fun declared =>
      if negb (bool_decide (dp_Allowed (ht_Domains declared) = [])) && negb (bool_decide (dp_Blocked (ht_Domains declared) = []))
      then Fail (unprocessable "Cursor Agent v1 hosted search cannot combine allowed_domains and blocked_domains")
      else Ok declared).

(** ** The policy of a run *)

Record hostedRunPolicy := {
  hp_AllowSearch : bool; hp_AllowFetch : bool; hp_RequireSearch : bool; hp_RequireFetch : bool;
  hp_RequireAny : bool; hp_SearchMaxUses : option Z; hp_FetchMaxUses : option Z;
  hp_SearchDomains : hostedDomainPolicy; hp_FetchDomains : hostedDomainPolicy }.

Definition enabled (p : hostedRunPolicy) : bool := hp_AllowSearch p || hp_AllowFetch p.
Definition restrictsDomains (p : hostedRunPolicy) : bool :=
  restricts (hp_SearchDomains p) || restricts (hp_FetchDomains p).

Definition minMaxUses (current next : option Z) : option Z :=
  match next with
  | None => current
  | Some n => match current with
              | None => Some n
              | Some c => if n <? c then Some n else current
              end
  end.

(** One kind's share of the summary: declared at all, how often, the smallest
    limit, the merged domains. *)
Record kindSummary := { ks_Count : nat; ks_Max : option Z; ks_Domains : hostedDomainPolicy }.
Definition summarize_kind (kind : string) (tools : list hostedDeclaredTool) : kindSummary :=
  fold_left (fun a tool =>
    if bool_decide (ht_Kind tool = kind)
    then {| ks_Count := S (ks_Count a); ks_Max := minMaxUses (ks_Max a) (ht_MaxUses tool);
            ks_Domains := merge_domains (ks_Domains a) (ht_Domains tool) |}
    else a) tools {| ks_Count := 0; ks_Max := None; ks_Domains := no_domains |}.

Definition summarizeHostedPolicy (tools : list hostedDeclaredTool) (requireDeclared : bool) : hostedRunPolicy :=
  let search := summarize_kind "search" tools in
  let fetch := summarize_kind "fetch" tools in
  let some_search := (0 <? ks_Count search)%nat in
  let some_fetch := (0 <? ks_Count fetch)%nat in
  {| hp_AllowSearch := some_search; hp_AllowFetch := some_fetch;
     hp_RequireSearch := requireDeclared && some_search && negb some_fetch;
     hp_RequireFetch := requireDeclared && some_fetch && negb some_search;
     hp_RequireAny := requireDeclared && some_search && some_fetch;
     hp_SearchMaxUses := ks_Max search; hp_FetchMaxUses := ks_Max fetch;
     hp_SearchDomains := ks_Domains search; hp_FetchDomains := ks_Domains fetch |}.

(** ** Lemmas *)

Lemma HasSuffix_spec s p : HasSuffix s p = true <-> exists r, s = r +:+ p.
Proof.
  unfold HasSuffix. split.
  - destruct (strip_prefix _ _) as [r|] eqn:E; [|done]. intros _. apply strip_prefix_Some in E.
    exists (of_bytes (reverse r)). apply to_bytes_inj. rewrite to_bytes_app, to_of_bytes.
    by rewrite <-(reverse_involutive (to_bytes s)), E, reverse_app, reverse_involutive.
  - intros [r ->]. rewrite to_bytes_app, reverse_app.
    destruct (strip_prefix _ _) eqn:E; [done|].
    assert (strip_prefix (reverse (to_bytes p)) (reverse (to_bytes p) ++ reverse (to_bytes r)) = Some (reverse (to_bytes r)))
      by by apply strip_prefix_Some. congruence.
Qed.

Lemma elem_append_unique v base value :
  v ∈ append_unique base value <-> v ∈ base \/ (v = TrimSpace value /\ v <> "").
Proof.
  unfold append_unique. case_bool_decide as H1; [naive_solver|]. case_bool_decide as H2; [naive_solver|].
  rewrite elem_of_app, list_elem_of_singleton. naive_solver.
Qed.
Lemma elem_appendUnique v base values :
  v ∈ appendUniqueStrings base values <-> v ∈ base \/ (v <> "" /\ v ∈ TrimSpace <$> values).
Proof.
  unfold appendUniqueStrings. revert base; induction values as [|x values IH]; intros base; cbn [fold_left].
  - rewrite fmap_nil, elem_of_nil. naive_solver.
  - rewrite IH, elem_append_unique, fmap_cons, elem_of_cons. naive_solver.
Qed.

Lemma elem_merge_blocked v p q :
  v ∈ dp_Blocked (merge_domains p q) <-> v ∈ dp_Blocked p \/ (v <> "" /\ v ∈ TrimSpace <$> dp_Blocked q).
Proof. apply elem_appendUnique. Qed.

Lemma summarize_blocked kind tools a v :
  v ∈ dp_Blocked (ks_Domains (fold_left (fun a tool =>
    if bool_decide (ht_Kind tool = kind)
    then {| ks_Count := S (ks_Count a); ks_Max := minMaxUses (ks_Max a) (ht_MaxUses tool);
            ks_Domains := merge_domains (ks_Domains a) (ht_Domains tool) |} else a) tools a)) <->
  v ∈ dp_Blocked (ks_Domains a) \/
  (v <> "" /\ exists t, t ∈ tools /\ ht_Kind t = kind /\ v ∈ TrimSpace <$> dp_Blocked (ht_Domains t)).
Proof.
  revert a; induction tools as [|t tools IH]; intros a; cbn [fold_left].
  - split; [by left|]. intros [?|(_ & t & Ht & _)]; [done|]. by apply elem_of_nil in Ht.
  - rewrite IH. case_bool_decide as Hk; cbn [ks_Domains].
    + rewrite elem_merge_blocked. setoid_rewrite elem_of_cons. naive_solver.
    + setoid_rewrite elem_of_cons. naive_solver.
Qed.

(** [current] is the smallest of the limits in [l], unlimited when there is none. *)
Definition is_minimum (l : list (option Z)) (current : option Z) : Prop :=
  match current with
  | None => forall x, x ∈ l -> x = None
  | Some m => Some m ∈ l /\ forall n, Some n ∈ l -> m <= n
  end.
Lemma minMaxUses_min l current next : is_minimum l current -> is_minimum (l ++ [next]) (minMaxUses current next).
Proof.
  assert (forall x, x ∈ l ++ [next] <-> x ∈ l \/ x = next) as Hin by (intros x; by rewrite elem_of_app, list_elem_of_singleton).
  unfold minMaxUses. destruct next as [n|], current as [c|]; [destruct (n <? c) eqn:E; bool_hyps|..];
    cbn [is_minimum]; setoid_rewrite Hin.
  - intros [H1 H2]. split; [by right|]. intros m [Hm|[= ->]]; [|lia]. specialize (H2 _ Hm). lia.
  - intros [H1 H2]. split; [by left|]. intros m [Hm|[= ->]]; [by apply H2|lia].
  - intros H1. split; [by right|]. intros m [Hm|[= ->]]; [by specialize (H1 _ Hm)|done].
  - intros [H1 H2]. split; [by left|]. intros m [Hm|Hm]; [by apply H2|done].
  - intros H1 x [Hx|Hx]; [by apply H1|done].
Qed.
Lemma summarize_max kind tools a l :
  is_minimum l (ks_Max a) ->
  is_minimum (l ++ (ht_MaxUses <$> List.filter (fun t => bool_decide (ht_Kind t = kind)) tools))
    (ks_Max (fold_left (fun a tool =>
      if bool_decide (ht_Kind tool = kind)
      then {| ks_Count := S (ks_Count a); ks_Max := minMaxUses (ks_Max a) (ht_MaxUses tool);
              ks_Domains := merge_domains (ks_Domains a) (ht_Domains tool) |} else a) tools a)).
Proof.
  revert a l; induction tools as [|t tools IH]; intros a l Hm; cbn [fold_left List.filter].
  - by rewrite fmap_nil, app_nil_r.
  - case_bool_decide; [|by apply IH]. rewrite fmap_cons.
    rewrite (cons_middle (ht_MaxUses t)), app_assoc. apply IH. cbn [ks_Max]. by apply minMaxUses_min.
Qed.

Section props.
Context (unicode_lower : string -> string) (parse_url : string -> option (string * string)).

Lemma rule_matches_trim host path rule :
  rule_matches unicode_lower host path (TrimSpace rule) = rule_matches unicode_lower host path rule.
Proof. unfold rule_matches, rule_parts. by rewrite TrimSpace_idemp. Qed.

(** Domain rules are enforced on a summarised policy: whatever other server tools
    were declared, a URL that a blocked rule of a declared search tool matches is
    never permitted, and under an allow list a permitted URL is matched by some
    declared rule and its host is that rule's host or one of its subdomains. *)
Theorem domain_rules_enforced (tools : list hostedDeclaredTool) (require : bool) (url hostname path : string) :
  parse_url (TrimSpace url) = Some (hostname, path) ->
  let policy := hp_SearchDomains (summarizeHostedPolicy tools require) in
  let host := lower unicode_lower hostname in
  (forall t rule, t ∈ tools -> ht_Kind t = "search" -> rule ∈ dp_Blocked (ht_Domains t) -> TrimSpace rule <> "" ->
     rule_matches unicode_lower host path rule = true -> permits unicode_lower parse_url policy url = false) /\
  (dp_Allowed policy <> [] -> permits unicode_lower parse_url policy url = true ->
     exists rule, rule ∈ dp_Allowed policy /\
       let h := (rule_parts unicode_lower rule).1 in let c := TrimPrefix host "www." in
       h <> "" /\ (c = h \/ exists d, c = d +:+ "." +:+ h)).
Proof.
  intros Hurl policy host. split.
  - intros t rule Ht Hk Hr Hne Hm.
    assert (TrimSpace rule ∈ dp_Blocked policy) as Hin.
    { apply summarize_blocked. right. split; [done|]. exists t. split_and!; [done|done|by apply list_elem_of_fmap_2]. }
    unfold permits. assert (restricts policy = true) as ->.
    { unfold restricts. apply orb_true_iff. right. apply negb_true_iff, bool_decide_eq_false_2.
      intros E. rewrite E in Hin. by apply elem_of_nil in Hin. }
    cbn [negb]. rewrite Hurl. case_bool_decide; [done|]. fold host.
    assert (existsb (rule_matches unicode_lower host path) (dp_Blocked policy) = true) as ->; [|done].
    apply existsb_exists. exists (TrimSpace rule). split; [by apply list_elem_of_In|]. by rewrite rule_matches_trim.
  - intros Hal. unfold permits. assert (restricts policy = true) as ->.
    { unfold restricts. by rewrite bool_decide_eq_false_2. }
    cbn [negb]. rewrite Hurl. case_bool_decide; [done|]. fold host. destruct (existsb _ (dp_Blocked policy)); [done|].
    rewrite bool_decide_eq_false_2 by done. intros (rule & Hin & Hm)%existsb_exists. exists rule.
    split; [by apply list_elem_of_In|]. unfold rule_matches in Hm. destruct (rule_parts unicode_lower rule) as [h p]. cbn [fst].
    case_bool_decide; [done|]. split; [done|]. destruct (negb _ && negb _) eqn:G; [done|].
    apply andb_false_iff in G as [G|G]; bool_hyps; [by left|right]. by apply HasSuffix_spec in G.
Qed.
End props.

(** The limit a run gets is the strictest one declared for that kind, no limit
    when none was declared, and a required policy asks for exactly the kinds that
    were declared. *)
Theorem hosted_limits_are_strictest (tools : list hostedDeclaredTool) (require : bool) :
  let p := summarizeHostedPolicy tools require in
  let of_kind kind := List.filter (fun t => bool_decide (ht_Kind t = kind)) tools in
  is_minimum (ht_MaxUses <$> of_kind "search") (hp_SearchMaxUses p) /\
  is_minimum (ht_MaxUses <$> of_kind "fetch") (hp_FetchMaxUses p) /\
  (hp_AllowSearch p = true <-> of_kind "search" <> []) /\ (hp_AllowFetch p = true <-> of_kind "fetch" <> []) /\
  (require = true -> enabled p = true ->
     (hp_RequireSearch p, hp_RequireFetch p, hp_RequireAny p) =
       (hp_AllowSearch p && negb (hp_AllowFetch p), hp_AllowFetch p && negb (hp_AllowSearch p), hp_AllowSearch p && hp_AllowFetch p)).
Proof.
  assert (forall kind a, ks_Count (fold_left (fun a tool => if bool_decide (ht_Kind tool = kind)
    then {| ks_Count := S (ks_Count a); ks_Max := minMaxUses (ks_Max a) (ht_MaxUses tool);
            ks_Domains := merge_domains (ks_Domains a) (ht_Domains tool) |} else a) tools a) =
    (ks_Count a + length (List.filter (fun t => bool_decide (ht_Kind t = kind)) tools))%nat) as Hcount.
  { intros kind. induction tools as [|t l IH]; intros a; cbn [fold_left List.filter]; [simpl; lia|].
    rewrite IH. case_bool_decide; cbn [ks_Count length]; lia. }
  intros p of_kind. split_and!.
  - apply (summarize_max "search" tools _ []). cbn. intros x Hx. by apply elem_of_nil in Hx.
  - apply (summarize_max "fetch" tools _ []). cbn. intros x Hx. by apply elem_of_nil in Hx.
  - unfold p, summarizeHostedPolicy, summarize_kind. cbn [hp_AllowSearch]. rewrite Hcount, Nat.ltb_lt. cbn [ks_Count].
    fold (of_kind "search"). destruct (of_kind "search"); simpl; split; (done || lia).
  - unfold p, summarizeHostedPolicy, summarize_kind. cbn [hp_AllowFetch]. rewrite Hcount, Nat.ltb_lt. cbn [ks_Count].
    fold (of_kind "fetch"). destruct (of_kind "fetch"); simpl; split; (done || lia).
  - intros -> _. unfold p. cbn. done.
Qed.

(** *** A blocked path with an upper-case letter blocks nothing: the rule is
    lower-cased as a whole, the path of the URL is not. *)
Definition sample_tool (allowed blocked : list string) : hostedDeclaredTool :=
  {| ht_Kind := "search"; ht_Name := "web_search"; ht_MaxUses := Some 3;
     ht_Domains := {| dp_Allowed := allowed; dp_Blocked := blocked |} |}.
Definition sample_url (s : string) : option (string * string) := Some ("Docs.Example.com", "/Private/x").
Example blocked_path_case :
  permits id sample_url (hp_SearchDomains (summarizeHostedPolicy [sample_tool [] ["example.com/Private"]] false)) "u" = true
  /\ permits id sample_url (hp_SearchDomains (summarizeHostedPolicy [sample_tool [] ["example.com"]] false)) "u" = false.
Proof. split; vm_compute; reflexivity. Qed.

Lemma domain_rules_enforced_witness :
  permits id sample_url (hp_SearchDomains (summarizeHostedPolicy [sample_tool [] [" example.com "]] false)) "u" = false.
Proof.
  apply (domain_rules_enforced id sample_url [sample_tool [] [" example.com "]] false "u" "Docs.Example.com" "/Private/x" eq_refl)
    with (t := sample_tool [] [" example.com "]) (rule := " example.com ");
    [by left|reflexivity|by left|vm_compute; discriminate|vm_compute; reflexivity].
Defined.
Lemma hosted_limits_are_strictest_witness :
  (hp_RequireSearch (summarizeHostedPolicy [sample_tool [] []] true)) = true.
Proof.
  destruct (hosted_limits_are_strictest [sample_tool [] []] true) as (_ & _ & _ & _ & H).
  exact (f_equal (fun x => x.1.1) (H eq_refl eq_refl)).
Defined.
