(* ===== verification/Conc.v ===== *)
(** * Concurrent programs over a shared state

    A goroutine is a tree of atomic actions.  An action maps the shared state to
    its possible outcomes: none while it blocks, several where [select], map
    iteration or the outside world choose.  The library gives the interleaving
    semantics of a pool of goroutines, the rule for state invariants, and the
    traces of one goroutine under any interference by the others. *)
From stdpp Require Import base tactics list.

Section conc.
Context {S L : Type}.

(** A critical section: state passing with choice. *)
Definition Sect (A : Type) : Type := S -> list (A * S).
#[export] Instance Sect_ret : MRet Sect := fun A a s => [(a, s)].
#[export] Instance Sect_bind : MBind Sect := fun A B k m s => m s ≫= fun x => k x.1 x.2.
Definition get {A} (f : S -> A) : Sect A := fun s => [(f s, s)].
Definition put (f : S -> S) : Sect unit := fun s => [(tt, f s)].
Definition choose {A} (l : list A) : Sect A := fun s => (fun a => (a, s)) <$> l.
(** The section waits: it has no outcome in this state. *)
Definition block {A} : Sect A := fun _ => [].

Lemma sect_bind {A B} (f : Sect A) (k : A -> Sect B) s b s' :
  (b, s') ∈ (f ≫= k) s -> exists a s1, (a, s1) ∈ f s /\ (b, s') ∈ k a s1.
Proof. intros ([a s1] & H1 & H2)%list_elem_of_bind. eauto. Qed.
Lemma sect_ret {A} (a b : A) s s' : (b, s') ∈ (mret a : Sect A) s -> b = a /\ s' = s.
Proof. by intros [= -> ->]%list_elem_of_singleton. Qed.
Lemma sect_get {A} (f : S -> A) b s s' : (b, s') ∈ get f s -> b = f s /\ s' = s.
Proof. by intros [= -> ->]%list_elem_of_singleton. Qed.
Lemma sect_put f b s s' : (b, s') ∈ put f s -> s' = f s.
Proof. by intros [= -> ->]%list_elem_of_singleton. Qed.
Lemma sect_choose {A} (l : list A) b s s' : (b, s') ∈ choose l s -> b ∈ l /\ s' = s.
Proof. by intros (a & [= -> ->] & Ha)%list_elem_of_fmap. Qed.
Lemma sect_block {A} (b : A) s s' : (b, s') ∈ (block : Sect A) s -> False.
Proof. apply not_elem_of_nil. Qed.

Inductive Prog : Type -> Type :=
  | Ret {A} (a : A) : Prog A
  | Act {A B} (lab : B -> option L) (f : Sect B) (k : B -> Prog A) : Prog A
  | Fork {A} (p : Prog unit) (k : Prog A) : Prog A.

Fixpoint prog_bind {A} (p : Prog A) {B} : (A -> Prog B) -> Prog B :=
  match p in Prog A return (A -> Prog B) -> Prog B with
  | Ret a => fun q => q a
  | Act lab f k => fun q => Act lab f (fun b => prog_bind (k b) q)
  | Fork p k => fun q => Fork p (prog_bind k q)
  end.
#[export] Instance Prog_ret : MRet Prog := fun A a => Ret a.
#[export] Instance Prog_bind : MBind Prog := fun A B k p => prog_bind p k.

(** A locked section without, and with, a label for the trace. *)
Definition atomic {A} (f : Sect A) : Prog A := Act (fun _ => None) f Ret.
Definition labelled {A} (lab : A -> option L) (f : Sect A) : Prog A := Act lab f Ret.
Definition fork (p : Prog unit) : Prog unit := Fork p (Ret tt).
Fixpoint prog_each {A} (l : list A) (body : A -> Prog unit) : Prog unit :=
  match l with [] => Ret tt | x :: l => body x ≫= fun _ => prog_each l body end.

(** ** Interleaving *)
Inductive pool_step (env : S -> S -> Prop) : list (Prog unit) * S -> list L -> list (Prog unit) * S -> Prop :=
  | pool_act {B} lab (f : Sect B) k pre post s b s' :
      (b, s') ∈ f s -> pool_step env (pre ++ Act lab f k :: post, s) (option_list (lab b)) (pre ++ k b :: post, s')
  | pool_fork p k pre post s :
      pool_step env (pre ++ Fork p k :: post, s) [] (pre ++ k :: post ++ [p], s)
  | pool_env ps s s' : env s s' -> pool_step env (ps, s) [] (ps, s').

Inductive pool_steps (env : S -> S -> Prop) : list (Prog unit) * S -> list L -> list (Prog unit) * S -> Prop :=
  | pool_refl x : pool_steps env x [] x
  | pool_snoc x t y u z : pool_steps env x t y -> pool_step env y u z -> pool_steps env x (t ++ u) z.

(** *** Invariants of the state and the trace so far *)
Definition keeps {A} (I : list L -> S -> Prop) (lab : A -> option L) (f : Sect A) : Prop :=
  forall t s b s', I t s -> (b, s') ∈ f s -> I (t ++ option_list (lab b)) s'.

Fixpoint respects (I : list L -> S -> Prop) {A} (p : Prog A) : Prop :=
  match p with
  | Ret _ => True
  | Act lab f k => keeps I lab f /\ forall b, respects I (k b)
  | Fork p k => respects I p /\ respects I k
  end.

Lemma respects_bind I {A B} (p : Prog A) (q : A -> Prog B) :
  respects I p -> (forall a, respects I (q a)) -> respects I (p ≫= q).
Proof.
  unfold mbind, Prog_bind. intros Hp Hq. induction p as [A a|A C lab f k IH|A p IHp k IHk]; cbn [prog_bind respects] in *; [apply Hq| |].
  - destruct Hp as [H1 H2]. split; [done|]. intros b. by apply IH.
  - destruct Hp as [H1 H2]. split; [done|]. by apply IHk.
Qed.
Lemma respects_ret I {A} (a : A) : respects I (mret a).
Proof. done. Qed.
Lemma respects_labelled I {A} lab (f : Sect A) : keeps I lab f -> respects I (labelled lab f).
Proof. by split. Qed.
Lemma respects_atomic I {A} (f : Sect A) : keeps I (fun _ => None) f -> respects I (atomic f).
Proof. by split. Qed.
Lemma respects_fork I p : respects I p -> respects I (fork p).
Proof. by split. Qed.
Lemma respects_each I {A} (l : list A) body : (forall a, respects I (body a)) -> respects I (prog_each l body).
Proof. intros Hb. induction l as [|x l IH]; cbn [prog_each]; [done|]. apply respects_bind; [apply Hb|done]. Qed.

(** A pool of goroutines lives above the universe of the list library's lemmas. *)
Lemma pool_app (P : Prog unit -> Prop) l k : Forall P (l ++ k) <-> Forall P l /\ Forall P k.
Proof.
  induction l as [|x l IH]; simpl; [split; [by split; [constructor|]|by intros []]|]. split.
  - intros Hx. inversion_clear Hx as [|? ? H1 H2]. apply IH in H2 as [H2 H3]. split; [by constructor|done].
  - intros [Hx H3]. inversion_clear Hx as [|? ? H1 H2]. constructor; [done|]. by apply IH.
Qed.
Lemma pool_cons (P : Prog unit -> Prop) p l : Forall P (p :: l) <-> P p /\ Forall P l.
Proof. split; [intros Hx; by inversion_clear Hx|intros []; by constructor]. Qed.

Lemma pool_step_invariant env I x u y t :
  (forall t s s', I t s -> env s s' -> I t s') ->
  Forall (respects I) x.1 -> I t x.2 -> pool_step env x u y -> Forall (respects I) y.1 /\ I (t ++ u) y.2.
Proof.
  intros Henv Hp Hs Hstep. destruct Hstep as [B lab f k pre post s b s' Hb|p k pre post s|ps s s' Hb]; cbn [fst snd] in *.
  - apply pool_app in Hp as [H1 [[H2 H3] H4]%pool_cons]. split; [|by eapply H2].
    apply pool_app. split; [done|]. apply pool_cons. split; [apply H3|done].
  - apply pool_app in Hp as [H1 [[H2 H3] H4]%pool_cons]. rewrite app_nil_r. split; [|done].
    apply pool_app. split; [done|]. apply pool_cons. split; [done|]. apply pool_app. split; [done|]. by apply pool_cons.
  - rewrite app_nil_r. eauto.
Qed.

Lemma pool_invariant env I x t y :
  (forall t s s', I t s -> env s s' -> I t s') ->
  Forall (respects I) x.1 -> I [] x.2 -> pool_steps env x t y -> Forall (respects I) y.1 /\ I t y.2.
Proof.
  intros Henv Hp Hs Hsteps. induction Hsteps as [|x t y u z _ IH Hstep]; [done|].
  destruct (IH Hp Hs) as [I1 I2]. by eapply pool_step_invariant.
Qed.

(** ** Traces of one goroutine

    Every action starts from an arbitrary state, whatever the other goroutines
    did since the previous one.  [None]: the goroutine has not finished. *)
Inductive ptrace : forall {A}, Prog A -> list L -> option A -> Prop :=
  | ptrace_stop {A} (p : Prog A) : ptrace p [] None
  | ptrace_ret {A} (a : A) : ptrace (Ret a) [] (Some a)
  | ptrace_act {A B} lab (f : Sect B) (k : B -> Prog A) s b s' t r :
      (b, s') ∈ f s -> ptrace (k b) t r -> ptrace (Act lab f k) (option_list (lab b) ++ t) r
  | ptrace_fork {A} p (k : Prog A) t r : ptrace k t r -> ptrace (Fork p k) t r.

(** A program logic for traces: [triple T p Q] says that from a trace satisfying
    [T] every trace of [p] ends in [Q] of its result, and never leaves [safe]. *)
Fixpoint wp (safe : list L -> Prop) {A} (p : Prog A) (Q : A -> list L -> Prop) (t : list L) : Prop :=
  safe t /\
  match p in Prog A return (A -> list L -> Prop) -> Prop with
  | Ret a => fun Q => Q a t
  | Act lab f k => fun Q => forall s b s', (b, s') ∈ f s -> wp safe (k b) Q (t ++ option_list (lab b))
  | Fork _ k => fun Q => wp safe k Q t
  end Q.

Lemma wp_sound safe {A} (p : Prog A) Q t u r :
  wp safe p Q t -> ptrace p u r -> safe (t ++ u) /\ (forall a, r = Some a -> Q a (t ++ u)).
Proof.
  intros Hw Hp. revert t Hw. induction Hp as [A p|A a|A B lab f k s b s' u r Hb _ IH|A p k u r _ IH]; intros t Hw.
  - rewrite app_nil_r. split; [by destruct p, Hw|done].
  - rewrite app_nil_r. destruct Hw as [H1 H2]. split; [done|]. by intros a' [= <-].
  - destruct Hw as [H1 H2]. rewrite app_assoc. by eapply IH, H2.
  - destruct Hw as [H1 H2]. by apply IH.
Qed.

Lemma wp_mono safe {A} (p : Prog A) (Q Q' : A -> list L -> Prop) t :
  wp safe p Q t -> (forall a t, Q a t -> Q' a t) -> wp safe p Q' t.
Proof.
  intros Hw HQ. revert t Hw. induction p as [A a|A B lab f k IH|A p _ k IH]; intros t [H1 H2]; split; try done.
  - by apply HQ.
  - intros s b s' Hb. eapply IH; [done|]. by eapply H2.
  - by eapply IH.
Qed.

Lemma wp_bind safe {A B} (p : Prog A) (q : A -> Prog B) Q t :
  wp safe p (fun a => wp safe (q a) Q) t -> wp safe (p ≫= q) Q t.
Proof.
  unfold mbind, Prog_bind. revert t. induction p as [A a|A C lab f k IH|A p _ k IH]; intros t [H1 H2]; cbn [prog_bind].
  - done.
  - split; [done|]. intros s b s' Hb. apply IH. by eapply H2.
  - split; [done|]. by apply IH.
Qed.

Lemma wp_ret safe {A} (a : A) Q t : safe t -> Q a t -> wp safe (mret a) Q t.
Proof. by split. Qed.
Lemma wp_labelled safe {A} lab (f : Sect A) Q t :
  safe t -> (forall s b s', (b, s') ∈ f s -> safe (t ++ option_list (lab b)) /\ Q b (t ++ option_list (lab b))) ->
  wp safe (labelled lab f) Q t.
Proof. intros H1 H2. split; [done|]. intros s b s' Hb. by eapply H2. Qed.
Lemma wp_atomic safe {A} (f : Sect A) (Q : A -> list L -> Prop) t :
  safe t -> (forall s b s', (b, s') ∈ f s -> Q b t) -> wp safe (atomic f) Q t.
Proof. intros H1 H2. split; [done|]. intros s b s' Hb. cbn [option_list]. rewrite app_nil_r. split; [done|]. by eapply H2. Qed.
Lemma wp_fork safe p Q t : safe t -> Q tt t -> wp safe (fork p) Q t.
Proof. by repeat split. Qed.
Lemma wp_safe safe {A} (p : Prog A) Q t : wp safe p Q t -> safe t.
Proof. by destruct p; intros [H _]. Qed.

(** *** Programs that keep a property of the trace *)
Definition maintains (safe U : list L -> Prop) {A} (p : Prog A) : Prop := forall t, U t -> wp safe p (fun _ => U) t.

Section maintains.
Context (safe U : list L -> Prop) (HU : forall t, U t -> safe t).
Lemma maintains_bind {A B} (p : Prog A) (q : A -> Prog B) :
  maintains safe U p -> (forall a, maintains safe U (q a)) -> maintains safe U (p ≫= q).
Proof. intros Hp Hq t Ht. apply wp_bind. eapply wp_mono; [by apply Hp|]. intros a t'. apply Hq. Qed.
Lemma maintains_ret {A} (a : A) : maintains safe U (mret a).
Proof. intros t Ht. apply wp_ret; [by apply HU|done]. Qed.
Lemma maintains_labelled {A} (lab : A -> option L) (f : Sect A) :
  (forall b t, U t -> U (t ++ option_list (lab b))) -> maintains safe U (labelled lab f).
Proof. intros Hl t Ht. apply wp_labelled; [by apply HU|]. intros s b s' _. split; [apply HU|]; by apply Hl. Qed.
Lemma maintains_atomic {A} (f : Sect A) : maintains safe U (atomic f).
Proof. intros t Ht. apply wp_atomic; [by apply HU|done]. Qed.
Lemma maintains_fork p : maintains safe U (fork p).
Proof. intros t Ht. apply wp_fork; [by apply HU|done]. Qed.
Lemma maintains_each {A} (l : list A) body : (forall a, maintains safe U (body a)) -> maintains safe U (prog_each l body).
Proof. intros Hb. induction l as [|x l IH]; cbn [prog_each]; [apply maintains_ret|]. by apply maintains_bind. Qed.
End maintains.

(** ** Traces of one goroutine among known others

    [rely] is what the other goroutines may do to the state between two of its
    actions; every action starts from the state the previous one left, changed so. *)
Inductive rtrace (rely : S -> S -> Prop) : forall {A}, S -> Prog A -> list L -> option A -> Prop :=
  | rtrace_stop {A} s (p : Prog A) : rtrace rely s p [] None
  | rtrace_ret {A} s (a : A) : rtrace rely s (Ret a) [] (Some a)
  | rtrace_act {A B} lab (f : Sect B) (k : B -> Prog A) s s1 b s2 t r :
      rely s s1 -> (b, s2) ∈ f s1 -> rtrace rely s2 (k b) t r ->
      rtrace rely s (Act lab f k) (option_list (lab b) ++ t) r
  | rtrace_fork {A} s p (k : Prog A) t r : rtrace rely s k t r -> rtrace rely s (Fork p k) t r.

(** One action of a program or of what it starts, from any state. *)
Inductive action_of : forall {A}, Prog A -> S -> S -> Prop :=
  | action_here {A B} lab (f : Sect B) (k : B -> Prog A) s b s' : (b, s') ∈ f s -> action_of (Act lab f k) s s'
  | action_later {A B} lab (f : Sect B) (k : B -> Prog A) b s s' : action_of (k b) s s' -> action_of (Act lab f k) s s'
  | action_forked {A} p (k : Prog A) s s' : action_of p s s' -> action_of (Fork p k) s s'
  | action_parent {A} p (k : Prog A) s s' : action_of k s s' -> action_of (Fork p k) s s'.

(** What every section keeps of the state, each action keeps. *)
Lemma respects_action (I : S -> Prop) {A} (p : Prog A) s s' :
  action_of p s s' -> respects (fun _ => I) p -> I s -> I s'.
Proof.
  intros Ha. induction Ha as [A B lab f k s b s' Hb|A B lab f k b s s' _ IH|A p k s s' _ IH|A p k s s' _ IH]; intros [H1 H2] Hs.
  - exact (H1 [] s b s' Hs Hb).
  - apply IH; [apply H2|done].
  - by apply IH.
  - by apply IH.
Qed.

Section rely.
Context (rely : S -> S -> Prop) (safe : list L -> Prop).

(** [wp] that knows the state the goroutine left. *)
Fixpoint twp {A} (p : Prog A) (Q : A -> S -> list L -> Prop) (s : S) (t : list L) : Prop :=
  safe t /\
  match p in Prog A return (A -> S -> list L -> Prop) -> Prop with
  | Ret a => fun Q => Q a s t
  | Act lab f k => fun Q => forall s1 b s2, rely s s1 -> (b, s2) ∈ f s1 -> twp (k b) Q s2 (t ++ option_list (lab b))
  | Fork _ k => fun Q => twp k Q s t
  end Q.

Lemma twp_sound {A} (p : Prog A) Q s t u r : twp p Q s t -> rtrace rely s p u r -> safe (t ++ u).
Proof.
  intros Hw Hp. revert t Q Hw. induction Hp as [A s p|A s a|A B lab f k s s1 b s2 u r Hr Hb _ IH|A s p k u r _ IH]; intros t Q Hw.
  - rewrite app_nil_r. by destruct p, Hw.
  - rewrite app_nil_r. by destruct Hw.
  - rewrite app_assoc. destruct Hw as [_ H2]. eapply IH. by eapply H2.
  - destruct Hw as [_ H2]. by eapply IH.
Qed.
Lemma twp_mono {A} (p : Prog A) (Q Q' : A -> S -> list L -> Prop) s t :
  twp p Q s t -> (forall a s t, Q a s t -> Q' a s t) -> twp p Q' s t.
Proof.
  intros Hw HQ. revert s t Hw. induction p as [A a|A B lab f k IH|A p _ k IH]; intros s t [H1 H2]; split; try done.
  - by apply HQ.
  - intros s1 b s2 Hr Hb. eapply IH; [done|]. by eapply H2.
  - by eapply IH.
Qed.
Lemma twp_bind {A B} (p : Prog A) (q : A -> Prog B) Q s t :
  twp p (fun a => twp (q a) Q) s t -> twp (p ≫= q) Q s t.
Proof.
  unfold mbind, Prog_bind. revert s t. induction p as [A a|A C lab f k IH|A p _ k IH]; intros s t [H1 H2]; cbn [prog_bind].
  - done.
  - split; [done|]. intros s1 b s2 Hr Hb. apply IH. by eapply H2.
  - split; [done|]. by apply IH.
Qed.
(** What holds under any interference holds under this one. *)
Lemma twp_wp {A} (p : Prog A) Q s t : wp safe p Q t -> twp p (fun a _ t => Q a t) s t.
Proof.
  revert s t. induction p as [A a|A B lab f k IH|A p _ k IH]; intros s t [H1 H2]; split; try done.
  - intros s1 b s2 _ Hb. apply IH. by eapply H2.
  - by apply IH.
Qed.

(** *** Programs that keep a property of the trace and the state *)
Context (U : list L -> S -> Prop) (HU : forall t s, U t s -> safe t) (Hrely : forall t s s', U t s -> rely s s' -> U t s').
Definition upholds {A} (p : Prog A) : Prop := forall s t, U t s -> twp p (fun _ s t => U t s) s t.

Lemma upholds_bind {A B} (p : Prog A) (q : A -> Prog B) : upholds p -> (forall a, upholds (q a)) -> upholds (p ≫= q).
Proof. intros Hp Hq s t Ht. apply twp_bind. eapply twp_mono; [by apply Hp|]. intros a s' t'. apply Hq. Qed.
Lemma upholds_ret {A} (a : A) : upholds (mret a).
Proof. intros s t Ht. split; [by eapply HU|done]. Qed.
Lemma upholds_labelled {A} (lab : A -> option L) f : keeps U lab f -> upholds (labelled lab f).
Proof.
  intros Hk s t Ht. split; [by eapply HU|]. intros s1 b s2 Hr Hb.
  assert (U (t ++ option_list (lab b)) s2) as Hs by (eapply Hk; [by eapply Hrely|done]). split; [by eapply HU|done].
Qed.
Lemma upholds_atomic {A} (f : Sect A) : keeps U (fun _ => None) f -> upholds (atomic f).
Proof. apply upholds_labelled. Qed.
Lemma upholds_each {A} (l : list A) body : (forall a, upholds (body a)) -> upholds (prog_each l body).
Proof. intros Hb. induction l as [|x l IH]; cbn [prog_each]; [apply upholds_ret|]. by apply upholds_bind. Qed.
End rely.

(** ** Running alone, the first choice everywhere

    The goroutines it starts have not run yet. *)
Fixpoint exec {A} (p : Prog A) (s : S) : option (A * list L * S) :=
  match p with
  | Ret a => Some (a, [], s)
  | Act lab f k =>
      match f s with
      | (b, s') :: _ => match exec (k b) s' with
                        | Some (a, t, s'') => Some (a, option_list (lab b) ++ t, s'')
                        | None => None
                        end
      | [] => None
      end
  | Fork _ k => exec k s
  end.

Lemma exec_ptrace {A} (p : Prog A) s a t s' : exec p s = Some (a, t, s') -> ptrace p t (Some a).
Proof.
  revert s a t. induction p as [A a'|A B lab f k IH|A p _ k IH]; intros s a t E; cbn [exec] in E.
  - injection E as -> <- <-. constructor.
  - destruct (f s) as [|[b s1] l] eqn:Ef; [done|]. destruct (exec (k b) s1) as [[[a1 t1] s2]|] eqn:Ek; [|done].
    injection E as <- <- <-. eapply ptrace_act; [rewrite Ef; by left|]. by eapply IH.
  - apply ptrace_fork. by eapply IH.
Qed.
Lemma exec_rtrace (rely : S -> S -> Prop) {A} (p : Prog A) s a t s' :
  (forall s, rely s s) -> exec p s = Some (a, t, s') -> rtrace rely s p t (Some a).
Proof.
  intros Hr. revert s a t. induction p as [A a'|A B lab f k IH|A p _ k IH]; intros s a t E; cbn [exec] in E.
  - injection E as -> <- <-. constructor.
  - destruct (f s) as [|[b s1] l] eqn:Ef; [done|]. destruct (exec (k b) s1) as [[[a1 t1] s2]|] eqn:Ek; [|done].
    injection E as <- <- <-. eapply rtrace_act; [apply Hr|rewrite Ef; by left|]. by eapply IH.
  - apply rtrace_fork. by eapply IH.
Qed.
Lemma steps_trans env x t y u z : pool_steps env x t y -> pool_steps env y u z -> pool_steps env x (t ++ u) z.
Proof.
  intros H1 H2. induction H2 as [|y u z v w _ IH Hs]; [by rewrite app_nil_r|]. rewrite app_assoc. by eapply pool_snoc; [apply IH|].
Qed.
Lemma exec_steps env {A} (p : Prog A) (q : A -> Prog unit) s a t s' :
  exec p s = Some (a, t, s') -> forall post, exists post', pool_steps env (prog_bind p q :: post, s) t (q a :: post', s').
Proof.
  revert q a s t. induction p as [A a'|A B lab f k IH|A p _ k IH]; intros q a s t E post; cbn [exec prog_bind] in *.
  - injection E as -> <- <-. exists post. constructor.
  - destruct (f s) as [|[b s1] l] eqn:Ef; [done|]. destruct (exec (k b) s1) as [[[a1 t1] s2]|] eqn:Ek; [|done].
    injection E as <- <- <-. destruct (IH b q _ s1 t1 Ek post) as [post' Hp]. exists post'.
    eapply steps_trans; [|exact Hp]. rewrite <-(app_nil_l (option_list (lab b))). eapply pool_snoc; [constructor|].
    refine (pool_act env lab f (fun b => prog_bind (k b) q) [] post s b s1 _). rewrite Ef. by left.
  - destruct (IH q _ s t E (post ++ [p])) as [post' Hp]. exists post'. rewrite <-(app_nil_l t).
    eapply steps_trans; [|exact Hp]. rewrite <-(app_nil_l []). eapply pool_snoc; [constructor|].
    apply (pool_fork env p _ [] post s).
Qed.
End conc.
Arguments Sect : clear implicits.
Arguments Prog : clear implicits.

(** Take an outcome of a section apart, case by case. *)
Ltac sect :=
  repeat match goal with
  | H : (_, _) ∈ (_ ≫= _) _ |- _ => apply sect_bind in H as (? & ? & ? & ?)
  | H : (_, _) ∈ mret _ _ |- _ => apply sect_ret in H as [? ?]; subst
  | H : (_, _) ∈ get _ _ |- _ => apply sect_get in H as [? ?]; subst
  | H : (_, _) ∈ put _ _ |- _ => apply sect_put in H; subst
  | H : (_, _) ∈ choose _ _ |- _ => apply sect_choose in H as [? ?]; subst
  | H : (_, _) ∈ block _ |- _ => by apply sect_block in H
  | H : (_, _) ∈ (match ?x with _ => _ end) _ |- _ => destruct x eqn:?
  | u : unit |- _ => destruct u
  end.
