(* ===== verification/Manager.v ===== *)
(** * The session manager: its objects (src/cursoragentv1/manager.go, manager_history.go)

    The requests it takes, the objects it shares between goroutines (sessions,
    outputs, resume flights, the three tables under its mutex) and the pure
    helpers its handlers use.  Pointers are numbers into tables of objects, so
    that two goroutines holding the same session or output alias it. *)
From stdpp Require Import base tactics list gmap strings sorting.
From Stdlib Require Import Strings.Byte.
From S2P Require Import Prelude GoStrings Sha256 Connect Data Json Usage EventSnapshot Segment StoreWorld StoreIndex StoreCompleted StoreState HostedPolicy Conc.
Open Scope Z_scope.

(** ** Requests *)

(** The fields of a run request the manager passes on unchanged. *)
Record RunOptions := {
  ro_HistoryRequestKey : string; ro_BaseURL : string; ro_ProxyURL : string; ro_AccessToken : string;
  ro_ClientVersion : string; ro_RouteChannelID : Z; ro_RouteUserID : Z; ro_Model : string;
  ro_UserMedia : list MediaPart; ro_ThinkingEnabled : bool; ro_ReasoningEffort : string;
  ro_InferenceContext : string; ro_InferenceThinking : option bool; ro_dropReasoningSignatures : bool;
  ro_SystemText : string; ro_HistoryMessages : list bytes; ro_AllowHostedSearch : bool;
  ro_AllowHostedFetch : bool; ro_RequireHostedSearch : bool; ro_RequireHostedFetch : bool;
  ro_RequireHostedTool : bool; ro_HostedSearchMaxUses : option Z; ro_HostedFetchMaxUses : option Z;
  ro_HostedSearchDomains : hostedDomainPolicy; ro_HostedFetchDomains : hostedDomainPolicy;
  ro_RequireToolCall : bool; ro_MaxParallelTools : Z; ro_DeleteCompletedState : bool }.

(** A run request: the options and the fields the manager fills in. *)
Record RunRequest := {
  rr_Options : RunOptions; rr_RuntimeProfile : string; rr_ConversationID : string; rr_UserText : string;
  rr_FollowUpText : string; rr_Tools : list ToolDefinition; rr_InitialCheckpoint : bytes;
  rr_InitialBlobs : gmap string bytes; rr_Resume : bool }.

(** [request.Context]: [None] is [context.Background]. *)
Record ManagedRequest := {
  mr_TurnMetering : bool; mr_RequestSegmentID : string; mr_SessionID : string; mr_BillingRunID : string;
  mr_CredentialScope : string; mr_AccountKey : string; mr_ToolCatalogDigest : string; mr_FollowUpText : string;
  mr_ActiveResults : list ToolResult; mr_CarryUsage : list Event; mr_RequireExisting : bool;
  mr_ReuseBillingRun : bool; mr_Context : option nat; mr_Run : RunRequest; mr_DisableCallerTools : bool }.

Definition HistoryRequestKey (r : RunRequest) : string := ro_HistoryRequestKey (rr_Options r).

(** The tools the run gets: [request.Run.Tools] after [applyCallerToolCatalog]. *)
Definition applyCallerToolCatalog (request : ManagedRequest) (digest : string) (tools snapshot : list ToolDefinition)
    (requireSnapshot : bool) : result (list ToolDefinition) :=
  if mr_DisableCallerTools request then Ok []
  else if negb (bool_decide (tools = [])) || negb (bool_decide (TrimSpace digest = "")) then Ok tools
  else if bool_decide (snapshot = []) && requireSnapshot then Fail ErrSessionNotPending
  else Ok snapshot.

Definition meteringVersionError : Err :=
  ErrRequest 503 "Cursor continuation requires an updated gateway; retry after gateway rollout completes".

(** [fresh]: what [uuid.NewString] would return. *)
Definition billingIDForRequest (fresh : string) (request : ManagedRequest) : string :=
  if mr_TurnMetering request then meteredTurnID fresh (mr_BillingRunID request) else mr_BillingRunID request.

Definition completedFollowUp (request : RunRequest) : string :=
  if rr_Resume request then "" else TrimSpace (rr_FollowUpText request).

Definition toolResultsFromCanonical (results : list CompletedToolResult) : list ToolResult :=
  (fun r => {| tr_ToolCallID := cr_ToolCallID r; tr_Content := cr_Content r; tr_IsError := cr_IsError r;
               tr_Media := cr_Media r |}) <$> results.

Definition completedBatchIDsFromResults (results : list ToolResult) : list string :=
  match canonicalToolResults results with Fail _ => [] | Ok canonical => completedBatchIDs canonical end.

Definition resumeFlightKey (fingerprint : string) (batchIDs : list string) (followUp : string) : string :=
  TrimSpace fingerprint +:+ NUL +:+ Join (normalizeToolIDs batchIDs) NUL +:+ NUL +:+ normalizeFollowUp followUp.

Definition historySessionID `{Digest} (fingerprint key : string) : string :=
  "history_" +:+ digest (fingerprint +:+ NUL +:+ key).

(** ** Pending tools, a map from public identifier *)
Abbreviation Pending := (gmap string PendingTool).

(** [sort.Slice] by identifier: the identifiers are the map's keys unless a
    restored tool was stored under another name. *)
Definition pending_le (x y : PendingTool) : Prop := String.le (pt_ToolCallID x) (pt_ToolCallID y).
#[export] Instance pending_le_dec x y : Decision (pending_le x y).
Proof. unfold pending_le. apply _. Defined.
#[export] Instance pending_le_total : Total pending_le.
Proof. intros x y. unfold pending_le. apply String.le_total. Qed.
Definition pendingValues (pending : Pending) : list PendingTool :=
  merge_sort pending_le ((map_to_list pending).*2).

Definition pendingFrom (tools : list PendingTool) : Pending :=
  fold_left (fun m t => <[pt_ToolCallID t := t]> m) tools ∅.

Definition upstreamToolResult (pending : Pending) (result : ToolResult) : ToolResult :=
  match pending !! tr_ToolCallID result with
  | Some tool =>
      if bool_decide (TrimSpace (pt_UpstreamToolCallID tool) = "") then result
      else {| tr_ToolCallID := pt_UpstreamToolCallID tool; tr_Content := tr_Content result;
              tr_IsError := tr_IsError result; tr_Media := tr_Media result |}
  | None => result
  end.

(** The public identifiers that stand for an upstream one; Go's map iteration
    returns any of them. *)
Definition findPublicToolCallIDs (pending : Pending) (upstream : string) : list string :=
  omap (fun kv =>
    let candidate := TrimSpace (pt_UpstreamToolCallID kv.2) in
    let candidate := if bool_decide (candidate = "") then kv.1 else candidate in
    if bool_decide (candidate = TrimSpace upstream) then Some kv.1 else None) (map_to_list pending).
Definition publicToolCallIDsForUpstream (pending : Pending) (upstream : string) : list string :=
  match findPublicToolCallIDs pending upstream with [] => [TrimSpace upstream] | l => l end.

Definition tool_result_le (x y : ToolResult) : Prop := String.le (tr_ToolCallID x) (tr_ToolCallID y).
#[export] Instance tool_result_le_dec x y : Decision (tool_result_le x y).
Proof. unfold tool_result_le. apply _. Defined.
#[export] Instance tool_result_le_total : Total tool_result_le.
Proof. intros x y. unfold tool_result_le. apply String.le_total. Qed.

(** The [seen] map, or [None] on a duplicate. *)
Fixpoint seen_results (seen : gmap string ToolResult) (results : list ToolResult) : option (gmap string ToolResult) :=
  match results with
  | [] => Some seen
  | r :: results =>
      match seen !! tr_ToolCallID r with
      | Some _ => None
      | None => seen_results (<[tr_ToolCallID r := r]> seen) results
      end
  end.
Definition filterPendingMapResults (pending : Pending) (results : list ToolResult) : option (list ToolResult) :=
  match seen_results ∅ results with
  | None => None
  | Some seen =>
      match mapM (fun id => seen !! id) ((map_to_list pending).*1) with
      | Some filtered => Some (merge_sort tool_result_le filtered)
      | None => None
      end
  end.
Definition filterPendingResults (pending : list PendingTool) (results : list ToolResult) : option (list ToolResult) :=
  filterPendingMapResults (pendingFrom pending) results.

(** [strings.ReplaceAll(id, "-", "")]. *)
Definition drop_dashes (s : string) : string :=
  of_bytes (List.filter (fun b => negb (Byte.eqb b x2d)) (to_bytes s)).
Definition routedAgentV1ToolCallID (fresh : string) (userID channelID : Z) : string :=
  "toolu_bf_agentv1_u" +:+ Itoa userID +:+ "_c" +:+ Itoa channelID +:+ "_" +:+ drop_dashes fresh.

(** ** Objects *)

(** A channel pair: [mo_sent] is everything ever sent on [events], of which the
    consumer has taken the first [mo_taken]. *)
Record managedOutput := {
  mo_cap : nat; mo_sent : list Event; mo_taken : nat; mo_eventsClosed : bool;
  mo_result : list (option Err); mo_resultClosed : bool; mo_closed : bool }.

(** Enough for a batch of 256 tools, the turn boundary and nearby events. *)
Definition freshOutput : managedOutput :=
  {| mo_cap := Z.to_nat (maxPendingTools * 4); mo_sent := []; mo_taken := 0; mo_eventsClosed := false;
     mo_result := []; mo_resultClosed := false; mo_closed := false |}.
(** [newSnapshotOutput]: the replayed events, closed with their outcome. *)
Definition snapshotOutput (events : list Event) : managedOutput :=
  let '(sent, err) := newSnapshotOutput events in
  {| mo_cap := match err with Some _ => Z.to_nat (maxPendingTools * 4) | None => length sent end;
     mo_sent := sent; mo_taken := 0; mo_eventsClosed := true; mo_result := [err]; mo_resultClosed := true;
     mo_closed := true |}.

Record resumeFlight := {
  fl_key : string; fl_digest : string; fl_done : bool; fl_replay : option CompletedReplay; fl_err : option Err }.

(** What of a session belongs to the segment being captured. *)
Record segment := {
  sg_capturing : bool; sg_batch : list string; sg_results : list ToolResult; sg_snapshot : eventSnapshot;
  sg_followUp : string }.

Record managedSession := {
  ms_owner : OwnerLease; ms_request : RunRequest; ms_cancelled : bool; ms_toolResults : list ToolResult;
  ms_output : option nat; ms_pending : Pending; ms_stateErr : option Err; ms_closed : bool;
  ms_pendingBatch : list string; ms_segment : segment; ms_terminalEvent : option Event;
  ms_flight : option (nat * string * list string); ms_pendingFollowUp : string;
  ms_billingCarry : list Event; ms_disableCallerTools : bool }.

(** What a caller gets back; [po_output] is the channel pair. *)
Record ManagedOutput := {
  po_output : nat; po_RequestSegmentID : string; po_SessionID : string; po_BillingRunID : string;
  po_ConversationID : string; po_OriginalBatch : list string; po_Replay : bool; po_HasPending : bool;
  po_FollowUpApplied : bool }.

Inductive outputSendResult := outputSendOK | outputSendClosed | outputSendFull.

(** ** The manager's memory, with the state [W] of its store *)
Record Mgr (W : Type) := {
  m_active : gmap string nat; m_starting : gset string; m_flights : gmap string nat;
  m_sessions : gmap nat managedSession; m_flightObjs : gmap nat resumeFlight; m_outputs : gmap nat managedOutput;
  m_next : nat; m_uuids : nat; m_contexts : gmap nat Err; m_panicked : bool; m_store : W }.
Arguments m_active {W}. Arguments m_starting {W}. Arguments m_flights {W}. Arguments m_sessions {W}.
Arguments m_flightObjs {W}. Arguments m_outputs {W}. Arguments m_next {W}. Arguments m_uuids {W}.
Arguments m_contexts {W}. Arguments m_panicked {W}. Arguments m_store {W}.

Section memory.
Context {W : Type}.
Definition mgr active starting flights sessions flightObjs outputs next uuids contexts panicked store : Mgr W :=
  {| m_active := active; m_starting := starting; m_flights := flights; m_sessions := sessions;
     m_flightObjs := flightObjs; m_outputs := outputs; m_next := next; m_uuids := uuids; m_contexts := contexts;
     m_panicked := panicked; m_store := store |}.
Definition with_active f (m : Mgr W) := mgr (f (m_active m)) (m_starting m) (m_flights m) (m_sessions m)
  (m_flightObjs m) (m_outputs m) (m_next m) (m_uuids m) (m_contexts m) (m_panicked m) (m_store m).
Definition with_starting f (m : Mgr W) := mgr (m_active m) (f (m_starting m)) (m_flights m) (m_sessions m)
  (m_flightObjs m) (m_outputs m) (m_next m) (m_uuids m) (m_contexts m) (m_panicked m) (m_store m).
Definition with_flights f (m : Mgr W) := mgr (m_active m) (m_starting m) (f (m_flights m)) (m_sessions m)
  (m_flightObjs m) (m_outputs m) (m_next m) (m_uuids m) (m_contexts m) (m_panicked m) (m_store m).
Definition with_sessions f (m : Mgr W) := mgr (m_active m) (m_starting m) (m_flights m) (f (m_sessions m))
  (m_flightObjs m) (m_outputs m) (m_next m) (m_uuids m) (m_contexts m) (m_panicked m) (m_store m).
Definition with_flightObjs f (m : Mgr W) := mgr (m_active m) (m_starting m) (m_flights m) (m_sessions m)
  (f (m_flightObjs m)) (m_outputs m) (m_next m) (m_uuids m) (m_contexts m) (m_panicked m) (m_store m).
Definition with_outputs f (m : Mgr W) := mgr (m_active m) (m_starting m) (m_flights m) (m_sessions m)
  (m_flightObjs m) (f (m_outputs m)) (m_next m) (m_uuids m) (m_contexts m) (m_panicked m) (m_store m).
Definition with_next n (m : Mgr W) := mgr (m_active m) (m_starting m) (m_flights m) (m_sessions m)
  (m_flightObjs m) (m_outputs m) n (m_uuids m) (m_contexts m) (m_panicked m) (m_store m).
Definition with_uuids n (m : Mgr W) := mgr (m_active m) (m_starting m) (m_flights m) (m_sessions m)
  (m_flightObjs m) (m_outputs m) (m_next m) n (m_contexts m) (m_panicked m) (m_store m).
Definition with_contexts f (m : Mgr W) := mgr (m_active m) (m_starting m) (m_flights m) (m_sessions m)
  (m_flightObjs m) (m_outputs m) (m_next m) (m_uuids m) (f (m_contexts m)) (m_panicked m) (m_store m).
Definition panic (m : Mgr W) := mgr (m_active m) (m_starting m) (m_flights m) (m_sessions m)
  (m_flightObjs m) (m_outputs m) (m_next m) (m_uuids m) (m_contexts m) true (m_store m).
Definition with_store w (m : Mgr W) := mgr (m_active m) (m_starting m) (m_flights m) (m_sessions m)
  (m_flightObjs m) (m_outputs m) (m_next m) (m_uuids m) (m_contexts m) (m_panicked m) w.
End memory.

(** Field updates of a session. *)
Definition session owner request cancelled toolResults output pending stateErr closed pendingBatch seg terminal flight
    followUp carry disable : managedSession :=
  {| ms_owner := owner; ms_request := request; ms_cancelled := cancelled; ms_toolResults := toolResults;
     ms_output := output; ms_pending := pending; ms_stateErr := stateErr; ms_closed := closed;
     ms_pendingBatch := pendingBatch; ms_segment := seg; ms_terminalEvent := terminal; ms_flight := flight;
     ms_pendingFollowUp := followUp; ms_billingCarry := carry; ms_disableCallerTools := disable |}.
Definition set_ms_cancelled (s : managedSession) := session (ms_owner s) (ms_request s) true (ms_toolResults s)
  (ms_output s) (ms_pending s) (ms_stateErr s) (ms_closed s) (ms_pendingBatch s) (ms_segment s) (ms_terminalEvent s)
  (ms_flight s) (ms_pendingFollowUp s) (ms_billingCarry s) (ms_disableCallerTools s).
Definition set_ms_toolResults q (s : managedSession) := session (ms_owner s) (ms_request s) (ms_cancelled s) q
  (ms_output s) (ms_pending s) (ms_stateErr s) (ms_closed s) (ms_pendingBatch s) (ms_segment s) (ms_terminalEvent s)
  (ms_flight s) (ms_pendingFollowUp s) (ms_billingCarry s) (ms_disableCallerTools s).
Definition set_ms_output o (s : managedSession) := session (ms_owner s) (ms_request s) (ms_cancelled s) (ms_toolResults s)
  o (ms_pending s) (ms_stateErr s) (ms_closed s) (ms_pendingBatch s) (ms_segment s) (ms_terminalEvent s)
  (ms_flight s) (ms_pendingFollowUp s) (ms_billingCarry s) (ms_disableCallerTools s).
Definition set_ms_pending p (s : managedSession) := session (ms_owner s) (ms_request s) (ms_cancelled s) (ms_toolResults s)
  (ms_output s) p (ms_stateErr s) (ms_closed s) (ms_pendingBatch s) (ms_segment s) (ms_terminalEvent s)
  (ms_flight s) (ms_pendingFollowUp s) (ms_billingCarry s) (ms_disableCallerTools s).
Definition set_ms_stateErr e (s : managedSession) := session (ms_owner s) (ms_request s) (ms_cancelled s) (ms_toolResults s)
  (ms_output s) (ms_pending s) e (ms_closed s) (ms_pendingBatch s) (ms_segment s) (ms_terminalEvent s)
  (ms_flight s) (ms_pendingFollowUp s) (ms_billingCarry s) (ms_disableCallerTools s).
Definition set_ms_closed (s : managedSession) := session (ms_owner s) (ms_request s) (ms_cancelled s) (ms_toolResults s)
  (ms_output s) (ms_pending s) (ms_stateErr s) true (ms_pendingBatch s) (ms_segment s) (ms_terminalEvent s)
  (ms_flight s) (ms_pendingFollowUp s) (ms_billingCarry s) (ms_disableCallerTools s).
Definition set_ms_pendingBatch b (s : managedSession) := session (ms_owner s) (ms_request s) (ms_cancelled s) (ms_toolResults s)
  (ms_output s) (ms_pending s) (ms_stateErr s) (ms_closed s) b (ms_segment s) (ms_terminalEvent s)
  (ms_flight s) (ms_pendingFollowUp s) (ms_billingCarry s) (ms_disableCallerTools s).
Definition set_ms_segment g (s : managedSession) := session (ms_owner s) (ms_request s) (ms_cancelled s) (ms_toolResults s)
  (ms_output s) (ms_pending s) (ms_stateErr s) (ms_closed s) (ms_pendingBatch s) g (ms_terminalEvent s)
  (ms_flight s) (ms_pendingFollowUp s) (ms_billingCarry s) (ms_disableCallerTools s).
Definition set_ms_terminalEvent e (s : managedSession) := session (ms_owner s) (ms_request s) (ms_cancelled s) (ms_toolResults s)
  (ms_output s) (ms_pending s) (ms_stateErr s) (ms_closed s) (ms_pendingBatch s) (ms_segment s) e
  (ms_flight s) (ms_pendingFollowUp s) (ms_billingCarry s) (ms_disableCallerTools s).
Definition set_ms_flight f (s : managedSession) := session (ms_owner s) (ms_request s) (ms_cancelled s) (ms_toolResults s)
  (ms_output s) (ms_pending s) (ms_stateErr s) (ms_closed s) (ms_pendingBatch s) (ms_segment s) (ms_terminalEvent s)
  f (ms_pendingFollowUp s) (ms_billingCarry s) (ms_disableCallerTools s).
Definition set_ms_followUp t (s : managedSession) := session (ms_owner s) (ms_request s) (ms_cancelled s) (ms_toolResults s)
  (ms_output s) (ms_pending s) (ms_stateErr s) (ms_closed s) (ms_pendingBatch s) (ms_segment s) (ms_terminalEvent s)
  (ms_flight s) t (ms_billingCarry s) (ms_disableCallerTools s).
Definition set_ms_owner o disable (s : managedSession) := session o (ms_request s) (ms_cancelled s) (ms_toolResults s)
  (ms_output s) (ms_pending s) (ms_stateErr s) (ms_closed s) (ms_pendingBatch s) (ms_segment s) (ms_terminalEvent s)
  (ms_flight s) (ms_pendingFollowUp s) (ms_billingCarry s) disable.

Definition set_ol (segmentID billingRunID : string) (o : OwnerLease) : OwnerLease :=
  {| ol_RequestSegmentID := segmentID; ol_SessionID := ol_SessionID o; ol_Generation := ol_Generation o;
     ol_Token := ol_Token o; ol_CredentialHash := ol_CredentialHash o; ol_ConversationID := ol_ConversationID o;
     ol_BillingRunID := billingRunID; ol_handle := ol_handle o |}.

(** The segment fields after the captured segment was taken out. *)
Definition emptied (g : segment) : segment :=
  {| sg_capturing := false; sg_batch := []; sg_results := []; sg_snapshot := emptySnapshot; sg_followUp := sg_followUp g |}.
