(* ===== verification/ManagerOps.v ===== *)
(** * The session manager: its handlers (src/cursoragentv1/manager.go, manager_history.go)

    Each handler is a program whose actions are the critical sections of the code
    (under the manager's mutex, a session's, an output's) and its calls of the
    store, so other goroutines may run between any two of them.  The upstream
    engine is a parameter: for each session the events it delivers and how it
    ends. *)
From stdpp Require Import base tactics list gmap strings sorting.
From Stdlib Require Import Strings.Byte.
From S2P Require Import Prelude GoStrings Sha256 Connect Data Json Usage EventSnapshot Segment StoreWorld StoreIndex StoreCompleted StoreState HostedPolicy Conc Manager.
Open Scope Z_scope.

(** ** The store the manager needs, with any state and any outcomes *)
Class StateStore (W : Type) := {
  st_LookupHistory : string -> string -> W -> list (result CompletedReplay * W);
  st_SaveHistory : OwnerLease -> string -> list Event -> W -> list (result unit * W);
  st_Claim : string -> string -> string -> ClaimOptions -> W -> list (result ClaimResult * W);
  st_SaveCheckpoint : OwnerLease -> bytes -> gmap string bytes -> W -> list (result unit * W);
  st_SavePending : OwnerLease -> list PendingTool -> W -> list (result unit * W);
  st_SaveCompleted : OwnerLease -> list ToolResult -> list Event -> bool -> string -> W -> list (result unit * W);
  st_SaveFollowUp : OwnerLease -> string -> W -> list (result unit * W);
  st_SetBillingRunID : OwnerLease -> string -> W -> list (result unit * W);
  st_SaveUsageCarry : OwnerLease -> list Event -> W -> list (result unit * W);
  st_Delete : OwnerLease -> W -> list (result unit * W);
  st_DeleteSession : string -> string -> W -> list (result unit * W);
  st_Release : OwnerLease -> W -> list (result unit * W);
  st_ResolvePending : string -> list string -> W -> list (result string * W);
  st_OriginalPendingBatch : string -> list string -> W -> list (result (list string) * W);
  st_LookupCompleted : string -> list ToolResult -> string -> W -> list (result CompletedReplay * W) }.

(** What an observer of one goroutine sees of it. *)
Inductive Label : Type :=
  | LReserve (sid : string) | LUnreserve (sid : string) | LInstall (sid : string)
  | LClaim | LRelease | LFinished (must_save : bool) | LStored (ok : bool) | LKept (ok : bool) | LIdle (sid : string)
  | LLead (key : string) (flight : nat) | LEnd (key : option string) (flight : nat)
  | LSend (o : nat) (t : EventType) | LClose (o : nat) (e : option Err).

Definition zeroOwner : OwnerLease :=
  {| ol_RequestSegmentID := ""; ol_SessionID := ""; ol_Generation := 0; ol_Token := ""; ol_CredentialHash := "";
     ol_ConversationID := ""; ol_BillingRunID := ""; ol_handle := None |}.
Definition ok_or {A} (r : result A) : option Err := match r with Ok _ => None | Fail e => Some e end.

Section manager.
Context `{Digest} {W : Type} `{StateStore W}.
Context (uuid : nat -> string).
(** [runner.Run] for the session numbered so. *)
Context (engine : nat -> list Event * option Err).
Abbreviation P A := (Prog (Mgr W) Label A).
Abbreviation Sec A := (Sect (Mgr W) A).

(** A call of the store. *)
Definition call {A} (op : W -> list (result A * W)) : Sec (result A) :=
  fun m => (fun x => (x.1, with_store x.2 m)) <$> op (m_store m).
Definition store_op {A} (op : W -> list (result A * W)) : P (result A) := atomic (call op).
(** A call whose success makes the segment replayable, one that keeps the state of a
    running turn, and the release of the lease. *)
Definition save_op (op : W -> list (result unit * W)) : P (result unit) :=
  labelled (fun r => Some (LStored (is_ok r))) (call op).
Definition keep_op (op : W -> list (result unit * W)) : P (result unit) :=
  labelled (fun r => Some (LKept (is_ok r))) (call op).
Definition release_op (owner : OwnerLease) : P (result unit) :=
  labelled (fun _ => Some LRelease) (call (st_Release owner)).
Definition claim_op (sid cid fp : string) (options : ClaimOptions) : P (result ClaimResult) :=
  labelled (fun r => match r with
                     | Ok c => match cl_Owner c with Some _ => Some LClaim | None => None end
                     | Fail _ => None end) (call (st_Claim sid cid fp options)).

Definition new_id : Sec nat := n ← get m_next; _ ← put (with_next (S n)); mret n.
Definition NewString : P string := atomic (n ← get m_uuids; _ ← put (with_uuids (S n)); mret (uuid n)).
Definition ctx_err (c : option nat) : P (option Err) := atomic (get (fun m => c ≫= fun c => m_contexts m !! c)).

Definition upd_session (x : nat) (f : managedSession -> managedSession) : Sec unit := put (with_sessions (alter f x)).
(** The section under a session's mutex; a session pointer is never dangling. *)
Definition with_session {A} (x : nat) (f : managedSession -> Sec A) : Sec A :=
  s ← get (fun m => m_sessions m !! x);
  match s with Some s => f s | None => block end.

(** ** Outputs *)

Definition newManagedOutput : Sec nat :=
  o ← new_id; _ ← put (with_outputs <[o := freshOutput]>); mret o.

(** [o.result <- err] and [close] of a channel, with Go's panics and blocking. *)
Definition output_close (o : nat) (err : option Err) : P unit :=
  labelled (fun closed => if closed : bool then Some (LClose o err) else None) (
    x ← get (fun m => m_outputs m !! o);
    match x with
    | None => block
    | Some x =>
        if mo_closed x then mret false
        else
          _ ← (if mo_eventsClosed x || mo_resultClosed x then put panic else mret tt);
          if bool_decide (mo_result x = []) then
            _ ← put (with_outputs <[o := {| mo_cap := mo_cap x; mo_sent := mo_sent x; mo_taken := mo_taken x;
                  mo_eventsClosed := true; mo_result := [err]; mo_resultClosed := true; mo_closed := true |}]>);
            mret true
          else block
    end) ≫= fun _ => mret tt.

Definition output_send (o : nat) (event : Event) : P outputSendResult :=
  labelled (fun r => match r with outputSendOK => Some (LSend o (ev_Type event)) | _ => None end) (
    x ← get (fun m => m_outputs m !! o);
    match x with
    | None => block
    | Some x =>
        if mo_closed x then mret outputSendClosed
        else if (length (mo_sent x) - mo_taken x <? mo_cap x)%nat then
          _ ← (if mo_eventsClosed x then put panic else mret tt);
          _ ← put (with_outputs <[o := {| mo_cap := mo_cap x; mo_sent := mo_sent x ++ [event]; mo_taken := mo_taken x;
                mo_eventsClosed := mo_eventsClosed x; mo_result := mo_result x; mo_resultClosed := mo_resultClosed x;
                mo_closed := mo_closed x |}]>);
          mret outputSendOK
        else mret outputSendFull
    end).

Definition public (o : nat) (sessionID billingRunID : string) : ManagedOutput :=
  {| po_output := o; po_RequestSegmentID := ""; po_SessionID := sessionID; po_BillingRunID := billingRunID;
     po_ConversationID := ""; po_OriginalBatch := []; po_Replay := false; po_HasPending := false;
     po_FollowUpApplied := false |}.

Definition emitCompletedReplay (replay : CompletedReplay) : P ManagedOutput :=
  o ← atomic (o ← new_id; _ ← put (with_outputs <[o := snapshotOutput (rp_Events replay)]>); mret o);
  mret {| po_output := o; po_RequestSegmentID := rp_RequestSegmentID replay; po_SessionID := rp_SessionID replay;
          po_BillingRunID := rp_BillingRunID replay; po_ConversationID := rp_ConversationID replay;
          po_OriginalBatch := rp_OriginalBatch replay; po_Replay := true; po_HasPending := rp_HasPending replay;
          po_FollowUpApplied := negb (bool_decide (TrimSpace (rp_FollowUpText replay) = "")) |}.

(** ** Reservations *)

Definition reserve (sessionID : string) : P bool :=
  labelled (fun ok => if ok : bool then Some (LReserve sessionID) else None) (
    active ← get m_active;
    starting ← get m_starting;
    match active !! sessionID with
    | Some _ => mret false
    | None =>
        if bool_decide (sessionID ∈ starting) then mret false
        else _ ← put (with_starting (union {[sessionID]})); mret true
    end).
Definition releaseReservation (sessionID : string) : P unit :=
  labelled (fun _ => Some (LUnreserve sessionID)) (put (with_starting (fun s => s ∖ {[sessionID]}))).

(** ** Resume flights *)

Definition beginResumeFlight (fingerprint : string) (batchIDs : list string) (digest followUp : string)
    : P (result (nat * bool)) :=
  let key := resumeFlightKey fingerprint batchIDs followUp in
  labelled (fun r => match r with Ok (f, true) => Some (LLead key f) | _ => None end) (
    existing ← get (fun m => f ← m_flights m !! key; x ← m_flightObjs m !! f; Some (f, x));
    match existing with
    | Some (f, x) =>
        if negb (bool_decide (fl_digest x = digest)) then mret (Fail ErrToolResultConflict) else mret (Ok (f, false))
    | None =>
        f ← new_id;
        _ ← put (with_flightObjs <[f := {| fl_key := key; fl_digest := digest; fl_done := false;
                                           fl_replay := None; fl_err := None |}]>);
        _ ← put (with_flights <[key := f]>);
        mret (Ok (f, true))
    end).

(** [close(flight.done)]: closing a closed channel panics. *)
Definition close_done (flight : nat) : Sec unit :=
  x ← get (fun m => m_flightObjs m !! flight);
  match x with
  | None => block
  | Some x =>
      if fl_done x then put panic
      else put (with_flightObjs <[flight := {| fl_key := fl_key x; fl_digest := fl_digest x; fl_done := true;
                                               fl_replay := fl_replay x; fl_err := fl_err x |}]>)
  end.

Definition endResumeFlight (fingerprint : string) (batchIDs : list string) (flight : nat)
    (replay : option CompletedReplay) (err : option Err) : P unit :=
  labelled (fun key => Some (LEnd key flight)) (
    x ← get (fun m => m_flightObjs m !! flight);
    match x with
    | None => block
    | Some x =>
        let key := if bool_decide (fl_key x = "") then resumeFlightKey fingerprint batchIDs "" else fl_key x in
        current ← get (fun m => m_flights m !! key);
        let registered := bool_decide (current = Some flight) in
        _ ← (if registered then put (with_flights (delete key)) else mret tt);
        _ ← (if fl_done x then mret tt
             else
               _ ← put (with_flightObjs <[flight := {| fl_key := fl_key x; fl_digest := fl_digest x; fl_done := fl_done x;
                     fl_replay := match replay with Some r => Some r | None => fl_replay x end; fl_err := err |}]>);
               close_done flight);
        mret (if registered then Some key else None)
    end) ≫= fun _ => mret tt.

(** The follower blocks until its context or the flight is done; [select] may
    take either branch when both are. *)
Definition waitResumeFlight (ctx : option nat) (flight : nat) : P (result ManagedOutput) :=
  woken ← atomic (fun m =>
    match ctx ≫= fun c => m_contexts m !! c with Some e => [(inl e, m)] | None => [] end ++
    match m_flightObjs m !! flight with
    | Some x => if fl_done x then [(inr (fl_err x, fl_replay x), m)] else []
    | None => []
    end);
  match woken with
  | inl e => mret (Fail e)
  | inr (Some e, _) => mret (Fail e)
  | inr (None, None) => mret (Fail ErrSessionNotPending)
  | inr (None, Some replay) =>
      e ← ctx_err ctx;
      match e with
      | Some e => mret (Fail e)
      | None => output ← emitCompletedReplay replay; mret (Ok output)
      end
  end.

Definition bindResumeFlight (sessionID fingerprint : string) (batchIDs : list string) (flight : nat) : P unit :=
  session ← atomic (get (fun m => m_active m !! sessionID));
  match session with
  | None => mret tt
  | Some x => atomic (upd_session x (set_ms_flight (Some (flight, fingerprint, batchIDs))))
  end.

Definition finishFlight (x : nat) (err : option Err) (results : list ToolResult) (events : list Event)
    (hasPending : bool) (followUp : string) : P unit :=
  taken ← atomic (with_session x (fun s =>
    _ ← upd_session x (set_ms_flight None); mret (ms_flight s, ms_owner s)));
  let '(flight, owner) := taken in
  match flight with
  | None => mret tt
  | Some (flight, fingerprint, batchIDs) =>
      let replay :=
        if bool_decide (err = None) && negb (bool_decide (results = [])) then
          Some {| rp_RequestSegmentID := ol_RequestSegmentID owner; rp_SessionID := ol_SessionID owner;
                  rp_ConversationID := ol_ConversationID owner; rp_BillingRunID := ol_BillingRunID owner;
                  rp_OriginalBatch := batchIDs; rp_Events := events; rp_HasPending := hasPending;
                  rp_FollowUpText := followUp |}
        else None in
      endResumeFlight fingerprint batchIDs flight replay err
  end.

(** ** A running session *)

Definition failState (x : nat) (err : Err) : P unit :=
  _ ← atomic (upd_session x (fun s => match ms_stateErr s with None => set_ms_stateErr (Some err) s | Some _ => s end));
  atomic (upd_session x set_ms_cancelled).

Definition errBufferFull : Err := ErrMsg "Cursor Agent v1 downstream event buffer is full".

Definition emit (x : nat) (event : Event) : P unit :=
  r ← atomic (with_session x (fun s =>
    match ms_stateErr s with
    | Some _ => mret (inr None)
    | None =>
        let g := ms_segment s in
        let '(err, snapshot) := if sg_capturing g then append (sg_snapshot g) event else (None, sg_snapshot g) in
        _ ← upd_session x (set_ms_segment {| sg_capturing := sg_capturing g; sg_batch := sg_batch g;
              sg_results := sg_results g; sg_snapshot := snapshot; sg_followUp := sg_followUp g |});
        match err with
        | Some e => mret (inl e)
        | None =>
            if bool_decide (ev_Type event = EventDone)
            then _ ← upd_session x (set_ms_terminalEvent (Some (cloneEvent event))); mret (inr None)
            else mret (inr (ms_output s))
        end
    end));
  match r with
  | inl e => failState x e
  | inr None => mret tt
  | inr (Some o) =>
      sent ← output_send o event;
      match sent with outputSendFull => failState x errBufferFull | _ => mret tt end
  end.

Definition errParkedTool : Err := ErrMsg "Cursor Agent v1 received a new tool call after the downstream turn was parked".

Definition handle_tool_call (x : nat) (event : Event) (tool : ToolCall) : P unit :=
  let upstream := TrimSpace (tc_ToolCallID tool) in
  first ← atomic (with_session x (fun s =>
    mret (negb (bool_decide (findPublicToolCallIDs (ms_pending s) upstream = [])), ms_disableCallerTools s,
          rr_Options (ms_request s))));
  let '(known, disabled, options) := first in
  if (known : bool) then mret tt
  else if (disabled : bool) then failState x ErrCallerToolsDisabled
  else
    publicID ← (if (0 <? ro_RouteUserID options) && (0 <? ro_RouteChannelID options)
                then fresh ← NewString; mret (routedAgentV1ToolCallID fresh (ro_RouteUserID options) (ro_RouteChannelID options))
                else mret upstream);
    let pending := {| pt_MessageID := tc_MessageID tool; pt_ExecID := tc_ExecID tool; pt_ToolCallID := publicID;
                      pt_UpstreamToolCallID := upstream; pt_Name := tc_Name tool; pt_Arguments := tc_Arguments tool |} in
    second ← atomic (with_session x (fun s =>
      match ms_pending s !! publicID with
      | Some _ => mret (Some None)
      | None =>
          if bool_decide (ms_output s = None) then mret (Some (Some errParkedTool))
          else if ms_disableCallerTools s then mret (Some (Some ErrCallerToolsDisabled))
          else _ ← upd_session x (set_ms_pending (<[publicID := pending]> (ms_pending s))); mret None
      end));
    match second with
    | Some None => mret tt
    | Some (Some e) => failState x e
    | None =>
        emit x (with_tool_call (Some {| tc_MessageID := tc_MessageID tool; tc_ExecID := tc_ExecID tool;
          tc_ToolCallID := publicID; tc_Name := tc_Name tool; tc_Arguments := tc_Arguments tool |}) event)
    end.

Definition handleEvent (x : nat) (event : Event) : P unit :=
  match ev_Type event with
  | EventCheckpoint =>
      owner ← atomic (with_session x (fun s => mret (ms_owner s)));
      r ← keep_op (st_SaveCheckpoint owner (ev_Checkpoint event) (ev_Blobs event));
      match r with Ok _ => mret tt | Fail e => failState x e end
  | EventToolCall =>
      match ev_ToolCall event with
      | None => failState x (ErrMsg "Cursor Agent v1 tool event is empty")
      | Some tool => handle_tool_call x event tool
      end
  | EventToolResultAccepted =>
      match ev_ToolResult event with
      | None => mret tt
      | Some accepted =>
          p ← atomic (with_session x (fun s =>
            id ← choose (publicToolCallIDsForUpstream (ms_pending s) (tr_ToolCallID accepted));
            let pending := delete id (ms_pending s) in
            _ ← upd_session x (set_ms_pending pending);
            mret (pendingValues pending, ms_owner s)));
          r ← keep_op (st_SavePending p.2 p.1);
          match r with Fail e => failState x e | Ok _ => emit x event end
      end
  | _ => emit x event
  end.

(** [toolResultsForBatch], keeping the results when they do not cover the batch. *)
Definition batch_results (results : list ToolResult) (batch : list string) : list ToolResult :=
  match toolResultsForBatch results batch with Some filtered => filtered | None => results end.

(** What [run] takes out of the session under both mutexes. *)
Record Finished := {
  fi_owner : OwnerLease; fi_request : RunRequest; fi_output : option nat; fi_pending : bool;
  fi_terminal : option Event; fi_segment : segment }.
Definition take_finished (x : nat) : Sec Finished :=
  with_session x (fun s =>
    _ ← upd_session x (fun s => set_ms_segment (emptied (ms_segment s)) (set_ms_output None (set_ms_closed s)));
    mret {| fi_owner := ms_owner s; fi_request := ms_request s; fi_output := ms_output s;
            fi_pending := negb (bool_decide (ms_pending s = ∅)); fi_terminal := ms_terminalEvent s;
            fi_segment := ms_segment s |}).

(** A history turn, or a segment that answers tool results. *)
Definition must_save (f : Finished) : bool :=
  negb (bool_decide (HistoryRequestKey (fi_request f) = "")) || negb (bool_decide (sg_results (fi_segment f) = [])).

(** [run] once the engine has returned [outcome]. *)
Definition finish_run (x : nat) (outcome : option Err) : P unit :=
  err ← atomic (with_session x (fun s => mret (match ms_stateErr s with Some e => Some e | None => outcome end)));
  f ← labelled (fun f => Some (LFinished (must_save f))) (take_finished x);
  let owner := fi_owner f in
  let events := es_events (sg_snapshot (fi_segment f)) in
  let followUp := sg_followUp (fi_segment f) in
  let history := HistoryRequestKey (fi_request f) in
  let delete_done := ro_DeleteCompletedState (rr_Options (fi_request f)) && negb (fi_pending f) in
  err ← (if bool_decide (err = None) && negb (bool_decide (history = ""))
         then r ← save_op (st_SaveHistory owner history events); mret (ok_or r) else mret err);
  saved ← (if bool_decide (err = None) && bool_decide (history = "") && negb (bool_decide (sg_results (fi_segment f) = []))
           then
             let results := batch_results (sg_results (fi_segment f)) (sg_batch (fi_segment f)) in
             r ← save_op (st_SaveCompleted owner results events delete_done followUp);
             mret (ok_or r, results)
           else mret (err, sg_results (fi_segment f)));
  let '(err, results) := saved in
  _ ← finishFlight x err results events (fi_pending f) followUp;
  _ ← (if bool_decide (err = None) && bool_decide (history = "") && delete_done && bool_decide (results = [])
       then _ ← store_op (st_Delete owner); mret tt else mret tt);
  _ ← release_op owner;
  _ ← labelled (fun _ => Some (LIdle (ol_SessionID owner)))
        (put (with_active (fun a => if bool_decide (a !! ol_SessionID owner = Some x) then delete (ol_SessionID owner) a else a)));
  _ ← match fi_output f with
      | None => mret tt
      | Some o =>
          err ← match fi_terminal f with
                | Some e =>
                    if bool_decide (err = None) then
                      sent ← output_send o e;
                      match sent with outputSendFull => mret (Some errBufferFull) | _ => mret err end
                    else mret err
                | None => mret err
                end;
          output_close o err
      end;
  atomic (upd_session x set_ms_cancelled).

Definition session_run (x : nat) : P unit :=
  let '(events, outcome) := engine x in
  _ ← prog_each events (handleEvent x);
  finish_run x outcome.

(** ** Starting and resuming a session *)

Definition with_run (profile conversation user followUp : string) (tools : list ToolDefinition) (checkpoint : bytes)
    (blobs : gmap string bytes) (resume : bool) (r : RunRequest) : RunRequest :=
  {| rr_Options := rr_Options r; rr_RuntimeProfile := profile; rr_ConversationID := conversation; rr_UserText := user;
     rr_FollowUpText := followUp; rr_Tools := tools; rr_InitialCheckpoint := checkpoint; rr_InitialBlobs := blobs;
     rr_Resume := resume |}.

(** The session goes under its name, and its reservation ends, unless one runs already. *)
Definition install (sessionID : string) (x : nat) : P bool :=
  labelled (fun ok => if ok : bool then Some (LInstall sessionID) else None) (
    active ← get m_active;
    match active !! sessionID with
    | Some _ => mret false
    | None =>
        _ ← put (with_starting (fun s => s ∖ {[sessionID]}));
        _ ← put (with_active <[sessionID := x]>);
        mret true
    end).

Definition startClaimed (request : RunRequest) (owner : OwnerLease) (restored : list PendingTool)
    (initialResults covering : list ToolResult) (originalBatch : list string) (carry : list Event)
    (disableCallerTools : bool) : P (result ManagedOutput) :=
  let originalBatch := if bool_decide (originalBatch = []) then pendingToolIDs restored else originalBatch in
  let pending := pendingFrom restored in
  made ← atomic (
    x ← new_id;
    o ← newManagedOutput;
    _ ← put (with_sessions <[x := session owner request false [] (Some o) pending None false originalBatch
          {| sg_capturing := negb (bool_decide (HistoryRequestKey request = "")) || negb (bool_decide (covering = []))
                             || negb (bool_decide (carry = []));
             sg_batch := originalBatch; sg_results := covering; sg_snapshot := emptySnapshot;
             sg_followUp := completedFollowUp request |}
          None None (TrimSpace (rr_FollowUpText request)) (usageEvidenceEvents carry) disableCallerTools]>);
    mret (x, o));
  let '(x, o) := made in
  installed ← install (ol_SessionID owner) x;
  if negb (installed : bool) then
    _ ← atomic (upd_session x set_ms_cancelled);
    _ ← release_op owner;
    mret (Fail ErrSessionActive)
  else
    _ ← prog_each initialResults (fun result =>
          atomic (with_session x (fun s =>
            if (Z.of_nat (length (ms_toolResults s)) <? maxPendingTools)
            then upd_session x (set_ms_toolResults (ms_toolResults s ++ [upstreamToolResult (ms_pending s) result]))
            else block)));
    _ ← fork (_ ← prog_each carry (emit x); session_run x);
    mret (Ok {| po_output := o; po_RequestSegmentID := ol_RequestSegmentID owner; po_SessionID := ol_SessionID owner;
                po_BillingRunID := ol_BillingRunID owner; po_ConversationID := ol_ConversationID owner;
                po_OriginalBatch := originalBatch; po_Replay := false; po_HasPending := false; po_FollowUpApplied := false |}).

Definition errQueueFull : Err := ErrMsg "Cursor Agent v1 tool result queue is full".

(** The non-blocking sends of [resume]; the first that fails ends it. *)
Fixpoint queue_results (x o : nat) (results : list ToolResult) : P (option Err) :=
  match results with
  | [] => mret None
  | result :: results =>
      sent ← atomic (with_session x (fun s =>
        if (Z.of_nat (length (ms_toolResults s)) <? maxPendingTools)
        then _ ← upd_session x (set_ms_toolResults (ms_toolResults s ++ [result])); mret true
        else mret false));
      if sent : bool then queue_results x o results
      else
        _ ← atomic (upd_session x (fun s => if bool_decide (ms_output s = Some o) then set_ms_output None s else s));
        _ ← output_close o (Some errQueueFull);
        mret (Some errQueueFull)
  end.

Definition resume (x : nat) (results : list ToolResult) (originalBatch : list string) (segmentResults : list ToolResult)
    (segmentID : string) (disableCallerTools : bool) : P (result ManagedOutput) :=
  first ← atomic (with_session x (fun s =>
    if ms_closed s || negb (bool_decide (ms_output s = None)) then mret (Fail ErrSessionActive)
    else match filterPendingMapResults (ms_pending s) results with
         | None => mret (Fail ErrSessionNotPending)
         | Some filtered => mret (Ok (filtered, ms_owner s))
         end));
  match first with
  | Fail e => mret (Fail e)
  | Ok (filtered, owner) =>
      let requestSegmentID := segmentID in
      let segmentID := if isMeteredTurn (ol_BillingRunID owner) then ol_BillingRunID owner else segmentID in
      billed ← (if negb (bool_decide (TrimSpace segmentID = "")) && negb (bool_decide (segmentID = ol_BillingRunID owner))
                then store_op (st_SetBillingRunID owner segmentID) else mret (Ok tt));
      match billed with
      | Fail e => mret (Fail e)
      | Ok _ =>
          second ← atomic (with_session x (fun s =>
            if ms_closed s || negb (bool_decide (ms_output s = None)) then mret None
            else
              o ← newManagedOutput;
              let owner := set_ol requestSegmentID
                (if bool_decide (TrimSpace segmentID = "") then ol_BillingRunID (ms_owner s) else segmentID) (ms_owner s) in
              let batch := if negb (bool_decide (originalBatch = [])) then originalBatch
                           else if negb (bool_decide (ms_pendingBatch s = [])) then ms_pendingBatch s
                           else pendingToolIDs (pendingValues (ms_pending s)) in
              _ ← upd_session x (fun s =>
                    set_ms_segment {| sg_capturing := true; sg_batch := batch;
                      sg_results := if bool_decide (segmentResults = []) then results else segmentResults;
                      sg_snapshot := emptySnapshot; sg_followUp := "" |}
                    (set_ms_output (Some o) (set_ms_owner owner disableCallerTools s)));
              mret (Some (o, owner, batch, map (upstreamToolResult (ms_pending s)) filtered,
                          usageEvidenceEvents (ms_billingCarry s)))));
          match second with
          | None => mret (Fail ErrSessionActive)
          | Some (o, owner, batch, upstream, carry) =>
              _ ← prog_each carry (emit x);
              err ← queue_results x o upstream;
              match err with
              | Some e => mret (Fail e)
              | None =>
                  mret (Ok {| po_output := o; po_RequestSegmentID := requestSegmentID; po_SessionID := ol_SessionID owner;
                              po_BillingRunID := ol_BillingRunID owner; po_ConversationID := ""; po_OriginalBatch := batch;
                              po_Replay := false; po_HasPending := false; po_FollowUpApplied := false |})
              end
          end
      end
  end.

(** [defer func() { if reserved { m.releaseReservation(sessionID) } }()]: the body
    says whether it still holds the reservation. *)
Definition with_reservation {A} (sessionID : string) (body : P (A * bool)) : P A :=
  prog_bind body (fun r : A * bool =>
  _ ← (if r.2 then releaseReservation sessionID else mret tt);
  mret r.1).

(** The deferred release after [startClaimed]: kept only when it failed. *)
Definition started {A} (r : result A) : result A * bool := (r, negb (is_ok r)).

(** [store.LookupCompleted], normalised for a new turn's text. *)
Definition lookupFollowUpReplay (fingerprint : string) (covering : list ToolResult) (followUp : string)
    : P (result (option ManagedOutput)) :=
  if bool_decide (covering = []) then mret (Ok None)
  else
    r ← store_op (st_LookupCompleted fingerprint covering followUp);
    match r with
    | Fail e => if errors_is e ErrSessionNotPending then mret (Ok None) else mret (Fail e)
    | Ok replay =>
        if negb (bool_decide (normalizeFollowUp (rp_FollowUpText replay) = normalizeFollowUp followUp))
           || bool_decide (rp_FollowUpText replay = "")
        then mret (Ok None)
        else output ← emitCompletedReplay replay; mret (Ok (Some output))
    end.

Definition lookupRequestReplay (fingerprint : string) (results : list ToolResult) (followUp : string)
    : P (result CompletedReplay) :=
  r ← store_op (st_LookupCompleted fingerprint results followUp);
  match r with
  | Ok replay => mret (Ok replay)
  | Fail e =>
      if negb (errors_is e ErrSessionNotPending) then mret (Fail e)
      else if bool_decide (normalizeFollowUp followUp = "") then mret (Fail e)
      else
        original ← store_op (st_LookupCompleted fingerprint results "");
        match original with
        | Fail _ => mret (Fail e)
        | Ok o => mret (Ok {| rp_RequestSegmentID := rp_RequestSegmentID o; rp_SessionID := rp_SessionID o;
            rp_ConversationID := rp_ConversationID o; rp_BillingRunID := rp_BillingRunID o;
            rp_OriginalBatch := rp_OriginalBatch o; rp_Events := rp_Events o; rp_HasPending := rp_HasPending o;
            rp_FollowUpText := "" |})
        end
  end.

Definition conversation_or_new (conversationID : string) : P string :=
  let conversationID := TrimSpace conversationID in
  if bool_decide (conversationID = "") then NewString else mret conversationID.

Definition errSessionRequired : Err := ErrMsg "Cursor Agent v1 session id is required".

(** [Start] from the reservation on. *)
Definition start_reserved (request : ManagedRequest) (sessionID : string) : P (result ManagedOutput * bool) :=
  let run := mr_Run request in
  match CredentialFingerprint (mr_CredentialScope request) (mr_AccountKey request) with
  | Fail e => mret (Fail e, true)
  | Ok fingerprint =>
      conversationID ← conversation_or_new (rr_ConversationID run);
      fresh ← NewString;
      claim ← claim_op sessionID conversationID fingerprint
        {| co_RuntimeProfile := rr_RuntimeProfile run; co_HistoryRequestKey := HistoryRequestKey run;
           co_AllowPending := negb (bool_decide (HistoryRequestKey run = "")); co_RequireExisting := mr_RequireExisting request;
           co_AllowCredentialChange := negb (mr_RequireExisting request); co_ToolCatalogDigest := mr_ToolCatalogDigest request;
           co_ToolCatalog := rr_Tools run; co_RequireToolCatalog := false;
           co_NewBillingRunID := billingIDForRequest fresh request; co_ReuseBillingRun := mr_ReuseBillingRun request |};
      match claim with
      | Fail e =>
          if errors_is e ErrStatePending then mret (Fail ErrSessionPending, true)
          else if errors_is e ErrNotExist then mret (Fail ErrSessionNotPending, true)
          else mret (Fail e, true)
      | Ok claim =>
          match cl_Replay claim with
          | Some replay => output ← emitCompletedReplay replay; mret (Ok output, true)
          | None =>
              let owner := default zeroOwner (cl_Owner claim) in
              let snapshot := cl_Snapshot claim in
              let run := with_run (normalizeRuntimeProfile (ss_RuntimeProfile snapshot)) (ol_ConversationID owner)
                (rr_UserText run) (rr_FollowUpText run) (rr_Tools run) (ss_Checkpoint snapshot) (ss_Blobs snapshot) false run in
              output ← startClaimed run (set_ol (mr_BillingRunID request) (ol_BillingRunID owner) owner)
                (ss_PendingTools snapshot) [] [] [] [] (mr_DisableCallerTools request);
              mret (started output)
          end
      end
  end.

Definition start_session (request : ManagedRequest) (sessionID : string) : P (result ManagedOutput) :=
  let sessionID := TrimSpace sessionID in
  if bool_decide (sessionID = "") then mret (Fail errSessionRequired)
  else
    ok ← reserve sessionID;
    if negb (ok : bool) then mret (Fail ErrSessionActive)
    else with_reservation sessionID (start_reserved request sessionID).

Definition Start (request : ManagedRequest) : P (result ManagedOutput) :=
  let key := HistoryRequestKey (mr_Run request) in
  if bool_decide (key = "") then start_session request (mr_SessionID request)
  else
    match CredentialFingerprint (mr_CredentialScope request) (mr_AccountKey request) with
    | Fail e => mret (Fail e)
    | Ok fingerprint =>
        r ← store_op (st_LookupHistory fingerprint key);
        match r with
        | Ok replay => output ← emitCompletedReplay replay; mret (Ok output)
        | Fail e =>
            if negb (errors_is e ErrSessionNotPending) then mret (Fail e)
            else start_session request (historySessionID fingerprint key)
        end
    end.

(** [StartHistory]: one [Start] every 25ms until the context ends; it ends here
    after [attempts] of them, for any number. *)
Fixpoint StartHistory (attempts : nat) (ended : Err) (request : ManagedRequest) : P (result ManagedOutput) :=
  match attempts with
  | O => mret (Fail ended)
  | S attempts =>
      e ← ctx_err (mr_Context request);
      match e with
      | Some e => mret (Fail e)
      | None =>
          r ← Start request;
          match r with
          | Fail e =>
              if errors_is e ErrSessionActive || errors_is e ErrStateLeaseHeld
              then StartHistory attempts ended request else mret (Fail e)
          | Ok output => mret (Ok output)
          end
      end
  end.

(** ** Resuming with tool results *)

Definition trim_result (r : ToolResult) : ToolResult :=
  {| tr_ToolCallID := TrimSpace (tr_ToolCallID r); tr_Content := tr_Content r; tr_IsError := tr_IsError r;
     tr_Media := tr_Media r |}.

(** A leader's early return: the flight ends with the error. *)
Definition fail_flight {A} (fingerprint : string) (batch : list string) (flight : nat) (err : Err) : P (result A) :=
  _ ← endResumeFlight fingerprint batch flight None (Some err);
  mret (Fail err).
(** The same once a lease was claimed. *)
Definition fail_claimed {A} (fingerprint : string) (batch : list string) (flight : nat) (owner : OwnerLease) (err : Err)
    : P (result A * bool) :=
  _ ← release_op owner;
  r ← fail_flight fingerprint batch flight err;
  mret (r, true).

Section resume.
(** The request, its accepted results and its flight, as [ResumeTools] computes them. *)
Context (request : ManagedRequest) (results : list ToolResult) (fingerprint : string) (originalBatch : list string)
        (accepted : list CompletedToolResult) (followUp : string) (flight : nat).
Abbreviation fail_with e := (fail_flight fingerprint originalBatch flight e).

Definition resume_active (x : nat) (sessionID segmentID : string) : P (result ManagedOutput) :=
  owner ← atomic (with_session x (fun s => mret (ms_owner s)));
  if isMeteredTurn (ol_BillingRunID owner) && negb (mr_TurnMetering request) then fail_with meteringVersionError
  else if negb (bool_decide (ol_CredentialHash owner = fingerprint)) then fail_with ErrCredentialMismatch
  else
    _ ← (if bool_decide (followUp = "") then mret tt else atomic (upd_session x (set_ms_followUp followUp)));
    _ ← bindResumeFlight sessionID fingerprint originalBatch flight;
    output ← resume x results originalBatch (toolResultsFromCanonical accepted) segmentID (mr_DisableCallerTools request);
    match output with
    | Fail e => fail_with e
    | Ok output => mret (Ok output)
    end.

Definition resume_claimed (sessionID segmentID : string) : P (result ManagedOutput * bool) :=
  let run := mr_Run request in
  conversationID ← conversation_or_new (rr_ConversationID run);
  claim ← claim_op sessionID conversationID fingerprint
    {| co_RuntimeProfile := rr_RuntimeProfile run; co_HistoryRequestKey := ""; co_AllowPending := true;
       co_RequireExisting := true; co_AllowCredentialChange := false;
       co_ToolCatalogDigest := mr_ToolCatalogDigest request; co_ToolCatalog := []; co_RequireToolCatalog := true;
       co_NewBillingRunID := segmentID; co_ReuseBillingRun := false |};
  match claim with
  | Fail e => r ← fail_with (if errors_is e ErrNotExist then ErrSessionNotPending else e); mret (r, true)
  | Ok claim =>
      let owner := default zeroOwner (cl_Owner claim) in
      let snapshot := cl_Snapshot claim in
      if isMeteredTurn (ol_BillingRunID owner) && negb (mr_TurnMetering request)
      then fail_claimed fingerprint originalBatch flight owner meteringVersionError
      else
        match filterPendingResults (ss_PendingTools snapshot) results with
        | None => fail_claimed fingerprint originalBatch flight owner ErrSessionNotPending
        | Some filtered =>
            if cl_ColdRebuild claim then fail_claimed fingerprint originalBatch flight owner ErrSessionNotPending
            else
              let owned := negb (bool_decide (ss_ToolCatalog snapshot = [])) in
              let tools := if owned then [] else rr_Tools run in
              let digest := if owned then "" else mr_ToolCatalogDigest request in
              match applyCallerToolCatalog request digest tools (ss_ToolCatalog snapshot) true with
              | Fail e => fail_claimed fingerprint originalBatch flight owner e
              | Ok tools =>
                  let followUp := if bool_decide (followUp = "") then TrimSpace (ss_FollowUpText snapshot) else followUp in
                  let run := with_run (normalizeRuntimeProfile (ss_RuntimeProfile snapshot)) (ol_ConversationID owner) ""
                    (rr_FollowUpText run) tools (ss_Checkpoint snapshot) (ss_Blobs snapshot) true run in
                  output ← startClaimed run (set_ol segmentID (ol_BillingRunID owner) owner) (ss_PendingTools snapshot)
                    filtered (toolResultsFromCanonical accepted) (stateBatch snapshot) (ss_UsageCarry snapshot)
                    (mr_DisableCallerTools request);
                  match output with
                  | Fail e => r ← fail_with e; mret (r, true)
                  | Ok output =>
                      _ ← (if bool_decide (followUp = "") then mret tt
                           else atomic (active ← get (fun m => m_active m !! sessionID);
                                match active with Some x => upd_session x (set_ms_followUp followUp) | None => mret tt end));
                      _ ← bindResumeFlight sessionID fingerprint originalBatch flight;
                      mret (Ok output, false)
                  end
              end
        end
  end.

(** [ResumeTools] as the leader of its flight. *)
Definition resume_leader (submittedIDs : list string) : P (result ManagedOutput) :=
  pending ← store_op (st_ResolvePending fingerprint submittedIDs);
  match pending with
  | Fail e =>
      if negb (errors_is e ErrSessionNotPending) then fail_with e
      else
        replay ← lookupRequestReplay fingerprint results followUp;
        match replay with
        | Ok replay =>
            if isMeteredTurn (rp_BillingRunID replay) && negb (mr_TurnMetering request) then fail_with meteringVersionError
            else
              output ← emitCompletedReplay replay;
              _ ← endResumeFlight fingerprint originalBatch flight (Some replay) None;
              mret (Ok output)
        | Fail e => if negb (errors_is e ErrSessionNotPending) then fail_with e else fail_with ErrSessionNotPending
        end
  | Ok sessionID =>
      let lookupResults := if bool_decide (sessionID = "") then results else toolResultsFromCanonical accepted in
      replay ← lookupRequestReplay fingerprint lookupResults followUp;
      match replay with
      | Ok replay =>
          if isMeteredTurn (rp_BillingRunID replay) && negb (mr_TurnMetering request) then fail_with meteringVersionError
          else
            output ← emitCompletedReplay replay;
            _ ← endResumeFlight fingerprint originalBatch flight (Some replay) None;
            mret (Ok output)
      | Fail e =>
          if negb (errors_is e ErrSessionNotPending) then fail_with e
          else if bool_decide (sessionID = "") then fail_with ErrSessionNotPending
          else
            let segmentID := generationSegmentID fingerprint originalBatch accepted followUp in
            active ← atomic (get (fun m => m_active m !! sessionID));
            match active with
            | Some x => resume_active x sessionID segmentID
            | None =>
                ok ← reserve sessionID;
                if negb (ok : bool) then fail_with ErrSessionActive
                else with_reservation sessionID (resume_claimed sessionID segmentID)
            end
      end
  end.
End resume.

Definition ResumeTools (request : ManagedRequest) (results : list ToolResult) : P (result ManagedOutput) :=
  let results := trim_result <$> results in
  if bool_decide (results = []) || existsb (fun r => bool_decide (tr_ToolCallID r = "")) results
  then mret (Fail ErrSessionNotPending)
  else
    match canonicalToolResults results, CredentialFingerprint (mr_CredentialScope request) (mr_AccountKey request) with
    | Fail e, _ => mret (Fail e)
    | _, Fail e => mret (Fail e)
    | Ok canonical, Ok fingerprint =>
        let submittedIDs := completedBatchIDs canonical in
        original ← store_op (st_OriginalPendingBatch fingerprint submittedIDs);
        match original with
        | Fail e => mret (Fail e)
        | Ok original =>
            let '(accepted, originalBatch) :=
              match completedResultsForBatch canonical original with
              | Some filtered => (filtered, original)
              | None => (canonical, submittedIDs)
              end in
            let followUp := TrimSpace (mr_FollowUpText request) in
            flight ← beginResumeFlight fingerprint originalBatch (toolResultDigest accepted) followUp;
            match flight with
            | Fail e => mret (Fail e)
            | Ok (flight, false) =>
                output ← waitResumeFlight (mr_Context request) flight;
                match output with
                | Ok o => if isMeteredTurn (po_BillingRunID o) && negb (mr_TurnMetering request)
                          then mret (Fail meteringVersionError) else mret (Ok o)
                | Fail e => mret (Fail e)
                end
            | Ok (flight, true) =>
                resume_leader request results fingerprint originalBatch accepted followUp flight submittedIDs
            end
        end
    end.

(** ** Ending a turn *)

Definition Cancel (request : ManagedRequest) : P (result unit) :=
  let sessionID := TrimSpace (mr_SessionID request) in
  match CredentialFingerprint (mr_CredentialScope request) (mr_AccountKey request) with
  | Fail e => mret (Fail e)
  | Ok fingerprint =>
      taken ← atomic (
        active ← get (fun m => m_active m !! sessionID);
        match active with
        | None => mret (Ok None)
        | Some x =>
            with_session x (fun s =>
              if negb (bool_decide (ol_CredentialHash (ms_owner s) = fingerprint)) then mret (Fail ErrCredentialMismatch)
              else
                _ ← upd_session x (fun s => set_ms_output None (set_ms_closed s));
                _ ← put (with_active (delete sessionID));
                mret (Ok (Some (x, ms_owner s, ms_output s))))
        end);
      match taken with
      | Fail e => mret (Fail e)
      | Ok None => mret (Ok tt)
      | Ok (Some (x, owner, output)) =>
          deleted ← store_op (st_Delete owner);
          _ ← atomic (upd_session x set_ms_cancelled);
          _ ← match output with Some o => output_close o (Some ErrContextCanceled) | None => mret tt end;
          released ← release_op owner;
          mret (match deleted with Fail e => Fail e | Ok _ => released end)
      end
  end.

(** What [Park] takes out of the session, holding both mutexes while it saves. *)
Definition park_section (x : nat) (fingerprint : string) : Sec (result (OwnerLease * segment * option nat)) :=
  with_session x (fun s =>
    if negb (bool_decide (ol_CredentialHash (ms_owner s) = fingerprint)) then mret (Fail ErrCredentialMismatch)
    else if ms_closed s || bool_decide (ms_pending s = ∅) || bool_decide (ms_output s = None)
    then mret (Fail ErrSessionNotPending)
    else
      let followUp := TrimSpace (ms_pendingFollowUp s) in
      saved ← (if bool_decide (followUp = "") then mret (Ok tt) else call (st_SaveFollowUp (ms_owner s) followUp));
      match saved with
      | Fail e => mret (Fail e)
      | Ok _ =>
          saved ← call (st_SavePending (ms_owner s) (pendingValues (ms_pending s)));
          match saved with
          | Fail e => mret (Fail e)
          | Ok _ =>
              _ ← upd_session x (fun s => set_ms_segment (emptied (ms_segment s)) (set_ms_output None
                    (set_ms_pendingBatch (pendingToolIDs (pendingValues (ms_pending s))) s)));
              mret (Ok (ms_owner s, ms_segment s, ms_output s))
          end
      end).

Definition Park (request : ManagedRequest) : P (result unit) :=
  match CredentialFingerprint (mr_CredentialScope request) (mr_AccountKey request) with
  | Fail e => mret (Fail e)
  | Ok fingerprint =>
      parked ← atomic (
        active ← get (fun m => m_active m !! TrimSpace (mr_SessionID request));
        match active with
        | None => mret (Fail ErrSessionNotPending)
        | Some x => r ← park_section x fingerprint; mret (rbind r (fun r => Ok (x, r)))
        end);
      match parked with
      | Fail e => mret (Fail e)
      | Ok (_, (_, _, None)) => mret (Fail ErrSessionNotPending)
      | Ok (x, (owner, g, Some o)) =>
          let events := es_events (sg_snapshot g) in
          saved ← (if bool_decide (sg_results g = []) then mret (Ok tt)
                   else
                     let results := batch_results (sg_results g) (sg_batch g) in
                     r ← save_op (st_SaveCompleted owner results events false (sg_followUp g));
                     match r with
                     | Fail e =>
                         _ ← output_close o (Some e);
                         _ ← finishFlight x (Some e) [] [] true (sg_followUp g);
                         mret (Fail e)
                     | Ok _ => _ ← finishFlight x None results events true (sg_followUp g); mret (Ok tt)
                     end);
          match saved with
          | Fail e => mret (Fail e)
          | Ok _ => _ ← output_close o None; mret (Ok tt)
          end
      end
  end.

Definition CancelState (request : ManagedRequest) : P (result unit) :=
  let sessionID := TrimSpace (mr_SessionID request) in
  if bool_decide (sessionID = "") then mret (Ok tt)
  else
    active ← atomic (get (fun m => m_active m !! sessionID));
    cancelled ← match active with Some _ => Cancel request | None => mret (Ok tt) end;
    match cancelled with
    | Fail e => mret (Fail e)
    | Ok _ =>
        match CredentialFingerprint (mr_CredentialScope request) (mr_AccountKey request) with
        | Fail e => mret (Fail e)
        | Ok fingerprint => store_op (st_DeleteSession sessionID fingerprint)
        end
    end.

(** ** A new user turn after the covered tools *)

(** Polls until the session is idle, its context is done or the timer fires. *)
Definition waitFollowUpSnapshot (request : ManagedRequest) (covering : list ToolResult) : P (result ManagedOutput) :=
  match CredentialFingerprint (mr_CredentialScope request) (mr_AccountKey request) with
  | Fail e => mret (Fail e)
  | Ok fingerprint =>
      let sessionID := TrimSpace (mr_SessionID request) in
      woken ← atomic (fun m =>
        match mr_Context request ≫= fun c => m_contexts m !! c with
        | Some e => [(Some e, m)]
        | None => match m_active m !! sessionID with
                  | Some _ => [(Some ErrSessionActive, m)]      (* the timer *)
                  | None => [(None, m)]
                  end
        end);
      match woken with
      | Some e => mret (Fail e)
      | None =>
          let covering := if bool_decide (covering = []) then mr_ActiveResults request else covering in
          output ← lookupFollowUpReplay fingerprint covering (mr_FollowUpText request);
          match output with
          | Fail e => mret (Fail e)
          | Ok None => mret (Fail ErrSessionNotPending)
          | Ok (Some output) =>
              e ← ctx_err (mr_Context request);
              match e with Some e => mret (Fail e) | None => mret (Ok output) end
          end
      end
  end.

(** [StartFollowUp] with the session reserved. *)
Definition followup_reserved (request : ManagedRequest) (sessionID fingerprint followUp : string)
    (covering : option (list ToolResult)) : P (result ManagedOutput * bool) :=
  let run := mr_Run request in
  let covering := default (mr_ActiveResults request) covering in
  first ← lookupFollowUpReplay fingerprint covering followUp;
  match first with
  | Fail e => mret (Fail e, true)
  | Ok (Some output) => mret (Ok output, true)
  | Ok None =>
      conversationID ← conversation_or_new (rr_ConversationID run);
      fresh ← NewString;
      claim ← claim_op sessionID conversationID fingerprint
        {| co_RuntimeProfile := rr_RuntimeProfile run; co_HistoryRequestKey := ""; co_AllowPending := false;
           co_RequireExisting := true; co_AllowCredentialChange := false;
           co_ToolCatalogDigest := mr_ToolCatalogDigest request; co_ToolCatalog := rr_Tools run;
           co_RequireToolCatalog := bool_decide (mr_ToolCatalogDigest request = "");
           co_NewBillingRunID := billingIDForRequest fresh request; co_ReuseBillingRun := mr_ReuseBillingRun request |};
      match claim with
      | Fail e =>
          if errors_is e ErrNotExist then mret (Fail ErrSessionNotPending, true)
          else if errors_is e ErrStatePending then mret (Fail ErrSessionPending, true)
          else if errors_is e ErrStateLeaseHeld then
            _ ← releaseReservation sessionID;
            output ← waitFollowUpSnapshot request covering;
            mret (output, false)
          else mret (Fail e, true)
      | Ok claim =>
          let owner := default zeroOwner (cl_Owner claim) in
          let snapshot := cl_Snapshot claim in
          let back_out (r : result ManagedOutput) : P (result ManagedOutput * bool) :=
            _ ← release_op owner; mret (r, true) in
          if negb (bool_decide (ss_PendingTools snapshot = [])) then back_out (Fail ErrSessionPending)
          else
            again ← lookupFollowUpReplay fingerprint covering followUp;
            match again with
            | Fail e => back_out (Fail e)
            | Ok (Some output) => back_out (Ok output)
            | Ok None =>
                match applyCallerToolCatalog request (mr_ToolCatalogDigest request) (rr_Tools run) (ss_ToolCatalog snapshot) false with
                | Fail e => back_out (Fail e)
                | Ok tools =>
                    let run := with_run (normalizeRuntimeProfile (ss_RuntimeProfile snapshot)) (ol_ConversationID owner)
                      followUp followUp tools (ss_Checkpoint snapshot) (ss_Blobs snapshot) false run in
                    e ← ctx_err (mr_Context request);
                    match e with
                    | Some e => back_out (Fail e)
                    | None =>
                        let owner := set_ol (mr_RequestSegmentID request) (ol_BillingRunID owner) owner in
                        saved ← store_op (st_SaveUsageCarry owner (mr_CarryUsage request));
                        match saved with
                        | Fail e => back_out (Fail e)
                        | Ok _ =>
                            output ← startClaimed run owner [] [] covering (completedBatchIDsFromResults covering)
                              (mr_CarryUsage request) (mr_DisableCallerTools request);
                            mret (started output)
                        end
                    end
                end
            end
      end
  end.

(** [covering = nil] is [None]. *)
Definition StartFollowUp (request : ManagedRequest) (covering : option (list ToolResult)) : P (result ManagedOutput) :=
  if isMeteredTurn (mr_BillingRunID request) && negb (mr_TurnMetering request) then mret (Fail meteringVersionError)
  else
    e ← ctx_err (mr_Context request);
    match e, CredentialFingerprint (mr_CredentialScope request) (mr_AccountKey request) with
    | Some e, _ => mret (Fail e)
    | None, Fail e => mret (Fail e)
    | None, Ok fingerprint =>
        let followUp := TrimSpace (mr_FollowUpText request) in
        let sessionID := TrimSpace (mr_SessionID request) in
        if bool_decide (followUp = "") then mret (Fail (ErrMsg "Cursor Agent v1 follow-up text is required"))
        else if bool_decide (sessionID = "") then mret (Fail ErrSessionNotPending)
        else
          let go := with_reservation sessionID (followup_reserved request sessionID fingerprint followUp covering) in
          ok ← reserve sessionID;
          if ok : bool then go
          else
            output ← waitFollowUpSnapshot request (default [] covering);
            match output with
            | Ok output => mret (Ok output)
            | Fail e =>
                ended ← ctx_err (mr_Context request);
                match ended with
                | Some _ => mret (Fail e)
                | None =>
                    ok ← reserve sessionID;
                    if ok : bool then go else waitFollowUpSnapshot request (default [] covering)
                end
            end
    end.
End manager.
