(* ===== verification/ManagerStore.v ===== *)
(** * The file store under the manager

    [FileStateStore] is an instance of the store the manager needs, and a small
    concrete manager on top of it. *)
From stdpp Require Import base tactics list gmap strings sorting.
From S2P Require Import Prelude GoStrings Sha256 Connect Data Json Usage EventSnapshot Segment StoreWorld StoreIndex StoreCompleted StoreState StoreLaws HostedPolicy Conc Manager ManagerOps.
Open Scope Z_scope.

(** ** The file store behind the manager's interface

    A call during which the process dies has no outcome: the manager dies with it. *)
Definition outcomes {A} (m : M A) (w : World) : list (result A * World) :=
  match m w with
  | (ROk a, w') => [(Ok a, w')]
  | (RFail e, w') => [(Fail e, w')]
  | (RCrash, _) => []
  end.
Definition file_state_store `{Digest} (doc_size : Doc -> Z) (canonical_schema : bytes -> option bytes)
    (uuid : nat -> string) (os : nat -> outcome) (s : FileStateStore) : StateStore World := {|
  st_LookupHistory := fun fp key => outcomes (LookupHistory os s fp key);
  st_SaveHistory := fun o key es => outcomes (SaveHistory doc_size os s o key es);
  st_Claim := fun sid cid fp opts => outcomes (Claim doc_size canonical_schema uuid os s sid cid fp opts);
  st_SaveCheckpoint := fun o cp blobs => outcomes (SaveCheckpoint doc_size os s o cp blobs);
  st_SavePending := fun o p => outcomes (SavePending doc_size os s o p);
  st_SaveCompleted := fun o rs es eph fu => outcomes (SaveCompleted doc_size os s o rs es eph fu);
  st_SaveFollowUp := fun o fu => outcomes (SaveFollowUp doc_size os s o fu);
  st_SetBillingRunID := fun o run => outcomes (SetBillingRunID doc_size os s o run);
  st_SaveUsageCarry := fun o es => outcomes (SaveUsageCarry doc_size os s o es);
  st_Delete := fun o => outcomes (Delete doc_size os s o);
  st_DeleteSession := fun sid fp => outcomes (DeleteSession doc_size os s sid fp);
  st_Release := fun o => outcomes (Release os o);
  st_ResolvePending := fun fp ids => outcomes (ResolvePending doc_size os s fp ids);
  st_OriginalPendingBatch := fun fp ids => outcomes (OriginalPendingBatch os s fp ids);
  st_LookupCompleted := fun fp rs fu => outcomes (LookupCompleted os s fp rs fu) |}.


(** ** A concrete manager *)
#[local] Existing Instance sample_digest.
#[export] Instance sample_state_store : StateStore World :=
  @file_state_store sample_digest (fun _ => 0) Some sample_uuid all_ok sample_store.
Definition sample_run_options (history : string) : RunOptions :=
  {| ro_HistoryRequestKey := history; ro_BaseURL := ""; ro_ProxyURL := ""; ro_AccessToken := "token";
     ro_ClientVersion := "cli"; ro_RouteChannelID := 0; ro_RouteUserID := 0; ro_Model := "model"; ro_UserMedia := [];
     ro_ThinkingEnabled := false; ro_ReasoningEffort := ""; ro_InferenceContext := ""; ro_InferenceThinking := None;
     ro_dropReasoningSignatures := false; ro_SystemText := ""; ro_HistoryMessages := []; ro_AllowHostedSearch := false;
     ro_AllowHostedFetch := false; ro_RequireHostedSearch := false; ro_RequireHostedFetch := false;
     ro_RequireHostedTool := false; ro_HostedSearchMaxUses := None; ro_HostedFetchMaxUses := None;
     ro_HostedSearchDomains := no_domains; ro_HostedFetchDomains := no_domains; ro_RequireToolCall := false;
     ro_MaxParallelTools := 0; ro_DeleteCompletedState := false |}.
Definition sample_request (history : string) : ManagedRequest :=
  {| mr_TurnMetering := false; mr_RequestSegmentID := ""; mr_SessionID := "session"; mr_BillingRunID := "";
     mr_CredentialScope := "scope"; mr_AccountKey := "account"; mr_ToolCatalogDigest := ""; mr_FollowUpText := "";
     mr_ActiveResults := []; mr_CarryUsage := []; mr_RequireExisting := false; mr_ReuseBillingRun := false;
     mr_Context := None; mr_DisableCallerTools := false;
     mr_Run := {| rr_Options := sample_run_options history; rr_RuntimeProfile := "agent_v1"; rr_ConversationID := "conversation";
       rr_UserText := "hello"; rr_FollowUpText := ""; rr_Tools := []; rr_InitialCheckpoint := [];
       rr_InitialBlobs := ∅; rr_Resume := false |} |}.
