(* ===== verification/ManagerInv.v ===== *)
(** * Invariants of the session manager

    What holds in every state any number of goroutines can reach, whatever the
    store and the upstream engine answer and however they interleave. *)
From stdpp Require Import base tactics list gmap strings sorting.
From S2P Require Import Prelude GoStrings Sha256 Connect Data Json Usage EventSnapshot Segment StoreWorld StoreIndex StoreCompleted StoreState StoreLaws HostedPolicy Conc Manager ManagerOps ManagerStore.
Open Scope Z_scope.

(** ** The invariant *)

(** Closed once, with exactly one result; never more buffered than its capacity. *)
Record output_ok (x : managedOutput) : Prop := {
  oo_events : mo_eventsClosed x = mo_closed x;
  oo_resultClosed : mo_resultClosed x = mo_closed x;
  oo_result : if mo_closed x then exists e, mo_result x = [e] else mo_result x = [];
  oo_taken : (mo_taken x <= length (mo_sent x))%nat;
  oo_cap : (length (mo_sent x) - mo_taken x <= mo_cap x)%nat }.

(** The flights led and not yet ended, by key: a flight's own end is what ends it. *)
Definition leads (s : gmap string nat) (l : Label) : gmap string nat :=
  match l with
  | LLead k f => <[k := f]> s
  | LEnd (Some k) f => if bool_decide (s !! k = Some f) then delete k s else s
  | _ => s
  end.
Definition leading (t : list Label) : gmap string nat := fold_left leads t ∅.

Lemma leading_snoc t l : leading (t ++ [l]) = leads (leading t) l.
Proof. unfold leading. by rewrite fold_left_app. Qed.

(** A change of a session that keeps the error of its state. *)
Class KeepsErr (f : managedSession -> managedSession) : Prop :=
  keeps_err : forall s, ms_stateErr s <> None -> ms_stateErr (f s) <> None.
#[export] Hint Extern 0 (KeepsErr _) =>
  (intros ? ?; cbn; first [done | repeat case_match; cbn in *; congruence]) : typeclass_instances.

Section inv.
Context {W : Type}.

Record inv (t : list Label) (m : Mgr W) : Prop := {
  inv_panic : m_panicked m = false;
  inv_outputs : forall o x, m_outputs m !! o = Some x -> output_ok x;
  inv_reserved : forall sid, sid ∈ m_starting m -> m_active m !! sid = None;
  inv_flights : forall key f, m_flights m !! key = Some f ->
    key <> "" /\ exists x, m_flightObjs m !! f = Some x /\ fl_key x = key /\ fl_done x = false;
  inv_fresh : forall f x, m_flightObjs m !! f = Some x -> (f < m_next m)%nat;
  inv_leading : leading t = m_flights m;
  inv_single : forall t1 key f t2, t = t1 ++ LLead key f :: t2 -> leading t1 !! key = None }.

(** Labels that say nothing about flights. *)
Definition plain (l : option Label) : bool :=
  match l with Some (LLead _ _) | Some (LEnd (Some _) _) => false | _ => true end.

Lemma single_snoc (t : list Label) l :
  (forall t1 key f t2, t = t1 ++ LLead key f :: t2 -> leading t1 !! key = None) ->
  (forall key f, l = LLead key f -> leading t !! key = None) ->
  forall t1 key f t2, t ++ [l] = t1 ++ LLead key f :: t2 -> leading t1 !! key = None.
Proof.
  intros H1 H2 t1 key f t2 E. destruct (decide (t2 = [])) as [->|Hne].
  - apply app_inj_tail in E as [-> ->]. by eapply H2.
  - destruct (exists_last Hne) as (t2' & l' & ->). rewrite app_comm_cons, app_assoc in E.
    apply app_inj_tail in E as [-> _]. by eapply H1.
Qed.

Lemma inv_plain t l m : plain l = true -> inv t m -> inv (t ++ option_list l) m.
Proof.
  intros Hl [I1 I2 I3 I4 I5 I6 I7]. destruct l as [l|]; [change (option_list (Some l)) with [l]|by rewrite app_nil_r].
  assert (leading (t ++ [l]) = leading t) as E by (rewrite leading_snoc; by destruct l as [| | | | | | | | | |[]| |]).
  split; try done; [by rewrite E|]. apply single_snoc; [done|]. intros key f ->. done.
Qed.


(** *** Sections that start nothing: they may drop entries of the two tables and
    make new outputs, and leave the flights alone *)
Definition sessions_stay (m m' : Mgr W) : Prop :=
  (m_next m <= m_next m')%nat /\
  forall x s, (x < m_next m)%nat -> m_sessions m !! x = Some s ->
    exists s', m_sessions m' !! x = Some s' /\ (ms_stateErr s <> None -> ms_stateErr s' <> None).
Definition quiet_step (m m' : Mgr W) : Prop :=
  m_panicked m' = m_panicked m /\
  (forall o x, m_outputs m' !! o = Some x -> m_outputs m !! o = Some x \/ output_ok x) /\
  (forall sid, sid ∈ m_starting m' -> sid ∈ m_starting m) /\
  (forall sid, m_active m !! sid = None -> m_active m' !! sid = None) /\
  m_flights m' = m_flights m /\ m_flightObjs m' = m_flightObjs m /\ sessions_stay m m'.
Class Quiet {A} (f : Sect (Mgr W) A) : Prop := quiet : forall m b m', (b, m') ∈ f m -> quiet_step m m'.

Lemma inv_quiet t m m' : quiet_step m m' -> inv t m -> inv t m'.
Proof.
  intros (E1 & E2 & E3 & E4 & E5 & E6 & E7 & _) [I1 I2 I3 I4 I5 I6 I7]. split; rewrite ?E1, ?E5, ?E6; try done.
  - intros o x [Hx|Hx]%E2; [by eapply I2|done].
  - intros sid Hs. by apply E4, I3, E3.
  - intros f x Hx. specialize (I5 f x Hx). lia.
Qed.
Lemma keeps_quiet {A} (lab : A -> option Label) (f : Sect (Mgr W) A) :
  Quiet f -> (forall b, plain (lab b) = true) -> keeps inv lab f.
Proof. intros Hf Hl t m b m' Hi Hb. apply inv_plain; [done|]. eapply inv_quiet; [by eapply Hf|done]. Qed.

Lemma stay_same m m' : (m_next m <= m_next m')%nat -> m_sessions m' = m_sessions m -> sessions_stay m m'.
Proof. intros Hn E. split; [done|]. rewrite E. eauto. Qed.
Lemma stay_trans m1 m2 m3 : sessions_stay m1 m2 -> sessions_stay m2 m3 -> sessions_stay m1 m3.
Proof.
  intros [A1 A2] [B1 B2]. split; [lia|]. intros x s Hx Hs. destruct (A2 x s Hx Hs) as (s1 & Hs1 & E1).
  destruct (B2 x s1) as (s2 & Hs2 & E2); [lia|done|]. exists s2. auto.
Qed.
#[local] Hint Extern 1 (sessions_stay _ _) => (apply stay_same; [by auto|reflexivity]) : core.
Lemma quiet_refl m : quiet_step m m.
Proof. unfold quiet_step. split_and!; auto. Qed.
Lemma quiet_trans m1 m2 m3 : quiet_step m1 m2 -> quiet_step m2 m3 -> quiet_step m1 m3.
Proof.
  intros (A1&A2&A3&A4&A5&A6&A7) (B1&B2&B3&B4&B5&B6&B7). split_and!; try congruence; [|auto|auto|by eapply stay_trans].
  intros o x [Hx|Hx]%B2; [by apply A2|by right].
Qed.

#[export] Instance quiet_ret {A} (a : A) : Quiet (mret a).
Proof. intros m b m' [= -> ->]%list_elem_of_singleton. apply quiet_refl. Qed.
#[export] Instance quiet_get {A} (f : Mgr W -> A) : Quiet (get f).
Proof. intros m b m' [= -> ->]%list_elem_of_singleton. apply quiet_refl. Qed.
#[export] Instance quiet_block {A} : Quiet (@block (Mgr W) A).
Proof. intros m b m' Hb. by apply elem_of_nil in Hb. Qed.
#[export] Instance quiet_choose {A} (l : list A) : Quiet (choose l).
Proof. intros m b m' (a & [= -> ->] & _)%list_elem_of_fmap. apply quiet_refl. Qed.
#[export] Instance quiet_bind {A B} (f : Sect (Mgr W) A) (k : A -> Sect (Mgr W) B) :
  Quiet f -> (forall a, Quiet (k a)) -> Quiet (f ≫= k).
Proof.
  intros Hf Hk m b m' ([a m1] & H1 & H2)%list_elem_of_bind. cbn [fst snd] in *.
  eapply quiet_trans; [by eapply Hf|by eapply Hk].
Qed.
#[export] Instance quiet_uuids n : Quiet (put (@with_uuids W n)).
Proof. intros m b m' [= -> ->]%list_elem_of_singleton. unfold quiet_step. split_and!; auto. Qed.
#[export] Instance quiet_upd x f : KeepsErr f -> Quiet (@upd_session W x f).
Proof.
  intros Hf m b m' [= -> ->]%list_elem_of_singleton. unfold quiet_step. cbn. split_and!; auto. split; cbn; [lia|].
  intros y s _ Hs. destruct (decide (x = y)) as [->|Hne].
  - rewrite lookup_alter_eq, Hs. cbn. eauto.
  - rewrite lookup_alter_ne by done. eauto.
Qed.
#[export] Instance quiet_new_id : Quiet (@new_id W).
Proof. intros m b m' [= -> ->]%list_elem_of_singleton. unfold quiet_step. split_and!; auto. apply stay_same; cbn; [lia|done]. Qed.
#[export] Instance quiet_call {A} (op : W -> list (result A * W)) : Quiet (call op).
Proof. intros m b m' ([r w] & [= -> ->] & _)%list_elem_of_fmap. unfold quiet_step. split_and!; auto. Qed.
#[export] Instance quiet_with_session {A} x (f : managedSession -> Sect (Mgr W) A) :
  (forall s, Quiet (f s)) -> Quiet (with_session x f).
Proof. intros Hf. unfold with_session. apply quiet_bind; [apply _|]. intros [s|]; apply _. Qed.

Lemma fresh_ok : output_ok freshOutput.
Proof. split; simpl; (done || lia). Qed.
Lemma snapshot_ok es : output_ok (snapshotOutput es).
Proof.
  unfold snapshotOutput, newSnapshotOutput. destruct (append_all emptySnapshot es); split; simpl; try done; try lia; by eexists.
Qed.
Lemma quiet_output o x : output_ok x -> Quiet (put (@with_outputs W <[o := x]>)).
Proof.
  intros Hx m b m' [= -> ->]%list_elem_of_singleton. unfold quiet_step. split_and!; try done; try (by auto). cbn.
  intros o' x' [[_ <-]|[_ Hl]]%lookup_insert_Some; [by right|by left].
Qed.
#[export] Instance quiet_fresh o : Quiet (put (@with_outputs W <[o := freshOutput]>)).
Proof. apply quiet_output, fresh_ok. Qed.
#[export] Instance quiet_snapshot o es : Quiet (put (@with_outputs W <[o := snapshotOutput es]>)).
Proof. apply quiet_output, snapshot_ok. Qed.
#[export] Instance quiet_new_output : Quiet (@newManagedOutput W).
Proof. unfold newManagedOutput. apply quiet_bind; [apply _|]. intros o. apply quiet_bind; apply _. Qed.
#[export] Instance quiet_unstart sid : Quiet (put (@with_starting W (fun s => s ∖ {[sid]}))).
Proof. intros m b m' [= -> ->]%list_elem_of_singleton. unfold quiet_step. split_and!; auto. cbn. set_solver. Qed.
#[export] Instance quiet_forget sid : Quiet (put (@with_active W (delete sid))).
Proof.
  intros m b m' [= -> ->]%list_elem_of_singleton. unfold quiet_step. split_and!; auto.
  intros s Hs. apply lookup_delete_None. by right.
Qed.
#[export] Instance quiet_idle sid x :
  Quiet (put (@with_active W (fun a => if bool_decide (a !! sid = Some x) then delete sid a else a))).
Proof.
  intros m b m' [= -> ->]%list_elem_of_singleton. unfold quiet_step. split_and!; auto.
  intros s Hs. cbn. case_bool_decide; [|done]. apply lookup_delete_None. by right.
Qed.

(** *** The sections that do *)

Lemma inv_none t (m : Mgr W) : inv t m -> inv (t ++ option_list None) m.
Proof. by apply inv_plain. Qed.

(** A change of the tables and the outputs only. *)
Lemma inv_tables t l (m : Mgr W) active starting outputs next :
  plain l = true -> inv t m -> (m_next m <= next)%nat ->
  (forall o x, outputs !! o = Some x -> output_ok x) -> (forall sid, sid ∈ starting -> active !! sid = None) ->
  forall m', m_panicked m' = m_panicked m -> m_outputs m' = outputs -> m_starting m' = starting -> m_active m' = active ->
  m_flights m' = m_flights m -> m_flightObjs m' = m_flightObjs m -> m_next m' = next -> inv (t ++ option_list l) m'.
Proof.
  intros Hl [I1 I2 I3 I4 I5 I6 I7] Hn Ho Hs m' E1 E2 E3 E4 E5 E6 E7. apply inv_plain; [done|].
  split; rewrite ?E1, ?E2, ?E3, ?E4, ?E5, ?E6, ?E7; try done. intros f x Hx. specialize (I5 f x Hx). lia.
Qed.
Lemma inv_outputs_only t l (m m' : Mgr W) outputs next :
  plain l = true -> inv t m -> (m_next m <= next)%nat -> (forall o x, outputs !! o = Some x -> output_ok x) ->
  m' = with_outputs (fun _ => outputs) (with_next next m) -> inv (t ++ option_list l) m'.
Proof. intros Hl Hi Hn Ho ->. eapply (inv_tables t l m); try done. by destruct Hi. Qed.

Lemma outputs_insert (m : Mgr W) t o x : inv t m -> output_ok x ->
  forall o' x', <[o := x]> (m_outputs m) !! o' = Some x' -> output_ok x'.
Proof. intros Hi Hx o' x' [[_ <-]|[_ Hl]]%lookup_insert_Some; [done|]. by eapply inv_outputs. Qed.

#[local] Hint Resolve inv_none fresh_ok snapshot_ok : core.

Lemma respects_output_close o err : respects inv (@output_close W o err).
Proof.
  unfold output_close. apply respects_bind; [apply respects_labelled|done].
  intros t m b m' Hi Hb. sect; auto;
    match goal with E : m_outputs ?m !! o = Some ?x |- _ => pose proof (inv_outputs _ _ Hi o x E) as [X1 X2 X3 X4 X5] end.
  - exfalso. destruct (mo_closed _), (mo_eventsClosed _), (mo_resultClosed _); simpl in *; congruence.
  - eapply (inv_outputs_only t _ m _ _ (m_next m)); [done..| |by destruct m].
    eapply outputs_insert; [done|]. split; simpl in *; try done. by eexists.
Qed.

Lemma respects_output_send o event : respects inv (@output_send W o event).
Proof.
  unfold output_send. apply respects_labelled. intros t m b m' Hi Hb. sect; auto;
    match goal with E : m_outputs ?m !! o = Some ?x |- _ => pose proof (inv_outputs _ _ Hi o x E) as [X1 X2 X3 X4 X5] end.
  - congruence.
  - eapply (inv_outputs_only t _ m _ _ (m_next m)); [done..| |by destruct m].
    eapply outputs_insert; [done|]. split; simpl in *; try done; rewrite ?length_app; simpl;
      rewrite ?Nat.ltb_lt in *; try lia; [congruence|].
    match goal with E : mo_closed _ = false |- _ => by rewrite E in X3 end.
Qed.

Lemma respects_reserve sid : respects inv (@reserve W sid).
Proof.
  unfold reserve. apply respects_labelled. intros t m b m' Hi Hb. sect; auto. bool_hyps.
  eapply (inv_tables t _ m); try reflexivity; try done; [by destruct Hi|].
  cbn. intros sid' [->%elem_of_singleton|Hs]%elem_of_union; [done|]. by eapply inv_reserved.
Qed.
(** A session object is installed only when none is active under its name, and its
    reservation ends in the same section. *)
Lemma respects_install sid x : respects inv (@install W sid x).
Proof.
  unfold install. apply respects_labelled. intros t m b m' Hi Hb. sect; auto.
  eapply (inv_tables t _ m); try reflexivity; try done; [by destruct Hi|]. cbn.
  intros sid' [Hs Hne%not_elem_of_singleton]%elem_of_difference. rewrite lookup_insert_ne by done.
  by eapply inv_reserved.
Qed.

Lemma resumeFlightKey_ne fp batch fu : resumeFlightKey fp batch fu <> "".
Proof. unfold resumeFlightKey. intros E. apply (f_equal to_bytes) in E. rewrite to_bytes_app in E. by apply app_nil in E as [_ E]. Qed.

Lemma respects_begin fp batch dg fu : respects inv (@beginResumeFlight W fp batch dg fu).
Proof.
  unfold beginResumeFlight. set (key := resumeFlightKey fp batch fu). apply respects_labelled. intros t m b m' Hi Hb.
  unfold new_id in Hb. sect; auto. change (option_list (Some ?l)) with [l]. destruct Hi as [I1 I2 I3 I4 I5 I6 I7].
  assert (m_flights m !! key = None) as Hnone.
  { destruct (m_flights m !! key) as [f|] eqn:E; [|done]. destruct (I4 key f E) as (_ & x & Ex & _).
    match goal with E' : context [m_flightObjs _ !! _ ≫= _] |- _ => simpl in E'; by rewrite Ex in E' end. }
  split; try done; cbn.
  - intros key' f [[<- <-]|[Hne Hf]]%lookup_insert_Some; [split; [apply resumeFlightKey_ne|eexists; by rewrite lookup_insert_eq]|].
    destruct (I4 _ _ Hf) as (Hk & x & Hx & Hk'). split; [done|]. exists x. rewrite lookup_insert_ne; [done|]. intros <-. apply I5 in Hx. lia.
  - intros f x [[<- _]|[_ Hx]]%lookup_insert_Some; [lia|]. apply I5 in Hx. lia.
  - rewrite leading_snoc. cbn [leads]. by rewrite I6.
  - apply single_snoc; [done|]. intros key' f [= <- _]. by rewrite I6.
Qed.

(** Ending a flight whose key is [key]: whoever registered it is taken off the
    table before its channel is closed. *)
Lemma inv_end t (m : Mgr W) f r r' key :
  inv t m -> m_flightObjs m !! f = Some r -> key = (if bool_decide (fl_key r = "") then key else fl_key r) ->
  fl_done r = false ->
  inv (t ++ [LEnd (if bool_decide (m_flights m !! key = Some f) then Some key else None) f])
    (with_flightObjs <[f := r']> (if bool_decide (m_flights m !! key = Some f) then with_flights (delete key) m else m)).
Proof.
  intros Hi Hf Hkey Hd. pose proof Hi as [I1 I2 I3 I4 I5 I6 I7].
  assert (forall k, m_flights m !! k = Some f -> k = key) as Hreg.
  { intros k Hk. destruct (I4 _ _ Hk) as (Hne & x & Hx & Ex & _). rewrite Hf in Hx. injection Hx as <-.
    rewrite bool_decide_eq_false_2 in Hkey by congruence. congruence. }
  assert (forall k g, m_flights m !! k = Some g -> g <> f -> k <> "" /\
    exists x, <[f := r']> (m_flightObjs m) !! g = Some x /\ fl_key x = k /\ fl_done x = false) as Hothers.
  { intros k g Hk Hne. destruct (I4 _ _ Hk) as (Hk' & x & Hx). split; [done|]. exists x. by rewrite lookup_insert_ne. }
  assert (forall g x, <[f := r']> (m_flightObjs m) !! g = Some x -> (g < m_next m)%nat) as Hfresh.
  { intros g x [[<- _]|[_ Hx]]%lookup_insert_Some; by eapply I5. }
  destruct (decide (m_flights m !! key = Some f)) as [Hr|Hr];
    [rewrite !(bool_decide_eq_true_2 _ Hr)|rewrite !(bool_decide_eq_false_2 _ Hr)]; split; try done; cbn.
  - intros k g [Hne Hk]%lookup_delete_Some. apply Hothers; [done|]. intros ->. by apply Hne, eq_sym, Hreg.
  - rewrite leading_snoc. cbn [leads]. by rewrite I6, (bool_decide_eq_true_2 _ Hr).
  - apply single_snoc; [done|]. by intros k g.
  - intros k g Hk. apply Hothers; [done|]. intros ->. apply Hr. by rewrite <-(Hreg k Hk).
  - rewrite leading_snoc. cbn [leads]. exact I6.
  - apply single_snoc; [done|]. by intros k g.
Qed.

(** An open flight's channel closes without a panic. *)
Lemma close_open (m : Mgr W) f r u m' :
  fl_done r = false -> (u, m') ∈ (_ ← put (with_flightObjs <[f := r]>); close_done f) m ->
  exists r', m' = with_flightObjs <[f := r']> m.
Proof.
  intros Hr Hb. unfold close_done in Hb. sect;
    match goal with E : m_flightObjs _ !! f = Some _ |- _ => cbn in E; rewrite lookup_insert_eq in E; injection E as <- end.
  - congruence.
  - eexists. unfold with_flightObjs. cbn. by rewrite insert_insert_eq.
Qed.

Lemma respects_end fp batch f replay err : respects inv (@endResumeFlight W fp batch f replay err).
Proof.
  unfold endResumeFlight. apply respects_bind; [|done]. apply respects_labelled. intros t m b m' Hi Hb.
  apply sect_bind in Hb as (o & m0 & [-> ->]%sect_get & Hb). destruct (m_flightObjs m !! f) as [r|] eqn:Er; [|by apply sect_block in Hb].
  cbv zeta in Hb. set (key := if bool_decide (fl_key r = "") then _ else fl_key r) in *.
  apply sect_bind in Hb as (c & m0 & [-> ->]%sect_get & Hb). apply sect_bind in Hb as (u & m1 & Hm1 & Hb).
  assert (m1 = if bool_decide (m_flights m !! key = Some f) then with_flights (delete key) m else m) as -> by (by case_bool_decide; sect).
  apply sect_bind in Hb as (u' & m2 & Hm2 & [-> ->]%sect_ret). change (option_list (Some ?l)) with [l].
  assert (key = (if bool_decide (fl_key r = "") then key else fl_key r)) as Hkey by (unfold key; by destruct (bool_decide (fl_key r = EmptyString))).
  destruct (fl_done r) eqn:Ed.
  - apply sect_ret in Hm2 as [_ ->]. rewrite bool_decide_eq_false_2; [by apply inv_plain with (l := Some (LEnd None f))|].
    intros Ef. destruct (inv_flights _ _ Hi key f Ef) as (_ & x & Hx & _ & Hn). congruence.
  - apply close_open in Hm2 as [r' ->]; [|done]. by apply inv_end with (r := r).
Qed.
End inv.

(** ** What every section keeps

    The quiet sections, and the few that are not. *)
Class Kept {W} (I : list Label -> Mgr W -> Prop) : Prop := {
  kept_quiet : forall A (lab : A -> option Label) (f : Sect (Mgr W) A), Quiet f -> (forall b, plain (lab b) = true) -> keeps I lab f;
  kept_output_close : forall o err, respects I (output_close o err);
  kept_output_send : forall o event, respects I (output_send o event);
  kept_reserve : forall sid, respects I (reserve sid);
  kept_install : forall sid x, respects I (install sid x);
  kept_begin : forall fp batch dg fu, respects I (beginResumeFlight fp batch dg fu);
  kept_end : forall fp batch f replay err, respects I (endResumeFlight fp batch f replay err) }.
#[export] Instance inv_kept {W} : Kept (@inv W).
Proof.
  split.
  - intros A lab f Hf Hl. by apply keeps_quiet.
  - apply respects_output_close.
  - apply respects_output_send.
  - apply respects_reserve.
  - apply respects_install.
  - apply respects_begin.
  - apply respects_end.
Qed.

(** A session made stays, and so does the error of its state. *)
Definition session_is {W} (x : nat) (failed : bool) (m : Mgr W) : Prop :=
  (x < m_next m)%nat /\ exists s, m_sessions m !! x = Some s /\ (failed = true -> ms_stateErr s <> None).
Lemma session_stays {W} x b (m m' : Mgr W) : sessions_stay m m' -> session_is x b m -> session_is x b m'.
Proof.
  intros [Hn Hs] [Hx (s & Es & He)]. split; [lia|]. destruct (Hs x s Hx Es) as (s' & Es' & He'). exists s'. auto.
Qed.
Lemma keeps_stay {W A} x b (lab : A -> option Label) (f : Sect (Mgr W) A) :
  (forall m a m', (a, m') ∈ f m -> sessions_stay m m') -> keeps (fun _ => session_is x b) lab f.
Proof. intros Hf t m a m' Hs Ha. eapply session_stays; [by eapply Hf|done]. Qed.
#[export] Instance session_kept {W} x b : Kept (fun _ => @session_is W x b).
Proof.
  assert (forall m m' : Mgr W, (m_next m <= m_next m')%nat -> m_sessions m' = m_sessions m -> sessions_stay m m') as Hsame by (intros; by apply stay_same).
  split.
  - intros A lab f Hf _. apply keeps_stay. intros m a m' Ha. by destruct (Hf m a m' Ha) as (_ & _ & _ & _ & _ & _ & ?).
  - intros o err. unfold output_close. apply respects_bind; [|done]. apply respects_labelled, keeps_stay. intros m a m' Ha. sect; by apply Hsame.
  - intros o event. unfold output_send. apply respects_labelled, keeps_stay. intros m a m' Ha. sect; by apply Hsame.
  - intros sid. unfold reserve. apply respects_labelled, keeps_stay. intros m a m' Ha. sect; by apply Hsame.
  - intros sid y. unfold install. apply respects_labelled, keeps_stay. intros m a m' Ha. sect; by apply Hsame.
  - intros fp batch dg fu. unfold beginResumeFlight, new_id. apply respects_labelled, keeps_stay. intros m a m' Ha. sect; apply Hsame; cbn; (lia || done).
  - intros fp batch f replay err. unfold endResumeFlight, close_done. apply respects_bind; [|done]. apply respects_labelled, keeps_stay.
    intros m a m' Ha. cbv zeta in Ha. sect; cbv zeta in *; sect; by apply Hsame.
Qed.

Create HintDb mgr discriminated.
#[export] Hint Constants Opaque : mgr.
#[export] Hint Resolve kept_output_close kept_output_send kept_reserve kept_install kept_begin kept_end : mgr.

Ltac quiet_solve :=
  repeat first
  [ progress intros
  | progress cbv zeta
  | lazymatch goal with |- Quiet (match ?x with _ => _ end) => destruct x end
  | lazymatch goal with |- Quiet (_ ≫= _) => apply quiet_bind end
  | lazymatch goal with |- Quiet (with_session _ _) => apply quiet_with_session end
  | solve [apply _] ].
(** Walk down a handler: its calls have lemmas, its sections are quiet. *)
Ltac resp :=
  repeat first
  [ progress intros
  | progress cbv zeta
  | solve [auto 2 with mgr nocore]
  | lazymatch goal with
    | |- respects _ (match ?x with _ => _ end) => destruct x
    | |- respects _ (mret _) => apply respects_ret
    | |- respects _ (_ ≫= _) => apply respects_bind
    | |- respects _ (prog_bind _ _) => apply respects_bind
    | |- respects _ (prog_each _ _) => apply respects_each
    | |- respects _ (fork _) => apply respects_fork
    | |- respects _ (atomic _) => apply respects_atomic, kept_quiet; [quiet_solve|done]
    | |- respects _ (labelled _ _) => apply respects_labelled, kept_quiet; [quiet_solve|intros; repeat case_match; done]
    end ].

(** Every handler keeps what its sections keep. *)
Section handlers.
Context `{Digest} {W : Type} `{StateStore W} (uuid : nat -> string) (engine : nat -> list Event * option Err).
Context (I : list Label -> Mgr W -> Prop) `{!Kept I}.

Lemma respects_replay replay : respects I (@emitCompletedReplay W replay).
Proof. unfold emitCompletedReplay. resp. Qed.
Lemma respects_unreserve sid : respects I (@releaseReservation W sid).
Proof. unfold releaseReservation. resp. Qed.
#[local] Hint Resolve respects_replay respects_unreserve : mgr.
Lemma respects_store_op {A} (op : W -> list (result A * W)) : respects I (store_op op).
Proof. unfold store_op. resp. Qed.
Lemma respects_save_op op : respects I (@save_op W op).
Proof. unfold save_op. resp. Qed.
Lemma respects_keep_op op : respects I (@keep_op W op).
Proof. unfold keep_op. resp. Qed.
Lemma respects_release_op o : respects I (@release_op W _ o).
Proof. unfold release_op. resp. Qed.
Lemma respects_claim_op sid cid fp opts : respects I (@claim_op W _ sid cid fp opts).
Proof. unfold claim_op. resp. Qed.
Lemma respects_NewString : respects I (@NewString W uuid).
Proof. unfold NewString. resp. Qed.
Lemma respects_ctx_err c : respects I (@ctx_err W c).
Proof. unfold ctx_err. resp. Qed.
#[local] Hint Resolve respects_store_op respects_save_op respects_keep_op respects_release_op respects_claim_op respects_NewString respects_ctx_err : mgr.

Lemma respects_wait ctx f : respects I (@waitResumeFlight W ctx f).
Proof.
  unfold waitResumeFlight. apply respects_bind.
  - apply respects_atomic, kept_quiet; [|done]. intros m b m' Hb. assert (m' = m) as ->; [|apply quiet_refl].
    apply elem_of_app in Hb as [Hb|Hb]; repeat case_match; try (by apply elem_of_nil in Hb);
      by apply list_elem_of_singleton in Hb as [= _ ->].
  - resp.
Qed.
Lemma respects_bindFlight sid fp b f : respects I (@bindResumeFlight W sid fp b f).
Proof. unfold bindResumeFlight. resp. Qed.
Lemma respects_finishFlight x err rs es hp fu : respects I (@finishFlight W x err rs es hp fu).
Proof. unfold finishFlight. resp. Qed.
Lemma respects_failState x e : respects I (@failState W x e).
Proof. unfold failState. resp. Qed.
#[local] Hint Resolve respects_wait respects_bindFlight respects_finishFlight respects_failState : mgr.
Lemma respects_emit x e : respects I (@emit W x e).
Proof. unfold emit. resp. Qed.
#[local] Hint Resolve respects_emit : mgr.
Lemma respects_handleEvent x e : respects I (handleEvent uuid x e).
Proof. unfold handleEvent, handle_tool_call. resp. Qed.
#[local] Hint Resolve respects_handleEvent : mgr.
Lemma respects_run x : respects I (session_run uuid engine x).
Proof. unfold session_run, finish_run, take_finished. resp. Qed.
#[local] Hint Resolve respects_run : mgr.

(** The session made is a new one. *)
Lemma quiet_new_session (f : nat -> managedSession) (g : nat -> Sect (Mgr W) nat) :
  (forall x, Quiet (g x)) ->
  Quiet (x ← new_id; o ← g x; _ ← put (with_sessions <[x := f o]>); mret (x, o)).
Proof.
  intros Hg m [y o] m' Hb. apply sect_bind in Hb as (x & m1 & Hx & Hb). apply sect_bind in Hb as (o' & m2 & Ho & Hb).
  apply sect_bind in Hb as ([] & m3 & ->%sect_put & [[= -> ->] ->]%sect_ret). unfold new_id in Hx. sect.
  assert (quiet_step m m2) as (E1 & E2 & E3 & E4 & E5 & E6 & E7 & E8).
  { eapply quiet_trans; [|by eapply Hg]. by eapply (quiet_new_id m (m_next m)), list_elem_of_singleton. }
  unfold quiet_step. split_and!; try done. split; [done|]. cbn. intros x s Hx Hs. rewrite lookup_insert_ne by lia. by apply E8.
Qed.
Lemma respects_startClaimed run owner restored initial covering batch carry disable :
  respects I (startClaimed uuid engine run owner restored initial covering batch carry disable).
Proof.
  unfold startClaimed. cbv zeta. apply respects_bind; [|intros [x o]; resp].
  apply respects_atomic, kept_quiet; [|done].
  match goal with |- Quiet (_ ≫= fun x => _ ≫= fun o => put (with_sessions <[x := @?f o]>) ≫= _) => apply (quiet_new_session f (fun _ => newManagedOutput)) end.
  apply _.
Qed.
#[local] Hint Resolve respects_startClaimed : mgr.

Lemma respects_queue x o rs : respects I (@queue_results W x o rs).
Proof. induction rs as [|r rs IH]; cbn [queue_results]; resp; done. Qed.
#[local] Hint Resolve respects_queue : mgr.
Lemma respects_resume x rs b srs sg dis : respects I (resume x rs b srs sg dis).
Proof. unfold resume. resp. Qed.
#[local] Hint Resolve respects_resume : mgr.
Lemma respects_with_reservation {A} sid (body : Prog (Mgr W) Label (A * bool)) :
  respects I body -> respects I (with_reservation sid body).
Proof. intros Hb. unfold with_reservation. resp. Qed.
Lemma respects_lookupFollowUp fp c fu : respects I (lookupFollowUpReplay fp c fu).
Proof. unfold lookupFollowUpReplay. resp. Qed.
Lemma respects_lookupRequest fp c fu : respects I (lookupRequestReplay fp c fu).
Proof. unfold lookupRequestReplay. resp. Qed.
Lemma respects_conversation c : respects I (@conversation_or_new W uuid c).
Proof. unfold conversation_or_new. resp. Qed.
Lemma respects_fail_flight {A} fp b f e : respects I (@fail_flight W A fp b f e).
Proof. unfold fail_flight. resp. Qed.
#[local] Hint Resolve respects_lookupFollowUp respects_lookupRequest respects_conversation respects_fail_flight : mgr.
Lemma respects_fail_claimed {A} fp b f o e : respects I (@fail_claimed W _ A fp b f o e).
Proof. unfold fail_claimed. resp. Qed.
#[local] Hint Resolve respects_fail_claimed : mgr.

Lemma respects_Start request : respects I (Start uuid engine request).
Proof.
  assert (forall sid, respects I (start_session uuid engine request sid)) as Hs.
  { intros sid. unfold start_session. resp. apply respects_with_reservation. unfold start_reserved, started. resp. }
  unfold Start. resp; apply Hs.
Qed.
#[local] Hint Resolve respects_Start : mgr.
Lemma respects_StartHistory n ended request : respects I (StartHistory uuid engine n ended request).
Proof. induction n as [|n IH]; cbn [StartHistory]; resp; done. Qed.
Lemma respects_ResumeTools request rs : respects I (ResumeTools uuid engine request rs).
Proof.
  unfold ResumeTools, resume_leader, resume_active. resp.
  all: apply respects_with_reservation; unfold resume_claimed; resp.
Qed.
Lemma respects_Cancel request : respects I (Cancel request).
Proof. unfold Cancel. resp. Qed.
#[local] Hint Resolve respects_Cancel : mgr.
Lemma respects_Park request : respects I (Park request).
Proof. unfold Park, park_section. resp. Qed.
Lemma respects_CancelState request : respects I (CancelState request).
Proof. unfold CancelState. resp. Qed.
Lemma respects_waitFollowUp request c : respects I (waitFollowUpSnapshot request c).
Proof.
  unfold waitFollowUpSnapshot. destruct (CredentialFingerprint _ _); [|resp]. apply respects_bind; [|resp].
  apply respects_atomic, kept_quiet; [|done]. intros m b m' Hb. assert (m' = m) as ->; [|apply quiet_refl].
  repeat case_match; by apply list_elem_of_singleton in Hb as [= _ ->].
Qed.
#[local] Hint Resolve respects_waitFollowUp : mgr.
Lemma respects_StartFollowUp request c : respects I (StartFollowUp uuid engine request c).
Proof.
  assert (forall sid fp fu, respects I (with_reservation sid (followup_reserved uuid engine request sid fp fu c))) as Hr.
  { intros sid fp fu. apply respects_with_reservation. unfold followup_reserved, started. resp. }
  unfold StartFollowUp. resp; apply Hr.
Qed.

End handlers.

Section running.
Context `{Digest} {W : Type} `{StateStore W} (uuid : nat -> string) (engine : nat -> list Event * option Err).

(** ** The running manager *)

(** Calls of the manager's methods, by any number of goroutines. *)
Inductive Handler : Type :=
  | HStart (request : ManagedRequest) | HStartHistory (attempts : nat) (ended : Err) (request : ManagedRequest)
  | HResumeTools (request : ManagedRequest) (results : list ToolResult)
  | HStartFollowUp (request : ManagedRequest) (covering : option (list ToolResult))
  | HPark (request : ManagedRequest) | HCancel (request : ManagedRequest) | HCancelState (request : ManagedRequest).
Definition discard {A} (p : Prog (Mgr W) Label A) : Prog (Mgr W) Label unit := p ≫= fun _ => mret tt.
Definition run_handler (h : Handler) : Prog (Mgr W) Label unit :=
  match h with
  | HStart r => discard (Start uuid engine r)
  | HStartHistory n e r => discard (StartHistory uuid engine n e r)
  | HResumeTools r rs => discard (ResumeTools uuid engine r rs)
  | HStartFollowUp r c => discard (StartFollowUp uuid engine r c)
  | HPark r => discard (Park r)
  | HCancel r => discard (Cancel r)
  | HCancelState r => discard (CancelState r)
  end.

(** What happens outside the manager: a caller reads an event, a context ends, the
    store's files change. *)
Inductive outside : Mgr W -> Mgr W -> Prop :=
  | outside_read o x m : m_outputs m !! o = Some x -> (mo_taken x < length (mo_sent x))%nat ->
      outside m (with_outputs <[o := {| mo_cap := mo_cap x; mo_sent := mo_sent x; mo_taken := S (mo_taken x);
        mo_eventsClosed := mo_eventsClosed x; mo_result := mo_result x; mo_resultClosed := mo_resultClosed x;
        mo_closed := mo_closed x |}]> m)
  | outside_context c e m : outside m (with_contexts <[c := e]> m)
  | outside_store w m : outside m (with_store w m).

Definition new_manager (w : W) : Mgr W := mgr ∅ ∅ ∅ ∅ ∅ ∅ 0 0 ∅ false w.

Lemma inv_new w : inv [] (new_manager w).
Proof.
  split; try done; cbn.
  - by intros [|? ?].
Qed.

Lemma inv_outside t m m' : inv t m -> outside m m' -> inv t m'.
Proof.
  intros Hi Ho. destruct Ho as [o x m Hx Hlt|c e m|w m]; (eapply inv_quiet; [|exact Hi]); unfold quiet_step; cbn; split_and!; try done; try (by auto); try (by apply stay_same).
  intros o' x' [[<- <-]|[_ Hl]]%lookup_insert_Some; [right|by left].
  destruct (inv_outputs _ _ Hi o x Hx) as [X1 X2 X3 X4 X5]. split; simpl; (done || lia).
Qed.

(** Every state and trace the manager can reach, with the goroutines of [hs]. *)
Fixpoint pool (hs : list Handler) : list (Prog (Mgr W) Label unit) :=
  match hs with [] => [] | h :: hs => run_handler h :: pool hs end.
Definition running (hs : list Handler) (w : W) (t : list Label) (m : Mgr W) : Prop :=
  exists ps, pool_steps outside (pool hs, new_manager w) t (ps, m).

Lemma respects_handler I `{!Kept I} h : respects I (run_handler h).
Proof.
  destruct h; cbn [run_handler]; unfold discard; (apply respects_bind; [|done]);
    [apply respects_Start|apply respects_StartHistory|apply respects_ResumeTools|apply respects_StartFollowUp
    |apply respects_Park|apply respects_Cancel|apply respects_CancelState]; apply _.
Qed.
Lemma pool_respects hs : Forall (respects inv) (pool hs).
Proof. induction hs as [|h hs IH]; cbn [pool]; constructor; [by apply respects_handler; apply _|done]. Qed.

(** What the other goroutines do between two actions of one: actions of any handler,
    or of a session it started, and of the world outside. *)
Definition meanwhile : relation (Mgr W) := rtc (fun m m' => outside m m' \/ exists h, action_of (run_handler h) m m').
Lemma outside_stay m m' : outside m m' -> sessions_stay m m'.
Proof. intros []; by apply stay_same. Qed.
Lemma meanwhile_session x b m m' : meanwhile m m' -> session_is x b m -> session_is x b m'.
Proof.
  induction 1 as [|m m1 m2 [Ho|[h Ha]] _ IH]; [done|..]; intros Hs; apply IH.
  - eapply session_stays; [by apply outside_stay|done].
  - eapply respects_action; [done| |done]. apply respects_handler, _.
Qed.

Lemma running_inv hs w t m : running hs w t m -> inv t m.
Proof.
  intros [ps Hr]. apply (pool_invariant outside inv _ _ _ inv_outside) in Hr; [by destruct Hr|apply pool_respects|apply inv_new].
Qed.

(** ** Properties *)

(** A flight led stays the one led under its key until its own end. *)
Lemma led_until (t1 : list Label) key f t2 rest :
  (forall u k g v, t1 ++ LLead key f :: t2 ++ rest = u ++ LLead k g :: v -> leading u !! k = None) ->
  leading (t1 ++ LLead key f :: t2) !! key = Some f \/ LEnd (Some key) f ∈ t2.
Proof.
  revert rest. induction t2 as [|l t2 IH] using rev_ind; intros rest Hs.
  - left. rewrite leading_snoc. cbn [leads]. by rewrite lookup_insert_eq.
  - rewrite app_comm_cons, app_assoc, leading_snoc, elem_of_app, list_elem_of_singleton. rewrite <-app_assoc in Hs.
    destruct (IH ([l] ++ rest) Hs) as [Hl|He]; [|by auto].
    destruct l as [| | | | | | | | |k g|[k|] g| |]; cbn [leads]; auto.
    + destruct (decide (k = key)) as [->|Hne]; [|left; by rewrite lookup_insert_ne].
      rewrite (Hs (t1 ++ LLead key f :: t2) key g rest) in Hl; [done|]. by rewrite <-app_assoc.
    + case_bool_decide as Hk; [|by left]. destruct (decide (k = key)) as [->|Hne].
      * right. right. congruence.
      * left. by rewrite lookup_delete_ne.
Qed.

(** C7 The manager's tables and channels stay consistent: under any number of
    concurrent calls and any behaviour of the store, the engine and the callers, no
    channel is ever closed twice or sent on after its close (either would panic),
    every output delivers exactly one result, exactly when it is closed, and never
    holds more than its capacity, and no session name is both being started and
    running. *)
Theorem manager_consistent (hs : list Handler) (w : W) (t : list Label) (m : Mgr W) :
  running hs w t m ->
  m_panicked m = false /\
  (forall o x, m_outputs m !! o = Some x ->
     mo_eventsClosed x = mo_closed x /\ mo_resultClosed x = mo_closed x /\
     (length (mo_result x) = if mo_closed x then 1 else 0)%nat /\
     (length (mo_sent x) - mo_taken x <= mo_cap x)%nat) /\
  (forall sid, sid ∈ m_starting m -> m_active m !! sid = None).
Proof.
  intros [I1 I2 I3 _ _ _ _]%running_inv. split_and!; try done. intros o x Hx. destruct (I2 o x Hx) as [X1 X2 X3 _ X5].
  split_and!; try done. destruct (mo_closed x); [by destruct X3 as [e ->]|by rewrite X3].
Qed.

(** C5 Single flight: between two requests that lead the generation for the same
    credential, batch and follow-up, the first one's own flight was ended; while one
    is led and not ended, it is the one registered under its key, with its channel
    open, so that later requests find it and wait on it. *)
Theorem single_flight (hs : list Handler) (w : W) (t : list Label) (m : Mgr W) :
  running hs w t m ->
  (forall t1 key f t2 f' t3, t = t1 ++ LLead key f :: t2 ++ LLead key f' :: t3 -> LEnd (Some key) f ∈ t2) /\
  (forall key f, leading t !! key = Some f <-> m_flights m !! key = Some f /\
     exists x, m_flightObjs m !! f = Some x /\ fl_key x = key /\ fl_done x = false).
Proof.
  intros [_ _ _ I4 _ I6 I7]%running_inv. split.
  - intros t1 key f t2 f' t3 E. destruct (led_until t1 key f t2 (LLead key f' :: t3)) as [Hl|He]; [by rewrite <-E| |done].
    rewrite (I7 (t1 ++ LLead key f :: t2) key f' t3) in Hl; [done|]. by rewrite E, <-app_assoc.
  - intros key f. rewrite I6. split; [|by intros [? _]]. intros Hf. by destruct (I4 _ _ Hf) as (_ & x & Hx); split; [|exists x].
Qed.
End running.

(** *** One call, alone *)
#[local] Existing Instance sample_digest.
Definition quiet_engine (x : nat) : list Event * option Err := ([], None).
Definition sample_running : option (result ManagedOutput * list Label * Mgr World) :=
  exec (Start sample_uuid quiet_engine (sample_request "")) (new_manager empty_world).
Definition running_trace : list Label := match sample_running with Some (_, t, _) => t | None => [] end.
Definition running_memory : Mgr World := match sample_running with Some (_, _, m) => m | None => new_manager empty_world end.
Example sample_running_active : m_active running_memory !! "session" = Some 0%nat /\ m_starting running_memory = ∅.
Proof. by vm_compute. Qed.
Lemma sample_runs : running sample_uuid quiet_engine [HStart (sample_request "")] empty_world running_trace running_memory.
Proof.
  assert (exists u, sample_running = Some (u, running_trace, running_memory)) as [u E].
  { unfold running_trace, running_memory. destruct sample_running as [[[u t] m]|] eqn:E; [by exists u|by vm_compute in E]. }
  destruct (exec_steps outside _ (fun _ => mret tt) _ _ _ _ E []) as [post Hp]. eexists. exact Hp.
Qed.
Lemma manager_consistent_witness :
  m_panicked running_memory = false /\ m_starting running_memory = ∅.
Proof.
  destruct (manager_consistent sample_uuid quiet_engine [HStart (sample_request "")] empty_world running_trace running_memory) as [H _];
    [exact sample_runs|]. split; [exact H|]. apply sample_running_active.
Defined.
Lemma single_flight_witness :
  leading running_trace !! "key" = Some 0%nat <-> m_flights running_memory !! "key" = Some 0%nat /\
    exists x, m_flightObjs running_memory !! 0%nat = Some x /\ fl_key x = "key" /\ fl_done x = false.
Proof.
  apply (single_flight sample_uuid quiet_engine [HStart (sample_request "")] empty_world running_trace running_memory).
  exact sample_runs.
Defined.
