(* ===== verification/ManagerProps.v ===== *)
(** * Completion after persistence

    Traces of one run of a session, whatever the other goroutines do meanwhile:
    completion is visible only after persistence. *)
From stdpp Require Import base tactics list gmap strings sorting.
From S2P Require Import Prelude GoStrings Sha256 Connect Data Json Usage EventSnapshot Segment StoreWorld StoreIndex StoreCompleted StoreState StoreLaws HostedPolicy Conc Manager ManagerOps ManagerStore ManagerInv.
Open Scope Z_scope.

Section traces.
Context `{Digest} {W : Type} `{StateStore W} (uuid : nat -> string) (engine : nat -> list Event * option Err).

(** ** Completion after persistence *)

(** Nothing marks the turn as done before its segment is saved, the lease given
    back and the session idle; a failed save, of the segment or of the running
    turn's checkpoint or pending tools, is never followed by completion. *)
Definition done_is_last (t : list Label) : Prop :=
  forall t1 o t2, t = t1 ++ LSend o EventDone :: t2 ->
    LStored false ∉ t1 /\ LKept false ∉ t1 /\ (LFinished true ∈ t1 -> LStored true ∈ t1) /\ LRelease ∈ t1 /\ exists sid, LIdle sid ∈ t1.

(** Traces without a completion and without a failed save. *)
Definition unfinished (t : list Label) : Prop :=
  (forall o, LSend o EventDone ∉ t) /\ (forall b, LStored b ∉ t) /\ (forall b, LFinished b ∉ t).
Lemma no_done_safe t : (forall o, LSend o EventDone ∉ t) -> done_is_last t.
Proof. intros Hn t1 o t2 ->. destruct (Hn o). apply elem_of_app. right. by left. Qed.
Lemma unfinished_snoc t l : unfinished t ->
  match l with Some (LSend _ EventDone) | Some (LStored _) | Some (LFinished _) => false | _ => true end = true ->
  unfinished (t ++ option_list l).
Proof.
  intros (H1 & H2 & H3) Hl. destruct l as [l|]; [change (option_list (Some l)) with [l]|by rewrite app_nil_r].
  split_and!; intros a; rewrite elem_of_app, list_elem_of_singleton; intros [Hx|<-]; try done; [by apply H1 in Hx|by apply H2 in Hx|by apply H3 in Hx].
Qed.

Lemma unfinished_safe t : unfinished t -> done_is_last t.
Proof. intros [Hn _]. by apply no_done_safe. Qed.

(** While events are handled: the session is there, and a failed save has marked it. *)
Definition handling (x : nat) (t : list Label) (m : Mgr W) : Prop :=
  session_is x false m /\ unfinished t /\ (LKept false ∈ t -> session_is x true m).
Lemma handling_safe x t m : handling x t m -> done_is_last t.
Proof. intros (_ & Hu & _). by apply unfinished_safe. Qed.
Lemma handling_rely x t m m' : handling x t m -> meanwhile uuid engine m m' -> handling x t m'.
Proof. intros (H1 & H2 & H3) Hm. split_and!; [|done|]; intros; by eapply meanwhile_session; auto. Qed.
Lemma handling_keeps x {A} (lab : A -> option Label) (f : Sect (Mgr W) A) :
  (forall b, keeps (fun _ => session_is x b) lab f) ->
  (forall b, match lab b with Some (LSend _ EventDone | LStored _ | LFinished _ | LKept _) => false | _ => true end = true) ->
  keeps (handling x) lab f.
Proof.
  intros Hf Hl t m b m' (H1 & H2 & H3) Hb. specialize (Hl b). split_and!.
  - by eapply (Hf false []).
  - apply unfinished_snoc; [done|]. by destruct (lab b) as [[]|].
  - intros [Hx|Hx]%elem_of_app; [eapply (Hf true []); [by apply H3|done]|].
    destruct (lab b) as [l|]; [|by apply elem_of_nil in Hx]. by apply list_elem_of_singleton in Hx as <-.
Qed.
Abbreviation calmly x p := (upholds (meanwhile uuid engine) done_is_last (handling x) p).

Ltac calm :=
  repeat first
  [ progress intros
  | progress cbv zeta
  | solve [auto 2 with calm nocore]
  | lazymatch goal with
    | |- upholds _ _ _ (match ?x with _ => _ end) => destruct x
    | |- upholds _ _ _ (mret _) => apply upholds_ret; apply handling_safe
    | |- upholds _ _ _ (keep_op _ ≫= _) => fail
    | |- upholds _ _ _ (_ ≫= _) => apply upholds_bind
    | |- upholds _ _ _ (prog_each _ _) => apply upholds_each; [apply handling_safe|]
    | |- upholds _ _ _ (atomic _) => apply upholds_atomic; [apply handling_safe|apply handling_rely|
        apply handling_keeps; [intros; apply kept_quiet; [quiet_solve|done]|done]]
    end ].

Lemma calm_failState x y e : calmly x (@failState W y e).
Proof. unfold failState. calm. Qed.
Lemma calm_NewString x : calmly x (@NewString W uuid).
Proof. unfold NewString. calm. Qed.
Create HintDb calm discriminated.
#[local] Hint Constants Opaque : calm.
#[local] Hint Resolve calm_failState calm_NewString : calm.

(** A save that failed marks the session before anything else is handled. *)
Lemma failed_marks x e s t :
  session_is x false s -> unfinished t -> twp (meanwhile uuid engine) done_is_last (@failState W x e) (fun _ s t => handling x t s) s t.
Proof.
  intros Hs Ht. pose proof (unfinished_safe _ Ht) as Hd. unfold failState. apply twp_bind. split; [done|].
  intros s1 [] s2 Hr ->%sect_put. apply (meanwhile_session uuid engine x false) in Hr as [Hx (v & Ev & _)]; [|done].
  cbn [option_list]. rewrite app_nil_r. split; [done|].
  assert (calmly x (atomic (@upd_session W x set_ms_cancelled))) as Hq by calm. apply Hq. assert (session_is x true (with_sessions
    (alter (fun v => match ms_stateErr v with None => set_ms_stateErr (Some e) v | Some _ => v end) x) s1)) as Hm.
  { split; [done|]. cbn. rewrite lookup_alter_eq, Ev. eexists. split; [done|]. intros _. by destruct (ms_stateErr v) eqn:E; cbn; rewrite ?E. }
  split_and!; [|done|done]. destruct Hm as [H1 (w & H2 & _)]. split; [done|]. by exists w.
Qed.
Lemma calm_keep x op (q : Prog (Mgr W) Label unit) :
  calmly x q -> calmly x (@keep_op W op ≫= fun r => match r with Ok _ => q | Fail e => @failState W x e end).
Proof.
  intros Hq s t (H1 & H2 & H3). apply twp_bind. split; [by apply unfinished_safe|]. intros s1 r s2 Hr Hb.
  assert (unfinished (t ++ [LKept (is_ok r)])) as Hu by (by apply unfinished_snoc with (l := Some (LKept (is_ok r)))).
  assert (forall b, session_is x b s -> session_is x b s2) as Hs.
  { intros b Hx. eapply (meanwhile_session uuid engine x b) in Hr; [|done].
    exact (kept_quiet (I := fun _ => session_is x b) _ (fun _ => None) _ (quiet_call op) (fun _ => eq_refl) [] s1 r s2 Hr Hb). }
  change (option_list (Some ?l)) with [l]. split; [by apply unfinished_safe|]. destruct r as [u|e].
  - apply Hq. split_and!; [by apply Hs|done|]. intros [Hx|Hx%list_elem_of_singleton]%elem_of_app; [by apply Hs, H3|done].
  - apply failed_marks; [by apply Hs|done].
Qed.

(** The end of a turn is kept back: [emit] never sends it. *)
Lemma calm_emit x event : calmly x (@emit W x event).
Proof.
  intros s t Ht. unfold emit. apply twp_bind. split; [by eapply handling_safe|]. intros s1 r s2 Hr Hb.
  match type of Hb with (_, _) ∈ ?f _ => assert (keeps (handling x) (fun _ : Err + option nat => None) f) as Hk
    by (apply handling_keeps; [intros; apply kept_quiet; [quiet_solve|done]|done]) end.
  assert (handling x (t ++ []) s2) as Ht2 by (eapply (Hk t s1 r); [by eapply handling_rely|done]).
  cbn [option_list]. split; [by eapply handling_safe|].
  destruct r as [e|[o|]]; [by apply calm_failState| |by apply upholds_ret; [apply handling_safe|]].
  assert (ev_Type event <> EventDone) as Hne.
  { unfold with_session in Hb. sect; try done. intros Hd.
    match goal with E : bool_decide (ev_Type event = EventDone) = false |- _ => apply bool_decide_eq_false_1 in E end. done. }
  enough (calmly x (@output_send W o event ≫= fun sent => match sent with outputSendFull => @failState W x errBufferFull | _ => mret tt end)) as Hq
    by (by apply Hq).
  apply upholds_bind; [|calm]. unfold output_send. apply upholds_labelled; [apply handling_safe|apply handling_rely|].
  apply handling_keeps.
  - intros b. exact (proj1 (kept_output_send (I := fun _ => session_is x b) o event)).
  - intros b. destruct b; try done. by destruct (ev_Type event).
Qed.
#[local] Hint Resolve calm_emit : calm.
Lemma calm_handleEvent x event : calmly x (handleEvent uuid x event).
Proof. unfold handleEvent, handle_tool_call. repeat (calm; lazymatch goal with |- upholds _ _ _ (keep_op _ ≫= _) => apply calm_keep end). Qed.
#[local] Hint Resolve calm_handleEvent : calm.

(** From here on only the end of the run matters: [err] is its outcome so far. *)
Definition closing (err : option Err) (t : list Label) : Prop :=
  (forall o, LSend o EventDone ∉ t) /\
  (err = None -> LStored false ∉ t /\ LKept false ∉ t /\ (LFinished true ∈ t -> LStored true ∈ t)).
Lemma closing_safe err t : closing err t -> done_is_last t.
Proof. intros [Hn _]. by apply no_done_safe. Qed.
Lemma closing_snoc err t l :
  match l with LSend _ EventDone | LStored _ | LKept _ | LFinished _ => false | _ => true end = true ->
  closing err t -> closing err (t ++ [l]).
Proof.
  intros Hl [H1 H2]. split.
  - intros o. rewrite elem_of_app, list_elem_of_singleton. intros [Hx|<-]; [by apply H1 in Hx|done].
  - intros He. destruct (H2 He) as (H3 & H5 & H4). rewrite !elem_of_app, !list_elem_of_singleton. split_and!.
    + intros [Hx|<-]; done.
    + intros [Hx|<-]; done.
    + intros [Hx|<-]; [|done]. left. auto.
Qed.
Lemma done_snoc t l : (forall o, l <> LSend o EventDone) -> done_is_last t -> done_is_last (t ++ [l]).
Proof.
  intros Hl Ht t1 o t2 E. destruct (decide (t2 = [])) as [->|Hne].
  - apply app_inj_tail in E as [_ ->]. by destruct (Hl o).
  - destruct (exists_last Hne) as (t2' & l' & ->). rewrite app_comm_cons, app_assoc in E.
    apply app_inj_tail in E as [-> _]. by eapply Ht.
Qed.

(** The tail of a run, from the point where its outcome is fixed. *)
Lemma closing_flight x err rs es hp fu t :
  closing err t -> wp done_is_last (@finishFlight W x err rs es hp fu) (fun _ => closing err) t.
Proof.
  revert t. change (maintains done_is_last (closing err) (@finishFlight W x err rs es hp fu)).
  unfold finishFlight, endResumeFlight. apply maintains_bind.
  - apply maintains_atomic. apply closing_safe.
  - intros [[[[f fp] b]|] o]; [|apply maintains_ret, closing_safe]. apply maintains_bind; [|intros; apply maintains_ret, closing_safe].
    apply maintains_labelled; [apply closing_safe|]. intros k t'. by apply closing_snoc.
Qed.

(** The lease is back and the session idle. *)
Definition settled (t : list Label) : Prop := LRelease ∈ t /\ exists sid, LIdle sid ∈ t.
Lemma closing_done t o : closing None t -> settled t -> done_is_last (t ++ [LSend o EventDone]).
Proof.
  intros [H1 H2] [H3 H4] t1 o' t2 E. destruct (decide (t2 = [])) as [->|Hne].
  - apply app_inj_tail in E as [-> [= ->]]. by destruct (H2 eq_refl) as (? & ? & ?).
  - destruct (exists_last Hne) as (t2' & l' & ->). rewrite app_comm_cons, app_assoc in E.
    apply app_inj_tail in E as [-> _]. destruct (H1 o'). apply elem_of_app. right. by left.
Qed.

Lemma wp_close o e t : done_is_last t -> wp done_is_last (@output_close W o e) (fun _ => done_is_last) t.
Proof.
  intros Ht. apply wp_bind. apply wp_labelled; [done|]. intros s b s' _.
  assert (done_is_last (t ++ option_list (if b : bool then Some (LClose o e) else None))) as Hd.
  { destruct b; [by apply done_snoc|]. by rewrite app_nil_r. }
  split; [done|]. by apply wp_ret.
Qed.

Lemma wp_deliver f err t :
  closing err t -> settled t ->
  wp done_is_last (match fi_output f with
    | None => mret tt
    | Some o =>
        err ← match fi_terminal f with
              | Some e => if bool_decide (err = None)
                          then sent ← @output_send W o e; match sent with outputSendFull => mret (Some errBufferFull) | _ => mret err end
                          else mret err
              | None => mret err
              end;
        output_close o err
    end) (fun _ => done_is_last) t.
Proof.
  intros Hc Hs. pose proof (closing_safe _ _ Hc) as Hd.
  destruct (fi_output f) as [o|]; [|by apply wp_ret]. apply wp_bind.
  destruct (fi_terminal f) as [e|]; [|apply wp_ret; [done|by apply wp_close]].
  case_bool_decide as He; [subst err|apply wp_ret; [done|by apply wp_close]].
  apply wp_bind. apply wp_labelled; [done|]. intros s r s' _.
  assert (done_is_last (t ++ option_list (match r with outputSendOK => Some (LSend o (ev_Type e)) | _ => None end))) as Hd'.
  { destruct r; [|by rewrite app_nil_r..]. destruct (decide (ev_Type e = EventDone)) as [->|Hne]; [by apply closing_done|].
    apply done_snoc; [congruence|done]. }
  split; [done|]. destruct r; (apply wp_ret; [done|by apply wp_close]).
Qed.

Lemma closing_start ms t : unfinished t -> forall err, closing (Some err) (t ++ [LFinished ms]).
Proof.
  intros (H1 & _ & _) err. split; [|done]. intros o. rewrite elem_of_app, list_elem_of_singleton. intros [Hx|Hx]; [by apply H1 in Hx|done].
Qed.

(** One save: its label settles the outcome. *)
Lemma closing_save ms t (r : result unit) :
  unfinished t -> LKept false ∉ t -> closing (ok_or r) ((t ++ [LFinished ms]) ++ [LStored (is_ok r)]).
Proof.
  intros (H1 & H2 & _) Hk. split.
  - intros o. rewrite !elem_of_app, !list_elem_of_singleton. intros [[Hx|Hx]|Hx]; [by apply H1 in Hx|done..].
  - intros He. destruct r; [|done]. rewrite !elem_of_app, !list_elem_of_singleton. split_and!; [| |by auto].
    + intros [[Hx|Hx]|Hx]; [by apply H2 in Hx|done..].
    + by intros [[Hx|Hx]|Hx].
Qed.
Lemma closing_unsaved t : unfinished t -> LKept false ∉ t -> closing None (t ++ [LFinished false]).
Proof.
  intros (H1 & H2 & H3) Hk. split.
  - intros o. rewrite elem_of_app, list_elem_of_singleton. intros [Hx|Hx]; [by apply H1 in Hx|done].
  - intros _. rewrite !elem_of_app, !list_elem_of_singleton.
    split_and!; intros [Hx|Hx]; [by apply H2 in Hx|done|done|done|by apply H3 in Hx|done].
Qed.

(** The outcome is an error when a save failed while events were handled. *)
Lemma twp_finish x outcome s t :
  handling x t s -> twp (meanwhile uuid engine) done_is_last (@finish_run W _ x outcome) (fun _ _ => done_is_last) s t.
Proof.
  intros Hh. pose proof Hh as (_ & Ht & _). pose proof (unfinished_safe _ Ht) as Hd. unfold finish_run. apply twp_bind. split; [done|].
  intros s1 err s2 Hr Hb. apply (handling_rely _ _ _ _ Hh) in Hr as (_ & _ & Hk). cbn [option_list]. rewrite app_nil_r.
  assert (err = None -> LKept false ∉ t) as Hkept.
  { intros -> [Hx (v & Ev & He)]%Hk. unfold with_session in Hb. sect. simplify_eq. case_match; simplify_eq. by apply He. }
  clear Hh Hb Hk. split; [done|]. apply twp_wp.
  apply wp_bind, wp_labelled; [done|]. intros _ f _ _. set (t1 := t ++ [LFinished (must_save f)]).
  change (option_list (Some (LFinished (must_save f)))) with [LFinished (must_save f)].
  assert (done_is_last t1) as Hd1 by (by apply done_snoc). split; [done|]. cbv zeta.
  set (rs := sg_results (fi_segment f)). set (history := HistoryRequestKey (fi_request f)).
  (* the two saves *)
  set (tail := fun saved : option Err * list ToolResult => _).
  assert (forall err results t', closing err t' -> wp done_is_last (tail (err, results)) (fun _ => done_is_last) t') as Htail.
  { clear. intros err results u1 Hu1. unfold tail. apply wp_bind. eapply wp_mono; [by apply closing_flight|]. intros [] u2 Hu2.
    apply wp_bind. assert (wp done_is_last (if bool_decide (err = None) && bool_decide (history = "") &&
        (ro_DeleteCompletedState (rr_Options (fi_request f)) && negb (fi_pending f)) && bool_decide (results = [])
      then _ ← store_op (st_Delete (fi_owner f)); mret tt else mret tt) (fun _ => closing err) u2) as Hdel.
    { pose proof (closing_safe _ _ Hu2). destruct (_ && _ && _ && _); [|by apply wp_ret]. apply wp_bind, wp_atomic; [done|].
      intros. by apply wp_ret. }
    eapply wp_mono; [exact Hdel|]. intros [] u Hu. apply wp_bind, wp_labelled; [by eapply closing_safe|]. intros _ r _ _.
    assert (closing err (u ++ [LRelease])) as Hc1 by (by apply closing_snoc). split; [by eapply closing_safe|].
    apply wp_bind, wp_labelled; [by eapply closing_safe|]. intros _ v _ _.
    assert (closing err ((u ++ [LRelease]) ++ [LIdle (ol_SessionID (fi_owner f))])) as Hc2 by (by apply closing_snoc).
    split; [by eapply closing_safe|]. apply wp_bind. eapply wp_mono; [apply wp_deliver; [exact Hc2|]|].
    - split; [|exists (ol_SessionID (fi_owner f))]; rewrite !elem_of_app; set_solver.
    - intros [] t' Hd. by apply wp_atomic. }
  apply wp_bind. destruct (bool_decide (err = None) && negb (bool_decide (history = ""))) eqn:G1.
  - apply andb_true_iff in G1 as [Ee%bool_decide_eq_true_1 G1]. bool_hyps. apply wp_bind, wp_labelled; [done|]. intros _ r _ _.
    pose proof (closing_save (must_save f) t r Ht (Hkept Ee)) as Hc. split; [by eapply closing_safe|].
    apply wp_ret; [by eapply closing_safe|]. rewrite (bool_decide_eq_false_2 (history = "")) by done.
    rewrite andb_false_r. cbn [andb]. apply wp_bind, wp_ret; [by eapply closing_safe|]. by apply Htail.
  - apply wp_ret; [done|]. apply wp_bind. destruct (bool_decide (err = None) && bool_decide (history = "") && negb (bool_decide (rs = []))) eqn:G2.
    + apply andb_true_iff in G2 as [[Ee%bool_decide_eq_true_1 _]%andb_true_iff _].
      apply wp_bind, wp_labelled; [done|]. intros _ r _ _. pose proof (closing_save (must_save f) t r Ht (Hkept Ee)) as Hc.
      split; [by eapply closing_safe|]. apply wp_ret; [by eapply closing_safe|]. by apply Htail.
    + apply wp_ret; [done|]. apply Htail. destruct err as [e|]; [by apply closing_start|].
      assert (must_save f = false) as ->; [|apply closing_unsaved; [done|by apply Hkept]]. unfold must_save. fold history rs. cbn in G1, G2.
      destruct (bool_decide (history = "")), (bool_decide (rs = [])); done.
Qed.

(** C4 A turn is reported done only when it can be replayed: whatever the engine
    sends and whatever the other handlers, sessions and callers do meanwhile, the
    end-of-turn event reaches the caller only after every save this run made (the
    checkpoints and pending tools of its events, then its segment) succeeded, with
    the segment saved when it answers tool results or a history request, the lease
    given back and the session idle. *)
Theorem done_after_persistence (x : nat) (m : Mgr W) (t : list Label) (r : option unit) :
  (x < m_next m)%nat -> is_Some (m_sessions m !! x) ->
  rtrace (meanwhile uuid engine) m (session_run uuid engine x) t r -> done_is_last t.
Proof.
  intros Hx [v Hv] Hp. assert (handling x [] m) as Hh.
  { split_and!; [split; [done|by exists v]|split_and!; intros ? Hl; by apply elem_of_nil in Hl|intros Hl; by apply elem_of_nil in Hl]. }
  assert (twp (meanwhile uuid engine) done_is_last (session_run uuid engine x) (fun _ _ => done_is_last) m []) as Hw.
  { unfold session_run. destruct (engine x) as [events outcome]. apply twp_bind.
    apply (twp_mono _ _ _ (fun _ s t => handling x t s)); [|intros [] s' t'; apply twp_finish]. revert Hh.
    generalize m, (@nil Label). change (calmly x (prog_each events (handleEvent uuid x))). calm. }
  exact (twp_sound _ _ _ _ _ _ _ _ Hw Hp).
Qed.
End traces.

(** *** A whole run over the file store *)
#[local] Existing Instance sample_digest.
Definition done_engine (x : nat) : list Event * option Err :=
  ([with_text "hi" (event_of EventText); event_of EventCheckpoint; event_of EventDone], None).
Definition sample_run : option (unit * list Label * Mgr World) :=
  exec (session_run sample_uuid done_engine 0) running_memory.
Definition run_trace : list Label := match sample_run with Some (_, t, _) => t | None => [] end.
Example sample_run_trace :
  run_trace = [LSend 1 EventText; LKept true; LFinished false; LRelease; LIdle "session"; LSend 1 EventDone; LClose 1 None].
Proof. by vm_compute. Qed.
Lemma done_after_persistence_witness : LRelease ∈ take 5 run_trace.
Proof.
  apply (done_after_persistence sample_uuid done_engine 0 running_memory run_trace (Some tt)) with (t1 := take 5 run_trace) (o := 1%nat) (t2 := [LClose 1 None]).
  - apply Nat.ltb_lt. by vm_compute.
  - apply is_Some_alt. by vm_compute.
  - destruct sample_run as [[[[] t] m]|] eqn:E; [|by vm_compute in E]. unfold run_trace. rewrite E.
    eapply exec_rtrace; [intros; apply rtc_refl|exact E].
  - by rewrite sample_run_trace.
Defined.
