(* ===== verification/ManagerDuties.v ===== *)
(** * Nothing is left behind

    A handler that returns holds no reservation and no lease it did not hand to a
    running session, and a leader that returns an error has ended its flight.
    Proved for any store that keeps the laws of a claim, which the file store does. *)
From stdpp Require Import base tactics list gmap strings sorting.
From S2P Require Import Prelude GoStrings Sha256 Connect Data Json Usage EventSnapshot Segment StoreWorld StoreLogic StoreIndex StoreCompleted StoreState StoreLaws StoreProps HostedPolicy Conc Manager ManagerOps ManagerStore ManagerInv ManagerProps.
Open Scope Z_scope.

(** ** What the manager relies on: a claim hands out the session it was asked for,
    or the replay of a history request *)
Class ClaimLaws (W : Type) `{StateStore W} : Prop := claim_laws :
  forall sid cid fp opts w c w', (Ok c, w') ∈ st_Claim sid cid fp opts w ->
    (exists o, cl_Owner c = Some o /\ cl_Replay c = None /\ ol_SessionID o = TrimSpace sid) \/
    (cl_Owner c = None /\ is_Some (cl_Replay c) /\ co_HistoryRequestKey opts <> "").

(** ** Duties: sessions reserved, a lease held, flights led *)
Definition Duty : Type := gset string * bool * gset nat.
Definition no_duty : Duty := (∅, false, ∅).
Definition duty (d : Duty) (l : Label) : Duty :=
  let '(reserved, leased, led) := d in
  match l with
  | LReserve sid => ({[sid]} ∪ reserved, leased, led)
  | LUnreserve sid => (reserved ∖ {[sid]}, leased, led)
  | LInstall sid => (reserved ∖ {[sid]}, false, led)
  | LClaim => (reserved, true, led)
  | LRelease => (reserved, false, led)
  | LLead _ f => (reserved, leased, {[f]} ∪ led)
  | LEnd _ f => (reserved, leased, led ∖ {[f]})
  | _ => d
  end.
Definition duties (t : list Label) : Duty := fold_left duty t no_duty.
Lemma duties_snoc t l : duties (t ++ [l]) = duty (duties t) l.
Proof. unfold duties. by rewrite fold_left_app. Qed.

Section duties.
Context `{Digest} {W : Type} `{SS : StateStore W} `{!ClaimLaws W}.
Context (uuid : nat -> string) (engine : nat -> list Event * option Err).

(** From duties [d], [p] ends with the duties [Q] says; [True]: nothing is said of
    the trace on the way. *)
Definition owes {A} (p : Prog (Mgr W) Label A) (d : Duty) (Q : A -> Duty -> Prop) : Prop :=
  forall t, duties t = d -> wp (fun _ => True) p (fun a t' => Q a (duties t')) t.

Lemma owes_ret {A} (a : A) d Q : Q a d -> owes (mret a) d Q.
Proof. intros HQ t Ht. apply wp_ret; [done|]. by rewrite Ht. Qed.
Lemma owes_bind {A B} (p : Prog (Mgr W) Label A) (q : A -> Prog (Mgr W) Label B) d R Q :
  owes p d R -> (forall a d', R a d' -> owes (q a) d' Q) -> owes (p ≫= q) d Q.
Proof. intros Hp Hq t Ht. apply wp_bind. eapply wp_mono; [by apply Hp|]. cbv beta. intros a t' Ha. by apply (Hq a _ Ha). Qed.
Lemma owes_labelled {A} (lab : A -> option Label) f d (Q : A -> Duty -> Prop) :
  (forall s a s', (a, s') ∈ f s -> Q a (match lab a with Some l => duty d l | None => d end)) -> owes (labelled lab f) d Q.
Proof.
  intros HQ t Ht. apply wp_labelled; [done|]. intros s a s' Ha. split; [done|]. specialize (HQ s a s' Ha).
  destruct (lab a) as [l|]; [change (option_list (Some l)) with [l]; by rewrite duties_snoc, Ht|].
  change (option_list None) with (@nil Label). by rewrite app_nil_r, Ht.
Qed.
Lemma owes_mono {A} (p : Prog (Mgr W) Label A) d (Q Q' : A -> Duty -> Prop) :
  owes p d Q -> (forall a d', Q a d' -> Q' a d') -> owes p d Q'.
Proof. intros Hp HQ t Ht. eapply wp_mono; [by apply Hp|]. intros a t'. apply HQ. Qed.

(** *** Programs that owe nothing more *)
Definition neutral {A} (p : Prog (Mgr W) Label A) : Prop := forall d, owes p d (fun _ d' => d' = d).
Definition neutral_label (l : option Label) : bool :=
  match l with
  | Some (LReserve _ | LUnreserve _ | LInstall _ | LClaim | LRelease | LLead _ _ | LEnd _ _) => false | _ => true
  end.
Lemma neutral_ret {A} (a : A) : neutral (mret a).
Proof. intros d. by apply owes_ret. Qed.
Lemma neutral_bind {A B} (p : Prog (Mgr W) Label A) (q : A -> Prog (Mgr W) Label B) :
  neutral p -> (forall a, neutral (q a)) -> neutral (p ≫= q).
Proof. intros Hp Hq d. eapply owes_bind; [apply Hp|]. intros a d' ->. apply Hq. Qed.
Lemma neutral_labelled {A} (lab : A -> option Label) f : (forall a, neutral_label (lab a) = true) -> neutral (labelled lab f).
Proof. intros Hl d. apply owes_labelled. intros s a s' _. specialize (Hl a). destruct d as [[? ?] ?]. destruct (lab a) as [[]|]; done. Qed.
Lemma neutral_atomic {A} (f : Sect (Mgr W) A) : neutral (atomic f).
Proof. by apply neutral_labelled. Qed.
Lemma neutral_fork p : neutral (fork p).
Proof. intros d t Ht. by apply wp_fork. Qed.
Lemma neutral_each {A} (l : list A) body : (forall a, neutral (body a)) -> neutral (prog_each l body).
Proof. intros Hb. induction l; cbn [prog_each]; [apply neutral_ret|by apply neutral_bind]. Qed.

Create HintDb owed discriminated.
#[local] Hint Constants Opaque : owed.
Ltac plain :=
  repeat first
  [ progress intros
  | progress cbv zeta
  | solve [auto 2 with owed nocore]
  | lazymatch goal with
    | |- neutral (match ?x with _ => _ end) => destruct x
    | |- neutral (mret _) => apply neutral_ret
    | |- neutral (_ ≫= _) => apply neutral_bind
    | |- neutral (prog_each _ _) => apply neutral_each
    | |- neutral (fork _) => apply neutral_fork
    | |- neutral (atomic _) => apply neutral_atomic
    | |- neutral (labelled _ _) => apply neutral_labelled; intros; repeat case_match; done
    end ].

Lemma neutral_store_op {A} (op : W -> list (result A * W)) : neutral (store_op op).
Proof. unfold store_op. plain. Qed.
Lemma neutral_NewString : neutral (NewString uuid).
Proof. unfold NewString. plain. Qed.
Lemma neutral_ctx_err c : neutral (ctx_err c).
Proof. unfold ctx_err. plain. Qed.
Lemma neutral_close o e : neutral (output_close o e).
Proof. unfold output_close. plain. Qed.
Lemma neutral_send o e : neutral (output_send o e).
Proof. unfold output_send. plain. Qed.
Lemma neutral_replay r : neutral (emitCompletedReplay r).
Proof. unfold emitCompletedReplay. plain. Qed.
Lemma neutral_wait c f : neutral (waitResumeFlight c f).
Proof. unfold waitResumeFlight, emitCompletedReplay, ctx_err. plain. Qed.
Lemma neutral_bindFlight sid fp b f : neutral (bindResumeFlight sid fp b f).
Proof. unfold bindResumeFlight. plain. Qed.
Lemma neutral_failState x e : neutral (failState x e).
Proof. unfold failState. plain. Qed.
#[local] Hint Resolve neutral_store_op neutral_NewString neutral_ctx_err neutral_close neutral_send neutral_replay neutral_wait
  neutral_bindFlight neutral_failState : owed.
Lemma neutral_emit x e : neutral (emit x e).
Proof. unfold emit. plain. Qed.
#[local] Hint Resolve neutral_emit : owed.
Lemma neutral_queue x o rs : neutral (queue_results x o rs).
Proof. induction rs; cbn [queue_results]; plain; done. Qed.
#[local] Hint Resolve neutral_queue : owed.
Lemma neutral_resume x rs b srs sg dis : neutral (resume x rs b srs sg dis).
Proof. unfold resume. plain. Qed.
Lemma neutral_lookupFollowUp fp c fu : neutral (lookupFollowUpReplay fp c fu).
Proof. unfold lookupFollowUpReplay. plain. Qed.
Lemma neutral_lookupRequest fp c fu : neutral (lookupRequestReplay fp c fu).
Proof. unfold lookupRequestReplay. plain. Qed.
Lemma neutral_conversation c : neutral (conversation_or_new uuid c).
Proof. unfold conversation_or_new. plain. Qed.
#[local] Hint Resolve neutral_resume neutral_lookupFollowUp neutral_lookupRequest neutral_conversation : owed.
Lemma neutral_waitFollowUp r c : neutral (waitFollowUpSnapshot r c).
Proof. unfold waitFollowUpSnapshot. plain. Qed.
#[local] Hint Resolve neutral_waitFollowUp : owed.

(** *** The steps that create or discharge a duty *)
Lemma owes_neutral {A B} (p : Prog (Mgr W) Label A) (q : A -> Prog (Mgr W) Label B) d Q :
  neutral p -> (forall a, owes (q a) d Q) -> owes (p ≫= q) d Q.
Proof. intros Hp Hq. eapply owes_bind; [apply Hp|]. intros a d' ->. apply Hq. Qed.
Lemma owes_reserve sid R b F : sid ∉ R ->
  owes (reserve sid) (R, b, F) (fun (ok : bool) d => d = (if ok then ({[sid]} ∪ R, b, F) else (R, b, F))).
Proof. intros Hn. unfold reserve. apply owes_labelled. intros s [] s' _; done. Qed.
Lemma owes_release o R b F : owes (release_op o) (R, b, F) (fun _ d => d = (R, false, F)).
Proof. unfold release_op. by apply owes_labelled. Qed.
Lemma owes_end fp batch f r e R b : owes (endResumeFlight fp batch f r e) (R, b, {[f]}) (fun _ d => d = (R, b, ∅)).
Proof.
  unfold endResumeFlight. eapply owes_bind; [apply (owes_labelled _ _ _ (fun _ d => d = (R, b, ∅)))|].
  - intros s k s' _. cbn. do 2 f_equal. set_solver.
  - intros k d ->. by apply owes_ret.
Qed.
Lemma owes_fail {A} fp batch f e R b :
  owes (@fail_flight W A fp batch f e) (R, b, {[f]}) (fun r d => d = (R, b, ∅) /\ r = Fail e).
Proof. unfold fail_flight. eapply owes_bind; [apply owes_end|]. intros [] d ->. by apply owes_ret. Qed.

Definition claimed (sid : string) (opts : ClaimOptions) (R : gset string) (F : gset nat) (r : result ClaimResult) (d : Duty) : Prop :=
  match r with
  | Fail _ => d = (R, false, F)
  | Ok c => (exists o, cl_Owner c = Some o /\ cl_Replay c = None /\ ol_SessionID o = TrimSpace sid /\ d = (R, true, F)) \/
            (cl_Owner c = None /\ is_Some (cl_Replay c) /\ co_HistoryRequestKey opts <> "" /\ d = (R, false, F))
  end.
Lemma owes_claim sid cid fp opts R F :
  owes (claim_op sid cid fp opts) (R, false, F) (claimed sid opts R F).
Proof.
  unfold claim_op. apply owes_labelled. intros s r s' Hr. unfold call in Hr. apply list_elem_of_fmap in Hr as ([r' w] & [= -> ->] & Hr).
  cbn [fst] in *. destruct r' as [c|e]; [|done]. cbn [claimed]. destruct (claim_laws _ _ _ _ _ _ _ Hr) as [(o & E1 & E2 & E3)|(E1 & E2 & E3)].
  - left. exists o. rewrite E1. done.
  - right. by rewrite E1.
Qed.

(** Whatever [startClaimed] returns, the lease is handed on or given back; the
    reservation is consumed exactly when it succeeds. *)
Lemma owes_startClaimed run owner restored initial covering batch carry disable sid F :
  ol_SessionID owner = TrimSpace sid ->
  owes (startClaimed uuid engine run owner restored initial covering batch carry disable) ({[sid]}, true, F)
    (fun r d => d = (if is_ok r then ({[sid]} ∖ {[TrimSpace sid]}, false, F) else ({[sid]}, false, F))).
Proof.
  intros Hsid. unfold startClaimed. cbv zeta. apply owes_neutral; [apply neutral_atomic|]. intros [x o].
  eapply owes_bind; [apply (owes_labelled _ _ _ (fun (ok : bool) d => d = (if ok then ({[sid]} ∖ {[TrimSpace sid]}, false, F) else ({[sid]}, true, F))))|].
  - intros s [] s' _; cbn; by rewrite ?Hsid.
  - intros ok d ->. destruct ok; cbn [negb].
    + apply owes_neutral; [apply neutral_each; intros; apply neutral_atomic|]. intros [].
      apply owes_neutral; [apply neutral_fork|]. intros []. by apply owes_ret.
    + apply owes_neutral; [apply neutral_atomic|]. intros []. eapply owes_bind; [apply owes_release|].
      intros r d ->. by apply owes_ret.
Qed.

(** ** The handlers *)

(** Names that reservations and leases write differently: a session is reserved
    under the name the store resolved, but runs under its trimmed name. *)
Definition untrimmed (R : gset string) : Prop := forall sid, sid ∈ R -> TrimSpace sid <> sid.
Lemma untrimmed_rest sid : untrimmed ({[sid]} ∖ {[TrimSpace sid]}).
Proof. intros x [->%elem_of_singleton Hx]%elem_of_difference E. apply Hx, elem_of_singleton. done. Qed.
(** Nothing reserved or leased; on an error no flight led either. *)
Definition returned {A} (r : result A) (d : Duty) : Prop :=
  exists R F, d = (R, false, F) /\ untrimmed R /\ (is_ok r = false -> F = ∅).
(** The same with the reservation still held if the flag says so. *)
Definition returning_reserved {A} (sid : string) (x : result A * bool) (d : Duty) : Prop :=
  exists F, d = ((if x.2 then {[sid]} else {[sid]} ∖ {[TrimSpace sid]}), false, F) /\ (is_ok x.1 = false -> F = ∅).

Lemma owes_with_reservation {A} sid (body : Prog (Mgr W) Label (result A * bool)) F :
  owes body ({[sid]}, false, F) (returning_reserved sid) -> owes (with_reservation sid body) ({[sid]}, false, F) returned.
Proof.
  intros Hb. unfold with_reservation. eapply owes_bind; [exact Hb|]. intros [r held] d (F' & -> & HF). cbn [fst snd] in *.
  destruct held.
  - eapply owes_bind; [apply (owes_labelled _ _ _ (fun _ d => d = (∅, false, F')))|].
    + intros s u s' _. cbn. do 2 f_equal. set_solver.
    + intros u d ->. apply owes_ret. by exists ∅, F'.
  - apply owes_neutral; [apply neutral_ret|]. intros u. apply owes_ret. exists ({[sid]} ∖ {[TrimSpace sid]}), F'.
    split_and!; [done|apply untrimmed_rest|done].
Qed.

Lemma owes_reserved {A} sid F (body : Prog (Mgr W) Label (result A)) (refuse : Prog (Mgr W) Label (result A)) :
  owes body ({[sid]}, false, F) returned -> owes refuse (∅, false, F) returned ->
  owes (ok ← reserve sid; if ok : bool then body else refuse) (∅, false, F) returned.
Proof.
  intros Hb Hr. eapply owes_bind; [apply owes_reserve; set_solver|]. intros [] d ->; [|done].
  by rewrite union_empty_r_L.
Qed.

Lemma returned_none {A} (r : result A) : returned r no_duty.
Proof. by exists ∅, ∅. Qed.
Lemma started_returned {A} sid (r : result A) d :
  d = (if is_ok r then ({[sid]} ∖ {[TrimSpace sid]}, false, ∅) else ({[sid]}, false, ∅)) -> returning_reserved sid (started r) d.
Proof. intros ->. exists ∅. by destruct r. Qed.

Lemma owes_start_reserved request sid :
  owes (start_reserved uuid engine request sid) ({[sid]}, false, ∅) (returning_reserved sid).
Proof.
  unfold start_reserved. cbv zeta. assert (forall e : Err, returning_reserved (A:=ManagedOutput) sid (Fail e, true) ({[sid]}, false, ∅)) as Hfail
    by (intros e; by exists ∅).
  destruct (CredentialFingerprint _ _) as [fp|e]; [|by apply owes_ret].
  apply owes_neutral; [apply neutral_conversation|]. intros cid. apply owes_neutral; [apply neutral_NewString|]. intros fresh.
  eapply owes_bind; [apply owes_claim|]. intros [c|e] d Hd; cbn [claimed] in Hd.
  - destruct Hd as [(o & E1 & E2 & E3 & ->)|(E1 & [rp E2] & _ & ->)]; rewrite E2.
    + rewrite E1. cbn [default]. eapply owes_bind; [apply (owes_startClaimed _ _ _ _ _ _ _ _ sid)|].
      * unfold set_ol. simpl. exact E3.
      * intros r d Hd. by apply owes_ret, started_returned.
    + apply owes_neutral; [apply neutral_replay|]. intros out. apply owes_ret. by exists ∅.
  - subst d. by destruct (errors_is e ErrStatePending), (errors_is e ErrNotExist); apply owes_ret.
Qed.

Lemma owes_start_session request sid0 : owes (start_session uuid engine request sid0) no_duty returned.
Proof.
  unfold start_session. cbv zeta. case_bool_decide; [apply owes_ret, returned_none|]. set (sid := TrimSpace sid0).
  eapply owes_bind; [apply owes_reserve; set_solver|]. intros ok d ->. destruct ok; cbn [negb].
  - rewrite union_empty_r_L. apply owes_with_reservation, owes_start_reserved.
  - apply owes_ret, returned_none.
Qed.

Lemma owes_Start request : owes (Start uuid engine request) no_duty returned.
Proof.
  unfold Start. cbv zeta. case_bool_decide; [apply owes_start_session|].
  destruct (CredentialFingerprint _ _) as [fp|e]; [|apply owes_ret, returned_none].
  apply owes_neutral; [apply neutral_store_op|]. intros [rp|e].
  - apply owes_neutral; [apply neutral_replay|]. intros out. apply owes_ret, returned_none.
  - destruct (negb _); [apply owes_ret, returned_none|apply owes_start_session].
Qed.

Lemma owes_followup_reserved request sid fp fu c :
  TrimSpace sid = sid ->
  owes (followup_reserved uuid engine request sid fp fu c) ({[sid]}, false, ∅) (returning_reserved sid).
Proof.
  intros Hsid. unfold followup_reserved. cbv zeta.
  assert (forall r : result ManagedOutput, returning_reserved sid (r, true) ({[sid]}, false, ∅)) as Hheld by (intros r; by exists ∅).
  apply owes_neutral; [apply neutral_lookupFollowUp|]. intros [[out|]|e]; try (by apply owes_ret).
  apply owes_neutral; [apply neutral_conversation|]. intros cid. apply owes_neutral; [apply neutral_NewString|]. intros fresh.
  eapply owes_bind; [apply owes_claim|]. intros [cl|e] d Hd; cbn [claimed] in Hd.
  2: { subst d. destruct (errors_is e ErrNotExist); [by apply owes_ret|]. destruct (errors_is e ErrStatePending); [by apply owes_ret|].
    destruct (errors_is e ErrStateLeaseHeld); [|by apply owes_ret].
    eapply owes_bind; [apply (owes_labelled _ _ _ (fun _ d => d = (∅, false, ∅)))|].
    - intros s u s' _. cbn. do 2 f_equal. set_solver.
    - intros u d ->. apply owes_neutral; [apply neutral_waitFollowUp|]. intros out. apply owes_ret. exists ∅. rewrite Hsid.
      split; [|done]. cbn. do 2 f_equal. set_solver. }
  destruct Hd as [(o & E1 & E2 & E3 & ->)|(_ & _ & Hk & _)]; [|by destruct Hk]. rewrite E1. cbn [default].
  assert (forall r : result ManagedOutput, owes (_ ← release_op o; mret (r, true)) ({[sid]}, true, ∅) (returning_reserved sid)) as Hgive.
  { intros r. eapply owes_bind; [apply owes_release|]. intros u d ->. by apply owes_ret. }
  destruct (negb _); [apply Hgive|]. apply owes_neutral; [apply neutral_lookupFollowUp|]. intros [[out|]|e]; [apply Hgive| |apply Hgive].
  destruct (applyCallerToolCatalog _ _ _ _ _); [|apply Hgive]. apply owes_neutral; [apply neutral_ctx_err|]. intros [e|]; [apply Hgive|].
  apply owes_neutral; [apply neutral_store_op|]. intros [u|e]; [|apply Hgive].
  eapply owes_bind; [apply (owes_startClaimed _ _ _ _ _ _ _ _ sid)|].
  - unfold set_ol. simpl. exact E3.
  - intros r d Hd. by apply owes_ret, started_returned.
Qed.

Lemma owes_StartFollowUp request c : owes (StartFollowUp uuid engine request c) no_duty returned.
Proof.
  unfold StartFollowUp. destruct (_ && _); [apply owes_ret, returned_none|]. apply owes_neutral; [apply neutral_ctx_err|].
  intros [e|]; [apply owes_ret, returned_none|]. destruct (CredentialFingerprint _ _) as [fp|e]; [|apply owes_ret, returned_none].
  cbv zeta. case_bool_decide; [apply owes_ret, returned_none|]. case_bool_decide; [apply owes_ret, returned_none|].
  pose proof (TrimSpace_idemp (mr_SessionID request)) as Hsid. set (sid := TrimSpace (mr_SessionID request)) in *.
  pose proof (owes_with_reservation sid _ ∅ (owes_followup_reserved request sid fp (TrimSpace (mr_FollowUpText request)) c Hsid)) as Hgo.
  apply owes_reserved; [exact Hgo|]. apply owes_neutral; [apply neutral_waitFollowUp|]. intros [out|e]; [apply owes_ret, returned_none|].
  apply owes_neutral; [apply neutral_ctx_err|]. intros [e'|]; [apply owes_ret, returned_none|].
  apply owes_reserved; [exact Hgo|]. eapply owes_mono; [apply neutral_waitFollowUp|]. intros r d ->. apply returned_none.
Qed.

(** ** Resuming *)

Lemma owes_fail_returned {A} fp batch f e : owes (@fail_flight W A fp batch f e) (∅, false, {[f]}) returned.
Proof. eapply owes_mono; [apply owes_fail|]. intros r d [-> ->]. by exists ∅, ∅. Qed.
Lemma owes_fail_reserved {A} fp batch f e sid :
  owes (r ← @fail_flight W A fp batch f e; mret (r, true)) ({[sid]}, false, {[f]}) (returning_reserved sid).
Proof. eapply owes_bind; [apply owes_fail|]. intros r d [-> ->]. apply owes_ret. by exists ∅. Qed.
Lemma owes_fail_claimed {A} fp batch f o e sid :
  owes (@fail_claimed W _ A fp batch f o e) ({[sid]}, true, {[f]}) (returning_reserved sid).
Proof.
  unfold fail_claimed. eapply owes_bind; [apply owes_release|]. intros u d ->.
  eapply owes_bind; [apply owes_fail|]. intros r d [-> ->]. apply owes_ret. by exists ∅.
Qed.

Lemma owes_resume_active request rs fp b acc fu f x sid sg :
  owes (resume_active request rs fp b acc fu f x sid sg) (∅, false, {[f]}) returned.
Proof.
  unfold resume_active. apply owes_neutral; [apply neutral_atomic|]. intros o.
  destruct (_ && _); [apply owes_fail_returned|]. destruct (negb _); [apply owes_fail_returned|].
  apply owes_neutral; [plain|]. intros []. apply owes_neutral; [apply neutral_bindFlight|]. intros [].
  apply owes_neutral; [apply neutral_resume|]. intros [out|e]; [|apply owes_fail_returned]. apply owes_ret. by exists ∅, {[f]}.
Qed.

Lemma owes_resume_claimed request rs fp b acc fu f sid sg :
  owes (resume_claimed uuid engine request rs fp b acc fu f sid sg) ({[sid]}, false, {[f]}) (returning_reserved sid).
Proof.
  unfold resume_claimed. cbv zeta. apply owes_neutral; [apply neutral_conversation|]. intros cid.
  eapply owes_bind; [apply owes_claim|]. intros [cl|e] d Hd; cbn [claimed] in Hd; [|subst d; apply owes_fail_reserved].
  destruct Hd as [(o & E1 & E2 & E3 & ->)|(_ & _ & Hk & _)]; [|by destruct Hk]. rewrite E1. simpl default.
  destruct (_ && _); [apply owes_fail_claimed|]. destruct (filterPendingResults _ _) as [filtered|]; [|apply owes_fail_claimed].
  destruct (cl_ColdRebuild cl); [apply owes_fail_claimed|]. destruct (applyCallerToolCatalog _ _ _ _ _); [|apply owes_fail_claimed].
  eapply owes_bind; [apply (owes_startClaimed _ _ _ _ _ _ _ _ sid)|].
  - unfold set_ol. simpl. exact E3.
  - intros [out|e] d ->; cbn [is_ok]; [|apply owes_fail_reserved].
    apply owes_neutral; [plain|]. intros []. apply owes_neutral; [apply neutral_bindFlight|]. intros [].
    apply owes_ret. by exists {[f]}.
Qed.

Lemma owes_replayed request fp b f (rp : CompletedReplay) :
  owes (if isMeteredTurn (rp_BillingRunID rp) && negb (mr_TurnMetering request) then @fail_flight W ManagedOutput fp b f meteringVersionError
        else output ← emitCompletedReplay rp; _ ← endResumeFlight fp b f (Some rp) None; mret (Ok output))
    (∅, false, {[f]}) returned.
Proof.
  destruct (_ && _); [apply owes_fail_returned|]. apply owes_neutral; [apply neutral_replay|]. intros out.
  eapply owes_bind; [apply owes_end|]. intros [] d ->. apply owes_ret. by exists ∅, ∅.
Qed.

Lemma owes_resume_leader request rs fp b acc fu f submitted :
  owes (resume_leader uuid engine request rs fp b acc fu f submitted) (∅, false, {[f]}) returned.
Proof.
  unfold resume_leader. apply owes_neutral; [apply neutral_store_op|]. intros [sid|e].
  - cbv zeta. apply owes_neutral; [apply neutral_lookupRequest|]. intros [rp|e]; [apply owes_replayed|].
    destruct (negb _); [apply owes_fail_returned|]. case_bool_decide; [apply owes_fail_returned|].
    apply owes_neutral; [apply neutral_atomic|]. intros [x|]; [apply owes_resume_active|].
    eapply owes_bind; [apply owes_reserve; set_solver|]. intros ok d ->. destruct ok; cbn [negb]; [|apply owes_fail_returned].
    rewrite union_empty_r_L. by apply owes_with_reservation, owes_resume_claimed.
  - destruct (negb _); [apply owes_fail_returned|]. apply owes_neutral; [apply neutral_lookupRequest|].
    intros [rp|e']; [apply owes_replayed|]. destruct (negb _); apply owes_fail_returned.
Qed.

Lemma owes_ResumeTools request rs :
  owes (ResumeTools uuid engine request rs) no_duty returned.
Proof.
  unfold ResumeTools. cbv zeta. destruct (_ || _); [apply owes_ret, returned_none|].
  destruct (canonicalToolResults _) as [canonical|e]; [|apply owes_ret, returned_none].
  destruct (CredentialFingerprint _ _) as [fp|e]; [|apply owes_ret, returned_none].
  apply owes_neutral; [apply neutral_store_op|]. intros [original|e]; [|apply owes_ret, returned_none].
  destruct (match completedResultsForBatch _ _ with Some _ => _ | None => _ end) as [accepted batch].
  unfold beginResumeFlight.
  eapply owes_bind; [apply (owes_labelled _ _ _ (fun r d => d = match r with Ok (f, true) => (∅, false, {[f]}) | _ => no_duty end))|].
  - intros s [[f []]|e] s' _; cbn; [|done..]. by rewrite union_empty_r_L.
  - intros [[f []]|e] d ->; [by apply owes_resume_leader| |apply owes_ret, returned_none].
    apply owes_neutral; [apply neutral_wait|]. intros [o|e]; [|apply owes_ret, returned_none].
    destruct (_ && _); apply owes_ret, returned_none.
Qed.

Lemma owes_sound {A} (p : Prog (Mgr W) Label A) Q t a :
  owes p no_duty Q -> ptrace p t (Some a) -> Q a (duties t).
Proof. intros Ho Hp. destruct (wp_sound _ _ _ _ _ _ (Ho [] eq_refl) Hp) as [_ HQ]. by apply HQ. Qed.

(** C6 No request leaves anything behind: when [Start], [StartFollowUp] or
    [ResumeTools] returns, on every path and under any interference, each session it
    reserved was either released or handed to the session it started, each lease it
    claimed was released or went with that session, and if a leader failed, its
    flight was ended, so that nobody waits on it.  (Only a session name with
    surrounding space, were the store to resolve to one, would stay reserved.) *)
Theorem handlers_leave_nothing (request : ManagedRequest) (rs : list ToolResult) (covering : option (list ToolResult))
    (t : list Label) (r : result ManagedOutput) :
  ptrace (Start uuid engine request) t (Some r) \/ ptrace (StartFollowUp uuid engine request covering) t (Some r) \/
  ptrace (ResumeTools uuid engine request rs) t (Some r) ->
  exists R F, duties t = (R, false, F) /\ untrimmed R /\ (is_ok r = false -> F = ∅).
Proof.
  intros [Hp|[Hp|Hp]]; [pose proof (owes_Start request) as Ho|pose proof (owes_StartFollowUp request covering) as Ho
    |pose proof (owes_ResumeTools request rs) as Ho]; by apply (owes_sound _ _ _ _ Ho) in Hp.
Qed.
End duties.

(** ** The file store keeps the laws *)
Section file_store.
Context `{Digest} (doc_size : Doc -> Z) (canonical_schema : bytes -> option bytes).
Context (uuid : nat -> string) (os : nat -> outcome) (s : FileStateStore).

Lemma claim_leased_hands h sid cid fp opts :
  Returns (claim_leased doc_size canonical_schema uuid os s h sid cid fp opts)
    (fun c => (exists o, cl_Owner c = Some o /\ cl_Replay c = None /\ ol_SessionID o = sid) \/
              (cl_Owner c = None /\ is_Some (cl_Replay c) /\ co_HistoryRequestKey opts <> "")).
Proof.
  unfold claim_leased. cbv zeta. apply returns_bind. intros read.
  destruct (decide (co_HistoryRequestKey opts = "")) as [Hk|Hk]; unfold claim_write; cbv zeta.
  - apply (returns_bind_with _ _ (fun rp => rp = None)); [rewrite bool_decide_eq_true_2 by done; by apply returns_ret|].
    intros ? ->. returning. apply returns_ret. left. by eexists.
  - returning; apply returns_ret; [right; by split_and!|left; by eexists].
Qed.

Lemma file_store_claims : ClaimLaws World (H := file_state_store doc_size canonical_schema uuid os s).
Proof.
  intros sid cid fp opts w c w'. cbn [st_Claim file_state_store]. unfold outcomes.
  destruct (Claim doc_size canonical_schema uuid os s sid cid fp opts w) as [[r|e|] w1] eqn:E; [|by intros [= <-]%list_elem_of_singleton|by intros ?%elem_of_nil].
  intros [= <- <-]%list_elem_of_singleton. unfold Claim in E. apply bind_ok in E as ([] & w2 & _ & E). cbv zeta in E.
  destruct (_ || _ || _); [done|]. apply bind_ok in E as (h & w3 & _ & E). unfold released_on_error in E.
  destruct (claim_leased _ _ _ _ _ _ _ _ _ _ w3) as [[r'|e|] w4] eqn:E4.
  2: by destruct (releaseHandle os h w4) as [[]]. 2: done.
  assert (r' = c) as ->; [|exact (claim_leased_hands _ _ _ _ _ _ _ _ E4)].
  destruct (cl_Owner r'); [by injection E|]. destruct (releaseHandle os h w4) as [[]]; simplify_eq; done.
Qed.
End file_store.

(** *** A request served by the file store *)
#[local] Existing Instance sample_digest.
Definition sample_started : option (result ManagedOutput * list Label * Mgr World) :=
  exec (Start sample_uuid (fun _ => ([], None)) (sample_request "")) (new_manager empty_world).
Definition started_trace : list Label := match sample_started with Some (_, t, _) => t | None => [] end.
Definition started_result : result ManagedOutput := match sample_started with Some (r, _, _) => r | None => Fail ErrNotExist end.
Example sample_starts :
  started_trace = [LReserve "session"; LClaim; LInstall "session"] /\ is_ok started_result = true.
Proof. by vm_compute. Qed.
Lemma handlers_leave_nothing_witness :
  exists R F, duties started_trace = (R, false, F) /\ untrimmed R /\ (is_ok started_result = false -> F = ∅).
Proof.
  apply (@handlers_leave_nothing sample_digest World sample_state_store
    (file_store_claims (fun _ => 0) Some sample_uuid all_ok sample_store) sample_uuid (fun _ => ([], None))
    (sample_request "") [] None).
  left. destruct sample_started as [[[r t] m]|] eqn:E; [|by vm_compute in E].
  unfold started_trace, started_result. rewrite E. by eapply exec_ptrace.
Defined.
