(* ===== verification/Media.v ===== *)
(** * Attachments and content blocks (src/cursoragentv1/media.go)

    The media a caller attaches, from the Anthropic content blocks to the parts of
    a structured history and back. *)
From stdpp Require Import base tactics list gmap strings sorting.
From Stdlib Require Import Strings.Byte.
From S2P Require Import Prelude GoStrings JsonValue Connect Data HostedPolicy.
Open Scope Z_scope.

(** ** [base64.StdEncoding] *)
Definition b64_value (b : byte) : option Z :=
  let n := Z.of_N (Byte.to_N b) in
  if (65 <=? n) && (n <=? 90) then Some (n - 65)
  else if (97 <=? n) && (n <=? 122) then Some (n - 71)
  else if (48 <=? n) && (n <=? 57) then Some (n + 4)
  else if n =? 43 then Some 62 else if n =? 47 then Some 63 else None.
Definition b64_group (a b c d : Z) : bytes :=
  let w := Z.lor (Z.lor (Z.shiftl a 18) (Z.shiftl b 12)) (Z.lor (Z.shiftl c 6) d) in
  [Zbyte (Z.shiftr w 16); Zbyte (Z.land (Z.shiftr w 8) 255); Zbyte (Z.land w 255)].
(** Groups of four; the last one may be padded.  Line breaks are skipped before. *)
Definition is_pad (b : byte) : bool := Byte.eqb b x3d.
Fixpoint b64_groups (l : bytes) : option bytes :=
  match l with
  | [] => Some []
  | a :: b :: c :: d :: l =>
      x ← b64_value a; y ← b64_value b;
      if bool_decide (l = []) && is_pad d then
        if is_pad c then Some (take 1 (b64_group x y 0 0))
        else z ← b64_value c; Some (take 2 (b64_group x y z 0))
      else
        z ← b64_value c; t ← b64_value d; rest ← b64_groups l; Some (b64_group x y z t ++ rest)
  | _ => None
  end.
Definition b64_decode (s : string) : option bytes :=
  b64_groups (List.filter (fun b => negb (Byte.eqb b x0a || Byte.eqb b x0d)) (to_bytes s)).
Definition b64_decoded_len (n : Z) : Z := n / 4 * 3.

(** ** Media parts *)
Definition mediaKindImage : string := "image".
Definition mediaKindDocument : string := "document".
Definition maxMediaPartBytes : Z := maxConnectPayloadSize.

(** Exactly one of text or media. *)
Record ContentPart := { cp_Text : string; cp_Media : option MediaPart }.
Definition text_part (text : string) : ContentPart := {| cp_Text := text; cp_Media := None |}.
Definition media_part (m : option MediaPart) : ContentPart := {| cp_Text := ""; cp_Media := m |}.

Definition rawBytes (p : MediaPart) : option bytes := b64_decode (mp_Data p).
(** [image_size]: [image.DecodeConfig] with the PNG, JPEG and GIF decoders. *)
Definition imageDimensions (image_size : bytes -> option (Z * Z)) (p : MediaPart) : Z * Z :=
  match rawBytes p with None => (0, 0) | Some raw => default (0, 0) (image_size raw) end.

(** *** Blocks of text *)
Definition block_text (v : any) : option string :=
  match v with AnyMap m => if bool_decide (stringValue (map_get m "type") = "text") then Some (stringValue (map_get m "text")) else None
             | _ => None end.
Definition contentText (value : any) : string :=
  match value with
  | AnyString s => s
  | AnyList blocks => Join (omap (block_text) blocks) (of_bytes [x0a])
  | _ => ""
  end.
Definition newline : string := of_bytes [x0a].
Definition quote : string := of_bytes [x22].

Definition documentSourceText (source : option object) : string :=
  match source with
  | None => ""
  | Some source =>
      match map_get source "data", map_get source "content" with
      | AnyString data, _ => data
      | _, AnyList content => contentText (AnyList content)
      | _, AnyString content => content
      | _, _ => ""
      end
  end.

Definition searchResultText (block : object) : string :=
  let title := stringValue (map_get block "title") in
  let source := stringValue (map_get block "source") in
  "Search result" +:+ (if bool_decide (title = "") then "" else " " +:+ quote +:+ title +:+ quote)
  +:+ (if bool_decide (source = "") then "" else " (" +:+ source +:+ ")") +:+ ":" +:+ newline
  +:+ contentText (map_get block "content").

Section blocks.
(** [strings.ToLower] of text that is not all ASCII. *)
Context (unicode_lower : string -> string).

Definition parseAnthropicMediaBlock (block : object) : result (option MediaPart) :=
  let kind := stringValue (map_get block "type") in
  if negb (bool_decide (kind = "image")) && negb (bool_decide (kind = "document")) then Ok None
  else
    match as_map (map_get block "source") with
    | None => Fail (unprocessable ("Cursor Agent v1 " +:+ kind +:+ " block has no source"))
    | Some source =>
        let type := stringValue (map_get source "type") in
        if bool_decide (type = "base64") then
          let data := TrimSpace (stringValue (map_get source "data")) in
          let mime := lower unicode_lower (stringValue (map_get source "media_type")) in
          if bool_decide (data = "") || bool_decide (mime = "")
          then Fail (unprocessable ("Cursor Agent v1 " +:+ kind +:+ " block needs base64 data and media_type"))
          else if bool_decide (kind = "image") && negb (HasPrefix mime "image/")
          then Fail (unprocessable "Cursor Agent v1 image block media_type must be image/*")
          else if maxMediaPartBytes <? b64_decoded_len (len data)
          then Fail (unprocessable ("Cursor Agent v1 media attachment exceeds " +:+ Itoa (Z.shiftr maxMediaPartBytes 20) +:+ " MiB"))
          else match b64_decode data with
               | None => Fail (unprocessable ("Cursor Agent v1 " +:+ kind +:+ " block base64 is invalid"))
               | Some _ =>
                   Ok (Some {| mp_Kind := kind; mp_MimeType := mime; mp_Data := data;
                               mp_Filename := if bool_decide (kind = "document") then stringValue (map_get block "title") else "" |})
               end
        else if bool_decide (type = "url")
        then Fail (unprocessable ("Cursor Agent v1 " +:+ kind +:+ " url sources are not supported; send base64"))
        else if bool_decide (type = "file")
        then Fail (unprocessable ("Cursor Agent v1 " +:+ kind +:+ " file_id sources belong to the Anthropic Files API and cannot be replayed here"))
        else if bool_decide (type = "text") || bool_decide (type = "content") then Ok None
        else Fail (unprocessable ("Cursor Agent v1 " +:+ kind +:+ " source type is unsupported"))
    end.

(** [None]: the block is of no kind known here. *)
Definition parseAnthropicContentBlock (block : object) : result (option (list ContentPart)) :=
  let type := stringValue (map_get block "type") in
  if bool_decide (type = "text") then
    match as_string (map_get block "text") with
    | None => Fail (unprocessable "Cursor Agent v1 text block has no text")
    | Some text => Ok (Some [text_part text])
    end
  else if bool_decide (type = "image") then
    rbind (parseAnthropicMediaBlock block) (fun media => Ok (Some [media_part media]))
  else if bool_decide (type = "document") then
    rbind (parseAnthropicMediaBlock block) (fun media =>
      let context := stringValue (map_get block "context") in
      match media with
      | Some _ =>
          Ok (Some (media_part media ::
            if bool_decide (context = "") then [] else [text_part ("Document context: " +:+ context)]))
      | None =>
          let text := documentSourceText (as_map (map_get block "source")) in
          let title := stringValue (map_get block "title") in
          let text := if bool_decide (title = "") then text
                      else "Document " +:+ quote +:+ title +:+ quote +:+ ":" +:+ newline +:+ text in
          let text := if bool_decide (context = "") then text else context +:+ newline +:+ text in
          Ok (Some [text_part text])
      end)
  else if bool_decide (type = "search_result") then Ok (Some [text_part (searchResultText block)])
  else Ok None.

End blocks.

Definition splitContentParts (parts : list ContentPart) : string * list MediaPart :=
  (Join (omap (fun p => match cp_Media p with
                        | Some _ => None
                        | None => if bool_decide (cp_Text p = "") then None else Some (cp_Text p) end) parts) newline,
   omap cp_Media parts).

(** ** Parts of a structured history *)
Definition historyMediaPart (media : MediaPart) : object :=
  if bool_decide (mp_Kind media = mediaKindImage)
  then [("type", AnyString "image"); ("image", AnyString (mp_Data media)); ("mimeType", AnyString (mp_MimeType media))]
  else [("type", AnyString "file"); ("data", AnyString (mp_Data media)); ("mimeType", AnyString (mp_MimeType media))]
       ++ (if bool_decide (mp_Filename media = "") then [] else [("filename", AnyString (mp_Filename media))]).

Definition history_text_part (text : string) : any := AnyMap [("type", AnyString "text"); ("text", AnyString text)].
Definition historyContentParts (parts : list ContentPart) : list any :=
  (fun p => match cp_Media p with Some m => AnyMap (historyMediaPart m) | None => history_text_part (cp_Text p) end) <$> parts.

Definition mediaPartFromHistory (part : object) : option MediaPart :=
  let type := TrimSpace (stringValue (map_get part "type")) in
  let str key := default "" (as_string (map_get part key)) in
  if bool_decide (type = "image") then
    let data := str "image" in
    let mime := str "mimeType" in
    if bool_decide (data = "") then None
    else Some {| mp_Kind := mediaKindImage; mp_MimeType := if bool_decide (mime = "") then "image/png" else mime;
                 mp_Data := data; mp_Filename := "" |}
  else if bool_decide (type = "file") then
    let data := str "data" in
    let mime := str "mimeType" in
    if bool_decide (data = "") || bool_decide (mime = "") then None
    else Some {| mp_Kind := mediaKindDocument; mp_MimeType := mime; mp_Data := data; mp_Filename := str "filename" |}
  else None.

(** ** Lemmas *)

Lemma b64_groups_length l out : b64_groups l = Some out -> (length out <= length l / 4 * 3)%nat.
Proof.
  revert out. induction l as [l IH] using (induction_ltof1 _ (@length byte)); unfold ltof in IH. intros out.
  destruct l as [|a [|b [|c [|d l]]]]; cbn [b64_groups]; try done; [intros [= <-]; cbn; lia|].
  assert (length (a :: b :: c :: d :: l) / 4 = S (length l / 4))%nat as ->.
  { change (length (a :: b :: c :: d :: l)) with (1 * 4 + length l)%nat. by rewrite Nat.div_add_l by lia. }
  destruct (b64_value a), (b64_value b); cbn [mbind option_bind]; try done.
  destruct (bool_decide (l = []) && is_pad d).
  - destruct (is_pad c); [intros [= <-]; cbn; lia|]. destruct (b64_value c); cbn [mbind option_bind]; [|done]. intros [= <-]. cbn. lia.
  - destruct (b64_value c), (b64_value d); cbn [mbind option_bind]; try done.
    destruct (b64_groups l) as [rest|] eqn:E; [|done]. intros [= <-]. specialize (IH l ltac:(cbn; lia) _ E). unfold b64_group. cbn [app length]. lia.
Qed.
Lemma filter_length_le {A} (f : A -> bool) l : (length (List.filter f l) <= length l)%nat.
Proof. induction l as [|x l IH]; cbn; [lia|]. destruct (f x); cbn; lia. Qed.
Lemma b64_decode_length s out : b64_decode s = Some out -> blen out <= b64_decoded_len (len s).
Proof.
  unfold b64_decode, blen, b64_decoded_len, len. intros E%b64_groups_length.
  pose proof (filter_length_le (fun b => negb (Byte.eqb b x0a || Byte.eqb b x0d)) (to_bytes s)) as Hf.
  assert (length (to_bytes s) = String.length s) as Hs.
  { clear. induction s as [|c s IH]; [done|]. unfold to_bytes in *. cbn. by f_equal. }
  set (n := length (List.filter _ _)) in *. rewrite Hs in Hf.
  change 4 with (Z.of_nat 4). rewrite <-Nat2Z.inj_div. pose proof (Nat.Div0.div_le_mono _ _ 4 Hf). lia.
Qed.

Lemma history_media_roundtrip m :
  mp_Data m <> "" -> mp_MimeType m <> "" ->
  mp_Kind m = mediaKindImage /\ mp_Filename m = "" \/ mp_Kind m = mediaKindDocument ->
  mediaPartFromHistory (historyMediaPart m) = Some m.
Proof.
  destruct m as [kind mime data name]. cbn [mp_Data mp_MimeType mp_Kind mp_Filename]. intros Hd Hm Hk.
  destruct data as [|c data]; [done|]. destruct mime as [|c' mime]; [done|]. clear Hd Hm.
  destruct Hk as [[E1 E2]|E1]; rewrite E1; [rewrite E2; by vm_compute|]. destruct name; by vm_compute.
Qed.

Section accepted.
Context (unicode_lower : string -> string).

(** What an accepted attachment satisfies. *)
Record media_ok (m : MediaPart) : Prop := {
  mok_kind : mp_Kind m = mediaKindImage /\ mp_Filename m = "" \/ mp_Kind m = mediaKindDocument;
  mok_mime : mp_MimeType m <> "" /\ (mp_Kind m = mediaKindImage -> HasPrefix (mp_MimeType m) "image/" = true);
  mok_raw : exists raw, rawBytes m = Some raw /\ blen raw <= maxMediaPartBytes;
  mok_data : mp_Data m <> "" }.

Lemma media_block_ok block m : parseAnthropicMediaBlock unicode_lower block = Ok (Some m) -> media_ok m.
Proof.
  unfold parseAnthropicMediaBlock. destruct (negb _ && negb _) eqn:G; [done|].
  destruct (as_map _) as [source|]; [|done]. cbv zeta. destruct (bool_decide (stringValue (map_get source "type") = "base64")) eqn:Gt; [|repeat case_match; done].
  set (data := TrimSpace _). set (mime := lower _ _). destruct (_ || _) eqn:G1; [done|]. bool_hyps.
  destruct (bool_decide (stringValue _ = "image") && negb (HasPrefix mime _)) eqn:G2; [done|]. destruct (maxMediaPartBytes <? _) eqn:G3; [done|]. bool_hyps.
  destruct (b64_decode data) as [raw|] eqn:E; [|done]. intros [= <-].
  split; cbn.
  - apply andb_false_iff in G as [G|G]; bool_hyps.
    + left. split; [done|]. by rewrite G.
    + by right.
  - split; [done|]. intros Hk. apply andb_false_iff in G2 as [G2|G2]; bool_hyps; [|done]. by rewrite Hk in G2.
  - exists raw. split; [done|]. apply b64_decode_length in E. lia.
  - done.
Qed.

(** Attachments are checked and survive history: an accepted image or document
    block decodes, is at most 16 MiB, has a media type (of an image for an image),
    and writing it into a structured history and reading it back gives the same
    attachment. *)
Theorem media_block_roundtrip (block : object) (m : MediaPart) :
  parseAnthropicMediaBlock unicode_lower block = Ok (Some m) ->
  media_ok m /\ mediaPartFromHistory (historyMediaPart m) = Some m.
Proof. intros Hm%media_block_ok. split; [done|]. destruct Hm. apply history_media_roundtrip; tauto. Qed.
End accepted.

Definition sample_image : object :=
  [("type", AnyString "image");
   ("source", AnyMap [("type", AnyString "base64"); ("media_type", AnyString "image/PNG"); ("data", AnyString " aGk= ")])].
Definition sample_media : MediaPart :=
  {| mp_Kind := "image"; mp_MimeType := "image/png"; mp_Data := "aGk="; mp_Filename := "" |}.
Example sample_image_bytes : rawBytes sample_media = Some (to_bytes "hi").
Proof. by vm_compute. Qed.
Lemma media_block_roundtrip_witness : mediaPartFromHistory (historyMediaPart sample_media) = Some sample_media.
Proof. apply (media_block_roundtrip id sample_image sample_media). vm_compute. reflexivity. Defined.
