(* ===== verification/HostedSearch.v ===== *)
(** * Hosted search results as the projections publish them (src/cursoragentv1/project_claude.go)

    Tool ids, names, inputs, results, citations and Responses actions of a hosted
    search, which source URLs may be published, and the link lists unpacked from a
    wrapper reference.  [url.Parse] and [net.ParseIP] are an interface. *)
From stdpp Require Import base tactics list gmap strings sorting.
From Stdlib Require Import Strings.Byte.
From S2P Require Import Prelude GoStrings JsonValue Connect Data HostedPolicy Media.
Open Scope Z_scope.

(** [url.Parse] as scheme, host name and port; whether [net.ParseIP] accepts. *)
Class NetURL := { url_Parse : string -> option (string * string * string); net_ParseIP : string -> bool }.

(** [strings.Split(s, sep)] for a one-byte separator, [strings.TrimRight(s, "\r")]. *)
Fixpoint split_bytes (sep : byte) (l : bytes) : list bytes :=
  match l with
  | [] => [[]]
  | b :: l => if Byte.eqb b sep then [] :: split_bytes sep l
              else match split_bytes sep l with h :: t => (b :: h) :: t | [] => [[b]] end
  end.
Definition Split (s : string) (sep : byte) : list string := of_bytes <$> split_bytes sep (to_bytes s).
Definition trim_cr (l : bytes) : bytes := reverse (trim_left [[x0d%byte]] (reverse l)).

(** [utf8.Valid] and [base64.RawURLEncoding.EncodeToString]. *)
Definition in_range (lo hi : Z) (b : byte) : bool := (lo <=? byteZ b) && (byteZ b <=? hi).
Definition cont : byte -> bool := in_range 128 191.
Fixpoint utf8_valid (l : bytes) : bool :=
  match l with
  | [] => true
  | a :: l =>
      if in_range 0 127 a then utf8_valid l
      else match l with
      | [] => false
      | b :: l =>
          if in_range 194 223 a then cont b && utf8_valid l
          else match l with
          | [] => false
          | c :: l =>
              if in_range 224 239 a then
                (if in_range 224 224 a then in_range 160 191 b else if in_range 237 237 a then in_range 128 159 b else cont b)
                && cont c && utf8_valid l
              else match l with
              | [] => false
              | d :: l =>
                  in_range 240 244 a
                  && (if in_range 240 240 a then in_range 144 191 b else if in_range 244 244 a then in_range 128 143 b else cont b)
                  && cont c && cont d && utf8_valid l
              end
          end
      end
  end.
Definition b64url_alphabet : bytes := to_bytes "ABCDEFGHIJKLMNOPQRSTUVWXYZabcdefghijklmnopqrstuvwxyz0123456789-_".
Definition b64url_char (z : Z) : byte := nth (Z.to_nat (z mod 64)) b64url_alphabet x41.
Fixpoint raw_url_base64_bytes (l : bytes) : bytes :=
  match l with
  | a :: b :: c :: l =>
      let w := byteZ a * 65536 + byteZ b * 256 + byteZ c in
      (b64url_char <$> [w / 262144; w / 4096; w / 64; w]) ++ raw_url_base64_bytes l
  | [a; b] => let w := byteZ a * 65536 + byteZ b * 256 in b64url_char <$> [w / 262144; w / 4096; w / 64]
  | [a] => let w := byteZ a * 65536 in b64url_char <$> [w / 262144; w / 4096]
  | [] => []
  end.
Definition raw_url_base64 (l : bytes) : string := of_bytes (raw_url_base64_bytes l).

(** ** Names and inputs *)
Definition is_fetch_kind (kind : string) : bool :=
  bool_decide (kind = HostedSearchKindWebFetch) || bool_decide (kind = HostedSearchKindExaFetch).
Definition hostedSearchToolID (search : HostedSearch) : string :=
  let id := TrimSpace (hs_CallID search) in
  let id := if bool_decide (id = "") then "search" else id in
  if HasPrefix id "srvtoolu_" || HasPrefix id "ws_" then id else "srvtoolu_" +:+ id.
Definition hostedSearchToolName (kind : string) : string := if is_fetch_kind kind then "web_fetch" else "web_search".
Definition fetch_url (search : HostedSearch) : string :=
  if bool_decide (hs_URL search = "") then hs_Query search else hs_URL search.
Definition hostedSearchInput (search : HostedSearch) : object :=
  if is_fetch_kind (hs_Kind search) then [("url", AnyString (fetch_url search))]
  else [("query", AnyString (hs_Query search))].

(** ** Publishable sources *)
Definition validSourceHostname `{NetURL} (host : string) : bool :=
  let host := TrimSpace host in
  if bool_decide (host = "") || bool_decide (host = ".")
     || existsb (fun b => Byte.eqb b x20 || Byte.eqb b x09 || Byte.eqb b x0d || Byte.eqb b x0a) (to_bytes host) then false
  else if net_ParseIP host then true
  else
    let name := TrimSuffix host "." in
    if bool_decide (name = "") then false else negb (bool_decide ("" ∈ Split name x2e)).
Definition usableHTTPSourceURL `{NetURL} (raw : string) : bool :=
  let trimmed := TrimSpace raw in
  if bool_decide (trimmed = "") then false
  else match url_Parse trimmed with
       | None => false
       | Some (scheme, hostname, port) =>
           let scheme := ToLower scheme in
           if negb (bool_decide (scheme = "http")) && negb (bool_decide (scheme = "https")) then false
           else if negb (validSourceHostname hostname) then false
           else if negb (bool_decide (port = "")) then
             match parse_int64 port with
             | Some port => negb ((port <? 0) || (65535 <? port))
             | None => false
             end
           else true
       end.
Definition usableHostedSearchReferences `{NetURL} (search : HostedSearch) : list HostedSearchReference :=
  List.filter (fun ref => usableHTTPSourceURL (hr_URL ref)) (hs_References search).

(** ** Results *)
Definition search_error (type error : string) : any :=
  AnyMap [("type", AnyString type); ("error_code", AnyString "unavailable"); ("error_message", AnyString error)].
Definition search_result_item (ref : HostedSearchReference) : any :=
  AnyMap [("type", AnyString "web_search_result"); ("title", AnyString (hr_Title ref)); ("url", AnyString (hr_URL ref)); ("page_age", AnyNil)].
Definition hostedSearchResult `{NetURL} (search : HostedSearch) : string * any :=
  if is_fetch_kind (hs_Kind search) then
    ("web_fetch_tool_result",
     if negb (bool_decide (hs_Error search = "")) then search_error "web_fetch_tool_result_error" (hs_Error search)
     else AnyMap [("type", AnyString "web_fetch_result"); ("url", AnyString (fetch_url search));
                  ("content", AnyMap [("type", AnyString "document");
                     ("source", AnyMap [("type", AnyString "text"); ("media_type", AnyString "text/plain"); ("data", AnyString (hs_Content search))])])])
  else
    ("web_search_tool_result",
     if negb (bool_decide (hs_Error search = "")) then search_error "web_search_tool_result_error" (hs_Error search)
     else
       let usable := usableHostedSearchReferences search in
       if negb (bool_decide (hs_References search = [])) && bool_decide (usable = []) then
         AnyMap [("type", AnyString "web_search_tool_result_error"); ("error_code", AnyString "unavailable")]
       else AnyList (search_result_item <$> usable)).
Definition citation_of (ref : HostedSearchReference) : any :=
  AnyMap [("type", AnyString "web_search_result_location"); ("url", AnyString (hr_URL ref)); ("title", AnyString (hr_Title ref)); ("cited_text", AnyString (hr_Chunk ref))].
Definition hostedSearchCitations `{NetURL} (search : HostedSearch) : list any := citation_of <$> usableHostedSearchReferences search.

Definition hostedSearchActionSources `{NetURL} (search : HostedSearch) : list any :=
  (fun ref => AnyMap [("type", AnyString "url"); ("url", AnyString (hr_URL ref))]) <$> usableHostedSearchReferences search.
Definition hostedSearchResponsesAction `{NetURL} (search : HostedSearch) : object :=
  if is_fetch_kind (hs_Kind search) then [("type", AnyString "open_page"); ("url", AnyString (fetch_url search))]
  else
    let action := [("type", AnyString "search"); ("query", AnyString (hs_Query search))] in
    let sources := hostedSearchActionSources search in
    if bool_decide (sources = []) then action else action ++ [("sources", AnyList sources)].

(** ** Link lists *)
(** [^(\d+)\.\s+\[([^\]]+)\]\(([^)]+)\)\s*$]: every repetition is followed by a
    byte its class excludes, so the greedy match is the only one. *)
Fixpoint span (p : byte -> bool) (l : bytes) : bytes * bytes :=
  match l with
  | b :: l' => if p b then let '(h, t) := span p l' in (b :: h, t) else ([], l)
  | [] => ([], [])
  end.
Definition is_digit (b : byte) : bool := (48 <=? byteZ b) && (byteZ b <=? 57).
Definition regexp_space (b : byte) : bool := bool_decide (byteZ b ∈ [9; 10; 12; 13; 32]).
Definition expect (b : byte) (l : bytes) : option bytes :=
  match l with c :: l => if Byte.eqb b c then Some l else None | [] => None end.
(** A non-empty run. *)
Definition span1 (p : byte -> bool) (l : bytes) : option (bytes * bytes) :=
  let '(h, t) := span p l in if bool_decide (h = []) then None else Some (h, t).
Definition hostedSearchMarkdownLink (line : bytes) : option (bytes * bytes * bytes) :=
  '(number, l) ← span1 is_digit line; l ← expect x2e l; '(_, l) ← span1 regexp_space l; l ← expect x5b l;
  '(title, l) ← span1 (fun b => negb (Byte.eqb b x5d)) l; l ← expect x5d l; l ← expect x28 l;
  '(href, l) ← span1 (fun b => negb (Byte.eqb b x29)) l; l ← expect x29 l;
  if forallb regexp_space l then Some (number, title, href) else None.

Section links.
Context `{NetURL}.
Definition link_ref (title href : bytes) : HostedSearchReference :=
  {| hr_Title := TrimSpace (of_bytes title); hr_URL := TrimSpace (of_bytes href); hr_Chunk := "" |}.
(** The references and the next number expected. *)
Fixpoint link_loop (lines : list bytes) (expected : Z) : list HostedSearchReference * Z :=
  match lines with
  | [] => ([], expected)
  | raw :: lines =>
      let line := trim_cr raw in
      if bool_decide (TrimSpace (of_bytes line) = "") then ([], expected)
      else match hostedSearchMarkdownLink line with
           | None => ([], expected)
           | Some (number, title, href) =>
               match parse_int64 (of_bytes number) with
               | Some n =>
                   if n =? expected then
                     let '(refs, next) := link_loop lines (expected + 1) in
                     (if usableHTTPSourceURL (TrimSpace (of_bytes href)) then link_ref title href :: refs else refs, next)
                   else ([], expected)
               | None => ([], expected)
               end
           end
  end.
Definition parseLeadingHostedSearchLinks (chunk : string) : list HostedSearchReference :=
  let text := trim_left [[xef; xbb; xbf]; [x20]; [x09]]%byte (to_bytes chunk) in
  match strip_prefix (to_bytes "Links:") text with
  | None => []
  | Some rest =>
      let rest := trim_left [[x20]; [x09]]%byte rest in
      let rest := match strip_prefix [x0d; x0a]%byte rest with Some rest => Some rest | None => strip_prefix [x0a]%byte rest end in
      match rest with
      | None => []
      | Some rest => let '(refs, expected) := link_loop (split_bytes x0a rest) 1 in if expected =? 1 then [] else refs
      end
  end.
Definition hostedSearchWrapperTitle : string := "Web search results".
Definition expand_ref (ref : HostedSearchReference) : list HostedSearchReference :=
  if negb (bool_decide (TrimSpace (hr_URL ref) = "")) || negb (bool_decide (TrimSpace (hr_Title ref) = hostedSearchWrapperTitle)) then [ref]
  else
    let extracted := parseLeadingHostedSearchLinks (hr_Chunk ref) in
    if bool_decide (extracted = []) then [ref] else extracted.
Definition expandHostedSearchLinkList (refs : list HostedSearchReference) : list HostedSearchReference := refs ≫= expand_ref.
End links.
