(* ===== verification/Wire.v ===== *)
(** * Agent v1 messages on the wire (src/cursoragentv1/wire.go)

    The encoders of everything the client sends and the two generic field readers.
    The protobuf wire primitives ([protowire]) are an interface with the laws the
    code relies on; the encoders are written with them the way the code writes
    them. *)
From stdpp Require Import base tactics list gmap strings sorting.
From Stdlib Require Import Strings.Byte.
From S2P Require Import Prelude GoStrings Sha256 JsonValue Connect Data HostedPolicy Media.
Open Scope Z_scope.

(** ** [protowire] *)
Abbreviation Number := Z.
Definition VarintType : Z := 0.
Definition BytesType : Z := 2.

(** [AppendX(dst, ..)] is [dst ++ pw_X ..]; a negative count is [inl]. *)
Class Protowire := {
  pw_tag : Number -> Z -> bytes;
  pw_varint : Z -> bytes;
  pw_bytes : bytes -> bytes;
  pw_ConsumeTag : bytes -> Z + (Number * Z * nat);
  pw_ConsumeVarint : bytes -> Z + (Z * nat);
  pw_ConsumeBytes : bytes -> Z + (bytes * nat);
  pw_ConsumeFieldValue : Number -> Z -> bytes -> Z + nat;
  pw_ParseError : Z -> string }.

(** The documented behaviour: reading back what was appended, and never reading
    past the end. *)
Class ProtowireLaws `{Protowire} : Prop := {
  pw_tag_read n t r : 1 <= n < 2 ^ 29 -> t = VarintType \/ t = BytesType ->
    pw_ConsumeTag (pw_tag n t ++ r) = inr (n, t, length (pw_tag n t));
  pw_varint_read v r : 0 <= v < 2 ^ 64 -> pw_ConsumeVarint (pw_varint v ++ r) = inr (v, length (pw_varint v));
  pw_bytes_read b r : pw_ConsumeBytes (pw_bytes b ++ r) = inr (b, length (pw_bytes b));
  pw_field_varint n v r : 0 <= v < 2 ^ 64 -> pw_ConsumeFieldValue n VarintType (pw_varint v ++ r) = inr (length (pw_varint v));
  pw_field_bytes n b r : pw_ConsumeFieldValue n BytesType (pw_bytes b ++ r) = inr (length (pw_bytes b));
  pw_tag_consumed d n t c : pw_ConsumeTag d = inr (n, t, c) -> (0 < c <= length d)%nat }.

Definition agentClientRunRequest : Number := 1.
Definition agentClientExecMessage : Number := 2.
Definition agentClientKVMessage : Number := 3.
Definition agentClientInteractionResponse : Number := 6.
Definition agentClientHeartbeat : Number := 7.
Definition agentServerInteractionUpdate : Number := 1.
Definition agentServerExecMessage : Number := 2.
Definition agentServerCheckpoint : Number := 3.
Definition agentServerKVMessage : Number := 4.
Definition agentServerInteractionQuery : Number := 7.

Inductive wireMessageType : Type :=
  | wireUnknown | wireTextDelta | wireThinkingDelta | wireTokenDelta | wireTurnEnded | wireCheckpoint
  | wireKVGet | wireKVSet | wireRequestContext | wireMCP | wireShell | wireShellStream | wireBackgroundShell
  | wireRead | wireWrite | wireDelete | wireGrep | wireList | wireFetch | wireDiagnostics
  | wireInteractionQuery | wireUnsupportedExec | wireIgnored | wireStreamMCP | wireToolCallStarted
  | wireToolCallDelta | wireToolCallCompleted | wireThinkingCompleted | wireAllowlistPrecheck | wireExecAbort.
#[export] Instance wireMessageType_eq_dec : EqDecision wireMessageType.
Proof. solve_decision. Defined.

Record decodedWireMessage := {
  wm_Type : wireMessageType; wm_Text : string; wm_TokenDelta : Z; wm_Usage : option UsageObservation;
  wm_Checkpoint : bytes; wm_ID : Z; wm_ExecID : string; wm_BlobID : bytes; wm_BlobData : bytes;
  wm_InteractionKind : Number; wm_ToolCallID : string; wm_ToolName : string; wm_ToolArguments : string;
  wm_CallID : string; wm_AllowlistKind : string; wm_HostedSearch : option HostedSearch }.

Record runWireRequest := {
  rw_Model : string; rw_ConversationID : string; rw_UserText : string; rw_UserMedia : list MediaPart;
  rw_SystemText : string; rw_Tools : list ToolDefinition; rw_HistoryMessages : list bytes;
  rw_BlobStore : gmap string bytes; rw_Checkpoint : bytes; rw_Resume : bool }.

Record requestContextPolicy := {
  cx_AllowHostedSearch : bool; cx_AllowHostedFetch : bool; cx_RequireToolCall : bool;
  cx_RequireHostedSearch : bool; cx_RequireHostedFetch : bool; cx_RequireHostedTool : bool }.

Definition wireReplyRequired (messageType : wireMessageType) : bool :=
  match messageType with
  | wireKVGet | wireKVSet | wireRequestContext | wireMCP | wireShell | wireShellStream | wireBackgroundShell
  | wireRead | wireWrite | wireDelete | wireGrep | wireList | wireFetch | wireDiagnostics | wireInteractionQuery
  | wireUnsupportedExec | wireAllowlistPrecheck | wireExecAbort => true
  | _ => false
  end.

(** The code's own hexadecimal encoder. *)
Definition hex_digits : string := "0123456789abcdef".
Definition hex_char (n : nat) : string := String.substring n 1 hex_digits.
Fixpoint hexKey (value : bytes) : string :=
  match value with
  | [] => ""
  | b :: value => hex_char (N.to_nat (Byte.to_N b / 16)) +:+ hex_char (N.to_nat (Byte.to_N b mod 16)) +:+ hexKey value
  end.

Section wire.
Context `{Protowire}.

(** ** Fields *)
Definition appendBytesField (dst : bytes) (number : Number) (value : bytes) : bytes :=
  dst ++ pw_tag number BytesType ++ pw_bytes value.
Definition appendStringField (dst : bytes) (number : Number) (value : string) : bytes :=
  if bool_decide (value = "") then dst else appendBytesField dst number (to_bytes value).
Definition appendVarintField (dst : bytes) (number : Number) (value : Z) : bytes :=
  dst ++ pw_tag number VarintType ++ pw_varint value.

(** The first bytes field (or varint) with the number asked for; nil (or 0) on
    malformed data.  The loops consume at least one byte a turn. *)
Fixpoint decode_bytes_loop (fuel : nat) (data : bytes) (target : Number) : bytes :=
  match fuel with
  | O => []
  | S fuel =>
      if bool_decide (data = []) then []
      else match pw_ConsumeTag data with
           | inl _ => []
           | inr (number, wireType, consumed) =>
               let data := drop consumed data in
               if wireType =? BytesType then
                 match pw_ConsumeBytes data with
                 | inl _ => []
                 | inr (value, n) => if number =? target then value else decode_bytes_loop fuel (drop n data) target
                 end
               else match pw_ConsumeFieldValue number wireType data with
                    | inl _ => []
                    | inr n => decode_bytes_loop fuel (drop n data) target
                    end
           end
  end.
Definition decodeBytes (data : bytes) (target : Number) : bytes := decode_bytes_loop (S (length data)) data target.
Definition decodeString (data : bytes) (target : Number) : string := of_bytes (decodeBytes data target).
Fixpoint decode_varint_loop (fuel : nat) (data : bytes) (target : Number) : Z :=
  match fuel with
  | O => 0
  | S fuel =>
      if bool_decide (data = []) then 0
      else match pw_ConsumeTag data with
           | inl _ => 0
           | inr (number, wireType, consumed) =>
               let data := drop consumed data in
               if wireType =? VarintType then
                 match pw_ConsumeVarint data with
                 | inl _ => 0
                 | inr (value, n) => if number =? target then value else decode_varint_loop fuel (drop n data) target
                 end
               else match pw_ConsumeFieldValue number wireType data with
                    | inl _ => 0
                    | inr n => decode_varint_loop fuel (drop n data) target
                    end
           end
  end.
Definition decodeVarint (data : bytes) (target : Number) : Z := decode_varint_loop (S (length data)) data target.

(** ** Replies *)
Definition encodeHeartbeat : bytes := appendBytesField [] agentClientHeartbeat [].

(** [id], the result, [execID]: what every exec reply carries. *)
Definition exec_reply (id : Z) (execID : string) (resultField : Number) (result : bytes) : bytes :=
  let execMessage := appendVarintField [] 1 id in
  let execMessage := appendBytesField execMessage resultField result in
  let execMessage := appendStringField execMessage 15 execID in
  appendBytesField [] agentClientExecMessage execMessage.

Definition encodeKVGetResult (id : Z) (blob : option bytes) : bytes :=
  let result := match blob with Some blob => appendBytesField [] 1 blob | None => [] end in
  let message := appendVarintField [] 1 id in
  let message := appendBytesField message 2 result in
  appendBytesField [] agentClientKVMessage message.
Definition encodeKVSetResult (id : Z) : bytes :=
  let message := appendVarintField [] 1 id in
  let message := appendBytesField message 3 [] in
  appendBytesField [] agentClientKVMessage message.

Definition encodeMCPTool (tool : ToolDefinition) : bytes :=
  let definition := appendStringField [] 1 (td_Name tool) in
  let definition := appendStringField definition 2 (td_Description tool) in
  let definition := appendStringField definition 4 "beefapi" in
  let definition := appendStringField definition 5 (td_Name tool) in
  appendStringField definition 6 (of_bytes (td_InputSchema tool)).
Definition encodeMCPTools (tools : list ToolDefinition) : bytes :=
  fold_left (fun payload tool => appendBytesField payload 1 (encodeMCPTool tool)) tools [].

Definition encodeCallerRule (path content : string) : bytes :=
  let rule := appendStringField [] 1 path in
  let rule := appendStringField rule 2 content in
  let rule := appendBytesField rule 3 (appendBytesField [] 1 []) in
  appendVarintField rule 4 2.

Definition toolChoiceRule (names : list string) : string :=
  "Tool choice for this turn: invoke at least one of the provided MCP tools (" +:+ Join names ", "
  +:+ "). Invoke the actual tool with its declared arguments; a plain-text or JSON answer is not a substitute. Once the tool has been invoked, continue using its result normally.".
Definition hostedSearchRule : string := "This turn requires an actual native web search. A plain-text or JSON answer is not a substitute. Once search results are available, continue using them normally. Upstream has no native hard tool_choice; this is guidance only.".
Definition hostedFetchRule : string := "This turn requires an actual native web fetch. A plain-text or JSON answer is not a substitute. Once the fetch result is available, continue using it normally. Upstream has no native hard tool_choice; this is guidance only.".
Definition hostedWebRule : string := "This turn requires an actual native web search or web fetch. A plain-text or JSON answer is not a substitute. Once results are available, continue using them normally. Upstream has no native hard tool_choice; this is guidance only.".

Definition encodeRequestContextResult (id : Z) (execID systemText : string) (tools : list ToolDefinition)
    (policy : requestContextPolicy) : bytes :=
  let c := appendBytesField [] 4 (appendStringField [] 1 "linux") in
  let c := fold_left (fun c tool => appendBytesField c 7 (encodeMCPTool tool)) tools c in
  let c := if bool_decide (systemText = "") then c else appendStringField c 16 systemText in
  let c := if cx_RequireToolCall policy && negb (bool_decide (tools = []))
           then appendBytesField c 2 (encodeCallerRule "/caller/tool-choice.mdc" (toolChoiceRule (td_Name <$> tools))) else c in
  let c := if cx_RequireHostedSearch policy
           then appendBytesField c 2 (encodeCallerRule "/caller/hosted-search.mdc" hostedSearchRule) else c in
  let c := if cx_RequireHostedFetch policy
           then appendBytesField c 2 (encodeCallerRule "/caller/hosted-fetch.mdc" hostedFetchRule) else c in
  let c := if cx_RequireHostedTool policy && negb (cx_RequireHostedSearch policy) && negb (cx_RequireHostedFetch policy)
           then appendBytesField c 2 (encodeCallerRule "/caller/hosted-web.mdc" hostedWebRule) else c in
  let c := if cx_AllowHostedSearch policy then appendVarintField c 17 1 else c in
  let c := if cx_AllowHostedFetch policy then appendVarintField c 24 1 else c in
  exec_reply id execID 10 (appendBytesField [] 1 (appendBytesField [] 1 c)).

Definition encodeExecRejected (id : Z) (execID : string) (resultField rejectedField rejectedReasonField : Number)
    (reason : string) : bytes :=
  exec_reply id execID resultField (appendBytesField [] rejectedField (appendStringField [] rejectedReasonField reason)).
Definition encodeExecError (id : Z) (execID : string) (resultField : Number) (message : string) : bytes :=
  exec_reply id execID resultField (appendBytesField [] 2 (appendStringField [] 1 message)).
Definition encodeFetchError (id : Z) (execID message : string) : bytes :=
  exec_reply id execID 20 (appendBytesField [] 2 (appendStringField [] 2 message)).

Definition imageExtension (unicode_lower : string -> string) (mimeType : string) : string :=
  let mime := lower unicode_lower (TrimSpace mimeType) in
  if bool_decide (mime ∈ ["image/jpeg"; "image/jpg"]) then ".jpg"
  else if bool_decide (mime = "image/gif") then ".gif"
  else if bool_decide (mime = "image/webp") then ".webp" else ".png".

(** One item of a tool result; [None] when the media holds no data. *)
Definition mcp_media_item (media : MediaPart) : option bytes :=
  match rawBytes media with
  | None | Some [] => None
  | Some raw =>
      if bool_decide (mp_Kind media = mediaKindImage)
      then Some (appendBytesField [] 2 (appendStringField (appendBytesField [] 1 raw) 2 (mp_MimeType media)))
      else Some (appendBytesField [] 1 (appendStringField [] 1
             ("[attachment " +:+ mp_MimeType media +:+ " " +:+ quote +:+ mp_Filename media +:+ quote
              +:+ " omitted: Cursor Agent v1 tool results carry text and images only]")))
  end.
Definition encodeMCPResult (id : Z) (execID : string) (result : ToolResult) : bytes :=
  let success := if negb (bool_decide (tr_Content result = "")) || bool_decide (tr_Media result = [])
                 then appendBytesField [] 1 (appendBytesField [] 1 (appendStringField [] 1 (tr_Content result))) else [] in
  let success := fold_left (fun success media =>
      match mcp_media_item media with Some item => appendBytesField success 1 item | None => success end)
    (tr_Media result) success in
  let success := if tr_IsError result then appendVarintField success 2 1 else success in
  exec_reply id execID 11 (appendBytesField [] 1 success).

Definition errInteractionKind (kind : Number) : Err :=
  ErrMsg ("unsupported Cursor Agent v1 interaction query kind " +:+ Itoa kind).
Definition encodeInteractionDecision (id : Z) (kind : Number) (approve : bool) (reason : string) : result bytes :=
  if negb (bool_decide (kind ∈ [2; 4; 5; 6; 9])) then Fail (errInteractionKind kind)
  else
    let result := if approve then appendBytesField [] 1 [] else appendBytesField [] 2 (appendStringField [] 1 reason) in
    Ok (appendBytesField [] agentClientInteractionResponse (appendBytesField (appendVarintField [] 1 id) kind result)).
Definition encodeAskQuestionRejected (id : Z) (reason : string) : bytes :=
  let interactionResult := appendBytesField [] 1 (appendBytesField [] 3 (appendStringField [] 1 reason)) in
  appendBytesField [] agentClientInteractionResponse (appendBytesField (appendVarintField [] 1 id) 3 interactionResult).
Definition encodeCreatePlanError (id : Z) (message : string) : bytes :=
  let planResponse := appendBytesField [] 1 (appendBytesField [] 2 (appendStringField [] 1 message)) in
  appendBytesField [] agentClientInteractionResponse (appendBytesField (appendVarintField [] 1 id) 7 planResponse).

(** ** The run request *)
Definition errMarshal : Err := ErrMsg "json: unsupported value".

Section run.
Context `{JSON} (unicode_lower : string -> string) (image_size : bytes -> option (Z * Z)).

(** Media returned by a tool becomes a user message right after the tool's. *)
Definition lift_part (acc : list any * list any) (rawPart : any) : list any * list any :=
  let '(rewritten, lifted) := acc in
  match rawPart with
  | AnyMap part =>
      match map_get part "experimental_content" with
      | AnyList experimental =>
          (rewritten ++ [AnyMap (map_delete part "experimental_content")],
           fold_left (fun lifted rawContent =>
             match rawContent with
             | AnyMap content =>
                 match mediaPartFromHistory content with
                 | Some _ =>
                     (if bool_decide (lifted = []) then
                        [history_text_part ("Attachment returned by tool " +:+ stringValue (map_get part "toolName")
                          +:+ " (call " +:+ stringValue (map_get part "toolCallId") +:+ "):")] else lifted) ++ [rawContent]
                 | None => lifted
                 end
             | _ => lifted
             end) experimental lifted)
      | _ => (rewritten ++ [rawPart], lifted)
      end
  | _ => (rewritten ++ [rawPart], lifted)
  end.

Fixpoint agentV1LiftToolResultMedia (messages : list bytes) : result (list bytes) :=
  match messages with
  | [] => Ok []
  | raw :: messages =>
      let kept := rbind (agentV1LiftToolResultMedia messages) (fun out => Ok (raw :: out)) in
      match unmarshal_map raw with
      | None => kept
      | Some message =>
          if negb (bool_decide (stringValue (map_get message "role") = "tool")) then kept
          else
            let parts := default [] (as_list (map_get message "content")) in
            let '(rewritten, lifted) := fold_left lift_part parts ([], []) in
            match json_marshal (AnyMap (map_set message "content" (AnyList rewritten))) with
            | None => Fail errMarshal
            | Some encoded =>
                if bool_decide (lifted = []) then rbind (agentV1LiftToolResultMedia messages) (fun out => Ok (encoded :: out))
                else match json_marshal (AnyMap [("role", AnyString "user"); ("content", AnyList lifted)]) with
                     | None => Fail errMarshal
                     | Some liftedMessage =>
                         rbind (agentV1LiftToolResultMedia messages) (fun out => Ok (encoded :: liftedMessage :: out))
                     end
            end
      end
  end.

(** [SelectedImage] entries; documents are left to the text.  [ids] are the
    identifiers [uuid.NewString] returns, in order. *)
Fixpoint encodeSelectedContextMedia (ids : nat -> string) (media : list MediaPart) : bytes :=
  match media with
  | [] => []
  | part :: media =>
      match bool_decide (mp_Kind part = mediaKindImage), rawBytes part with
      | true, Some (b :: raw) =>
          let id := ids 0%nat in
          let image := appendStringField [] 2 id in
          let image := appendStringField image 3 ("pasted-" +:+ id +:+ imageExtension unicode_lower (mp_MimeType part)) in
          let '(width, height) := imageDimensions image_size part in
          let image := if (0 <? width) && (0 <? height)
                       then appendBytesField image 4 (appendVarintField (appendVarintField [] 1 width) 2 height) else image in
          let image := appendStringField image 7 (mp_MimeType part) in
          let image := appendBytesField image 8 (b :: raw) in
          appendBytesField [] 1 image ++ encodeSelectedContextMedia (fun n => ids (S n)) media
      | _, _ => encodeSelectedContextMedia ids media
      end
  end.

Definition errRunFields : Err := ErrMsg "cursor Agent v1 run requires model, conversation id, and a user or resume action".
Definition errHistoryJSON (index : nat) : Err :=
  ErrMsg ("cursor Agent v1 history message " +:+ Itoa (Z.of_nat index) +:+ " must be valid JSON").

(** The messages as blobs named by their digest, and the state that lists them. *)
Fixpoint history_blobs (index : nat) (history : list bytes) (store : gmap string bytes) (state : bytes)
    : result (gmap string bytes * bytes) :=
  match history with
  | [] => Ok (store, state)
  | message :: history =>
      if bool_decide (message = []) || negb (json_valid message) then Fail (errHistoryJSON index)
      else
        let rootID := sha256_sum message in
        history_blobs (S index) history (<[hex_encode rootID := message]> store) (appendBytesField state 1 rootID)
  end.

(** The payload and the blob store, which the code extends in place. *)
Definition encodeRunRequest (ids : nat -> string) (request : runWireRequest) : result (bytes * gmap string bytes) :=
  if bool_decide (rw_Model request = "") || bool_decide (rw_ConversationID request = "")
     || (negb (rw_Resume request) && bool_decide (rw_UserText request = ""))
  then Fail errRunFields
  else
    rbind (if bool_decide (rw_Checkpoint request = [])
           then rbind (agentV1LiftToolResultMedia (rw_HistoryMessages request)) (fun history =>
                  history_blobs 0 history (rw_BlobStore request) [])
           else Ok (rw_BlobStore request, rw_Checkpoint request)) (fun '(store, conversationState) =>
      let action :=
        if rw_Resume request then appendBytesField [] 2 []
        else
          let userMessage := appendStringField [] 1 (rw_UserText request) in
          let userMessage := appendStringField userMessage 2 (ids 0%nat) in
          let selected := encodeSelectedContextMedia (fun n => ids (S n)) (rw_UserMedia request) in
          let userMessage := if bool_decide (selected = []) then userMessage else appendBytesField userMessage 3 selected in
          appendBytesField [] 1 (appendBytesField [] 1 userMessage) in
      let model := rw_Model request in
      let modelDetails := appendStringField (appendStringField (appendStringField [] 1 model) 3 model) 4 model in
      let requestedModel := appendStringField [] 1 model in
      let agentRun := appendBytesField [] 1 conversationState in
      let agentRun := appendBytesField agentRun 2 action in
      let agentRun := appendBytesField agentRun 3 modelDetails in
      let agentRun := if bool_decide (rw_Tools request = []) then agentRun
                      else appendBytesField agentRun 4 (encodeMCPTools (rw_Tools request)) in
      let agentRun := appendStringField agentRun 5 (rw_ConversationID request) in
      let agentRun := appendBytesField agentRun 9 requestedModel in
      Ok (appendBytesField [] agentClientRunRequest agentRun, store)).
End run.
End wire.
