(* ===== verification/WireProps.v ===== *)
(** * What the wire encoders write can be read back

    Messages as lists of fields, the generic readers on them, and a concrete
    instance of the wire primitives. *)
From stdpp Require Import base tactics list gmap strings sorting.
From Stdlib Require Import Strings.Byte.
From S2P Require Import Prelude GoStrings Sha256 JsonValue Connect Data HostedPolicy Media Wire.
Open Scope Z_scope.

Section fields.
Context `{PL : ProtowireLaws}.

(** ** Messages as lists of fields *)
Inductive field : Type := FB (n : Number) (b : bytes) | FV (n : Number) (v : Z).
Definition encode_field (f : field) : bytes :=
  match f with FB n b => appendBytesField [] n b | FV n v => appendVarintField [] n v end.
Fixpoint encode_fields (l : list field) : bytes :=
  match l with [] => [] | f :: l => encode_field f ++ encode_fields l end.
Definition field_ok (f : field) : Prop :=
  match f with FB n _ => 1 <= n < 2 ^ 29 | FV n v => 1 <= n < 2 ^ 29 /\ 0 <= v < 2 ^ 64 end.
Fixpoint bytes_at (n : Number) (l : list field) : bytes :=
  match l with [] => [] | FB m b :: l => if m =? n then b else bytes_at n l | FV _ _ :: l => bytes_at n l end.
Fixpoint varint_at (n : Number) (l : list field) : Z :=
  match l with [] => 0 | FV m v :: l => if m =? n then v else varint_at n l | FB _ _ :: l => varint_at n l end.

Lemma tag_nonempty n t : 1 <= n < 2 ^ 29 -> t = VarintType \/ t = BytesType -> (0 < length (pw_tag n t))%nat.
Proof.
  intros Hn Ht. pose proof (pw_tag_read n t [] Hn Ht) as E. by apply pw_tag_consumed in E as [? _].
Qed.
Lemma encode_fields_app l k : encode_fields (l ++ k) = encode_fields l ++ encode_fields k.
Proof. induction l as [|f l IH]; [done|]. cbn [app encode_fields]. by rewrite IH, app_assoc. Qed.
Lemma append_bytes_field l n b : appendBytesField (encode_fields l) n b = encode_fields (l ++ [FB n b]).
Proof. rewrite encode_fields_app. cbn. unfold appendBytesField. by rewrite app_nil_r. Qed.
Lemma append_varint_field l n v : appendVarintField (encode_fields l) n v = encode_fields (l ++ [FV n v]).
Proof. rewrite encode_fields_app. cbn. unfold appendVarintField. by rewrite app_nil_r. Qed.
Definition string_field (n : Number) (s : string) : list field := if bool_decide (s = "") then [] else [FB n (to_bytes s)].
Lemma append_string_field l n s : appendStringField (encode_fields l) n s = encode_fields (l ++ string_field n s).
Proof. unfold appendStringField, string_field. case_bool_decide; [by rewrite app_nil_r|apply append_bytes_field]. Qed.

(** The reader reaches every field, and stops at the first one it wants. *)
Lemma decode_bytes_fields l n fuel :
  Forall field_ok l -> (length (encode_fields l) < fuel)%nat -> decode_bytes_loop fuel (encode_fields l) n = bytes_at n l.
Proof.
  intros Hl. revert fuel. induction Hl as [|f l Hf Hl IH]; intros [|fuel] Hlen; try (cbn in *; lia); [done|].
  cbn [decode_bytes_loop]. cbn [encode_fields] in *. destruct f as [m b|m v]; cbn [encode_field field_ok bytes_at] in *.
  - unfold appendBytesField in *. cbn [app] in *. pose proof (tag_nonempty m BytesType Hf ltac:(by right)) as Ht.
    rewrite <-!app_assoc in *. rewrite bool_decide_eq_false_2 by (destruct (pw_tag m BytesType); [cbn in Ht; lia|done]).
    rewrite pw_tag_read by (done || by right). rewrite drop_app_length. rewrite Z.eqb_refl, pw_bytes_read.
    destruct (m =? n); [done|]. rewrite drop_app_length. apply IH. rewrite !length_app in Hlen. lia.
  - unfold appendVarintField in *. cbn [app] in *. destruct Hf as [Hm Hv]. pose proof (tag_nonempty m VarintType Hm ltac:(by left)) as Ht.
    rewrite <-!app_assoc in *. rewrite bool_decide_eq_false_2 by (destruct (pw_tag m VarintType); [cbn in Ht; lia|done]).
    rewrite pw_tag_read by (done || by left). rewrite drop_app_length. change (VarintType =? BytesType) with false.
    rewrite pw_field_varint by done. rewrite drop_app_length. apply IH. rewrite !length_app in Hlen. lia.
Qed.
Lemma decode_varint_fields l n fuel :
  Forall field_ok l -> (length (encode_fields l) < fuel)%nat -> decode_varint_loop fuel (encode_fields l) n = varint_at n l.
Proof.
  intros Hl. revert fuel. induction Hl as [|f l Hf Hl IH]; intros [|fuel] Hlen; try (cbn in *; lia).
  cbn [decode_varint_loop]. cbn [encode_fields] in *. destruct f as [m b|m v]; cbn [encode_field field_ok varint_at] in *.
  - unfold appendBytesField in *. cbn [app] in *. pose proof (tag_nonempty m BytesType Hf ltac:(by right)) as Ht.
    rewrite <-!app_assoc in *. rewrite bool_decide_eq_false_2 by (destruct (pw_tag m BytesType); [cbn in Ht; lia|done]).
    rewrite pw_tag_read by (done || by right). rewrite drop_app_length. change (BytesType =? VarintType) with false.
    rewrite pw_field_bytes. rewrite drop_app_length. apply IH. rewrite !length_app in Hlen. lia.
  - unfold appendVarintField in *. cbn [app] in *. destruct Hf as [Hm Hv]. pose proof (tag_nonempty m VarintType Hm ltac:(by left)) as Ht.
    rewrite <-!app_assoc in *. rewrite bool_decide_eq_false_2 by (destruct (pw_tag m VarintType); [cbn in Ht; lia|done]).
    rewrite pw_tag_read by (done || by left). rewrite drop_app_length. rewrite Z.eqb_refl, pw_varint_read by done.
    destruct (m =? n); [done|]. rewrite drop_app_length. apply IH. rewrite !length_app in Hlen. lia.
Qed.
Lemma decodeBytes_fields l n : Forall field_ok l -> decodeBytes (encode_fields l) n = bytes_at n l.
Proof. intros Hl. unfold decodeBytes. apply decode_bytes_fields; [done|lia]. Qed.
Lemma decodeVarint_fields l n : Forall field_ok l -> decodeVarint (encode_fields l) n = varint_at n l.
Proof. intros Hl. unfold decodeVarint. apply decode_varint_fields; [done|lia]. Qed.

Lemma string_field_ok n s : 1 <= n < 2 ^ 29 -> Forall field_ok (string_field n s).
Proof. intros Hn. unfold string_field. case_bool_decide; [constructor|by apply Forall_singleton]. Qed.
Lemma string_at n s : of_bytes (bytes_at n (string_field n s)) = s.
Proof. unfold string_field. case_bool_decide as E; [by rewrite E|]. cbn [bytes_at]. by rewrite Z.eqb_refl, of_to_bytes. Qed.

(** ** Exec replies *)
Definition exec_fields (id : Z) (execID : string) (n : Number) (result : bytes) : list field :=
  FV 1 id :: FB n result :: string_field 15 execID.
Lemma exec_reply_fields id execID n result :
  exec_reply id execID n result = encode_fields [FB agentClientExecMessage (encode_fields (exec_fields id execID n result))].
Proof.
  unfold exec_reply. cbv zeta. rewrite (append_varint_field []), append_bytes_field, append_string_field, (append_bytes_field []). done.
Qed.

Lemma exec_reply_read id execID n result :
  0 <= id < 2 ^ 32 -> 1 < n < 2 ^ 29 -> n <> 15 ->
  let m := decodeBytes (exec_reply id execID n result) agentClientExecMessage in
  decodeVarint m 1 = id /\ decodeString m 15 = execID /\ decodeBytes m n = result.
Proof.
  intros Hid Hn H15. cbv zeta. rewrite exec_reply_fields, decodeBytes_fields by (apply Forall_singleton; unfold agentClientExecMessage; cbn; lia).
  change (bytes_at agentClientExecMessage [FB agentClientExecMessage ?x]) with x.
  assert (Forall field_ok (exec_fields id execID n result)) as Hok.
  { unfold exec_fields. repeat apply Forall_cons_2; [cbn; lia|cbn; lia|apply string_field_ok; lia]. }
  unfold decodeString. rewrite decodeVarint_fields, !decodeBytes_fields by done. unfold exec_fields. cbn [varint_at bytes_at].
  change (1 =? 1) with true. cbv iota. rewrite Z.eqb_refl. replace (n =? 15) with false by lia. split_and!; [done|apply string_at|done].
Qed.

(** *** The result of a caller tool *)
Definition mcp_items (result : ToolResult) : list field :=
  (if negb (bool_decide (tr_Content result = "")) || bool_decide (tr_Media result = [])
   then [FB 1 (encode_fields [FB 1 (encode_fields (string_field 1 (tr_Content result)))])] else [])
  ++ omap (fun media => FB 1 <$> mcp_media_item media) (tr_Media result)
  ++ (if tr_IsError result then [FV 2 1] else []).
Lemma mcp_items_ok result : Forall field_ok (mcp_items result).
Proof.
  unfold mcp_items. repeat apply Forall_app_2.
  - destruct (_ || _); [apply Forall_singleton; cbn; lia|constructor].
  - generalize (tr_Media result) as ms. intros ms. induction ms as [|m ms IH]; cbn [omap list_omap]; [constructor|].
    destruct (mcp_media_item m); cbn [fmap option_fmap option_map]; [|done]. constructor; [cbn; lia|done].
  - destruct (tr_IsError result); [apply Forall_singleton; cbn; lia|constructor].
Qed.
Lemma append_bytes_first n b : appendBytesField [] n b = encode_fields [FB n b].
Proof. apply (append_bytes_field []). Qed.
Lemma append_string_first n s : appendStringField [] n s = encode_fields (string_field n s).
Proof. apply (append_string_field []). Qed.
Lemma encodeMCPResult_fields id execID result :
  encodeMCPResult id execID result = exec_reply id execID 11 (encode_fields [FB 1 (encode_fields (mcp_items result))]).
Proof.
  unfold encodeMCPResult. cbv zeta. rewrite !append_bytes_first. f_equal. f_equal. f_equal. f_equal. rewrite append_string_first.
  set (first := if negb _ || _ then _ else _).
  assert (first = encode_fields (if negb (bool_decide (tr_Content result = "")) || bool_decide (tr_Media result = [])
     then [FB 1 (encode_fields [FB 1 (encode_fields (string_field 1 (tr_Content result)))])] else [])) as ->.
  { unfold first. by destruct (_ || _). }
  unfold mcp_items. set (l := if negb _ || _ then _ else _). clearbody l. rewrite app_assoc.
  assert (fold_left (fun success media => match mcp_media_item media with Some item => appendBytesField success 1 item | None => success end)
    (tr_Media result) (encode_fields l) = encode_fields (l ++ omap (fun media => FB 1 <$> mcp_media_item media) (tr_Media result))) as ->.
  { generalize (tr_Media result) as ms. clear. intros ms. revert l. induction ms as [|m ms IH]; intros l; cbn [fold_left omap list_omap]; [by rewrite app_nil_r|].
    destruct (mcp_media_item m) as [item|]; cbn [fmap option_fmap option_map]; [|apply IH].
    rewrite append_bytes_field, IH, <-app_assoc. done. }
  destruct (tr_IsError result); [by rewrite append_varint_field|by rewrite app_nil_r].
Qed.

(** A caller tool's answer reaches the call it answers: the message written for a
    result decodes, with the program's own field readers, to the identifier and the
    exec identifier of the call, the error flag of the result, and the text of the
    result as its first item (when it has text, or nothing else). *)
Theorem mcp_result_roundtrip (id : Z) (execID : string) (result : ToolResult) :
  0 <= id < 2 ^ 32 ->
  let m := decodeBytes (encodeMCPResult id execID result) agentClientExecMessage in
  let success := decodeBytes (decodeBytes m 11) 1 in
  decodeVarint m 1 = id /\ decodeString m 15 = execID /\
  decodeVarint success 2 = (if tr_IsError result then 1 else 0) /\
  (tr_Content result <> "" \/ tr_Media result = [] ->
   decodeString (decodeBytes (decodeBytes success 1) 1) 1 = tr_Content result).
Proof.
  intros Hid. cbv zeta. rewrite encodeMCPResult_fields.
  destruct (exec_reply_read id execID 11 (encode_fields [FB 1 (encode_fields (mcp_items result))]) Hid) as (E1 & E2 & E3); [lia|done|].
  rewrite E1, E2, E3. rewrite decodeBytes_fields by (apply Forall_singleton; cbn; lia).
  change (bytes_at 1 [FB 1 ?x]) with x. rewrite decodeVarint_fields, decodeBytes_fields by apply mcp_items_ok. split_and!; [done|done| |].
  - unfold mcp_items. set (l := if negb _ || _ then _ else _). assert (forall k, varint_at 2 (l ++ k) = varint_at 2 k) as -> by (by intros; unfold l; destruct (_ || _)).
    generalize (tr_Media result) as ms. induction ms as [|m ms IH]; cbn [omap list_omap]; [by destruct (tr_IsError result)|].
    destruct (mcp_media_item m); cbn [fmap option_fmap option_map app varint_at]; exact IH.
  - intros Hc. unfold mcp_items. assert (negb (bool_decide (tr_Content result = "")) || bool_decide (tr_Media result = []) = true) as ->.
    { apply orb_true_iff. destruct Hc; [left; by rewrite bool_decide_eq_false_2|right; by apply bool_decide_eq_true_2]. }
    cbn [app bytes_at]. change (1 =? 1) with true. cbv iota. rewrite decodeBytes_fields by (apply Forall_singleton; cbn; lia).
    change (bytes_at 1 [FB 1 ?x]) with x. unfold decodeString. rewrite decodeBytes_fields by (apply string_field_ok; lia). apply string_at.
Qed.
End fields.

(** ** The primitives, concretely *)
Fixpoint varint_bytes (fuel : nat) (v : Z) : bytes :=
  match fuel with
  | O => [Zbyte v]
  | S fuel => if v <? 128 then [Zbyte v] else Zbyte (v mod 128 + 128) :: varint_bytes fuel (v / 128)
  end.
Fixpoint varint_read (fuel : nat) (d : bytes) : option (Z * nat) :=
  match fuel, d with
  | O, _ | _, [] => None
  | S fuel, b :: d =>
      if byteZ b <? 128 then Some (byteZ b, 1%nat)
      else match varint_read fuel d with Some (v, n) => Some (byteZ b - 128 + 128 * v, S n) | None => None end
  end.
Lemma byte_small z : 0 <= z < 256 -> byteZ (Zbyte z) = z.
Proof. intros Hz. by rewrite byteZ_Zbyte, Z.mod_small. Qed.
Lemma varint_read_bytes fuel g v r :
  0 <= v < 2 ^ (7 * Z.of_nat (S fuel)) -> (length (varint_bytes fuel v) <= g)%nat ->
  varint_read g (varint_bytes fuel v ++ r) = Some (v, length (varint_bytes fuel v)).
Proof.
  revert g v. induction fuel as [|fuel IH]; intros g v Hv.
  - cbn [varint_bytes length]. intros Hg. destruct g as [|g]; [lia|]. cbn [app varint_read].
    change (2 ^ (7 * Z.of_nat 1)) with 128 in Hv. rewrite byte_small by lia. by replace (v <? 128) with true by lia.
  - cbn [varint_bytes]. destruct (v <? 128) eqn:E; bool_hyps; cbn [length]; intros Hg; (destruct g as [|g]; [lia|]); cbn [app varint_read].
    + rewrite byte_small by lia. by replace (v <? 128) with true by lia.
    + pose proof (Z.mod_pos_bound v 128 ltac:(lia)) as Hm. rewrite byte_small by lia.
      replace (v mod 128 + 128 <? 128) with false by lia. rewrite IH; [| |lia].
      * f_equal. f_equal. pose proof (Z.div_mod v 128 ltac:(lia)). lia.
      * replace (7 * Z.of_nat (S (S fuel))) with (7 * Z.of_nat (S fuel) + 7) in Hv by lia. rewrite Z.pow_add_r in Hv by lia.
        change (2 ^ 7) with 128 in Hv. split; [apply Z.div_pos; lia|apply Z.div_lt_upper_bound; lia].
Qed.
Lemma varint_bytes_length fuel v : (0 < length (varint_bytes fuel v) <= S fuel)%nat.
Proof. revert v. induction fuel as [|fuel IH]; intros v; cbn [varint_bytes]; [cbn; lia|]. destruct (_ <? _); cbn [length]; [lia|]. specialize (IH (v / 128)). lia. Qed.
Lemma varint_read_consumed fuel d v n : varint_read fuel d = Some (v, n) -> (0 < n <= length d)%nat.
Proof.
  revert d v n. induction fuel as [|fuel IH]; intros [|b d] v n; cbn [varint_read length]; try done.
  destruct (_ <? _); [intros [= _ <-]; lia|]. destruct (varint_read fuel d) as [[v' m]|] eqn:E; [|done].
  intros [= _ <-]. apply IH in E. lia.
Qed.

Definition tag_read (d : bytes) : Z + (Number * Z * nat) :=
  match varint_read 10 d with
  | Some (v, n) => if (1 <=? v / 8) && (v / 8 <? 2 ^ 29) then inr (v / 8, v mod 8, n) else inl (-1)
  | None => inl (-1)
  end.
Definition bytes_read (d : bytes) : Z + (bytes * nat) :=
  match varint_read (length d) d with
  | Some (l, n) => if l <=? blen (drop n d) then inr (take (Z.to_nat l) (drop n d), (n + Z.to_nat l)%nat) else inl (-1)
  | None => inl (-1)
  end.
Definition sample_protowire : Protowire := {|
  pw_tag n t := varint_bytes 9 (n * 8 + t);
  pw_varint v := varint_bytes 9 v;
  pw_bytes b := varint_bytes (length b) (blen b) ++ b;
  pw_ConsumeTag := tag_read;
  pw_ConsumeVarint d := match varint_read 10 d with Some x => inr x | None => inl (-1) end;
  pw_ConsumeBytes := bytes_read;
  pw_ConsumeFieldValue n t d :=
    if t =? VarintType then match varint_read 10 d with Some (_, n) => inr n | None => inl (-1) end
    else if t =? BytesType then match bytes_read d with inr (_, n) => inr n | inl e => inl e end
    else inl (-1);
  pw_ParseError _ := "parse error" |}.

Lemma bytes_read_back b r :
  bytes_read ((varint_bytes (length b) (blen b) ++ b) ++ r) = inr (b, length (varint_bytes (length b) (blen b) ++ b)).
Proof.
  unfold bytes_read. rewrite <-app_assoc, varint_read_bytes.
  - rewrite drop_app_length. unfold blen. rewrite (length_app b r), Nat2Z.id. rewrite (proj2 (Z.leb_le _ _)) by lia.
    rewrite take_app_length. f_equal. f_equal. by rewrite length_app.
  - unfold blen. split; [lia|]. apply (Z.lt_le_trans _ (2 ^ Z.of_nat (length b))); [apply Z.pow_gt_lin_r; lia|apply Z.pow_le_mono_r; lia].
  - rewrite !length_app. lia.
Qed.
Lemma bytes_read_consumed d b n : bytes_read d = inr (b, n) -> (0 < n <= length d)%nat.
Proof.
  unfold bytes_read. destruct (varint_read _ d) as [[l k]|] eqn:E; [|done]. destruct (_ <=? _) eqn:G; [|done]. intros [= _ <-].
  apply varint_read_consumed in E. bool_hyps. unfold blen in G. rewrite length_drop in G. lia.
Qed.

#[export] Instance sample_protowire_laws : @ProtowireLaws sample_protowire.
Proof.
  split; cbn [pw_tag pw_varint pw_bytes pw_ConsumeTag pw_ConsumeVarint pw_ConsumeBytes pw_ConsumeFieldValue sample_protowire].
  - intros n t r Hn Ht. unfold tag_read. change (2 ^ 29) with 536870912 in *.
    assert (0 <= t < 8) by (unfold VarintType, BytesType in Ht; lia). rewrite varint_read_bytes.
    + rewrite Z.div_add_l, Z.div_small, Z.add_0_r by lia. rewrite Z.add_comm, Z.mod_add, Z.mod_small by lia.
      by replace ((1 <=? n) && (n <? 536870912)) with true by lia.
    + change (2 ^ (7 * Z.of_nat 10)) with 1180591620717411303424. lia.
    + pose proof (varint_bytes_length 9 (n * 8 + t)). lia.
  - intros v r Hv. rewrite varint_read_bytes; [done| |].
    + split; [lia|]. eapply Z.lt_le_trans; [apply Hv|]. by vm_compute.
    + pose proof (varint_bytes_length 9 v). lia.
  - intros b r. apply bytes_read_back.
  - intros n v r Hv. change (VarintType =? VarintType) with true. cbv iota. rewrite varint_read_bytes; [done| |].
    + split; [lia|]. eapply Z.lt_le_trans; [apply Hv|]. by vm_compute.
    + pose proof (varint_bytes_length 9 v). lia.
  - intros n b r. change (BytesType =? VarintType) with false. change (BytesType =? BytesType) with true. cbv iota. by rewrite bytes_read_back.
  - intros d n t c. unfold tag_read. destruct (varint_read 10 d) as [[v k]|] eqn:E; [|done]. destruct (_ && _); [|done].
    intros [= _ _ <-]. by apply varint_read_consumed in E.
Qed.

Definition sample_tool_result : ToolResult :=
  {| tr_ToolCallID := "call-1"; tr_Content := "42"; tr_IsError := true; tr_Media := [] |}.
Lemma mcp_result_roundtrip_witness :
  decodeVarint (H := sample_protowire) (decodeBytes (H := sample_protowire)
    (encodeMCPResult (H := sample_protowire) 7 "exec-1" sample_tool_result) agentClientExecMessage) 1 = 7.
Proof. apply (mcp_result_roundtrip (H := sample_protowire) 7 "exec-1" sample_tool_result). lia. Defined.
