(* ===== verification/Protocol.v ===== *)
(** * Decoding server messages (src/cursoragentv1/protocol.go, protocol_feedback.go)

    From the bytes of one server message to the message the run loop dispatches
    on.  The generated protobuf types are mirrored as far as the decoder looks at
    them; unmarshalling them is a parameter. *)
From stdpp Require Import base tactics list gmap strings sorting.
From Stdlib Require Import Strings.Byte.
From S2P Require Import Prelude GoStrings JsonValue Connect Data HostedPolicy Usage Media HostedSearch Wire.
Open Scope Z_scope.

(** ** The generated messages *)
Record McpArgs := { ma_ToolCallId : string; ma_ToolName : string; ma_Name : string; ma_Args : list (string * bytes) }.
Record SearchReference := { rf_Title : string; rf_Url : string; rf_Text : string }.
Inductive ToolOutcome (A : Type) : Type := Success (a : A) | Error (error url : string) | Rejected (reason : string) | NoOutcome.
Arguments Success {A}. Arguments Error {A}. Arguments Rejected {A}. Arguments NoOutcome {A}.
Record FetchSuccess := { fs_Url : string; fs_Content : string }.
(** One hosted call: the arguments, when present, and the result, when present. *)
Record SearchCall := { sc_Args : option (string * string); sc_Result : option (ToolOutcome (list SearchReference)) }.
Record ExaFetchCall := { xf_Args : option (string * list string); xf_Result : option (ToolOutcome (list SearchReference)) }.
Record FetchCall := { fc_Args : option (string * string); fc_Result : option (ToolOutcome FetchSuccess) }.
Inductive ToolCallKind : Type :=
  | WebSearchToolCall (call : SearchCall) | WebFetchToolCall (call : option FetchCall) | FetchToolCall (call : option FetchCall)
  | ExaSearchToolCall (call : SearchCall) | ExaFetchToolCall (call : ExaFetchCall) | McpToolCall (args : option McpArgs)
  | OtherToolCall | NoToolCall.
(** [unknown]: the raw bytes of the fields the generated code does not know. *)
Record AgentToolCall := { at_Tool : ToolCallKind; at_ToolCallId : string; at_Unknown : bytes }.
Record TokenDeltaUpdate := { td_Tokens : Z; td_Unknown : bytes }.
Record TurnEndedUpdate := {
  te_InputTokens : option Z; te_OutputTokens : option Z; te_CacheReadTokens : option Z; te_CacheWriteTokens : option Z;
  te_ReasoningTokens : option Z; te_Unknown : bytes }.
Inductive UpdateMessage : Type :=
  | UpTextDelta (text : string) | UpThinkingDelta (text : string) | UpThinkingCompleted
  | UpTokenDelta (update : option TokenDeltaUpdate) | UpTurnEnded (update : option TurnEndedUpdate)
  | UpToolCallStarted (callID : string) (tool : option AgentToolCall)
  | UpToolCallCompleted (callID : string) (tool : option AgentToolCall)
  | UpToolCallDelta (callID : string)
  | UpPartialToolCall (callID : string) (tool : option AgentToolCall)
  | UpNotification                       (* heartbeat, summaries, appended messages, shell output, steps *)
  | UpNone | UpOther (number : Number).
Record InteractionUpdate := { iu_Message : UpdateMessage; iu_Unknown : bytes }.
Inductive ExecMessage : Type :=
  | ExShellArgs | ExShellStreamArgs | ExBackgroundShellSpawnArgs | ExWriteArgs | ExDeleteArgs | ExGrepArgs | ExReadArgs
  | ExRedactedReadArgs | ExLsArgs | ExDiagnosticsArgs | ExRequestContextArgs | ExMcpArgs (args : option McpArgs)
  | ExFetchArgs | ExShellAllowlistPrecheckArgs | ExMcpAllowlistPrecheckArgs | ExWebFetchAllowlistPrecheckArgs
  | ExNone | ExOther (type : string) (number : Number).
Record ExecServerMessage := { ex_Id : Z; ex_ExecId : string; ex_Message : ExecMessage; ex_Unknown : bytes }.
Inductive KvMessage : Type := KvGetBlob (id : bytes) | KvSetBlob (id data : bytes) | KvNone | KvOther (number : Number).
Record KvServerMessage := { kv_Id : Z; kv_Message : KvMessage; kv_Unknown : bytes }.
Inductive QueryMessage : Type :=
  | QyWebSearch (callID : option string) | QyAskQuestion | QySwitchMode | QyExaSearch (callID : option string) | QyExaFetch (callID : option string)
  | QyCreatePlan | QySetupVm | QyWebFetch (callID : option string) | QyNone | QyOther (number : Number).
Record InteractionQuery := { iq_Id : Z; iq_Query : QueryMessage; iq_Unknown : bytes }.
Record ExecServerControlMessage := { ec_Abort : option Z; ec_Unknown : bytes }.

(** [proto.Unmarshal] into each of them, a [structpb.Value] as Go values, and the
    allowlist reply the code builds with generated types. *)
Class AgentProto := {
  ap_InteractionUpdate : bytes -> result InteractionUpdate;
  ap_ExecServerMessage : bytes -> result ExecServerMessage;
  ap_KvServerMessage : bytes -> result KvServerMessage;
  ap_InteractionQuery : bytes -> result InteractionQuery;
  ap_ExecServerControlMessage : bytes -> result ExecServerControlMessage;
  ap_Value : bytes -> option any;
  ap_AllowlistPrecheck : Z -> string -> string -> bool -> bytes }.

(** ** Reading fields one by one

    The shape of every loop of these files: a tag, then what [step] makes of the
    field, which returns or says how much it consumed.  [None]: out of fuel. *)
Section scan.
Context `{Protowire} {A R : Type}.
Context (tagError : Z -> A -> R) (step : Number -> Z -> bytes -> A -> R + (nat * A)) (finish : A -> R).
Fixpoint scan (fuel : nat) (data : bytes) (acc : A) : option R :=
  match fuel with
  | O => None
  | S fuel =>
      if bool_decide (data = []) then Some (finish acc)
      else match pw_ConsumeTag data with
           | inl e => Some (tagError e acc)
           | inr (number, wireType, consumed) =>
               let data := drop consumed data in
               match step number wireType data acc with
               | inl r => Some r
               | inr (n, acc) => scan fuel (drop n data) acc
               end
           end
  end.
End scan.
(** With one unit of fuel per byte; the loops end before it runs out. *)
Definition scan_all `{Protowire} {A R} (tagError : Z -> A -> R) step (finish : A -> R) (data : bytes) (acc : A) (stuck : R) : R :=
  default stuck (scan tagError step finish (S (length data)) data acc).

Lemma scan_enough `{ProtowireLaws} {A R} tagError step (finish : A -> R) fuel data (acc : A) :
  (length data < fuel)%nat -> exists r, scan tagError step finish fuel data acc = Some r.
Proof.
  revert data acc. induction fuel as [|fuel IH]; intros data acc Hf; [lia|]. cbn [scan]. case_bool_decide; [by eexists|].
  destruct (pw_ConsumeTag data) as [e|[[number wireType] consumed]] eqn:E; [by eexists|]. apply pw_tag_consumed in E.
  destruct (step _ _ _ _) as [r|[n acc']]; [by eexists|]. apply IH. rewrite !length_drop. lia.
Qed.
Lemma scan_more `{Protowire} {A R} tagError step (finish : A -> R) fuel k data (acc : A) r :
  scan tagError step finish fuel data acc = Some r -> scan tagError step finish (fuel + k) data acc = Some r.
Proof.
  revert data acc. induction fuel as [|fuel IH]; intros data acc; [done|]. cbn [scan Nat.add]. case_bool_decide; [done|].
  destruct (pw_ConsumeTag data) as [e|[[number wireType] consumed]]; [done|]. destruct (step _ _ _ _) as [r'|[n acc']]; [done|]. apply IH.
Qed.

(** ** Assignments to the fields of [decodedWireMessage] *)
Definition new_message : decodedWireMessage :=
  {| wm_Type := wireUnknown; wm_Text := ""; wm_TokenDelta := 0; wm_Usage := None; wm_Checkpoint := []; wm_ID := 0;
     wm_ExecID := ""; wm_BlobID := []; wm_BlobData := []; wm_InteractionKind := 0; wm_ToolCallID := ""; wm_ToolName := "";
     wm_ToolArguments := ""; wm_CallID := ""; wm_AllowlistKind := ""; wm_HostedSearch := None |}.
Definition set_type (t : wireMessageType) (m : decodedWireMessage) : decodedWireMessage :=
  {| wm_Type := t; wm_Text := wm_Text m; wm_TokenDelta := wm_TokenDelta m; wm_Usage := wm_Usage m; wm_Checkpoint :=
     wm_Checkpoint m; wm_ID := wm_ID m; wm_ExecID := wm_ExecID m; wm_BlobID := wm_BlobID m; wm_BlobData := wm_BlobData
     m; wm_InteractionKind := wm_InteractionKind m; wm_ToolCallID := wm_ToolCallID m; wm_ToolName := wm_ToolName m;
     wm_ToolArguments := wm_ToolArguments m; wm_CallID := wm_CallID m; wm_AllowlistKind := wm_AllowlistKind m;
     wm_HostedSearch := wm_HostedSearch m |}.
Definition set_text (text : string) (m : decodedWireMessage) : decodedWireMessage :=
  {| wm_Type := wm_Type m; wm_Text := text; wm_TokenDelta := wm_TokenDelta m; wm_Usage := wm_Usage m; wm_Checkpoint :=
     wm_Checkpoint m; wm_ID := wm_ID m; wm_ExecID := wm_ExecID m; wm_BlobID := wm_BlobID m; wm_BlobData := wm_BlobData
     m; wm_InteractionKind := wm_InteractionKind m; wm_ToolCallID := wm_ToolCallID m; wm_ToolName := wm_ToolName m;
     wm_ToolArguments := wm_ToolArguments m; wm_CallID := wm_CallID m; wm_AllowlistKind := wm_AllowlistKind m;
     wm_HostedSearch := wm_HostedSearch m |}.
Definition set_usage (usage : UsageObservation) (m : decodedWireMessage) : decodedWireMessage :=
  {| wm_Type := wm_Type m; wm_Text := wm_Text m; wm_TokenDelta := wm_TokenDelta m; wm_Usage := Some usage;
     wm_Checkpoint := wm_Checkpoint m; wm_ID := wm_ID m; wm_ExecID := wm_ExecID m; wm_BlobID := wm_BlobID m;
     wm_BlobData := wm_BlobData m; wm_InteractionKind := wm_InteractionKind m; wm_ToolCallID := wm_ToolCallID m;
     wm_ToolName := wm_ToolName m; wm_ToolArguments := wm_ToolArguments m; wm_CallID := wm_CallID m; wm_AllowlistKind
     := wm_AllowlistKind m; wm_HostedSearch := wm_HostedSearch m |}.
Definition set_token_delta (z : Z) (m : decodedWireMessage) : decodedWireMessage :=
  {| wm_Type := wm_Type m; wm_Text := wm_Text m; wm_TokenDelta := z; wm_Usage := wm_Usage m; wm_Checkpoint :=
     wm_Checkpoint m; wm_ID := wm_ID m; wm_ExecID := wm_ExecID m; wm_BlobID := wm_BlobID m; wm_BlobData := wm_BlobData
     m; wm_InteractionKind := wm_InteractionKind m; wm_ToolCallID := wm_ToolCallID m; wm_ToolName := wm_ToolName m;
     wm_ToolArguments := wm_ToolArguments m; wm_CallID := wm_CallID m; wm_AllowlistKind := wm_AllowlistKind m;
     wm_HostedSearch := wm_HostedSearch m |}.
Definition set_checkpoint (cp : bytes) (m : decodedWireMessage) : decodedWireMessage :=
  {| wm_Type := wm_Type m; wm_Text := wm_Text m; wm_TokenDelta := wm_TokenDelta m; wm_Usage := wm_Usage m;
     wm_Checkpoint := cp; wm_ID := wm_ID m; wm_ExecID := wm_ExecID m; wm_BlobID := wm_BlobID m; wm_BlobData :=
     wm_BlobData m; wm_InteractionKind := wm_InteractionKind m; wm_ToolCallID := wm_ToolCallID m; wm_ToolName :=
     wm_ToolName m; wm_ToolArguments := wm_ToolArguments m; wm_CallID := wm_CallID m; wm_AllowlistKind :=
     wm_AllowlistKind m; wm_HostedSearch := wm_HostedSearch m |}.
Definition set_id (id : Z) (m : decodedWireMessage) : decodedWireMessage :=
  {| wm_Type := wm_Type m; wm_Text := wm_Text m; wm_TokenDelta := wm_TokenDelta m; wm_Usage := wm_Usage m;
     wm_Checkpoint := wm_Checkpoint m; wm_ID := id; wm_ExecID := wm_ExecID m; wm_BlobID := wm_BlobID m; wm_BlobData :=
     wm_BlobData m; wm_InteractionKind := wm_InteractionKind m; wm_ToolCallID := wm_ToolCallID m; wm_ToolName :=
     wm_ToolName m; wm_ToolArguments := wm_ToolArguments m; wm_CallID := wm_CallID m; wm_AllowlistKind :=
     wm_AllowlistKind m; wm_HostedSearch := wm_HostedSearch m |}.
Definition set_exec_id (id : string) (m : decodedWireMessage) : decodedWireMessage :=
  {| wm_Type := wm_Type m; wm_Text := wm_Text m; wm_TokenDelta := wm_TokenDelta m; wm_Usage := wm_Usage m;
     wm_Checkpoint := wm_Checkpoint m; wm_ID := wm_ID m; wm_ExecID := id; wm_BlobID := wm_BlobID m; wm_BlobData :=
     wm_BlobData m; wm_InteractionKind := wm_InteractionKind m; wm_ToolCallID := wm_ToolCallID m; wm_ToolName :=
     wm_ToolName m; wm_ToolArguments := wm_ToolArguments m; wm_CallID := wm_CallID m; wm_AllowlistKind :=
     wm_AllowlistKind m; wm_HostedSearch := wm_HostedSearch m |}.
Definition set_blob (id data : bytes) (m : decodedWireMessage) : decodedWireMessage :=
  {| wm_Type := wm_Type m; wm_Text := wm_Text m; wm_TokenDelta := wm_TokenDelta m; wm_Usage := wm_Usage m;
     wm_Checkpoint := wm_Checkpoint m; wm_ID := wm_ID m; wm_ExecID := wm_ExecID m; wm_BlobID := id; wm_BlobData :=
     data; wm_InteractionKind := wm_InteractionKind m; wm_ToolCallID := wm_ToolCallID m; wm_ToolName := wm_ToolName m;
     wm_ToolArguments := wm_ToolArguments m; wm_CallID := wm_CallID m; wm_AllowlistKind := wm_AllowlistKind m;
     wm_HostedSearch := wm_HostedSearch m |}.
Definition set_interaction (kind : Number) (m : decodedWireMessage) : decodedWireMessage :=
  {| wm_Type := wm_Type m; wm_Text := wm_Text m; wm_TokenDelta := wm_TokenDelta m; wm_Usage := wm_Usage m;
     wm_Checkpoint := wm_Checkpoint m; wm_ID := wm_ID m; wm_ExecID := wm_ExecID m; wm_BlobID := wm_BlobID m;
     wm_BlobData := wm_BlobData m; wm_InteractionKind := kind; wm_ToolCallID := wm_ToolCallID m; wm_ToolName :=
     wm_ToolName m; wm_ToolArguments := wm_ToolArguments m; wm_CallID := wm_CallID m; wm_AllowlistKind :=
     wm_AllowlistKind m; wm_HostedSearch := wm_HostedSearch m |}.
Definition set_tool_call_id (id : string) (m : decodedWireMessage) : decodedWireMessage :=
  {| wm_Type := wm_Type m; wm_Text := wm_Text m; wm_TokenDelta := wm_TokenDelta m; wm_Usage := wm_Usage m;
     wm_Checkpoint := wm_Checkpoint m; wm_ID := wm_ID m; wm_ExecID := wm_ExecID m; wm_BlobID := wm_BlobID m;
     wm_BlobData := wm_BlobData m; wm_InteractionKind := wm_InteractionKind m; wm_ToolCallID := id; wm_ToolName :=
     wm_ToolName m; wm_ToolArguments := wm_ToolArguments m; wm_CallID := wm_CallID m; wm_AllowlistKind :=
     wm_AllowlistKind m; wm_HostedSearch := wm_HostedSearch m |}.
Definition set_tool_name (name : string) (m : decodedWireMessage) : decodedWireMessage :=
  {| wm_Type := wm_Type m; wm_Text := wm_Text m; wm_TokenDelta := wm_TokenDelta m; wm_Usage := wm_Usage m;
     wm_Checkpoint := wm_Checkpoint m; wm_ID := wm_ID m; wm_ExecID := wm_ExecID m; wm_BlobID := wm_BlobID m;
     wm_BlobData := wm_BlobData m; wm_InteractionKind := wm_InteractionKind m; wm_ToolCallID := wm_ToolCallID m;
     wm_ToolName := name; wm_ToolArguments := wm_ToolArguments m; wm_CallID := wm_CallID m; wm_AllowlistKind :=
     wm_AllowlistKind m; wm_HostedSearch := wm_HostedSearch m |}.
Definition set_tool_arguments (text : string) (m : decodedWireMessage) : decodedWireMessage :=
  {| wm_Type := wm_Type m; wm_Text := wm_Text m; wm_TokenDelta := wm_TokenDelta m; wm_Usage := wm_Usage m;
     wm_Checkpoint := wm_Checkpoint m; wm_ID := wm_ID m; wm_ExecID := wm_ExecID m; wm_BlobID := wm_BlobID m;
     wm_BlobData := wm_BlobData m; wm_InteractionKind := wm_InteractionKind m; wm_ToolCallID := wm_ToolCallID m;
     wm_ToolName := wm_ToolName m; wm_ToolArguments := text; wm_CallID := wm_CallID m; wm_AllowlistKind :=
     wm_AllowlistKind m; wm_HostedSearch := wm_HostedSearch m |}.
Definition set_call_id (id : string) (m : decodedWireMessage) : decodedWireMessage :=
  {| wm_Type := wm_Type m; wm_Text := wm_Text m; wm_TokenDelta := wm_TokenDelta m; wm_Usage := wm_Usage m;
     wm_Checkpoint := wm_Checkpoint m; wm_ID := wm_ID m; wm_ExecID := wm_ExecID m; wm_BlobID := wm_BlobID m;
     wm_BlobData := wm_BlobData m; wm_InteractionKind := wm_InteractionKind m; wm_ToolCallID := wm_ToolCallID m;
     wm_ToolName := wm_ToolName m; wm_ToolArguments := wm_ToolArguments m; wm_CallID := id; wm_AllowlistKind :=
     wm_AllowlistKind m; wm_HostedSearch := wm_HostedSearch m |}.
Definition set_allowlist (kind : string) (m : decodedWireMessage) : decodedWireMessage :=
  {| wm_Type := wm_Type m; wm_Text := wm_Text m; wm_TokenDelta := wm_TokenDelta m; wm_Usage := wm_Usage m;
     wm_Checkpoint := wm_Checkpoint m; wm_ID := wm_ID m; wm_ExecID := wm_ExecID m; wm_BlobID := wm_BlobID m;
     wm_BlobData := wm_BlobData m; wm_InteractionKind := wm_InteractionKind m; wm_ToolCallID := wm_ToolCallID m;
     wm_ToolName := wm_ToolName m; wm_ToolArguments := wm_ToolArguments m; wm_CallID := wm_CallID m; wm_AllowlistKind
     := kind; wm_HostedSearch := wm_HostedSearch m |}.
Definition set_search (search : option HostedSearch) (m : decodedWireMessage) : decodedWireMessage :=
  {| wm_Type := wm_Type m; wm_Text := wm_Text m; wm_TokenDelta := wm_TokenDelta m; wm_Usage := wm_Usage m;
     wm_Checkpoint := wm_Checkpoint m; wm_ID := wm_ID m; wm_ExecID := wm_ExecID m; wm_BlobID := wm_BlobID m;
     wm_BlobData := wm_BlobData m; wm_InteractionKind := wm_InteractionKind m; wm_ToolCallID := wm_ToolCallID m;
     wm_ToolName := wm_ToolName m; wm_ToolArguments := wm_ToolArguments m; wm_CallID := wm_CallID m; wm_AllowlistKind
     := wm_AllowlistKind m; wm_HostedSearch := search |}.

Definition stuck : Err := ErrMsg "unreachable: a field consumed nothing".

Section protocol.
Context `{Protowire} `{JSON} `{AgentProto} `{NetURL}.

Definition protocolDriftError (surface : string) (numbers : list Number) : Err :=
  if bool_decide (numbers = []) then ErrMsg ("Cursor Agent v1 protocol drift in " +:+ surface)
  else ErrMsg ("Cursor Agent v1 protocol drift in " +:+ surface +:+ ": unknown field(s) [" +:+ Join (Itoa <$> numbers) " " +:+ "]").
Definition errDecode (what : string) (code : Z) : Err := ErrMsg ("decode Cursor Agent v1 " +:+ what +:+ ": " +:+ pw_ParseError code).
Definition field_label (what : string) (number : Number) : string := what +:+ " " +:+ Itoa number.

(** An id that does not fit a uint32 would be truncated by the generated code. *)
Definition rejectOverflowID (data : bytes) (what : string) : option Err :=
  scan_all (A := unit) (fun e _ => Some (errDecode (what +:+ " tag") e))
    (fun number wireType data _ =>
       if (wireType =? VarintType) && (number =? 1) then
         match pw_ConsumeVarint data with
         | inl e => inl (Some (errDecode (what +:+ " varint 1") e))
         | inr (value, n) =>
             if 2 ^ 32 - 1 <? value
             then inl (Some (ErrMsg ("Cursor Agent v1 " +:+ what +:+ " id exceeds uint32: " +:+ Itoa value)))
             else inr (n, tt)
         end
       else match pw_ConsumeFieldValue number wireType data with
            | inl e => inl (Some (errDecode (field_label (what +:+ " field") number) e))
            | inr n => inr (n, tt)
            end)
    (fun _ => None) data tt (Some stuck).

(** The numbers of the unknown fields, each once, up to the first malformed one. *)
Definition add_number (number : Number) (numbers : list Number) : list Number :=
  if bool_decide (number ∈ numbers) then numbers else numbers ++ [number].
Definition unknownFieldNumbers (unknown : bytes) : list Number :=
  scan_all (fun _ numbers => numbers)
    (fun number wireType data numbers =>
       match pw_ConsumeFieldValue number wireType data with
       | inl _ => inl numbers
       | inr n => inr (n, add_number number numbers)
       end) (fun numbers => numbers) unknown [] [].
Definition filterToolCallUnknown (numbers : list Number) : list Number :=
  List.filter (fun n => negb (bool_decide (n ∈ [54; 57; 59; 60]))) numbers.

Definition malformedVarintFields (unknown : bytes) : list Number :=
  scan_all (fun _ numbers => numbers)
    (fun number wireType data numbers =>
       match pw_ConsumeFieldValue number wireType data with
       | inl _ => inl numbers
       | inr n => inr (n, if wireType =? VarintType then numbers else add_number number numbers)
       end) (fun numbers => numbers) unknown [] [].

(** ** Feedback requests: validated, never acted on *)
Definition interactionFeedbackRequestField : Number := 21.
(** [group] levels of nesting are left. *)
Fixpoint validateFeedbackCategory (group : nat) (data : bytes) {struct group} : option Err :=
  let grouped := negb (bool_decide (group = O)) in
  let inner value := match group with O => None | S group => validateFeedbackCategory group value end in
  scan_all (A := unit) (fun e _ => Some (errDecode "feedback request" e))
    (fun number wireType data _ =>
       if (number =? 1) || (number =? 2) || (grouped && (number =? 3)) then
         if negb (wireType =? BytesType)
         then inl (Some (ErrMsg ("Cursor Agent v1 feedback category field " +:+ Itoa number +:+ " must be length-delimited")))
         else match pw_ConsumeBytes data with
              | inl e => inl (Some (errDecode (field_label "feedback request field" number) e))
              | inr (value, n) =>
                  match (if grouped && (number =? 3) then inner value else None) with
                  | Some e => inl (Some e)
                  | None => inr (n, tt)
                  end
              end
       else match pw_ConsumeFieldValue number wireType data with
            | inl e => inl (Some (errDecode (field_label "feedback request field" number) e))
            | inr n => inr (n, tt)
            end)
    (fun _ => None) data tt (Some stuck).

Definition feedback_delimited (number : Number) : Err :=
  ErrMsg ("Cursor Agent v1 feedback request field " +:+ Itoa number +:+ " must be length-delimited").
Definition validateFeedbackRequestUpdate (data : bytes) : option Err :=
  let bad number e : option Err + (nat * unit) := inl (Some (errDecode (field_label "feedback request field" number) e)) in
  scan_all (A := unit) (fun e _ => Some (errDecode "feedback request" e))
    (fun number wireType data _ =>
       if bool_decide (number ∈ [1; 2; 6; 7; 8]) then
         if negb (wireType =? BytesType) then inl (Some (feedback_delimited number))
         else match pw_ConsumeBytes data with inl e => bad number e | inr (_, n) => inr (n, tt) end
       else if bool_decide (number ∈ [3; 4]) then
         if negb (wireType =? BytesType) then inl (Some (feedback_delimited number))
         else match pw_ConsumeBytes data with
              | inl e => bad number e
              | inr (inner, n) =>
                  match validateFeedbackCategory (if (number =? 4)%Z then 1%nat else 0%nat) inner with
                  | Some e => inl (Some e)
                  | None => inr (n, tt)
                  end
              end
       else if number =? 5 then
         if negb (wireType =? VarintType)
         then inl (Some (ErrMsg ("Cursor Agent v1 feedback request field " +:+ Itoa number +:+ " must be varint")))
         else match pw_ConsumeVarint data with inl e => bad number e | inr (_, n) => inr (n, tt) end
       else match pw_ConsumeFieldValue number wireType data with inl e => bad number e | inr n => inr (n, tt) end)
    (fun _ => None) data tt (Some stuck).

Definition remainingInteractionUnknown (unknown : bytes) : result (list Number) :=
  scan_all (fun e _ => Fail (errDecode "interaction update" e))
    (fun number wireType data '(feedbackSeen, remaining) =>
       if number =? interactionFeedbackRequestField then
         if negb (wireType =? BytesType) then inl (Fail (ErrMsg "Cursor Agent v1 feedback request must be length-delimited"))
         else match pw_ConsumeBytes data with
              | inl e => inl (Fail (errDecode "feedback request" e))
              | inr (value, n) =>
                  match validateFeedbackRequestUpdate value with
                  | Some e => inl (Fail e)
                  | None => inr (n, (true, remaining))
                  end
              end
       else match pw_ConsumeFieldValue number wireType data with
            | inl e => inl (Fail (errDecode (field_label "interaction update field" number) e))
            | inr n => inr (n, (feedbackSeen, add_number number remaining))
            end)
    (fun '(feedbackSeen, remaining) =>
       if (feedbackSeen : bool) && negb (bool_decide (remaining = []))
       then Fail (protocolDriftError "interaction update" remaining) else Ok remaining)
    unknown (false, []) (Fail stuck).

(** ** Usage counters *)
Definition mark_malformed (count : ObservedCount) : ObservedCount :=
  {| oc_Present := true; oc_Invalid := true; oc_Value := oc_Value count |}.
Definition markMalformedCount (count : ObservedCount) (unknown : bytes) (number : Number) : ObservedCount :=
  if bool_decide (number ∈ malformedVarintFields unknown) then mark_malformed count else count.
Definition markMalformedTurnEnded (obs : UsageObservation) (unknown : bytes) : UsageObservation :=
  {| uo_Carried := uo_Carried obs; uo_Kind := uo_Kind obs; uo_TokenDelta := uo_TokenDelta obs;
     uo_Input := markMalformedCount (uo_Input obs) unknown 1; uo_Output := markMalformedCount (uo_Output obs) unknown 2;
     uo_CacheRead := markMalformedCount (uo_CacheRead obs) unknown 3; uo_CacheWrite := markMalformedCount (uo_CacheWrite obs) unknown 4;
     uo_Reasoning := markMalformedCount (uo_Reasoning obs) unknown 5 |}.
Definition no_usage (kind : UsageKind) (delta : ObservedCount) : UsageObservation :=
  {| uo_Carried := false; uo_Kind := kind; uo_TokenDelta := delta; uo_Input := noCount; uo_Output := noCount;
     uo_CacheRead := noCount; uo_CacheWrite := noCount; uo_Reasoning := noCount |}.
Definition observeTokenDeltaUpdate (update : option TokenDeltaUpdate) : UsageObservation :=
  no_usage UsageKindTokenDelta
    (match update with
     | None => {| oc_Present := false; oc_Invalid := true; oc_Value := 0 |}
     | Some update => markMalformedCount (observedInt32Tokens (td_Tokens update)) (td_Unknown update) 1
     end).
Definition observed (count : option Z) : ObservedCount := observedOptionalInt64 (bool_decide (is_Some count)) (default 0 count).
Definition observeTurnEndedUpdate (update : option TurnEndedUpdate) : UsageObservation :=
  match update with
  | None => no_usage UsageKindTurnEnded noCount
  | Some update =>
      markMalformedTurnEnded
        {| uo_Carried := false; uo_Kind := UsageKindTurnEnded; uo_TokenDelta := noCount;
           uo_Input := observed (te_InputTokens update); uo_Output := observed (te_OutputTokens update);
           uo_CacheRead := observed (te_CacheReadTokens update); uo_CacheWrite := observed (te_CacheWriteTokens update);
           uo_Reasoning := observed (te_ReasoningTokens update) |} (te_Unknown update)
  end.

(** ** Tool arguments *)
Definition decodeProtoValue (data : bytes) : any :=
  if bool_decide (data = []) then AnyNil
  else match ap_Value data with
       | Some value => value
       | None => if utf8_valid data then AnyString (of_bytes data) else AnyString (raw_url_base64 data)
       end.
Definition decodeTypedMCPArgs (args : option McpArgs) (message : decodedWireMessage) : decodedWireMessage :=
  match args with
  | None => message
  | Some args =>
      let name := TrimSpace (ma_ToolName args) in
      let name := if bool_decide (name = "") then TrimSpace (ma_Name args) else name in
      let message := set_tool_name name (set_tool_call_id (TrimSpace (ma_ToolCallId args)) message) in
      match json_marshal (AnyMap ((fun '(key, raw) => (key, decodeProtoValue raw)) <$> ma_Args args)) with
      | Some encoded => set_tool_arguments (of_bytes encoded) message
      | None => message
      end
  end.

(** ** Hosted calls *)
Definition marshalSearchArgs (value : object) : string :=
  match json_marshal (AnyMap value) with Some encoded => of_bytes encoded | None => "{}" end.
Definition no_search (kind : string) : HostedSearch :=
  {| hs_CallID := ""; hs_Kind := kind; hs_Query := ""; hs_URL := ""; hs_ArgsJSON := ""; hs_References := []; hs_Content := ""; hs_Error := "" |}.
Definition search_args (callID query url args : string) (s : HostedSearch) : HostedSearch :=
  {| hs_CallID := callID; hs_Kind := hs_Kind s; hs_Query := query; hs_URL := url; hs_ArgsJSON := args;
     hs_References := hs_References s; hs_Content := hs_Content s; hs_Error := hs_Error s |}.
Definition search_outcome (url : string) (refs : list HostedSearchReference) (content error : string) (s : HostedSearch) : HostedSearch :=
  {| hs_CallID := hs_CallID s; hs_Kind := hs_Kind s; hs_Query := hs_Query s; hs_URL := url; hs_ArgsJSON := hs_ArgsJSON s;
     hs_References := refs; hs_Content := content; hs_Error := error |}.
Definition set_search_call (callID : string) (s : HostedSearch) : HostedSearch :=
  {| hs_CallID := callID; hs_Kind := hs_Kind s; hs_Query := hs_Query s; hs_URL := hs_URL s; hs_ArgsJSON := hs_ArgsJSON s;
     hs_References := hs_References s; hs_Content := hs_Content s; hs_Error := hs_Error s |}.
Definition search_failed (error : string) (s : HostedSearch) : HostedSearch :=
  search_outcome (hs_URL s) (hs_References s) (hs_Content s) error s.
Definition reference_of (r : SearchReference) : HostedSearchReference :=
  {| hr_Title := rf_Title r; hr_URL := rf_Url r; hr_Chunk := rf_Text r |}.
Definition or_else (s t : string) : string := if bool_decide (s = "") then t else s.

Definition applyWebSearchResult (s : HostedSearch) (result : ToolOutcome (list SearchReference)) : HostedSearch :=
  match result with
  | Success refs => search_outcome (hs_URL s) (expandHostedSearchLinkList (hs_References s ++ (reference_of <$> refs))) (hs_Content s) (hs_Error s) s
  | Error error _ => search_failed error s
  | Rejected reason => search_failed reason s
  | NoOutcome => s
  end.
Definition applyExaSearchResult (s : HostedSearch) (result : ToolOutcome (list SearchReference)) : HostedSearch :=
  match result with
  | Success refs => search_outcome (hs_URL s) (hs_References s ++ (reference_of <$> refs)) (hs_Content s) (hs_Error s) s
  | Error error _ => search_failed error s
  | Rejected reason => search_failed reason s
  | NoOutcome => s
  end.
Definition applyExaFetchResult (s : HostedSearch) (result : ToolOutcome (list SearchReference)) : HostedSearch :=
  match result with
  | Success contents =>
      let url := fold_left (fun url content => or_else url (rf_Url content)) contents (hs_URL s) in
      let parts := List.filter (fun text => negb (bool_decide (text = ""))) ((fun content => TrimSpace (rf_Text content)) <$> contents) in
      search_outcome url (hs_References s ++ (reference_of <$> contents)) (Join parts (newline +:+ newline)) (hs_Error s) s
  | Error error _ => search_failed error s
  | Rejected reason => search_failed reason s
  | NoOutcome => s
  end.
Definition applyFetchResult (s : HostedSearch) (result : ToolOutcome FetchSuccess) : HostedSearch :=
  match result with
  | Success content =>
      let url := or_else (hs_URL s) (fs_Url content) in
      let refs := if bool_decide (url = "") then hs_References s
                  else hs_References s ++ [{| hr_Title := ""; hr_URL := url; hr_Chunk := fs_Content content |}] in
      search_outcome url refs (fs_Content content) (hs_Error s) s
  | Error error url => search_outcome (or_else (hs_URL s) url) (hs_References s) (hs_Content s) error s
  | _ => s
  end.
(** The envelope's id stands in for a missing call id. *)
Definition envelope_id (id : string) (s : HostedSearch) : HostedSearch := set_search_call (or_else (hs_CallID s) (TrimSpace id)) s.

Definition hosted_query (kind : string) (call : SearchCall) (apply : HostedSearch -> ToolOutcome (list SearchReference) -> HostedSearch)
    (envelopeID : string) : HostedSearch :=
  let s := no_search kind in
  let s := match sc_Args call with
           | Some (id, query) => search_args (TrimSpace id) query (hs_URL s) (marshalSearchArgs [("query", AnyString query)]) s
           | None => s end in
  let s := match sc_Result call with Some result => apply s result | None => s end in
  envelope_id envelopeID s.
Definition hostedFetchSearch (call : option FetchCall) (envelopeID : string) : HostedSearch :=
  let s := no_search HostedSearchKindWebFetch in
  match call with
  | None => s
  | Some call =>
      let s := match fc_Args call with
               | Some (id, url) => search_args (TrimSpace id) url url (marshalSearchArgs [("url", AnyString url)]) s
               | None => s end in
      let s := match fc_Result call with Some result => applyFetchResult s result | None => s end in
      envelope_id envelopeID s
  end.
Definition hosted_exa_fetch (call : ExaFetchCall) (envelopeID : string) : HostedSearch :=
  let s := no_search HostedSearchKindExaFetch in
  let s := match xf_Args call with
           | Some (id, ids) =>
               let listed := match ids with [] => AnyNil | _ => AnyList (AnyString <$> ids) end in
               search_args (TrimSpace id) (hs_Query s) (default (hs_URL s) (head ids)) (marshalSearchArgs [("ids", listed)]) s
           | None => s end in
  let s := match xf_Result call with Some result => applyExaFetchResult s result | None => s end in
  envelope_id envelopeID s.

Inductive toolClass : Type := toolClassIgnored | toolClassMCP | toolClassHostedSearch | toolClassUnknown.
Definition classifyToolCall (tool : option AgentToolCall) : result (toolClass * option HostedSearch) :=
  match tool with
  | None => Ok (toolClassIgnored, None)
  | Some tool =>
      let id := at_ToolCallId tool in
      match at_Tool tool with
      | WebSearchToolCall call => Ok (toolClassHostedSearch, Some (hosted_query HostedSearchKindWebSearch call applyWebSearchResult id))
      | WebFetchToolCall call | FetchToolCall call => Ok (toolClassHostedSearch, Some (hostedFetchSearch call id))
      | ExaSearchToolCall call => Ok (toolClassHostedSearch, Some (hosted_query HostedSearchKindExaSearch call applyExaSearchResult id))
      | ExaFetchToolCall call => Ok (toolClassHostedSearch, Some (hosted_exa_fetch call id))
      | McpToolCall _ => Ok (toolClassMCP, None)
      | NoToolCall =>
          let unknown := filterToolCallUnknown (unknownFieldNumbers (at_Unknown tool)) in
          if bool_decide (unknown = []) then Ok (toolClassIgnored, None) else Fail (protocolDriftError "tool call" unknown)
      | OtherToolCall => Ok (toolClassIgnored, None)
      end
  end.
Definition mcp_args (tool : AgentToolCall) : option McpArgs := match at_Tool tool with McpToolCall args => args | _ => None end.

Definition applyToolCallUpdate (message : decodedWireMessage) (messageType : wireMessageType) (callID : string)
    (tool : option AgentToolCall) : result decodedWireMessage :=
  match classifyToolCall tool with
  | Fail e => Fail e
  | Ok (class, search) =>
      let message := set_call_id (TrimSpace callID) message in
      let search := (fun s => set_search_call (or_else (hs_CallID s) (wm_CallID message)) s) <$> search in
      let message := match search with
                     | Some s => set_call_id (or_else (wm_CallID message) (hs_CallID s)) message
                     | None => message end in
      match class with
      | toolClassHostedSearch => Ok (set_search search (set_type messageType message))
      | toolClassMCP =>
          if bool_decide (messageType = wireToolCallCompleted) then Ok (set_type wireIgnored message)
          else
            let message := set_type wireStreamMCP message in
            let message := match tool with Some tool => decodeTypedMCPArgs (mcp_args tool) message | None => message end in
            Ok (if bool_decide (TrimSpace (wm_ToolCallID message) = "") then set_tool_call_id (wm_CallID message) message else message)
      | toolClassIgnored => Ok (set_type wireIgnored message)
      | toolClassUnknown =>
          match tool with
          | None => Ok (set_type wireIgnored message)
          | Some tool =>
              let unknown := filterToolCallUnknown (unknownFieldNumbers (at_Unknown tool)) in
              if bool_decide (unknown = []) then Ok (set_type wireIgnored message) else Fail (protocolDriftError "tool call" unknown)
          end
      end
  end.

(** ** The fields of a server message *)
Definition decodeTypedInteractionUpdate (data : bytes) (message : decodedWireMessage) : result decodedWireMessage :=
  match ap_InteractionUpdate data with
  | Fail e => Fail (ErrWrap "decode Cursor Agent v1 interaction update" e)
  | Ok update =>
      match remainingInteractionUnknown (iu_Unknown update) with
      | Fail e => Fail e
      | Ok remainingUnknown =>
          match iu_Message update with
          | UpTextDelta text => Ok (set_text text (set_type wireTextDelta message))
          | UpThinkingDelta text => Ok (set_text text (set_type wireThinkingDelta message))
          | UpThinkingCompleted => Ok (set_type wireThinkingCompleted message)
          | UpTokenDelta delta =>
              let usage := observeTokenDeltaUpdate delta in
              Ok (set_token_delta (oc_Value (uo_TokenDelta usage)) (set_usage usage (set_type wireTokenDelta message)))
          | UpTurnEnded ended => Ok (set_usage (observeTurnEndedUpdate ended) (set_type wireTurnEnded message))
          | UpToolCallStarted callID tool => applyToolCallUpdate message wireToolCallStarted callID tool
          | UpToolCallCompleted callID tool => applyToolCallUpdate message wireToolCallCompleted callID tool
          | UpToolCallDelta callID => applyToolCallUpdate message wireToolCallDelta callID None
          | UpPartialToolCall callID tool => applyToolCallUpdate message wireToolCallDelta callID tool
          | UpNotification => Ok message
          | UpNone =>
              if bool_decide (remainingUnknown = []) then Ok message
              else Fail (protocolDriftError "interaction update" remainingUnknown)
          | UpOther number => Fail (protocolDriftError "interaction update" [number])
          end
      end
  end.

Definition decodeTypedExecMessage (data : bytes) (message : decodedWireMessage) : result decodedWireMessage :=
  match rejectOverflowID data "exec" with
  | Some e => Fail e
  | None =>
      match ap_ExecServerMessage data with
      | Fail e => Fail (ErrWrap "decode Cursor Agent v1 exec" e)
      | Ok exec =>
          let message := set_exec_id (ex_ExecId exec) (set_id (ex_Id exec) message) in
          let typed t := Ok (set_type t message) in
          match ex_Message exec with
          | ExShellArgs => typed wireShell
          | ExShellStreamArgs => typed wireShellStream
          | ExBackgroundShellSpawnArgs => typed wireBackgroundShell
          | ExWriteArgs => typed wireWrite
          | ExDeleteArgs => typed wireDelete
          | ExGrepArgs => typed wireGrep
          | ExReadArgs | ExRedactedReadArgs => typed wireRead
          | ExLsArgs => typed wireList
          | ExDiagnosticsArgs => typed wireDiagnostics
          | ExRequestContextArgs => typed wireRequestContext
          | ExMcpArgs args => Ok (decodeTypedMCPArgs args (set_type wireMCP message))
          | ExFetchArgs => typed wireFetch
          | ExShellAllowlistPrecheckArgs => Ok (set_allowlist "shell" (set_type wireAllowlistPrecheck message))
          | ExMcpAllowlistPrecheckArgs => Ok (set_allowlist "mcp" (set_type wireAllowlistPrecheck message))
          | ExWebFetchAllowlistPrecheckArgs => Ok (set_allowlist "web_fetch" (set_type wireAllowlistPrecheck message))
          | ExNone =>
              let unknown := unknownFieldNumbers (ex_Unknown exec) in
              if bool_decide (unknown = []) then Ok (set_text "empty exec payload" (set_type wireUnsupportedExec message))
              else Fail (protocolDriftError "exec" unknown)
          | ExOther type number => Ok (set_text (type +:+ " field " +:+ Itoa number) (set_type wireUnsupportedExec message))
          end
      end
  end.

Definition decodeTypedKVMessage (data : bytes) (message : decodedWireMessage) : result decodedWireMessage :=
  match rejectOverflowID data "KV" with
  | Some e => Fail e
  | None =>
      match ap_KvServerMessage data with
      | Fail e => Fail (ErrWrap "decode Cursor Agent v1 KV" e)
      | Ok kv =>
          let message := set_id (kv_Id kv) message in
          match kv_Message kv with
          | KvGetBlob id => Ok (set_blob id (wm_BlobData message) (set_type wireKVGet message))
          | KvSetBlob id data => Ok (set_blob id data (set_type wireKVSet message))
          | KvNone =>
              let unknown := unknownFieldNumbers (kv_Unknown kv) in
              if bool_decide (unknown = []) then Ok message else Fail (protocolDriftError "KV" unknown)
          | KvOther number => Fail (protocolDriftError "KV" [number])
          end
      end
  end.

(** [callID]: the id of the query's arguments, [None] when it carries none. *)
Definition query_call (callID : option string) (message : decodedWireMessage) : decodedWireMessage :=
  match callID with Some id => set_tool_call_id (TrimSpace id) message | None => message end.
Definition decodeTypedInteractionQuery (data : bytes) (message : decodedWireMessage) : result decodedWireMessage :=
  match rejectOverflowID data "interaction query" with
  | Some e => Fail e
  | None =>
      match ap_InteractionQuery data with
      | Fail e => Fail (ErrWrap "decode Cursor Agent v1 interaction query" e)
      | Ok query =>
          let message := set_id (iq_Id query) (set_type wireInteractionQuery message) in
          match iq_Query query with
          | QyWebSearch callID => Ok (query_call callID (set_interaction 2 message))
          | QyAskQuestion => Ok (set_interaction 3 message)
          | QySwitchMode => Ok (set_interaction 4 message)
          | QyExaSearch callID => Ok (query_call callID (set_interaction 5 message))
          | QyExaFetch callID => Ok (query_call callID (set_interaction 6 message))
          | QyCreatePlan => Ok (set_interaction 7 message)
          | QySetupVm => Ok (set_interaction 8 message)
          | QyWebFetch callID => Ok (query_call callID (set_interaction 9 message))
          | QyNone =>
              let unknown := unknownFieldNumbers (iq_Unknown query) in
              if bool_decide (unknown = []) then Fail (ErrMsg "unsupported Cursor Agent v1 interaction query kind 0")
              else Fail (protocolDriftError "interaction query" unknown)
          | QyOther number => Fail (protocolDriftError "interaction query" [number])
          end
      end
  end.

Definition decodeTypedExecControl (data : bytes) (message : decodedWireMessage) : result decodedWireMessage :=
  match ap_ExecServerControlMessage data with
  | Fail e => Fail (ErrWrap "decode Cursor Agent v1 exec control" e)
  | Ok control =>
      match ec_Abort control with
      | Some id => Ok (set_id id (set_type wireExecAbort message))
      | None => Fail (protocolDriftError "exec control" (unknownFieldNumbers (ec_Unknown control)))
      end
  end.

Definition encodeAllowlistPrecheck (id : Z) (execID kind : string) (allowlisted : bool) : result bytes :=
  if bool_decide (kind ∈ ["shell"; "mcp"; "web_fetch"]) then Ok (ap_AllowlistPrecheck id execID kind allowlisted)
  else Fail (ErrMsg ("unsupported Cursor Agent v1 allowlist precheck " +:+ Quote kind)).

Definition applyServerBytesField (message : decodedWireMessage) (number : Number) (value : bytes) : result decodedWireMessage :=
  if number =? agentServerInteractionUpdate then
    if wireReplyRequired (wm_Type message) then Ok message else decodeTypedInteractionUpdate value message
  else if number =? agentServerExecMessage then decodeTypedExecMessage value message
  else if number =? agentServerCheckpoint then
    if wireReplyRequired (wm_Type message) then Ok message else Ok (set_checkpoint value (set_type wireCheckpoint message))
  else if number =? agentServerKVMessage then decodeTypedKVMessage value message
  else if number =? 5 then decodeTypedExecControl value message
  else if number =? agentServerInteractionQuery then decodeTypedInteractionQuery value message
  else Ok message.

Definition server_field (number : Number) (wireType : Z) (data : bytes) (message : decodedWireMessage)
    : result decodedWireMessage + (nat * decodedWireMessage) :=
  if negb (wireType =? BytesType) then
    match pw_ConsumeFieldValue number wireType data with
    | inl e => inl (Fail (errDecode (field_label "server field" number) e))
    | inr n => inr (n, message)
    end
  else match pw_ConsumeBytes data with
       | inl e => inl (Fail (errDecode (field_label "server bytes" number) e))
       | inr (value, n) =>
           match applyServerBytesField message number value with
           | Ok message => inr (n, message)
           | Fail e => inl (Fail e)
           end
       end.
Definition decode_server_loop : nat -> bytes -> decodedWireMessage -> option (result decodedWireMessage) :=
  scan (fun e _ => Fail (errDecode "server tag" e)) server_field Ok.
Definition decodeServerMessage (data : bytes) : result decodedWireMessage :=
  scan_all (fun e _ => Fail (errDecode "server tag" e)) server_field Ok data new_message (Fail stuck).

(** ** The notifications of an envelope *)
Lemma mcp_args_type args m : wm_Type (decodeTypedMCPArgs args m) = wm_Type m.
Proof. destruct args as [a|]; [|done]. cbn [decodeTypedMCPArgs]. by destruct (json_marshal _). Qed.
Lemma query_call_type callID m : wm_Type (query_call callID m) = wm_Type m.
Proof. by destruct callID. Qed.

Lemma exec_reply_required data m m' : decodeTypedExecMessage data m = Ok m' -> wireReplyRequired (wm_Type m') = true.
Proof.
  unfold decodeTypedExecMessage. destruct (rejectOverflowID _ _); [done|]. destruct (ap_ExecServerMessage _) as [exec|]; [|done].
  destruct (ex_Message exec); try (by intros [= <-]); cbv zeta.
  - intros [= <-]. by rewrite mcp_args_type.
  - case_bool_decide; [|done]. by intros [= <-].
Qed.
Lemma query_reply_required data m m' : decodeTypedInteractionQuery data m = Ok m' -> wireReplyRequired (wm_Type m') = true.
Proof.
  unfold decodeTypedInteractionQuery. destruct (rejectOverflowID _ _); [done|]. destruct (ap_InteractionQuery _) as [q|]; [|done].
  destruct (iq_Query q); cbv zeta; try (intros [= <-]; by rewrite ?query_call_type); try done. by case_bool_decide.
Qed.
Lemma control_reply_required data m m' : decodeTypedExecControl data m = Ok m' -> wireReplyRequired (wm_Type m') = true.
Proof.
  unfold decodeTypedExecControl. destruct (ap_ExecServerControlMessage _) as [c|]; [|done].
  destruct (ec_Abort c); [|done]. by intros [= <-].
Qed.
Lemma kv_reply_required data m m' :
  decodeTypedKVMessage data m = Ok m' -> wireReplyRequired (wm_Type m) = true -> wireReplyRequired (wm_Type m') = true.
Proof.
  unfold decodeTypedKVMessage. destruct (rejectOverflowID _ _); [done|]. destruct (ap_KvServerMessage _) as [kv|]; [|done].
  destruct (kv_Message kv); cbv zeta; try (by intros [= <-]); try done. case_bool_decide; [|done]. by intros [= <-].
Qed.

(** A request for a reply, once decoded, stays one. *)
Lemma field_keeps_request m number value m' :
  applyServerBytesField m number value = Ok m' -> wireReplyRequired (wm_Type m) = true -> wireReplyRequired (wm_Type m') = true.
Proof.
  unfold applyServerBytesField. intros E R. rewrite R in E. revert E.
  repeat destruct (number =? _); try (by intros [= <-]).
  - apply exec_reply_required.
  - intros E. by eapply kv_reply_required.
  - apply control_reply_required.
  - apply query_reply_required.
Qed.
(** The fields that ask for an execution, an approval, or abort one. *)
Definition request_field (number : Number) : bool :=
  bool_decide (number ∈ [agentServerExecMessage; 5; agentServerInteractionQuery]).
Lemma field_requests m number value m' :
  applyServerBytesField m number value = Ok m' -> request_field number = true -> wireReplyRequired (wm_Type m') = true.
Proof.
  unfold applyServerBytesField, request_field. intros E R. bool_hyps. revert E.
  repeat (apply elem_of_cons in R as [->|R]); cbn; [apply exec_reply_required|apply control_reply_required|apply query_reply_required|].
  by apply elem_of_nil in R.
Qed.

(** ** Envelopes *)
(** Applying fields in order. *)
Fixpoint apply_fields_in_order (message : decodedWireMessage) (fields : list (Number * bytes)) : result decodedWireMessage :=
  match fields with
  | [] => Ok message
  | (number, value) :: fields =>
      match applyServerBytesField message number value with
      | Ok message => apply_fields_in_order message fields
      | Fail e => Fail e
      end
  end.
End protocol.
