(* ===== verification/ProtocolProps.v ===== *)
(** * What decoding a server message guarantees

    The decoder always ends, whatever the bytes; an envelope is the fold of its
    fields; and a request for an execution or an approval is never masked by a
    notification in the same envelope. *)
From stdpp Require Import base tactics list gmap strings sorting.
From Stdlib Require Import Strings.Byte.
From S2P Require Import Prelude GoStrings JsonValue Connect Data HostedPolicy Media HostedSearch Wire WireProps Protocol.
Open Scope Z_scope.

(** ** Every loop ends with an answer of the code *)
Lemma scan_result `{Protowire} {A R} (P : R -> Prop) tagError step (finish : A -> R) fuel data (acc : A) r :
  (forall e acc, P (tagError e acc)) -> (forall n t d acc r, step n t d acc = inl r -> P r) -> (forall acc, P (finish acc)) ->
  scan tagError step finish fuel data acc = Some r -> P r.
Proof.
  intros Ht Hs Hf. revert data acc. induction fuel as [|fuel IH]; intros data acc; [done|]. cbn [scan].
  case_bool_decide; [intros [= <-]; apply Hf|]. destruct (pw_ConsumeTag data) as [e|[[number wireType] consumed]]; [intros [= <-]; apply Ht|].
  destruct (step _ _ _ _) as [r'|[n acc']] eqn:E; [intros [= <-]; by eapply Hs|apply IH].
Qed.
Lemma scan_all_eq `{ProtowireLaws} {A R} tagError step (finish : A -> R) fuel data (acc : A) st :
  (length data < fuel)%nat -> scan tagError step finish fuel data acc = Some (scan_all tagError step finish data acc st).
Proof.
  intros Hf. unfold scan_all. destruct (scan_enough tagError step finish (S (length data)) data acc) as [r E]; [lia|]. rewrite E. cbn [default].
  replace fuel with (S (length data) + (fuel - S (length data)))%nat by lia. by apply scan_more.
Qed.
Lemma scan_all_result `{ProtowireLaws} {A R} (P : R -> Prop) tagError step (finish : A -> R) data (acc : A) st :
  (forall e acc, P (tagError e acc)) -> (forall n t d acc r, step n t d acc = inl r -> P r) -> (forall acc, P (finish acc)) ->
  P (scan_all tagError step finish data acc st).
Proof.
  intros Ht Hs Hf. eapply (scan_result P); [done..|]. apply (scan_all_eq _ _ _ (S (length data))). lia.
Qed.

Section decode.
Context `{PL : ProtowireLaws} `{JSON} `{AgentProto} `{NetURL}.
Local Notation not_stuck := (fun r : option Err => r <> Some stuck).

(** Split every branch of a step; the errors the code builds are not [stuck]. *)
Ltac branches := repeat (go_case; try done); try (by intros [= <-]); try done.

Lemma rejectOverflowID_ends data what : rejectOverflowID data what <> Some stuck.
Proof.
  apply (scan_all_result not_stuck); [done| |done]. intros n t d [] r. branches.
Qed.
Lemma validateFeedbackCategory_ends group data : validateFeedbackCategory group data <> Some stuck.
Proof.
  revert data. induction group as [|group IH]; intros data; cbn [validateFeedbackCategory]; apply (scan_all_result not_stuck); try done; intros n t d [] r.
  - cbn [bool_decide]. branches.
  - cbn [bool_decide]. destruct (_ || _); [|branches]. destruct (negb _); [branches|]. destruct (pw_ConsumeBytes d) as [|[value k]]; [branches|].
    destruct (_ && _); [|done]. destruct (validateFeedbackCategory group value) as [e|] eqn:E; [|done]. intros [= <-] [= ->]. by apply (IH value).
Qed.
Lemma validateFeedbackRequestUpdate_ends data : validateFeedbackRequestUpdate data <> Some stuck.
Proof.
  apply (scan_all_result not_stuck); [done| |done]. intros n t d [] r. case_bool_decide; [branches|]. case_bool_decide; [|branches].
  destruct (negb _); [branches|]. destruct (pw_ConsumeBytes d) as [|[value k]]; [branches|].
  destruct (validateFeedbackCategory _ value) as [e|] eqn:E; [|done]. intros [= <-] [= ->]. by eapply validateFeedbackCategory_ends.
Qed.
Lemma drift_not_stuck surface numbers : protocolDriftError surface numbers <> stuck.
Proof. unfold protocolDriftError. by case_bool_decide. Qed.
Lemma remaining_ends unknown : remainingInteractionUnknown unknown <> Fail stuck.
Proof.
  apply (scan_all_result (fun r => r <> Fail stuck)); [done| |].
  - intros n t d [seen remaining] r. destruct (n =? _); [|branches]. destruct (negb _); [branches|].
    destruct (pw_ConsumeBytes d) as [|[value k]]; [branches|]. destruct (validateFeedbackRequestUpdate value) as [e|] eqn:E; [|done].
    intros [= <-] [= ->]. by eapply validateFeedbackRequestUpdate_ends.
  - intros [seen remaining]. destruct (_ && _); [|done]. intros [= E]. by apply drift_not_stuck in E.
Qed.
Lemma tool_call_ends m t callID tool : applyToolCallUpdate m t callID tool <> Fail stuck.
Proof.
  unfold applyToolCallUpdate. destruct (classifyToolCall tool) as [[class search]|e] eqn:C.
  - destruct class; try done; cbv zeta; [by case_bool_decide|]. destruct tool; [|done]. case_bool_decide; [done|].
    intros [= E]. by apply drift_not_stuck in E.
  - intros [= ->]. revert C. unfold classifyToolCall. destruct tool as [tool|]; [|done]. destruct (at_Tool tool); try done.
    case_bool_decide; [done|]. intros [= E]. by apply drift_not_stuck in E.
Qed.

Lemma field_ends m number value : applyServerBytesField m number value <> Fail stuck.
Proof.
  assert (forall surface numbers, @Fail decodedWireMessage (protocolDriftError surface numbers) <> Fail stuck) as Hdrift.
  { intros s l [= E]. by apply drift_not_stuck in E. }
  unfold applyServerBytesField. destruct (number =? _).
  { destruct (wireReplyRequired _); [done|]. unfold decodeTypedInteractionUpdate. destruct (ap_InteractionUpdate value) as [u|]; [|done].
    destruct (remainingInteractionUnknown (iu_Unknown u)) eqn:E; [|intros [= ->]; by eapply remaining_ends].
    destruct (iu_Message u); try done; try apply tool_call_ends; try (case_bool_decide; [done|]); apply Hdrift. }
  destruct (number =? _).
  { unfold decodeTypedExecMessage. destruct (rejectOverflowID _ _) eqn:E; [intros [= ->]; by eapply rejectOverflowID_ends|].
    destruct (ap_ExecServerMessage value) as [x|]; [|done]. destruct (ex_Message x); try done. case_bool_decide; [done|apply Hdrift]. }
  destruct (number =? _); [by destruct (wireReplyRequired _)|]. destruct (number =? _).
  { unfold decodeTypedKVMessage. destruct (rejectOverflowID _ _) eqn:E; [intros [= ->]; by eapply rejectOverflowID_ends|].
    destruct (ap_KvServerMessage value) as [x|]; [|done]. destruct (kv_Message x); try done; try (case_bool_decide; [done|]); apply Hdrift. }
  destruct (number =? _).
  { unfold decodeTypedExecControl. destruct (ap_ExecServerControlMessage value) as [x|]; [|done]. destruct (ec_Abort x); [done|apply Hdrift]. }
  destruct (number =? _); [|done]. unfold decodeTypedInteractionQuery.
  destruct (rejectOverflowID _ _) eqn:E; [intros [= ->]; by eapply rejectOverflowID_ends|].
  destruct (ap_InteractionQuery value) as [x|]; [|done]. destruct (iq_Query x); try done; try (case_bool_decide; [done|]); apply Hdrift.
Qed.

(** C20 Decoding a server message always ends: whatever bytes arrive, the loop over
    the fields returns within one turn per byte, more fuel changes nothing, and
    the answer is one of the code's own, never that a nested validation loop ran
    out of turns. *)
Theorem decode_terminates (data : bytes) :
  (forall fuel, (length data < fuel)%nat -> decode_server_loop fuel data new_message = Some (decodeServerMessage data)) /\
  decodeServerMessage data <> Fail stuck.
Proof.
  split; [intros fuel Hf; by apply scan_all_eq|].
  apply (scan_all_result (fun r => r <> Fail stuck)); [done| |done]. intros n t d acc r. unfold server_field.
  destruct (negb _); [by destruct (pw_ConsumeFieldValue _ _ _); [intros [= <-]|]|].
  destruct (pw_ConsumeBytes d) as [|[value k]]; [by intros [= <-]|].
  destruct (applyServerBytesField acc n value) eqn:E; [done|]. intros [= <-] [= ->]. by eapply field_ends.
Qed.

(** ** Envelopes *)
Lemma decode_envelope fields m :
  Forall (fun f => 1 <= f.1 < 2 ^ 29) fields ->
  decode_server_loop (S (length (encode_fields (uncurry FB <$> fields)))) (encode_fields (uncurry FB <$> fields)) m
  = Some (apply_fields_in_order m fields).
Proof.
  intros Hl. set (data := encode_fields _). generalize (Nat.lt_succ_diag_r (length data)). generalize (S (length data)) as fuel.
  unfold data. clear data. revert m.
  induction Hl as [|[n v] fields Hn Hl IH]; intros m [|fuel] Hf; try lia; [done|]. cbn [fst] in Hn.
  unfold decode_server_loop in *. cbn [fmap list_fmap uncurry encode_fields encode_field scan apply_fields_in_order] in *.
  unfold appendBytesField in *. cbn [app] in *. pose proof (tag_nonempty n BytesType Hn ltac:(by right)) as Ht.
  rewrite <-!app_assoc in *. rewrite bool_decide_eq_false_2 by (destruct (pw_tag n BytesType); [cbn in Ht; lia|done]).
  rewrite pw_tag_read by (done || by right). rewrite drop_app_length. unfold server_field at 1.
  rewrite Z.eqb_refl. cbn [negb]. rewrite pw_bytes_read.
  destruct (applyServerBytesField m n v); [|done]. rewrite drop_app_length. apply IH. rewrite !length_app in Hf. lia.
Qed.

(** The fields whose message may demand a reply: an execution, a blob request, an
    abort and an approval. *)
Definition replying_field (number : Number) : bool :=
  bool_decide (number ∈ [agentServerExecMessage; agentServerKVMessage; 5; agentServerInteractionQuery]).
(** The same request, as its field [number] gives it. *)
Definition same_request (number : Number) (m m1 : decodedWireMessage) : Prop :=
  wm_Type m = wm_Type m1 /\ wm_ID m = wm_ID m1 /\
  (number = agentServerExecMessage -> wm_ExecID m = wm_ExecID m1) /\
  (number = agentServerKVMessage -> wm_BlobID m = wm_BlobID m1) /\
  (number = agentServerInteractionQuery -> wm_InteractionKind m = wm_InteractionKind m1).

Lemma mcp_args_request args m :
  wm_ID (decodeTypedMCPArgs args m) = wm_ID m /\ wm_ExecID (decodeTypedMCPArgs args m) = wm_ExecID m.
Proof. destruct args as [a|]; [|done]. cbn [decodeTypedMCPArgs]. by destruct (json_marshal _). Qed.
Lemma query_call_request c m :
  wm_ID (query_call c m) = wm_ID m /\ wm_InteractionKind (query_call c m) = wm_InteractionKind m.
Proof. by destruct c. Qed.
(** A request says the same whatever was decoded before it. *)
Lemma field_request_alone acc acc' number value m m1 :
  replying_field number = true -> applyServerBytesField acc number value = Ok m ->
  applyServerBytesField acc' number value = Ok m1 ->
  (number = agentServerKVMessage -> wm_Type acc' = wireUnknown /\ wireReplyRequired (wm_Type m1) = true) -> same_request number m m1.
Proof.
  unfold replying_field. intros R%bool_decide_eq_true_1. unfold applyServerBytesField, same_request.
  repeat (apply elem_of_cons in R as [->|R]); [..|by apply elem_of_nil in R]; cbn -[decodeTypedExecMessage decodeTypedKVMessage decodeTypedExecControl decodeTypedInteractionQuery].
  - unfold decodeTypedExecMessage. destruct (rejectOverflowID _ _); [done|]. destruct (ap_ExecServerMessage _) as [x|]; [|done].
    destruct (ex_Message x); try (by intros [= <-] [= <-]); cbv zeta.
    + intros [= <-] [= <-] _. rewrite !mcp_args_type. destruct (mcp_args_request args (set_type wireMCP (set_exec_id (ex_ExecId x) (set_id (ex_Id x) acc)))) as [-> ->].
      by destruct (mcp_args_request args (set_type wireMCP (set_exec_id (ex_ExecId x) (set_id (ex_Id x) acc')))) as [-> ->].
    + case_bool_decide; [|done]. by intros [= <-] [= <-].
  - unfold decodeTypedKVMessage. destruct (rejectOverflowID _ _); [done|]. destruct (ap_KvServerMessage _) as [x|]; [|done].
    destruct (kv_Message x); cbv zeta; try (by intros [= <-] [= <-]).
    case_bool_decide; [|done]. intros [= <-] [= <-] Ht. destruct (Ht eq_refl) as [E1 E2]. cbn in E2. by rewrite E1 in E2.
  - unfold decodeTypedExecControl. destruct (ap_ExecServerControlMessage _) as [x|]; [|done]. destruct (ec_Abort x); [|done]. by intros [= <-] [= <-].
  - unfold decodeTypedInteractionQuery. destruct (rejectOverflowID _ _); [done|]. destruct (ap_InteractionQuery _) as [x|]; [|done].
    destruct (iq_Query x); cbv zeta; try (by intros [= <-] [= <-]); try done; try (by case_bool_decide);
      intros [= <-] [= <-] _; rewrite !query_call_type;
      repeat match goal with |- context [query_call ?c ?m] => destruct (query_call_request c m) as [-> ->] end; done.
Qed.
(** The others leave a request as it is. *)
Lemma fields_keep_message fields m m' :
  Forall (fun f => replying_field f.1 = false) fields -> wireReplyRequired (wm_Type m) = true ->
  apply_fields_in_order m fields = Ok m' -> m' = m.
Proof.
  intros Hf R. induction Hf as [|[n v] fields Hn _ IH]; cbn [apply_fields_in_order]; [by intros [= <-]|].
  assert (applyServerBytesField m n v = Ok m) as ->; [|done]. unfold applyServerBytesField. rewrite R.
  unfold replying_field in Hn. cbn [fst] in Hn. apply bool_decide_eq_false_1 in Hn.
  destruct (Z.eqb_spec n agentServerInteractionUpdate); [done|].
  destruct (Z.eqb_spec n agentServerExecMessage) as [->|]; [exfalso; apply Hn; set_solver|]. destruct (Z.eqb_spec n agentServerCheckpoint); [done|].
  destruct (Z.eqb_spec n agentServerKVMessage) as [->|]; [exfalso; apply Hn; set_solver|]. destruct (Z.eqb_spec n 5) as [->|]; [exfalso; apply Hn; set_solver|].
  destruct (Z.eqb_spec n agentServerInteractionQuery) as [->|]; [exfalso; apply Hn; set_solver|done].
Qed.
Lemma fields_in_order_app m before after m' :
  apply_fields_in_order m (before ++ after) = Ok m' ->
  exists acc, apply_fields_in_order m before = Ok acc /\ apply_fields_in_order acc after = Ok m'.
Proof.
  revert m. induction before as [|[n v] before IH]; intros m; cbn [app apply_fields_in_order]; [by exists m|].
  destruct (applyServerBytesField m n v); [apply IH|done].
Qed.

(** C19 No request is masked by a notification: when an envelope holds a field that
    asks for an execution, an approval or an abort, decoding fails or the message
    that comes out still demands a reply; and of the fields that may demand one
    (execution, blob, abort, approval) it is the last that is handed on, with the
    type, the identifiers and the kind it has alone, whatever updates, checkpoints
    and unknown fields come before or after it. *)
Theorem requests_never_masked (fields : list (Number * bytes)) (m : decodedWireMessage) :
  Forall (fun f => 1 <= f.1 < 2 ^ 29) fields -> decodeServerMessage (encode_fields (uncurry FB <$> fields)) = Ok m ->
  (Exists (fun f => request_field f.1 = true) fields -> wireReplyRequired (wm_Type m) = true) /\
  (forall before number value after m1, fields = before ++ (number, value) :: after -> replying_field number = true ->
     Forall (fun f => replying_field f.1 = false) after ->
     decodeServerMessage (encode_fields [FB number value]) = Ok m1 -> wireReplyRequired (wm_Type m1) = true ->
     same_request number m m1).
Proof.
  intros Hl Hd. pose proof (decode_envelope fields new_message Hl) as E.
  rewrite (proj1 (decode_terminates _)) in E by lia. rewrite Hd in E. injection E as E. symmetry in E. split.
  - intros Hx. revert E. clear Hd Hl.
    generalize new_message as acc. assert (forall fields acc, wireReplyRequired (wm_Type acc) = true ->
      apply_fields_in_order acc fields = Ok m -> wireReplyRequired (wm_Type m) = true) as Hkeep.
    { clear. induction fields as [|[n v] fields IH]; intros acc R; cbn [apply_fields_in_order]; [by intros [= <-]|].
      destruct (applyServerBytesField acc n v) as [acc'|] eqn:E; [|done]. apply IH. by eapply field_keeps_request. }
    induction Hx as [[n v] fields Hn|[n v] fields _ IH]; intros acc; cbn [apply_fields_in_order];
      (destruct (applyServerBytesField acc n v) as [acc'|] eqn:E; [|done]).
    + apply Hkeep. by eapply field_requests.
    + apply IH.
  - intros before number value after m1 -> Hn Ha Hd1 R1.
    assert (Forall (fun f : Number * bytes => 1 <= f.1 < 2 ^ 29) [(number, value)]) as Hl1.
    { apply Forall_app in Hl as [_ Hl]. apply Forall_cons in Hl as [Hl _]. by constructor. }
    pose proof (decode_envelope [(number, value)] new_message Hl1) as E1.
    rewrite (proj1 (decode_terminates _)) in E1 by lia. change (uncurry FB <$> [(number, value)]) with [FB number value] in E1.
    rewrite Hd1 in E1. injection E1 as E1. cbn [apply_fields_in_order] in E1.
    destruct (applyServerBytesField new_message number value) as [m1'|] eqn:Ea; [|done]. injection E1 as <-.
    apply fields_in_order_app in E as (acc & _ & E). cbn [apply_fields_in_order] in E.
    destruct (applyServerBytesField acc number value) as [m'|] eqn:Eb; [|done].
    assert (same_request number m' m1) as Hs by (by eapply field_request_alone).
    apply fields_keep_message in E as ->; [done..|]. destruct Hs as [-> _]. done.
Qed.
End decode.

(** ** A concrete peer *)
Definition sample_agent : AgentProto := {|
  ap_InteractionUpdate data := Ok {| iu_Message := UpTextDelta (of_bytes data); iu_Unknown := [] |};
  ap_ExecServerMessage data := Ok {| ex_Id := 7; ex_ExecId := "exec-7"; ex_Message := ExShellArgs; ex_Unknown := [] |};
  ap_KvServerMessage data := Ok {| kv_Id := 1; kv_Message := KvGetBlob data; kv_Unknown := [] |};
  ap_InteractionQuery data := Ok {| iq_Id := 3; iq_Query := QyWebSearch (Some "call"); iq_Unknown := [] |};
  ap_ExecServerControlMessage data := Ok {| ec_Abort := Some 7; ec_Unknown := [] |};
  ap_Value data := Some (AnyString (of_bytes data));
  ap_AllowlistPrecheck id execID kind allowed := [] |}.
Definition no_json : JSON := {| json_unmarshal _ := None; json_marshal _ := None; json_valid _ := false |}.
Definition no_url : NetURL := {| url_Parse _ := None; net_ParseIP _ := false |}.
Definition sample_envelope : list (Number * bytes) := [(1, to_bytes "hello"); (2, []); (1, to_bytes "later"); (3, to_bytes "cp")].

Lemma decode_terminates_witness :
  @decodeServerMessage sample_protowire no_json sample_agent no_url [x12%byte; x05%byte; x00%byte] <> Fail stuck.
Proof. apply (@decode_terminates sample_protowire sample_protowire_laws no_json sample_agent no_url [x12%byte; x05%byte; x00%byte]). Defined.
Lemma requests_never_masked_witness :
  exists m, @decodeServerMessage sample_protowire no_json sample_agent no_url
              (@encode_fields sample_protowire (uncurry FB <$> sample_envelope)) = Ok m /\
            wm_Type m = wireShell /\ wm_ExecID m = "exec-7".
Proof.
  assert (exists m, @decodeServerMessage sample_protowire no_json sample_agent no_url
    (@encode_fields sample_protowire (uncurry FB <$> sample_envelope)) = Ok m) as [m Hm] by (eexists; vm_compute; reflexivity).
  assert (exists m1, @decodeServerMessage sample_protowire no_json sample_agent no_url
    (@encode_fields sample_protowire [FB 2 []]) = Ok m1 /\ wm_Type m1 = wireShell /\ wm_ExecID m1 = "exec-7") as (m1 & H1 & H2 & H3)
    by (eexists; split; [vm_compute; reflexivity|by split]).
  exists m. split; [exact Hm|].
  destruct (@requests_never_masked sample_protowire sample_protowire_laws no_json sample_agent no_url sample_envelope m) as [_ Hs].
  - repeat constructor; cbn; lia.
  - exact Hm.
  - destruct (Hs [(1, to_bytes "hello")] 2 [] [(1, to_bytes "later"); (3, to_bytes "cp")] m1) as (E1 & _ & E2 & _);
      [reflexivity|reflexivity|by repeat constructor|exact H1|by rewrite H2|].
    split; [by rewrite E1|by rewrite E2].
Defined.
