(* ===== verification/HostedRun.v ===== *)
(** * Hosted searches and tool announcements of a run (src/cursoragentv1/runner.go)

    Which approvals a run grants, how the updates of one hosted search are merged,
    and which streamed caller tools wait for their execution. *)
From stdpp Require Import base tactics list gmap strings sorting.
From Stdlib Require Import Strings.Byte.
From S2P Require Import Prelude GoStrings Connect Data HostedPolicy Segment Manager Wire Protocol.
Open Scope Z_scope.

(** ** Kinds *)
Definition hostedKindIsSearch (search : option HostedSearch) : bool :=
  match search with
  | Some s => bool_decide (hs_Kind s ∈ [HostedSearchKindWebSearch; HostedSearchKindExaSearch])
  | None => false
  end.
Definition hostedKindIsFetch (search : option HostedSearch) : bool :=
  match search with
  | Some s => bool_decide (hs_Kind s ∈ [HostedSearchKindWebFetch; HostedSearchKindExaFetch])
  | None => false
  end.
Definition hostedInteractionIsSearch (kind : Number) : bool := (kind =? 2) || (kind =? 5).
Definition hostedInteractionIsFetch (kind : Number) : bool := (kind =? 6) || (kind =? 9).

(** ** Approvals *)
Record hostedUseTracker := { hu_searchIDs : gset string; hu_fetchIDs : gset string }.
Definition newHostedUseTracker : hostedUseTracker := {| hu_searchIDs := ∅; hu_fetchIDs := ∅ |}.
Definition uses_count (uses : hostedUseTracker) : Z := Z.of_nat (size (hu_searchIDs uses) + size (hu_fetchIDs uses)).
Definition hostedUseID (message : decodedWireMessage) : string :=
  let id := TrimSpace (wm_ToolCallID message) in
  if negb (bool_decide (id = "")) then id
  else "anon:" +:+ Itoa (wm_InteractionKind message) +:+ ":" +:+ Itoa (wm_ID message).

(** One kind's set: a known id passes, a new one while the limit allows it. *)
Definition allow_in (ids : gset string) (id : string) (max : option Z) : bool * gset string :=
  if bool_decide (id ∈ ids) then (true, ids)
  else match max with
       | Some max => if max <=? Z.of_nat (size ids) then (false, ids) else (true, {[id]} ∪ ids)
       | None => (true, {[id]} ∪ ids)
       end.
Definition allow (uses : hostedUseTracker) (kind : Number) (id : string) (max : option Z) : bool * hostedUseTracker :=
  if hostedInteractionIsFetch kind then
    let '(ok, ids) := allow_in (hu_fetchIDs uses) id max in (ok, {| hu_searchIDs := hu_searchIDs uses; hu_fetchIDs := ids |})
  else if negb (hostedInteractionIsSearch kind) then (false, uses)
  else let '(ok, ids) := allow_in (hu_searchIDs uses) id max in (ok, {| hu_searchIDs := ids; hu_fetchIDs := hu_fetchIDs uses |}).

Definition disabled : string := "capability is not enabled by BeefAPI".
Definition hostedInteractionDecision (options : RunOptions) (message : decodedWireMessage) (uses : hostedUseTracker)
    : bool * string * hostedUseTracker :=
  let kind := wm_InteractionKind message in
  let id := hostedUseID message in
  if kind =? 4 then (false, disabled, uses)
  else if hostedInteractionIsSearch kind then
    if negb (ro_AllowHostedSearch options) then (false, disabled, uses)
    else match allow uses kind id (ro_HostedSearchMaxUses options) with
         | (false, uses) => (false, "hosted search exceeded max_uses", uses)
         | (true, uses) => (true, "", uses)
         end
  else if hostedInteractionIsFetch kind then
    if negb (ro_AllowHostedFetch options) then (false, disabled, uses)
    else match allow uses kind id (ro_HostedFetchMaxUses options) with
         | (false, uses) => (false, "hosted fetch exceeded max_uses", uses)
         | (true, uses) => (true, "", uses)
         end
  else (false, disabled, uses).

(** ** Updates of one search *)
Definition hostedSearchArgsReady (search : option HostedSearch) : bool :=
  match search with
  | None => false
  | Some s =>
      if hostedKindIsFetch search
      then negb (bool_decide (TrimSpace (hs_URL s) = "")) || negb (bool_decide (TrimSpace (hs_Query s) = ""))
      else negb (bool_decide (TrimSpace (hs_Query s) = ""))
  end.
Definition newer (next current : string) : string := if bool_decide (next = "") then current else next.
Definition mergeHostedSearch (current next : HostedSearch) : HostedSearch :=
  {| hs_CallID := hs_CallID current; hs_Kind := newer (hs_Kind next) (hs_Kind current);
     hs_Query := newer (hs_Query next) (hs_Query current); hs_URL := newer (hs_URL next) (hs_URL current);
     hs_ArgsJSON := newer (hs_ArgsJSON next) (hs_ArgsJSON current);
     hs_References := if bool_decide (hs_References next = []) then hs_References current else hs_References next;
     hs_Content := newer (hs_Content next) (hs_Content current); hs_Error := newer (hs_Error next) (hs_Error current) |}.
Definition set_CallID (id : string) (s : HostedSearch) : HostedSearch :=
  {| hs_CallID := id; hs_Kind := hs_Kind s; hs_Query := hs_Query s; hs_URL := hs_URL s; hs_ArgsJSON := hs_ArgsJSON s;
     hs_References := hs_References s; hs_Content := hs_Content s; hs_Error := hs_Error s |}.
Definition with_search (search : HostedSearch) (e : Event) : Event :=
  {| ev_Type := ev_Type e; ev_Text := ev_Text e; ev_Signature := ev_Signature e; ev_ProgressEvents := ev_ProgressEvents e;
     ev_Tokens := ev_Tokens e; ev_Usage := ev_Usage e; ev_Checkpoint := ev_Checkpoint e; ev_Blobs := ev_Blobs e;
     ev_ToolCall := ev_ToolCall e; ev_ToolResult := ev_ToolResult e; ev_HostedSearch := Some search |}.

(** The searches left open and the event to emit, if any. *)
Definition applyHostedSearchMessage (options : RunOptions) (message : decodedWireMessage) (open : gmap string HostedSearch)
    : result (gmap string HostedSearch * option Event) :=
  match wm_HostedSearch message with
  | None => Fail (ErrMsg "Cursor Agent v1 hosted search frame is missing its payload")
  | Some search =>
      let searchKind := hostedKindIsSearch (Some search) in
      let fetchKind := hostedKindIsFetch (Some search) in
      if negb searchKind && negb fetchKind then Fail (ErrMsg "Cursor Agent v1 hosted web tool kind is unsupported")
      else if searchKind && negb (ro_AllowHostedSearch options)
      then Fail (ErrMsg "Cursor Agent v1 hosted search is not enabled for this request")
      else if fetchKind && negb (ro_AllowHostedFetch options)
      then Fail (ErrMsg "Cursor Agent v1 hosted fetch is not enabled for this request")
      else
        let id := TrimSpace (hs_CallID search) in
        let '(id, search) := if bool_decide (id = "")
                             then let id := TrimSpace (wm_CallID message) in (id, set_CallID id search) else (id, search) in
        if bool_decide (id = "") then Fail (ErrMsg "Cursor Agent v1 hosted search is missing call_id")
        else
          let previous := open !! id in
          let search := match previous with Some previous => mergeHostedSearch previous search | None => search end in
          if bool_decide (wm_Type message = wireToolCallCompleted)
          then Ok (delete id open, Some (with_search search (event_of EventHostedSearchCompleted)))
          else
            let open := <[id := search]> open in
            if negb (hostedSearchArgsReady (Some search)) || hostedSearchArgsReady previous then Ok (open, None)
            else Ok (open, Some (with_search search (event_of EventHostedSearchStarted)))
  end.

(** ** Streamed caller tools *)
Definition catalogHasTool (tools : list ToolDefinition) (name : string) : bool :=
  existsb (fun tool => bool_decide (td_Name tool = name)) tools.
Definition recordStreamMCP (tools : list ToolDefinition) (message : decodedWireMessage)
    (pending streamed : gmap string decodedWireMessage) : gmap string decodedWireMessage :=
  let name := TrimSpace (wm_ToolName message) in
  let id := TrimSpace (wm_ToolCallID message) in
  let id' := if bool_decide (id = "") then TrimSpace (wm_CallID message) else id in
  if bool_decide (name = "") || bool_decide (id' = "") then streamed
  else if negb (catalogHasTool tools name) then streamed
  else if bool_decide (is_Some (pending !! id')) then streamed
  else <[id' := if bool_decide (id = "") then set_tool_call_id id' message else message]> streamed.
