(* ===== verification/Runner.v ===== *)
(** * The run loop (src/cursoragentv1/runner.go)

    [Runner.Run] as a transition system: the local variables of the loop are the
    state, what the [select] received is the input of one step, and everything the
    run does to the outside (events it emits, payloads it writes) is a log.  The
    heartbeat goroutine touches no variable of the loop and is left out; its frames
    interleave with the writes of the log. *)
From stdpp Require Import base tactics list gmap strings sorting.
From Stdlib Require Import Strings.Byte.
From S2P Require Import Prelude GoStrings JsonValue Connect Data HostedPolicy Usage Media HostedSearch Segment Manager Wire Protocol HostedRun.
Open Scope Z_scope.

(** ** State *)
(** What the run does: an event for the caller, a payload for the server. *)
(** [Decided] is a mark of the model: how an approval query of a kind was decided, for
    which use; the reply written next carries that decision. *)
Inductive action : Type :=
  Emit (e : Event) | Wrote (payload : bytes) | Decided (kind : Number) (use : string) (approve : bool).
(** [st_toolResults]: the channel variable is not nil.  The two [Executed] flags
    are the ones the [emit] closure sets. *)
Record runState := {
  st_blobStore : gmap string bytes; st_blobBytes : Z; st_buffer : bytes; st_turnEnded : bool; st_pendingTools : gmap
  string decodedWireMessage; st_streamMCP : gmap string decodedWireMessage; st_openHosted : gmap string
  HostedSearch; st_toolCallSeen : bool; st_parkSignaled : bool; st_queuedResults : gmap string ToolResult;
  st_hostedUses : hostedUseTracker; st_toolResults : bool; st_hostedSearchExecuted : bool; st_hostedFetchExecuted :
  bool; st_log : list action }.
Definition set_blobStore (x : gmap string bytes) (s : runState) : runState :=
  {| st_blobStore := x; st_blobBytes := st_blobBytes s; st_buffer := st_buffer s; st_turnEnded := st_turnEnded s;
     st_pendingTools := st_pendingTools s; st_streamMCP := st_streamMCP s; st_openHosted := st_openHosted s;
     st_toolCallSeen := st_toolCallSeen s; st_parkSignaled := st_parkSignaled s; st_queuedResults :=
     st_queuedResults s; st_hostedUses := st_hostedUses s; st_toolResults := st_toolResults s;
     st_hostedSearchExecuted := st_hostedSearchExecuted s; st_hostedFetchExecuted := st_hostedFetchExecuted s;
     st_log := st_log s |}.
Definition set_blobBytes (x : Z) (s : runState) : runState :=
  {| st_blobStore := st_blobStore s; st_blobBytes := x; st_buffer := st_buffer s; st_turnEnded := st_turnEnded s;
     st_pendingTools := st_pendingTools s; st_streamMCP := st_streamMCP s; st_openHosted := st_openHosted s;
     st_toolCallSeen := st_toolCallSeen s; st_parkSignaled := st_parkSignaled s; st_queuedResults :=
     st_queuedResults s; st_hostedUses := st_hostedUses s; st_toolResults := st_toolResults s;
     st_hostedSearchExecuted := st_hostedSearchExecuted s; st_hostedFetchExecuted := st_hostedFetchExecuted s;
     st_log := st_log s |}.
Definition set_buffer (x : bytes) (s : runState) : runState :=
  {| st_blobStore := st_blobStore s; st_blobBytes := st_blobBytes s; st_buffer := x; st_turnEnded := st_turnEnded s;
     st_pendingTools := st_pendingTools s; st_streamMCP := st_streamMCP s; st_openHosted := st_openHosted s;
     st_toolCallSeen := st_toolCallSeen s; st_parkSignaled := st_parkSignaled s; st_queuedResults :=
     st_queuedResults s; st_hostedUses := st_hostedUses s; st_toolResults := st_toolResults s;
     st_hostedSearchExecuted := st_hostedSearchExecuted s; st_hostedFetchExecuted := st_hostedFetchExecuted s;
     st_log := st_log s |}.
Definition set_turnEnded (x : bool) (s : runState) : runState :=
  {| st_blobStore := st_blobStore s; st_blobBytes := st_blobBytes s; st_buffer := st_buffer s; st_turnEnded := x;
     st_pendingTools := st_pendingTools s; st_streamMCP := st_streamMCP s; st_openHosted := st_openHosted s;
     st_toolCallSeen := st_toolCallSeen s; st_parkSignaled := st_parkSignaled s; st_queuedResults :=
     st_queuedResults s; st_hostedUses := st_hostedUses s; st_toolResults := st_toolResults s;
     st_hostedSearchExecuted := st_hostedSearchExecuted s; st_hostedFetchExecuted := st_hostedFetchExecuted s;
     st_log := st_log s |}.
Definition set_pendingTools (x : gmap string decodedWireMessage) (s : runState) : runState :=
  {| st_blobStore := st_blobStore s; st_blobBytes := st_blobBytes s; st_buffer := st_buffer s; st_turnEnded :=
     st_turnEnded s; st_pendingTools := x; st_streamMCP := st_streamMCP s; st_openHosted := st_openHosted s;
     st_toolCallSeen := st_toolCallSeen s; st_parkSignaled := st_parkSignaled s; st_queuedResults :=
     st_queuedResults s; st_hostedUses := st_hostedUses s; st_toolResults := st_toolResults s;
     st_hostedSearchExecuted := st_hostedSearchExecuted s; st_hostedFetchExecuted := st_hostedFetchExecuted s;
     st_log := st_log s |}.
Definition set_streamMCP (x : gmap string decodedWireMessage) (s : runState) : runState :=
  {| st_blobStore := st_blobStore s; st_blobBytes := st_blobBytes s; st_buffer := st_buffer s; st_turnEnded :=
     st_turnEnded s; st_pendingTools := st_pendingTools s; st_streamMCP := x; st_openHosted := st_openHosted s;
     st_toolCallSeen := st_toolCallSeen s; st_parkSignaled := st_parkSignaled s; st_queuedResults :=
     st_queuedResults s; st_hostedUses := st_hostedUses s; st_toolResults := st_toolResults s;
     st_hostedSearchExecuted := st_hostedSearchExecuted s; st_hostedFetchExecuted := st_hostedFetchExecuted s;
     st_log := st_log s |}.
Definition set_openHosted (x : gmap string HostedSearch) (s : runState) : runState :=
  {| st_blobStore := st_blobStore s; st_blobBytes := st_blobBytes s; st_buffer := st_buffer s; st_turnEnded :=
     st_turnEnded s; st_pendingTools := st_pendingTools s; st_streamMCP := st_streamMCP s; st_openHosted := x;
     st_toolCallSeen := st_toolCallSeen s; st_parkSignaled := st_parkSignaled s; st_queuedResults :=
     st_queuedResults s; st_hostedUses := st_hostedUses s; st_toolResults := st_toolResults s;
     st_hostedSearchExecuted := st_hostedSearchExecuted s; st_hostedFetchExecuted := st_hostedFetchExecuted s;
     st_log := st_log s |}.
Definition set_toolCallSeen (x : bool) (s : runState) : runState :=
  {| st_blobStore := st_blobStore s; st_blobBytes := st_blobBytes s; st_buffer := st_buffer s; st_turnEnded :=
     st_turnEnded s; st_pendingTools := st_pendingTools s; st_streamMCP := st_streamMCP s; st_openHosted :=
     st_openHosted s; st_toolCallSeen := x; st_parkSignaled := st_parkSignaled s; st_queuedResults :=
     st_queuedResults s; st_hostedUses := st_hostedUses s; st_toolResults := st_toolResults s;
     st_hostedSearchExecuted := st_hostedSearchExecuted s; st_hostedFetchExecuted := st_hostedFetchExecuted s;
     st_log := st_log s |}.
Definition set_parkSignaled (x : bool) (s : runState) : runState :=
  {| st_blobStore := st_blobStore s; st_blobBytes := st_blobBytes s; st_buffer := st_buffer s; st_turnEnded :=
     st_turnEnded s; st_pendingTools := st_pendingTools s; st_streamMCP := st_streamMCP s; st_openHosted :=
     st_openHosted s; st_toolCallSeen := st_toolCallSeen s; st_parkSignaled := x; st_queuedResults :=
     st_queuedResults s; st_hostedUses := st_hostedUses s; st_toolResults := st_toolResults s;
     st_hostedSearchExecuted := st_hostedSearchExecuted s; st_hostedFetchExecuted := st_hostedFetchExecuted s;
     st_log := st_log s |}.
Definition set_queuedResults (x : gmap string ToolResult) (s : runState) : runState :=
  {| st_blobStore := st_blobStore s; st_blobBytes := st_blobBytes s; st_buffer := st_buffer s; st_turnEnded :=
     st_turnEnded s; st_pendingTools := st_pendingTools s; st_streamMCP := st_streamMCP s; st_openHosted :=
     st_openHosted s; st_toolCallSeen := st_toolCallSeen s; st_parkSignaled := st_parkSignaled s; st_queuedResults
     := x; st_hostedUses := st_hostedUses s; st_toolResults := st_toolResults s; st_hostedSearchExecuted :=
     st_hostedSearchExecuted s; st_hostedFetchExecuted := st_hostedFetchExecuted s; st_log := st_log s |}.
Definition set_hostedUses (x : hostedUseTracker) (s : runState) : runState :=
  {| st_blobStore := st_blobStore s; st_blobBytes := st_blobBytes s; st_buffer := st_buffer s; st_turnEnded :=
     st_turnEnded s; st_pendingTools := st_pendingTools s; st_streamMCP := st_streamMCP s; st_openHosted :=
     st_openHosted s; st_toolCallSeen := st_toolCallSeen s; st_parkSignaled := st_parkSignaled s; st_queuedResults
     := st_queuedResults s; st_hostedUses := x; st_toolResults := st_toolResults s; st_hostedSearchExecuted :=
     st_hostedSearchExecuted s; st_hostedFetchExecuted := st_hostedFetchExecuted s; st_log := st_log s |}.
Definition set_toolResults (x : bool) (s : runState) : runState :=
  {| st_blobStore := st_blobStore s; st_blobBytes := st_blobBytes s; st_buffer := st_buffer s; st_turnEnded :=
     st_turnEnded s; st_pendingTools := st_pendingTools s; st_streamMCP := st_streamMCP s; st_openHosted :=
     st_openHosted s; st_toolCallSeen := st_toolCallSeen s; st_parkSignaled := st_parkSignaled s; st_queuedResults
     := st_queuedResults s; st_hostedUses := st_hostedUses s; st_toolResults := x; st_hostedSearchExecuted :=
     st_hostedSearchExecuted s; st_hostedFetchExecuted := st_hostedFetchExecuted s; st_log := st_log s |}.
Definition set_hostedSearchExecuted (x : bool) (s : runState) : runState :=
  {| st_blobStore := st_blobStore s; st_blobBytes := st_blobBytes s; st_buffer := st_buffer s; st_turnEnded :=
     st_turnEnded s; st_pendingTools := st_pendingTools s; st_streamMCP := st_streamMCP s; st_openHosted :=
     st_openHosted s; st_toolCallSeen := st_toolCallSeen s; st_parkSignaled := st_parkSignaled s; st_queuedResults
     := st_queuedResults s; st_hostedUses := st_hostedUses s; st_toolResults := st_toolResults s;
     st_hostedSearchExecuted := x; st_hostedFetchExecuted := st_hostedFetchExecuted s; st_log := st_log s |}.
Definition set_hostedFetchExecuted (x : bool) (s : runState) : runState :=
  {| st_blobStore := st_blobStore s; st_blobBytes := st_blobBytes s; st_buffer := st_buffer s; st_turnEnded :=
     st_turnEnded s; st_pendingTools := st_pendingTools s; st_streamMCP := st_streamMCP s; st_openHosted :=
     st_openHosted s; st_toolCallSeen := st_toolCallSeen s; st_parkSignaled := st_parkSignaled s; st_queuedResults
     := st_queuedResults s; st_hostedUses := st_hostedUses s; st_toolResults := st_toolResults s;
     st_hostedSearchExecuted := st_hostedSearchExecuted s; st_hostedFetchExecuted := x; st_log := st_log s |}.
Definition set_log (x : list action) (s : runState) : runState :=
  {| st_blobStore := st_blobStore s; st_blobBytes := st_blobBytes s; st_buffer := st_buffer s; st_turnEnded :=
     st_turnEnded s; st_pendingTools := st_pendingTools s; st_streamMCP := st_streamMCP s; st_openHosted :=
     st_openHosted s; st_toolCallSeen := st_toolCallSeen s; st_parkSignaled := st_parkSignaled s; st_queuedResults
     := st_queuedResults s; st_hostedUses := st_hostedUses s; st_toolResults := st_toolResults s;
     st_hostedSearchExecuted := st_hostedSearchExecuted s; st_hostedFetchExecuted := st_hostedFetchExecuted s;
     st_log := x |}.

(** ** Effects *)
(** The loop goes on, or [Run] returns nil. *)
Inductive control : Type := Continue | Finished.
Definition run (A : Type) : Type := runState -> result A * runState.
Definition run_ret {A} (a : A) : run A := fun s => (Ok a, s).
Definition run_bind {A B} (m : run A) (k : A -> run B) : run B :=
  fun s => match m s with (Ok a, s) => k a s | (Fail e, s) => (Fail e, s) end.
Definition run_fail {A} (e : Err) : run A := fun s => (Fail e, s).
Definition run_get {A} (f : runState -> A) : run A := fun s => (Ok (f s), s).
Definition run_modify (f : runState -> runState) : run unit := fun s => (Ok tt, f s).
Definition run_lift {A} (r : result A) : run A := fun s => (r, s).
Declare Scope run_scope.
Delimit Scope run_scope with run.
Notation "x <- m ;; k" := (run_bind m (fun x => k)) (at level 100, m at next level, right associativity) : run_scope.
Notation "m ;;; k" := (run_bind m (fun _ => k)) (at level 100, right associativity) : run_scope.
Open Scope run_scope.

Definition log_action (a : action) (s : runState) : runState := set_log (st_log s ++ [a]) s.
Definition is_hosted_progress (e : Event) : bool :=
  bool_decide (ev_Type e = EventHostedSearchStarted) || bool_decide (ev_Type e = EventHostedSearchCompleted).
(** The [emit] closure. *)
Definition emit (e : Event) : run unit :=
  run_modify (fun s =>
    let s := if is_hosted_progress e && hostedKindIsSearch (ev_HostedSearch e) then set_hostedSearchExecuted true s else s in
    let s := if is_hosted_progress e && hostedKindIsFetch (ev_HostedSearch e) then set_hostedFetchExecuted true s else s in
    log_action (Emit e) s).
Definition with_result (r : ToolResult) (e : Event) : Event :=
  {| ev_Type := ev_Type e; ev_Text := ev_Text e; ev_Signature := ev_Signature e; ev_ProgressEvents := ev_ProgressEvents e;
     ev_Tokens := ev_Tokens e; ev_Usage := ev_Usage e; ev_Checkpoint := ev_Checkpoint e; ev_Blobs := ev_Blobs e;
     ev_ToolCall := ev_ToolCall e; ev_ToolResult := Some r; ev_HostedSearch := ev_HostedSearch e |}.

Section runner.
Context `{Protowire} `{JSON} `{AgentProto} `{NetURL}.
(** Whether the write after the logged ones fails; at most so many bytes of a gzip
    stream; the error object of a Connect trailer. *)
Context (write_error : list action -> option Err) (gzip_read : Z -> bytes -> result bytes)
        (decodeTrailer : bytes -> option (option (string * string))).

(** [writeConnectPayload(upstream, payload)]: the log keeps the payload of what was
    handed to the stream. *)
Definition stream_write (payload frame : bytes) (s : runState) : result unit * runState :=
  match write_error (st_log s) with Some e => (Fail e, s) | None => (Ok tt, log_action (Wrote payload) s) end.
Definition write (payload : bytes) : run unit := writeConnectPayload (stream_write payload) payload.

Definition decompressConnectPayload (payload : bytes) : result bytes :=
  match gzip_read (maxConnectPayloadSize + 1) payload with
  | Fail e => Fail (ErrWrap "decompress Cursor Agent v1 frame" e)
  | Ok decoded =>
      if maxConnectPayloadSize <? blen decoded
      then Fail (errExceedsConnectLimit "decompressed Cursor Agent v1 frame") else Ok decoded
  end.

(** ** Tool results *)
Definition sendToolResult (pending : decodedWireMessage) (result : ToolResult) : run unit :=
  write (encodeMCPResult (wm_ID pending) (wm_ExecID pending) result) ;;;
  run_modify (fun s => set_pendingTools (delete (tr_ToolCallID result) (st_pendingTools s)) s) ;;;
  run_modify (fun s => if bool_decide (st_pendingTools s = ∅) then set_parkSignaled false s else s) ;;;
  emit (with_result result (event_of EventToolResultAccepted)).
Definition trim_result (r : ToolResult) : ToolResult :=
  {| tr_ToolCallID := TrimSpace (tr_ToolCallID r); tr_Content := tr_Content r; tr_IsError := tr_IsError r; tr_Media := tr_Media r |}.
Definition on_tool_result (result : ToolResult) : run control :=
  let result := trim_result result in
  let id := tr_ToolCallID result in
  if bool_decide (id = "") then run_fail (ErrMsg "Cursor Agent v1 tool result id is required")
  else
    pending <- run_get (fun s => st_pendingTools s !! id) ;;
    match pending with
    | None =>
        queued <- run_get st_queuedResults ;;
        if maxPendingTools <=? Z.of_nat (size queued)
        then run_fail (ErrMsg ("Cursor Agent v1 queued tool results exceed " +:+ Itoa maxPendingTools))
        else run_modify (set_queuedResults (<[id := result]> queued)) ;;; run_ret Continue
    | Some pending => sendToolResult pending result ;;; run_ret Continue
    end.

(** ** One server message *)
Section handlers.
(** The request and the normalised catalog the run was opened with. *)
Context (request : RunRequest) (tools : list ToolDefinition).
Local Notation options := (rr_Options request).

Definition emit_text (t : EventType) (text : string) : run unit :=
  if bool_decide (text = "") then run_ret tt else emit (with_text text (event_of t)).
Definition unmatchedStreamMCPName (streamed : gmap string decodedWireMessage) : string :=
  default "unknown" (List.find (fun name => negb (bool_decide (name = ""))) ((fun e => TrimSpace (wm_ToolName e.2)) <$> map_to_list streamed)).

(** The turn is parked once per batch. *)
Definition park : run unit := run_modify (set_parkSignaled true) ;;; emit (event_of EventTurnEnded).
Definition on_turn_ended (usage : option UsageObservation) : run unit :=
  run_modify (set_turnEnded true) ;;;
  emit (with_usage 0 (Some (default (no_usage UsageKindTurnEnded noCount) usage)) (event_of EventUsageObservation)) ;;;
  parked <- run_get (fun s => bool_decide (st_pendingTools s = ∅) || st_parkSignaled s) ;;
  if parked : bool then run_ret tt else park.

Definition on_hosted (message : decodedWireMessage) : run unit :=
  open <- run_get st_openHosted ;;
  r <- run_lift (applyHostedSearchMessage options message open) ;;
  let '(open, event) := r in
  run_modify (set_openHosted open) ;;;
  match event with Some e => emit e | None => run_ret tt end.

(** A stored blob is a copy made by [append([]byte(nil), value...)]: nil when empty. *)
Definition stored_blob (blob : option bytes) : option bytes := match blob with Some [] => None | _ => blob end.
Definition on_kv_set (message : decodedWireMessage) : run unit :=
  store <- run_get st_blobStore ;; total <- run_get st_blobBytes ;;
  r <- run_lift (storeBlob store total (hexKey (wm_BlobID message)) (wm_BlobData message) maxBlobSize maxBlobStoreSize) ;;
  let '(store, total) := r in
  run_modify (set_blobStore store) ;;; run_modify (set_blobBytes total) ;;;
  write (encodeKVSetResult (wm_ID message)).

Definition context_policy (s : runState) : requestContextPolicy :=
  let fresh := negb (rr_Resume request) in
  {| cx_AllowHostedSearch := ro_AllowHostedSearch options; cx_AllowHostedFetch := ro_AllowHostedFetch options;
     cx_RequireToolCall := ro_RequireToolCall options && fresh && negb (st_toolCallSeen s);
     cx_RequireHostedSearch := ro_RequireHostedSearch options && fresh && negb (st_hostedSearchExecuted s);
     cx_RequireHostedFetch := ro_RequireHostedFetch options && fresh && negb (st_hostedFetchExecuted s);
     cx_RequireHostedTool := ro_RequireHostedTool options && fresh && negb (st_hostedSearchExecuted s) && negb (st_hostedFetchExecuted s) |}.

Definition on_interaction_query (message : decodedWireMessage) : run unit :=
  let id := wm_ID message in
  let kind := wm_InteractionKind message in
  uses <- run_get st_hostedUses ;;
  r <- (if bool_decide (kind ∈ [2; 4; 5; 6; 9]) then
          let '(approve, reason, uses') := hostedInteractionDecision options message uses in
          run_modify (set_hostedUses uses') ;;;
          response <- run_lift (encodeInteractionDecision id kind approve reason) ;;
          run_modify (log_action (Decided kind (hostedUseID message) approve)) ;;;
          run_ret (response, approve && bool_decide (kind ∈ [2; 5; 6; 9]))
        else if kind =? 3 then run_ret (encodeAskQuestionRejected id "interactive questions are unavailable through BeefAPI", false)
        else if kind =? 7 then run_ret (encodeCreatePlanError id "plan creation is unavailable through BeefAPI", false)
        else run_fail (errInteractionKind kind)) ;;
  let '(response, hostedSearchApproved) := r in
  write response ;;;
  uses' <- run_get st_hostedUses ;;
  if hostedSearchApproved && (uses_count uses <? uses_count uses') then emit (event_of EventHostedSearchCall) else run_ret tt.

(** The answer every native tool gets: the reply's field, the rejection's and its
    reason's, and the text. *)
Definition native_rejection (t : wireMessageType) (id : Z) (execID : string) : option bytes :=
  match t with
  | wireShell => Some (encodeExecRejected id execID 2 4 3 "shell execution is disabled on the BeefAPI sidecar")
  | wireShellStream => Some (encodeExecRejected id execID 14 5 3 "shell streaming is disabled on the BeefAPI sidecar")
  | wireBackgroundShell => Some (encodeExecRejected id execID 16 3 3 "background shell execution is disabled on the BeefAPI sidecar")
  | wireRead => Some (encodeExecRejected id execID 7 3 2 "workspace reads are disabled on the BeefAPI sidecar")
  | wireWrite => Some (encodeExecRejected id execID 3 6 2 "workspace writes are disabled on the BeefAPI sidecar")
  | wireDelete => Some (encodeExecRejected id execID 4 6 2 "workspace deletes are disabled on the BeefAPI sidecar")
  | wireList => Some (encodeExecRejected id execID 8 3 2 "workspace listing is disabled on the BeefAPI sidecar")
  | wireGrep => Some (encodeExecError id execID 5 "workspace search is disabled on the BeefAPI sidecar")
  | wireFetch => Some (encodeFetchError id execID "arbitrary fetch is disabled on the BeefAPI sidecar")
  | wireDiagnostics => Some (encodeExecRejected id execID 9 3 2 "workspace diagnostics are disabled on the BeefAPI sidecar")
  | _ => None
  end.

Definition tool_call_of (message : decodedWireMessage) : ToolCall :=
  {| tc_MessageID := wm_ID message; tc_ExecID := wm_ExecID message; tc_ToolCallID := wm_ToolCallID message;
     tc_Name := wm_ToolName message; tc_Arguments := wm_ToolArguments message |}.
Definition on_mcp (message : decodedWireMessage) : run control :=
  open <- run_get st_toolResults ;;
  if negb open then
    write (encodeExecRejected (wm_ID message) (wm_ExecID message) 11 3 1 "caller-tool continuation is unavailable") ;;; run_ret Continue
  else
    let message := set_tool_call_id (TrimSpace (wm_ToolCallID message)) message in
    let id := wm_ToolCallID message in
    if bool_decide (id = "") then run_fail (ErrMsg "Cursor Agent v1 MCP call is missing tool_call_id")
    else
      run_modify (fun s => set_streamMCP (delete id (st_streamMCP s)) s) ;;;
      pending <- run_get st_pendingTools ;;
      let fresh := bool_decide (pending !! id = None) in
      if fresh && (maxPendingTools <=? Z.of_nat (size pending))
      then run_fail (ErrMsg ("Cursor Agent v1 pending tools exceed " +:+ Itoa maxPendingTools))
      else if fresh && (0 <? ro_MaxParallelTools options) && (ro_MaxParallelTools options <=? Z.of_nat (size pending))
      then run_fail (ErrMsg "Cursor Agent v1 returned parallel caller tools when the client disabled them")
      else
        run_modify (set_toolCallSeen true) ;;;
        run_modify (set_pendingTools (<[id := message]> pending)) ;;;
        queued <- run_get (fun s => st_queuedResults s !! id) ;;
        match queued with
        | Some result =>
            run_modify (fun s => set_queuedResults (delete id (st_queuedResults s)) s) ;;;
            sendToolResult message result ;;; run_ret Continue
        | None =>
            emit (with_tool_call (Some (tool_call_of message)) (event_of EventToolCall)) ;;;
            if negb (bool_decide (HistoryRequestKey request = "")) then emit (event_of EventDone) ;;; run_ret Finished
            else
              parked <- run_get st_parkSignaled ;;
              (if (ro_MaxParallelTools options =? 1) && negb parked then park else run_ret tt) ;;; run_ret Continue
        end.

Definition on_message (message : decodedWireMessage) : run control :=
  match wm_Type message with
  | wireMCP => on_mcp message
  | wireExecAbort => run_fail (ErrMsg ("Cursor Agent v1 server aborted exec " +:+ Itoa (wm_ID message)))
  | wireUnsupportedExec =>
      let detail := TrimSpace (wm_Text message) in
      run_fail (ErrMsg ("Cursor Agent v1 server requested an unsupported exec operation: " +:+
                        (if bool_decide (detail = "") then "unknown exec variant" else detail)))
  | t =>
      match t with
      | wireTextDelta => emit_text EventText (wm_Text message)
      | wireThinkingDelta => emit_text EventThinking (wm_Text message)
      | wireThinkingCompleted => emit (event_of EventThinkingCompleted)
      | wireToolCallStarted | wireToolCallDelta | wireToolCallCompleted => on_hosted message
      | wireStreamMCP =>
          run_modify (fun s => set_streamMCP (recordStreamMCP (rr_Tools request) message (st_pendingTools s) (st_streamMCP s)) s)
      | wireAllowlistPrecheck =>
          response <- run_lift (encodeAllowlistPrecheck (wm_ID message) (wm_ExecID message) (wm_AllowlistKind message) false) ;;
          write response
      | wireTokenDelta => emit (with_usage (wm_TokenDelta message) (wm_Usage message) (event_of EventUsage))
      | wireCheckpoint =>
          blobs <- run_get st_blobStore ;; emit (with_payload (wm_Checkpoint message) blobs (event_of EventCheckpoint))
      | wireTurnEnded => on_turn_ended (wm_Usage message)
      | wireKVGet =>
          blob <- run_get (fun s => stored_blob (st_blobStore s !! hexKey (wm_BlobID message))) ;;
          write (encodeKVGetResult (wm_ID message) blob)
      | wireKVSet => on_kv_set message
      | wireRequestContext =>
          policy <- run_get context_policy ;;
          write (encodeRequestContextResult (wm_ID message) (wm_ExecID message) (ro_SystemText options) tools policy)
      | wireInteractionQuery => on_interaction_query message
      | _ => match native_rejection t (wm_ID message) (wm_ExecID message) with Some response => write response | None => run_ret tt end
      end ;;; run_ret Continue
  end.

(** ** The end of the stream *)
Definition missing_hosted (s : runState) : option string :=
  let fresh := negb (rr_Resume request) in
  if ro_RequireHostedSearch options && fresh && negb (st_hostedSearchExecuted s) then Some "search"
  else if ro_RequireHostedFetch options && fresh && negb (st_hostedFetchExecuted s) then Some "fetch"
  else if ro_RequireHostedTool options && fresh && negb (st_hostedSearchExecuted s) && negb (st_hostedFetchExecuted s) then Some "web tool"
  else None.
Definition on_end_stream (payload : bytes) : run control :=
  match parseConnectEndStream decodeTrailer payload with
  | Some e => run_fail e
  | None =>
      s <- run_get (fun s => s) ;;
      if negb (st_turnEnded s) then run_fail (ErrMsg "Cursor Agent v1 stream ended before turnEnded")
      else if negb (bool_decide (st_pendingTools s = ∅))
      then run_fail (ErrMsg ("Cursor Agent v1 stream ended with " +:+ Itoa (Z.of_nat (size (st_pendingTools s))) +:+ " pending tool call(s)"))
      else if negb (bool_decide (st_streamMCP s = ∅))
      then run_fail (ErrMsg ("Cursor Agent v1 streamed caller tool " +:+ Quote (unmatchedStreamMCPName (st_streamMCP s)) +:+ " without a matching exec"))
      else if negb (bool_decide (st_openHosted s = ∅))
      then run_fail (ErrMsg ("Cursor Agent v1 stream ended with " +:+ Itoa (Z.of_nat (size (st_openHosted s))) +:+ " incomplete hosted search call(s)"))
      else match missing_hosted s with
           | Some what => run_fail (ErrMsg ("Cursor Agent v1 completed without the required hosted " +:+ what))
           | None => emit (event_of EventDone) ;;; run_ret Finished
           end
  end.

(** ** Frames and chunks *)
Definition has_flag (flags flag : byte) : bool := negb (Z.land (byteZ flags) (byteZ flag) =? 0).
Definition on_frame (flags : byte) (payload : bytes) : run control :=
  payload <- (if has_flag flags connectCompressionFlag then run_lift (decompressConnectPayload payload) else run_ret payload) ;;
  if has_flag flags connectEndStreamFlag then on_end_stream payload
  else message <- run_lift (decodeServerMessage payload) ;; on_message message.

(** The inner loop over the complete frames of the buffer. *)
Fixpoint frames_loop (fuel : nat) : run control :=
  match fuel with
  | O => run_ret Continue
  | S fuel =>
      buffer <- run_get st_buffer ;;
      frame <- run_lift (parseConnectFrame buffer) ;;
      match frame with
      | None => run_ret Continue
      | Some (flags, payload, consumed) =>
          run_modify (set_buffer (drop consumed buffer)) ;;;
          c <- on_frame flags payload ;;
          match c with Finished => run_ret Finished | Continue => frames_loop fuel end
      end
  end.
Definition on_chunk (chunk : bytes) : run control :=
  run_modify (fun s => set_buffer (st_buffer s ++ chunk) s) ;;;
  fuel <- run_get (fun s => S (length (st_buffer s))) ;; frames_loop fuel.

(** ** The select *)
Inductive input : Type :=
  | Cancelled (e : Err) | IdleTimeout | ToolResultReceived (r : ToolResult) | ToolResultsClosed
  | Chunk (data : bytes) | DataClosed (err : option Err).
Definition errIdle : Err := ErrMsg "Cursor Agent v1 received no frames for the idle timeout".
Definition errNoTrailer : Err := ErrMsg "Cursor Agent v1 HTTP/2 stream closed without Connect terminal trailer".
(** A nil channel is never ready: results can only be received while the channel
    variable holds one. *)
Definition on_input (i : input) : run control :=
  match i with
  | Cancelled e => run_fail e
  | IdleTimeout =>
      pending <- run_get st_pendingTools ;; if bool_decide (pending = ∅) then run_fail errIdle else run_ret Continue
  | ToolResultReceived r => open <- run_get st_toolResults ;; if open : bool then on_tool_result r else run_ret Continue
  | ToolResultsClosed => run_modify (set_toolResults false) ;;; run_ret Continue
  | Chunk chunk => on_chunk chunk
  | DataClosed err => run_fail (default errNoTrailer err)
  end.
(** [Ok true]: the run returned nil; [Ok false]: it waits for the next input. *)
Fixpoint run_inputs (inputs : list input) : run bool :=
  match inputs with
  | [] => run_ret false
  | i :: inputs => c <- on_input i ;; match c with Finished => run_ret true | Continue => run_inputs inputs end
  end.
End handlers.

(** ** Opening *)
Section opening.
(** [unicode_lower], [image_size] and the identifiers [uuid.NewString] returns, as
    in [encodeRunRequest]; whether [opener.Open] fails for these native tools. *)
Context (unicode_lower : string -> string) (image_size : bytes -> option (Z * Z)) (ids : nat -> string)
        (open_error : RunOptions -> list string -> option Err).
Definition canonical_schema (schema : bytes) : option bytes :=
  match json_unmarshal schema with Some (AnyMap m) => json_marshal (AnyMap m) | _ => None end.
Definition allowed_tools (options : RunOptions) : list string :=
  ["mcp_tool_call"] ++ (if ro_AllowHostedSearch options then ["web_search_tool_call"] else [])
  ++ (if ro_AllowHostedFetch options then ["web_fetch_tool_call"] else []).
Definition wire_request (request : RunRequest) (tools : list ToolDefinition) : runWireRequest :=
  let options := rr_Options request in
  {| rw_Model := TrimSpace (ro_Model options); rw_ConversationID := TrimSpace (rr_ConversationID request);
     rw_UserText := rr_UserText request; rw_UserMedia := ro_UserMedia options; rw_SystemText := ro_SystemText options;
     rw_Tools := tools; rw_HistoryMessages := ro_HistoryMessages options; rw_BlobStore := rr_InitialBlobs request;
     rw_Checkpoint := rr_InitialCheckpoint request; rw_Resume := rr_Resume request |}.
Definition initial_state (store : gmap string bytes) (total : Z) (toolResults : bool) : runState :=
  {| st_blobStore := store; st_blobBytes := total; st_buffer := []; st_turnEnded := false; st_pendingTools := ∅;
     st_streamMCP := ∅; st_openHosted := ∅; st_toolCallSeen := false; st_parkSignaled := false; st_queuedResults := ∅;
     st_hostedUses := newHostedUseTracker; st_toolResults := toolResults; st_hostedSearchExecuted := false;
     st_hostedFetchExecuted := false; st_log := [] |}.
(** Everything before the loop; [toolResults]: the request came with a channel. *)
Definition open_run (request : RunRequest) (toolResults : bool) : result (list ToolDefinition * runState) :=
  if bool_decide (TrimSpace (rr_UserText request) = "") && negb (rr_Resume request)
  then Fail (ErrMsg "Cursor Agent v1 requires a non-empty user turn or resume action")
  else
    rbind (normalizeToolDefinitions canonical_schema (rr_Tools request)) (fun tools =>
    rbind (encodeRunRequest unicode_lower image_size ids (wire_request request tools)) (fun '(payload, store) =>
    if maxConnectPayloadSize <? blen payload then Fail (errExceedsConnectLimit "Cursor Agent v1 run payload")
    else rbind (validateBlobStore store maxBlobSize maxBlobStoreSize) (fun total =>
         match open_error (rr_Options request) (allowed_tools (rr_Options request)) with
         | Some e => Fail e
         | None => match write payload (initial_state store total toolResults) with
                   | (Ok _, s) => Ok (tools, s)
                   | (Fail e, _) => Fail e
                   end
         end))).
Definition Run (request : RunRequest) (toolResults : bool) (inputs : list input) : result bool * list action :=
  match open_run request toolResults with
  | Fail e => (Fail e, [])
  | Ok (tools, s) => let '(r, s) := run_inputs request tools inputs s in (r, st_log s)
  end.
End opening.
End runner.
