(* ===== verification/RunnerLogic.v ===== *)
(** * Reasoning about the run loop

    Weakest preconditions of the run's effects, and lifting a property of single
    messages to frames, chunks and whole runs. *)
From stdpp Require Import base tactics list gmap strings sorting.
From Stdlib Require Import Strings.Byte.
From S2P Require Import Prelude GoStrings JsonValue Connect Data HostedPolicy Usage Media HostedSearch Segment Manager Wire Protocol HostedRun Runner.
Open Scope Z_scope.
Open Scope run_scope.

Definition rwp {A} (m : run A) (Q : result A -> runState -> Prop) (s : runState) : Prop := Q (m s).1 (m s).2.
(** What holds of a value, and [E] of an error. *)
Definition okay {A} (Q : A -> runState -> Prop) (E : runState -> Prop) (r : result A) (s : runState) : Prop :=
  match r with Ok a => Q a s | Fail _ => E s end.

Lemma rwp_bind {A B} (m : run A) (k : A -> run B) Q E s :
  rwp m (okay (fun a => rwp (k a) (okay Q E)) E) s -> rwp (run_bind m k) (okay Q E) s.
Proof. unfold rwp, run_bind. by destruct (m s) as [[a|e] s']. Qed.
Lemma rwp_ret {A} (a : A) Q E s : Q a s -> rwp (run_ret a) (okay Q E) s.
Proof. done. Qed.
Lemma rwp_fail {A} e (Q : A -> _ -> Prop) (E : _ -> Prop) s : E s -> rwp (run_fail e) (okay Q E) s.
Proof. done. Qed.
Lemma rwp_get {A} f (Q : A -> _ -> Prop) E s : Q (f s) s -> rwp (run_get f) (okay Q E) s.
Proof. done. Qed.
Lemma rwp_modify f (Q : unit -> _ -> Prop) E s : Q tt (f s) -> rwp (run_modify f) (okay Q E) s.
Proof. done. Qed.
Lemma rwp_lift {A} r (Q : A -> _ -> Prop) (E : _ -> Prop) s :
  (forall a, r = Ok a -> Q a s) -> E s -> rwp (run_lift r) (okay Q E) s.
Proof. unfold rwp. destruct r; cbn; auto. Qed.
Lemma rwp_mono {A} (m : run A) (Q Q' : A -> _ -> Prop) (E E' : _ -> Prop) s :
  rwp m (okay Q E) s -> (forall a s, Q a s -> Q' a s) -> (forall s, E s -> E' s) -> rwp m (okay Q' E') s.
Proof. unfold rwp. destruct (m s) as [[a|e] s']; cbn; auto. Qed.

(** [emit] logs the event and sets the flags. *)
Definition emitted (e : Event) (s : runState) : runState := (emit e s).2.
Lemma rwp_emit e (Q : unit -> _ -> Prop) E s : Q tt (emitted e s) -> rwp (emit e) (okay Q E) s.
Proof. done. Qed.

(** The parts of the state [emit] and [write] leave alone. *)
Lemma emitted_fields e s :
  st_blobStore (emitted e s) = st_blobStore s /\ st_blobBytes (emitted e s) = st_blobBytes s /\
  st_buffer (emitted e s) = st_buffer s /\ st_turnEnded (emitted e s) = st_turnEnded s /\
  st_pendingTools (emitted e s) = st_pendingTools s /\ st_streamMCP (emitted e s) = st_streamMCP s /\
  st_openHosted (emitted e s) = st_openHosted s /\ st_queuedResults (emitted e s) = st_queuedResults s /\
  st_hostedUses (emitted e s) = st_hostedUses s /\ st_log (emitted e s) = st_log s ++ [Emit e].
Proof. unfold emitted, emit. cbn. by destruct (is_hosted_progress e && _), (is_hosted_progress e && _). Qed.

Section writes.
Context (write_error : list action -> option Err).
Lemma rwp_write p (Q : unit -> _ -> Prop) (E : _ -> Prop) s :
  Q tt (log_action (Wrote p) s) -> E s -> rwp (write write_error p) (okay Q E) s.
Proof.
  intros HQ HE. unfold rwp, write, writeConnectPayload, stream_write. destruct (_ <? _); [done|]. by destruct (write_error _).
Qed.
End writes.

(** Read the fields of an assigned state. *)
Ltac st_simpl :=
  cbn [st_blobStore st_blobBytes st_buffer st_turnEnded st_pendingTools st_streamMCP st_openHosted st_toolCallSeen st_parkSignaled st_queuedResults st_hostedUses st_toolResults st_hostedSearchExecuted st_hostedFetchExecuted st_log
    set_blobStore set_blobBytes set_buffer set_turnEnded set_pendingTools set_streamMCP set_openHosted set_toolCallSeen set_parkSignaled set_queuedResults set_hostedUses set_toolResults set_hostedSearchExecuted set_hostedFetchExecuted set_log log_action].

(** Run the effects of a goal [rwp m (okay Q E) s]. *)
Ltac rwp_step :=
  lazymatch goal with
  | |- rwp (run_bind _ _) _ _ => apply rwp_bind
  | |- rwp (run_ret _) _ _ => apply rwp_ret
  | |- rwp (run_fail _) _ _ => apply rwp_fail
  | |- rwp (run_get _) _ _ => apply rwp_get
  | |- rwp (run_modify _) _ _ => apply rwp_modify
  | |- rwp (run_lift _) _ _ => apply rwp_lift; [intros ? ?|]
  | |- rwp (emit _) _ _ => apply rwp_emit
  | |- rwp (write _ _) _ _ => apply rwp_write
  | |- rwp (if ?b then _ else _) _ _ => destruct b eqn:?
  end; cbv beta iota zeta.
Ltac rwp_steps := repeat rwp_step.

(** ** Invariants *)
Section keeps.
Context (P : runState -> Prop).
Definition keeps {A} (m : run A) : Prop := forall s, P s -> rwp m (okay (fun _ => P) P) s.
Lemma keeps_bind {A B} (m : run A) (k : A -> run B) : keeps m -> (forall a, keeps (k a)) -> keeps (run_bind m k).
Proof. intros Hm Hk s Hs. apply rwp_bind. eapply rwp_mono; [by apply Hm| |done]. intros a s' Hs'. by apply Hk. Qed.
Lemma keeps_ret {A} (a : A) : keeps (run_ret a).
Proof. intros s Hs. by apply rwp_ret. Qed.
Lemma keeps_lift {A} (r : result A) : keeps (run_lift r).
Proof. intros s Hs. by apply rwp_lift. Qed.
Lemma keeps_fail {A} e : keeps (@run_fail A e).
Proof. intros s Hs. by apply rwp_fail. Qed.
End keeps.

(** ** The state a run starts from *)
Lemma open_run_state `{Protowire} `{JSON} write_error unicode_lower image_size ids open_error request toolResults catalog s :
  open_run write_error unicode_lower image_size ids open_error request toolResults = Ok (catalog, s) ->
  exists payload store total, validateBlobStore store maxBlobSize maxBlobStoreSize = Ok total /\
    s = log_action (Wrote payload) (initial_state store total toolResults).
Proof.
  unfold open_run. case_match; [done|]. destruct (normalizeToolDefinitions _ _) as [normalized|]; [|done]. cbn [rbind].
  destruct (encodeRunRequest _ _ _ _) as [[payload store]|]; [|done]. cbn [rbind]. destruct (_ <? _) eqn:E; [done|].
  destruct (validateBlobStore _ _ _) as [total|] eqn:V; [|done]. cbn [rbind]. destruct (open_error _ _); [done|].
  unfold write, writeConnectPayload, stream_write. rewrite E. destruct (write_error _); [done|]. intros [= _ <-]. by eexists _, _, _.
Qed.
