(* ===== verification/RunnerSample.v ===== *)
(** * A concrete run

    A small peer, request and byte stream on which the theorems about the run loop
    are instantiated. *)
From stdpp Require Import base tactics list gmap strings sorting.
From Stdlib Require Import Strings.Byte.
From S2P Require Import Prelude GoStrings JsonValue Connect Data HostedPolicy Media HostedSearch Manager Wire WireProps Protocol ProtocolProps Runner.
Open Scope Z_scope.

(** Text, the end of the turn for an empty update, and a caller tool per execution. *)
Definition sample_peer : AgentProto := {|
  ap_InteractionUpdate data :=
    Ok {| iu_Message := match data with [] => UpTurnEnded None | _ => UpTextDelta (of_bytes data) end; iu_Unknown := [] |};
  ap_ExecServerMessage data :=
    Ok {| ex_Id := @decodeVarint sample_protowire data 1; ex_ExecId := "exec-7"; ex_Unknown := [];
          ex_Message := ExMcpArgs (Some {| ma_ToolCallId := @decodeString sample_protowire data 2; ma_ToolName := "lookup"; ma_Name := ""; ma_Args := [] |}) |};
  ap_KvServerMessage data := Ok {| kv_Id := 1; kv_Message := KvGetBlob data; kv_Unknown := [] |};
  ap_InteractionQuery data := Ok {| iq_Id := 3; iq_Query := QyWebSearch (Some (of_bytes data)); iq_Unknown := [] |};
  ap_ExecServerControlMessage data := Ok {| ec_Abort := Some 7; ec_Unknown := [] |};
  ap_Value data := Some (AnyString (of_bytes data));
  ap_AllowlistPrecheck id execID kind allowed := [] |}.
#[export] Existing Instance sample_protowire.
#[export] Existing Instance no_json.
#[export] Existing Instance no_url.
#[export] Existing Instance sample_peer.

Definition sample_options : RunOptions := {|
  ro_HistoryRequestKey := ""; ro_BaseURL := ""; ro_ProxyURL := ""; ro_AccessToken := "t"; ro_ClientVersion := "1";
  ro_RouteChannelID := 0; ro_RouteUserID := 0; ro_Model := "m"; ro_UserMedia := []; ro_ThinkingEnabled := false;
  ro_ReasoningEffort := ""; ro_InferenceContext := ""; ro_InferenceThinking := None; ro_dropReasoningSignatures := false;
  ro_SystemText := ""; ro_HistoryMessages := []; ro_AllowHostedSearch := true; ro_AllowHostedFetch := false;
  ro_RequireHostedSearch := false; ro_RequireHostedFetch := false; ro_RequireHostedTool := false;
  ro_HostedSearchMaxUses := Some 1; ro_HostedFetchMaxUses := None; ro_HostedSearchDomains := no_domains;
  ro_HostedFetchDomains := no_domains; ro_RequireToolCall := false; ro_MaxParallelTools := 2; ro_DeleteCompletedState := false |}.
Definition sample_run : RunRequest := {|
  rr_Options := sample_options; rr_RuntimeProfile := ""; rr_ConversationID := "conv"; rr_UserText := "hi"; rr_FollowUpText := "";
  rr_Tools := []; rr_InitialCheckpoint := []; rr_InitialBlobs := ∅; rr_Resume := false |}.
Definition no_write_error (log : list action) : option Err := None.
Definition no_gzip (limit : Z) (data : bytes) : result bytes := Fail (ErrMsg "gzip").
Definition no_trailer (data : bytes) : option (option (string * string)) := None.
Definition sample_open : result (list ToolDefinition * runState) :=
  open_run no_write_error (fun s => s) (fun _ => None) (fun _ => "id") (fun _ _ => None) sample_run true.

Definition sample_message (fields : list (Number * bytes)) : bytes := frameConnect (encode_fields (uncurry FB <$> fields)).
(** A caller tool, its turn's end, the end of the stream. *)
Definition sample_call : bytes := sample_message [(2, encode_fields [FV 1 7; FB 2 (to_bytes "call-1")])].
Definition sample_turn : bytes := sample_message [(1, to_bytes "hello")] ++ sample_message [(1, [])].
Definition sample_end : bytes := frameConnectWithFlags [] connectEndStreamFlag.
Definition sample_answer : ToolResult := {| tr_ToolCallID := " call-1"; tr_Content := "42"; tr_IsError := false; tr_Media := [] |}.
Definition sample_started : runState := match sample_open with Ok (_, s) => s | Fail _ => initial_state ∅ 0 true end.
