(* ===== verification/RunnerInv.v ===== *)
(** * What a run keeps bounded (src/cursoragentv1/runner.go)

    The limits on pending calls, queued results, approved hosted uses and stored
    blobs hold in every state of a run, whatever the server and the client send. *)
From stdpp Require Import base tactics list gmap strings sorting.
From Stdlib Require Import Strings.Byte.
From S2P Require Import Prelude GoStrings JsonValue Connect Data HostedPolicy Usage Media HostedSearch Segment Manager Wire WireProps Protocol ProtocolProps HostedRun Runner RunnerLogic RunnerSample.
Open Scope Z_scope.
Open Scope run_scope.

(** ** Blobs *)
Definition blobs_total (store : gmap string bytes) : Z := map_fold (fun _ v t => blen v + t) 0 store.
Lemma blobs_total_insert store k v :
  blobs_total (<[k := v]> store) = blobs_total store - blen (default [] (store !! k)) + blen v.
Proof.
  unfold blobs_total. assert (forall m : gmap string bytes, m !! k = None ->
    map_fold (fun _ v t => blen v + t) 0 (<[k := v]> m) = blen v + map_fold (fun _ v t => blen v + t) 0 m) as Hnew.
  { intros m Hm. rewrite map_fold_insert_L; [done| |done]. intros. lia. }
  destruct (store !! k) as [old|] eqn:E; cbn [default].
  - rewrite <-(insert_delete_eq store k v), Hnew by apply lookup_delete_eq.
    rewrite (map_fold_delete_L _ 0 k old store); [unfold id; lia| |done]. intros. lia.
  - rewrite Hnew by done. unfold blen. cbn. lia.
Qed.
Lemma storeBlob_bounded store total key value store' total' :
  storeBlob store total key value maxBlobSize maxBlobStoreSize = Ok (store', total') ->
  total = blobs_total store -> (forall k v, store !! k = Some v -> blen v <= maxBlobSize) ->
  total' = blobs_total store' /\ total' <= maxBlobStoreSize /\ (forall k v, store' !! k = Some v -> blen v <= maxBlobSize).
Proof.
  unfold storeBlob. cbv zeta. case_bool_decide; [done|]. destruct (maxBlobSize <? _) eqn:E1; [done|].
  destruct (maxBlobStoreSize <? _) eqn:E2; [done|]. intros E -> Hall; injection E as E3 E4; subst store' total'. bool_hyps. split_and!; [by rewrite blobs_total_insert|lia|].
  intros k v. destruct (decide (key = k)) as [->|Hk]; [rewrite lookup_insert_eq|rewrite lookup_insert_ne by done; by apply Hall].
  intros [= <-]. lia.
Qed.
Lemma validate_blobs_bounded maxS maxT values total t :
  validate_blobs maxS maxT total values = Ok t -> total <= maxT ->
  t = total + foldr (fun v t => blen v + t) 0 values /\ t <= maxT /\ Forall (fun v => blen v <= maxS) values.
Proof.
  revert total. induction values as [|v values IH]; intros total; cbn [validate_blobs foldr].
  - intros [= <-] H. split_and!; [lia|done|constructor].
  - destruct (maxS <? _) eqn:E1; [done|]. destruct (maxT <? _) eqn:E2; [done|]. bool_hyps. intros H _.
    destruct (IH _ H ltac:(lia)) as (-> & Hm & Hall). split_and!; [lia|done|by constructor].
Qed.
Lemma validateBlobStore_bounded store total :
  validateBlobStore store maxBlobSize maxBlobStoreSize = Ok total ->
  total = blobs_total store /\ total <= maxBlobStoreSize /\ (forall k v, store !! k = Some v -> blen v <= maxBlobSize).
Proof.
  intros (-> & Hm & Hall)%validate_blobs_bounded; [|done]. split_and!; [|done|].
  - unfold blobs_total. rewrite map_fold_foldr. clear Hm Hall. induction (map_to_list store) as [|[k v] l IH]; [done|]. cbn in *. lia.
  - intros k v Hk. rewrite Forall_fmap, Forall_forall in Hall. apply (Hall (k, v)). by apply elem_of_map_to_list.
Qed.

(** ** Approvals *)
Definition within (max : option Z) (ids : gset string) : Prop :=
  match max with Some max => Z.of_nat (size ids) <= Z.max 0 max | None => True end.
(** The uses of some kinds that the run has approved, by its log. *)
Definition approval (kinds : list Number) (a : action) : option string :=
  match a with Decided kind use true => if bool_decide (kind ∈ kinds) then Some use else None | _ => None end.
Definition approved (kinds : list Number) (log : list action) : gset string := list_to_set (omap (approval kinds) log).
Definition search_kinds : list Number := [2; 5].
Definition fetch_kinds : list Number := [6; 9].
Lemma approved_none kinds log a : approval kinds a = None -> approved kinds (log ++ [a]) = approved kinds log.
Proof. unfold approved. intros E. rewrite omap_app. cbn. by rewrite E, app_nil_r. Qed.
Lemma approved_some kinds log a use : approval kinds a = Some use -> approved kinds (log ++ [a]) = approved kinds log ∪ {[use]}.
Proof. unfold approved. intros E. rewrite omap_app, list_to_set_app_L. cbn. rewrite E. set_solver. Qed.
Lemma within_subset max ids ids' : ids' ⊆ ids -> within max ids -> within max ids'.
Proof. unfold within. destruct max; [|done]. intros Hs%subseteq_size. lia. Qed.
Lemma allow_in_within ids id max : within max ids -> within max (allow_in ids id max).2.
Proof.
  unfold allow_in, within. case_bool_decide as Hid; [done|]. destruct max as [max|]; [|done]. destruct (_ <=? _) eqn:E; [done|]. bool_hyps.
  cbn [snd]. rewrite size_union by set_solver. rewrite size_singleton. lia.
Qed.
Lemma allow_in_granted ids id max ids' : allow_in ids id max = (true, ids') -> id ∈ ids'.
Proof. unfold allow_in. case_bool_decide; [by intros [= <-]|]. destruct max as [max|]; [destruct (_ <=? _); [done|]|]; intros [= <-]; set_solver. Qed.
(** Each approval is of a use that is then on record. *)
Lemma decision_recorded options m uses ok reason uses' :
  hostedInteractionDecision options m uses = (ok, reason, uses') ->
  hu_searchIDs uses ⊆ hu_searchIDs uses' /\ hu_fetchIDs uses ⊆ hu_fetchIDs uses' /\
  (ok = true -> wm_InteractionKind m ∈ search_kinds /\ ro_AllowHostedSearch options = true /\ hostedUseID m ∈ hu_searchIDs uses' \/
                wm_InteractionKind m ∈ fetch_kinds /\ ro_AllowHostedFetch options = true /\ hostedUseID m ∈ hu_fetchIDs uses').
Proof.
  assert (forall ids id max ok ids', allow_in ids id max = (ok, ids') -> ids ⊆ ids' /\ (ok = true -> id ∈ ids')) as Ha.
  { clear. intros ids id max ok ids'. unfold allow_in. case_bool_decide; [by intros [= <- <-]|].
    destruct max as [max|]; [destruct (_ <=? _)|]; intros [= <- <-]; set_solver. }
  unfold hostedInteractionDecision. destruct (_ =? 4); [by intros [= <- _ <-]|].
  destruct (hostedInteractionIsSearch _) eqn:Es.
  - destruct (ro_AllowHostedSearch options) eqn:Eo; cbn [negb]; [|by intros [= <- _ <-]]. unfold allow. destruct (hostedInteractionIsFetch _) eqn:Ef.
    { unfold hostedInteractionIsSearch, hostedInteractionIsFetch in *. lia. }
    rewrite Es. cbn [negb]. destruct (allow_in _ _ _) as [ok' ids] eqn:E. apply Ha in E as [E1 E2]. unfold hostedInteractionIsSearch in Es.
    destruct ok'; intros [= <- _ <-]; (split_and!; [done..|]); [|done]. intros _. left. split; [|by auto].
    unfold search_kinds. rewrite !elem_of_cons. lia.
  - destruct (hostedInteractionIsFetch _) eqn:Ef; [|by intros [= <- _ <-]].
    destruct (ro_AllowHostedFetch options) eqn:Eo; cbn [negb]; [|by intros [= <- _ <-]].
    unfold allow. rewrite Ef. destruct (allow_in _ _ _) as [ok' ids] eqn:E. apply Ha in E as [E1 E2]. unfold hostedInteractionIsFetch in Ef.
    destruct ok'; intros [= <- _ <-]; (split_and!; [done..|]); [|done]. intros _. right. split; [|by auto].
    unfold fetch_kinds. rewrite !elem_of_cons. lia.
Qed.
Lemma decision_within options m uses ok reason uses' :
  hostedInteractionDecision options m uses = (ok, reason, uses') ->
  within (ro_HostedSearchMaxUses options) (hu_searchIDs uses) /\ within (ro_HostedFetchMaxUses options) (hu_fetchIDs uses) ->
  within (ro_HostedSearchMaxUses options) (hu_searchIDs uses') /\ within (ro_HostedFetchMaxUses options) (hu_fetchIDs uses').
Proof.
  unfold hostedInteractionDecision. destruct (_ =? 4); [by intros [= _ _ <-]|].
  destruct (hostedInteractionIsSearch _) eqn:Es.
  - destruct (negb _); [by intros [= _ _ <-]|]. unfold allow. destruct (hostedInteractionIsFetch _) eqn:Ef.
    { unfold hostedInteractionIsSearch, hostedInteractionIsFetch in *. lia. }
    rewrite Es. cbn [negb]. intros E [H1 H2]. pose proof (allow_in_within _ (hostedUseID m) _ H1) as H3.
    destruct (allow_in _ _ _) as [[] ids]; injection E as <- <- <-; done.
  - destruct (hostedInteractionIsFetch _) eqn:Ef; [|by intros [= _ _ <-]]. destruct (negb _); [by intros [= _ _ <-]|].
    unfold allow. rewrite Ef. intros E [H1 H2]. pose proof (allow_in_within _ (hostedUseID m) _ H2) as H3.
    destruct (allow_in _ _ _) as [[] ids]; injection E as <- <- <-; done.
Qed.

Section bounded.
Context `{Protowire} `{JSON} `{AgentProto} `{NetURL}.
Context (write_error : list action -> option Err) (gzip_read : Z -> bytes -> result bytes)
        (decodeTrailer : bytes -> option (option (string * string))).
Context (request : RunRequest) (tools : list ToolDefinition).
Local Notation options := (rr_Options request).

Record bounded (s : runState) : Prop := {
  bd_pending : Z.of_nat (size (st_pendingTools s)) <= maxPendingTools;
  bd_parallel : 0 < ro_MaxParallelTools options -> Z.of_nat (size (st_pendingTools s)) <= ro_MaxParallelTools options;
  bd_queued : Z.of_nat (size (st_queuedResults s)) <= maxPendingTools;
  bd_uses : within (ro_HostedSearchMaxUses options) (hu_searchIDs (st_hostedUses s)) /\
            within (ro_HostedFetchMaxUses options) (hu_fetchIDs (st_hostedUses s));
  bd_searches : approved search_kinds (st_log s) ⊆ hu_searchIDs (st_hostedUses s);
  bd_fetches : approved fetch_kinds (st_log s) ⊆ hu_fetchIDs (st_hostedUses s);
  bd_search_allowed : approved search_kinds (st_log s) <> ∅ -> ro_AllowHostedSearch options = true;
  bd_fetch_allowed : approved fetch_kinds (st_log s) <> ∅ -> ro_AllowHostedFetch options = true;
  bd_total : st_blobBytes s = blobs_total (st_blobStore s);
  bd_store : st_blobBytes s <= maxBlobStoreSize;
  bd_blobs : forall k v, st_blobStore s !! k = Some v -> blen v <= maxBlobSize }.

(** The invariant looks at five variables and the approvals only. *)
Lemma bounded_proper s s' :
  st_pendingTools s' = st_pendingTools s -> st_queuedResults s' = st_queuedResults s -> st_hostedUses s' = st_hostedUses s ->
  st_blobBytes s' = st_blobBytes s -> st_blobStore s' = st_blobStore s ->
  (forall kinds, approved kinds (st_log s') = approved kinds (st_log s)) -> bounded s -> bounded s'.
Proof. intros E1 E2 E3 E4 E5 E6 []. split; rewrite ?E1, ?E2, ?E3, ?E4, ?E5, ?E6; done. Qed.
Lemma bounded_emitted e s : bounded s -> bounded (emitted e s).
Proof.
  destruct (emitted_fields e s) as (? & ? & ? & ? & ? & ? & ? & ? & ? & El). apply bounded_proper; try done.
  intros kinds. by rewrite El, approved_none.
Qed.
Lemma bounded_wrote p s : bounded s -> bounded (log_action (Wrote p) s).
Proof. apply bounded_proper; try done. intros kinds. by apply approved_none. Qed.

Lemma bounded_delete id s : bounded s -> bounded (set_pendingTools (delete id (st_pendingTools s)) s).
Proof.
  intros [Hp Hpar Hq Hu Hf1 Hf2 Hf3 Hf4 Ht Hs Hb]. assert (size (delete id (st_pendingTools s)) <= size (st_pendingTools s))%nat as Hle.
  { rewrite map_size_delete. destruct (st_pendingTools s !! id); unfold Datatypes.id; lia. }
  split; st_simpl; try done; [lia|]. intros Hmax. specialize (Hpar Hmax). lia.
Qed.
Lemma bounded_unqueue id s : bounded s -> bounded (set_queuedResults (delete id (st_queuedResults s)) s).
Proof. intros []. split; st_simpl; try done. rewrite map_size_delete. destruct (st_queuedResults s !! id); unfold Datatypes.id; lia. Qed.

Ltac same :=
  lazymatch goal with
  | H : bounded ?s |- bounded ?s => exact H
  | |- bounded (emitted _ _) => apply bounded_emitted; same
  | |- bounded (log_action (Wrote _) _) => apply bounded_wrote; same
  | |- bounded (set_pendingTools (delete _ _) _) => apply bounded_delete; same
  | |- bounded (set_queuedResults (delete _ _) _) => apply bounded_unqueue; same
  | |- bounded (?f _ ?s) => apply (bounded_proper s); [reflexivity..|]; same
  end.

Lemma size_insert_le {V} (m : gmap string V) k v : (size (<[k := v]> m) <= S (size m))%nat.
Proof. rewrite map_size_insert. destruct (m !! k); unfold Datatypes.id; lia. Qed.
Lemma size_insert_known {V} (m : gmap string V) k v : m !! k <> None -> size (<[k := v]> m) = size m.
Proof. rewrite map_size_insert. by destruct (m !! k). Qed.

Local Notation keeps := (keeps bounded).
Lemma keeps_write p : keeps (write write_error p).
Proof. intros s Hs. apply rwp_write; same. Qed.
Lemma keeps_emit e : keeps (emit e).
Proof. intros s Hs. apply rwp_emit. same. Qed.
Lemma keeps_sendToolResult pending r : keeps (sendToolResult write_error pending r).
Proof.
  intros s Hs. unfold sendToolResult. rwp_steps; try same. case_bool_decide; same.
Qed.
Lemma keeps_on_tool_result r : keeps (on_tool_result write_error r).
Proof.
  intros s Hs. unfold on_tool_result. cbv zeta. rwp_steps; try same. destruct (st_pendingTools s !! _) as [p|].
  - apply rwp_bind. eapply rwp_mono; [by apply keeps_sendToolResult| |done]. intros. by apply rwp_ret.
  - rwp_steps; try same. bool_hyps. destruct Hs. split; st_simpl; try done. pose proof (size_insert_le (st_queuedResults s) (tr_ToolCallID (trim_result r)) (trim_result r)). lia.
Qed.
Lemma keeps_on_mcp m : keeps (on_mcp write_error request m).
Proof.
  intros s Hs. unfold on_mcp. set (message := set_tool_call_id _ m). set (id := wm_ToolCallID message). cbv zeta. rwp_steps; try same.
  cbn [st_pendingTools set_streamMCP] in *. match goal with |- rwp _ _ ?s' => set (s1 := s'); assert (bounded s1) as Hs1; [|clearbody s1] end.
  { destruct Hs. unfold s1. destruct (decide (st_pendingTools s !! id = None)) as [E|E].
    - rewrite (bool_decide_eq_true_2 _ E) in *. cbn [andb] in *. pose proof (size_insert_le (st_pendingTools s) id message).
      split; st_simpl; try done; bool_hyps; [lia|]. intros Hp. destruct (0 <? _) eqn:E3; bool_hyps; cbn [andb] in *; bool_hyps; lia.
    - split; st_simpl; try done; rewrite size_insert_known by done; auto. }
  match goal with |- rwp (match ?q with _ => _ end) _ _ => destruct q as [queued|] end.
  - rwp_steps. eapply rwp_mono; [apply keeps_sendToolResult; same| |done]. intros. by apply rwp_ret.
  - rwp_steps; try same. unfold park. rwp_steps; same.
Qed.
Lemma keeps_on_hosted m : keeps (on_hosted request m).
Proof. intros s Hs. unfold on_hosted. rwp_steps; [|same]. destruct a as [open [e|]]; rwp_steps; same. Qed.
Lemma keeps_on_kv_set m : keeps (on_kv_set write_error m).
Proof.
  intros s Hs. unfold on_kv_set. rwp_steps; [|same]. destruct a as [store total]. rwp_steps.
  all: match goal with H : storeBlob _ _ _ _ _ _ = _ |- _ => apply storeBlob_bounded in H as (Ht & Hm & Hb); [|apply Hs..] end.
  all: try apply bounded_wrote; destruct Hs; split; done.
Qed.
Lemma keeps_on_interaction_query m : keeps (on_interaction_query write_error request m).
Proof.
  intros s Hs. unfold on_interaction_query. rwp_steps; try same.
  destruct (hostedInteractionDecision _ _ _) as [[approve reason] uses'] eqn:E. pose proof (decision_recorded _ _ _ _ _ _ E) as (E1 & E2 & E3).
  assert (bounded (set_hostedUses uses' s)) as Hs1.
  { apply decision_within in E; [|apply Hs]. destruct Hs. split; st_simpl; try done; set_solver. }
  assert (bounded (log_action (Decided (wm_InteractionKind m) (hostedUseID m) approve) (set_hostedUses uses' s))) as Hs2.
  { destruct approve; [|revert Hs1; apply bounded_proper; try done; intros kinds; by apply approved_none].
    set (a := Decided _ _ _). assert (approval search_kinds a = Some (hostedUseID m) /\ approval fetch_kinds a = None /\
        ro_AllowHostedSearch options = true /\ hostedUseID m ∈ hu_searchIDs uses' \/
      approval fetch_kinds a = Some (hostedUseID m) /\ approval search_kinds a = None /\
        ro_AllowHostedFetch options = true /\ hostedUseID m ∈ hu_fetchIDs uses') as [(K1 & K2 & K3 & K4)|(K1 & K2 & K3 & K4)].
    { unfold a. cbn [approval]. assert (forall n, n ∈ search_kinds -> n ∉ fetch_kinds) as Hk
        by (unfold search_kinds, fetch_kinds; intros n; set_unfold; lia).
      destruct (E3 eq_refl) as [(K1 & K2)|(K1 & K2)]; [left|right]; rewrite bool_decide_eq_true_2 by done;
        rewrite bool_decide_eq_false_2 by naive_solver; done. }
    all: destruct Hs1; split; try done; st_simpl; first [rewrite (approved_some _ _ _ _ K1)|rewrite (approved_none _ _ _ K2)];
      first [by auto|apply union_least; [done|by apply singleton_subseteq_l]]. }
  rwp_steps; same.
Qed.
Lemma keeps_on_turn_ended usage : keeps (on_turn_ended usage).
Proof. intros s Hs. unfold on_turn_ended, park. rwp_steps; same. Qed.
Lemma keeps_on_message m : keeps (on_message write_error request tools m).
Proof.
  unfold on_message. pose proof (keeps_on_mcp m) as Hmcp.
  destruct (wm_Type m); try exact Hmcp; try (intros s Hs; by apply rwp_fail);
    (apply keeps_bind; [|intros; apply keeps_ret]); cbn [native_rejection];
    auto using keeps_write, keeps_emit, keeps_ret, keeps_on_hosted, keeps_on_kv_set, keeps_on_interaction_query, keeps_on_turn_ended.
  all: intros s Hs; unfold emit_text; rwp_steps; same.
Qed.
Lemma keeps_on_frame flags payload : keeps (on_frame write_error gzip_read decodeTrailer request tools flags payload).
Proof.
  unfold on_frame. apply keeps_bind; [destruct (has_flag _ _); auto using keeps_lift, keeps_ret|]. intros data.
  destruct (has_flag _ _).
  - intros s Hs. unfold on_end_stream. destruct (parseConnectEndStream _ _); rwp_steps; try same. destruct (missing_hosted _ _); rwp_steps; same.
  - apply keeps_bind; [apply keeps_lift|apply keeps_on_message].
Qed.
Lemma keeps_frames_loop fuel : keeps (frames_loop write_error gzip_read decodeTrailer request tools fuel).
Proof.
  induction fuel as [|fuel IH]; [apply keeps_ret|]. intros s Hs. cbn [frames_loop]. rwp_steps; [|same].
  destruct a as [[[flags payload] consumed]|]; [|by apply rwp_ret]. rwp_steps. eapply rwp_mono; [apply keeps_on_frame; same| |done].
  intros [] s' Hs'; [by apply IH|by apply rwp_ret].
Qed.
Lemma keeps_on_input i : keeps (on_input write_error gzip_read decodeTrailer request tools i).
Proof.
  intros s Hs. destruct i; cbn [on_input]; rwp_steps; try same.
  - by apply keeps_on_tool_result.
  - unfold on_chunk. rwp_steps. apply keeps_frames_loop. same.
Qed.
Lemma keeps_run_inputs inputs : keeps (run_inputs write_error gzip_read decodeTrailer request tools inputs).
Proof.
  induction inputs as [|i inputs IH]; [apply keeps_ret|]. cbn [run_inputs]. apply keeps_bind; [apply keeps_on_input|].
  intros []; [exact IH|apply keeps_ret].
Qed.

Lemma bounded_approvals s : bounded s ->
  within (ro_HostedSearchMaxUses options) (approved search_kinds (st_log s)) /\
  within (ro_HostedFetchMaxUses options) (approved fetch_kinds (st_log s)).
Proof. intros Hs. split; (eapply within_subset; [apply Hs|apply Hs]). Qed.

Section opening.
Context (unicode_lower : string -> string) (image_size : bytes -> option (Z * Z)) (ids : nat -> string)
        (open_error : RunOptions -> list string -> option Err).

(** C16 Every limit of a run holds in every state it reaches: whatever the server
    sends and the client answers, and whether the run goes on, ends or fails, at
    most 256 tool calls are pending (at most the client's parallel limit when it
    set one), at most 256 results are queued, the searches (kinds 2 and 5) and the
    fetches (kinds 6 and 9) it told the server to go ahead with are no more than
    the caller's max_uses, repeats of one call counted once, and none without
    permission, and the blob store's byte count is exact and within its limits. *)
Theorem run_bounded (toolResults : bool) (catalog : list ToolDefinition) (s : runState) (inputs : list input) :
  open_run write_error unicode_lower image_size ids open_error request toolResults = Ok (catalog, s) ->
  let s' := (run_inputs write_error gzip_read decodeTrailer request tools inputs s).2 in
  bounded s' /\ within (ro_HostedSearchMaxUses options) (approved search_kinds (st_log s')) /\
  within (ro_HostedFetchMaxUses options) (approved fetch_kinds (st_log s')).
Proof.
  intros Hopen s'. enough (bounded s') as Hb by (split; [done|by apply bounded_approvals]). revert Hopen. unfold s'. clear s'.
  intros (payload & store & total & V & ->)%open_run_state. apply validateBlobStore_bounded in V as (Ht & Hm & Hb).
  assert (bounded (initial_state store total toolResults)) as Hs.
  { split; cbn [initial_state st_pendingTools st_queuedResults st_hostedUses st_blobBytes st_blobStore]; rewrite ?map_size_empty;
      try done; [intros; lia|]. cbn [newHostedUseTracker hu_searchIDs hu_fetchIDs]. split; unfold within; [destruct (ro_HostedSearchMaxUses _)|destruct (ro_HostedFetchMaxUses _)]; try done;
      cbn [newHostedUseTracker hu_searchIDs hu_fetchIDs]; rewrite size_empty; lia. }
  pose proof (keeps_run_inputs inputs (log_action (Wrote payload) (initial_state store total toolResults)) ltac:(same)) as Hr.
  unfold rwp, okay in Hr. by destruct (run_inputs _ _ _ _ _ _ _) as [[|] s''].
Qed.
End opening.
End bounded.

(** The caller allows one search and the server asks for two. *)
Definition search_query (call : string) : bytes :=
  sample_message [(agentServerInteractionQuery, encode_fields [FB 2 (to_bytes call)])].
Definition asked_run : runState :=
  (run_inputs no_write_error no_gzip no_trailer sample_run [] [Chunk (search_query "first" ++ search_query "second" ++ search_query "first")] sample_started).2.
Example asked_decisions :
  approval search_kinds <$> List.filter (fun a => match a with Decided _ _ _ => true | _ => false end) (st_log asked_run)
  = [Some (of_bytes (encode_fields [FB 2 (to_bytes "first")])); None; Some (of_bytes (encode_fields [FB 2 (to_bytes "first")]))].
Proof. by vm_compute. Qed.
Lemma run_bounded_witness : bounded sample_run asked_run /\ within (Some 1) (approved search_kinds (st_log asked_run)).
Proof.
  destruct (run_bounded no_write_error no_gzip no_trailer sample_run [] (fun s => s) (fun _ => None) (fun _ => "id") (fun _ _ => None) true []
    sample_started [Chunk (search_query "first" ++ search_query "second" ++ search_query "first")]) as (H1 & H2 & _).
  - vm_compute. reflexivity.
  - split; [exact H1|exact H2].
Defined.
