(* ===== verification/RunnerProps.v ===== *)
(** * What a run guarantees (src/cursoragentv1/runner.go)

    A run returns nil only when nothing is left open; every pending call can be
    answered; and the run does not depend on how the network cuts the bytes. *)
From stdpp Require Import base tactics list gmap strings sorting.
From Stdlib Require Import Strings.Byte.
From S2P Require Import Prelude GoStrings JsonValue Connect Data HostedPolicy Usage Media HostedSearch Segment Manager Wire WireProps Protocol ProtocolProps HostedRun Runner RunnerLogic RunnerSample.
Open Scope Z_scope.
Open Scope run_scope.

(** ** Finishing *)
Definition not_done (a : action) : Prop := match a with Emit e => ev_Type e <> EventDone | _ => True end.
Definition progress_of (kind : option HostedSearch -> bool) (a : action) : Prop :=
  exists e, a = Emit e /\ is_hosted_progress e = true /\ kind (ev_HostedSearch e) = true.
Definition turn_usage (a : action) : Prop := exists e, a = Emit e /\ ev_Type e = EventUsageObservation.
Definition done_event : action := Emit (event_of EventDone).

(** While the run goes on: no terminal event, and every flag has its event. *)
Record running (s : runState) : Prop := {
  rn_done : Forall not_done (st_log s);
  rn_search : st_hostedSearchExecuted s = true -> Exists (progress_of hostedKindIsSearch) (st_log s);
  rn_fetch : st_hostedFetchExecuted s = true -> Exists (progress_of hostedKindIsFetch) (st_log s);
  rn_turn : st_turnEnded s = true -> Exists turn_usage (st_log s) }.

Lemma running_proper s s' :
  st_log s' = st_log s -> st_hostedSearchExecuted s' = st_hostedSearchExecuted s ->
  st_hostedFetchExecuted s' = st_hostedFetchExecuted s -> st_turnEnded s' = st_turnEnded s -> running s -> running s'.
Proof. intros E1 E2 E3 E4 []. split; rewrite ?E1, ?E2, ?E3, ?E4; done. Qed.
Lemma running_logged a s : (forall e, a <> Emit e) -> running s -> running (log_action a s).
Proof.
  intros Ha []. split; st_simpl; rewrite ?Forall_app, ?Exists_app; try by (intros; left; auto).
  split; [done|]. apply Forall_singleton. destruct a; try done. by destruct (Ha e).
Qed.
Lemma running_emitted e s : ev_Type e <> EventDone -> running s -> running (emitted e s).
Proof.
  intros He []. unfold emitted, emit. cbn -[hostedKindIsSearch hostedKindIsFetch is_hosted_progress].
  destruct (is_hosted_progress e) eqn:Ep; [destruct (hostedKindIsSearch (ev_HostedSearch e)) eqn:Es, (hostedKindIsFetch (ev_HostedSearch e)) eqn:Ef|];
    cbn [andb]; (split; st_simpl; [apply Forall_app; split; [done|by apply Forall_singleton]|..]); rewrite Exists_app; intros Hx;
    first [left; by auto | right; apply Exists_cons; left; by exists e].
Qed.

Section props.
Context `{Protowire} `{JSON} `{AgentProto} `{NetURL}.
Context (write_error : list action -> option Err) (gzip_read : Z -> bytes -> result bytes)
        (decodeTrailer : bytes -> option (option (string * string))).
Context (request : RunRequest) (tools : list ToolDefinition).
Local Notation options := (rr_Options request).
Local Notation keeps := (keeps running).

Ltac same :=
  lazymatch goal with
  | H : running ?s |- running ?s => exact H
  | |- running (log_action _ _) => apply running_logged; [done|same]
  | |- running (emitted _ _) => apply running_emitted; [try (cbn; done)|same]
  | |- running (?f _ ?s) => apply (running_proper s); [reflexivity..|]; same
  end.

Lemma hosted_event_type m open open' e :
  applyHostedSearchMessage options m open = Ok (open', Some e) -> ev_Type e <> EventDone.
Proof. unfold applyHostedSearchMessage. repeat (case_match; try done). all: by intros [= _ <-]. Qed.

Lemma stays_write p : keeps (write write_error p).
Proof. intros s Hs. apply rwp_write; same. Qed.
Lemma stays_emit e : ev_Type e <> EventDone -> keeps (emit e).
Proof. intros He s Hs. apply rwp_emit. same. Qed.
Lemma stays_sendToolResult pending r : keeps (sendToolResult write_error pending r).
Proof. intros s Hs. unfold sendToolResult. rwp_steps; try same. case_bool_decide; same. Qed.
Lemma stays_on_hosted m : keeps (on_hosted request m).
Proof.
  intros s Hs. unfold on_hosted. rwp_steps; [|same]. destruct a as [open [e|]]; rwp_steps; [|same].
  apply running_emitted; [by eapply hosted_event_type|same].
Qed.
Lemma stays_on_kv_set m : keeps (on_kv_set write_error m).
Proof. intros s Hs. unfold on_kv_set. rwp_steps; [|same]. destruct a as [store total]. rwp_steps; same. Qed.
Lemma stays_on_interaction_query m : keeps (on_interaction_query write_error request m).
Proof.
  intros s Hs. unfold on_interaction_query. rwp_steps; try same.
  destruct (hostedInteractionDecision _ _ _) as [[approve reason] uses']. rwp_steps; same.
Qed.
Lemma running_turn e s : ev_Type e = EventUsageObservation -> running s -> running (emitted e (set_turnEnded true s)).
Proof.
  intros He [Hd Hss Hsf Ht]. assert (is_hosted_progress e = false) as Ep by (unfold is_hosted_progress; by rewrite He).
  unfold emitted, emit, run_modify. cbn [snd]. rewrite Ep. cbn [andb]. split; st_simpl; rewrite ?Forall_app, ?Exists_app; [|auto..|].
  - split; [done|]. apply Forall_singleton. cbn. by rewrite He.
  - intros _. right. apply Exists_cons. left. by exists e.
Qed.
Lemma stays_on_turn_ended usage : keeps (on_turn_ended usage).
Proof.
  intros s Hs. unfold on_turn_ended, park. rwp_steps; [by apply running_turn|].
  apply running_emitted; [done|]. apply (running_proper (emitted (with_usage 0 (Some (default (no_usage UsageKindTurnEnded noCount) usage))
    (event_of EventUsageObservation)) (set_turnEnded true s))); [reflexivity..|]. by apply running_turn.
Qed.

(** ** Handlers that may end the run *)
(** What the run has settled when it returns nil. *)
Definition handed_off (log : list action) : Prop :=
  HistoryRequestKey request <> "" /\ exists call log', log = log' ++ [Emit (with_tool_call (Some call) (event_of EventToolCall))].
Definition settled (s : runState) (log : list action) : Prop :=
  Exists turn_usage log /\ st_pendingTools s = ∅ /\ st_streamMCP s = ∅ /\ st_openHosted s = ∅ /\
  (ro_RequireHostedSearch options = true -> rr_Resume request = false -> Exists (progress_of hostedKindIsSearch) log) /\
  (ro_RequireHostedFetch options = true -> rr_Resume request = false -> Exists (progress_of hostedKindIsFetch) log) /\
  (ro_RequireHostedTool options = true -> rr_Resume request = false ->
     Exists (progress_of hostedKindIsSearch) log \/ Exists (progress_of hostedKindIsFetch) log).
Definition finished (s : runState) : Prop :=
  exists log, st_log s = log ++ [done_event] /\ Forall not_done log /\ (handed_off log \/ settled s log).
Definition ends (c : control) (s : runState) : Prop := match c with Continue => running s | Finished => finished s end.
Definition may_end (m : run control) : Prop := forall s, running s -> rwp m (okay ends running) s.

Lemma may_end_continue {A} (m : run A) : keeps m -> may_end (m ;;; run_ret Continue).
Proof. intros Hm s Hs. apply rwp_bind. eapply rwp_mono; [by apply Hm| |done]. intros a s' Hs'. by apply rwp_ret. Qed.
Lemma log_emitted e s : st_log (emitted e s) = st_log s ++ [Emit e].
Proof. apply emitted_fields. Qed.

Lemma may_end_on_tool_result r : may_end (on_tool_result write_error r).
Proof.
  intros s Hs. unfold on_tool_result. cbv zeta. rwp_steps; try same. destruct (st_pendingTools s !! _) as [p|]; [|rwp_steps; unfold ends; same].
  apply rwp_bind. eapply rwp_mono; [by apply stays_sendToolResult| |done]. intros. by apply rwp_ret.
Qed.
Lemma may_end_on_mcp m : may_end (on_mcp write_error request m).
Proof.
  intros s Hs. unfold on_mcp. set (message := set_tool_call_id _ m). set (id := wm_ToolCallID message). cbv zeta.
  rwp_steps; unfold ends; try same. match goal with |- rwp _ _ ?s' => assert (running s') as Hs1 by same; set (s1 := s') in *; clearbody s1 end.
  match goal with |- rwp (match ?q with _ => _ end) _ _ => destruct q as [queued|] end.
  - rwp_steps. eapply rwp_mono; [apply stays_sendToolResult; same| |done]. intros. by apply rwp_ret.
  - rwp_steps; unfold park; rwp_steps; unfold ends; try same.
    bool_hyps. exists (st_log s1 ++ [Emit (with_tool_call (Some (tool_call_of message)) (event_of EventToolCall))]).
    rewrite !log_emitted. split_and!; [done| |left; split; [done|by eexists _, _]].
    apply Forall_app. split; [apply Hs1|by apply Forall_singleton].
Qed.
Lemma may_end_on_message m : may_end (on_message write_error request tools m).
Proof.
  unfold on_message. pose proof (may_end_on_mcp m) as Hmcp.
  destruct (wm_Type m); try exact Hmcp; try (intros s Hs; by apply rwp_fail); apply may_end_continue; cbn [native_rejection];
    auto using stays_write, keeps_ret, stays_on_hosted, stays_on_kv_set, stays_on_interaction_query, stays_on_turn_ended.
  all: intros s Hs; unfold emit_text; rwp_steps; same.
Qed.
Lemma may_end_on_end_stream payload : may_end (on_end_stream decodeTrailer request payload).
Proof.
  intros s Hs. unfold on_end_stream. destruct (parseConnectEndStream _ _); [by apply rwp_fail|]. rwp_steps; try exact Hs.
  destruct (missing_hosted _ _) eqn:M; rwp_steps; [exact Hs|]. bool_hyps. exists (st_log s). rewrite log_emitted.
  destruct (emitted_fields (event_of EventDone) s) as (_ & _ & _ & _ & E1 & E2 & E3 & _). destruct Hs as [Hd Hss Hsf Ht].
  split_and!; [done|done|right]. unfold settled. rewrite E1, E2, E3. revert M. unfold missing_hosted.
  destruct (_ && negb (st_hostedSearchExecuted s)) eqn:M1; [done|]. destruct (ro_RequireHostedFetch _ && _ && _) eqn:M2; [done|].
  destruct (ro_RequireHostedTool _ && _ && _ && _) eqn:M3; [done|]. intros _.
  split_and!; [by apply Ht|done..| | |]; intros Hreq Hres; rewrite Hreq, Hres in *; cbn in *.
  - apply Hss. by apply negb_false_iff.
  - apply Hsf. by apply negb_false_iff.
  - destruct (st_hostedSearchExecuted s); [left; by apply Hss|right; apply Hsf; by apply negb_false_iff].
Qed.
Lemma may_end_on_frame flags payload : may_end (on_frame write_error gzip_read decodeTrailer request tools flags payload).
Proof.
  intros s Hs. unfold on_frame. apply rwp_bind. apply (rwp_mono _ (fun _ => running) _ running); [| |done].
  { destruct (has_flag _ _); [by apply keeps_lift|by apply keeps_ret]. }
  intros data s' Hs'. rwp_step; [by apply may_end_on_end_stream|]. rwp_steps; [|done]. by apply may_end_on_message.
Qed.
Lemma may_end_frames_loop fuel : may_end (frames_loop write_error gzip_read decodeTrailer request tools fuel).
Proof.
  induction fuel as [|fuel IH]; intros s Hs; [by apply rwp_ret|]. cbn [frames_loop]. rwp_steps; [|same].
  destruct a as [[[flags payload] consumed]|]; [|by apply rwp_ret]. rwp_steps. eapply rwp_mono; [apply may_end_on_frame; same| |done].
  intros [] s' Hs'; [by apply IH|by apply rwp_ret].
Qed.
Lemma may_end_on_input i : may_end (on_input write_error gzip_read decodeTrailer request tools i).
Proof.
  intros s Hs. destruct i; cbn [on_input]; rwp_steps; unfold ends; try same.
  - by apply may_end_on_tool_result.
  - unfold on_chunk. rwp_steps. apply may_end_frames_loop. same.
Qed.
Lemma run_inputs_ends inputs s s' : running s ->
  run_inputs write_error gzip_read decodeTrailer request tools inputs s = (Ok true, s') -> finished s'.
Proof.
  revert s. induction inputs as [|i inputs IH]; intros s Hs; cbn [run_inputs]; [done|]. unfold run_bind.
  pose proof (may_end_on_input i s Hs) as Hi. unfold rwp in Hi. destruct (on_input _ _ _ _ _ i s) as [[[]|e] s1]; cbn in Hi; [|by intros [= <-]|done].
  by apply IH.
Qed.

(** C15 A run that returns nil has settled everything: its log ends with the only
    terminal event, and either it handed one caller tool over to the next request
    of a full-history turn, or the turn's usage was reported, no tool call is
    pending, no announced caller tool is missing its execution, no hosted search
    is open, and every hosted tool the caller required was seen to run. *)
Theorem run_done_settled (unicode_lower : string -> string) (image_size : bytes -> option (Z * Z)) (ids : nat -> string)
    (open_error : RunOptions -> list string -> option Err) (toolResults : bool) (s s' : runState) (inputs : list input) :
  open_run write_error unicode_lower image_size ids open_error request toolResults = Ok (tools, s) ->
  run_inputs write_error gzip_read decodeTrailer request tools inputs s = (Ok true, s') -> finished s'.
Proof.
  intros (payload & store & total & V & ->)%open_run_state. apply run_inputs_ends.
  apply running_logged; [done|]. split; cbn; by try constructor.
Qed.

(** ** Answering every call *)
Definition result_key (r : ToolResult) : string := TrimSpace (tr_ToolCallID r).
Definition reply_to (m : decodedWireMessage) (r : ToolResult) : bytes := encodeMCPResult (wm_ID m) (wm_ExecID m) (trim_result r).
Definition answer (pending : gmap string decodedWireMessage) (r : ToolResult) : list action :=
  match pending !! result_key r with
  | Some m => [Wrote (reply_to m r); Emit (with_result (trim_result r) (event_of EventToolResultAccepted))]
  | None => []
  end.
Definition answers_fit (pending : gmap string decodedWireMessage) (r : ToolResult) : Prop :=
  result_key r <> "" /\ exists m, pending !! result_key r = Some m /\ blen (reply_to m r) <= maxConnectPayloadSize.

Lemma answer_one r s :
  (forall l, write_error l = None) -> answers_fit (st_pendingTools s) r ->
  exists s', on_tool_result write_error r s = (Ok Continue, s') /\
    st_pendingTools s' = delete (result_key r) (st_pendingTools s) /\ st_toolResults s' = st_toolResults s /\
    (st_pendingTools s' = ∅ -> st_parkSignaled s' = false) /\ st_log s' = st_log s ++ answer (st_pendingTools s) r.
Proof.
  intros Hw [Hk (m & Hm & Hfit)]. unfold on_tool_result, run_bind, run_get. cbv zeta. change (tr_ToolCallID (trim_result r)) with (result_key r).
  rewrite bool_decide_eq_false_2 by done. rewrite Hm. unfold sendToolResult, run_bind, write, writeConnectPayload.
  fold (reply_to m r). rewrite (proj2 (Z.ltb_ge _ _) Hfit). unfold stream_write. rewrite Hw. unfold run_modify, run_ret, emit, answer. rewrite Hm.
  change (tr_ToolCallID (trim_result r)) with (result_key r). fold (reply_to m r). generalize (reply_to m r). intros reply. clear.
  cbn -[delete]. eexists. split; [reflexivity|].
  case_bool_decide; cbn -[delete]; rewrite !andb_false_r; st_simpl; rewrite <-app_assoc; by split_and!.
Qed.

(** C17 Every pending call can be answered: with a stream that accepts writes,
    handing in one result for each pending call, in any order, empties the batch
    and re-arms the park signal, and each result was written exactly once, to the
    message and execution id of its own call, and then acknowledged. *)
Theorem answers_drain (results : list ToolResult) (s : runState) :
  (forall l, write_error l = None) -> st_toolResults s = true -> results <> [] ->
  NoDup (result_key <$> results) -> Forall (answers_fit (st_pendingTools s)) results ->
  (forall id, is_Some (st_pendingTools s !! id) -> id ∈ result_key <$> results) ->
  exists s', run_inputs write_error gzip_read decodeTrailer request tools (ToolResultReceived <$> results) s = (Ok false, s') /\
    st_pendingTools s' = ∅ /\ st_parkSignaled s' = false /\
    st_log s' = st_log s ++ concat (answer (st_pendingTools s) <$> results).
Proof.
  intros Hw. revert s. induction results as [|r results IH]; intros s Ho Hne Hnd Hfit Hall; [done|].
  apply Forall_cons in Hfit as [Hr Hfit]. rewrite fmap_cons in Hnd. apply NoDup_cons in Hnd as [Hnotin Hnd].
  destruct (answer_one r s Hw Hr) as (s1 & E1 & Hp & Ho1 & Hpark & Hlog).
  rewrite fmap_cons. cbn [run_inputs on_input]. unfold run_bind, run_get. rewrite Ho, E1.
  assert (forall r', r' ∈ results -> st_pendingTools s1 !! result_key r' = st_pendingTools s !! result_key r') as Hsame.
  { intros r' Hr'. rewrite Hp, lookup_delete_ne; [done|]. intros E. apply Hnotin. rewrite E. apply list_elem_of_fmap. by exists r'. }
  destruct (decide (results = [])) as [->|Hne'].
  - exists s1. cbn [fmap list_fmap run_inputs concat]. rewrite app_nil_r.
    assert (st_pendingTools s1 = ∅) as Hemp.
    { apply map_eq. intros id. rewrite lookup_empty, Hp. destruct (st_pendingTools s !! id) eqn:E.
      - specialize (Hall id ltac:(by eexists)). apply list_elem_of_singleton in Hall as ->. apply lookup_delete_eq.
      - destruct (decide (result_key r = id)) as [->|]; [apply lookup_delete_eq|by rewrite lookup_delete_ne]. }
    split_and!; auto.
  - destruct (IH s1) as (s2 & E2 & Hp2 & Hk2 & Hl2); [by rewrite Ho1|done|done| | |].
    + apply Forall_forall. intros r' Hr'. rewrite Forall_forall in Hfit. specialize (Hfit r' Hr').
      unfold answers_fit in *. by rewrite Hsame.
    + intros id [m Hm]. rewrite Hp in Hm. destruct (decide (result_key r = id)) as [<-|Hn]; [by rewrite lookup_delete_eq in Hm|].
      rewrite lookup_delete_ne in Hm by done. specialize (Hall id ltac:(by eexists)). rewrite fmap_cons in Hall.
      apply elem_of_cons in Hall as [->|Hall]; done.
    + exists s2. split_and!; [done..|]. rewrite Hl2, Hlog, <-app_assoc. cbn [concat fmap list_fmap].
      assert (answer (st_pendingTools s1) <$> results = answer (st_pendingTools s) <$> results) as ->; [|done].
      apply list_fmap_ext. intros i r' Hr'. unfold answer. rewrite Hsame; [done|]. by eapply list_elem_of_lookup_2.
Qed.

(** ** Independence of the chunking *)
(** An effect that neither reads nor writes the receive buffer. *)
Definition indep {A} (m : run A) : Prop := forall b s, m (set_buffer b s) = ((m s).1, set_buffer b (m s).2).
Lemma indep_bind {A B} (m : run A) (k : A -> run B) : indep m -> (forall a, indep (k a)) -> indep (run_bind m k).
Proof. intros Hm Hk b s. unfold run_bind. rewrite Hm. destruct (m s) as [[a|e] s']; cbn; [apply Hk|done]. Qed.
Lemma indep_ret {A} (a : A) : indep (run_ret a).
Proof. done. Qed.
Lemma indep_fail {A} e : indep (@run_fail A e).
Proof. done. Qed.
Lemma indep_lift {A} (r : result A) : indep (run_lift r).
Proof. done. Qed.
Lemma indep_get {A} (f : runState -> A) : (forall b s, f (set_buffer b s) = f s) -> indep (run_get f).
Proof. intros Hf b s. unfold run_get. by rewrite Hf. Qed.
Lemma indep_modify f : (forall b s, f (set_buffer b s) = set_buffer b (f s)) -> indep (run_modify f).
Proof. intros Hf b s. unfold run_modify. by rewrite Hf. Qed.
Lemma indep_emit e : indep (emit e).
Proof. apply indep_modify. intros b s. by destruct (is_hosted_progress e && _), (is_hosted_progress e && _). Qed.
Lemma indep_write p : indep (write write_error p).
Proof. intros b s. unfold write, writeConnectPayload, stream_write. st_simpl. destruct (_ <? _); [done|]. by destruct (write_error (st_log s)). Qed.
Ltac indep :=
  repeat lazymatch goal with
  | |- indep (run_bind _ _) => apply indep_bind; [|intros ?]
  | |- indep (run_ret _) => apply indep_ret
  | |- indep (run_fail _) => apply indep_fail
  | |- indep (run_lift _) => apply indep_lift
  | |- indep (run_get _) => apply indep_get; done
  | |- indep (run_modify _) => apply indep_modify; intros ? ?; first [done | st_simpl; by case_bool_decide]
  | |- indep (emit _) => apply indep_emit
  | |- indep (write _ _) => apply indep_write
  | |- indep (if ?b then _ else _) => destruct b
  | |- indep (match ?x with _ => _ end) => destruct x
  end.
Lemma indep_on_mcp m : indep (on_mcp write_error request m).
Proof. unfold on_mcp, sendToolResult, park. cbv zeta. indep. Qed.
Lemma indep_on_message m : indep (on_message write_error request tools m).
Proof.
  unfold on_message. pose proof (indep_on_mcp m) as Hmcp. destruct (wm_Type m); try exact Hmcp; cbv zeta; cbn [native_rejection].
  all: unfold on_hosted, on_kv_set, on_interaction_query, on_turn_ended, emit_text, park; indep.
Qed.
Lemma indep_on_frame flags payload : indep (on_frame write_error gzip_read decodeTrailer request tools flags payload).
Proof.
  unfold on_frame. indep; try apply indep_on_message; unfold on_end_stream; (destruct (parseConnectEndStream _ _); [apply indep_fail|]).
  all: intros b s; unfold run_bind, run_get; st_simpl; destruct (negb (st_turnEnded s)); [done|].
  all: repeat (case_bool_decide; cbn [negb]; try done).
  all: change (missing_hosted request (set_buffer b s)) with (missing_hosted request s); destruct (missing_hosted request s); [done|].
  all: apply (indep_bind (emit _) (fun _ => run_ret Finished)); [apply indep_emit|intros; apply indep_ret].
Qed.

Lemma set_buffer_id s : set_buffer (st_buffer s) s = s.
Proof. by destruct s. Qed.
Lemma indep_buffer {A} (m : run A) s : indep m -> st_buffer (m s).2 = st_buffer s.
Proof. intros Hm. rewrite <-(set_buffer_id s) at 1. by rewrite Hm. Qed.

Local Notation loop := (frames_loop write_error gzip_read decodeTrailer request tools).
Local Notation frame := (on_frame write_error gzip_read decodeTrailer request tools).
Lemma loop_step n s :
  loop (S n) s =
  match parseConnectFrame (st_buffer s) with
  | Fail e => (Fail e, s)
  | Ok None => (Ok Continue, s)
  | Ok (Some (flags, payload, k)) =>
      match frame flags payload (set_buffer (drop k (st_buffer s)) s) with
      | (Ok Continue, s) => loop n s
      | r => r
      end
  end.
Proof.
  cbn [frames_loop]. unfold run_bind, run_get, run_lift, run_modify. destruct (parseConnectFrame _) as [[[[flags payload] k]|]|]; [|done..].
  by destruct (frame _ _ _) as [[[]|] s'].
Qed.
Lemma loop_fuel n m s : (length (st_buffer s) < n)%nat -> (length (st_buffer s) < m)%nat -> loop n s = loop m s.
Proof.
  revert m s. induction n as [|n IH]; intros [|m] s Hn Hm; try lia. rewrite !loop_step.
  destruct (parseConnectFrame _) as [[[[flags payload] k]|]|] eqn:E; [|done..]. apply parse_some in E as (Hc & H5 & _).
  pose proof (indep_buffer _ (set_buffer (drop k (st_buffer s)) s) (indep_on_frame flags payload)) as Hb.
  destruct (frame _ _ _) as [[[]|] s']; [|done..]. cbn in Hb. apply IH; rewrite Hb, length_drop; lia.
Qed.
(** The loop with enough fuel. *)
Definition process (s : runState) : result control * runState := loop (S (length (st_buffer s))) s.
Lemma process_step s :
  process s =
  match parseConnectFrame (st_buffer s) with
  | Fail e => (Fail e, s)
  | Ok None => (Ok Continue, s)
  | Ok (Some (flags, payload, k)) =>
      match frame flags payload (set_buffer (drop k (st_buffer s)) s) with
      | (Ok Continue, s) => process s
      | r => r
      end
  end.
Proof.
  unfold process at 1. rewrite loop_step. destruct (parseConnectFrame _) as [[[[flags payload] k]|]|] eqn:E; [|done..].
  apply parse_some in E as (Hc & H5 & _).
  pose proof (indep_buffer _ (set_buffer (drop k (st_buffer s)) s) (indep_on_frame flags payload)) as Hb.
  destruct (frame _ _ _) as [[[]|] s']; [|done..]. cbn in Hb. apply loop_fuel; rewrite Hb, ?length_drop; lia.
Qed.
(** Bytes that arrive later do not change what the earlier ones did. *)
Lemma process_app c s :
  process (set_buffer (st_buffer s ++ c) s) =
  match process s with
  | (Ok Continue, s1) => process (set_buffer (st_buffer s1 ++ c) s1)
  | (r, s1) => (r, set_buffer (st_buffer s1 ++ c) s1)
  end.
Proof.
  remember (length (st_buffer s)) as n eqn:Hn. revert s Hn. induction n as [n IH] using lt_wf_ind. intros s ->.
  rewrite (process_step s). destruct (parseConnectFrame (st_buffer s)) as [[[[flags payload] k]|]|e] eqn:E; [|done|].
  - pose proof (parse_some _ _ _ _ E) as (Hk & H5 & _). rewrite process_step. st_simpl. rewrite (parse_app _ c _ E), drop_app_le by done.
    change (set_buffer (drop k (st_buffer s) ++ c) (set_buffer (st_buffer s ++ c) s)) with (set_buffer (drop k (st_buffer s) ++ c) s).
    rewrite !(indep_on_frame flags payload _ s). destruct (frame flags payload s) as [[[]|] s']; cbn [fst snd]; [|done..].
    apply (IH (length (drop k (st_buffer s))) ltac:(rewrite length_drop; lia) (set_buffer (drop k (st_buffer s)) s')). done.
  - rewrite process_step. st_simpl. by rewrite (parse_fail_app _ c _ E).
Qed.
Lemma process_drained s s1 : process s = (Ok Continue, s1) -> parseConnectFrame (st_buffer s1) = Ok None.
Proof.
  remember (length (st_buffer s)) as n eqn:Hn. revert s Hn. induction n as [n IH] using lt_wf_ind. intros s ->. rewrite process_step.
  destruct (parseConnectFrame (st_buffer s)) as [[[[flags payload] k]|]|e] eqn:E; [|by intros [= <-]|done].
  pose proof (parse_some _ _ _ _ E) as (Hk & H5 & _).
  pose proof (indep_buffer _ (set_buffer (drop k (st_buffer s)) s) (indep_on_frame flags payload)) as Hb.
  destruct (frame _ _ _) as [[[]|] s']; [|done..]. cbn in Hb. apply (IH (length (st_buffer s'))); [rewrite Hb, length_drop; lia|done].
Qed.

Definition returned (r : result control) : result bool :=
  match r with Ok Finished => Ok true | Ok Continue => Ok false | Fail e => Fail e end.
Lemma chunks_at_once chunks s :
  parseConnectFrame (st_buffer s) = Ok None ->
  let out := run_inputs write_error gzip_read decodeTrailer request tools (Chunk <$> chunks) s in
  let whole := process (set_buffer (st_buffer s ++ concat chunks) s) in
  out.1 = returned whole.1 /\ set_buffer [] out.2 = set_buffer [] whole.2.
Proof.
  cbv zeta. revert s. induction chunks as [|c chunks IH]; intros s Hs; cbn [fmap list_fmap concat run_inputs].
  { rewrite app_nil_r, set_buffer_id, process_step, Hs. split; reflexivity. }
  unfold run_bind. cbn [on_input]. change (on_chunk write_error gzip_read decodeTrailer request tools c s) with (process (set_buffer (st_buffer s ++ c) s)).
  pose proof (process_app (concat chunks) (set_buffer (st_buffer s ++ c) s)) as Ha. st_simpl. cbn [st_buffer set_buffer] in Ha.
  rewrite <-app_assoc in Ha. change (set_buffer ?x (set_buffer ?y s)) with (set_buffer x s) in Ha. rewrite Ha.
  destruct (process (set_buffer (st_buffer s ++ c) s)) as [[[]|e] s1] eqn:P; [|split; reflexivity|split; reflexivity]. apply IH. by eapply process_drained.
Qed.

(** C18 A run does not depend on the network's segmentation: cut the same bytes into
    chunks in two different ways and the run returns the same, in the same state,
    having emitted the same events and written the same replies in the same order
    (only bytes left unread after the end may sit differently in the buffer). *)
Theorem chunking_irrelevant (chunks chunks' : list bytes) (s : runState) :
  st_buffer s = [] -> concat chunks = concat chunks' ->
  let out := run_inputs write_error gzip_read decodeTrailer request tools (Chunk <$> chunks) s in
  let out' := run_inputs write_error gzip_read decodeTrailer request tools (Chunk <$> chunks') s in
  out.1 = out'.1 /\ set_buffer [] out.2 = set_buffer [] out'.2.
Proof.
  intros Hb Hc. assert (parseConnectFrame (st_buffer s) = Ok None) as Hp by by rewrite Hb.
  destruct (chunks_at_once chunks s Hp) as [E1 E2], (chunks_at_once chunks' s Hp) as [E3 E4]. rewrite Hc in *.
  cbv zeta. by rewrite E1, E2, E3, E4.
Qed.
End props.

Definition sample_inputs : list input := [Chunk sample_call; ToolResultReceived sample_answer; Chunk sample_turn; Chunk sample_end].
Definition sample_final : runState := (run_inputs no_write_error no_gzip no_trailer sample_run [] sample_inputs sample_started).2.
Lemma run_done_settled_witness : length (st_log sample_final) = 7%nat /\ finished sample_run sample_final.
Proof.
  split; [vm_compute; reflexivity|].
  apply (run_done_settled no_write_error no_gzip no_trailer sample_run [] (fun s => s) (fun _ => None) (fun _ => "id") (fun _ _ => None) true
           sample_started sample_final sample_inputs); vm_compute; reflexivity.
Defined.
Definition sample_pending : runState :=
  set_pendingTools {["call-1" := set_id 7 (set_exec_id "exec-7" new_message)]} (initial_state ∅ 0 true).
Lemma answers_drain_witness :
  exists s', run_inputs no_write_error no_gzip no_trailer sample_run [] [ToolResultReceived sample_answer] sample_pending = (Ok false, s') /\
    st_pendingTools s' = ∅.
Proof.
  destruct (answers_drain no_write_error no_gzip no_trailer sample_run [] [sample_answer] sample_pending) as (s' & E & Hp & _);
    [done|reflexivity|done|apply NoDup_singleton| | |by exists s'].
  - apply Forall_singleton. split; [vm_compute; discriminate|]. eexists. split; [vm_compute; reflexivity|]. vm_compute. discriminate.
  - intros id [m Hm]. unfold sample_pending in Hm. st_simpl. cbn [st_pendingTools set_pendingTools] in Hm.
    apply lookup_singleton_Some in Hm as [<- _]. apply list_elem_of_singleton. vm_compute. reflexivity.
Defined.
Lemma chunking_irrelevant_witness :
  (run_inputs no_write_error no_gzip no_trailer sample_run [] (Chunk <$> [sample_turn; sample_end]) sample_pending).1 =
  (run_inputs no_write_error no_gzip no_trailer sample_run [] (Chunk <$> [take 3 sample_turn; drop 3 sample_turn ++ sample_end]) sample_pending).1.
Proof.
  apply (chunking_irrelevant no_write_error no_gzip no_trailer sample_run [] [sample_turn; sample_end]
           [take 3 sample_turn; drop 3 sample_turn ++ sample_end] sample_pending); vm_compute; reflexivity.
Defined.
