(* ===== verification/Projection.v ===== *)
(** * Projecting a run into Claude and chat responses (src/cursoragentv1/project_claude.go, project_usage.go)

    The events of a run become Messages events: content blocks opened, extended and
    closed, hosted searches as server tool blocks, caller tools at the hand-off, and
    the final usage.  The same state also keeps the blocks of the non-streamed body.
    For chat clients every line goes through the SDK translator, a parameter; so are
    the tokenizers. *)
From stdpp Require Import base tactics list gmap strings sorting.
From Stdlib Require Import Strings.Byte.
From S2P Require Import Prelude GoStrings Sha256 JsonValue Connect Data HostedPolicy Usage Segment Manager Media HostedSearch.
Open Scope Z_scope.

(** ** Events and blocks *)
(** The content block a [content_block_start] announces. *)
Inductive startBlock : Type :=
  | StartText | StartThinking | StartSignedThinking | StartToolUse (id name : string) | StartServerToolUse (id name : string)
  | StartResult (type id : string) (content : any).
Inductive delta : Type :=
  | TextDelta (text : string) | CitationsDelta (citation : any) | ThinkingDelta (text : string)
  | SignatureDelta (signature : string) | InputJSONDelta (partial : string).
Inductive claudeEvent : Type :=
  | MessageStart (id model : string) | BlockStart (index : Z) (block : startBlock) | BlockDelta (index : Z) (d : delta)
  | BlockStop (index : Z) | MessageDelta (reason : string) (usage : object) | MessageStop.
(** The content blocks of the non-streamed body. *)
Inductive block : Type :=
  | TextBlock (text : string) (citations : list any) | ThinkingBlock (text : string) | SignedThinkingBlock (text signature : string)
  | ToolUseBlock (id name : string) (input : any) | ServerToolUseBlock (id name : string) (input : object)
  | ResultBlock (type id : string) (content : any).

Definition str (s : string) : any := AnyString s.
Definition start_json (b : startBlock) : any :=
  AnyMap match b with
  | StartText => [("type", str "text"); ("text", str "")]
  | StartThinking => [("type", str "thinking"); ("thinking", str "")]
  | StartSignedThinking => [("type", str "thinking"); ("thinking", str ""); ("signature", str "")]
  | StartToolUse id name => [("type", str "tool_use"); ("id", str id); ("name", str name); ("input", AnyMap [])]
  | StartServerToolUse id name => [("type", str "server_tool_use"); ("id", str id); ("name", str name); ("input", AnyMap [])]
  | StartResult type id content => [("type", str type); ("tool_use_id", str id); ("content", content)]
  end.
Definition delta_json (d : delta) : any :=
  AnyMap match d with
  | TextDelta text => [("type", str "text_delta"); ("text", str text)]
  | CitationsDelta citation => [("type", str "citations_delta"); ("citation", citation)]
  | ThinkingDelta text => [("type", str "thinking_delta"); ("thinking", str text)]
  | SignatureDelta signature => [("type", str "signature_delta"); ("signature", str signature)]
  | InputJSONDelta partial => [("type", str "input_json_delta"); ("partial_json", str partial)]
  end.
Definition event_json (e : claudeEvent) : any :=
  AnyMap match e with
  | MessageStart id model =>
      [("type", str "message_start");
       ("message", AnyMap [("id", str id); ("type", str "message"); ("role", str "assistant"); ("content", AnyList []); ("model", str model);
                           ("stop_reason", AnyNil); ("stop_sequence", AnyNil);
                           ("usage", AnyMap [("input_tokens", AnyInt 0); ("output_tokens", AnyInt 0)])])]
  | BlockStart index b => [("type", str "content_block_start"); ("index", AnyInt index); ("content_block", start_json b)]
  | BlockDelta index d => [("type", str "content_block_delta"); ("index", AnyInt index); ("delta", delta_json d)]
  | BlockStop index => [("type", str "content_block_stop"); ("index", AnyInt index)]
  | MessageDelta reason usage =>
      [("type", str "message_delta"); ("delta", AnyMap [("stop_reason", str reason); ("stop_sequence", AnyNil)]); ("usage", AnyMap usage)]
  | MessageStop => [("type", str "message_stop")]
  end.
Definition block_json (b : block) : any :=
  AnyMap match b with
  | TextBlock text [] => [("type", str "text"); ("text", str text)]
  | TextBlock text citations => [("type", str "text"); ("text", str text); ("citations", AnyList citations)]
  | ThinkingBlock text => [("type", str "thinking"); ("thinking", str text)]
  | SignedThinkingBlock text signature => [("type", str "thinking"); ("thinking", str text); ("signature", str signature)]
  | ToolUseBlock id name input => [("type", str "tool_use"); ("id", str id); ("name", str name); ("input", input)]
  | ServerToolUseBlock id name input => [("type", str "server_tool_use"); ("id", str id); ("name", str name); ("input", AnyMap input)]
  | ResultBlock type id content => [("type", str type); ("tool_use_id", str id); ("content", content)]
  end.

(** ** State *)
Inductive Format : Type := FormatClaude | FormatOpenAI | FormatOpenAIResponse | FormatOther (name : string).
#[export] Instance Format_eq_dec : EqDecision Format.
Proof. solve_decision. Defined.
(** [claudeSSE] is the buffer's events in order ([claude_sse] gives its bytes); [T] is
    the translator's state. *)
Record claudeProjection (T : Type) := {
  pj_historyTurn : bool; pj_model : string; pj_messageID : string; pj_responseFormat : Format; pj_request : bytes;
  pj_started : bool; pj_textOpen : bool; pj_textIndex : Z; pj_thinkingOpen : bool; pj_thinkingIndex : Z;
  pj_blockIndex : Z; pj_text : string; pj_thinking : string; pj_toolCalls : list ToolCall; pj_blocks : list block;
  pj_citations : list any; pj_hostedStarted : gset string; pj_claudeSSE : list claudeEvent; pj_facts : usageFacts;
  pj_semantic : bool; pj_param : T }.
Arguments pj_historyTurn {T} c. Arguments pj_model {T} c. Arguments pj_messageID {T} c. Arguments pj_responseFormat
{T} c. Arguments pj_request {T} c. Arguments pj_started {T} c. Arguments pj_textOpen {T} c. Arguments pj_textIndex {T}
c. Arguments pj_thinkingOpen {T} c. Arguments pj_thinkingIndex {T} c. Arguments pj_blockIndex {T} c. Arguments pj_text
{T} c. Arguments pj_thinking {T} c. Arguments pj_toolCalls {T} c. Arguments pj_blocks {T} c. Arguments pj_citations
{T} c. Arguments pj_hostedStarted {T} c. Arguments pj_claudeSSE {T} c. Arguments pj_facts {T} c. Arguments pj_semantic
{T} c. Arguments pj_param {T} c.
Definition set_started {T} (x : bool) (p : claudeProjection T) : claudeProjection T :=
  {| pj_historyTurn := pj_historyTurn p; pj_model := pj_model p; pj_messageID := pj_messageID p; pj_responseFormat
     := pj_responseFormat p; pj_request := pj_request p; pj_started := x; pj_textOpen := pj_textOpen p; pj_textIndex
     := pj_textIndex p; pj_thinkingOpen := pj_thinkingOpen p; pj_thinkingIndex := pj_thinkingIndex p; pj_blockIndex
     := pj_blockIndex p; pj_text := pj_text p; pj_thinking := pj_thinking p; pj_toolCalls := pj_toolCalls p;
     pj_blocks := pj_blocks p; pj_citations := pj_citations p; pj_hostedStarted := pj_hostedStarted p; pj_claudeSSE
     := pj_claudeSSE p; pj_facts := pj_facts p; pj_semantic := pj_semantic p; pj_param := pj_param p |}.
Definition set_textOpen {T} (x : bool) (p : claudeProjection T) : claudeProjection T :=
  {| pj_historyTurn := pj_historyTurn p; pj_model := pj_model p; pj_messageID := pj_messageID p; pj_responseFormat
     := pj_responseFormat p; pj_request := pj_request p; pj_started := pj_started p; pj_textOpen := x; pj_textIndex
     := pj_textIndex p; pj_thinkingOpen := pj_thinkingOpen p; pj_thinkingIndex := pj_thinkingIndex p; pj_blockIndex
     := pj_blockIndex p; pj_text := pj_text p; pj_thinking := pj_thinking p; pj_toolCalls := pj_toolCalls p;
     pj_blocks := pj_blocks p; pj_citations := pj_citations p; pj_hostedStarted := pj_hostedStarted p; pj_claudeSSE
     := pj_claudeSSE p; pj_facts := pj_facts p; pj_semantic := pj_semantic p; pj_param := pj_param p |}.
Definition set_textIndex {T} (x : Z) (p : claudeProjection T) : claudeProjection T :=
  {| pj_historyTurn := pj_historyTurn p; pj_model := pj_model p; pj_messageID := pj_messageID p; pj_responseFormat
     := pj_responseFormat p; pj_request := pj_request p; pj_started := pj_started p; pj_textOpen := pj_textOpen p;
     pj_textIndex := x; pj_thinkingOpen := pj_thinkingOpen p; pj_thinkingIndex := pj_thinkingIndex p; pj_blockIndex
     := pj_blockIndex p; pj_text := pj_text p; pj_thinking := pj_thinking p; pj_toolCalls := pj_toolCalls p;
     pj_blocks := pj_blocks p; pj_citations := pj_citations p; pj_hostedStarted := pj_hostedStarted p; pj_claudeSSE
     := pj_claudeSSE p; pj_facts := pj_facts p; pj_semantic := pj_semantic p; pj_param := pj_param p |}.
Definition set_thinkingOpen {T} (x : bool) (p : claudeProjection T) : claudeProjection T :=
  {| pj_historyTurn := pj_historyTurn p; pj_model := pj_model p; pj_messageID := pj_messageID p; pj_responseFormat
     := pj_responseFormat p; pj_request := pj_request p; pj_started := pj_started p; pj_textOpen := pj_textOpen p;
     pj_textIndex := pj_textIndex p; pj_thinkingOpen := x; pj_thinkingIndex := pj_thinkingIndex p; pj_blockIndex :=
     pj_blockIndex p; pj_text := pj_text p; pj_thinking := pj_thinking p; pj_toolCalls := pj_toolCalls p; pj_blocks
     := pj_blocks p; pj_citations := pj_citations p; pj_hostedStarted := pj_hostedStarted p; pj_claudeSSE :=
     pj_claudeSSE p; pj_facts := pj_facts p; pj_semantic := pj_semantic p; pj_param := pj_param p |}.
Definition set_thinkingIndex {T} (x : Z) (p : claudeProjection T) : claudeProjection T :=
  {| pj_historyTurn := pj_historyTurn p; pj_model := pj_model p; pj_messageID := pj_messageID p; pj_responseFormat
     := pj_responseFormat p; pj_request := pj_request p; pj_started := pj_started p; pj_textOpen := pj_textOpen p;
     pj_textIndex := pj_textIndex p; pj_thinkingOpen := pj_thinkingOpen p; pj_thinkingIndex := x; pj_blockIndex :=
     pj_blockIndex p; pj_text := pj_text p; pj_thinking := pj_thinking p; pj_toolCalls := pj_toolCalls p; pj_blocks
     := pj_blocks p; pj_citations := pj_citations p; pj_hostedStarted := pj_hostedStarted p; pj_claudeSSE :=
     pj_claudeSSE p; pj_facts := pj_facts p; pj_semantic := pj_semantic p; pj_param := pj_param p |}.
Definition set_blockIndex {T} (x : Z) (p : claudeProjection T) : claudeProjection T :=
  {| pj_historyTurn := pj_historyTurn p; pj_model := pj_model p; pj_messageID := pj_messageID p; pj_responseFormat
     := pj_responseFormat p; pj_request := pj_request p; pj_started := pj_started p; pj_textOpen := pj_textOpen p;
     pj_textIndex := pj_textIndex p; pj_thinkingOpen := pj_thinkingOpen p; pj_thinkingIndex := pj_thinkingIndex p;
     pj_blockIndex := x; pj_text := pj_text p; pj_thinking := pj_thinking p; pj_toolCalls := pj_toolCalls p;
     pj_blocks := pj_blocks p; pj_citations := pj_citations p; pj_hostedStarted := pj_hostedStarted p; pj_claudeSSE
     := pj_claudeSSE p; pj_facts := pj_facts p; pj_semantic := pj_semantic p; pj_param := pj_param p |}.
Definition set_text {T} (x : string) (p : claudeProjection T) : claudeProjection T :=
  {| pj_historyTurn := pj_historyTurn p; pj_model := pj_model p; pj_messageID := pj_messageID p; pj_responseFormat
     := pj_responseFormat p; pj_request := pj_request p; pj_started := pj_started p; pj_textOpen := pj_textOpen p;
     pj_textIndex := pj_textIndex p; pj_thinkingOpen := pj_thinkingOpen p; pj_thinkingIndex := pj_thinkingIndex p;
     pj_blockIndex := pj_blockIndex p; pj_text := x; pj_thinking := pj_thinking p; pj_toolCalls := pj_toolCalls p;
     pj_blocks := pj_blocks p; pj_citations := pj_citations p; pj_hostedStarted := pj_hostedStarted p; pj_claudeSSE
     := pj_claudeSSE p; pj_facts := pj_facts p; pj_semantic := pj_semantic p; pj_param := pj_param p |}.
Definition set_thinking {T} (x : string) (p : claudeProjection T) : claudeProjection T :=
  {| pj_historyTurn := pj_historyTurn p; pj_model := pj_model p; pj_messageID := pj_messageID p; pj_responseFormat
     := pj_responseFormat p; pj_request := pj_request p; pj_started := pj_started p; pj_textOpen := pj_textOpen p;
     pj_textIndex := pj_textIndex p; pj_thinkingOpen := pj_thinkingOpen p; pj_thinkingIndex := pj_thinkingIndex p;
     pj_blockIndex := pj_blockIndex p; pj_text := pj_text p; pj_thinking := x; pj_toolCalls := pj_toolCalls p;
     pj_blocks := pj_blocks p; pj_citations := pj_citations p; pj_hostedStarted := pj_hostedStarted p; pj_claudeSSE
     := pj_claudeSSE p; pj_facts := pj_facts p; pj_semantic := pj_semantic p; pj_param := pj_param p |}.
Definition set_toolCalls {T} (x : list ToolCall) (p : claudeProjection T) : claudeProjection T :=
  {| pj_historyTurn := pj_historyTurn p; pj_model := pj_model p; pj_messageID := pj_messageID p; pj_responseFormat
     := pj_responseFormat p; pj_request := pj_request p; pj_started := pj_started p; pj_textOpen := pj_textOpen p;
     pj_textIndex := pj_textIndex p; pj_thinkingOpen := pj_thinkingOpen p; pj_thinkingIndex := pj_thinkingIndex p;
     pj_blockIndex := pj_blockIndex p; pj_text := pj_text p; pj_thinking := pj_thinking p; pj_toolCalls := x;
     pj_blocks := pj_blocks p; pj_citations := pj_citations p; pj_hostedStarted := pj_hostedStarted p; pj_claudeSSE
     := pj_claudeSSE p; pj_facts := pj_facts p; pj_semantic := pj_semantic p; pj_param := pj_param p |}.
Definition set_blocks {T} (x : list block) (p : claudeProjection T) : claudeProjection T :=
  {| pj_historyTurn := pj_historyTurn p; pj_model := pj_model p; pj_messageID := pj_messageID p; pj_responseFormat
     := pj_responseFormat p; pj_request := pj_request p; pj_started := pj_started p; pj_textOpen := pj_textOpen p;
     pj_textIndex := pj_textIndex p; pj_thinkingOpen := pj_thinkingOpen p; pj_thinkingIndex := pj_thinkingIndex p;
     pj_blockIndex := pj_blockIndex p; pj_text := pj_text p; pj_thinking := pj_thinking p; pj_toolCalls :=
     pj_toolCalls p; pj_blocks := x; pj_citations := pj_citations p; pj_hostedStarted := pj_hostedStarted p;
     pj_claudeSSE := pj_claudeSSE p; pj_facts := pj_facts p; pj_semantic := pj_semantic p; pj_param := pj_param p |}.
Definition set_citations {T} (x : list any) (p : claudeProjection T) : claudeProjection T :=
  {| pj_historyTurn := pj_historyTurn p; pj_model := pj_model p; pj_messageID := pj_messageID p; pj_responseFormat
     := pj_responseFormat p; pj_request := pj_request p; pj_started := pj_started p; pj_textOpen := pj_textOpen p;
     pj_textIndex := pj_textIndex p; pj_thinkingOpen := pj_thinkingOpen p; pj_thinkingIndex := pj_thinkingIndex p;
     pj_blockIndex := pj_blockIndex p; pj_text := pj_text p; pj_thinking := pj_thinking p; pj_toolCalls :=
     pj_toolCalls p; pj_blocks := pj_blocks p; pj_citations := x; pj_hostedStarted := pj_hostedStarted p;
     pj_claudeSSE := pj_claudeSSE p; pj_facts := pj_facts p; pj_semantic := pj_semantic p; pj_param := pj_param p |}.
Definition set_hostedStarted {T} (x : gset string) (p : claudeProjection T) : claudeProjection T :=
  {| pj_historyTurn := pj_historyTurn p; pj_model := pj_model p; pj_messageID := pj_messageID p; pj_responseFormat
     := pj_responseFormat p; pj_request := pj_request p; pj_started := pj_started p; pj_textOpen := pj_textOpen p;
     pj_textIndex := pj_textIndex p; pj_thinkingOpen := pj_thinkingOpen p; pj_thinkingIndex := pj_thinkingIndex p;
     pj_blockIndex := pj_blockIndex p; pj_text := pj_text p; pj_thinking := pj_thinking p; pj_toolCalls :=
     pj_toolCalls p; pj_blocks := pj_blocks p; pj_citations := pj_citations p; pj_hostedStarted := x; pj_claudeSSE
     := pj_claudeSSE p; pj_facts := pj_facts p; pj_semantic := pj_semantic p; pj_param := pj_param p |}.
Definition set_claudeSSE {T} (x : list claudeEvent) (p : claudeProjection T) : claudeProjection T :=
  {| pj_historyTurn := pj_historyTurn p; pj_model := pj_model p; pj_messageID := pj_messageID p; pj_responseFormat
     := pj_responseFormat p; pj_request := pj_request p; pj_started := pj_started p; pj_textOpen := pj_textOpen p;
     pj_textIndex := pj_textIndex p; pj_thinkingOpen := pj_thinkingOpen p; pj_thinkingIndex := pj_thinkingIndex p;
     pj_blockIndex := pj_blockIndex p; pj_text := pj_text p; pj_thinking := pj_thinking p; pj_toolCalls :=
     pj_toolCalls p; pj_blocks := pj_blocks p; pj_citations := pj_citations p; pj_hostedStarted := pj_hostedStarted
     p; pj_claudeSSE := x; pj_facts := pj_facts p; pj_semantic := pj_semantic p; pj_param := pj_param p |}.
Definition set_facts {T} (x : usageFacts) (p : claudeProjection T) : claudeProjection T :=
  {| pj_historyTurn := pj_historyTurn p; pj_model := pj_model p; pj_messageID := pj_messageID p; pj_responseFormat
     := pj_responseFormat p; pj_request := pj_request p; pj_started := pj_started p; pj_textOpen := pj_textOpen p;
     pj_textIndex := pj_textIndex p; pj_thinkingOpen := pj_thinkingOpen p; pj_thinkingIndex := pj_thinkingIndex p;
     pj_blockIndex := pj_blockIndex p; pj_text := pj_text p; pj_thinking := pj_thinking p; pj_toolCalls :=
     pj_toolCalls p; pj_blocks := pj_blocks p; pj_citations := pj_citations p; pj_hostedStarted := pj_hostedStarted
     p; pj_claudeSSE := pj_claudeSSE p; pj_facts := x; pj_semantic := pj_semantic p; pj_param := pj_param p |}.
Definition set_semantic {T} (x : bool) (p : claudeProjection T) : claudeProjection T :=
  {| pj_historyTurn := pj_historyTurn p; pj_model := pj_model p; pj_messageID := pj_messageID p; pj_responseFormat
     := pj_responseFormat p; pj_request := pj_request p; pj_started := pj_started p; pj_textOpen := pj_textOpen p;
     pj_textIndex := pj_textIndex p; pj_thinkingOpen := pj_thinkingOpen p; pj_thinkingIndex := pj_thinkingIndex p;
     pj_blockIndex := pj_blockIndex p; pj_text := pj_text p; pj_thinking := pj_thinking p; pj_toolCalls :=
     pj_toolCalls p; pj_blocks := pj_blocks p; pj_citations := pj_citations p; pj_hostedStarted := pj_hostedStarted
     p; pj_claudeSSE := pj_claudeSSE p; pj_facts := pj_facts p; pj_semantic := x; pj_param := pj_param p |}.
Definition set_param {T} (x : T) (p : claudeProjection T) : claudeProjection T :=
  {| pj_historyTurn := pj_historyTurn p; pj_model := pj_model p; pj_messageID := pj_messageID p; pj_responseFormat
     := pj_responseFormat p; pj_request := pj_request p; pj_started := pj_started p; pj_textOpen := pj_textOpen p;
     pj_textIndex := pj_textIndex p; pj_thinkingOpen := pj_thinkingOpen p; pj_thinkingIndex := pj_thinkingIndex p;
     pj_blockIndex := pj_blockIndex p; pj_text := pj_text p; pj_thinking := pj_thinking p; pj_toolCalls :=
     pj_toolCalls p; pj_blocks := pj_blocks p; pj_citations := pj_citations p; pj_hostedStarted := pj_hostedStarted
     p; pj_claudeSSE := pj_claudeSSE p; pj_facts := pj_facts p; pj_semantic := pj_semantic p; pj_param := x |}.

(** ** Effects *)
Definition proj (T A : Type) : Type := claudeProjection T -> A * claudeProjection T.
Definition pret {T A} (a : A) : proj T A := fun p => (a, p).
Definition pbind {T A B} (m : proj T A) (k : A -> proj T B) : proj T B := fun p => let '(a, p) := m p in k a p.
Definition pget {T A} (f : claudeProjection T -> A) : proj T A := fun p => (f p, p).
Definition pset {T} (f : claudeProjection T -> claudeProjection T) : proj T unit := fun p => (tt, f p).
Declare Scope proj_scope.
Delimit Scope proj_scope with proj.
Notation "x <- m ;; k" := (pbind m (fun x => k)) (at level 100, m at next level, right associativity) : proj_scope.
Notation "m ;;; k" := (pbind m (fun _ => k)) (at level 100, right associativity) : proj_scope.
Open Scope proj_scope.
(** [chunks = append(chunks, f()...)]. *)
Definition pthen {T} (m k : proj T (list bytes)) : proj T (list bytes) :=
  c <- m ;; c' <- k ;; pret (c ++ c').
Notation "m >+> k" := (pthen m k) (at level 60, right associativity) : proj_scope.

(** [helps.TokenizerForModel] with [Count], and [helps.CountClaudeInputTokens]. *)
Class Tokens := { token_count : string -> string -> option Z; claude_input_tokens : bytes -> option Z }.

Definition data_prefix : bytes := to_bytes "data: ".
Definition blank_line : bytes := [x0a%byte; x0a%byte].
Definition marshal_or_nil `{JSON} (v : any) : bytes := default [] (json_marshal v).
Definition sse_line `{JSON} (e : claudeEvent) : bytes := data_prefix ++ marshal_or_nil (event_json e).
Definition claude_sse `{JSON} {T} (p : claudeProjection T) : bytes := concat ((fun e => sse_line e ++ blank_line) <$> pj_claudeSSE p).

Section projection.
Context `{JSON} `{NetURL} `{Tokens} {T : Type}.
(** [TranslateStream] and [TranslateNonStream] of the SDK for a response format. *)
Context (translate : Format -> T -> bytes -> list bytes * T) (translate_all : Format -> T -> bytes -> bytes).
Local Notation proj := (proj T).

(** ** Usage *)
Definition usable_output (usage : option UsageObservation) : option Z :=
  match usage with
  | Some u => if oc_Present (uo_Output u) && negb (oc_Invalid (uo_Output u)) && (0 <=? oc_Value (uo_Output u))
              then Some (oc_Value (uo_Output u)) else None
  | None => None
  end.
Definition outputTokens (p : claudeProjection T) : Z :=
  let f := pj_facts p in
  if negb (uf_measuredEnabled f) then publicOutputTokens f
  else match uf_freshTerminal f, usable_output (uf_turnEnded f) with
       | true, Some value => value
       | fresh, prior =>
           match token_count (pj_model p) (uf_visibleOutput f) with
           | None => 0
           | Some count => match fresh, prior with false, Some prior => wrap_i64 (prior + count) | _, _ => count end
           end
       end.
Definition estimatedInputTokens (p : claudeProjection T) : Z := default 0 (claude_input_tokens (pj_request p)).
Definition field_any (f : field) : any := match f with FBool b => AnyBool b | FInt z => AnyInt z | FStr s => AnyString s end.
Definition privateUsageFields (p : claudeProjection T) : gmap string any :=
  let f := pj_facts p in
  let fields := field_any <$> privateDiagnosticFields f in
  let fields := if pj_historyTurn p then <["cursor_agent_v1_usage_pending" := AnyBool false]> fields
                else if uf_measuredEnabled f && negb (bool_decide (pj_toolCalls p = []))
                then <["cursor_agent_v1_usage_pending" := AnyBool true]> fields else fields in
  if uf_completedSearchObserved f
  then <["cursor_agent_v1_citation_count" := AnyInt (Z.of_nat (length (pj_citations p)))]> fields else fields.
Definition attach_fields (fields : gmap string any) (usage : object) : object :=
  fold_left (fun usage '(key, value) => map_set usage key value) (map_to_list fields) usage.
Definition attachPrivateUsage (p : claudeProjection T) (usage : object) : object := attach_fields (privateUsageFields p) usage.
Definition usagePayload (includeInput : bool) (p : claudeProjection T) : object :=
  let usage := [("output_tokens", AnyInt (outputTokens p))] in
  let usage := if includeInput then map_set usage "input_tokens" (AnyInt 0) else usage in
  let usage :=
    match factsMeasuredTurn (pj_facts p) with
    | Some measured =>
        map_set (map_set (map_set usage "input_tokens" (AnyInt (mu_Input measured)))
          "cache_read_input_tokens" (AnyInt (mu_CacheRead measured))) "cache_creation_input_tokens" (AnyInt (mu_CacheWrite measured))
    | None => if uf_measuredEnabled (pj_facts p) then map_set usage "input_tokens" (AnyInt (estimatedInputTokens p)) else usage
    end in
  attachPrivateUsage p usage.

(** The JSON between an SSE line's [data:] and its trailing line ends. *)
Definition is_newline (b : byte) : bool := Byte.eqb b x0a || Byte.eqb b x0d.
Definition splitSSEJSONPayload (payload : bytes) : bytes * bytes * bytes :=
  let suffixLen := length (span is_newline (reverse payload)).1 in
  let core := take (length payload - suffixLen) payload in
  let suffix := drop (length payload - suffixLen) payload in
  match strip_prefix (to_bytes "data:") core with
  | Some rest => let rest := trim_bytes rest in (take (length core - length rest) core, rest, suffix)
  | None => ([], core, suffix)
  end.
Definition attachPrivateUsageToPayload (p : claudeProjection T) (createUsage : bool) (payload : bytes) : bytes :=
  let fields := privateUsageFields p in
  if bool_decide (fields = ∅) || bool_decide (payload = []) then payload
  else
    let '(prefix, body, suffix) := splitSSEJSONPayload payload in
    match unmarshal_map body with
    | None => payload
    | Some root =>
        let usage := match map_get root "usage" with AnyMap usage => Some usage | _ => None end in
        if bool_decide (usage = None) && negb createUsage then payload
        else
          let usage := attach_fields fields (default [] usage) in
          match json_marshal (AnyMap (map_set root "usage" (AnyMap usage))) with
          | Some encoded => prefix ++ encoded ++ suffix
          | None => payload
          end
    end.

(** ** Emitting *)
Definition project (e : claudeEvent) : proj (list bytes) :=
  pset (fun p => set_claudeSSE (pj_claudeSSE p ++ [e]) p) ;;;
  p <- pget (fun p => p) ;;
  if bool_decide (pj_responseFormat p = FormatClaude) then pret [sse_line e ++ blank_line]
  else
    let '(chunks, param) := translate (pj_responseFormat p) (pj_param p) (sse_line e) in
    pset (set_param param) ;;;
    pret (if bool_decide (pj_responseFormat p = FormatOpenAI) then attachPrivateUsageToPayload p false <$> chunks else chunks).
Definition nextBlock : proj Z :=
  index <- pget pj_blockIndex ;; pset (set_blockIndex (index + 1)) ;;; pret index.
Definition add_block (b : block) : proj unit := pset (fun p => set_blocks (pj_blocks p ++ [b]) p).
Definition start : proj (list bytes) :=
  started <- pget pj_started ;;
  if started : bool then pret []
  else pset (set_started true) ;;; p <- pget (fun p => p) ;; project (MessageStart (pj_messageID p) (pj_model p)).
Definition closeText : proj (list bytes) :=
  p <- pget (fun p => p) ;;
  if negb (pj_textOpen p) then pret []
  else
    pset (set_textOpen false) ;;; pset (set_text "") ;;;
    add_block (TextBlock (pj_text p) (pj_citations p)) ;;;
    project (BlockStop (pj_textIndex p)).
Definition closeThinking : proj (list bytes) :=
  p <- pget (fun p => p) ;;
  if negb (pj_thinkingOpen p) then pret []
  else
    pset (set_thinkingOpen false) ;;; pset (set_thinking "") ;;;
    add_block (ThinkingBlock (pj_thinking p)) ;;;
    project (BlockStop (pj_thinkingIndex p)).
Fixpoint projectCitations (index : Z) (citations : list any) : proj (list bytes) :=
  match citations with
  | [] => pret []
  | citation :: citations => project (BlockDelta index (CitationsDelta citation)) >+> projectCitations index citations
  end.
(** A block that is opened, filled by one delta and closed. *)
Definition whole_block (index : Z) (b : startBlock) (ds : list delta) : proj (list bytes) :=
  project (BlockStart index b)
  >+> fold_right (fun d rest => project (BlockDelta index d) >+> rest) (project (BlockStop index)) ds.
Definition emitSignedThinking (signature : string) : proj (list bytes) :=
  thinking <- pget pj_thinking ;;
  pset (set_thinking "") ;;;
  if bool_decide (TrimSpace signature = "") || bool_decide (TrimSpace thinking = "") then pret []
  else
    pset (set_semantic true) ;;;
    start >+> closeText >+>
      (index <- nextBlock ;;
       add_block (SignedThinkingBlock thinking signature) ;;;
       whole_block index StartSignedThinking [ThinkingDelta thinking; SignatureDelta signature]).
Definition finish (reason : string) : proj (list bytes) :=
  usage <- pget (usagePayload false) ;;
  project (MessageDelta reason usage) >+> project MessageStop.

(** ** Hosted searches *)
Definition projectHostedSearchStarted (search : HostedSearch) : proj (list bytes) :=
  let id := hostedSearchToolID search in
  known <- pget (fun p => bool_decide (id ∈ pj_hostedStarted p)) ;;
  if known : bool then pret []
  else
    pset (fun p => set_hostedStarted ({[id]} ∪ pj_hostedStarted p) p) ;;;
    start >+> closeThinking >+> closeText >+>
      (let name := hostedSearchToolName (hs_Kind search) in
       let input := hostedSearchInput search in
       index <- nextBlock ;;
       add_block (ServerToolUseBlock id name input) ;;;
       whole_block index (StartServerToolUse id name) [InputJSONDelta (of_bytes (marshal_or_nil (AnyMap input)))]).
Definition projectHostedSearchCompleted (search : HostedSearch) : proj (list bytes) :=
  projectHostedSearchStarted search >+>
    (let id := hostedSearchToolID search in
     index <- nextBlock ;;
     let '(resultType, resultContent) := hostedSearchResult search in
     add_block (ResultBlock resultType id resultContent) ;;;
     pset (fun p => set_citations (pj_citations p ++ hostedSearchCitations search) p) ;;;
     whole_block index (StartResult resultType id resultContent) []).

(** ** Annotations of chat clients *)
Definition chat_annotation (citation : any) : option any :=
  match citation with
  | AnyMap block =>
      let url := stringValue (map_get block "url") in
      if usableHTTPSourceURL url then
        Some (AnyMap [("type", str "url_citation");
          ("url_citation", AnyMap [("url", str url); ("title", str (stringValue (map_get block "title"))); ("start_index", AnyInt 0); ("end_index", AnyInt 0)])])
      else None
  | _ => None
  end.
Definition chatAnnotations (p : claudeProjection T) : list any := omap chat_annotation (pj_citations p).
Definition chatAnnotationChunks (p : claudeProjection T) : list bytes :=
  if negb (bool_decide (pj_responseFormat p = FormatOpenAI)) then []
  else match chatAnnotations p with
       | [] => []
       | annotations =>
           match json_marshal (AnyMap [("id", str (pj_messageID p)); ("object", str "chat.completion.chunk"); ("model", str (pj_model p));
                   ("choices", AnyList [AnyMap [("index", AnyInt 0); ("delta", AnyMap [("annotations", AnyList annotations)]); ("finish_reason", AnyNil)]])]) with
           | Some payload => [data_prefix ++ payload ++ blank_line]
           | None => []
           end
       end.
Definition attachChatAnnotations (p : claudeProjection T) (payload : bytes) : result bytes :=
  let annotations := chatAnnotations p in
  if negb (bool_decide (pj_responseFormat p = FormatOpenAI)) || bool_decide (annotations = []) || bool_decide (payload = []) then Ok payload
  else match unmarshal_map payload with
       | None => Ok payload
       | Some root =>
           match map_get root "choices" with
           | AnyList (AnyMap choice :: choices) =>
               match map_get choice "message" with
               | AnyMap message =>
                   let choice := map_set choice "message" (AnyMap (map_set message "annotations" (AnyList annotations))) in
                   match json_marshal (AnyMap (map_set root "choices" (AnyList (AnyMap choice :: choices)))) with
                   | Some encoded => Ok encoded
                   | None => Fail (ErrMsg "json: unsupported value")
                   end
               | _ => Ok payload
               end
           | _ => Ok payload
           end
       end.

(** ** Events of the run *)
Definition bad_gateway (text : string) : Err := ErrRequest 502 text.
(** The empty object for blank arguments; [None]: not valid JSON. *)
Definition call_input (call : ToolCall) : option any :=
  if bool_decide (TrimSpace (tc_Arguments call) = "") then Some (AnyMap []) else json_unmarshal (to_bytes (tc_Arguments call)).
(** [Fail] when a call's arguments do not parse; the calls before it are projected. *)
Fixpoint handoff_calls (calls : list ToolCall) : proj (result (list bytes)) :=
  match calls with
  | [] => pret (Ok [])
  | call :: calls =>
      match call_input call with
      | None => pret (Fail (bad_gateway "Cursor Agent v1 returned invalid tool arguments"))
      | Some input =>
          blockIndex <- nextBlock ;;
          add_block (ToolUseBlock (tc_ToolCallID call) (tc_Name call) input) ;;;
          chunks <- whole_block blockIndex (StartToolUse (tc_ToolCallID call) (tc_Name call)) [InputJSONDelta (of_bytes (marshal_or_nil input))] ;;
          rest <- handoff_calls calls ;;
          pret (rbind rest (fun rest => Ok (chunks ++ rest)))
      end
  end.
(** Chunks, whether the response is complete, whether the session parks. *)
Definition outcome : Type := result (list bytes * bool * bool).
Definition going (m : proj (list bytes)) : proj outcome := chunks <- m ;; pret (Ok (chunks, false, false)).
Definition toolHandoff (park : bool) : proj outcome :=
  calls <- pget pj_toolCalls ;;
  if bool_decide (calls = []) then pret (Fail (bad_gateway "Cursor Agent v1 turnEnded carried no pending tool batch"))
  else
    before <- (start >+> closeThinking >+> closeText) ;;
    called <- handoff_calls calls ;;
    match called with
    | Fail e => pret (Fail e)
    | Ok called => after <- finish "tool_use" ;; pret (Ok (before ++ called ++ after, true, park))
    end.
Definition open_text : proj (list bytes) :=
  p <- pget (fun p => p) ;;
  if pj_textOpen p then pret []
  else
    index <- nextBlock ;;
    pset (set_textIndex index) ;;;
    project (BlockStart index StartText) >+> (pset (set_textOpen true) ;;; projectCitations index (pj_citations p)).
Definition open_thinking : proj (list bytes) :=
  open <- pget pj_thinkingOpen ;;
  if open : bool then pret []
  else
    index <- nextBlock ;;
    pset (set_thinkingIndex index) ;;;
    chunks <- project (BlockStart index StartThinking) ;; pset (set_thinkingOpen true) ;;; pret chunks.
Definition text_delta (text : string) : proj (list bytes) :=
  index <- pget pj_textIndex ;; project (BlockDelta index (TextDelta text)).
Definition thinking_delta (text : string) : proj (list bytes) :=
  index <- pget pj_thinkingIndex ;; project (BlockDelta index (ThinkingDelta text)).

(** [handle] for every format but Responses, after the usage evidence is observed. *)
Definition handle_event (event : Event) : proj outcome :=
  match ev_Type event with
  | EventHostedSearchStarted =>
      pset (set_semantic true) ;;;
      going (match ev_HostedSearch event with Some search => projectHostedSearchStarted search | None => pret [] end)
  | EventHostedSearchCompleted =>
      pset (set_semantic true) ;;;
      going (match ev_HostedSearch event with Some search => projectHostedSearchCompleted search | None => pret [] end)
  | EventToolCall =>
      match ev_ToolCall event with
      | Some call => pset (set_semantic true) ;;; pset (fun p => set_toolCalls (pj_toolCalls p ++ [call]) p) ;;; pret (Ok ([], false, false))
      | None => pret (Ok ([], false, false))
      end
  | EventText =>
      pset (set_semantic true) ;;; pset (fun p => set_text (pj_text p +:+ ev_Text event) p) ;;;
      going (start >+> closeThinking >+> open_text >+> text_delta (ev_Text event))
  | EventThinking =>
      if bool_decide (ev_Text event = "") then pret (Ok ([], false, false))
      else
        pset (fun p => set_thinking (pj_thinking p +:+ ev_Text event) p) ;;;
        format <- pget pj_responseFormat ;;
        if bool_decide (format = FormatClaude) then pret (Ok ([], false, false))
        else pset (set_semantic true) ;;; going (start >+> closeText >+> open_thinking >+> thinking_delta (ev_Text event))
  | EventThinkingCompleted =>
      format <- pget pj_responseFormat ;;
      if bool_decide (format = FormatClaude) then going (emitSignedThinking (ev_Signature event)) else going closeThinking
  | EventTurnEnded => toolHandoff true
  | EventDone =>
      p <- pget (fun p => p) ;;
      if pj_historyTurn p && negb (bool_decide (pj_toolCalls p = [])) then toolHandoff false
      else
        chunks <- (start >+> closeThinking >+> closeText >+> (p <- pget (fun p => p) ;; pret (chatAnnotationChunks p)) >+> finish "end_turn") ;;
        pret (Ok (chunks, true, false))
  | _ => pret (Ok ([], false, false))
  end.
Definition observeUsageEvidence (event : Event) : proj unit := pset (fun p => set_facts (observe (pj_facts p) event) p).
Definition handle (event : Event) : proj outcome := observeUsageEvidence event ;;; handle_event event.

(** ** The non-streamed body *)
Definition stop_reason (p : claudeProjection T) : string := if bool_decide (pj_toolCalls p = []) then "end_turn" else "tool_use".
Definition message_json (p : claudeProjection T) : any :=
  AnyMap [("id", str (pj_messageID p)); ("type", str "message"); ("role", str "assistant"); ("content", AnyList (block_json <$> pj_blocks p));
          ("model", str (pj_model p)); ("stop_reason", str (stop_reason p));
          ("stop_sequence", AnyNil); ("usage", AnyMap (usagePayload true p))].
Definition nonStream (p : claudeProjection T) : result bytes :=
  match json_marshal (message_json p) with
  | None => Fail (ErrMsg "json: unsupported value")
  | Some body =>
      if bool_decide (pj_responseFormat p = FormatClaude) then Ok body
      else
        let translated := translate_all (pj_responseFormat p) (pj_param p) (claude_sse p) in
        rbind (attachChatAnnotations p translated) (fun annotated => Ok (attachPrivateUsageToPayload p true annotated))
  end.
End projection.

(** ** A new projection *)
(** [uuid]: what [uuid.NewString] returns. *)
Definition messageIDFor (format : Format) (sessionID segmentID billingRunID uuid : string) : string :=
  let session := TrimSpace sessionID in
  let id :=
    if bool_decide (format = FormatClaude) then
      let segment := TrimSpace segmentID in
      let segment := if bool_decide (segment = "") then TrimSpace billingRunID else segment in
      if bool_decide (segment = "") then "" else "msg_" +:+ hex_encode (sha256_sum (to_bytes (session +:+ NUL +:+ segment)))
    else session in
  if bool_decide (id = "") then "msg_" +:+ drop_dashes uuid else id.

Record translatedTurn := {
  tt_managed : ManagedRequest; tt_publicModel : string; tt_responseFormat : Format; tt_original : bytes;
  tt_claudeRequest : bytes; tt_parsedUserText : string; tt_replay : bool }.
Definition no_facts (measured : bool) : usageFacts :=
  {| uf_measuredEnabled := measured; uf_terminalCount := 0; uf_freshTerminal := false; uf_visibleOutput := ""; uf_outputTokenDelta := 0;
     uf_outputTokenDeltaObserved := false; uf_outputTokenDeltaInvalid := false; uf_turnEnded := None; uf_hostedSearches := 0;
     uf_completedSearchCount := 0; uf_completedSearchObserved := false; uf_progressEventCount := 0 |}.
(** [param]: the translator's initial state. *)
Definition newClaudeProjection {T} (uuid : string) (param : T) (turn : translatedTurn) : claudeProjection T :=
  let managed := tt_managed turn in
  let model := TrimSpace (tt_publicModel turn) in
  {| pj_historyTurn := negb (bool_decide (HistoryRequestKey (mr_Run managed) = ""));
     pj_model := if bool_decide (model = "") then ro_Model (rr_Options (mr_Run managed)) else model;
     pj_messageID := messageIDFor (tt_responseFormat turn) (mr_SessionID managed) (mr_RequestSegmentID managed) (mr_BillingRunID managed) uuid;
     pj_responseFormat := tt_responseFormat turn; pj_request := tt_claudeRequest turn; pj_started := false; pj_textOpen := false;
     pj_textIndex := 0; pj_thinkingOpen := false; pj_thinkingIndex := 0; pj_blockIndex := 0; pj_text := ""; pj_thinking := "";
     pj_toolCalls := []; pj_blocks := []; pj_citations := []; pj_hostedStarted := ∅; pj_claudeSSE := [];
     pj_facts := no_facts (isMeteredTurn (mr_BillingRunID managed)); pj_semantic := false; pj_param := param |}.
