(* ===== verification/ProjectionProps.v ===== *)
(** * The stream and the body tell the same story (src/cursoragentv1/project_claude.go)

    The Messages streaming protocol as a client sees it, an abstract machine that
    refuses malformed streams; and the refinement: what it accumulates from the
    projected events is the content of the non-streamed body. *)
From stdpp Require Import base tactics list gmap strings sorting.
From Stdlib Require Import Strings.Byte.
From S2P Require Import Prelude GoStrings Sha256 JsonValue Connect Data HostedPolicy Usage Segment Manager Media HostedSearch Projection.
Open Scope Z_scope.
Open Scope proj_scope.

(** ** A client of the Messages stream *)
(** A block as far as it was received; tool inputs as the JSON text. *)
Inductive received : Type :=
  | RText (text : string) (citations : list any) | RThinking (text : string) | RSigned (text signature : string)
  | RToolUse (id name json : string) | RServerToolUse (id name json : string) | RResult (type id : string) (content : any).
Definition opened (b : startBlock) : received :=
  match b with
  | StartText => RText "" []
  | StartThinking => RThinking ""
  | StartSignedThinking => RSigned "" ""
  | StartToolUse id name => RToolUse id name ""
  | StartServerToolUse id name => RServerToolUse id name ""
  | StartResult type id content => RResult type id content
  end.
Definition extended (r : received) (d : delta) : option received :=
  match r, d with
  | RText t c, TextDelta s => Some (RText (t +:+ s) c)
  | RText t c, CitationsDelta x => Some (RText t (c ++ [x]))
  | RThinking t, ThinkingDelta s => Some (RThinking (t +:+ s))
  | RSigned t g, ThinkingDelta s => Some (RSigned (t +:+ s) g)
  | RSigned t g, SignatureDelta s => Some (RSigned t (g +:+ s))
  | RToolUse i n j, InputJSONDelta s => Some (RToolUse i n (j +:+ s))
  | RServerToolUse i n j, InputJSONDelta s => Some (RServerToolUse i n (j +:+ s))
  | _, _ => None
  end.
Record client := {
  cl_started : bool; cl_done : list received; cl_open : option received; cl_reason : option string; cl_stopped : bool }.
Definition new_client : client := {| cl_started := false; cl_done := []; cl_open := None; cl_reason := None; cl_stopped := false |}.
Definition next_index (c : client) : Z := Z.of_nat (length (cl_done c)).
#[export] Instance open_none_dec (r : option received) : Decision (r = None).
Proof. destruct r; [right|left]; done. Defined.
(** [None]: the stream is malformed. *)
Definition client_step (c : client) (e : claudeEvent) : option client :=
  match e with
  | MessageStart _ _ =>
      if cl_started c then None
      else Some {| cl_started := true; cl_done := cl_done c; cl_open := cl_open c; cl_reason := cl_reason c; cl_stopped := cl_stopped c |}
  | BlockStart index b =>
      if cl_started c && negb (cl_stopped c) && bool_decide (cl_open c = None) && bool_decide (cl_reason c = None) && (index =? next_index c)
      then Some {| cl_started := true; cl_done := cl_done c; cl_open := Some (opened b); cl_reason := None; cl_stopped := false |} else None
  | BlockDelta index d =>
      r ← cl_open c; r ← extended r d;
      if index =? next_index c
      then Some {| cl_started := cl_started c; cl_done := cl_done c; cl_open := Some r; cl_reason := cl_reason c; cl_stopped := cl_stopped c |} else None
  | BlockStop index =>
      r ← cl_open c;
      if index =? next_index c
      then Some {| cl_started := cl_started c; cl_done := cl_done c ++ [r]; cl_open := None; cl_reason := cl_reason c; cl_stopped := cl_stopped c |} else None
  | MessageDelta reason _ =>
      if cl_started c && bool_decide (cl_open c = None) && bool_decide (cl_reason c = None)
      then Some {| cl_started := true; cl_done := cl_done c; cl_open := None; cl_reason := Some reason; cl_stopped := cl_stopped c |} else None
  | MessageStop =>
      if bool_decide (is_Some (cl_reason c)) && negb (cl_stopped c)
      then Some {| cl_started := cl_started c; cl_done := cl_done c; cl_open := cl_open c; cl_reason := cl_reason c; cl_stopped := true |} else None
  end.
Fixpoint client_run (c : client) (events : list claudeEvent) : option client :=
  match events with [] => Some c | e :: events => c ← client_step c e; client_run c events end.
Lemma client_run_snoc c events e c' :
  client_run c events = Some c' -> client_run c (events ++ [e]) = client_step c' e.
Proof.
  revert c. induction events as [|e' events IH]; intros c; cbn [client_run app].
  - intros [= ->]. by destruct (client_step c' e).
  - destruct (client_step c e'); [apply IH|done].
Qed.

(** What a client holds when it received a block of the body. *)
Definition raw_block `{JSON} (b : block) : received :=
  match b with
  | TextBlock text citations => RText text citations
  | ThinkingBlock text => RThinking text
  | SignedThinkingBlock text signature => RSigned text signature
  | ToolUseBlock id name input => RToolUse id name (of_bytes (marshal_or_nil input))
  | ServerToolUseBlock id name input => RServerToolUse id name (of_bytes (marshal_or_nil (AnyMap input)))
  | ResultBlock type id content => RResult type id content
  end.

Section refine.
Context `{JSON} `{NetURL} `{Tokens} {T : Type}.
Context (translate : Format -> T -> bytes -> list bytes * T).
(** The tool calls collected so far and the kind of turn, which the helpers keep. *)
Context (calls : list ToolCall) (history : bool).
Local Notation proj := (proj T).
Local Notation projection := (claudeProjection T).

(** Running an effect from [P] ends in [Q]. *)
Definition spec {A} (P : projection -> Prop) (m : proj A) (Q : A -> projection -> Prop) : Prop := forall p, P p -> Q (m p).1 (m p).2.
Lemma spec_bind {A B} P Q R (m : proj A) (k : A -> proj B) :
  spec P m Q -> (forall a, spec (Q a) (k a) R) -> spec P (pbind m k) R.
Proof. intros Hm Hk p Hp. unfold pbind. specialize (Hm p Hp). destruct (m p) as [a p']. by apply Hk. Qed.
Lemma spec_then P Q R (m k : proj (list bytes)) :
  spec P m (fun _ => Q) -> spec Q k (fun _ => R) -> spec P (m >+> k) (fun _ => R).
Proof. intros Hm Hk. unfold pthen. eapply spec_bind; [exact Hm|]. intros c. eapply spec_bind; [exact Hk|]. by intros c' p Hp. Qed.
Lemma spec_get {A B} P (R : B -> projection -> Prop) (f : projection -> A) k :
  (forall p, P p -> R (k (f p) p).1 (k (f p) p).2) -> spec P (pbind (pget f) k) R.
Proof. intros Hk p Hp. unfold pbind, pget. by apply Hk. Qed.
Lemma spec_set {B} P Q (R : B -> projection -> Prop) f (k : proj B) :
  (forall p, P p -> Q (f p)) -> spec Q k R -> spec P (pset f ;;; k) R.
Proof. intros Hf Hk p Hp. unfold pbind, pset. by apply Hk, Hf. Qed.
Lemma spec_ret {A} (P : projection -> Prop) (a : A) (Q : A -> projection -> Prop) : (forall p, P p -> Q a p) -> spec P (pret a) Q.
Proof. intros Hq p Hp. by apply Hq. Qed.
Lemma spec_weaken {A} (P P' : projection -> Prop) (m : proj A) (Q Q' : A -> projection -> Prop) :
  spec P m Q -> (forall p, P' p -> P p) -> (forall a p, Q a p -> Q' a p) -> spec P' m Q'.
Proof. intros Hm Hp Hq p Hp'. by apply Hq, Hm, Hp. Qed.

(** [project] adds one event; only the translator's state moves besides. *)
Lemma project_state e p : exists t, (project translate e p).2 = set_param t (set_claudeSSE (pj_claudeSSE p ++ [e]) p).
Proof.
  unfold project, pbind, pset, pget, pret. case_bool_decide; [exists (pj_param p); by destruct p|].
  cbn. destruct (translate _ _ _) as [chunks t]. by exists t.
Qed.

(** ** What the client knows *)
Inductive mode : Type := Closed | InText (citations : list any) | InThinking.
Definition blocks_count (p : projection) : Z := Z.of_nat (length (pj_blocks p)).
(** The client holds [done] finished blocks; [x] and [y] are text and thinking
    already in the buffers and not yet sent. *)
Definition at_mode (md : mode) (x y : string) (done : Z) (c : client) (p : projection) : Prop :=
  match md with
  | Closed => pj_textOpen p = false /\ pj_thinkingOpen p = false /\ cl_open c = None /\ pj_blockIndex p = done /\ pj_text p = x /\
      (pj_responseFormat p <> FormatClaude -> pj_thinking p = y)
  | InText citations => pj_textOpen p = true /\ pj_thinkingOpen p = false /\ pj_blockIndex p = done + 1 /\ pj_textIndex p = done /\
      (exists t, pj_text p = t +:+ x /\ cl_open c = Some (RText t citations)) /\ (pj_responseFormat p <> FormatClaude -> pj_thinking p = y)
  | InThinking => pj_textOpen p = false /\ pj_thinkingOpen p = true /\ pj_blockIndex p = done + 1 /\ pj_thinkingIndex p = done /\
      (exists t, pj_thinking p = t +:+ y /\ cl_open c = Some (RThinking t)) /\ pj_text p = x /\ pj_responseFormat p <> FormatClaude
  end.
Definition client_of (p : projection) : option client := client_run new_client (pj_claudeSSE p).
Definition live (started : bool) (c : client) : Prop := cl_started c = started /\ cl_reason c = None /\ cl_stopped c = false.
(** [message_start] was sent or not. *)
Record begun (want got : bool) (calls' : list ToolCall) (history' : bool) : Prop := {
  bg_started : got = want; bg_calls : calls' = calls; bg_history : history' = history }.
Local Notation is_begun started p := (begun started (pj_started p) (pj_toolCalls p) (pj_historyTurn p)).
Definition story (started : bool) (md : mode) (x y : string) (p : projection) : Prop :=
  exists c, client_of p = Some c /\ live started c /\ is_begun started p /\ (md <> Closed -> started = true) /\
    cl_done c = raw_block <$> pj_blocks p /\ at_mode md x y (blocks_count p) c p.

Lemma client_of_project e p c c' :
  client_of p = Some c -> client_step c e = Some c' -> client_of (project translate e p).2 = Some c'.
Proof.
  intros Hc He. destruct (project_state e p) as [t ->]. unfold client_of in *. cbn [pj_claudeSSE set_param set_claudeSSE].
  by rewrite (client_run_snoc _ _ _ _ Hc).
Qed.
(** Reduce the fields of an updated state. *)
Ltac pj := cbn [pj_historyTurn pj_model pj_messageID pj_responseFormat pj_request pj_started pj_textOpen pj_textIndex pj_thinkingOpen
  pj_thinkingIndex pj_blockIndex pj_text pj_thinking pj_toolCalls pj_blocks pj_citations pj_hostedStarted pj_claudeSSE pj_facts pj_semantic pj_param
  set_started set_textOpen set_textIndex set_thinkingOpen set_thinkingIndex set_blockIndex set_text set_thinking set_toolCalls set_blocks
  set_citations set_hostedStarted set_claudeSSE set_facts set_semantic set_param].

Lemma start_spec started md x y : spec (story started md x y) (start translate) (fun _ => story true md x y).
Proof.
  unfold start. apply spec_get. intros p (c & Hc & (Hs & Hr & Ht) & Hps & Hmd & Hd & Hm). rewrite (bg_started _ _ _ _ Hps). destruct started.
  - exists c. split_and!; try done; by split.
  - unfold pbind, pset, pget. set (p1 := set_started true p). assert (client_of p1 = Some c) as Hc1 by exact Hc.
    match goal with |- context [project translate ?e p1] => set (ev := e) end.
    pose proof (client_of_project ev p1 c) as Hstep. destruct (project_state ev p1) as [t E]. rewrite E in *. cbn [fst snd] in *.
    eexists. split; [apply Hstep; [exact Hc1|]; unfold ev; cbn [client_step]; rewrite Hs; reflexivity|].
    split_and!; try done. destruct Hps. by split.
Qed.
Lemma next_is_count c p : cl_done c = raw_block <$> pj_blocks p -> next_index c = blocks_count p.
Proof. intros Hd. unfold next_index, blocks_count. by rewrite Hd, length_fmap. Qed.
Lemma blocks_count_snoc b p : blocks_count (set_blocks (pj_blocks p ++ [b]) p) = blocks_count p + 1.
Proof. unfold blocks_count. pj. rewrite length_app. cbn [length]. lia. Qed.

Definition no_text (md : mode) : mode := match md with InText _ => Closed | _ => md end.
Definition no_thinking (md : mode) : mode := match md with InThinking => Closed | _ => md end.
(** The open text received the citations its block will carry. *)
Definition cited (md : mode) (p : projection) : Prop := match md with InText citations => citations = pj_citations p | _ => True end.

Lemma closeText_spec started md y :
  spec (fun p => story started md "" y p /\ cited md p) (closeText translate) (fun _ => story started (no_text md) "" y).
Proof.
  unfold closeText. apply spec_get. intros p [Hstory Hcit]. destruct Hstory as (c & Hc & (Hs & Hr & Ht) & Hps & Hmd & Hd & Hm).
  destruct md as [|citations|]; cbn [at_mode no_text] in *.
  - destruct Hm as (E & Hm). rewrite E. cbn [negb]. exists c. split_and!; try done; by split.
  - destruct Hm as (E & Eth & Hbi & Hti & (t & Htext & Hopen) & Hth). rewrite E. cbn [negb]. unfold add_block, pbind, pset.
    set (p1 := set_blocks _ _). cbn [pj_textIndex]. assert (client_of p1 = Some c) as Hc1 by exact Hc.
    pose proof (client_of_project (BlockStop (pj_textIndex p)) p1 c) as Hstep. destruct (project_state (BlockStop (pj_textIndex p)) p1) as [tr E1].
    rewrite E1 in *. eexists. split; [apply Hstep; [exact Hc1|]; cbn [client_step]; rewrite Hopen; cbn [mbind option_bind];
      rewrite Hti, (next_is_count c p Hd), Z.eqb_refl; reflexivity|]. cbn [cl_done cl_open].
    split_and!; try done; try (by split); unfold p1; pj.
    + rewrite Hd, fmap_app. f_equal. cbn. by rewrite Htext, string_app_nil_r, Hcit.
    + cbn [at_mode]. split_and!; try done. unfold blocks_count in *. pj. rewrite length_app. cbn [length]. lia.
  - destruct Hm as (E & Hm). rewrite E. cbn [negb]. exists c. split_and!; try done; by split.
Qed.
Lemma closeThinking_spec started md x :
  spec (story started md x "") (closeThinking translate) (fun _ => story started (no_thinking md) x "").
Proof.
  unfold closeThinking. apply spec_get. intros p (c & Hc & (Hs & Hr & Ht) & Hps & Hmd & Hd & Hm).
  destruct md as [|citations|]; cbn [at_mode no_thinking] in *.
  - destruct Hm as (E & E2 & Hm). rewrite E2. cbn [negb]. exists c. split_and!; try done; by split.
  - destruct Hm as (E & E2 & Hm). rewrite E2. cbn [negb]. exists c. split_and!; try done; by split.
  - destruct Hm as (E & Eth & Hbi & Hti & (t & Htext & Hopen) & Hx & Hf). rewrite Eth. cbn [negb]. unfold add_block, pbind, pset.
    set (p1 := set_blocks _ _). cbn [pj_thinkingIndex]. assert (client_of p1 = Some c) as Hc1 by exact Hc.
    pose proof (client_of_project (BlockStop (pj_thinkingIndex p)) p1 c) as Hstep. destruct (project_state (BlockStop (pj_thinkingIndex p)) p1) as [tr E1].
    rewrite E1 in *. eexists. split; [apply Hstep; [exact Hc1|]; cbn [client_step]; rewrite Hopen; cbn [mbind option_bind];
      rewrite Hti, (next_is_count c p Hd), Z.eqb_refl; reflexivity|]. cbn [cl_done cl_open].
    split_and!; try done; try (by split); unfold p1; pj.
    + rewrite Hd, fmap_app. f_equal. cbn. by rewrite Htext, string_app_nil_r.
    + cbn [at_mode]. split_and!; try done. unfold blocks_count in *. pj. rewrite length_app. cbn [length]. lia.
Qed.

(** A block of the body that is still to be sent. *)
Definition owed (b : block) (index : Z) (x y : string) (p : projection) : Prop :=
  exists c bs, client_of p = Some c /\ live true c /\ is_begun true p /\ pj_blocks p = bs ++ [b] /\ index = Z.of_nat (length bs) /\
    cl_done c = raw_block <$> bs /\ pj_textOpen p = false /\ pj_thinkingOpen p = false /\ cl_open c = None /\
    pj_blockIndex p = index + 1 /\ pj_text p = x /\ (pj_responseFormat p <> FormatClaude -> pj_thinking p = y).
Lemma next_block_spec {A} b x y (k : Z -> proj A) Q :
  (forall index, spec (owed b index x y) (k index) Q) ->
  spec (story true Closed x y) (index <- nextBlock ;; add_block b ;;; k index) Q.
Proof.
  intros Hk p (c & Hc & Hl & Hps & _ & Hd & (E1 & E2 & Hop & Hbi & Htx & Hth)). unfold nextBlock, add_block, pbind, pget, pset, pret.
  apply Hk. exists c, (pj_blocks p). split_and!; try done; pj; lia.
Qed.

(** The same while its block is open at the client. *)
Definition owing (r : received) (b : block) (index : Z) (x y : string) (p : projection) : Prop :=
  exists c bs, client_of p = Some c /\ live true c /\ is_begun true p /\ pj_blocks p = bs ++ [b] /\ index = Z.of_nat (length bs) /\
    cl_done c = raw_block <$> bs /\ pj_textOpen p = false /\ pj_thinkingOpen p = false /\ cl_open c = Some r /\
    pj_blockIndex p = index + 1 /\ pj_text p = x /\ (pj_responseFormat p <> FormatClaude -> pj_thinking p = y).
Lemma next_index_of (c : client) (bs : list block) : cl_done c = raw_block <$> bs -> next_index c = Z.of_nat (length bs).
Proof. intros Hd. unfold next_index. by rewrite Hd, length_fmap. Qed.
Ltac sent Hc e p c :=
  let Hstep := fresh "Hstep" in let t := fresh "t" in let E := fresh "E" in
  pose proof (client_of_project e p c) as Hstep; destruct (project_state e p) as [t E]; rewrite E in *; clear E.
Lemma block_start_spec b s index x y :
  spec (owed b index x y) (project translate (BlockStart index s)) (fun _ => owing (opened s) b index x y).
Proof.
  intros p (c & bs & Hc & (Hs & Hr & Ht) & Hps & Hb & Hi & Hd & E1 & E2 & Hop & Hrest). sent Hc (BlockStart index s) p c.
  eexists _, bs. split; [apply Hstep; [exact Hc|]; cbn [client_step]; rewrite Hs, Ht, Hr, Hop, (next_index_of _ _ Hd), Hi, Z.eqb_refl; reflexivity|].
  split_and!; try done; apply Hrest.
Qed.
Lemma block_delta_spec b r r' d index x y : extended r d = Some r' ->
  spec (owing r b index x y) (project translate (BlockDelta index d)) (fun _ => owing r' b index x y).
Proof.
  intros He p (c & bs & Hc & (Hs & Hr & Ht) & Hps & Hb & Hi & Hd & E1 & E2 & Hop & Hrest). sent Hc (BlockDelta index d) p c.
  eexists _, bs. split; [apply Hstep; [exact Hc|]; cbn [client_step]; rewrite Hop; cbn [mbind option_bind]; rewrite He; cbn [mbind option_bind];
    rewrite (next_index_of _ _ Hd), Hi, Z.eqb_refl; reflexivity|].
  split_and!; try done; apply Hrest.
Qed.
Lemma block_stop_spec b index x y :
  spec (owing (raw_block b) b index x y) (project translate (BlockStop index)) (fun _ => story true Closed x y).
Proof.
  intros p (c & bs & Hc & (Hs & Hr & Ht) & Hps & Hb & Hi & Hd & E1 & E2 & Hop & Hbi & Hrest). sent Hc (BlockStop index) p c.
  eexists. split; [apply Hstep; [exact Hc|]; cbn [client_step]; rewrite Hop; cbn [mbind option_bind];
    rewrite (next_index_of _ _ Hd), Hi, Z.eqb_refl; reflexivity|].
  split_and!; try done; [pj; cbn [cl_done]; by rewrite Hb, fmap_app, Hd|]. cbn [at_mode]. split_and!; try done; try apply Hrest.
  unfold blocks_count. pj. rewrite Hb, length_app. cbn [length]. lia.
Qed.
Fixpoint extended_all (r : received) (ds : list delta) : option received :=
  match ds with [] => Some r | d :: ds => r ← extended r d; extended_all r ds end.
Lemma whole_block_spec b s ds index x y : extended_all (opened s) ds = Some (raw_block b) ->
  spec (owed b index x y) (whole_block translate index s ds) (fun _ => story true Closed x y).
Proof.
  intros He. unfold whole_block. eapply spec_then; [apply block_start_spec|]. revert He. generalize (opened s) as r.
  induction ds as [|d ds IH]; intros r; cbn [extended_all fold_right]; [intros [= ->]; apply block_stop_spec|].
  destruct (extended r d) as [r'|] eqn:E; [|done]. intros He. eapply spec_then; [by eapply block_delta_spec|]. by apply IH.
Qed.

(** ** Text and thinking *)
Lemma citations_spec cs cits index all x y :
  spec (fun p => story true (InText cits) x y p /\ pj_textIndex p = index /\ pj_citations p = all) (projectCitations translate index cs)
       (fun _ p => story true (InText (cits ++ cs)) x y p /\ pj_citations p = all).
Proof.
  intros p (Hp & Hi & Hall). symmetry in Hi. revert cits p Hi Hall Hp.
  induction cs as [|cit cs IH]; intros cits p Hi Hall Hp; cbn [projectCitations]; [by rewrite app_nil_r|].
  unfold pthen, pbind, pret. destruct (project translate (BlockDelta index (CitationsDelta cit)) p) as [c1 p1] eqn:E1.
  destruct (projectCitations translate index cs p1) as [c2 p2] eqn:E2. cbn [fst snd].
  assert (p2 = (projectCitations translate index cs p1).2) as -> by by rewrite E2. rewrite (cons_middle cit cits cs), app_assoc.
  assert (p1 = (project translate (BlockDelta index (CitationsDelta cit)) p).2) as Hp1 by by rewrite E1. apply IH.
  { rewrite Hp1. by destruct (project_state (BlockDelta index (CitationsDelta cit)) p) as [t ->]. }
  { rewrite Hp1. by destruct (project_state (BlockDelta index (CitationsDelta cit)) p) as [t ->]. }
  rewrite Hp1. clear E1 E2 Hp1 p1 c1 c2 IH.
  destruct Hp as (c & Hc & (Hs & Hr & Ht) & Hps & Hmd & Hd & (E & E2 & Hbi & Hti & (t & Htext & Hopen) & Hrest)).
  sent Hc (BlockDelta index (CitationsDelta cit)) p c.
  eexists. split; [apply Hstep; [exact Hc|]; cbn [client_step]; rewrite Hopen; cbn [mbind option_bind extended];
    rewrite Hi, Hti, (next_is_count c p Hd), Z.eqb_refl; reflexivity|].
  split_and!; try done. cbn [at_mode]. split_and!; try done. by exists t.
Qed.
(** An index was taken for a block; [r]: what the client sees of it. *)
Definition opening (r : option received) (index : Z) (x y : string) (p : projection) : Prop :=
  exists c, client_of p = Some c /\ live true c /\ is_begun true p /\ cl_done c = raw_block <$> pj_blocks p /\
    pj_textOpen p = false /\ pj_thinkingOpen p = false /\ cl_open c = r /\ index = blocks_count p /\ pj_blockIndex p = index + 1 /\
    pj_text p = x /\ (pj_responseFormat p <> FormatClaude -> pj_thinking p = y).
Lemma opening_spec s index x y (F : projection -> Prop) :
  (forall t l p, F p -> F (set_param t (set_claudeSSE l p))) ->
  spec (fun p => opening None index x y p /\ F p) (project translate (BlockStart index s)) (fun _ p => opening (Some (opened s)) index x y p /\ F p).
Proof.
  intros HF p ((c & Hc & (Hs & Hr & Ht) & Hps & Hd & E1 & E2 & Hop & Hi & Hrest) & Hp). sent Hc (BlockStart index s) p c.
  split; [|by apply HF]. eexists. split; [apply Hstep; [exact Hc|]; cbn [client_step]; rewrite Hs, Ht, Hr, Hop, (next_is_count _ _ Hd), <-Hi, Z.eqb_refl; reflexivity|].
  split_and!; try done; apply Hrest.
Qed.
Lemma next_opening_spec x y (F : projection -> Prop) :
  (forall z p, F p -> F (set_blockIndex z p)) ->
  spec (fun p => story true Closed x y p /\ F p) nextBlock (fun index p => opening None index x y p /\ F p).
Proof.
  intros HF p ((c & Hc & Hl & Hps & _ & Hd & (E1 & E2 & Hop & Hbi & Hrest)) & Hp). split; [|by apply HF]. cbn.
  exists c. split_and!; try done; pj; try lia; apply Hrest.
Qed.
Lemma new_text_spec x cs :
  spec (fun p => story true Closed x "" p /\ pj_citations p = cs)
       (index <- nextBlock ;; pset (set_textIndex index) ;;;
        project translate (BlockStart index StartText) >+> (pset (set_textOpen true) ;;; projectCitations translate index cs))
       (fun _ p => story true (InText cs) x "" p /\ pj_citations p = cs).
Proof.
  eapply spec_bind; [by apply next_opening_spec|]. intros index.
  apply (spec_set _ (fun q => opening None index x "" q /\ (pj_textIndex q = index /\ pj_citations q = cs))).
  { intros q (Ho & Hcq). by split_and!. }
  eapply spec_then; [by apply opening_spec|].
  apply (spec_set _ (fun q => story true (InText []) x "" q /\ pj_textIndex q = index /\ pj_citations q = cs)).
  { intros q ((c' & Hc' & Hl' & Hps' & Hd' & E1' & E2' & Hop' & Hi' & Hbi' & Htx' & Hth') & Hti & Hcq). split; [|done].
    exists c'. split_and!; try done. cbn [at_mode]. split_and!; try done; try (unfold blocks_count in *; pj; lia). by exists "". }
  apply (citations_spec cs [] index cs x "").
Qed.
Lemma open_text_spec md x :
  spec (fun p => story true md x "" p /\ cited md p /\ md <> InThinking) (open_text translate)
       (fun _ p => exists cits, story true (InText cits) x "" p /\ cited (InText cits) p).
Proof.
  unfold open_text. apply spec_get. intros p (Hp & Hcit & Hmd). destruct md as [|cits|]; [| |done].
  - pose proof Hp as (c & _ & _ & _ & _ & _ & (E & _)). rewrite E.
    destruct (new_text_spec x (pj_citations p) p (conj Hp eq_refl)) as [Hs1 Hs2]. exists (pj_citations p). by split.
  - pose proof Hp as (c & _ & _ & _ & _ & _ & (E & _)). rewrite E. exists cits. by split.
Qed.
Lemma text_delta_spec cits x :
  spec (fun p => story true (InText cits) x "" p /\ cited (InText cits) p) (text_delta translate x)
       (fun _ p => story true (InText cits) "" "" p /\ cited (InText cits) p).
Proof.
  unfold text_delta. apply spec_get.
  intros p ((c & Hc & (Hs & Hr & Ht) & Hps & Hmd & Hd & (E & E2 & Hbi & Hti & (t & Htext & Hopen) & Hrest)) & Hcit).
  sent Hc (BlockDelta (pj_textIndex p) (TextDelta x)) p c. split; [|exact Hcit].
  eexists. split; [apply Hstep; [exact Hc|]; cbn [client_step]; rewrite Hopen; cbn [mbind option_bind extended];
    rewrite Hti, (next_is_count c p Hd), Z.eqb_refl; reflexivity|].
  split_and!; try done. cbn [at_mode]. split_and!; try done. exists (t +:+ x). by rewrite string_app_nil_r.
Qed.
Lemma open_thinking_spec md y :
  spec (fun p => story true md "" y p /\ pj_responseFormat p <> FormatClaude /\ no_text md = md) (open_thinking translate)
       (fun _ => story true InThinking "" y).
Proof.
  unfold open_thinking. apply spec_get. intros p (Hp & Hf & Hmd).
  destruct md as [|cits|]; [| |pose proof Hp as (c & _ & _ & _ & _ & _ & (_ & E & _)); by rewrite E]; [|done].
  pose proof Hp as (c & _ & _ & _ & _ & _ & (_ & E & _)). rewrite E.
  revert p Hp Hf E. enough (spec (fun p => story true Closed "" y p /\ pj_responseFormat p <> FormatClaude)
    (index <- nextBlock ;; pset (set_thinkingIndex index) ;;;
     chunks <- project translate (BlockStart index StartThinking) ;; pset (set_thinkingOpen true) ;;; pret chunks)
    (fun _ => story true InThinking "" y)) as Hk by (intros p Hp Hf _; by apply Hk).
  eapply spec_bind; [by apply next_opening_spec|]. intros index.
  apply (spec_set _ (fun q => opening None index "" y q /\ (pj_thinkingIndex q = index /\ pj_responseFormat q <> FormatClaude))).
  { intros q (Ho & Hcq). by split_and!. }
  eapply spec_bind; [by apply opening_spec|]. intros chunks. apply (spec_set _ (story true InThinking "" y)); [|by apply spec_ret].
  intros q ((c' & Hc' & Hl' & Hps' & Hd' & E1' & E2' & Hop' & Hi' & Hbi' & Htx' & Hth') & Hti & Hcq).
  exists c'. split_and!; try done. cbn [at_mode]. split_and!; try done; try (unfold blocks_count in *; pj; lia). exists "". split; [|done]. by apply Hth'.
Qed.
Lemma thinking_delta_spec y :
  spec (story true InThinking "" y) (thinking_delta translate y) (fun _ => story true InThinking "" "").
Proof.
  unfold thinking_delta. apply spec_get.
  intros p (c & Hc & (Hs & Hr & Ht) & Hps & Hmd & Hd & (E & E2 & Hbi & Hti & (t & Htext & Hopen) & Htx & Hf)).
  sent Hc (BlockDelta (pj_thinkingIndex p) (ThinkingDelta y)) p c.
  eexists. split; [apply Hstep; [exact Hc|]; cbn [client_step]; rewrite Hopen; cbn [mbind option_bind extended];
    rewrite Hti, (next_is_count c p Hd), Z.eqb_refl; reflexivity|].
  split_and!; try done. cbn [at_mode]. split_and!; try done. exists (t +:+ y). by rewrite string_app_nil_r.
Qed.

(** ** What the emitting helpers leave alone *)
Definition frames {A} (m : proj A) : Prop :=
  forall p, pj_citations (m p).2 = pj_citations p /\ pj_responseFormat (m p).2 = pj_responseFormat p /\ pj_hostedStarted (m p).2 = pj_hostedStarted p.
Lemma project_frames e : frames (project translate e).
Proof. intros p. by destruct (project_state e p) as [t ->]. Qed.
Lemma frames_eq {A} (m k : proj A) p : m p = k p -> frames k ->
  pj_citations (m p).2 = pj_citations p /\ pj_responseFormat (m p).2 = pj_responseFormat p /\ pj_hostedStarted (m p).2 = pj_hostedStarted p.
Proof. intros ->. auto. Qed.
Lemma start_frames : frames (start translate).
Proof. intros p. unfold start, pbind, pget, pset. destruct (pj_started p); [done|]. by apply (project_frames _ (set_started true p)). Qed.
Lemma closeText_frames : frames (closeText translate).
Proof.
  intros p. unfold closeText, add_block, pbind, pget, pset. destruct (pj_textOpen p); cbn [negb]; [|done].
  by match goal with |- context [project translate ?e ?q] => apply (project_frames e q) end.
Qed.
Lemma closeThinking_frames : frames (closeThinking translate).
Proof.
  intros p. unfold closeThinking, add_block, pbind, pget, pset. destruct (pj_thinkingOpen p); cbn [negb]; [|done].
  by match goal with |- context [project translate ?e ?q] => apply (project_frames e q) end.
Qed.
Definition framed (F : list any -> Format -> gset string -> Prop) (p : projection) : Prop :=
  F (pj_citations p) (pj_responseFormat p) (pj_hostedStarted p).
Lemma spec_frame {A} F P (m : proj A) Q :
  frames m -> spec P m Q -> spec (fun p => P p /\ framed F p) m (fun a p => Q a p /\ framed F p).
Proof.
  intros Hf Hm p [Hp HF]. split; [by apply Hm|]. unfold framed in *. destruct (Hf p) as (-> & -> & ->). exact HF.
Qed.
Lemma spec_then_frame F P Q R (m k : proj (list bytes)) :
  frames m -> spec P m (fun _ => Q) -> spec (fun p => Q p /\ framed F p) k (fun _ => R) ->
  spec (fun p => P p /\ framed F p) (m >+> k) (fun _ => R).
Proof. intros Hf Hm Hk. eapply spec_then; [apply (spec_frame F P m (fun _ => Q) Hf Hm)|exact Hk]. Qed.

(** [cited] as a framed property. *)
Definition cites (md : mode) (cs : list any) : Prop := match md with InText citations => citations = cs | _ => True end.
Lemma closeText_cited F started md y :
  (forall cs f h, F cs f h -> cites md cs) ->
  spec (fun p => story started md "" y p /\ framed F p) (closeText translate) (fun _ p => story started (no_text md) "" y p /\ framed F p).
Proof.
  intros HF p [Hp Hfr]. split.
  - apply (closeText_spec started md y p). split; [done|]. by apply HF in Hfr.
  - unfold framed in *. destruct (closeText_frames p) as (-> & -> & ->). exact Hfr.
Qed.

(** Between two events: nothing is buffered, and only an open text carries citations. *)
Definition at_rest (started : bool) (md : mode) (cs : list any) (f : Format) (h : gset string) : Prop :=
  cites md cs /\ (started = false -> h = ∅).
Definition idle (p : projection) : Prop := exists started md, story started md "" "" p /\ framed (at_rest started md) p.
Lemma idle_closed p : story true Closed "" "" p -> idle p.
Proof. intros Hp. by exists true, Closed. Qed.
Lemma at_rest_true started md cs f h : at_rest started md cs f h -> at_rest true md cs f h.
Proof. intros [? _]. by split. Qed.

(** The open blocks are closed. *)
Definition quoted (md : mode) (cs : list any) (f : Format) (h : gset string) : Prop := cites md cs.
Lemma closing_text started md :
  spec (fun p => story started md "" "" p /\ framed (quoted md) p) (closeText translate) (fun _ => story started (no_text md) "" "").
Proof.
  eapply spec_weaken; [apply (closeText_cited (quoted md) started md ""); by destruct md|done|]. by intros ? p [Hp _].
Qed.
Lemma closing_spec started md :
  spec (fun p => story started md "" "" p /\ framed (quoted md) p) (start translate >+> closeThinking translate >+> closeText translate)
       (fun _ => story true Closed "" "").
Proof.
  eapply spec_then_frame; [apply start_frames|apply start_spec|].
  eapply spec_then_frame; [apply closeThinking_frames|apply closeThinking_spec|].
  by destruct md; [apply (closing_text true Closed)|apply (closing_text true (InText _))|apply (closing_text true Closed)].
Qed.
Lemma closing_then started md k R :
  spec (story true Closed "" "") k (fun _ => R) ->
  spec (fun p => story started md "" "" p /\ framed (quoted md) p) (start translate >+> closeThinking translate >+> closeText translate >+> k) (fun _ => R).
Proof.
  intros Hk. eapply spec_then_frame; [apply start_frames|apply start_spec|].
  eapply spec_then_frame; [apply closeThinking_frames|apply closeThinking_spec|].
  eapply spec_then; [|exact Hk]. by destruct md; [apply (closing_text true Closed)|apply (closing_text true (InText _))|apply (closing_text true Closed)].
Qed.

(** ** Each event *)
Lemma signed_thinking_spec started md signature y :
  spec (fun p => story started md "" y p /\ framed (at_rest started md) p /\ md <> InThinking) (emitSignedThinking translate signature) (fun _ => idle).
Proof.
  unfold emitSignedThinking. apply spec_get. intros p (Hp & Hr & Hmd).
  assert (story started md "" "" (set_thinking "" p)) as Hp'.
  { destruct Hp as (c & Hc & Hl & Hb & Hm & Hd & Hat). exists c. split_and!; try done. destruct md as [|cits|]; [| |done].
    - destruct Hat as (E1 & E2 & Hop & Hbi & Htx & Hth). by split_and!.
    - destruct Hat as (E1 & E2 & Hop & Hbi & Htx & Hth). by split_and!. }
  unfold pbind at 1, pset at 1. case_bool_decide; [exists started, md; by split|]. case_bool_decide; cbn [orb]; [exists started, md; by split|].
  unfold pbind at 1, pset at 1. set (q := set_semantic true (set_thinking "" p)).
  assert (story started md "" "" q /\ framed (at_rest started md) q) as Hq by by split. clearbody q. revert Hq; revert q. clear Hr Hp'.
  eapply spec_then_frame; [apply start_frames|apply start_spec|].
  eapply (spec_then _ (fun q => story true Closed "" "" q)).
  - eapply spec_weaken; [apply (closeText_cited (at_rest started md) true md)| |].
    + intros cs f h [Hc _]. by destruct md.
    + exact (fun _ Hq => Hq).
    + intros _ q [Hq _]. by destruct md.
  - apply next_block_spec. intros index. eapply spec_weaken; [by apply (whole_block_spec (SignedThinkingBlock (pj_thinking p) signature) StartSignedThinking)|done|].
    intros ? q Hq. by apply idle_closed.
Qed.
(** A search that was not announced yet. *)
Lemma hosted_blocks_spec search started md :
  spec (fun p => (story started md "" "" p /\ framed (quoted md) p) /\ hostedSearchToolID search ∉ pj_hostedStarted p)
       (projectHostedSearchStarted translate search) (fun _ => story true Closed "" "").
Proof.
  unfold projectHostedSearchStarted. apply spec_get. intros p (Hp & Hnew). rewrite (bool_decide_eq_false_2 _ Hnew).
  eapply (spec_set (fun p => story started md "" "" p /\ framed (quoted md) p) (fun p => story started md "" "" p /\ framed (quoted md) p)
    (fun _ => story true Closed "" "")); [|apply closing_then|exact Hp]; [done|].
  apply next_block_spec. intros index. by apply whole_block_spec.
Qed.
Lemma hosted_started_spec search : spec idle (projectHostedSearchStarted translate search) (fun _ => idle).
Proof.
  intros p (started & md & Hp & Hr). destruct (decide (hostedSearchToolID search ∈ pj_hostedStarted p)) as [Hknown|Hnew].
  - unfold projectHostedSearchStarted, pbind, pget. rewrite (bool_decide_eq_true_2 _ Hknown). by exists started, md.
  - apply idle_closed, (hosted_blocks_spec search started md). split; [split; [done|apply Hr]|done].
Qed.
Lemma result_block_spec search :
  spec (story true Closed "" "")
    (index <- nextBlock ;;
     let '(resultType, resultContent) := hostedSearchResult search in
     add_block (ResultBlock resultType (hostedSearchToolID search) resultContent) ;;;
     pset (fun p => set_citations (pj_citations p ++ hostedSearchCitations search) p) ;;;
     whole_block translate index (StartResult resultType (hostedSearchToolID search) resultContent) []) (fun _ => story true Closed "" "").
Proof.
  destruct (hostedSearchResult search) as [type content]. apply next_block_spec. intros index.
  eapply spec_set; [|by apply (whole_block_spec (ResultBlock type (hostedSearchToolID search) content))].
  intros p (c & bs & Ho). by exists c, bs.
Qed.
(** A result arrives while no text and no thinking is open, or announces its search itself. *)
Definition orderly_search (search : HostedSearch) (p : projection) : Prop :=
  hostedSearchToolID search ∈ pj_hostedStarted p -> pj_textOpen p = false /\ pj_thinkingOpen p = false.
Lemma hosted_completed_spec search :
  spec (fun p => idle p /\ orderly_search search p) (projectHostedSearchCompleted translate search) (fun _ => idle).
Proof.
  intros p ((started & md & Hp & Hr & Hh) & Ho). apply idle_closed. unfold projectHostedSearchCompleted.
  enough (spec (eq p) (projectHostedSearchStarted translate search) (fun _ => story true Closed "" "")) as Hs
    by (eapply (spec_then _ _ _ _ _ Hs); [apply result_block_spec|done]).
  intros ? <-. destruct (decide (hostedSearchToolID search ∈ pj_hostedStarted p)) as [Hknown|Hnew]; [|by apply (hosted_blocks_spec search started md)].
  unfold projectHostedSearchStarted, pbind, pget. rewrite (bool_decide_eq_true_2 _ Hknown). cbn [snd pret].
  destruct (Ho Hknown) as [E1 E2]. destruct started; [|rewrite (Hh eq_refl) in Hknown; set_solver].
  destruct md as [|cits|]; [done| |]; pose proof Hp as (c & _ & _ & _ & _ & _ & Hat); destruct Hat as (F1 & F2 & _); congruence.
Qed.

(** ** The end of a response *)
Lemma handoff_spec cs :
  spec (story true Closed "" "") (handoff_calls translate cs)
       (fun r p => match r with Ok _ => story true Closed "" "" p | Fail _ => True end).
Proof.
  induction cs as [|call cs IH]; cbn [handoff_calls]; [by apply spec_ret|].
  destruct (call_input call) as [input|]; [|by apply spec_ret].
  apply next_block_spec. intros index. eapply spec_bind.
  - by apply (whole_block_spec (ToolUseBlock (tc_ToolCallID call) (tc_Name call) input)).
  - intros chunks. eapply spec_bind; [exact IH|]. intros r. apply spec_ret. by destruct r.
Qed.
(** The stream gave its reason, holds the blocks of the body and is complete. *)
Definition ending (reason : string) (stopped : bool) (p : projection) : Prop :=
  exists c, client_of p = Some c /\ cl_reason c = Some reason /\ cl_stopped c = stopped /\ cl_open c = None /\
    cl_done c = raw_block <$> pj_blocks p /\ is_begun true p.
Lemma reason_spec reason usage :
  spec (story true Closed "" "") (project translate (MessageDelta reason usage)) (fun _ => ending reason false).
Proof.
  intros p (c & Hc & (Hs & Hr & Ht) & Hps & _ & Hd & (E1 & E2 & Hop & Hrest)). sent Hc (MessageDelta reason usage) p c.
  eexists. split; [apply Hstep; [exact Hc|]; cbn [client_step]; rewrite Hs, Hop, Hr; reflexivity|]. by split_and!; destruct Hps.
Qed.
Lemma message_stop_spec reason : spec (ending reason false) (project translate MessageStop) (fun _ => ending reason true).
Proof.
  intros p (c & Hc & Hr & Ht & Hop & Hd & Hps). sent Hc MessageStop p c.
  eexists. split; [apply Hstep; [exact Hc|]; cbn [client_step]; rewrite Hr, Ht; reflexivity|]. by split_and!; destruct Hps.
Qed.
Lemma finish_spec reason : spec (story true Closed "" "") (finish translate reason) (fun _ => ending reason true).
Proof.
  unfold finish. apply spec_get. intros p Hp. eapply (spec_then (story true Closed "" "")); [apply reason_spec|apply message_stop_spec|exact Hp].
Qed.

(** ** Every event of a run *)
Definition orderly (event : Event) (p : projection) : Prop :=
  ev_Type event = EventHostedSearchCompleted -> forall search, ev_HostedSearch event = Some search -> orderly_search search p.
Lemma idle_same p q :
  (forall started md, story started md "" "" p -> story started md "" "" q) -> pj_citations q = pj_citations p ->
  pj_responseFormat q = pj_responseFormat p -> pj_hostedStarted q = pj_hostedStarted p -> idle p -> idle q.
Proof. intros Hs Hc Hf Hh (started & md & Hp & Hr). exists started, md. split; [by apply Hs|]. unfold framed. by rewrite Hc, Hf, Hh. Qed.
Lemma idle_quoted p : idle p -> exists started md, story started md "" "" p /\ framed (quoted md) p /\ framed (at_rest true md) p.
Proof. intros (started & md & Hp & Hr). exists started, md. split_and!; [done|apply Hr|exact (at_rest_true _ _ _ _ _ Hr)]. Qed.
Lemma story_text x started md p : story started md "" "" p -> story started md x "" (set_text (pj_text p +:+ x) p).
Proof.
  intros (c & Hc & Hl & Hb & Hm & Hd & Hat). exists c. split_and!; try done. destruct md as [|cits|].
  - destruct Hat as (E1 & E2 & Hop & Hbi & Htx & Hth). split_and!; try done. pj. by rewrite Htx.
  - destruct Hat as (E1 & E2 & Hbi & Hti & (t & Htx & Hop) & Hth). split_and!; try done. pj. exists t. by rewrite Htx, string_app_nil_r.
  - destruct Hat as (E1 & E2 & Hbi & Hti & Ht & Htx & Hf). split_and!; try done. pj. by rewrite Htx.
Qed.
Lemma story_thinking y started md p :
  story started md "" "" p -> pj_responseFormat p <> FormatClaude -> story started md "" y (set_thinking (pj_thinking p +:+ y) p).
Proof.
  intros (c & Hc & Hl & Hb & Hm & Hd & Hat) Hf. exists c. split_and!; try done. destruct md as [|cits|].
  - destruct Hat as (E1 & E2 & Hop & Hbi & Htx & Hth). split_and!; try done. pj. intros _. by rewrite (Hth Hf).
  - destruct Hat as (E1 & E2 & Hbi & Hti & Ht & Hth). split_and!; try done. pj. intros _. by rewrite (Hth Hf).
  - destruct Hat as (E1 & E2 & Hbi & Hti & (t & Htx & Hop) & Hx & _). split_and!; try done. pj. exists t. by rewrite Htx, string_app_nil_r.
Qed.
(** Claude thinking only fills the buffer. *)
Lemma claude_thinking y started md p :
  story started md "" "" p -> pj_responseFormat p = FormatClaude -> md <> InThinking /\ story started md "" "" (set_thinking y p).
Proof.
  intros (c & Hc & Hl & Hb & Hm & Hd & Hat) Hf. destruct md as [|cits|]; [| |by destruct Hat as (_ & _ & _ & _ & _ & _ & ?)]; split; try done; exists c; split_and!; try done.
  - destruct Hat as (E1 & E2 & Hop & Hbi & Htx & Hth). by split_and!.
  - destruct Hat as (E1 & E2 & Hbi & Hti & Ht & Hth). by split_and!.
Qed.
Lemma text_event_spec x :
  spec (fun p => exists started md, story started md x "" p /\ framed (quoted md) p)
       (start translate >+> closeThinking translate >+> open_text translate >+> text_delta translate x) (fun _ => idle).
Proof.
  intros p (started & md & Hp). revert p Hp.
  eapply spec_then_frame; [apply start_frames|apply start_spec|].
  eapply spec_then_frame; [apply closeThinking_frames|apply closeThinking_spec|].
  eapply (spec_then _ (fun p => exists cits, story true (InText cits) x "" p /\ cited (InText cits) p)).
  - intros p [Hp Hq]. eapply (open_text_spec (no_thinking md)); split; [done|]. by destruct md.
  - intros p (cits & Hp). destruct (text_delta_spec cits x p Hp) as [Hs Hc]. exists true, (InText cits). by split_and!.
Qed.
Lemma thinking_event_spec y :
  spec (fun p => exists started md, story started md "" y p /\ framed (fun cs f _ => cites md cs /\ f <> FormatClaude) p)
       (start translate >+> closeText translate >+> open_thinking translate >+> thinking_delta translate y) (fun _ => idle).
Proof.
  intros p (started & md & Hp). revert p Hp.
  eapply spec_then_frame; [apply start_frames|apply start_spec|].
  eapply (spec_then _ (fun p => story true (no_text md) "" y p /\ framed (fun cs f _ => cites md cs /\ f <> FormatClaude) p)).
  - apply closeText_cited. by intros cs f h [Hc _].
  - eapply (spec_then _ (story true InThinking "" y)).
    + intros p [Hp [_ Hf]]. apply (open_thinking_spec (no_text md)). split_and!; [done|done|by destruct md].
    + intros p Hp. exists true, InThinking. split; [by apply thinking_delta_spec|done].
Qed.
Lemma closeThinking_idle : spec idle (closeThinking translate) (fun _ => idle).
Proof.
  intros p (started & md & Hp & Hr). exists started, (no_thinking md). split; [by apply closeThinking_spec|].
  unfold framed in *. destruct (closeThinking_frames p) as (-> & -> & ->). destruct Hr as [Hc Hh]. split; [by destruct md|done].
Qed.
(** What an event leaves: the run goes on, or the response ended with the body's blocks. *)
Definition served (r : result (list bytes * bool * bool)) (p : projection) : Prop :=
  match r with
  | Fail _ => True
  | Ok (_, false, _) => idle p
  | Ok (_, true, _) => exists reason, ending reason true p /\ (reason = stop_reason p \/ history = false /\ reason = "end_turn")
  end.
Lemma going_spec P m : spec P m (fun _ => idle) -> spec P (going m) served.
Proof. intros Hm. eapply spec_bind; [exact Hm|]. intros chunks. by apply spec_ret. Qed.
Lemma tool_handoff_spec park : spec idle (toolHandoff translate park) served.
Proof.
  unfold toolHandoff. apply spec_get. intros p (started & md & Hp & Hq & _)%idle_quoted. case_bool_decide as Hcalls; [done|].
  eapply (spec_bind (fun p => story started md "" "" p /\ framed (quoted md) p)); [apply closing_spec| |by split]. intros before.
  eapply spec_bind; [apply handoff_spec|]. intros [called|e]; [|by apply spec_ret].
  eapply spec_bind; [|intros after; apply spec_ret]; [apply finish_spec|]. intros q (c & Hc & Hreason & Ht & Hop & Hd & Hps).
  exists "tool_use". split; [by exists c|]. left. unfold stop_reason. rewrite (bg_calls _ _ _ _ Hps), bool_decide_eq_false_2; [done|].
  intros ->. apply Hcalls. destruct Hp as (c' & _ & _ & Hb & _). by rewrite (bg_calls _ _ _ _ Hb).
Qed.
Lemma done_spec event : ev_Type event = EventDone -> spec idle (handle_event translate event) served.
Proof.
  intros E. unfold handle_event. rewrite E. apply spec_get. intros p Hp.
  destruct (pj_historyTurn p && negb (bool_decide (pj_toolCalls p = []))) eqn:Ecalls; [by apply tool_handoff_spec|].
  apply idle_quoted in Hp as (started & md & Hp & Hq & _).
  assert (history = false \/ calls = []) as Hcase.
  { destruct Hp as (c & _ & _ & [_ Hb Hh] & _). rewrite Hb, Hh in Ecalls. destruct history; [right|by left]. by case_bool_decide. }
  eapply (spec_bind (fun p => story started md "" "" p /\ framed (quoted md) p)); [apply closing_then; eapply (spec_then _ (story true Closed "" ""))| |by split].
  - by apply spec_get.
  - apply finish_spec.
  - intros chunks. apply spec_ret. intros q (c & Hc & Hreason & Ht & Hop & Hd & Hps). exists "end_turn". split; [by exists c|].
    destruct Hcase as [?|Hnil]; [by right|left]. unfold stop_reason. by rewrite (bg_calls _ _ _ _ Hps), Hnil.
Qed.
Lemma text_case event : ev_Type event = EventText -> spec idle (handle_event translate event) served.
Proof.
  intros E. unfold handle_event. rewrite E. eapply (spec_set _ idle); [done|].
  eapply (spec_set _ (fun p => exists started md, story started md (ev_Text event) "" p /\ framed (quoted md) p)).
  - intros p (started & md & Hp & Hq & _)%idle_quoted. exists started, md. split; [by apply story_text|done].
  - apply going_spec, text_event_spec.
Qed.
Lemma thinking_case event : ev_Type event = EventThinking -> spec idle (handle_event translate event) served.
Proof.
  intros E. unfold handle_event. rewrite E. case_bool_decide; [by apply spec_ret|].
  eapply (spec_set _ (fun p => (pj_responseFormat p = FormatClaude -> idle p) /\ (pj_responseFormat p <> FormatClaude ->
    exists started md, story started md "" (ev_Text event) p /\ framed (fun cs f _ => cites md cs /\ f <> FormatClaude) p))).
  - intros p Hp. split.
    + intros Hf. revert Hp. apply idle_same; try done. intros started md Hs. by apply claude_thinking.
    + intros Hf. apply idle_quoted in Hp as (started & md & Hp & Hq & _). exists started, md. split; [by apply story_thinking|done].
  - apply spec_get. intros p [Hc Ho]. case_bool_decide as Hf; [by apply Hc|].
    eapply (spec_set (fun q => exists started md, story started md "" (ev_Text event) q /\ framed (fun cs f _ => cites md cs /\ f <> FormatClaude) q) _ served);
      [|apply going_spec, thinking_event_spec|by apply Ho]. done.
Qed.
Lemma signature_case event : ev_Type event = EventThinkingCompleted -> spec idle (handle_event translate event) served.
Proof.
  intros E. unfold handle_event. rewrite E. apply spec_get. intros p (started & md & Hp & Hr). case_bool_decide as Hf.
  - eapply going_spec; [apply (signed_thinking_spec started md)|]. split_and!; [exact Hp|done|]. by apply (claude_thinking "" started md p).
  - apply (going_spec idle); [apply closeThinking_idle|by exists started, md].
Qed.
Lemma hosted_case event : ev_Type event = EventHostedSearchStarted \/ ev_Type event = EventHostedSearchCompleted ->
  spec (fun p => idle p /\ orderly event p) (handle_event translate event) served.
Proof.
  intros [E|E]; unfold handle_event; rewrite E; (apply (spec_set _ (fun p => idle p /\ orderly event p)); [done|]); apply going_spec;
    intros p [Hp Ho]; (destruct (ev_HostedSearch event) as [search|] eqn:Es; [|done]).
  - by apply hosted_started_spec.
  - apply hosted_completed_spec. split; [done|]. by apply Ho.
Qed.
Lemma event_spec event : ev_Type event <> EventToolCall ->
  spec (fun p => idle p /\ orderly event p) (handle_event translate event) served.
Proof.
  intros Hcall p [Hp Ho]. destruct (ev_Type event) eqn:E; try done.
  all: try (by apply text_case); try (by apply thinking_case); try (by apply signature_case); try (by apply done_spec).
  all: try (apply hosted_case; [by (left + right)|done]).
  all: unfold handle_event; rewrite E; try done.
  by apply tool_handoff_spec.
Qed.
Lemma handle_spec event : ev_Type event <> EventToolCall ->
  spec (fun p => idle p /\ orderly event p) (handle translate event) served.
Proof. intros Hcall. unfold handle. eapply spec_set; [|by apply event_spec]. intros p [(started & md & Hp) Ho]. split; [by exists started, md|exact Ho]. Qed.
End refine.
