(* ===== verification/ProjectionBytes.v ===== *)
(** * What a Claude projection returns is what it records (src/cursoragentv1/project_claude.go)

    In the Claude format the chunks an event returns are the bytes of the stream
    events it added to the buffer, in order; and the events that end a response
    always return some. *)
From stdpp Require Import base tactics list gmap strings sorting.
From Stdlib Require Import Strings.Byte.
From S2P Require Import Prelude GoStrings Sha256 JsonValue Connect Data HostedPolicy Usage Segment Manager Media HostedSearch Projection.
Open Scope Z_scope.
Open Scope proj_scope.

Definition event_bytes `{JSON} (e : claudeEvent) : bytes := sse_line e ++ blank_line.
Definition events_bytes `{JSON} (l : list claudeEvent) : bytes := concat (event_bytes <$> l).
Lemma events_bytes_app `{JSON} l k : events_bytes (l ++ k) = events_bytes l ++ events_bytes k.
Proof. unfold events_bytes. by rewrite fmap_app, concat_app. Qed.

Section emits.
Context `{JSON} `{NetURL} `{Tokens} {T : Type}.
Context (translate : Format -> T -> bytes -> list bytes * T).
Local Notation proj := (proj T).
Local Notation projection := (claudeProjection T).

(** The value returned and the bytes of the events added are related by [Q]. *)
Definition emits_in {A} (m : proj A) (Q : A -> bytes -> Prop) : Prop :=
  forall p, pj_responseFormat p = FormatClaude ->
    exists l, pj_claudeSSE (m p).2 = pj_claudeSSE p ++ l /\ pj_responseFormat (m p).2 = FormatClaude /\ Q (m p).1 (events_bytes l).
Definition emits (m : proj (list bytes)) : Prop := emits_in m (fun chunks s => concat chunks = s).
Lemma emits_bind {A B} (m : proj A) (k : A -> proj B) Q R :
  emits_in m Q -> (forall a s, Q a s -> emits_in (k a) (fun b s' => R b (s ++ s'))) -> emits_in (pbind m k) R.
Proof.
  intros Hm Hk p Hp. unfold pbind. destruct (Hm p Hp) as (l & Hl & Hf & HQ). destruct (m p) as [a p1]. cbn [fst snd] in *.
  destruct (Hk a _ HQ p1 Hf) as (l' & Hl' & Hf' & HR). exists (l ++ l'). rewrite Hl', Hl, events_bytes_app. by rewrite app_assoc.
Qed.
Lemma emits_ret {A} (a : A) (Q : A -> bytes -> Prop) : Q a [] -> emits_in (pret a) Q.
Proof. intros Hq p Hp. exists []. by rewrite app_nil_r. Qed.
Lemma emits_get {A B} (f : projection -> A) (k : A -> proj B) R :
  (forall p, pj_responseFormat p = FormatClaude -> emits_in (k (f p)) R) -> emits_in (pbind (pget f) k) R.
Proof. intros Hk p Hp. unfold pbind, pget. by apply Hk. Qed.
Definition silent (f : projection -> projection) : Prop :=
  forall p, pj_claudeSSE (f p) = pj_claudeSSE p /\ pj_responseFormat (f p) = pj_responseFormat p.
Lemma emits_set {B} f (k : proj B) R : silent f -> emits_in k R -> emits_in (pset f ;;; k) R.
Proof.
  intros Hf Hk p Hp. unfold pbind, pset. destruct (Hf p) as [E1 E2]. destruct (Hk (f p)) as (l & Hl & Hr); [by rewrite E2|].
  exists l. by rewrite Hl, E1.
Qed.
Lemma emits_then m k : emits m -> emits k -> emits (m >+> k).
Proof.
  intros Hm Hk. unfold pthen, emits. eapply emits_bind; [exact Hm|]. intros c s Hc.
  eapply emits_bind; [exact Hk|]. intros c' s' Hc'. apply emits_ret. by rewrite app_nil_r, concat_app, Hc, Hc'.
Qed.
Lemma emits_nil : emits (pret []).
Proof. by apply emits_ret. Qed.
Lemma emits_project e : emits (project translate e).
Proof.
  intros p Hp. unfold project, pbind, pset, pget, pret. cbn [pj_responseFormat set_claudeSSE].
  rewrite (bool_decide_eq_true_2 _ Hp). exists [e]. unfold events_bytes, event_bytes. cbn. by rewrite !app_nil_r.
Qed.
Lemma emits_if (b : bool) m k : emits m -> emits k -> emits (if b then m else k).
Proof. by destruct b. Qed.

Lemma emits_after f k : silent f -> emits k -> emits (pset f ;;; k).
Proof. by apply emits_set. Qed.
Lemma emits_reading {B} (f : projection -> B) k : (forall p, pj_responseFormat p = FormatClaude -> emits (k (f p))) -> emits (pbind (pget f) k).
Proof. by apply emits_get. Qed.
(** Steps through a composed effect along its syntax. *)
Ltac emit_step :=
  lazymatch goal with
  | |- emits (project _ _) => apply emits_project
  | |- emits (pret []) => apply emits_nil
  | |- emits (pthen _ _) => apply emits_then
  | |- emits (if _ then _ else _) => apply emits_if
  | |- emits (pbind (pset _) _) => apply emits_after; [by intros ?|]
  | |- emits (pbind (pget _) _) => apply emits_reading; intros ? ?
  | |- emits_in (pbind (pset _) _) _ => apply emits_set; [by intros ?|]
  | |- emits_in (pret (Ok ([], _, _))) _ => by apply emits_ret
  end.
Ltac emit_tac := repeat (cbn beta; emit_step).
Lemma emits_next k : (forall i, emits (k i)) -> emits (index <- nextBlock ;; k index).
Proof.
  intros Hk. unfold nextBlock. eapply (emits_bind _ _ (fun _ s => s = [])); [|by intros i s ->; apply Hk].
  apply emits_get. intros p Hp. apply emits_set; [by intros ?|]. by apply emits_ret.
Qed.
Lemma emits_add b k : emits k -> emits (add_block b ;;; k).
Proof. intros Hk. unfold add_block. by apply emits_set. Qed.
Lemma emits_start : emits (start translate).
Proof. unfold start. emit_tac. Qed.
Lemma emits_closeText : emits (closeText translate).
Proof. unfold closeText. emit_tac. apply emits_add. emit_tac. Qed.
Lemma emits_closeThinking : emits (closeThinking translate).
Proof. unfold closeThinking. emit_tac. apply emits_add. emit_tac. Qed.
Lemma emits_citations index cs : emits (projectCitations translate index cs).
Proof. induction cs; cbn [projectCitations]; emit_tac. done. Qed.
Lemma emits_whole index b ds : emits (whole_block translate index b ds).
Proof. unfold whole_block. emit_tac. induction ds; cbn [fold_right]; emit_tac. done. Qed.
Lemma emits_finish reason : emits (finish translate reason).
Proof. unfold finish. emit_tac. Qed.
Lemma emits_closing : emits (start translate >+> closeThinking translate >+> closeText translate).
Proof. emit_tac; [apply emits_start|apply emits_closeThinking|apply emits_closeText]. Qed.
Ltac emit_all :=
  repeat (cbn beta; first
    [ emit_step
    | lazymatch goal with
      | |- emits (start _) => apply emits_start
      | |- emits (closeText _) => apply emits_closeText
      | |- emits (closeThinking _) => apply emits_closeThinking
      | |- emits (projectCitations _ _ _) => apply emits_citations
      | |- emits (whole_block _ _ _ _) => apply emits_whole
      | |- emits (finish _ _) => apply emits_finish
      | |- emits (pbind nextBlock _) => apply emits_next; intros ?
      | |- emits (pbind (add_block _) _) => apply emits_add
      end ]).
Lemma emits_hosted_started search : emits (projectHostedSearchStarted translate search).
Proof. unfold projectHostedSearchStarted. emit_all. Qed.
Lemma emits_hosted_completed search : emits (projectHostedSearchCompleted translate search).
Proof.
  unfold projectHostedSearchCompleted. apply emits_then; [apply emits_hosted_started|]. destruct (hostedSearchResult search). emit_all.
Qed.
Lemma emits_signed signature : emits (emitSignedThinking translate signature).
Proof. unfold emitSignedThinking. emit_all. Qed.
Lemma emits_open_text : emits (open_text translate).
Proof. unfold open_text. emit_all. Qed.
Lemma emits_open_thinking : emits (open_thinking translate).
Proof.
  unfold open_thinking. emit_all. eapply emits_bind; [apply emits_project|]. intros c s Hc. apply emits_set; [by intros ?|].
  apply emits_ret. by rewrite app_nil_r.
Qed.

(** The chunks of an outcome. *)
Definition told (r : result (list bytes * bool * bool)) (s : bytes) : Prop := match r with Ok (chunks, _, _) => concat chunks = s | Fail _ => True end.
Lemma emits_going m : emits m -> emits_in (going m) told.
Proof. intros Hm. unfold going. eapply emits_bind; [exact Hm|]. intros c s Hc. apply emits_ret. cbn. by rewrite app_nil_r. Qed.
Lemma emits_handoff calls :
  emits_in (handoff_calls translate calls) (fun r s => match r with Ok chunks => concat chunks = s | Fail _ => True end).
Proof.
  induction calls as [|call calls IH]; cbn [handoff_calls]; [by apply emits_ret|].
  destruct (call_input call) as [input|]; [|by apply emits_ret].
  unfold nextBlock. eapply (emits_bind _ _ (fun _ s => s = [])).
  { apply emits_get. intros p Hp. apply emits_set; [by intros ?|]. by apply emits_ret. }
  intros i s ->. unfold add_block. apply emits_set; [by intros ?|].
  eapply emits_bind; [apply emits_whole|]. intros c s Hc. eapply emits_bind; [exact IH|].
  intros r s' Hr. apply emits_ret. destruct r as [rest|]; cbn; [|done]. by rewrite app_nil_r, concat_app, Hc, Hr.
Qed.
Lemma emits_tool_handoff park : emits_in (toolHandoff translate park) told.
Proof.
  unfold toolHandoff. apply emits_get. intros p Hp. case_bool_decide; [by apply emits_ret|].
  eapply emits_bind; [apply emits_closing|]. intros before s Hb. eapply emits_bind; [apply emits_handoff|].
  intros [called|] s' Hc; [|by apply emits_ret]. eapply emits_bind; [apply emits_finish|]. intros after s'' Ha.
  apply emits_ret. cbn. by rewrite app_nil_r, !concat_app, Hb, Hc, Ha.
Qed.
Lemma emits_event event : emits_in (handle_event translate event) told.
Proof.
  unfold handle_event. destruct (ev_Type event); try (by apply emits_ret).
  - apply emits_set; [by intros ?|]. apply emits_set; [by intros ?|]. apply emits_going. emit_all; [apply emits_open_text|unfold text_delta; emit_all].
  - case_bool_decide; [by apply emits_ret|]. apply emits_set; [by intros ?|]. apply emits_get. intros p Hp. case_bool_decide; [by apply emits_ret|].
    apply emits_set; [by intros ?|]. apply emits_going. emit_all; [apply emits_open_thinking|unfold thinking_delta; emit_all].
  - destruct (ev_ToolCall event); [|by apply emits_ret]. apply emits_set; [by intros ?|]. apply emits_set; [by intros ?|]. by apply emits_ret.
  - apply emits_tool_handoff.
  - apply emits_get. intros p Hp. case_match; [apply emits_tool_handoff|].
    eapply (emits_bind _ _ (fun c s => concat c = s)).
    + match goal with |- emits_in ?m _ => change (emits m) end. emit_all. unfold chatAnnotationChunks. rewrite bool_decide_eq_false_2 by congruence. apply emits_nil.
    + intros c s Hc. apply emits_ret. cbn. by rewrite app_nil_r.
  - apply emits_set; [by intros ?|]. apply emits_going. destruct (ev_HostedSearch event); [apply emits_hosted_started|apply emits_nil].
  - apply emits_set; [by intros ?|]. apply emits_going. destruct (ev_HostedSearch event); [apply emits_hosted_completed|apply emits_nil].
  - apply emits_get. intros p Hp. case_bool_decide; apply emits_going; [apply emits_signed|apply emits_closeThinking].
Qed.
Lemma emits_handle event : emits_in (handle translate event) told.
Proof. unfold handle, observeUsageEvidence. apply emits_set; [by intros ?|]. apply emits_event. Qed.
End emits.

(** ** Ending a response shows something *)
Section visible.
Context `{JSON} `{NetURL} `{Tokens} {T : Type}.
Context (translate : Format -> T -> bytes -> list bytes * T).
Local Notation proj := (proj T).
Local Notation projection := (claudeProjection T).

(** The format is Claude, or the translator has a chunk for every line. *)
Definition visible (p : projection) : Prop := pj_responseFormat p = FormatClaude \/ forall f t line, (translate f t line).1 <> [].
Lemma visible_after {A} (m : proj A) Q p : emits_in m Q -> visible p -> visible (m p).2.
Proof. intros Hm [Hp|Hp]; [left|by right]. by destruct (Hm p Hp) as (l & _ & Hf & _). Qed.
Lemma project_visible e p : visible p -> (project translate e p).1 <> [].
Proof.
  intros Hp. unfold project, pbind, pset, pget, pret. cbn [pj_responseFormat set_claudeSSE]. case_bool_decide as Hf; [done|].
  destruct Hp as [Hp|Hp]; [congruence|]. cbn [pj_param set_claudeSSE]. specialize (Hp (pj_responseFormat p) (pj_param p) (sse_line e)).
  destruct (translate _ _ _) as [chunks t]. cbn [fst snd] in *. case_bool_decide; [by destruct chunks|done].
Qed.
Lemma then_visible (m k : proj (list bytes)) (p : projection) : (k (m p).2).1 <> [] -> ((m >+> k) p).1 <> [].
Proof.
  unfold pthen, pbind, pret. destruct (m p) as [c p1]. cbn [snd]. destruct (k p1) as [c' p2]. cbn [fst]. by destruct c, c'.
Qed.
Lemma finish_visible reason p : visible p -> (finish translate reason p).1 <> [].
Proof.
  intros Hp. unfold finish, pbind, pget. set (e := MessageDelta reason _). clearbody e. apply then_visible, project_visible.
  apply (visible_after _ _ _ (emits_project translate e)), Hp.
Qed.
Lemma handoff_visible park p chunks t k p' : visible p -> toolHandoff translate park p = (Ok (chunks, t, k), p') -> t = true /\ chunks <> [].
Proof.
  intros Hp. unfold toolHandoff, pbind at 1, pget at 1. case_bool_decide; [done|]. unfold pbind at 1.
  pose proof (visible_after _ _ p (emits_closing translate) Hp) as Hp1. destruct (pthen _ _ p) as [before p1]. cbn [snd] in Hp1.
  unfold pbind at 1. pose proof (visible_after _ _ p1 (emits_handoff translate (pj_toolCalls p)) Hp1) as Hp2.
  destruct (handoff_calls _ _ p1) as [[called|e] p2]; [|done]. cbn [snd] in Hp2. unfold pbind.
  pose proof (finish_visible "tool_use" p2 Hp2) as Hf. destruct (finish _ _ p2) as [after p3]. intros [= <- <- <- <-]. split; [done|].
  cbn [fst] in Hf. by destruct before, called, after.
Qed.
Lemma going_continues (m : proj (list bytes)) p chunks t k p' : going m p = (Ok (chunks, t, k), p') -> t = false /\ k = false.
Proof. unfold going, pbind, pret. destruct (m p). by intros [= <- <- <- <-]. Qed.
(** A parked response is over, and the end of a response has output. *)
Lemma event_visible event p chunks t k p' :
  visible p -> handle_event translate event p = (Ok (chunks, t, k), p') -> (k = true -> t = true) /\ (t = true -> chunks <> []).
Proof.
  intros Hp. unfold handle_event. destruct (ev_Type event); try (by intros [= <- <- <- <-]).
  - intros [-> ->]%going_continues. done.
  - case_bool_decide; [by intros [= <- <- <- <-]|]. unfold pbind, pset, pget, pret. case_bool_decide; [by intros [= <- <- <- <-]|].
    intros [-> ->]%going_continues. done.
  - destruct (ev_ToolCall event); by intros [= <- <- <- <-].
  - intros [-> ?]%handoff_visible; done.
  - unfold pbind at 1, pget at 1. case_match; [intros [-> ?]%handoff_visible; done|]. unfold pbind at 1. set (m := start _ >+> _) at 1.
    assert ((m p).1 <> []) as Hm.
    { unfold m. apply then_visible. pose proof (visible_after _ _ p (emits_start translate) Hp) as Hp1. destruct (start _ p) as [c1 p1]. cbn [snd] in *.
      apply then_visible. pose proof (visible_after _ _ p1 (emits_closeThinking translate) Hp1) as Hp2. destruct (closeThinking _ p1) as [c2 p2]. cbn [snd] in *.
      apply then_visible. pose proof (visible_after _ _ p2 (emits_closeText translate) Hp2) as Hp3. destruct (closeText _ p2) as [c3 p3]. cbn [snd] in *.
      apply then_visible. by apply finish_visible. }
    destruct (m p) as [c q]. unfold pret. by intros [= <- <- <- <-].
  - intros [-> ->]%going_continues. done.
  - intros [-> ->]%going_continues. done.
  - unfold pbind, pget. case_bool_decide; intros [-> ->]%going_continues; done.
Qed.
Lemma handle_visible event p chunks t k p' :
  visible p -> handle translate event p = (Ok (chunks, t, k), p') -> (k = true -> t = true) /\ (t = true -> chunks <> []) /\ visible p'.
Proof.
  intros Hp Hh. split_and!; [| |]; try (eapply event_visible; [|exact Hh]; exact Hp).
  pose proof (visible_after _ _ p (emits_handle translate event) Hp) as Hv. by rewrite Hh in Hv.
Qed.
End visible.
