(* ===== verification/Delivery.v ===== *)
(** * Delivering a run to its HTTP consumer (src/cursoragentv1/executor.go)

    The executor drains the events of a managed output through a projection, sends
    the chunks, parks the session at a tool hand-off and cancels the run when the
    consumer is gone.  Its calls on the manager and its sends are a trace; what the
    context does at each select is an oracle. *)
From stdpp Require Import base tactics list gmap strings.
From S2P Require Import Prelude GoStrings Sha256 JsonValue Connect Data EventSnapshot Segment Manager HostedSearch Projection.
Open Scope Z_scope.

(** What the executor needs of a projection. *)
Class Projector (S : Type) := {
  pr_handle : Event -> S -> result (list bytes * bool * bool) * S;
  pr_nonStream : S -> result bytes;
  pr_semantic : S -> bool }.

(** ** Errors *)
Definition sentinel_text (e : Err) : string :=
  match e with
  | ErrSessionPending => "Cursor Agent v1 session is waiting for tool results"
  | ErrSessionNotPending => "Cursor Agent v1 session has no matching pending tool"
  | ErrPendingAmbiguous => "Cursor Agent v1 tool results match multiple pending sessions"
  | ErrCredentialMismatch => "Cursor Agent v1 credential does not own the session state"
  | ErrToolResultConflict => "Cursor Agent v1 tool result conflicts with the completed snapshot"
  | ErrMixedToolFollowUp => "Cursor Agent v1 cannot mix a new user message with tool results"
  | ErrSessionActive => "Cursor Agent v1 session is already active"
  | ErrStateLeaseHeld => "Cursor Agent v1 session state is leased by another runtime"
  | _ => ""
  end.
Definition mapManagerError (e : Err) : Err :=
  match e with
  | ErrSessionPending | ErrSessionNotPending | ErrPendingAmbiguous | ErrCredentialMismatch | ErrToolResultConflict
  | ErrMixedToolFollowUp | ErrSessionActive | ErrStateLeaseHeld => ErrRequest 409 (sentinel_text e)
  | _ => e
  end.
Definition errorStatusCode (e : Err) : Z :=
  match e with ErrRequest status _ | ErrHTTP status _ => status | ErrConnect code _ => connectError_StatusCode code | _ => 0 end.
Definition errNoPayload : Err := ErrRequest 502 "Cursor Agent v1 ended before the first semantic payload".
Definition errIncomplete : Err := ErrRequest 502 "Cursor Agent v1 ended before completion".
Definition errLateAuth : Err := ErrRequest 502 "Cursor Agent v1 authentication failed after semantic output".

(** ** The trace *)
(** [CallPark]: with the error the manager returned. *)
Inductive effect : Type := CallPark (err : option Err) | CallCancel | Sent (payload : bytes) | SentErr (err : Err).
(** Effects, the result and the projection. *)
Definition run_of (S A : Type) : Type := list effect * A * S.

(** What an output's channels deliver until they close. *)
Record Feed := { fd_events : list Event; fd_result : option Err }.

Section delivery.
Context {S : Type} `{Projector S}.
(** At the [n]-th select the context is done, with its error; what the [n]-th [Park] returns. *)
Context (cancelled : nat -> option Err) (parked : nat -> option Err).

Definition cancels (replay : bool) : list effect := if replay then [] else [CallCancel].
(** [park && !replay]: the effects and the error that ends the request. *)
Definition park_call (park replay : bool) (n : nat) : list effect * option Err :=
  if park && negb replay then
    match parked n with
    | None => ([CallPark None], None)
    | Some e => if errors_is e ErrSessionNotPending then ([CallPark (Some e)], None) else ([CallPark (Some e); CallCancel], Some e)
    end
  else ([], None).

(** Until the first payload: the chunks, whether they end the response, the next select and the events left. *)
Fixpoint bootstrap (replay : bool) (final : option Err) (n : nat) (events : list Event) (p : S) :
    run_of S (result (list bytes * bool * nat * list Event)) :=
  match cancelled n with
  | Some e => (cancels replay, Fail e, p)
  | None =>
      match events with
      | [] => ([], Fail (default errNoPayload final), p)
      | event :: events =>
          let '(r, p) := pr_handle event p in
          match r with
          | Fail e => (cancels replay, Fail e, p)
          | Ok (chunks, terminal, park) =>
              match park_call park replay n with
              | (fx, Some e) => (fx, Fail e, p)
              | (fx, None) =>
                  if bool_decide (chunks = []) then let '(fx', r, p) := bootstrap replay final (n + 1)%nat events p in (fx ++ fx', r, p)
                  else (fx, Ok (chunks, terminal, (n + 1)%nat, events), p)
              end
          end
      end
  end.
(** [sendStreamChunk] of an error. *)
Definition send_error (n : nat) (e : Err) : list effect := match cancelled n with Some _ => [] | None => [SentErr e] end.
(** The payloads of one event; [None]: the consumer left. *)
Fixpoint send_payloads (terminal replay : bool) (n : nat) (payloads : list bytes) : list effect * option nat :=
  match payloads with
  | [] => ([], Some n)
  | payload :: payloads =>
      match cancelled n with
      | Some _ => (if negb terminal && negb replay then [CallCancel] else [], None)
      | None => let '(fx, r) := send_payloads terminal replay (n + 1)%nat payloads in (Sent payload :: fx, r)
      end
  end.
Fixpoint continueStream (replay : bool) (final : option Err) (n : nat) (events : list Event) (p : S) : run_of S unit :=
  match cancelled n with
  | Some _ => (cancels replay, tt, p)
  | None =>
      match events with
      | [] =>
          match final, cancelled (n + 1)%nat with
          | Some e, None => (send_error (n + 2)%nat e, tt, p)
          | _, _ => ([], tt, p)
          end
      | event :: events =>
          let '(r, p) := pr_handle event p in
          match r with
          | Fail e => (send_error (n + 1)%nat e ++ cancels replay, tt, p)
          | Ok (payloads, terminal, park) =>
              match park_call park replay n with
              | (fx, Some e) => (fx ++ send_error (n + 1)%nat e, tt, p)
              | (fx, None) =>
                  match send_payloads terminal replay (n + 1)%nat payloads with
                  | (fx', None) => (fx ++ fx', tt, p)
                  | (fx', Some n') =>
                      if park || terminal then (fx ++ fx', tt, p)
                      else let '(fx'', r, p) := continueStream replay final n' events p in (fx ++ fx' ++ fx'', r, p)
                  end
              end
          end
      end
  end.
Definition emitStream (replay : bool) (final : option Err) (n : nat) (first : list bytes) (terminal : bool) (events : list Event) (p : S) : run_of S unit :=
  match send_payloads terminal replay n first with
  | (fx, None) => (fx, tt, p)
  | (fx, Some n) =>
      if terminal then (fx, tt, p)
      else let '(fx', r, p) := continueStream replay final n events p in (fx ++ fx', r, p)
  end.
(** [ExecuteStream] once the turn runs: the error the caller gets, or the stream. *)
Definition ExecuteStream (replay : bool) (feed : Feed) (p : S) : run_of S (option Err) :=
  match bootstrap replay (fd_result feed) 0 (fd_events feed) p with
  | (fx, Fail e, p) => (fx, Some e, p)
  | (fx, Ok (first, terminal, n, events), p) =>
      let '(fx', _, p) := emitStream replay (fd_result feed) n first terminal events p in (fx ++ fx', None, p)
  end.
(** The loop of [Execute]. *)
Fixpoint execute_loop (replay : bool) (final : option Err) (n : nat) (events : list Event) (p : S) : run_of S (result bytes) :=
  match cancelled n with
  | Some e => (cancels replay, Fail e, p)
  | None =>
      match events with
      | [] =>
          ([], Fail match final with
                    | Some e => if pr_semantic p && (errorStatusCode e =? 401) then errLateAuth else e
                    | None => errIncomplete
                    end, p)
      | event :: events =>
          let '(r, p) := pr_handle event p in
          match r with
          | Fail e => (cancels replay, Fail e, p)
          | Ok (_, terminal, park) =>
              match park_call park replay n with
              | (fx, Some e) => (fx, Fail e, p)
              | (fx, None) =>
                  if terminal : bool then (fx, pr_nonStream p, p)
                  else let '(fx', r, p) := execute_loop replay final (n + 1)%nat events p in (fx ++ fx', r, p)
              end
          end
      end
  end.
Definition Execute (replay : bool) (feed : Feed) (p : S) : run_of S (result bytes) :=
  execute_loop replay (fd_result feed) 0 (fd_events feed) p.
End delivery.

(** The projection of the Messages and chat formats. *)
Definition claude_projector `{JSON} `{NetURL} `{Tokens} {T : Type} (translate : Format -> T -> bytes -> list bytes * T)
    (translate_all : Format -> T -> bytes -> bytes) : Projector (claudeProjection T) :=
  {| pr_handle := handle translate; pr_nonStream := nonStream translate_all; pr_semantic := pj_semantic |}.
