(* ===== verification/DeliveryProps.v ===== *)
(** * Properties of the delivery of a run (src/cursoragentv1/executor.go, project_claude.go)

    The stream and the body of the same run tell the same story; a parked or
    replayed turn is never cancelled. *)
From stdpp Require Import base tactics list gmap strings sorting.
From Stdlib Require Import Strings.Byte.
From S2P Require Import Prelude GoStrings Sha256 JsonValue Connect Data HostedPolicy Usage EventSnapshot Segment Manager ManagerStore Media HostedSearch Projection ProjectionProps ProjectionBytes Delivery.
Open Scope Z_scope.

(** ** What the manager and the consumer see of a request *)
(** [Refused]: the manager would not park. *)
Inductive phase : Type := Running | Parked | Refused | Failing | Cancelled.
Definition park_ok (e : option Err) : bool := match e with None => true | Some e => errors_is e ErrSessionNotPending end.
(** Only a running turn parks or is cancelled, a parked one just keeps sending, a
    refused park must be cancelled, and a replayed turn does neither. *)
Definition monitor_step (replay : bool) (ph : phase) (e : effect) : option phase :=
  match ph, e with
  | Running, Sent _ => Some Running
  | Running, SentErr _ => Some Failing
  | Running, CallCancel | Refused, CallCancel | Failing, CallCancel => if replay then None else Some Cancelled
  | Running, CallPark e => if replay then None else Some (if park_ok e then Parked else Refused)
  | Parked, Sent _ => Some Parked
  | Cancelled, SentErr _ => Some Cancelled
  | _, _ => None
  end.
Fixpoint monitor (replay : bool) (ph : phase) (fx : list effect) : option phase :=
  match fx with [] => Some ph | e :: fx => ph ← monitor_step replay ph e; monitor replay ph fx end.
Lemma monitor_app replay ph fx fx' : monitor replay ph (fx ++ fx') = ph' ← monitor replay ph fx; monitor replay ph' fx'.
Proof. revert ph. induction fx as [|e fx IH]; intros ph; cbn; [done|]. destruct (monitor_step replay ph e); cbn; [apply IH|done]. Qed.
(** A request that ended as it may. *)
Definition lawful (replay : bool) (ph : phase) (fx : list effect) : Prop := exists ph', monitor replay ph fx = Some ph' /\ ph' <> Refused.

Section protocol.
Context `{JSON} `{NetURL} `{Tokens} {T : Type}.
Context (translate : Format -> T -> bytes -> list bytes * T) (translate_all : Format -> T -> bytes -> bytes).
Context (cancelled parked : nat -> option Err).
Local Notation projection := (claudeProjection T).
#[local] Instance projector_p : Projector projection := claude_projector translate translate_all.

Lemma cancels_lawful replay : lawful replay Running (cancels replay).
Proof. destruct replay; by eexists. Qed.
Lemma park_phase park replay n fx r :
  park_call parked park replay n = (fx, r) ->
  match r with
  | Some _ => monitor replay Running fx = Some Cancelled
  | None => monitor replay Running fx = Some Running \/ park = true /\ monitor replay Running fx = Some Parked
  end.
Proof.
  unfold park_call. destruct park, replay; cbn; try (intros [= <- <-]; by left).
  destruct (parked n) as [e|]; [destruct (errors_is e ErrSessionNotPending) eqn:E|]; intros [= <- <-]; cbn; rewrite ?E; auto.
Qed.
Lemma send_phase terminal replay n payloads fx r ph :
  ph = Running \/ ph = Parked /\ terminal = true -> send_payloads cancelled terminal replay n payloads = (fx, r) ->
  match r with Some _ => monitor replay ph fx = Some ph | None => lawful replay ph fx end.
Proof.
  intros Hph. revert n fx. induction payloads as [|payload payloads IH]; intros n fx; cbn; [by intros [= <- <-]|].
  destruct (cancelled n) as [e|].
  - intros [= <- <-]. destruct Hph as [->|[-> ->]]; [destruct terminal, replay|]; by eexists.
  - destruct (send_payloads _ _ _ _ _) as [fx' r'] eqn:E. intros [= <- <-]. specialize (IH _ _ E).
    destruct Hph as [->|[-> ->]]; exact IH.
Qed.
Lemma send_error_lawful replay n e : lawful replay Running (send_error cancelled n e).
Proof. unfold send_error. destruct (cancelled n); by eexists. Qed.
Lemma lawful_app replay ph ph' fx fx' : monitor replay ph fx = Some ph' -> lawful replay ph' fx' -> lawful replay ph (fx ++ fx').
Proof. intros Hm (ph2 & Hm2 & Hn). exists ph2. by rewrite monitor_app, Hm. Qed.

Lemma continue_lawful replay final n events p :
  visible translate p -> lawful replay Running (continueStream cancelled parked replay final n events p).1.1.
Proof.
  revert n p. induction events as [|event events IH]; intros n p Hv; cbn [continueStream]; (destruct (cancelled n); [apply cancels_lawful|]).
  - destruct final; [destruct (cancelled _)|]; [by eexists|apply send_error_lawful|by eexists].
  - cbn [pr_handle projector_p claude_projector]. destruct (handle translate event p) as [[[[payloads terminal] park]|e] p1] eqn:Eh.
    2:{ cbn [fst]. unfold send_error. destruct (cancelled _), replay; by eexists. }
    destruct (handle_visible _ _ _ _ _ _ _ Hv Eh) as (Hpark & Hend & Hv1).
    destruct (park_call parked park replay n) as [fx [e|]] eqn:Ep; pose proof (park_phase _ _ _ _ _ Ep) as Hfx; cbn [fst] in *.
    + eapply lawful_app; [exact Hfx|]. unfold send_error. destruct (cancelled _); by eexists.
    + destruct (send_payloads _ _ _ _ _) as [fx' [n'|]] eqn:Es.
      * destruct (park || terminal) eqn:Eend; cbn [fst].
        -- destruct Hfx as [Hfx|[-> Hfx]].
           ++ eapply lawful_app; [exact Hfx|]. exists Running. split; [|done]. by apply (send_phase _ _ _ _ _ _ Running) in Es; [|left].
           ++ eapply lawful_app; [exact Hfx|]. exists Parked. split; [|done]. by apply (send_phase _ _ _ _ _ _ Parked) in Es; [|right; auto].
        -- apply orb_false_iff in Eend as [-> ->]. destruct Hfx as [Hfx|[? _]]; [|done].
           apply (send_phase _ _ _ _ _ _ Running) in Es; [|by left].
           specialize (IH n' p1 Hv1). destruct (continueStream _ _ _ _ n' _ _) as [[fx3 []] p3]. cbn [fst] in *.
           eapply lawful_app; [exact Hfx|]. by eapply lawful_app.
      * cbn [fst]. destruct Hfx as [Hfx|[-> Hfx]]; (eapply lawful_app; [exact Hfx|]).
        -- by apply (send_phase _ _ _ _ _ _ Running) in Es; [|left].
        -- by apply (send_phase _ _ _ _ _ _ Parked) in Es; [|right; auto].
Qed.
(** The phase a bootstrap leaves. *)
Lemma bootstrap_phase replay final n events p fx r p' :
  visible translate p -> bootstrap cancelled parked replay final n events p = (fx, r, p') ->
  match r with
  | Fail _ => lawful replay Running fx
  | Ok (_, terminal, _, _) => visible translate p' /\
      (monitor replay Running fx = Some Running \/ terminal = true /\ monitor replay Running fx = Some Parked)
  end.
Proof.
  revert n p fx. induction events as [|event events IH]; intros n p fx Hv; cbn [bootstrap]; (destruct (cancelled n); [intros [= <- <- <-]; apply cancels_lawful|]).
  - intros [= <- <- <-]. by eexists.
  - cbn [pr_handle projector_p claude_projector]. destruct (handle translate event p) as [[[[payloads terminal] park]|e] p1] eqn:Eh.
    2:{ intros [= <- <- <-]. apply cancels_lawful. }
    destruct (handle_visible _ _ _ _ _ _ _ Hv Eh) as (Hpark & Hend & Hv1).
    destruct (park_call parked park replay n) as [fx1 [e|]] eqn:Ep; pose proof (park_phase _ _ _ _ _ Ep) as Hfx.
    + intros [= <- <- <-]. by exists Cancelled.
    + case_bool_decide as Hc.
      * assert (terminal = false) as -> by (destruct terminal; [by destruct (Hend eq_refl)|done]).
        destruct Hfx as [Hfx|[-> _]]; [|by specialize (Hpark eq_refl)].
        destruct (bootstrap _ _ _ _ _ _ _) as [[fx2 r2] p2] eqn:E. intros [= <- <- <-]. specialize (IH _ _ _ Hv1 E).
        destruct r2 as [[[[first t] n'] rest]|e]; [|by eapply lawful_app]. rewrite monitor_app, Hfx. exact IH.
      * intros [= <- <- <-]. split; [done|]. destruct Hfx as [Hfx|[-> Hfx]]; [by left|right]. auto.
Qed.
End protocol.

Section delivery.
Context `{JSON} `{NetURL} `{Tokens} {T : Type}.
Context (translate : Format -> T -> bytes -> list bytes * T) (translate_all : Format -> T -> bytes -> bytes).
Local Notation projection := (claudeProjection T).
#[local] Instance projector : Projector projection := claude_projector translate translate_all.

(** ** A run handled to its end *)
Fixpoint drive (events : list Event) (p : projection) : option (list bytes * projection) :=
  match events with
  | [] => None
  | event :: events =>
      match handle translate event p with
      | (Ok (chunks, true, _), p) => Some (chunks, p)
      | (Ok (chunks, false, _), p) => '(chunks', p) ← drive events p; Some (chunks ++ chunks', p)
      | (Fail _, _) => None
      end
  end.
(** The consumer stays and parking succeeds. *)
Definition steady : nat -> option Err := fun _ => None.
Definition sent (fx : list effect) : list bytes := omap (fun e => match e with Sent payload => Some payload | _ => None end) fx.
Lemma sent_app fx fx' : sent (fx ++ fx') = sent fx ++ sent fx'.
Proof. apply omap_app. Qed.
Lemma park_steady park replay n : exists fx, park_call steady park replay n = (fx, None) /\ sent fx = [].
Proof. unfold park_call. destruct (_ && _); eauto. Qed.
Lemma payloads_steady terminal replay n payloads :
  exists fx n', send_payloads steady terminal replay n payloads = (fx, Some n') /\ sent fx = payloads.
Proof.
  revert n. induction payloads as [|payload payloads IH]; intros n; cbn; [eauto|].
  destruct (IH (n + 1)%nat) as (fx & n' & -> & Hs). exists (Sent payload :: fx), n'. split; [done|]. change (payload :: sent fx = payload :: payloads). by rewrite Hs.
Qed.

Lemma execute_drives replay final n events p fx body q :
  execute_loop steady steady replay final n events p = (fx, Ok body, q) ->
  exists chunks, drive events p = Some (chunks, q) /\ nonStream translate_all q = Ok body.
Proof.
  revert n p fx. induction events as [|event events IH]; intros n p fx; cbn [execute_loop drive steady]; [done|].
  cbn [pr_handle projector claude_projector]. destruct (handle translate event p) as [[[[chunks terminal] park]|e] p1]; [|done].
  destruct (park_steady park replay n) as (fx1 & -> & _). destruct terminal; [intros [= <- Hb <-]; eauto|].
  destruct (execute_loop _ _ _ _ _ _ _) as [[fx2 r] p2] eqn:E. intros [= <- -> ->]. apply IH in E as (chunks' & -> & Hb). cbn. eauto.
Qed.
Lemma continue_drives replay final n events p chunks q :
  visible translate p -> drive events p = Some (chunks, q) ->
  exists fx, continueStream steady steady replay final n events p = (fx, tt, q) /\ sent fx = chunks.
Proof.
  revert n p chunks. induction events as [|event events IH]; intros n p chunks Hv; cbn [continueStream drive steady]; [done|].
  cbn [pr_handle projector claude_projector]. destruct (handle translate event p) as [[[[payloads terminal] park]|e] p1] eqn:Eh; [|done].
  destruct (handle_visible _ _ _ _ _ _ _ Hv Eh) as (Hpark & _ & Hv1).
  destruct (park_steady park replay n) as (fx1 & -> & Hs1). destruct (payloads_steady terminal replay (n + 1) payloads) as (fx2 & n' & -> & Hs2).
  destruct terminal.
  - rewrite orb_true_r. intros [= <- <-]. exists (fx1 ++ fx2). split; [done|]. by rewrite sent_app, Hs1, Hs2.
  - rewrite orb_false_r. destruct (drive events p1) as [[chunks' q']|] eqn:Ed; [|done]. cbn. intros [= <- <-].
    destruct park; [by specialize (Hpark eq_refl)|].
    destruct (IH n' p1 chunks' Hv1 Ed) as (fx3 & -> & Hs3). exists (fx1 ++ fx2 ++ fx3). split; [done|]. by rewrite !sent_app, Hs1, Hs2, Hs3.
Qed.
Lemma bootstrap_drives replay final n events p chunks q :
  visible translate p -> drive events p = Some (chunks, q) ->
  exists fx first terminal n' rest p', bootstrap steady steady replay final n events p = (fx, Ok (first, terminal, n', rest), p') /\ sent fx = [] /\
    visible translate p' /\
    if terminal then chunks = first /\ q = p' else exists chunks', drive rest p' = Some (chunks', q) /\ chunks = first ++ chunks'.
Proof.
  revert n p chunks. induction events as [|event events IH]; intros n p chunks Hv; cbn [bootstrap drive steady]; [done|].
  cbn [pr_handle projector claude_projector]. destruct (handle translate event p) as [[[[payloads terminal] park]|e] p1] eqn:Eh; [|done].
  destruct (handle_visible _ _ _ _ _ _ _ Hv Eh) as (Hpark & Hend & Hv1). destruct (park_steady park replay n) as (fx1 & -> & Hs1).
  destruct terminal.
  - intros [= <- <-]. rewrite bool_decide_eq_false_2 by auto. by exists fx1, payloads, true, (n + 1)%nat, events, p1.
  - destruct (drive events p1) as [[chunks' q']|] eqn:Ed; [|done]. cbn. intros [= <- <-]. case_bool_decide as Hc.
    + destruct (IH (n + 1)%nat p1 chunks' Hv1 Ed) as (fx2 & first & t & n' & rest & p' & -> & Hs2 & Hv2 & Hrest).
      exists (fx1 ++ fx2), first, t, n', rest, p'. rewrite sent_app, Hs1, Hs2, Hc. by split_and!.
    + exists fx1, payloads, false, (n + 1)%nat, events, p1. split_and!; eauto.
Qed.
Lemma stream_drives replay feed p chunks q :
  visible translate p -> drive (fd_events feed) p = Some (chunks, q) ->
  exists fx, ExecuteStream steady steady replay feed p = (fx, None, q) /\ sent fx = chunks.
Proof.
  intros Hv Hd. unfold ExecuteStream, emitStream.
  destruct (bootstrap_drives replay (fd_result feed) 0 _ p chunks q Hv Hd) as (fx & first & terminal & n & rest & p' & -> & Hs & Hv' & Hrest).
  destruct (payloads_steady terminal replay n first) as (fx1 & n' & -> & Hs1). destruct terminal.
  - destruct Hrest as [-> ->]. exists (fx ++ fx1). split; [done|]. by rewrite sent_app, Hs, Hs1.
  - destruct Hrest as (chunks' & Hd' & ->). destruct (continue_drives replay (fd_result feed) n' rest p' chunks' q Hv' Hd') as (fx2 & -> & Hs2).
    exists (fx ++ fx1 ++ fx2). split; [done|]. by rewrite !sent_app, Hs, Hs1, Hs2.
Qed.

(** ** The story a client reads *)
(** Each event is handled in order ([orderly]) until the response is over. *)
Fixpoint orderly_run (events : list Event) (p : projection) : Prop :=
  match events with
  | [] => True
  | event :: events =>
      orderly event p /\ match handle translate event p with (Ok (_, false, _), p) => orderly_run events p | _ => True end
  end.
(** The same as a test. *)
Definition orderly_test (event : Event) (p : projection) : bool :=
  match ev_Type event, ev_HostedSearch event with
  | EventHostedSearchCompleted, Some search =>
      bool_decide (hostedSearchToolID search ∉ pj_hostedStarted p) || negb (pj_textOpen p || pj_thinkingOpen p)
  | _, _ => true
  end.
Fixpoint orderly_check (events : list Event) (p : projection) : bool :=
  match events with
  | [] => true
  | event :: events =>
      orderly_test event p && match handle translate event p with (Ok (_, false, _), p) => orderly_check events p | _ => true end
  end.
Lemma orderly_check_sound events p : orderly_check events p = true -> orderly_run events p.
Proof.
  revert p. induction events as [|event events IH]; intros p; cbn [orderly_check orderly_run]; [done|]. intros [Ht Hc]%andb_true_iff. split.
  - intros E search Es Hin. unfold orderly_test in Ht. rewrite E, Es in Ht. apply orb_true_iff in Ht as [Ht|Ht]; [by apply bool_decide_eq_true in Ht|].
    by apply negb_true_iff, orb_false_iff in Ht.
  - destruct (handle translate event p) as [[[[c [|]] k]|e] p1]; auto.
Qed.
Lemma tool_call_idle calls history event p :
  idle calls history p -> ev_Type event = EventToolCall ->
  exists chunks p', handle translate event p = (Ok (chunks, false, false), p') /\
    idle (calls ++ match ev_ToolCall event with Some call => [call] | None => [] end) history p'.
Proof.
  intros (started & md & (c & Hc & Hl & [Hs Hcs Hh] & Hrest) & Hr) E. unfold handle, handle_event, observeUsageEvidence. rewrite E.
  destruct (ev_ToolCall event) as [call|]; (eexists [], _; split; [reflexivity|]); exists started, md; (split; [|exact Hr]); exists c;
    (split_and!; try done; [split; try done|apply Hrest..]).
  - cbn. by rewrite Hcs.
  - by rewrite app_nil_r.
Qed.
Lemma drive_story calls history events p chunks q :
  idle calls history p -> orderly_run events p -> drive events p = Some (chunks, q) ->
  exists calls' reason, ending calls' history reason true q /\ (reason = stop_reason q \/ history = false /\ reason = "end_turn").
Proof.
  revert calls p chunks. induction events as [|event events IH]; intros calls p chunks Hi Ho; cbn [drive orderly_run] in *; [done|].
  destruct Ho as [Ho Hrun]. destruct (decide (ev_Type event = EventToolCall)) as [Ecall|Ecall].
  - destruct (tool_call_idle _ _ _ _ Hi Ecall) as (c1 & p1 & Eh & Hi1). rewrite Eh in *.
    destruct (drive events p1) as [[chunks' q']|] eqn:Ed; [|done]. cbn. intros [= <- <-]. by apply (IH _ _ _ Hi1 Hrun Ed).
  - pose proof (handle_spec translate calls history event Ecall p (conj Hi Ho)) as Hh.
    destruct (handle translate event p) as [[[[c1 terminal] park]|e] p1]; [|done]. cbn [served fst snd] in Hh. destruct terminal.
    + destruct Hh as (reason & He & Hr). intros [= <- <-]. by exists calls, reason.
    + destruct (drive events p1) as [[chunks' q']|] eqn:Ed; [|done]. cbn. intros [= <- <-]. by apply (IH _ _ _ Hh Hrun Ed).
Qed.
Lemma drive_bytes events p chunks q :
  pj_responseFormat p = FormatClaude -> drive events p = Some (chunks, q) ->
  exists l, pj_claudeSSE q = pj_claudeSSE p ++ l /\ concat chunks = events_bytes l /\ pj_responseFormat q = FormatClaude.
Proof.
  revert p chunks. induction events as [|event events IH]; intros p chunks Hf; cbn [drive]; [done|].
  destruct (emits_handle translate event p Hf) as (l & Hl & Hf1 & Ht).
  destruct (handle translate event p) as [[[[c1 terminal] park]|e] p1]; [|done]. cbn [told fst snd] in *. destruct terminal.
  - intros [= <- <-]. by exists l.
  - destruct (drive events p1) as [[chunks' q']|] eqn:Ed; [|done]. cbn. intros [= <- <-].
    destruct (IH p1 chunks' Hf1 Ed) as (l' & Hl' & Hc & Hq). exists (l ++ l'). by rewrite Hl', Hl, app_assoc, concat_app, events_bytes_app, Ht, Hc.
Qed.
Lemma new_idle uuid param turn : idle [] (pj_historyTurn (newClaudeProjection uuid param turn)) (newClaudeProjection (T := T) uuid param turn).
Proof. exists false, Closed. split; [|done]. by exists new_client. Qed.
End delivery.

(** C26 The stream and the body of a run tell the same story, provided no search result
    interrupts an open text or thinking block ([orderly_run]; without it the blocks
    interleave, see [late_completion_interleaves] below).  When [Execute]
    answers a Messages request with a body, [ExecuteStream] on the same events sends
    bytes that are the encoding of stream events which a client of the streaming
    protocol accepts to the end, and the blocks it then holds are the blocks of the
    body.  The stop reason is the body's, except that a request without a history key
    may end its stream with end_turn (a tool turn that ended without a hand-off). *)
Theorem stream_refines_body `{JSON} `{NetURL} `{Tokens} {T : Type} (translate : Format -> T -> bytes -> list bytes * T)
    (translate_all : Format -> T -> bytes -> bytes) uuid param turn replay replay' feed fx body q :
  tt_responseFormat turn = FormatClaude ->
  orderly_run translate (fd_events feed) (newClaudeProjection uuid param turn) ->
  @Execute _ (claude_projector translate translate_all) steady steady replay feed (newClaudeProjection uuid param turn) = (fx, Ok body, q) ->
  exists fx' events c reason,
    @ExecuteStream _ (claude_projector translate translate_all) steady steady replay' feed (newClaudeProjection uuid param turn) = (fx', None, q) /\
    concat (sent fx') = events_bytes events /\
    client_run new_client events = Some c /\ cl_stopped c = true /\ cl_open c = None /\
    cl_done c = raw_block <$> pj_blocks q /\ json_marshal (message_json q) = Some body /\ cl_reason c = Some reason /\
    (reason = stop_reason q \/ HistoryRequestKey (mr_Run (tt_managed turn)) = "" /\ reason = "end_turn").
Proof.
  intros Hf Ho He. set (p0 := newClaudeProjection uuid param turn) in *.
  destruct (execute_drives translate translate_all _ _ _ _ _ _ _ _ He) as (chunks & Hd & Hbody).
  destruct (stream_drives translate translate_all replay' feed p0 chunks q (or_introl Hf) Hd) as (fx' & Hs & Hsent).
  destruct (drive_story translate [] _ _ _ _ _ (new_idle uuid param turn) Ho Hd) as (calls & reason & (c & Hc & Hr & Ht & Hop & Hdone & _) & Hreason).
  destruct (drive_bytes translate _ _ _ _ (Hf : pj_responseFormat p0 = FormatClaude) Hd) as (l & Hl & Hb & Hq).
  exists fx', l, c, reason. split_and!; try done; [by rewrite Hsent| | |].
  - unfold client_of in Hc. by rewrite Hl in Hc.
  - unfold nonStream in Hbody. destruct (json_marshal (message_json q)); [|done].
    rewrite (bool_decide_eq_true_2 _ Hq) in Hbody. by injection Hbody as ->.
  - destruct Hreason as [->|[Hh ->]]; [by left|right]. split; [|done]. cbn in Hh. by case_bool_decide.
Qed.

(** C28 What the delivery of a streamed Messages answer does to the session, whatever the
    consumer does: a turn it parked for tool results it never cancels, a park that fails
    for another reason than that nothing is pending it always follows by a cancellation, a run it cancelled sends no
    further payload, and a replayed turn it neither parks nor cancels.  This is about
    the parking the delivery itself asks for: a run that was parked before its buffered
    events are delivered is another matter ([DispatchProps.buffered_batch_cancelled]). *)
Theorem parked_turn_kept `{JSON} `{NetURL} `{Tokens} {T : Type} (translate : Format -> T -> bytes -> list bytes * T)
    (translate_all : Format -> T -> bytes -> bytes) (cancelled parked : nat -> option Err) replay feed (p : claudeProjection T) :
  pj_responseFormat p = FormatClaude ->
  lawful replay Running (@ExecuteStream _ (claude_projector translate translate_all) cancelled parked replay feed p).1.1.
Proof.
  intros Hv%(or_introl (B := forall f t line, (translate f t line).1 <> [])). fold (visible translate p) in Hv. unfold ExecuteStream, emitStream.
  destruct (bootstrap _ _ _ _ _ _ _) as [[fx r] p1] eqn:Eb. apply (bootstrap_phase translate translate_all) in Eb; [|done].
  destruct r as [[[[first terminal] n] rest]|e]; [|exact Eb]. destruct Eb as [Hv1 Hph].
  destruct (send_payloads _ _ _ _ _) as [fx1 r1] eqn:Es. 
  assert (exists ph, (ph = Running \/ ph = Parked /\ terminal = true) /\ monitor replay Running fx = Some ph) as (ph & Hcase & Hm)
    by (destruct Hph as [?|[? ?]]; eauto).
  apply (send_phase cancelled _ _ _ _ _ _ ph) in Es; [|done]. destruct r1 as [n'|]; [|by eapply lawful_app].
  destruct terminal; [eapply lawful_app; [exact Hm|]; exists ph; split; [done|by destruct Hcase as [->|[-> _]]]|].
  destruct Hcase as [->|[_ ?]]; [|done]. pose proof (continue_lawful translate translate_all cancelled parked replay (fd_result feed) n' rest p1 Hv1) as Hc.
  destruct (continueStream _ _ _ _ _ _ _) as [[fx2 []] p2]. cbn [fst] in *. eapply lawful_app; [exact Hm|]. by eapply lawful_app.
Qed.

(** ** A concrete run *)
Definition brace_json : JSON := {| json_unmarshal _ := Some (AnyMap []); json_marshal _ := Some (to_bytes "{}"); json_valid _ := true |}.
Definition plain_url : NetURL := {| url_Parse _ := None; net_ParseIP _ := false |}.
Definition byte_tokens : Tokens := {| token_count _ text := Some (len text); claude_input_tokens body := Some (blen body) |}.
Definition no_translator (f : Format) (t : unit) (line : bytes) : list bytes * unit := ([line], t).
Definition same_body (f : Format) (t : unit) (line : bytes) : bytes := line.
Definition sample_turn : translatedTurn :=
  {| tt_managed := sample_request ""; tt_publicModel := "claude"; tt_responseFormat := FormatClaude; tt_original := []; tt_claudeRequest := [];
     tt_parsedUserText := ""; tt_replay := false |}.
Definition weather_call : ToolCall := {| tc_MessageID := 1; tc_ExecID := ""; tc_ToolCallID := "call_1"; tc_Name := "weather"; tc_Arguments := "" |}.
Definition sample_search : HostedSearch :=
  {| hs_CallID := "s1"; hs_Kind := HostedSearchKindWebSearch; hs_Query := "rocq"; hs_URL := ""; hs_ArgsJSON := ""; hs_References := [];
     hs_Content := ""; hs_Error := "" |}.
Definition with_hosted (t : EventType) : Event :=
  let e := event_of t in
  {| ev_Type := t; ev_Text := ""; ev_Signature := ""; ev_ProgressEvents := 0; ev_Tokens := 0; ev_Usage := None; ev_Checkpoint := [];
     ev_Blobs := ∅; ev_ToolCall := None; ev_ToolResult := None; ev_HostedSearch := Some sample_search |}.
Definition sample_feed : Feed :=
  {| fd_events := [with_hosted EventHostedSearchStarted; with_hosted EventHostedSearchCompleted; with_text "hi" (event_of EventText);
                   with_tool_call (Some weather_call) (event_of EventToolCall); event_of EventTurnEnded]; fd_result := None |}.
#[local] Existing Instance brace_json.
#[local] Existing Instance plain_url.
#[local] Existing Instance byte_tokens.
#[local] Instance sample_projector : Projector (claudeProjection unit) := claude_projector no_translator same_body.
Definition sample_projection : claudeProjection unit := newClaudeProjection "uuid" tt sample_turn.
Definition sample_executed : run_of (claudeProjection unit) (result bytes) := Execute steady steady false sample_feed sample_projection.
Lemma sample_orderly : orderly_run no_translator (fd_events sample_feed) sample_projection.
Proof. apply orderly_check_sound. vm_compute. reflexivity. Qed.
Lemma stream_refines_body_witness :
  sample_executed.1.2 = Ok (to_bytes "{}") /\
  exists fx' events c reason,
    ExecuteStream steady steady false sample_feed sample_projection = (fx', None, sample_executed.2) /\
    concat (sent fx') = events_bytes events /\
    client_run new_client events = Some c /\ cl_stopped c = true /\ cl_open c = None /\
    cl_done c = raw_block <$> pj_blocks sample_executed.2 /\ json_marshal (message_json sample_executed.2) = Some (to_bytes "{}") /\
    cl_reason c = Some reason /\ (reason = stop_reason sample_executed.2 \/ HistoryRequestKey (mr_Run (tt_managed sample_turn)) = "" /\ reason = "end_turn").
Proof.
  split; [vm_compute; reflexivity|].
  apply (stream_refines_body no_translator same_body "uuid" tt sample_turn false false sample_feed sample_executed.1.1 (to_bytes "{}") sample_executed.2);
    [reflexivity|exact sample_orderly|vm_compute; reflexivity].
Defined.
Lemma parked_turn_kept_witness :
  lawful false Running (ExecuteStream (fun n => if (2 <? n)%nat then Some ErrContextCanceled else None) steady false sample_feed sample_projection).1.1.
Proof. apply (parked_turn_kept no_translator same_body). reflexivity. Defined.

(** A search result that arrives inside an open text block opens a second block before the
    first is closed: the client refuses the stream. *)
Definition late_completion : list Event :=
  [with_hosted EventHostedSearchStarted; with_text "hi" (event_of EventText); with_hosted EventHostedSearchCompleted; event_of EventDone].
Lemma late_completion_interleaves :
  exists chunks q, drive no_translator late_completion sample_projection = Some (chunks, q) /\ client_run new_client (pj_claudeSSE q) = None.
Proof. eexists _, _. split; vm_compute; reflexivity. Qed.
