(* ===== verification/Responses.v ===== *)
(** * Projecting a run into a Responses answer (src/cursoragentv1/project_responses.go)

    Output items are opened, extended and closed under an output index, every stream
    event carries the next sequence number, and the final event carries the envelope
    that is also the non-streamed body. *)
From stdpp Require Import base tactics list gmap strings.
From Stdlib Require Import Strings.Byte.
From S2P Require Import Prelude GoStrings JsonValue Connect Data Usage Segment Manager HostedSearch Projection Delivery.
Open Scope Z_scope.

(** ** Items and events *)
(** [Annotations] is rendered as a list whether nil or empty. *)
Record responsesOutputItem := {
  ri_Index : Z; ri_ID : string; ri_Type : string; ri_Status : string; ri_CallID : string; ri_Name : string; ri_Text : string;
  ri_Arguments : string; ri_Action : object; ri_Annotations : list any; ri_Role : string }.
(** The item of a [response.output_item.added] event. *)
Inductive addedItem : Type :=
  | AddedReasoning (id : string) | AddedMessage (id : string) | AddedSearch (id : string) (action : object) | AddedCall (id callID name : string).
Inductive payload : Type :=
  | Created (response : object) | InProgress (response : object) | Completed (response : object)
  | ItemAdded (index : Z) (item : addedItem) | ItemDone (index : Z) (item : responsesOutputItem)
  | SummaryPartAdded (id : string) (index : Z) | SummaryDelta (id : string) (index : Z) (text : string)
  | SummaryTextDone (id : string) (index : Z) (text : string) | SummaryPartDone (id : string) (index : Z) (text : string)
  | ContentPartAdded (id : string) (index : Z) | OutputTextDelta (id : string) (index : Z) (text : string)
  | OutputTextDone (id : string) (index : Z) (text : string) | ContentPartDone (id : string) (index : Z) (text : string) (annotations : list any)
  | SearchInProgress (id : string) (index : Z) | SearchSearching (id : string) (index : Z) | SearchCompleted (id : string) (index : Z)
  | ArgumentsDelta (id : string) (index : Z) (arguments : string) | ArgumentsDone (id : string) (index : Z) (arguments : string).
Record responsesEvent := { re_seq : Z; re_payload : payload }.

Definition summary_part (text : string) : any := AnyMap [("type", str "summary_text"); ("text", str text)].
Definition text_content (text : string) (annotations : list any) : any :=
  AnyMap [("type", str "output_text"); ("text", str text); ("annotations", AnyList annotations)].
Definition responsesItemJSON (item : responsesOutputItem) : object :=
  let head := [("id", str (ri_ID item)); ("type", str (ri_Type item)); ("status", str (ri_Status item))] in
  if bool_decide (ri_Type item = "reasoning") then head ++ [("summary", AnyList [summary_part (ri_Text item)])]
  else if bool_decide (ri_Type item = "web_search_call") then head ++ [("action", AnyMap (ri_Action item))]
  else if bool_decide (ri_Type item = "function_call")
  then head ++ [("call_id", str (ri_CallID item)); ("name", str (ri_Name item)); ("arguments", str (ri_Arguments item))]
  else [("id", str (ri_ID item)); ("type", str "message"); ("status", str (ri_Status item)); ("role", str "assistant");
        ("content", AnyList [text_content (ri_Text item) (ri_Annotations item)])].
Definition added_json (item : addedItem) : object :=
  match item with
  | AddedReasoning id => [("id", str id); ("type", str "reasoning"); ("status", str "in_progress"); ("summary", AnyList [])]
  | AddedMessage id => [("id", str id); ("type", str "message"); ("status", str "in_progress"); ("role", str "assistant"); ("content", AnyList [])]
  | AddedSearch id action => [("id", str id); ("type", str "web_search_call"); ("status", str "in_progress"); ("action", AnyMap action)]
  | AddedCall id callID name =>
      [("id", str id); ("type", str "function_call"); ("status", str "in_progress"); ("call_id", str callID); ("name", str name); ("arguments", str "")]
  end.
Definition located (id : string) (index : Z) : object := [("item_id", str id); ("output_index", AnyInt index)].
Definition summary_at (id : string) (index : Z) : object := located id index ++ [("summary_index", AnyInt 0)].
Definition content_at (id : string) (index : Z) : object := located id index ++ [("content_index", AnyInt 0)].
(** The event's type and its fields after [type] and [sequence_number]. *)
Definition payload_fields (p : payload) : string * object :=
  match p with
  | Created r => ("response.created", [("response", AnyMap r)])
  | InProgress r => ("response.in_progress", [("response", AnyMap r)])
  | Completed r => ("response.completed", [("response", AnyMap r)])
  | ItemAdded i item => ("response.output_item.added", [("output_index", AnyInt i); ("item", AnyMap (added_json item))])
  | ItemDone i item => ("response.output_item.done", [("output_index", AnyInt i); ("item", AnyMap (responsesItemJSON item))])
  | SummaryPartAdded id i => ("response.reasoning_summary_part.added", summary_at id i ++ [("part", summary_part "")])
  | SummaryDelta id i text => ("response.reasoning_summary_text.delta", summary_at id i ++ [("delta", str text)])
  | SummaryTextDone id i text => ("response.reasoning_summary_text.done", summary_at id i ++ [("text", str text)])
  | SummaryPartDone id i text => ("response.reasoning_summary_part.done", summary_at id i ++ [("part", summary_part text)])
  | ContentPartAdded id i => ("response.content_part.added", content_at id i ++ [("part", text_content "" [])])
  | OutputTextDelta id i text => ("response.output_text.delta", content_at id i ++ [("delta", str text)])
  | OutputTextDone id i text => ("response.output_text.done", content_at id i ++ [("text", str text)])
  | ContentPartDone id i text annotations => ("response.content_part.done", content_at id i ++ [("part", text_content text annotations)])
  | SearchInProgress id i => ("response.web_search_call.in_progress", located id i)
  | SearchSearching id i => ("response.web_search_call.searching", located id i)
  | SearchCompleted id i => ("response.web_search_call.completed", located id i)
  | ArgumentsDelta id i arguments => ("response.function_call_arguments.delta", located id i ++ [("delta", str arguments)])
  | ArgumentsDone id i arguments => ("response.function_call_arguments.done", located id i ++ [("arguments", str arguments)])
  end.
Definition responsesSSE (event : string) (payload : bytes) : bytes :=
  to_bytes "event: " ++ to_bytes event ++ [x0a] ++ to_bytes "data: " ++ payload ++ blank_line.
Definition response_bytes `{JSON} (e : responsesEvent) : bytes :=
  let '(type, fields) := payload_fields (re_payload e) in
  responsesSSE type (marshal_or_nil (AnyMap ([("type", str type); ("sequence_number", AnyInt (re_seq e))] ++ fields))).

(** ** State *)
(** The open reasoning or message item: [respReasoningOpen], [-Index], [-ID] and its text. *)
Record openItem := { oi_open : bool; oi_index : Z; oi_id : string; oi_text : string }.
Definition no_item : openItem := {| oi_open := false; oi_index := 0; oi_id := ""; oi_text := "" |}.
Record responsesState := {
  rs_seq : Z; rs_out : Z; rs_span : Z; rs_started : bool; rs_createdAt : Z; rs_reasoning : openItem; rs_message : openItem;
  rs_byIndex : gmap Z responsesOutputItem; rs_searchIndex : gmap string Z }.
Definition new_responses : responsesState :=
  {| rs_seq := 0; rs_out := 0; rs_span := 0; rs_started := false; rs_createdAt := 0; rs_reasoning := no_item; rs_message := no_item;
     rs_byIndex := ∅; rs_searchIndex := ∅ |}.
Definition set_seq n s := {| rs_seq := n; rs_out := rs_out s; rs_span := rs_span s; rs_started := rs_started s; rs_createdAt := rs_createdAt s;
  rs_reasoning := rs_reasoning s; rs_message := rs_message s; rs_byIndex := rs_byIndex s; rs_searchIndex := rs_searchIndex s |}.
Definition set_out n s := {| rs_seq := rs_seq s; rs_out := n; rs_span := rs_span s; rs_started := rs_started s; rs_createdAt := rs_createdAt s;
  rs_reasoning := rs_reasoning s; rs_message := rs_message s; rs_byIndex := rs_byIndex s; rs_searchIndex := rs_searchIndex s |}.
Definition set_span n s := {| rs_seq := rs_seq s; rs_out := rs_out s; rs_span := n; rs_started := rs_started s; rs_createdAt := rs_createdAt s;
  rs_reasoning := rs_reasoning s; rs_message := rs_message s; rs_byIndex := rs_byIndex s; rs_searchIndex := rs_searchIndex s |}.
Definition set_created at_ s := {| rs_seq := rs_seq s; rs_out := rs_out s; rs_span := rs_span s; rs_started := true; rs_createdAt := at_;
  rs_reasoning := rs_reasoning s; rs_message := rs_message s; rs_byIndex := rs_byIndex s; rs_searchIndex := rs_searchIndex s |}.
Definition set_reasoning i s := {| rs_seq := rs_seq s; rs_out := rs_out s; rs_span := rs_span s; rs_started := rs_started s; rs_createdAt := rs_createdAt s;
  rs_reasoning := i; rs_message := rs_message s; rs_byIndex := rs_byIndex s; rs_searchIndex := rs_searchIndex s |}.
Definition set_message i s := {| rs_seq := rs_seq s; rs_out := rs_out s; rs_span := rs_span s; rs_started := rs_started s; rs_createdAt := rs_createdAt s;
  rs_reasoning := rs_reasoning s; rs_message := i; rs_byIndex := rs_byIndex s; rs_searchIndex := rs_searchIndex s |}.
Definition set_byIndex m s := {| rs_seq := rs_seq s; rs_out := rs_out s; rs_span := rs_span s; rs_started := rs_started s; rs_createdAt := rs_createdAt s;
  rs_reasoning := rs_reasoning s; rs_message := rs_message s; rs_byIndex := m; rs_searchIndex := rs_searchIndex s |}.
Definition set_searchIndex m s := {| rs_seq := rs_seq s; rs_out := rs_out s; rs_span := rs_span s; rs_started := rs_started s; rs_createdAt := rs_createdAt s;
  rs_reasoning := rs_reasoning s; rs_message := rs_message s; rs_byIndex := rs_byIndex s; rs_searchIndex := m |}.
(** The fields the two projections share and those of the Responses one. *)
Record responsesProjection (T : Type) := { rp_base : claudeProjection T; rp_state : responsesState }.
Arguments rp_base {T} _.
Arguments rp_state {T} _.

(** ** Effects *)
Definition rproj (T A : Type) : Type := responsesProjection T -> A * responsesProjection T.
Definition rret {T A} (a : A) : rproj T A := fun p => (a, p).
Definition rpbind {T A B} (m : rproj T A) (k : A -> rproj T B) : rproj T B := fun p => let '(a, p) := m p in k a p.
Definition rget {T A} (f : responsesState -> A) : rproj T A := fun p => (f (rp_state p), p).
Definition rput {T} (f : responsesState -> responsesState) : rproj T unit := fun p => (tt, {| rp_base := rp_base p; rp_state := f (rp_state p) |}).
Definition bget {T A} (f : claudeProjection T -> A) : rproj T A := fun p => (f (rp_base p), p).
Definition bput {T} (f : claudeProjection T -> claudeProjection T) : rproj T unit := fun p => (tt, {| rp_base := f (rp_base p); rp_state := rp_state p |}).
Declare Scope rproj_scope.
Delimit Scope rproj_scope with rproj.
Notation "x <- m ;; k" := (rpbind m (fun x => k)) (at level 100, m at next level, right associativity) : rproj_scope.
Notation "m ;;; k" := (rpbind m (fun _ => k)) (at level 100, right associativity) : rproj_scope.
Close Scope proj_scope.
Open Scope rproj_scope.
Definition events (T : Type) : Type := rproj T (list responsesEvent).
Definition rthen {T} (m k : events T) : events T := c <- m ;; c' <- k ;; rret (c ++ c').
Notation "m >+> k" := (rthen m k) (at level 60, right associativity) : rproj_scope.

Section responses.
Context `{JSON} `{NetURL} `{Tokens} {T : Type}.
(** [time.Now().Unix()] when the response starts. *)
Context (now : Z).
Local Notation rproj := (rproj T).
Local Notation events := (events T).

Definition nextResponsesSeq : rproj Z := n <- rget rs_seq ;; rput (set_seq (n + 1)) ;;; rret (n + 1).
Definition nextResponsesOutput : rproj Z := index <- rget rs_out ;; rput (set_out (index + 1)) ;;; rret index.
(** An event under the next sequence number. *)
Definition responsesEvent_of (p : payload) : events := seq <- nextResponsesSeq ;; rret [{| re_seq := seq; re_payload := p |}].
Fixpoint all_events (ps : list payload) : events :=
  match ps with [] => rret [] | p :: ps => responsesEvent_of p >+> all_events ps end.
Definition storeResponsesItem (item : responsesOutputItem) : rproj unit := rput (fun s => set_byIndex (<[ri_Index item := item]> (rs_byIndex s)) s).

(** ** Envelope *)
Definition responsesUsage (p : claudeProjection T) : object :=
  let usage :=
    [("input_tokens", AnyInt 0); ("input_tokens_details", AnyMap [("cached_tokens", AnyInt 0); ("cache_write_tokens", AnyInt 0)]);
     ("output_tokens", AnyInt (outputTokens p)); ("output_tokens_details", AnyMap [("reasoning_tokens", AnyInt 0)]);
     ("total_tokens", AnyInt (outputTokens p))] in
  let usage :=
    match factsMeasuredTurn (pj_facts p) with
    | Some measured =>
        let usage := map_set usage "input_tokens" (AnyInt (mu_TotalInput measured)) in
        let usage := map_set usage "input_tokens_details"
          (AnyMap [("cached_tokens", AnyInt (mu_CacheRead measured)); ("cache_write_tokens", AnyInt (mu_CacheWrite measured))]) in
        let usage := map_set usage "output_tokens_details" (AnyMap [("reasoning_tokens", AnyInt (mu_Reasoning measured))]) in
        map_set usage "total_tokens" (AnyInt (wrap_i64 (mu_TotalInput measured + mu_Output measured)))
    | None =>
        if uf_measuredEnabled (pj_facts p) then
          let input := estimatedInputTokens p in
          map_set (map_set usage "input_tokens" (AnyInt input)) "total_tokens" (AnyInt (wrap_i64 (input + outputTokens p)))
        else usage
    end in
  attachPrivateUsage p usage.
Definition responsesEnvelope (p : claudeProjection T) (s : responsesState) (status : string) (output : list any) : object :=
  [("id", str (pj_messageID p)); ("object", str "response"); ("created_at", AnyInt (rs_createdAt s)); ("status", str status);
   ("model", str (pj_model p)); ("output", AnyList output); ("error", AnyNil);
   ("usage", if bool_decide (status = "in_progress") then AnyNil else AnyMap (responsesUsage p))].
Definition response_annotation (citation : any) : option any :=
  match citation with
  | AnyMap block =>
      let url := stringValue (map_get block "url") in
      if usableHTTPSourceURL url then
        Some (AnyMap [("type", str "url_citation"); ("url", str url); ("title", str (stringValue (map_get block "title")));
                      ("start_index", AnyInt 0); ("end_index", AnyInt 0)])
      else None
  | _ => None
  end.
Definition responsesTextAnnotations (p : claudeProjection T) : list any := omap response_annotation (pj_citations p).
(** The stored items in the order of their indices. *)
Definition stored_items (s : responsesState) : list responsesOutputItem := omap (fun i => rs_byIndex s !! Z.of_nat i) (seq 0 (Z.to_nat (rs_out s))).
Definition responsesOutputJSON (s : responsesState) : list any := (fun item => AnyMap (responsesItemJSON item)) <$> stored_items s.
Definition envelope (status : string) (output : responsesState -> list any) : rproj object :=
  p <- bget (fun p => p) ;; s <- rget (fun s => s) ;; rret (responsesEnvelope p s status (output s)).

(** ** Items *)
Definition responsesStart : events :=
  started <- rget rs_started ;;
  if started : bool then rret []
  else
    rput (set_created now) ;;;
    response <- envelope "in_progress" (fun _ => []) ;;
    all_events [Created response; InProgress response].
(** Opens the reasoning or the message item: its index, and its identifier from the span. *)
Definition open_item (prefix : string) (set : openItem -> responsesState -> responsesState) (text : string) : rproj (Z * string) :=
  index <- nextResponsesOutput ;;
  rput (fun s => set_span (rs_span s + 1) s) ;;;
  span <- rget rs_span ;;
  messageID <- bget pj_messageID ;;
  let id := prefix +:+ messageID +:+ "_" +:+ Itoa span in
  rput (set {| oi_open := true; oi_index := index; oi_id := id; oi_text := text |}) ;;;
  rret (index, id).
Definition responsesEnsureReasoning : events :=
  item <- rget rs_reasoning ;;
  if oi_open item then rret []
  else
    at_ <- open_item "rs_" set_reasoning (oi_text item) ;;
    all_events [ItemAdded at_.1 (AddedReasoning at_.2); SummaryPartAdded at_.2 at_.1].
Definition closed_item (type role : string) (annotations : list any) (item : openItem) : responsesOutputItem :=
  {| ri_Index := oi_index item; ri_ID := oi_id item; ri_Type := type; ri_Status := "completed"; ri_CallID := ""; ri_Name := "";
     ri_Text := oi_text item; ri_Arguments := ""; ri_Action := []; ri_Annotations := annotations; ri_Role := role |}.
Definition shut (item : openItem) : openItem := {| oi_open := false; oi_index := oi_index item; oi_id := oi_id item; oi_text := "" |}.
Definition responsesCloseReasoning : events :=
  item <- rget rs_reasoning ;;
  if negb (oi_open item) then rret []
  else
    rput (set_reasoning (shut item)) ;;;
    let done := closed_item "reasoning" "" [] item in
    storeResponsesItem done ;;;
    all_events [SummaryTextDone (oi_id item) (oi_index item) (oi_text item); SummaryPartDone (oi_id item) (oi_index item) (oi_text item);
                ItemDone (oi_index item) done].
Definition responsesEnsureMessage : events :=
  item <- rget rs_message ;;
  if oi_open item then rret []
  else
    at_ <- open_item "msg_" set_message (oi_text item) ;;
    all_events [ItemAdded at_.1 (AddedMessage at_.2); ContentPartAdded at_.2 at_.1].
Definition responsesCloseMessage : events :=
  item <- rget rs_message ;;
  if negb (oi_open item) then rret []
  else
    rput (set_message (shut item)) ;;;
    annotations <- bget responsesTextAnnotations ;;
    let done := closed_item "message" "assistant" annotations item in
    storeResponsesItem done ;;;
    all_events [OutputTextDone (oi_id item) (oi_index item) (oi_text item); ContentPartDone (oi_id item) (oi_index item) (oi_text item) annotations;
                ItemDone (oi_index item) done].

(** ** Searches and calls *)
Definition search_id (search : HostedSearch) : string := "ws_" +:+ hostedSearchToolID search.
Definition responsesSearchStarted (search : HostedSearch) : events :=
  let id := search_id search in
  known <- rget (fun s => rs_searchIndex s !! id) ;;
  match known with
  | Some _ => rret []
  | None =>
      responsesStart >+> responsesCloseReasoning >+> responsesCloseMessage >+>
        (index <- nextResponsesOutput ;;
         rput (fun s => set_searchIndex (<[id := index]> (rs_searchIndex s)) s) ;;;
         all_events [ItemAdded index (AddedSearch id (hostedSearchResponsesAction search)); SearchInProgress id index; SearchSearching id index])
  end.
Definition search_item (index : Z) (search : HostedSearch) : responsesOutputItem :=
  {| ri_Index := index; ri_ID := search_id search; ri_Type := "web_search_call"; ri_Status := "completed"; ri_CallID := ""; ri_Name := "";
     ri_Text := ""; ri_Arguments := ""; ri_Action := hostedSearchResponsesAction search; ri_Annotations := []; ri_Role := "" |}.
(** A missing entry reads as zero. *)
Definition responsesSearchCompleted (search : HostedSearch) : events :=
  responsesSearchStarted search >+>
    (index <- rget (fun s => default 0 (rs_searchIndex s !! search_id search)) ;;
     let item := search_item index search in
     storeResponsesItem item ;;;
     bput (fun p => set_citations (pj_citations p ++ hostedSearchCitations search) p) ;;;
     all_events [SearchCompleted (search_id search) index; ItemDone index item]).
Definition call_item (index : Z) (call : ToolCall) : responsesOutputItem :=
  {| ri_Index := index; ri_ID := "fc_" +:+ tc_ToolCallID call; ri_Type := "function_call"; ri_Status := "completed";
     ri_CallID := tc_ToolCallID call; ri_Name := tc_Name call; ri_Text := "";
     ri_Arguments := if bool_decide (tc_Arguments call = "") then "{}" else tc_Arguments call; ri_Action := []; ri_Annotations := []; ri_Role := "" |}.
Definition responsesFunctionCall (call : ToolCall) : events :=
  index <- nextResponsesOutput ;;
  let item := call_item index call in
  storeResponsesItem item ;;;
  all_events [ItemAdded index (AddedCall (ri_ID item) (ri_CallID item) (ri_Name item)); ArgumentsDelta (ri_ID item) index (ri_Arguments item);
              ArgumentsDone (ri_ID item) index (ri_Arguments item); ItemDone index item].
Fixpoint function_calls (calls : list ToolCall) : events :=
  match calls with [] => rret [] | call :: calls => responsesFunctionCall call >+> function_calls calls end.
(** [responsesFinish]: every caller passes [completed]. *)
Definition responsesFinish : events := response <- envelope "completed" responsesOutputJSON ;; responsesEvent_of (Completed response).

(** ** Events of the run *)
Definition routcome : Type := result (list responsesEvent * bool * bool).
Definition rgoing (m : events) : rproj routcome := es <- m ;; rret (Ok (es, false, false)).
Definition rending (park : bool) (m : events) : rproj routcome := es <- m ;; rret (Ok (es, true, park)).
Definition add_text (text : string) (item : openItem) : openItem :=
  {| oi_open := oi_open item; oi_index := oi_index item; oi_id := oi_id item; oi_text := oi_text item +:+ text |}.
Definition semantic : rproj unit := bput (set_semantic true).
Definition closing : events := responsesStart >+> responsesCloseReasoning >+> responsesCloseMessage.
Definition handleResponses (event : Event) : rproj routcome :=
  match ev_Type event with
  | EventHostedSearchStarted =>
      semantic ;;; rgoing (match ev_HostedSearch event with Some search => responsesSearchStarted search | None => rret [] end)
  | EventHostedSearchCompleted =>
      semantic ;;; rgoing (match ev_HostedSearch event with Some search => responsesSearchCompleted search | None => rret [] end)
  | EventToolCall =>
      match ev_ToolCall event with
      | Some call => semantic ;;; bput (fun p => set_toolCalls (pj_toolCalls p ++ [call]) p) ;;; rret (Ok ([], false, false))
      | None => rret (Ok ([], false, false))
      end
  | EventText =>
      semantic ;;; rput (fun s => set_message (add_text (ev_Text event) (rs_message s)) s) ;;;
      rgoing (responsesStart >+> responsesCloseReasoning >+> responsesEnsureMessage >+>
        (item <- rget rs_message ;; responsesEvent_of (OutputTextDelta (oi_id item) (oi_index item) (ev_Text event))))
  | EventThinking =>
      if bool_decide (ev_Text event = "") then rret (Ok ([], false, false))
      else
        semantic ;;; rput (fun s => set_reasoning (add_text (ev_Text event) (rs_reasoning s)) s) ;;;
        rgoing (responsesStart >+> responsesCloseMessage >+> responsesEnsureReasoning >+>
          (item <- rget rs_reasoning ;; responsesEvent_of (SummaryDelta (oi_id item) (oi_index item) (ev_Text event))))
  | EventThinkingCompleted => rgoing responsesCloseReasoning
  | EventTurnEnded =>
      calls <- bget pj_toolCalls ;;
      if bool_decide (calls = []) then rret (Fail (bad_gateway "Cursor Agent v1 turnEnded carried no pending tool batch"))
      else rending true (closing >+> function_calls calls >+> responsesFinish)
  | EventDone => rending false (closing >+> responsesFinish)
  | _ => rret (Ok ([], false, false))
  end.
(** [handle] in the Responses format. *)
Definition handle (event : Event) : rproj routcome :=
  bput (fun p => set_facts (observe (pj_facts p) event) p) ;;; handleResponses event.
(** The body: the envelope of the final event. *)
Definition responsesNonStream (p : responsesProjection T) : result bytes :=
  match json_marshal (AnyMap (responsesEnvelope (rp_base p) (rp_state p) "completed" (responsesOutputJSON (rp_state p)))) with
  | Some body => Ok body
  | None => Fail (ErrMsg "json: unsupported value")
  end.
Definition handle_bytes (event : Event) (p : responsesProjection T) : result (list bytes * bool * bool) * responsesProjection T :=
  let '(r, p) := handle event p in (rbind r (fun '(es, terminal, park) => Ok (response_bytes <$> es, terminal, park)), p).
(** [nonStream] in the Responses format. *)
Definition nonStream_responses (p : responsesProjection T) : result bytes :=
  match json_marshal (message_json (rp_base p)) with None => Fail (ErrMsg "json: unsupported value") | Some _ => responsesNonStream p end.
End responses.
Definition new_responsesProjection {T} (base : claudeProjection T) : responsesProjection T := {| rp_base := base; rp_state := new_responses |}.
(** The projection of the Responses format. *)
Definition responses_projector `{JSON} `{NetURL} `{Tokens} {T : Type} (now : Z) : Projector (responsesProjection T) :=
  {| pr_handle := handle_bytes now; pr_nonStream := nonStream_responses; pr_semantic := fun p => pj_semantic (rp_base p) |}.
