(* ===== verification/ResponsesProps.v ===== *)
(** * Properties of the Responses projection (src/cursoragentv1/project_responses.go)

    The Responses streaming protocol as a client sees it, and the refinement: what it
    accumulates is the output of the final envelope, which is the body. *)
From stdpp Require Import base tactics list gmap strings.
From S2P Require Import Prelude GoStrings JsonValue Connect Data Usage Segment Manager HostedSearch Projection Delivery Responses DeliveryProps.
Open Scope Z_scope.

(** ** A client of the Responses stream *)
Inductive kind : Type := Reasoning | Message.
#[export] Instance kind_eq_dec : EqDecision kind.
Proof. solve_decision. Defined.
Inductive slot : Type :=
  | Writing (k : kind) (id text : string) | Searching (id : string) | Calling (id arguments : string)
  | Closed (item : responsesOutputItem).
(** [rc_output]: the final envelope's. *)
Record reader := { rc_seq : Z; rc_next : Z; rc_slots : gmap Z slot; rc_final : option object }.
Definition new_reader : reader := {| rc_seq := 0; rc_next := 0; rc_slots := ∅; rc_final := None |}.
Definition added_slot (item : addedItem) : slot :=
  match item with
  | AddedReasoning id => Writing Reasoning id "" | AddedMessage id => Writing Message id "" | AddedSearch id _ => Searching id | AddedCall id _ _ => Calling id ""
  end.
(** The item agrees with what was streamed for it. *)
Definition closes (s : slot) (item : responsesOutputItem) : bool :=
  match s with
  | Writing k id text =>
      bool_decide (ri_Type item = match k with Reasoning => "reasoning" | Message => "message" end /\ ri_ID item = id /\ ri_Text item = text)
  | Searching id => bool_decide (ri_Type item = "web_search_call" /\ ri_ID item = id)
  | Calling id arguments => bool_decide (ri_Type item = "function_call" /\ ri_ID item = id /\ ri_Arguments item = arguments)
  | Closed old => bool_decide (ri_Type old = "web_search_call" /\ ri_Type item = "web_search_call" /\ ri_ID item = ri_ID old)
  end.
Definition closed (s : slot) : option responsesOutputItem := match s with Closed item => Some item | _ => None end.
Definition is_search (id : string) (s : slot) : bool :=
  match s with Searching id' => bool_decide (id' = id) | Closed item => bool_decide (ri_Type item = "web_search_call" /\ ri_ID item = id) | _ => false end.
(** Only a search may be left open at the end. *)
Definition may_stay (s : slot) : bool := match s with Searching _ | Closed _ => true | _ => false end.
Definition upd (index : Z) (f : slot -> option slot) (m : gmap Z slot) : option (gmap Z slot) := s ← m !! index; s' ← f s; Some (<[index := s']> m).
(** The text of an open item is extended, or confirmed. *)
Definition extends (k : kind) (id text : string) (s : slot) : option slot :=
  match s with Writing k' id' t => if bool_decide (k' = k /\ id' = id) then Some (Writing k id (t +:+ text)) else None | _ => None end.
Definition confirms (k : kind) (id text : string) (s : slot) : option slot :=
  match s with Writing k' id' t => if bool_decide (k' = k /\ id' = id /\ t = text) then Some s else None | _ => None end.
Definition slots_step (e : payload) (next : Z) (m : gmap Z slot) : option (gmap Z slot) :=
  match e with
  | Created _ | InProgress _ | Completed _ => Some m
  | ItemAdded i item => if i =? next then Some (<[i := added_slot item]> m) else None
  | ItemDone i item => if ri_Index item =? i then upd i (fun s => if closes s item then Some (Closed item) else None) m else None
  | SummaryPartAdded id i => upd i (confirms Reasoning id "") m
  | SummaryDelta id i text => upd i (extends Reasoning id text) m
  | SummaryTextDone id i text | SummaryPartDone id i text => upd i (confirms Reasoning id text) m
  | ContentPartAdded id i => upd i (confirms Message id "") m
  | OutputTextDelta id i text => upd i (extends Message id text) m
  | OutputTextDone id i text | ContentPartDone id i text _ => upd i (confirms Message id text) m
  | SearchInProgress id i | SearchSearching id i | SearchCompleted id i => upd i (fun s => if is_search id s then Some s else None) m
  | ArgumentsDelta id i text =>
      upd i (fun s => match s with Calling id' t => if bool_decide (id' = id) then Some (Calling id (t +:+ text)) else None | _ => None end) m
  | ArgumentsDone id i text =>
      upd i (fun s => match s with Calling id' t => if bool_decide (id' = id /\ t = text) then Some s else None | _ => None end) m
  end.
(** [response.created] and [response.in_progress] open the stream. *)
Definition in_turn (e : payload) (seq : Z) : bool :=
  match e with Created _ => seq =? 1 | InProgress _ => seq =? 2 | _ => 2 <? seq end.
(** [None]: the stream is malformed. *)
Definition reader_step (c : reader) (e : responsesEvent) : option reader :=
  if (re_seq e =? rc_seq c + 1) && in_turn (re_payload e) (re_seq e) && bool_decide (rc_final c = None) then
    m ← slots_step (re_payload e) (rc_next c) (rc_slots c);
    match re_payload e with
    | Completed response =>
        if bool_decide (map_Forall (fun _ s => may_stay s = true) m)
        then Some {| rc_seq := re_seq e; rc_next := rc_next c; rc_slots := m; rc_final := Some response |} else None
    | ItemAdded _ _ => Some {| rc_seq := re_seq e; rc_next := rc_next c + 1; rc_slots := m; rc_final := None |}
    | _ => Some {| rc_seq := re_seq e; rc_next := rc_next c; rc_slots := m; rc_final := None |}
    end
  else None.
Fixpoint reader_run (c : reader) (es : list responsesEvent) : option reader :=
  match es with [] => Some c | e :: es => c ← reader_step c e; reader_run c es end.
Lemma reader_run_app c es es' : reader_run c (es ++ es') = c' ← reader_run c es; reader_run c' es'.
Proof. revert c. induction es as [|e es IH]; intros c; cbn; [done|]. destruct (reader_step c e); cbn; [apply IH|done]. Qed.
Lemma reader_step_seq c e c' : reader_step c e = Some c' -> re_seq e = rc_seq c + 1 /\ rc_seq c' = re_seq e.
Proof.
  unfold reader_step. destruct (re_seq e =? rc_seq c + 1) eqn:E; [|done]. apply Z.eqb_eq in E. destruct (_ && _); [|done]. cbn [andb].
  destruct (slots_step _ _ _) as [m|]; [|done]. cbn [mbind option_bind]. intros Hs. split; [done|].
  destruct (re_payload e); try (by injection Hs as <-). case_bool_decide; [by injection Hs as <-|done].
Qed.
Lemma reader_run_seq c es c' : reader_run c es = Some c' -> re_seq <$> es = seqZ (rc_seq c + 1) (Z.of_nat (length es)).
Proof.
  revert c. induction es as [|e es IH]; intros c; cbn [reader_run]; [done|]. destruct (reader_step c e) as [c1|] eqn:Es; [|done]. cbn [mbind option_bind].
  intros Hr. apply reader_step_seq in Es as [E1 E2]. rewrite seqZ_cons by (cbn [length]; lia). rewrite fmap_cons. f_equal; [done|].
  rewrite (IH c1 Hr). f_equal; cbn [length]; lia.
Qed.
(** The items the client holds, by index. *)
Definition held_items (c : reader) : list responsesOutputItem :=
  omap (fun i => rc_slots c !! Z.of_nat i ≫= closed) (seq 0 (Z.to_nat (rc_next c))).

(** ** Emitting a list of payloads *)
Definition ordinary (e : payload) : bool := match e with Created _ | InProgress _ | Completed _ => false | _ => true end.
Fixpoint slots_run (ps : list payload) (next : Z) (m : gmap Z slot) : option (Z * gmap Z slot) :=
  match ps with
  | [] => Some (next, m)
  | e :: ps => m ← slots_step e next m; slots_run ps (match e with ItemAdded _ _ => next + 1 | _ => next end) m
  end.
Section proofs.
Context `{JSON} `{NetURL} `{Tokens} {T : Type}.
Context (now : Z).
Local Notation projection := (responsesProjection T).
Local Notation rproj := (rproj T).

Lemma get_then {A B} (f : responsesState -> A) (k : A -> rproj B) p : (x <- rget f ;; k x) p = k (f (rp_state p)) p.
Proof. done. Qed.
Lemma base_then {A B} (f : claudeProjection T -> A) (k : A -> rproj B) p : (x <- bget f ;; k x) p = k (f (rp_base p)) p.
Proof. done. Qed.
Lemma put_then {B} f (k : rproj B) p : (rput f ;;; k) p = k {| rp_base := rp_base p; rp_state := f (rp_state p) |}.
Proof. done. Qed.
Lemma base_put_then {B} f (k : rproj B) p : (bput f ;;; k) p = k {| rp_base := f (rp_base p); rp_state := rp_state p |}.
Proof. done. Qed.
Definition seq_at (c : reader) (p : projection) : Prop :=
  rc_seq c = rs_seq (rp_state p) /\ rc_final c = None /\ rs_started (rp_state p) = true /\ 2 <= rs_seq (rp_state p).
Definition bump (n : nat) (p : projection) : projection := {| rp_base := rp_base p; rp_state := set_seq (rs_seq (rp_state p) + Z.of_nat n) (rp_state p) |}.
Lemma bump_bump n k p : bump n (bump k p) = bump (k + n) p.
Proof. unfold bump. cbn [rp_base rp_state rs_seq set_seq]. f_equal. unfold set_seq. cbn [rs_seq rs_out rs_span rs_started rs_createdAt rs_reasoning rs_message rs_byIndex rs_searchIndex].
  f_equal. lia. Qed.
Lemma event_of_run (e : payload) (p : projection) :
  responsesEvent_of e p = ([{| re_seq := rs_seq (rp_state p) + 1; re_payload := e |}], bump 1 p).
Proof. done. Qed.
Lemma all_events_run ps c p next m :
  seq_at c p -> forallb ordinary ps = true -> slots_run ps (rc_next c) (rc_slots c) = Some (next, m) ->
  exists c', reader_run c (all_events ps p).1 = Some c' /\ (all_events ps p).2 = bump (length ps) p /\
    seq_at c' (bump (length ps) p) /\ rc_next c' = next /\ rc_slots c' = m.
Proof.
  revert c p. induction ps as [|e ps IH]; intros c p Hs Ho Hr; cbn [all_events slots_run forallb length] in *.
  - injection Hr as <- <-. exists c. split; [done|]. split; [|split; [|done]].
    + destruct p as [b s]. unfold bump. cbn. rewrite Z.add_0_r. by destruct s.
    + unfold seq_at in *. cbn. by rewrite Z.add_0_r.
  - apply andb_true_iff in Ho as [He Ho]. destruct (slots_step e (rc_next c) (rc_slots c)) as [m1|] eqn:Em; [|done]. cbn [mbind option_bind] in Hr.
    set (c1 := {| rc_seq := rc_seq c + 1; rc_next := match e with ItemAdded _ _ => rc_next c + 1 | _ => rc_next c end; rc_slots := m1; rc_final := None |}).
    destruct Hs as (Hq & Hf & Hst & Hle).
    assert (reader_step c {| re_seq := rs_seq (rp_state p) + 1; re_payload := e |} = Some c1) as Hstep.
    { unfold reader_step. cbn [re_seq re_payload]. rewrite Hq, Z.eqb_refl, Em. rewrite bool_decide_eq_true_2 by done.
      assert (in_turn e (rs_seq (rp_state p) + 1) = true) as -> by (destruct e; try done; apply Z.ltb_lt; lia). cbn [andb mbind option_bind].
      unfold c1. rewrite Hq. by destruct e. }
    destruct (IH c1 (bump 1 p)) as (c' & Hrun & Hp & Hs' & Hn & Hm); [|done|done|].
    { unfold seq_at, c1, bump. cbn. split_and!; [lia|done|done|lia]. }
    unfold rthen, rpbind, rret. rewrite event_of_run. destruct (all_events ps (bump 1 p)) as [es p2] eqn:E. cbn [fst snd] in *.
    exists c'. cbn [app reader_run]. rewrite Hstep. cbn [mbind option_bind]. subst p2. split; [done|].
    rewrite bump_bump in *. by split_and!.
Qed.

(** ** What the client knows between two steps *)
Definition item_of (k : kind) (s : responsesState) : openItem := match k with Reasoning => rs_reasoning s | Message => rs_message s end.
Definition set_item (k : kind) (item : openItem) (s : responsesState) : responsesState :=
  match k with Reasoning => set_reasoning item s | Message => set_message item s end.
Lemma item_of_same k item s : item_of k (set_item k item s) = item.
Proof. by destruct k. Qed.
Lemma item_of_other k k' item s : k' <> k -> item_of k' (set_item k item s) = item_of k' s.
Proof. by destruct k, k'. Qed.
(** [w k]: text already in the buffer of an item of kind [k] and not yet sent. *)
Definition slot_ok (w : kind -> string) (s : responsesState) (i : Z) (sl : slot) : Prop :=
  match sl with
  | Writing k id t => oi_open (item_of k s) = true /\ oi_index (item_of k s) = i /\ oi_id (item_of k s) = id /\ oi_text (item_of k s) = t +:+ w k
  | Searching id => rs_searchIndex s !! id = Some i
  | Calling _ _ => False
  | Closed item => rs_byIndex s !! i = Some item
  end.
Record shape (w : kind -> string) (next : Z) (m : gmap Z slot) (s : responsesState) : Prop := {
  sh_next : next = rs_out s; sh_pos : 0 <= rs_out s;
  sh_slot : forall i sl, m !! i = Some sl -> 0 <= i < rs_out s /\ slot_ok w s i sl;
  sh_open : forall k, oi_open (item_of k s) = true -> exists t, m !! oi_index (item_of k s) = Some (Writing k (oi_id (item_of k s)) t);
  sh_text : forall k, oi_open (item_of k s) = false -> oi_text (item_of k s) = w k;
  sh_search : forall id i, rs_searchIndex s !! id = Some i -> exists sl, m !! i = Some sl /\ is_search id sl = true;
  sh_done : forall i item, rs_byIndex s !! i = Some item -> m !! i = Some (Closed item) }.
Lemma shape_same w next m s s' : shape w next m s -> rs_out s' = rs_out s -> (forall k, item_of k s' = item_of k s) ->
  rs_searchIndex s' = rs_searchIndex s -> rs_byIndex s' = rs_byIndex s -> shape w next m s'.
Proof.
  intros [G1 G2 G3 G4 G5 G6 G7] Eo Ei Es Eb. split; rewrite ?Eo, ?Es, ?Eb; try done; try (by intros k; rewrite Ei; auto).
  intros i sl Hi. destruct (G3 i sl Hi) as [Hb Hok]. split; [done|]. destruct sl as [k id t|id|id a|it]; cbn [slot_ok] in *; rewrite ?Ei, ?Es, ?Eb; done.
Qed.
Definition quiet : kind -> string := fun _ => "".
Lemma shape_open w next m s k : shape w next m s -> w k = "" -> oi_open (item_of k s) = true ->
  m !! oi_index (item_of k s) = Some (Writing k (oi_id (item_of k s)) (oi_text (item_of k s))).
Proof.
  intros Hsh Hw Ho. destruct (sh_open _ _ _ _ Hsh k Ho) as [t Ht]. destruct (sh_slot _ _ _ _ Hsh _ _ Ht) as [_ (_ & _ & _ & E)].
  rewrite Hw, string_app_nil_r in E. by rewrite E.
Qed.
Lemma shape_fresh w next m s : shape w next m s -> m !! next = None.
Proof.
  intros Hsh. destruct (m !! next) as [sl|] eqn:E; [|done]. apply (sh_slot _ _ _ _ Hsh) in E as [Hb _]. rewrite (sh_next _ _ _ _ Hsh) in Hb. lia.
Qed.
(** Closing the open item of a kind. *)
Lemma shape_close w next m s k item :
  shape w next m s -> w k = "" -> oi_open (item_of k s) = true ->
  shape w next (<[oi_index (item_of k s) := Closed item]> m)
    (set_byIndex (<[oi_index (item_of k s) := item]> (rs_byIndex s)) (set_item k (shut (item_of k s)) s)).
Proof.
  intros Hsh Hw Ho. pose proof (shape_open _ _ _ _ _ Hsh Hw Ho) as Hm. set (idx := oi_index (item_of k s)) in *.
  assert (forall k', item_of k' (set_byIndex (<[idx := item]> (rs_byIndex s)) (set_item k (shut (item_of k s)) s)) =
    if decide (k' = k) then shut (item_of k s) else item_of k' s) as Hit by (intros []; by destruct k).
  destruct Hsh as [G1 G2 G3 G4 G5 G6 G7]. split.
  - by destruct k.
  - by destruct k.
  - intros i sl [[<- <-]|[Hne Hi]]%lookup_insert_Some.
    + split; [apply G3 in Hm as [Hb _]; by destruct k|]. cbn. apply lookup_insert_eq.
    + destruct (G3 i sl Hi) as [Hb Hok]. split; [by destruct k|]. destruct sl as [k' id t|id|id a|it]; cbn [slot_ok] in *; try (by destruct k); try done.
      * rewrite Hit. destruct (decide (k' = k)) as [->|]; [|done]. destruct Hok as (_ & E & _). unfold idx in Hne. congruence.
      * cbn. by rewrite lookup_insert_ne.
  - intros k'. rewrite Hit. destruct (decide (k' = k)); [done|]. intros Ho'. destruct (G4 k' Ho') as [t Ht]. exists t.
    rewrite lookup_insert_ne; [done|]. intros E. rewrite <-E, Hm in Ht. congruence.
  - intros k'. rewrite Hit. destruct (decide (k' = k)) as [->|]; [done|apply G5].
  - intros id i Hi. assert (rs_searchIndex s !! id = Some i) as Hi' by (by destruct k). destruct (G6 id i Hi') as (sl & Hsl & Hse). exists sl.
    rewrite lookup_insert_ne; [done|]. intros E. rewrite <-E, Hm in Hsl. injection Hsl as <-. done.
  - cbn. intros i it [[<- <-]|[Hne Hi]]%lookup_insert_Some; [apply lookup_insert_eq|]. rewrite lookup_insert_ne by done. by apply G7.
Qed.
(** Opening one at the next index. *)
Lemma shape_openItem w next m s k id span :
  shape w next m s -> oi_open (item_of k s) = false ->
  shape w (next + 1) (<[next := Writing k id ""]> m)
    (set_item k {| oi_open := true; oi_index := rs_out s; oi_id := id; oi_text := oi_text (item_of k s) |} (set_span span (set_out (rs_out s + 1) s))).
Proof.
  intros Hsh Ho. pose proof (shape_fresh _ _ _ _ Hsh) as Hfr. set (it := {| oi_open := true |}).
  assert (forall k', item_of k' (set_item k it (set_span span (set_out (rs_out s + 1) s))) = if decide (k' = k) then it else item_of k' s) as Hit by (intros []; by destruct k).
  destruct Hsh as [G1 G2 G3 G4 G5 G6 G7]. assert (rs_out (set_item k it (set_span span (set_out (rs_out s + 1) s))) = rs_out s + 1) as Hout by by destruct k. split.
  - rewrite Hout. lia.
  - rewrite Hout. lia.
  - rewrite Hout. intros i sl [[<- <-]|[Hne Hi]]%lookup_insert_Some.
    + split; [lia|]. cbn [slot_ok]. rewrite Hit, decide_True by done. unfold it. cbn. rewrite G1. by split_and!; [..|apply G5].
    + destruct (G3 i sl Hi) as [Hb Hok]. split; [lia|]. destruct sl as [k' id' t|id'|id' a|it']; cbn [slot_ok] in *; try (by destruct k); try done.
      rewrite Hit. destruct (decide (k' = k)) as [->|]; [|done]. destruct Hok as (E & _). congruence.
  - intros k'. rewrite Hit. destruct (decide (k' = k)) as [->|]; intros Ho'.
    + exists "". unfold it. cbn. rewrite <-G1. apply lookup_insert_eq.
    + destruct (G4 k' Ho') as [t Ht]. exists t. rewrite lookup_insert_ne; [done|]. intros E. by rewrite E, Ht in Hfr.
  - intros k'. rewrite Hit. destruct (decide (k' = k)) as [->|]; [done|apply G5].
  - intros id' i Hi. assert (rs_searchIndex s !! id' = Some i) as Hi' by (by destruct k). destruct (G6 id' i Hi') as (sl & Hsl & Hse). exists sl.
    rewrite lookup_insert_ne; [done|]. intros E. by rewrite E, Hsl in Hfr.
  - intros i it' Hi. assert (rs_byIndex s !! i = Some it') as Hi' by (by destruct k). rewrite lookup_insert_ne; [by apply G7|].
    intros E. apply G7 in Hi'. by rewrite E, Hi' in Hfr.
Qed.
(** New text in a buffer, and its delta. *)
Definition only (k : kind) (x : string) : kind -> string := fun k' => if decide (k' = k) then x else "".
Lemma shape_text k x next m s : shape quiet next m s -> shape (only k x) next m (set_item k (add_text x (item_of k s)) s).
Proof.
  intros [G1 G2 G3 G4 G5 G6 G7]. set (s1 := set_item k _ s).
  assert (forall k', item_of k' s1 = if decide (k' = k) then add_text x (item_of k s) else item_of k' s) as Hit by (intros []; by destruct k).
  split; try (by destruct k).
  - intros i sl Hi. destruct (G3 i sl Hi) as [Hb Hok]. split; [by destruct k|]. destruct sl as [k' id t|id|id a|it]; cbn [slot_ok] in *; try (by destruct k).
    rewrite Hit. unfold only. destruct (decide (k' = k)) as [->|]; [|done]. destruct Hok as (E1 & E2 & E3 & E4). split_and!; [done..|].
    cbn. by rewrite E4, string_app_nil_r.
  - intros k'. rewrite Hit. destruct (decide (k' = k)) as [->|]; apply G4.
  - intros k'. rewrite Hit. unfold only. destruct (decide (k' = k)) as [->|]; [|apply G5]. intros Ho. cbn. by rewrite (G5 k Ho).
Qed.
Lemma shape_delta k x next m s id t : shape (only k x) next m s -> m !! oi_index (item_of k s) = Some (Writing k id t) ->
  shape quiet next (<[oi_index (item_of k s) := Writing k id (t +:+ x)]> m) s.
Proof.
  intros [G1 G2 G3 G4 G5 G6 G7] Hm. destruct (G3 _ _ Hm) as [Hb0 (Ho & _ & Eid & Etext)]. split; try done.
  - intros i sl [[<- <-]|[Hne Hi]]%lookup_insert_Some.
    + split; [done|]. cbn [slot_ok]. rewrite string_app_nil_r. unfold only in Etext. rewrite decide_True in Etext by done. by split_and!.
    + destruct (G3 i sl Hi) as [Hb Hok]. split; [done|]. destruct sl as [k' id' t'|id'|id' a|it]; cbn [slot_ok] in *; try done.
      destruct Hok as (E1 & E2 & E3 & E4). unfold only in E4. destruct (decide (k' = k)) as [->|]; [congruence|]. by split_and!.
  - intros k' Ho'. destruct (G4 k' Ho') as [t' Ht']. destruct (decide (oi_index (item_of k s) = oi_index (item_of k' s))) as [E|E].
    + rewrite <-E in *. rewrite Hm in Ht'. injection Ht' as <- <- <-. eexists. apply lookup_insert_eq.
    + exists t'. by rewrite lookup_insert_ne.
  - intros k' Ho'. rewrite (G5 k' Ho'). unfold only. destruct (decide (k' = k)) as [->|]; [congruence|done].
  - intros id' i Hi. destruct (G6 id' i Hi) as (sl & Hsl & Hse). exists sl. rewrite lookup_insert_ne; [done|]. intros E. rewrite <-E, Hm in Hsl. by injection Hsl as <-.
  - intros i it Hi. rewrite lookup_insert_ne; [by apply G7|]. intros E. apply G7 in Hi. rewrite <-E, Hm in Hi. done.
Qed.
(** A search is announced, and answered; a call is whole at once. *)
Lemma shape_search w next m s id : shape w next m s -> rs_searchIndex s !! id = None ->
  shape w (next + 1) (<[next := Searching id]> m) (set_searchIndex (<[id := next]> (rs_searchIndex s)) (set_out (next + 1) s)).
Proof.
  intros Hsh Hid. pose proof (shape_fresh _ _ _ _ Hsh) as Hfr. destruct Hsh as [G1 G2 G3 G4 G5 G6 G7]. split; cbn; try done; try lia.
  - intros i sl [[<- <-]|[Hne Hi]]%lookup_insert_Some; [split; [lia|]; cbn; apply lookup_insert_eq|].
    destruct (G3 i sl Hi) as [Hb Hok]. split; [lia|]. destruct sl as [k id' t|id'|id' a|it]; cbn [slot_ok] in *; try done.
    cbn. rewrite lookup_insert_ne; [done|]. congruence.
  - intros k Ho. assert (oi_open (item_of k s) = true) as Ho' by by destruct k. destruct (G4 k Ho') as [t Ht]. exists t.
    assert (oi_index (item_of k s) <> next) as Hne by (intros E; by rewrite E, Hfr in Ht). rewrite lookup_insert_ne; destruct k; done.
  - intros id' i [[<- <-]|[Hne Hi]]%lookup_insert_Some.
    + exists (Searching id). split; [apply lookup_insert_eq|]. by apply bool_decide_eq_true.
    + destruct (G6 id' i Hi) as (sl & Hsl & Hse). exists sl. rewrite lookup_insert_ne; [done|]. intros E. by rewrite E, Hsl in Hfr.
  - intros i it Hi. rewrite lookup_insert_ne; [by apply G7|]. intros E. apply G7 in Hi. by rewrite E, Hi in Hfr.
Qed.
Lemma shape_item w next m s i sl item : shape w next m s -> m !! i = Some sl -> (forall id, is_search id sl = true -> is_search id (Closed item) = true) ->
  match sl with Writing _ _ _ => False | _ => True end ->
  shape w next (<[i := Closed item]> m) (set_byIndex (<[i := item]> (rs_byIndex s)) s).
Proof.
  intros [G1 G2 G3 G4 G5 G6 G7] Hm Hse Hsl. split; try done.
  - intros j sl' [[<- <-]|[Hne Hj]]%lookup_insert_Some; [split; [by apply G3 in Hm as [? _]|]; apply lookup_insert_eq|].
    destruct (G3 j sl' Hj) as [Hb Hok]. split; [done|]. destruct sl' as [k id' t|id'|id' a|it]; cbn [slot_ok] in *; try done. cbn. by rewrite lookup_insert_ne.
  - intros k Ho. destruct (G4 k Ho) as [t Ht]. exists t. rewrite lookup_insert_ne; [done|]. intros E.
    assert (m !! i = Some (Writing k (oi_id (item_of k s)) t)) as Ht' by (rewrite E; exact Ht). rewrite Hm in Ht'. by injection Ht' as ->.
  - intros id j Hj. destruct (decide (i = j)) as [<-|Hne].
    + exists (Closed item). split; [apply lookup_insert_eq|]. destruct (G6 id i Hj) as (sl' & Hsl' & Hid). rewrite Hm in Hsl'. injection Hsl' as <-. by apply Hse.
    + destruct (G6 id j Hj) as (sl' & Hsl' & Hid). exists sl'. by rewrite lookup_insert_ne.
  - intros j it Hj. cbn in Hj. apply lookup_insert_Some in Hj as [[<- <-]|[Hne Hj]]; [apply lookup_insert_eq|]. rewrite lookup_insert_ne by done. by apply G7.
Qed.
Lemma shape_call w next m s item : shape w next m s ->
  shape w (next + 1) (<[next := Closed item]> m) (set_byIndex (<[next := item]> (rs_byIndex s)) (set_out (next + 1) s)).
Proof.
  intros Hsh. pose proof (shape_fresh _ _ _ _ Hsh) as Hfr. destruct Hsh as [G1 G2 G3 G4 G5 G6 G7]. split; cbn; try done; try lia.
  - intros i sl [[<- <-]|[Hne Hi]]%lookup_insert_Some; [split; [lia|]; apply lookup_insert_eq|].
    destruct (G3 i sl Hi) as [Hb Hok]. split; [lia|]. destruct sl as [k id' t|id'|id' a|it]; cbn [slot_ok] in *; try done.
    cbn. by rewrite lookup_insert_ne.
  - intros k Ho. assert (oi_open (item_of k s) = true) as Ho' by by destruct k. destruct (G4 k Ho') as [t Ht]. exists t.
    assert (oi_index (item_of k s) <> next) as Hne by (intros E; by rewrite E, Hfr in Ht). rewrite lookup_insert_ne; destruct k; done.
  - intros id' i Hi. destruct (G6 id' i Hi) as (sl & Hsl & Hse). exists sl. rewrite lookup_insert_ne; [done|]. intros E. by rewrite E, Hsl in Hfr.
  - intros i it [[<- <-]|[Hne Hi]]%lookup_insert_Some; [apply lookup_insert_eq|]. rewrite lookup_insert_ne by done. by apply G7.
Qed.

(** ** Each operation *)
Definition tracks (w : kind -> string) (started : bool) (c : reader) (p : projection) : Prop :=
  let s := rp_state p in
  rc_seq c = rs_seq s /\ rc_final c = None /\ rs_started s = started /\ (if started then 2 <= rs_seq s else rs_seq s = 0 /\ rs_out s = 0) /\
  shape w (rc_next c) (rc_slots c) s.
Definition rspec (P : reader -> projection -> Prop) (m : events T) (Q : reader -> projection -> Prop) : Prop :=
  forall c p, P c p -> exists c', reader_run c (m p).1 = Some c' /\ Q c' (m p).2.
Lemma rspec_then P Q R m k : rspec P m Q -> rspec Q k R -> rspec P (m >+> k) R.
Proof.
  intros Hm Hk c p Hp. destruct (Hm c p Hp) as (c1 & Hr1 & Hq). unfold rthen, rpbind, rret. destruct (m p) as [es1 p1]. cbn [fst snd] in *.
  destruct (Hk c1 p1 Hq) as (c2 & Hr2 & Hr). destruct (k p1) as [es2 p2]. cbn [fst snd] in *. exists c2. by rewrite reader_run_app, Hr1.
Qed.
Lemma rspec_ret P : rspec P (rret []) P.
Proof. intros c p Hp. by exists c. Qed.
Lemma rspec_weaken (P P' : reader -> projection -> Prop) m (Q Q' : reader -> projection -> Prop) :
  rspec P m Q -> (forall c p, P' c p -> P c p) -> (forall c p, Q c p -> Q' c p) -> rspec P' m Q'.
Proof. intros Hm Hp Hq c p Hp'. destruct (Hm c p (Hp _ _ Hp')) as (c' & Hr & HQ). exists c'. split; [done|]. by apply Hq. Qed.
Lemma tracks_seq w c p : tracks w true c p -> seq_at c p.
Proof. by intros (G1 & G2 & G3 & G4 & _). Qed.
(** A state update whose payloads reach a map that fits it. *)
Lemma emit_spec w c p ps f next m :
  seq_at c p -> rs_seq (f (rp_state p)) = rs_seq (rp_state p) -> rs_started (f (rp_state p)) = rs_started (rp_state p) ->
  forallb ordinary ps = true -> slots_run ps (rc_next c) (rc_slots c) = Some (next, m) -> shape w next m (f (rp_state p)) ->
  exists c', reader_run c (all_events ps {| rp_base := rp_base p; rp_state := f (rp_state p) |}).1 = Some c' /\
    tracks w true c' (all_events ps {| rp_base := rp_base p; rp_state := f (rp_state p) |}).2 /\
    exists n, (all_events ps {| rp_base := rp_base p; rp_state := f (rp_state p) |}).2 =
      {| rp_base := rp_base p; rp_state := set_seq n (f (rp_state p)) |}.
Proof.
  intros (Hq & Hf & Hst & Hle) E1 E2 Ho Hr Hsh. set (q := {| rp_state := f (rp_state p) |}).
  destruct (all_events_run ps c q next m) as (c' & Hrun & Hp & (Gq & Gf & Gst & Gle) & Hn & Hm); [split_and!; cbn; congruence || lia|done|done|].
  exists c'. split; [done|]. rewrite Hp. split; [|by eexists]. split_and!; try done. rewrite Hn, Hm. eapply shape_same; [exact Hsh|done..].
Qed.
Lemma upd_same i f (m : gmap Z slot) s : m !! i = Some s -> f s = Some s -> upd i f m = Some m.
Proof. intros Hi Hf. unfold upd. rewrite Hi. cbn. rewrite Hf. cbn. by rewrite insert_id. Qed.
Lemma upd_to i f (m : gmap Z slot) s s' : m !! i = Some s -> f s = Some s' -> upd i f m = Some (<[i:=s']> m).
Proof. intros Hi Hf. unfold upd. rewrite Hi. cbn. by rewrite Hf. Qed.
Lemma upd_insert i f (m : gmap Z slot) s : upd i f (<[i:=s]> m) = s' ← f s; Some (<[i:=s']> m).
Proof. unfold upd. rewrite lookup_insert_eq. cbn. destruct (f s); cbn; [by rewrite insert_insert_eq|done]. Qed.
Lemma confirms_same k id t : confirms k id t (Writing k id t) = Some (Writing k id t).
Proof. unfold confirms. by rewrite bool_decide_eq_true_2. Qed.

Lemma start_rspec w st : rspec (tracks w st) (responsesStart now) (tracks w true).
Proof.
  intros c p Htr. pose proof Htr as (Hq & Hf & Hst & Hle & Hsh). unfold responsesStart. rewrite get_then, Hst. destruct st; [by exists c|].
  destruct Hle as [Hle Hout]. unfold rpbind, rput, envelope, bget, rget, rret, all_events, rthen, rpbind, rret. cbn [fst snd rp_state rp_base].
  rewrite !event_of_run. cbn [fst snd rp_state rp_base app]. unfold reader_run, reader_step. cbn. rewrite Hq, Hle, Hf. cbn. eexists. split; [reflexivity|].
  unfold tracks. cbn. split_and!; try done; try lia. eapply shape_same; [exact Hsh|done..].
Qed.
(** [responsesStart] leaves the items alone. *)
Lemma start_items (p : projection) k : item_of k (rp_state (responsesStart now p).2) = item_of k (rp_state p) /\
  rs_searchIndex (rp_state (responsesStart now p).2) = rs_searchIndex (rp_state p).
Proof. unfold responsesStart. rewrite get_then. destruct (rs_started (rp_state p)); [done|]. by destruct k. Qed.
(** Closing the item of a kind. *)
Definition close_item (k : kind) : events T := match k with Reasoning => responsesCloseReasoning | Message => responsesCloseMessage end.
Lemma close_rspec w k c p : tracks w true c p -> w k = "" ->
  exists c', reader_run c (close_item k p).1 = Some c' /\ tracks w true c' (close_item k p).2 /\
    oi_open (item_of k (rp_state (close_item k p).2)) = false /\
    (forall k', k' <> k -> item_of k' (rp_state (close_item k p).2) = item_of k' (rp_state p)) /\
    rs_searchIndex (rp_state (close_item k p).2) = rs_searchIndex (rp_state p).
Proof.
  intros Htr Hw. pose proof (tracks_seq _ _ _ Htr) as Hseq. pose proof Htr as (Hq & Hf & Hst & Hle & Hsh).
  destruct (oi_open (item_of k (rp_state p))) eqn:Ho.
  2:{ assert (close_item k p = ([], p)) as ->.
      { destruct k; unfold close_item, responsesCloseReasoning, responsesCloseMessage; rewrite get_then; cbn in Ho; rewrite Ho; done. }
      exists c. by split_and!. }
  pose proof (shape_open _ _ _ _ _ Hsh Hw Ho) as Hm.
  set (d := closed_item match k with Reasoning => "reasoning" | Message => "message" end match k with Reasoning => "" | Message => "assistant" end
    match k with Reasoning => [] | Message => responsesTextAnnotations (rp_base p) end (item_of k (rp_state p))).
  set (it := item_of k (rp_state p)) in *.
  set (ps := match k with
             | Reasoning => [SummaryTextDone (oi_id it) (oi_index it) (oi_text it); SummaryPartDone (oi_id it) (oi_index it) (oi_text it); ItemDone (oi_index it) d]
             | Message => [OutputTextDone (oi_id it) (oi_index it) (oi_text it);
                           ContentPartDone (oi_id it) (oi_index it) (oi_text it) (responsesTextAnnotations (rp_base p)); ItemDone (oi_index it) d] end).
  set (f := fun s => set_byIndex (<[oi_index it := d]> (rs_byIndex s)) (set_item k (shut it) s)).
  assert (close_item k p = all_events ps {| rp_base := rp_base p; rp_state := f (rp_state p) |}) as ->.
  { unfold ps, f, d, it in *. destruct k; unfold close_item, responsesCloseReasoning, responsesCloseMessage; rewrite get_then;
      cbn [item_of] in Ho |- *; rewrite Ho; reflexivity. }
  assert (closes (Writing k (oi_id it) (oi_text it)) d = true) as Hcl by (unfold closes; apply bool_decide_eq_true; by destruct k).
  assert (slots_run ps (rc_next c) (rc_slots c) = Some (rc_next c, <[oi_index it := Closed d]> (rc_slots c))) as Hrun.
  { unfold ps. destruct k; cbn [slots_run slots_step]; rewrite (upd_same _ _ _ _ Hm) by apply confirms_same; cbn [mbind option_bind];
      rewrite (upd_same _ _ _ _ Hm) by apply confirms_same; cbn [mbind option_bind]; cbn [ri_Index d closed_item]; rewrite Z.eqb_refl;
      rewrite (upd_to _ _ _ _ (Closed d) Hm) by (by rewrite Hcl); reflexivity. }
  destruct (emit_spec w c p ps f (rc_next c) (<[oi_index it := Closed d]> (rc_slots c)) Hseq) as (c' & Hr & Ht & n & Hp); [by destruct k|by destruct k|by destruct k|exact Hrun|by apply shape_close|].
  exists c'. split; [exact Hr|]. split; [exact Ht|]. rewrite Hp. unfold f. cbn [rp_state]. split_and!; [by destruct k| |by destruct k].
  intros k' Hne. by destruct k, k'.
Qed.
(** Opening it, and sending the text that opened it. *)
Definition ensure_item (k : kind) : events T := match k with Reasoning => responsesEnsureReasoning | Message => responsesEnsureMessage end.
Definition delta_item (k : kind) (x : string) : events T :=
  item <- rget (item_of k) ;;
  responsesEvent_of (match k with Reasoning => SummaryDelta (oi_id item) (oi_index item) x | Message => OutputTextDelta (oi_id item) (oi_index item) x end).
Lemma ensure_rspec w k : rspec (tracks w true) (ensure_item k) (fun c p => tracks w true c p /\ oi_open (item_of k (rp_state p)) = true).
Proof.
  intros c p Htr. pose proof (tracks_seq _ _ _ Htr) as Hseq. pose proof Htr as (Hq & Hf & Hst & Hle & Hsh).
  set (it := item_of k (rp_state p)) in *. destruct (oi_open it) eqn:Ho.
  { assert (ensure_item k p = ([], p)) as ->
      by (destruct k; unfold ensure_item, responsesEnsureReasoning, responsesEnsureMessage; rewrite get_then; unfold it in Ho; cbn in Ho; by rewrite Ho).
    by exists c. }
  set (s := rp_state p) in *. set (span := rs_span s + 1).
  set (id := match k with Reasoning => "rs_" | Message => "msg_" end +:+ pj_messageID (rp_base p) +:+ "_" +:+ Itoa span).
  set (ps := match k with
             | Reasoning => [ItemAdded (rs_out s) (AddedReasoning id); SummaryPartAdded id (rs_out s)]
             | Message => [ItemAdded (rs_out s) (AddedMessage id); ContentPartAdded id (rs_out s)] end).
  set (f := fun s => set_item k {| oi_open := true; oi_index := rs_out s; oi_id := id; oi_text := oi_text (item_of k s) |} (set_span span (set_out (rs_out s + 1) s))).
  assert (ensure_item k p = all_events ps {| rp_base := rp_base p; rp_state := f (rp_state p) |}) as ->.
  { unfold ps, f, id, it, s in *. destruct k; unfold ensure_item, responsesEnsureReasoning, responsesEnsureMessage; rewrite get_then;
      cbn [item_of] in Ho |- *; rewrite Ho; reflexivity. }
  pose proof (shape_openItem _ _ _ _ k id span Hsh Ho) as Hsh'. fold s in Hsh'.
  destruct (emit_spec w c p ps f (rc_next c + 1) (<[rc_next c := Writing k id ""]> (rc_slots c)) Hseq) as (c' & Hr & Ht & n & Hp); [by destruct k|by destruct k|by destruct k| |exact Hsh'|].
  { unfold ps. rewrite <-(sh_next _ _ _ _ Hsh).
    destruct k; cbn [slots_run slots_step added_slot]; rewrite Z.eqb_refl; cbn [mbind option_bind];
      (erewrite upd_same; [|apply lookup_insert_eq|apply confirms_same]); reflexivity. }
  exists c'. split; [exact Hr|]. split; [exact Ht|]. rewrite Hp. unfold f. by destruct k.
Qed.
Lemma delta_rspec k x :
  rspec (fun c p => tracks (only k x) true c p /\ oi_open (item_of k (rp_state p)) = true) (delta_item k x) (tracks quiet true).
Proof.
  intros c p [Htr Ho]. pose proof (tracks_seq _ _ _ Htr) as Hseq. pose proof Htr as (Hq & Hf & Hst & Hle & Hsh).
  destruct (sh_open _ _ _ _ Hsh k Ho) as [t Ht]. set (it := item_of k (rp_state p)) in *.
  set (e := match k with Reasoning => SummaryDelta (oi_id it) (oi_index it) x | Message => OutputTextDelta (oi_id it) (oi_index it) x end).
  pose proof (shape_delta k x _ _ _ _ _ Hsh Ht) as Hsh'.
  destruct (all_events_run [e] c p (rc_next c) (<[oi_index it := Writing k (oi_id it) (t +:+ x)]> (rc_slots c)) Hseq) as (c' & Hrun & Hp & (Gq & Gf & Gst & Gle) & Hn & Hm).
  { unfold e. by destruct k. }
  { unfold e. destruct k; cbn [slots_run slots_step]; (erewrite upd_to; [|exact Ht|unfold extends; by rewrite bool_decide_eq_true_2]); reflexivity. }
  unfold delta_item. rewrite get_then. fold it. fold e. change (responsesEvent_of e p) with (all_events [e] p). exists c'. split; [exact Hrun|].
  rewrite Hp. split_and!; try done. rewrite Hn, Hm. eapply shape_same; [exact Hsh'|done..].
Qed.

(** All items closed. *)
Definition rested (c : reader) (p : projection) : Prop := tracks quiet true c p /\ forall k, oi_open (item_of k (rp_state p)) = false.
Lemma start_keeps st (F : responsesState -> Prop) :
  (forall p : projection, F (rp_state p) -> F (rp_state (responsesStart now p).2)) ->
  rspec (fun c p => tracks quiet st c p /\ F (rp_state p)) (responsesStart now) (fun c p => tracks quiet true c p /\ F (rp_state p)).
Proof. intros HF c p [Htr HF']. destruct (start_rspec quiet st c p Htr) as (c' & Hr & Ht). exists c'. split_and!; try done. by apply HF. Qed.
(** The index of a search is kept by the closing steps. *)
Definition unknown (id : option string) (s : responsesState) : Prop := match id with Some id => rs_searchIndex s !! id = None | None => True end.
Lemma closing_rspec st id k (Q : reader -> projection -> Prop) :
  rspec (fun c p => rested c p /\ unknown id (rp_state p)) k Q ->
  rspec (fun c p => tracks quiet st c p /\ unknown id (rp_state p)) (responsesStart now >+> responsesCloseReasoning >+> responsesCloseMessage >+> k) Q.
Proof.
  intros Hk. eapply rspec_then; [apply start_keeps|].
  { intros p. unfold unknown. destruct id as [id|]; [|done]. by rewrite (proj2 (start_items p Message)). }
  eapply (rspec_then _ (fun c p => (tracks quiet true c p /\ oi_open (item_of Reasoning (rp_state p)) = false) /\ unknown id (rp_state p))).
  { intros c p [Htr Hu]. destruct (close_rspec quiet Reasoning c p Htr eq_refl) as (c' & Hr & Ht & Ho & _ & Hse). exists c'. split_and!; try done.
    unfold unknown in *. destruct id; [|done]. by rewrite <-Hu, <-Hse. }
  eapply rspec_then; [|exact Hk]. intros c p [[Htr Ho] Hu]. destruct (close_rspec quiet Message c p Htr eq_refl) as (c' & Hr & Ht & Ho' & Hot & Hse).
  exists c'. split_and!; try done.
  - split; [exact Ht|]. intros []; [|done]. pose proof (Hot Reasoning ltac:(done)) as E. cbn [close_item] in E. by rewrite E.
  - unfold unknown in *. destruct id; [|done]. by rewrite <-Hu, <-Hse.
Qed.
(** ** Searches, calls and the end *)
Lemma search_fresh_rspec id (search : HostedSearch) : id = search_id search ->
  rspec (fun c p => rested c p /\ unknown (Some id) (rp_state p))
    (index <- nextResponsesOutput ;;
     rput (fun s => set_searchIndex (<[id := index]> (rs_searchIndex s)) s) ;;;
     all_events [ItemAdded index (AddedSearch id (hostedSearchResponsesAction search)); SearchInProgress id index; SearchSearching id index])
    (fun c p => tracks quiet true c p /\ exists i, rs_searchIndex (rp_state p) !! id = Some i).
Proof.
  intros Hid c p [[Htr _] Hu]. pose proof (tracks_seq _ _ _ Htr) as Hseq. pose proof Htr as (Hq & Hf & Hst & Hle & Hsh).
  set (s := rp_state p) in *. pose proof (shape_search _ _ _ _ id Hsh Hu) as Hsh'. pose proof (sh_next _ _ _ _ Hsh) as Hn. fold s in Hn.
  set (f := fun s => set_searchIndex (<[id := rs_out s]> (rs_searchIndex s)) (set_out (rs_out s + 1) s)).
  set (ps := [ItemAdded (rs_out s) (AddedSearch id (hostedSearchResponsesAction search)); SearchInProgress id (rs_out s); SearchSearching id (rs_out s)]).
  match goal with |- context [reader_run c (?m p).1] => assert (m p = all_events ps {| rp_base := rp_base p; rp_state := f (rp_state p) |}) as -> by done end.
  destruct (emit_spec quiet c p ps f (rc_next c + 1) (<[rc_next c := Searching id]> (rc_slots c)) Hseq) as (c' & Hr & Ht & n & Hp); [done|done|done| | |].
  { unfold ps. rewrite <-Hn. cbn [slots_run slots_step added_slot]. rewrite Z.eqb_refl. cbn [mbind option_bind].
    do 2 (rewrite upd_insert; cbn [is_search]; rewrite bool_decide_eq_true_2 by done; cbn [mbind option_bind]). reflexivity. }
  { rewrite Hn in Hsh' |- *. exact Hsh'. }
  exists c'. split; [exact Hr|]. split; [exact Ht|]. rewrite Hp. exists (rs_out s). apply lookup_insert_eq.
Qed.
Lemma search_started_rspec st search :
  rspec (tracks quiet st) (responsesSearchStarted now search)
    (fun c p => tracks quiet true c p /\ exists i, rs_searchIndex (rp_state p) !! search_id search = Some i).
Proof.
  intros c p Htr. unfold responsesSearchStarted. rewrite get_then. destruct (rs_searchIndex (rp_state p) !! search_id search) as [i|] eqn:Ei.
  - exists c. split; [done|]. split; [|by exists i]. destruct st; [done|]. destruct Htr as (_ & _ & _ & [_ Hout] & Hsh).
    destruct (sh_search _ _ _ _ Hsh _ _ Ei) as (sl & Hsl & _). apply (sh_slot _ _ _ _ Hsh) in Hsl as [Hb _]. lia.
  - apply (closing_rspec st (Some (search_id search)) _ _ (search_fresh_rspec _ search eq_refl)). by split.
Qed.
Lemma search_completed_rspec st search : rspec (tracks quiet st) (responsesSearchCompleted now search) (tracks quiet true).
Proof.
  unfold responsesSearchCompleted. eapply rspec_then; [apply search_started_rspec|]. intros c p [Htr [i Hi]].
  pose proof (tracks_seq _ _ _ Htr) as Hseq. pose proof Htr as (Hq & Hf & Hst & Hle & Hsh). rewrite get_then, Hi. cbn [default].
  destruct (sh_search _ _ _ _ Hsh _ _ Hi) as (sl & Hsl & Hse). set (item := search_item i search).
  set (ps := [SearchCompleted (search_id search) i; ItemDone i item]). set (f := fun s => set_byIndex (<[i := item]> (rs_byIndex s)) s).
  set (p1 := {| rp_base := set_citations (pj_citations (rp_base p) ++ hostedSearchCitations search) (rp_base p); rp_state := rp_state p |}).
  match goal with |- context [reader_run c (?m p).1] => assert (m p = all_events ps {| rp_base := rp_base p1; rp_state := f (rp_state p1) |}) as -> by done end.
  destruct (emit_spec quiet c p1 ps f (rc_next c) (<[i := Closed item]> (rc_slots c)) Hseq) as (c' & Hr & Ht & n & Hp); [done|done|done| | |by exists c'].
  - unfold ps. cbn [slots_run slots_step]. rewrite (upd_same _ _ _ sl Hsl) by by rewrite Hse. cbn [mbind option_bind]. rewrite Z.eqb_refl.
    rewrite (upd_to _ _ _ sl (Closed item) Hsl); [reflexivity|]. assert (closes sl item = true) as ->; [|done].
    destruct sl as [| |id|old]; cbn [is_search closes] in *; try done; apply bool_decide_eq_true in Hse; apply bool_decide_eq_true; naive_solver.
  - apply (shape_item _ _ _ _ i sl item Hsh Hsl).
    + intros id Hid. cbn [is_search]. apply bool_decide_eq_true. split; [done|]. 
      destruct sl as [| |id'|old]; cbn [is_search] in *; try done; apply bool_decide_eq_true in Hse, Hid; cbn; naive_solver.
    + by destruct sl.
Qed.
Lemma calls_rspec calls : rspec rested (function_calls calls) rested.
Proof.
  induction calls as [|call calls IH]; cbn [function_calls]; [apply rspec_ret|]. eapply rspec_then; [|exact IH].
  intros c p [Htr Hclosed]. pose proof (tracks_seq _ _ _ Htr) as Hseq. pose proof Htr as (Hq & Hf & Hst & Hle & Hsh).
  set (s := rp_state p) in *. set (item := call_item (rs_out s) call). pose proof (sh_next _ _ _ _ Hsh) as Hn. fold s in Hn.
  set (f := fun s0 => set_byIndex (<[rs_out s := item]> (rs_byIndex s0)) (set_out (rs_out s + 1) s0)).
  set (ps := [ItemAdded (rs_out s) (AddedCall (ri_ID item) (ri_CallID item) (ri_Name item)); ArgumentsDelta (ri_ID item) (rs_out s) (ri_Arguments item);
              ArgumentsDone (ri_ID item) (rs_out s) (ri_Arguments item); ItemDone (rs_out s) item]).
  assert (responsesFunctionCall call p = all_events ps {| rp_base := rp_base p; rp_state := f (rp_state p) |}) as -> by done.
  destruct (emit_spec quiet c p ps f (rc_next c + 1) (<[rc_next c := Closed item]> (rc_slots c)) Hseq) as (c' & Hr & Ht & n & Hp); [done|done|done| | |].
  - unfold ps. rewrite <-Hn. cbn [slots_run slots_step added_slot]. rewrite Z.eqb_refl. cbn [mbind option_bind].
    rewrite upd_insert, bool_decide_eq_true_2 by done. cbn [mbind option_bind]. rewrite upd_insert, bool_decide_eq_true_2 by done. cbn [mbind option_bind].
    cbn [ri_Index item call_item]. rewrite <-Hn, Z.eqb_refl, upd_insert. cbn [closes]. by rewrite bool_decide_eq_true_2.
  - unfold f. rewrite <-Hn. by apply shape_call.
  - exists c'. split; [exact Hr|]. split; [exact Ht|]. rewrite Hp. intros k. specialize (Hclosed k). by destruct k.
Qed.
(** The final envelope was received and lists the items the client holds. *)
Definition ended (c : reader) (p : projection) : Prop :=
  rc_final c = Some (responsesEnvelope (rp_base p) (rp_state p) "completed" (responsesOutputJSON (rp_state p))) /\
  shape quiet (rc_next c) (rc_slots c) (rp_state p).
Lemma finish_rspec : rspec rested responsesFinish ended.
Proof.
  intros c p [(Hq & Hf & Hst & Hle & Hsh) Hclosed]. unfold responsesFinish, envelope, rpbind, bget, rget, rret. rewrite event_of_run. cbn [fst snd reader_run].
  unfold reader_step. cbn [re_seq re_payload]. rewrite Hq, Z.eqb_refl, Hf, bool_decide_eq_true_2 by done.
  assert (in_turn (Completed (responsesEnvelope (rp_base p) (rp_state p) "completed" (responsesOutputJSON (rp_state p)))) (rs_seq (rp_state p) + 1) = true) as ->
    by (apply Z.ltb_lt; lia). cbn [andb slots_step mbind option_bind].
  rewrite bool_decide_eq_true_2; [eexists; split; [reflexivity|]; split; [done|]; eapply shape_same; [exact Hsh|done..]|].
  intros i sl Hi. destruct (sh_slot _ _ _ _ Hsh i sl Hi) as [_ Hok]. destruct sl as [k id t| | |]; cbn in *; try done. destruct Hok as [Ho _]. by rewrite Hclosed in Ho.
Qed.
Lemma ended_items c p : ended c p -> held_items c = stored_items (rp_state p).
Proof.
  intros [_ Hsh]. unfold held_items, stored_items. rewrite (sh_next _ _ _ _ Hsh).
  assert (forall i, rc_slots c !! Z.of_nat i ≫= closed = rs_byIndex (rp_state p) !! Z.of_nat i) as Hi.
  { intros i. destruct (rc_slots c !! Z.of_nat i) as [sl|] eqn:E; cbn.
    - destruct (sh_slot _ _ _ _ Hsh _ _ E) as [_ Hok]. destruct (rs_byIndex (rp_state p) !! Z.of_nat i) as [it|] eqn:Eb.
      + apply (sh_done _ _ _ _ Hsh) in Eb. rewrite E in Eb. by injection Eb as ->.
      + destruct sl; cbn in *; [done..|congruence].
    - destruct (rs_byIndex (rp_state p) !! Z.of_nat i) as [it|] eqn:Eb; [|done]. apply (sh_done _ _ _ _ Hsh) in Eb. congruence. }
  induction (seq 0 (Z.to_nat (rs_out (rp_state p)))) as [|i l IH]; cbn; [done|]. rewrite Hi. by destruct (_ !! Z.of_nat i); cbn; rewrite IH.
Qed.

(** ** Every event of a run *)
Definition rserved (r : routcome) (c : reader) (p : projection) : Prop :=
  match r with
  | Fail _ => True
  | Ok (es, terminal, _) => exists c', reader_run c es = Some c' /\ if terminal : bool then ended c' p else exists st, tracks quiet st c' p
  end.
Lemma going_served P m c p : rspec P m (tracks quiet true) -> P c p -> rserved (rgoing m p).1 c (rgoing m p).2.
Proof.
  intros Hm Hp. destruct (Hm c p Hp) as (c' & Hr & Ht). unfold rgoing, rpbind, rret. destruct (m p) as [es p']. cbn in *. exists c'. eauto.
Qed.
Lemma ending_served P m park c p : rspec P m ended -> P c p -> rserved (rending park m p).1 c (rending park m p).2.
Proof.
  intros Hm Hp. destruct (Hm c p Hp) as (c' & Hr & Ht). unfold rending, rpbind, rret. destruct (m p) as [es p']. cbn in *. by exists c'.
Qed.
Lemma idle_served st c p : tracks quiet st c p -> rserved (Ok ([], false, false)) c p.
Proof. intros Ht. exists c. eauto. Qed.
Lemma base_tracks w st c p b : tracks w st c p -> tracks w st c {| rp_base := b; rp_state := rp_state p |}.
Proof. done. Qed.
Lemma text_tracks st k x c p : tracks quiet st c p ->
  tracks (only k x) st c {| rp_base := rp_base p; rp_state := set_item k (add_text x (item_of k (rp_state p))) (rp_state p) |}.
Proof.
  intros (Hq & Hf & Hst & Hle & Hsh). unfold tracks. cbn. apply (shape_text k x) in Hsh. destruct k; by split_and!.
Qed.
(** A delta: the other kind is closed, the item opened if need be, and the text sent. *)
Lemma delta_spec st k k' x : k' <> k ->
  rspec (tracks (only k x) st) (responsesStart now >+> close_item k' >+> ensure_item k >+> delta_item k x) (tracks quiet true).
Proof.
  intros Hne. eapply rspec_then; [apply start_rspec|]. eapply rspec_then.
  { intros c p Htr. destruct (close_rspec (only k x) k' c p Htr) as (c' & Hr & Ht & _); [unfold only; by rewrite decide_False|]. exists c'. by split. }
  eapply rspec_then; [apply ensure_rspec|apply delta_rspec].
Qed.
Lemma closing_only st k Q : rspec rested k Q -> rspec (tracks quiet st) (responsesStart now >+> responsesCloseReasoning >+> responsesCloseMessage >+> k) Q.
Proof.
  intros Hk. eapply rspec_weaken; [apply (closing_rspec st None k Q)|by intros c p Htr|done].
  eapply rspec_weaken; [exact Hk|by intros c p [? _]|done].
Qed.
Lemma rthen_assoc (m k l : events T) p : ((m >+> k) >+> l) p = (m >+> k >+> l) p.
Proof.
  unfold rthen, rpbind, rret. destruct (m p) as [c1 p1]. destruct (k p1) as [c2 p2]. destruct (l p2) as [c3 p3]. by rewrite app_assoc.
Qed.
Lemma rspec_assoc P m1 m2 m3 k Q : rspec P (m1 >+> m2 >+> m3 >+> k) Q -> rspec P ((m1 >+> m2 >+> m3) >+> k) Q.
Proof.
  intros Hm c p Hp. rewrite rthen_assoc. assert ((m1 >+> (m2 >+> m3) >+> k) p = (m1 >+> m2 >+> m3 >+> k) p) as ->; [|by apply Hm].
  unfold rthen at 1 4, rpbind. destruct (m1 p) as [c1 p1]. by rewrite rthen_assoc.
Qed.
Lemma event_served st event c p : tracks quiet st c p -> rserved (handleResponses now event p).1 c (handleResponses now event p).2.
Proof.
  intros Htr. unfold handleResponses, semantic. destruct (ev_Type event); try (by eapply idle_served).
  - rewrite base_put_then, put_then. eapply (going_served (tracks (only Message (ev_Text event)) st)); [by apply (delta_spec st Message Reasoning)|]. by apply (text_tracks st Message).
  - case_bool_decide; [by eapply idle_served|]. rewrite base_put_then, put_then.
    eapply (going_served (tracks (only Reasoning (ev_Text event)) st)); [by apply (delta_spec st Reasoning Message)|]. by apply (text_tracks st Reasoning).
  - destruct (ev_ToolCall event); by eapply idle_served.
  - rewrite base_then. case_bool_decide; [done|]. eapply (ending_served (tracks quiet st)); [|done]. apply rspec_assoc, closing_only.
    eapply rspec_then; [apply calls_rspec|apply finish_rspec].
  - eapply (ending_served (tracks quiet st)); [|done]. apply rspec_assoc, closing_only, finish_rspec.
  - rewrite base_put_then. destruct (ev_HostedSearch event) as [search|]; [|by eapply (idle_served st)].
    eapply (going_served (tracks quiet st)); [|done]. eapply rspec_weaken; [apply search_started_rspec|done|by intros ? ? [? _]].
  - rewrite base_put_then. destruct (ev_HostedSearch event) as [search|]; [|by eapply (idle_served st)].
    eapply (going_served (tracks quiet st)); [apply search_completed_rspec|done].
  - destruct st.
    + eapply (going_served (tracks quiet true)); [|done]. intros c1 p1 Ht1. destruct (close_rspec quiet Reasoning c1 p1 Ht1 eq_refl) as (c' & Hr & Ht & _). by exists c'.
    + destruct (oi_open (item_of Reasoning (rp_state p))) eqn:Ho.
      * destruct Htr as (_ & _ & _ & [_ Hout] & Hsh). destruct (sh_open _ _ _ _ Hsh Reasoning Ho) as [t Ht]. apply (sh_slot _ _ _ _ Hsh) in Ht as [Hb _]. lia.
      * assert (responsesCloseReasoning p = ([], p)) as E by (unfold responsesCloseReasoning; rewrite get_then; cbn [item_of] in Ho; by rewrite Ho).
        unfold rgoing, rpbind. rewrite E. exact (idle_served false c p Htr).
Qed.
Lemma handle_served st event c p : tracks quiet st c p -> rserved (handle now event p).1 c (handle now event p).2.
Proof. intros Htr. unfold handle. rewrite base_put_then. eapply event_served. by apply base_tracks. Qed.
(** A run handled to its end: the events sent and the final projection. *)
Fixpoint respond (run : list Event) (p : projection) : option (list responsesEvent * projection) :=
  match run with
  | [] => None
  | event :: run =>
      match handle now event p with
      | (Ok (es, true, _), p) => Some (es, p)
      | (Ok (es, false, _), p) => '(es', p) ← respond run p; Some (es ++ es', p)
      | (Fail _, _) => None
      end
  end.
Lemma respond_story st run c p es q :
  tracks quiet st c p -> respond run p = Some (es, q) -> exists c', reader_run c es = Some c' /\ ended c' q.
Proof.
  revert st c p es. induction run as [|event run IH]; intros st c p es Htr; cbn [respond]; [done|].
  pose proof (handle_served st event c p Htr) as Hs. destruct (handle now event p) as [[[[es1 terminal] park]|e] p1]; [|done].
  cbn [fst snd rserved] in Hs. destruct Hs as (c1 & Hr1 & Hs). destruct terminal; [intros [= <- <-]; by exists c1|]. destruct Hs as [st1 Hs].
  destruct (respond run p1) as [[es' q']|] eqn:E; [|done]. cbn. intros [= <- <-]. destruct (IH st1 c1 p1 es' Hs E) as (c2 & Hr2 & He).
  exists c2. by rewrite reader_run_app, Hr1.
Qed.
Lemma new_tracks base : tracks quiet false new_reader (new_responsesProjection base).
Proof. unfold tracks, new_reader, new_responsesProjection. cbn. split_and!; try done. split; cbn; try done; by intros []. Qed.
End proofs.

(** C27 A Responses stream is well formed and adds up to the body.  Whatever the run, when it
    ends the events carry the sequence numbers 1, 2, 3, ..., every item is opened under the
    next output index, extended and closed with the text and arguments that were streamed
    for it, only unanswered searches stay open, and the final event carries the body, whose
    output lists exactly the items the stream closed, by index. *)
Theorem responses_stream_refines `{JSON} `{NetURL} `{Tokens} {T : Type} (now : Z) (base : claudeProjection T) run es q :
  respond now run (new_responsesProjection base) = Some (es, q) ->
  exists c response,
    reader_run new_reader es = Some c /\ re_seq <$> es = seqZ 1 (Z.of_nat (length es)) /\ rc_final c = Some response /\
    response = responsesEnvelope (rp_base q) (rp_state q) "completed" ((fun item => AnyMap (responsesItemJSON item)) <$> held_items c) /\
    forall body, nonStream_responses q = Ok body -> json_marshal (AnyMap response) = Some body.
Proof.
  intros Hrun. destruct (respond_story now false run new_reader _ es q (new_tracks base) Hrun) as (c & Hc & He).
  exists c. eexists. split_and!; [done| |apply He| |].
  - exact (reader_run_seq _ _ _ Hc).
  - by rewrite (ended_items c q He).
  - intros body. unfold nonStream_responses, responsesNonStream. destruct (json_marshal (message_json _)); [|done].
    destruct (json_marshal _) eqn:E; [|done]. by intros [= ->].
Qed.

(** ** A concrete run *)
#[local] Existing Instance brace_json.
#[local] Existing Instance plain_url.
#[local] Existing Instance byte_tokens.
Definition sample_responses : responsesProjection unit := new_responsesProjection sample_projection.
Definition sample_answer : list responsesEvent * responsesProjection unit :=
  default ([], sample_responses) (respond 1700000000 (fd_events sample_feed) sample_responses).
Lemma responses_stream_refines_witness :
  length sample_answer.1 = 18%nat /\ exists c response,
    reader_run new_reader sample_answer.1 = Some c /\ re_seq <$> sample_answer.1 = seqZ 1 (Z.of_nat (length sample_answer.1)) /\
    rc_final c = Some response /\
    response = responsesEnvelope (rp_base sample_answer.2) (rp_state sample_answer.2) "completed" ((fun item => AnyMap (responsesItemJSON item)) <$> held_items c) /\
    forall body, nonStream_responses sample_answer.2 = Ok body -> json_marshal (AnyMap response) = Some body.
Proof.
  split; [vm_compute; reflexivity|].
  apply (responses_stream_refines 1700000000 sample_projection (fd_events sample_feed) sample_answer.1 sample_answer.2). vm_compute. reflexivity.
Defined.
