(* ===== verification/History.v ===== *)
(** * Rebuilding a conversation (src/cursoragentv1/full_history.go)

    The messages of a request become native history messages: text, media and
    reasoning parts, tool calls, and one tool message per result.  Calls the client
    never answered are closed with a placeholder. *)
From stdpp Require Import base tactics list gmap strings sorting.
From Stdlib Require Import Strings.Byte.
From S2P Require Import Prelude GoStrings JsonValue Connect Data HostedPolicy Media.
Open Scope Z_scope.

Definition historyContinuationText : string := "Continue, using the tool results above.".
Definition orphanToolResultText : string := "[No result was returned for this tool call.]".
Definition anthropicServerToolResultTypes : list string :=
  ["web_search_tool_result"; "web_fetch_tool_result"; "code_execution_tool_result"; "bash_code_execution_tool_result";
   "text_editor_code_execution_tool_result"; "tool_search_tool_result"; "advisor_tool_result"; "mcp_tool_result"; "computer_tool_result";
   "browser_tool_result"; "memory_tool_result"; "programmatic_tool_call_tool_result"; "container_upload_tool_result";
   "web_search_tool_result_error"; "code_execution_tool_result_error"; "bash_code_execution_tool_result_error";
   "text_editor_code_execution_result_error"].
Definition invalidHistory (detail : string) : Err := ErrRequest 422 ("Cursor Agent v1 cannot rebuild history: " +:+ detail).
Definition errUnfinishedLoop : Err :=
  ErrRequest 409 "Cursor Agent v1 cannot continue an unfinished Anthropic server tool loop (pause_turn); resume this conversation on its original channel".

(** ** Messages *)
Inductive part : Type :=
  | TextPart (text : string) | ConvertedPart (value : any) | ReasoningPart (text signature : string) | RedactedPart (data : string)
  | CallPart (id name : string) (args : object) | ResultPart (id name : string) (result : any) (media : list any).
Record historyMessage := { hm_role : string; hm_content : list part; hm_id : string }.
Definition part_json (p : part) : any :=
  match p with
  | TextPart text => AnyMap [("type", AnyString "text"); ("text", AnyString text)]
  | ConvertedPart value => value
  | ReasoningPart text signature =>
      AnyMap ([("type", AnyString "reasoning"); ("text", AnyString text)] ++ if bool_decide (signature = "") then [] else [("signature", AnyString signature)])
  | RedactedPart data => AnyMap [("type", AnyString "redacted-reasoning"); ("data", AnyString data)]
  | CallPart id name args => AnyMap [("type", AnyString "tool-call"); ("toolCallId", AnyString id); ("toolName", AnyString name); ("args", AnyMap args)]
  | ResultPart id name result media =>
      AnyMap ([("type", AnyString "tool-result"); ("toolCallId", AnyString id); ("toolName", AnyString name); ("result", result)]
              ++ if bool_decide (media = []) then [] else [("experimental_content", AnyList media)])
  end.
Definition message_json (m : historyMessage) : any :=
  AnyMap ([("role", AnyString (hm_role m)); ("content", AnyList (part_json <$> hm_content m))]
          ++ if bool_decide (hm_id m = "") then [] else [("id", AnyString (hm_id m))]).

(** ** Helpers *)
Definition block_tool_use_id (raw : any) : option string :=
  match raw with
  | AnyMap block => let id := stringValue (map_get block "tool_use_id") in if bool_decide (id = "") then None else Some id
  | _ => None
  end.
Definition toolResultIDs (content : any) : gset string :=
  match content with AnyList blocks => list_to_set (omap block_tool_use_id blocks) | _ => ∅ end.
Definition sortedKeys (values : gmap string string) : list string := sort_strings ((map_to_list values).*1).
Definition is_ciphertext (key : string) : bool := bool_decide (key = "encrypted_content") || bool_decide (key = "encrypted_index").
Definition redaction_note : any := AnyString "encrypted provider content omitted: it is only readable by the channel that produced it".
Fixpoint withoutProviderCiphertext (value : any) : any :=
  match value with
  | AnyMap typed =>
      let out :=
        (fix clean (l : object) : object :=
           match l with
           | [] => []
           | (key, item) :: l => if is_ciphertext key then clean l else (key, withoutProviderCiphertext item) :: clean l
           end) typed in
      AnyMap (if existsb (fun e => is_ciphertext e.1) typed then map_set out "beefapi_note" redaction_note else out)
  | AnyList typed => AnyList ((fix clean (l : list any) : list any := match l with [] => [] | x :: l => withoutProviderCiphertext x :: clean l end) typed)
  | _ => value
  end.

Section history.
Context `{JSON} (unicode_lower : string -> string).

(** The parts of the blocks of a tool result; any unknown block is refused. *)
Fixpoint result_parts (blocks : list any) : result (list ContentPart) :=
  match blocks with
  | [] => Ok []
  | AnyMap block :: blocks =>
      rbind (parseAnthropicContentBlock unicode_lower block) (fun converted =>
        match converted with
        | None => Fail (unprocessable "Cursor Agent v1 historical tool_result content contains an unsupported block")
        | Some parts => rbind (result_parts blocks) (fun rest => Ok (parts ++ rest))
        end)
  | _ :: _ => Fail (unprocessable "Cursor Agent v1 historical tool_result content block must be an object")
  end.
Definition has_media (parts : list ContentPart) : bool := existsb (fun p => bool_decide (is_Some (cp_Media p))) parts.
(** The text-only value, and every part when some of them are media. *)
Definition normalizedHistoryToolResultParts (content : any) : result (any * list any) :=
  match content with
  | AnyNil => Ok (AnyString "", [])
  | AnyString text => Ok (AnyString text, [])
  | AnyList blocks =>
      rbind (result_parts blocks) (fun parts =>
        let texts := (fun p => history_text_part (cp_Text p)) <$> List.filter (fun p => negb (bool_decide (is_Some (cp_Media p)))) parts in
        Ok (AnyList texts, if has_media parts then historyContentParts parts else []))
  | _ => Fail (unprocessable "Cursor Agent v1 historical tool_result content must be text")
  end.

(** ** The rebuild *)
(** The messages so far (encoded at the end) and the identifiers of calls: their
    names, which of them the server makes, and which are answered. *)
Record rebuilt := { hs_out : list historyMessage; hs_names : gmap string string; hs_server : gset string; hs_resolved : gset string }.
Definition empty_history : rebuilt := {| hs_out := []; hs_names := ∅; hs_server := ∅; hs_resolved := ∅ |}.
Definition name_of (h : rebuilt) (id : string) : string := default "" (hs_names h !! id).
Definition resolve (id : string) (h : rebuilt) : rebuilt :=
  {| hs_out := hs_out h; hs_names := hs_names h; hs_server := hs_server h; hs_resolved := {[id]} ∪ hs_resolved h |}.
Definition register (id name : string) (server : bool) (h : rebuilt) : rebuilt :=
  {| hs_out := hs_out h; hs_names := <[id := name]> (hs_names h); hs_server := if server then {[id]} ∪ hs_server h else hs_server h; hs_resolved := hs_resolved h |}.
Definition errEncode : Err := ErrMsg "json: unsupported value".
Definition appendMessage (role : string) (parts : list part) (id : string) (h : rebuilt) : result rebuilt :=
  if bool_decide (parts = []) then Ok h
  else
    let message := {| hm_role := role; hm_content := parts; hm_id := id |} in
    match json_marshal (message_json message) with
    | None => Fail errEncode
    | Some _ => Ok {| hs_out := hs_out h ++ [message]; hs_names := hs_names h; hs_server := hs_server h; hs_resolved := hs_resolved h |}
    end.
Definition orphan_result (id name : string) : part :=
  ResultPart id name (AnyMap [("is_error", AnyBool true); ("content", AnyString orphanToolResultText)]) [].
Fixpoint flush_ids (answeredNow : gset string) (ids : list string) (h : rebuilt) : result rebuilt :=
  match ids with
  | [] => Ok h
  | id :: ids =>
      if bool_decide (id ∈ hs_resolved h) || bool_decide (id ∈ hs_server h) || bool_decide (id ∈ answeredNow) then flush_ids answeredNow ids h
      else rbind (appendMessage "tool" [orphan_result id (name_of h id)] id h) (fun h => flush_ids answeredNow ids (resolve id h))
  end.
Definition flushUnansweredCallerCalls (answeredNow : gset string) (h : rebuilt) : result rebuilt := flush_ids answeredNow (sortedKeys (hs_names h)) h.

(** The rebuild so far and the parts of the message being read. *)
Definition progress : Type := rebuilt * list part.
Definition add_parts (ps : list part) (h : rebuilt) (parts : list part) : result progress := Ok (h, parts ++ ps).
Definition text_block (omitText : bool) (block : object) (h : rebuilt) (parts : list part) : result progress :=
  match as_string (map_get block "text") with
  | None => Fail (invalidHistory "text block has no text")
  | Some text =>
      if omitText then Ok (h, parts)
      else
        match map_get block "citations" with
        | AnyList ((_ :: _) as citations) =>
            match json_marshal (AnyList citations) with
            | None => Fail errEncode
            | Some encoded => add_parts [TextPart text; TextPart ("Source citations for the preceding text: " +:+ of_bytes encoded)] h parts
            end
        | _ => add_parts [TextPart text] h parts
        end
  end.
Definition compaction_block (block : object) : result progress :=
  match as_string (map_get block "content") with
  | Some summary =>
      if bool_decide (TrimSpace summary = "") then Fail (invalidHistory "compaction block must carry a plaintext summary")
      else rbind (appendMessage "user" [TextPart ("[Compacted conversation summary from the previous provider]" +:+ newline +:+ summary)] "" empty_history)
             (fun h => Ok (h, []))
  | None => Fail (invalidHistory "compaction block must carry a plaintext summary")
  end.
Definition call_block (role type : string) (block : object) (h : rebuilt) (parts : list part) : result progress :=
  let id := stringValue (map_get block "id") in
  let name := stringValue (map_get block "name") in
  if negb (bool_decide (role = "assistant")) || bool_decide (id = "") || bool_decide (name = "") || negb (bool_decide (name_of h id = ""))
  then Fail (invalidHistory "tool call identity is invalid or duplicated")
  else
    match (match map_get block "input" with AnyNil => Some [] | AnyMap args => Some args | _ => None end) with
    | None => Fail (invalidHistory "tool arguments must be an object")
    | Some args => add_parts [CallPart id name args] (register id name (negb (bool_decide (type = "tool_use"))) h) parts
    end.
(** The value and the media of a result block. *)
Definition result_value (type : string) (block : object) : result (any * list any) :=
  let content := match map_get block "content" with AnyNil => AnyString "" | content => content end in
  if bool_decide (type = "tool_result") then
    rbind (normalizedHistoryToolResultParts content) (fun '(value, media) =>
      match map_find block "is_error" with
      | None => Ok (value, media)
      | Some (AnyBool isError) => Ok (if isError then AnyMap [("is_error", AnyBool true); ("content", value)] else value, media)
      | Some _ => Fail (invalidHistory "tool result error flag must be boolean")
      end)
  else Ok (withoutProviderCiphertext content, []).
Definition result_block (role type : string) (block : object) (h : rebuilt) (parts : list part) : result progress :=
  let id := stringValue (map_get block "tool_use_id") in
  if bool_decide (id = "") || bool_decide (name_of h id = "") || bool_decide (id ∈ hs_resolved h)
  then Fail (invalidHistory "tool result has no unique matching call")
  else if bool_decide (type = "tool_result") && bool_decide (id ∈ hs_server h)
  then Fail (invalidHistory "tool_result cannot answer a server_tool_use")
  else if negb (bool_decide (type = "tool_result")) && negb (bool_decide (id ∈ hs_server h))
  then Fail (invalidHistory (type +:+ " must answer a server_tool_use"))
  else
    rbind (appendMessage role parts "" h) (fun h =>
    rbind (result_value type block) (fun '(value, media) =>
    rbind (appendMessage "tool" [ResultPart id (name_of h id) value media] id h) (fun h => Ok (resolve id h, [])))).
Definition content_block (role : string) (omitText : bool) (block : object) (h : rebuilt) (parts : list part) : result progress :=
  let type := stringValue (map_get block "type") in
  let assistant := bool_decide (role = "assistant") in
  if bool_decide (type = "text") then text_block omitText block h parts
  else if bool_decide (type = "image") || bool_decide (type = "document") || bool_decide (type = "search_result") then
    if omitText then Ok (h, parts)
    else rbind (parseAnthropicContentBlock unicode_lower block) (fun converted =>
           add_parts (ConvertedPart <$> historyContentParts (default [] converted)) h parts)
  else if bool_decide (type = "thinking") then
    if negb assistant then Fail (invalidHistory "thinking block must belong to assistant")
    else add_parts [ReasoningPart (default "" (as_string (map_get block "thinking"))) (stringValue (map_get block "signature"))] h parts
  else if bool_decide (type = "redacted_thinking") then
    if negb assistant then Fail (invalidHistory "redacted_thinking block must belong to assistant")
    else add_parts [RedactedPart (stringValue (map_get block "data"))] h parts
  else if bool_decide (type = "compaction") then
    if negb assistant then Fail (invalidHistory "compaction block must belong to assistant") else compaction_block block
  else if bool_decide (type = "container_upload")
  then Fail (invalidHistory "container_upload references an Anthropic Files API container and cannot be replayed on Cursor")
  else if bool_decide (type = "tool_use") || bool_decide (type = "server_tool_use") || bool_decide (type = "mcp_tool_use")
  then call_block role type block h parts
  else if bool_decide (type = "tool_result") || bool_decide (type ∈ anthropicServerToolResultTypes) then result_block role type block h parts
  else Fail (invalidHistory ("unsupported content block " +:+ type)).
Fixpoint content_blocks (role : string) (omitText : bool) (blocks : list any) (h : rebuilt) (parts : list part) : result progress :=
  match blocks with
  | [] => Ok (h, parts)
  | AnyMap block :: blocks =>
      rbind (content_block role omitText block h parts) (fun '(h, parts) => content_blocks role omitText blocks h parts)
  | _ :: _ => Fail (invalidHistory "content block must be an object")
  end.
Definition history_message (omitText : bool) (message : object) (h : rebuilt) : result rebuilt :=
  let role := stringValue (map_get message "role") in
  let content := map_get message "content" in
  rbind (if bool_decide (role = "user") then flushUnansweredCallerCalls (toolResultIDs content) h else Ok h) (fun h =>
  match content with
  | AnyString text => if omitText then Ok h else appendMessage role [TextPart text] "" h
  | AnyList blocks => rbind (content_blocks role omitText blocks h []) (fun '(h, parts) => appendMessage role parts "" h)
  | _ => Fail (invalidHistory "content must be text or content blocks")
  end).
Fixpoint history_messages (omitLastText : bool) (messages : list any) (h : rebuilt) : result rebuilt :=
  match messages with
  | [] => Ok h
  | AnyMap message :: messages =>
      rbind (history_message (omitLastText && bool_decide (messages = [])) message h) (history_messages omitLastText messages)
  | _ :: _ => Fail (invalidHistory "message must be an object")
  end.
Definition unfinished (h : rebuilt) : bool :=
  existsb (fun id => negb (bool_decide (id ∈ hs_resolved h)) && bool_decide (id ∈ hs_server h)) (map_to_list (hs_names h)).*1.
(** The messages before they are encoded. *)
Definition rebuild (messages : list any) (omitLastText : bool) : result (list historyMessage) :=
  rbind (history_messages omitLastText messages empty_history) (fun h =>
  if unfinished h then Fail errUnfinishedLoop
  else rbind (flushUnansweredCallerCalls ∅ h) (fun h => Ok (hs_out h))).
Definition structuredHistory (messages : list any) (omitLastText : bool) : result (list bytes) :=
  rbind (rebuild messages omitLastText) (fun out => Ok (omap (fun m => json_marshal (message_json m)) out)).
End history.
