(* ===== verification/HistoryProps.v ===== *)
(** * Properties of a rebuilt conversation (src/cursoragentv1/full_history.go)

    In a rebuilt history every tool call has exactly one result, after it. *)
From stdpp Require Import base tactics list gmap strings sorting.
From Stdlib Require Import Strings.Byte.
From S2P Require Import Prelude GoStrings JsonValue Connect Data HostedPolicy Media History.
Open Scope Z_scope.

(** ** Calls and results of messages: identifier and name *)
Definition call_of (p : part) : option (string * string) := match p with CallPart id name _ => Some (id, name) | _ => None end.
Definition result_of (p : part) : option (string * string) := match p with ResultPart id name _ _ => Some (id, name) | _ => None end.
Definition calls_of (parts : list part) : list (string * string) := omap call_of parts.
Definition results_of (parts : list part) : list (string * string) := omap result_of parts.
Definition calls_in (ms : list historyMessage) : list (string * string) := ms ≫= (fun m => calls_of (hm_content m)).
Definition results_in (ms : list historyMessage) : list (string * string) := ms ≫= (fun m => results_of (hm_content m)).
#[local] Arguments calls_in _ : simpl never.
#[local] Arguments results_in _ : simpl never.
Lemma calls_in_app ms ms' : calls_in (ms ++ ms') = calls_in ms ++ calls_in ms'.
Proof. apply bind_app. Qed.
Lemma results_in_app ms ms' : results_in (ms ++ ms') = results_in ms ++ results_in ms'.
Proof. apply bind_app. Qed.
(** A message with a result is a tool message of its own, for a call made before. *)
Definition well_placed (before : list (string * string)) (m : historyMessage) : Prop :=
  forall r, r ∈ results_of (hm_content m) ->
    r ∈ before /\ hm_role m = "tool" /\ hm_id m = r.1 /\ length (hm_content m) = 1%nat.
Fixpoint placed (before : list (string * string)) (ms : list historyMessage) : Prop :=
  match ms with [] => True | m :: ms => well_placed before m /\ placed (before ++ calls_of (hm_content m)) ms end.
Lemma placed_snoc before ms m : placed before ms -> well_placed (before ++ calls_in ms) m -> placed before (ms ++ [m]).
Proof.
  revert before. induction ms as [|m' ms IH]; intros before; cbn [placed app].
  - unfold calls_in. cbn. rewrite app_nil_r. by split.
  - intros [Hm Hms] Hlast. split; [done|]. apply IH; [done|]. unfold calls_in in Hlast. cbn in Hlast. by rewrite app_assoc in Hlast.
Qed.

(** *** The same read off the JSON of the messages *)
Definition json_text (v : any) : string := default "" (as_string v).
Definition entry (type : string) (p : any) : option (string * string) :=
  match p with
  | AnyMap o => if bool_decide (json_text (map_get o "type") = type)
                then Some (json_text (map_get o "toolCallId"), json_text (map_get o "toolName")) else None
  | _ => None
  end.
Definition json_content (m : any) : list any :=
  match m with AnyMap o => match map_get o "content" with AnyList parts => parts | _ => [] end | _ => [] end.
Definition json_field (m : any) (key : string) : string := match m with AnyMap o => json_text (map_get o key) | _ => "" end.
Definition entries (type : string) (m : any) : list (string * string) := omap (entry type) (json_content m).
Definition json_calls (ms : list any) : list (string * string) := ms ≫= entries "tool-call".
Definition json_results (ms : list any) : list (string * string) := ms ≫= entries "tool-result".
(** Each result is alone in a tool message with its identifier, for a call made before. *)
Fixpoint json_placed (before : list (string * string)) (ms : list any) : Prop :=
  match ms with
  | [] => True
  | m :: ms =>
      (forall r, r ∈ entries "tool-result" m ->
         r ∈ before /\ json_field m "role" = "tool" /\ json_field m "id" = r.1 /\ length (json_content m) = 1%nat) /\
      json_placed (before ++ entries "tool-call" m) ms
  end.
(** A converted part is not a tool entry. *)
Definition plain_part (p : part) : Prop :=
  match p with ConvertedPart v => entry "tool-call" v = None /\ entry "tool-result" v = None | _ => True end.
Lemma entry_part p : plain_part p -> entry "tool-call" (part_json p) = call_of p /\ entry "tool-result" (part_json p) = result_of p.
Proof.
  destruct p as [text|v|text sig|data|id name args|id name r media]; cbn [plain_part part_json call_of result_of]; done.
Qed.
Lemma json_content_message m : json_content (message_json m) = part_json <$> hm_content m.
Proof. done. Qed.
Lemma json_fields m : json_field (message_json m) "role" = hm_role m /\ json_field (message_json m) "id" = hm_id m.
Proof. split; [done|]. unfold message_json. case_bool_decide as E; [by rewrite E|done]. Qed.
Lemma entries_message m : Forall plain_part (hm_content m) ->
  entries "tool-call" (message_json m) = calls_of (hm_content m) /\ entries "tool-result" (message_json m) = results_of (hm_content m).
Proof.
  unfold entries, calls_of, results_of. rewrite json_content_message. induction 1 as [|p ps Hp _ [IH1 IH2]]; [done|].
  destruct (entry_part p Hp) as [E1 E2]. rewrite fmap_cons. cbn [omap list_omap]. by rewrite E1, E2, IH1, IH2.
Qed.
Lemma json_messages ms before : Forall (fun m => Forall plain_part (hm_content m)) ms ->
  json_calls (message_json <$> ms) = calls_in ms /\ json_results (message_json <$> ms) = results_in ms /\
  (placed before ms -> json_placed before (message_json <$> ms)).
Proof.
  intros Hm. revert before. induction Hm as [|m ms Hp _ IH]; intros before; [done|].
  destruct (entries_message m Hp) as [E1 E2]. destruct (IH (before ++ calls_of (hm_content m))) as (I1 & I2 & I3).
  rewrite fmap_cons. unfold json_calls, json_results, calls_in, results_in in *. rewrite !bind_cons, E1, E2, I1, I2. split_and!; try done.
  cbn [placed json_placed]. rewrite E1, E2. intros [Hw Hl]. split; [|by apply I3]. intros r Hr. destruct (Hw r Hr) as (? & ? & ? & ?).
  destruct (json_fields m) as [-> ->]. split_and!; try done. by rewrite json_content_message, length_fmap.
Qed.

(** *** The calls of the request *)
Definition block_type (b : any) : string := match b with AnyMap block => stringValue (map_get block "type") | _ => "" end.
Definition block_calls (b : any) : list (string * string) :=
  match b with
  | AnyMap block => if bool_decide (block_type b ∈ ["tool_use"; "server_tool_use"; "mcp_tool_use"])
                    then [(stringValue (map_get block "id"), stringValue (map_get block "name"))] else []
  | _ => []
  end.
Definition input_blocks (messages : list any) : list any := messages ≫= json_content.

Section props.
Context `{JSON} (unicode_lower : string -> string).
Definition encodes (m : historyMessage) : Prop := is_Some (json_marshal (message_json m)).

(** [pend]: the calls among the parts of the message being read. *)
Record paired (h : rebuilt) (pend : list (string * string)) : Prop := {
  pa_names : forall id name, hs_names h !! id = Some name <-> (id, name) ∈ calls_in (hs_out h) ++ pend;
  pa_named : forall id name, hs_names h !! id = Some name -> name <> "";
  pa_calls : NoDup (calls_in (hs_out h) ++ pend).*1;
  pa_resolved : forall id, id ∈ hs_resolved h <-> id ∈ (results_in (hs_out h)).*1;
  pa_results : NoDup (results_in (hs_out h)).*1;
  pa_known : forall r, r ∈ results_in (hs_out h) -> r ∈ calls_in (hs_out h);
  pa_placed : placed [] (hs_out h);
  pa_encodes : Forall encodes (hs_out h);
  pa_plain : Forall (fun m => Forall plain_part (hm_content m)) (hs_out h) }.
Lemma paired_empty : paired empty_history [].
Proof.
  split; unfold calls_in, results_in; cbn; try done; try constructor; try (by intros id name; rewrite lookup_empty).
  - intros E. by rewrite lookup_empty in E.
  - intros E. by apply not_elem_of_nil in E.
  - intros E. by apply not_elem_of_empty in E.
  - intros E. by apply not_elem_of_nil in E.
Qed.
(** Only the messages differ. *)
Definition same_calls (h h' : rebuilt) : Prop := hs_names h' = hs_names h /\ hs_server h' = hs_server h /\ hs_resolved h' = hs_resolved h.
Lemma append_spec role parts id h h' :
  paired h (calls_of parts) -> results_of parts = [] -> Forall plain_part parts -> appendMessage role parts id h = Ok h' -> paired h' [] /\ same_calls h h'.
Proof.
  intros Hp Hr Hpl. unfold appendMessage. case_bool_decide as Hn; [intros [= <-]; by subst parts|].
  destruct (json_marshal _) as [encoded|] eqn:E; [|done]. intros [= <-]. split; [|done]. destruct Hp as [G1 G2 G3 G4 G5 G6 G7 G8 G9].
  set (m := {| hm_role := role; hm_content := parts; hm_id := id |}) in *.
  assert (calls_in (hs_out h ++ [m]) = calls_in (hs_out h) ++ calls_of parts) as Ec by (rewrite calls_in_app; change (calls_in [m]) with (calls_of parts ++ []); by rewrite app_nil_r).
  assert (results_in (hs_out h ++ [m]) = results_in (hs_out h)) as Er
    by (rewrite results_in_app; change (results_in [m]) with (results_of parts ++ []); by rewrite Hr, !app_nil_r).
  split; cbn; rewrite ?Ec, ?Er, ?app_nil_r; try done.
  - intros r Hin. apply elem_of_app. left. by apply G6.
  - apply placed_snoc; [done|]. intros r Hin. change (hm_content m) with parts in Hin. rewrite Hr in Hin. by apply not_elem_of_nil in Hin.
  - apply Forall_app. split; [done|]. constructor; [by eexists|constructor].
  - apply Forall_app. split; [done|]. by apply Forall_singleton.
Qed.
Lemma append_result id name v media h h' :
  paired h [] -> hs_names h !! id = Some name -> id ∉ hs_resolved h ->
  appendMessage "tool" [ResultPart id name v media] id h = Ok h' -> paired (resolve id h') [] /\ same_calls h h'.
Proof.
  intros [G1 G2 G3 G4 G5 G6 G7 G8 G9] Hid Hnew. unfold appendMessage. rewrite bool_decide_eq_false_2 by done.
  destruct (json_marshal _) as [encoded|] eqn:E; [|done]. intros [= <-]. split; [|done].
  set (m := {| hm_role := "tool"; hm_content := [ResultPart id name v media]; hm_id := id |}) in *.
  assert (calls_in (hs_out h ++ [m]) = calls_in (hs_out h)) as Ec by (rewrite calls_in_app; change (calls_in [m]) with (@nil (string * string)); by rewrite app_nil_r).
  assert (results_in (hs_out h ++ [m]) = results_in (hs_out h) ++ [(id, name)]) as Er by (rewrite results_in_app; done).
  assert ((id, name) ∈ calls_in (hs_out h)) as Hin by (apply G1 in Hid; by rewrite app_nil_r in Hid).
  split; cbn; rewrite ?Ec, ?Er; try done.
  - intros id'. rewrite fmap_app, elem_of_union, elem_of_singleton, elem_of_app. cbn. rewrite list_elem_of_singleton, G4. tauto.
  - rewrite fmap_app. cbn. apply NoDup_app. split_and!; [done| |apply NoDup_singleton]. intros x Hx Hx'. apply list_elem_of_singleton in Hx' as ->. by apply Hnew, G4.
  - intros r [Hr|Hr]%elem_of_app; [by apply G6|]. by apply list_elem_of_singleton in Hr as ->.
  - apply placed_snoc; [done|]. intros r Hr. change (r ∈ [(id, name)]) in Hr. apply list_elem_of_singleton in Hr as ->. by split_and!.
  - apply Forall_app. split; [done|]. constructor; [by eexists|constructor].
  - apply Forall_app. split; [done|]. apply Forall_singleton. by repeat constructor.
Qed.
Lemma name_of_lookup h pend id : paired h pend -> name_of h id <> "" <-> exists name, hs_names h !! id = Some name /\ name_of h id = name.
Proof.
  intros Hp. unfold name_of. destruct (hs_names h !! id) as [name|] eqn:E; cbn.
  - split; [by exists name|]. intros _. by apply (pa_named _ _ Hp) in E.
  - split; [done|]. by intros (? & ? & _).
Qed.
Lemma sortedKeys_elem m id : id ∈ sortedKeys m <-> is_Some (m !! id).
Proof.
  unfold sortedKeys, sort_strings. rewrite (merge_sort_Permutation String.le), list_elem_of_fmap. split.
  - intros ([k v] & -> & Hin%elem_of_map_to_list). by exists v.
  - intros [v Hv]. exists (id, v). split; [done|]. by apply elem_of_map_to_list.
Qed.
(** Unanswered caller calls are closed. *)
Lemma flush_ids_spec answered ids h h' :
  paired h [] -> Forall (fun id => is_Some (hs_names h !! id)) ids -> flush_ids answered ids h = Ok h' ->
  paired h' [] /\ hs_names h' = hs_names h /\ hs_server h' = hs_server h /\ hs_resolved h ⊆ hs_resolved h' /\
  forall id, id ∈ ids -> id ∈ hs_resolved h' \/ id ∈ hs_server h \/ id ∈ answered.
Proof.
  revert h. induction ids as [|id ids IH]; intros h Hp Hids; cbn [flush_ids].
  { intros [= <-]. split_and!; try done. by intros id ?%not_elem_of_nil. }
  apply Forall_cons in Hids as [[name Hid] Hids]. destruct (_ || _) eqn:Hc.
  - intros Hf. destruct (IH h Hp Hids Hf) as (Hp' & E1 & E2 & Hsub & Hall). split_and!; try done.
    intros id' [->|Hin]%elem_of_cons; [|by apply Hall]. apply orb_true_iff in Hc as [[Hc|Hc]%orb_true_iff|Hc]; apply bool_decide_eq_true in Hc; auto.
  - apply orb_false_iff in Hc as [[Hc1 Hc2]%orb_false_iff Hc3]. apply bool_decide_eq_false in Hc1, Hc2, Hc3.
    unfold name_of, orphan_result. rewrite Hid. cbn [default].
    destruct (appendMessage _ _ _ h) as [h1|e] eqn:Ea; [|done]. cbn [rbind]. intros Hf.
    destruct (append_result _ _ _ _ _ _ Hp Hid Hc1 Ea) as [Hp1 (E1 & E2 & E3)].
    destruct (IH (resolve id h1) Hp1) as (Hp' & F1 & F2 & Hsub & Hall); [|done|].
    { eapply Forall_impl; [exact Hids|]. intros id'. cbn. by rewrite E1. }
    cbn in F1, F2, Hsub. split_and!; [done|by rewrite F1|by rewrite F2|set_solver|].
    intros id' [->|Hin]%elem_of_cons; [left; set_solver|]. rewrite <-E2. by apply Hall.
Qed.
Lemma flush_spec answered h h' :
  paired h [] -> flushUnansweredCallerCalls answered h = Ok h' ->
  paired h' [] /\ hs_names h' = hs_names h /\ hs_server h' = hs_server h /\ hs_resolved h ⊆ hs_resolved h' /\
  forall id, is_Some (hs_names h !! id) -> id ∈ hs_resolved h' \/ id ∈ hs_server h \/ id ∈ answered.
Proof.
  intros Hp Hf. unfold flushUnansweredCallerCalls in Hf.
  destruct (flush_ids_spec answered (sortedKeys (hs_names h)) h h' Hp) as (Hp' & E1 & E2 & Hsub & Hall); [|exact Hf|].
  { apply Forall_forall. intros id. apply sortedKeys_elem. }
  split_and!; try done. intros id Hid. by apply Hall, sortedKeys_elem.
Qed.

(** ** Blocks *)
(** The message being read holds calls but no results. *)
Definition reading (hp : progress) : Prop :=
  paired hp.1 (calls_of hp.2) /\ results_of hp.2 = [] /\ Forall plain_part hp.2.
Lemma reading_add ps h parts hp :
  reading (h, parts) -> calls_of ps = [] -> results_of ps = [] -> Forall plain_part ps -> add_parts ps h parts = Ok hp -> reading hp.
Proof.
  intros (Hp & Hr & Hl) Hc Hs Hps [= <-]. unfold reading, calls_of, results_of in *. cbn [fst snd] in *.
  rewrite !omap_app, Hc, Hs, Hr, app_nil_r. split_and!; [done..|]. by apply Forall_app.
Qed.
Lemma converted_plain l : calls_of (ConvertedPart <$> l) = [] /\ results_of (ConvertedPart <$> l) = [].
Proof. induction l as [|x l [IH1 IH2]]; [done|]. split; [exact IH1|exact IH2]. Qed.
Lemma history_parts_plain l : Forall plain_part (ConvertedPart <$> historyContentParts l).
Proof.
  apply Forall_fmap, Forall_fmap, Forall_forall. intros [text media] _. unfold compose. cbn [plain_part cp_Media cp_Text].
  destruct media as [m|]; [|done]. unfold historyMediaPart. destruct (bool_decide (mp_Kind m = mediaKindImage)); [done|].
  by destruct (bool_decide (mp_Filename m = "")).
Qed.
Lemma text_reading omit block h parts hp : reading (h, parts) -> text_block omit block h parts = Ok hp -> reading hp.
Proof.
  intros Hr. unfold text_block. destruct (as_string _) as [text|]; [|done]. destruct omit; [by intros [= <-]|].
  destruct (map_get block "citations") as [| | | | | |[|c l]|]; try (by apply reading_add; [..|by repeat constructor]).
  destruct (json_marshal _); [|done]. by apply reading_add; [..|by repeat constructor].
Qed.
Lemma compaction_reading block hp : compaction_block block = Ok hp -> reading hp.
Proof.
  unfold compaction_block. destruct (as_string _) as [summary|]; [|done]. case_bool_decide; [done|].
  destruct (appendMessage _ _ _ _) as [h|] eqn:E; [|done]. intros [= <-]. split; [|by split; [|constructor]].
  apply append_spec in E as [Hp _]; [exact Hp|apply paired_empty|done|by repeat constructor].
Qed.
Lemma call_reading role type block h parts hp : reading (h, parts) -> call_block role type block h parts = Ok hp -> reading hp.
Proof.
  intros (Hp & Hr & Hl). cbn [fst snd] in *. unfold call_block. set (id := stringValue (map_get block "id")). set (name := stringValue (map_get block "name")).
  destruct (_ || _) eqn:Hc; [done|]. apply orb_false_iff in Hc as [[[_ Hid]%orb_false_iff Hname]%orb_false_iff Hnew].
  apply bool_decide_eq_false in Hname. apply negb_false_iff, bool_decide_eq_true in Hnew.
  destruct (match map_get block "input" with AnyNil => _ | _ => _ end) as [args|]; [|done]. intros [= <-]. cbn [fst snd] in *.
  unfold reading, calls_of, results_of. cbn [fst snd]. rewrite !omap_app.
  split; [|split; [by unfold results_of in Hr; rewrite Hr|by apply Forall_app; split; [|repeat constructor]]].
  assert (hs_names h !! id = None) as Hfresh.
  { destruct (hs_names h !! id) as [n|] eqn:E; [|done]. unfold name_of in Hnew. rewrite E in Hnew. cbn in Hnew. by apply (pa_named _ _ Hp) in E. }
  fold (calls_of parts). change (omap call_of [CallPart id name args]) with [(id, name)]. destruct Hp as [G1 G2 G3 G4 G5 G6 G7 G8 G9].
  split; cbn; try done.
  - intros id' name'. rewrite app_assoc, elem_of_app, list_elem_of_singleton, <-G1. destruct (decide (id' = id)) as [->|Hne].
    + rewrite lookup_insert_eq, Hfresh. split; [intros [= ->]; by right|]. intros [?|[= ->]]; done.
    + rewrite lookup_insert_ne by done. split; [by left|]. intros [?|[= -> ->]]; done.
  - intros id' name'. destruct (decide (id' = id)) as [->|Hne]; [rewrite lookup_insert_eq; by intros [= <-]|]. rewrite lookup_insert_ne by done. apply G2.
  - rewrite app_assoc, fmap_app. apply NoDup_app. split_and!; [done| |apply NoDup_singleton]. intros x Hx Hx'. apply list_elem_of_singleton in Hx' as ->.
    apply list_elem_of_fmap in Hx as ([id' name'] & E & Hin). cbn in E. subst id'. apply G1 in Hin. congruence.
Qed.
Lemma result_reading role type block h parts hp : reading (h, parts) -> result_block unicode_lower role type block h parts = Ok hp -> reading hp.
Proof.
  intros (Hp & Hr & Hl). cbn [fst snd] in *. unfold result_block. set (id := stringValue (map_get block "tool_use_id")).
  destruct (_ || _) eqn:Hc; [done|]. apply orb_false_iff in Hc as [[Hid Hname]%orb_false_iff Hnew].
  apply bool_decide_eq_false in Hname, Hnew. destruct (_ && _); [done|]. destruct (_ && _); [done|].
  destruct (appendMessage role parts "" h) as [h1|] eqn:E1; [|done]. cbn [rbind]. apply append_spec in E1 as [Hp1 (F1 & F2 & F3)]; [|done..].
  destruct (result_value _ _ _) as [[value media]|]; [|done]. cbn [rbind].
  destruct (appendMessage "tool" _ id h1) as [h2|] eqn:E2; [|done]. intros [= <-].
  assert (name_of h1 id = name_of h id) as En by (unfold name_of; by rewrite F1).
  apply (name_of_lookup h _ id Hp) in Hname as (name & Hlook & Hname).
  rewrite En, Hname in E2. apply append_result in E2 as [Hp2 _]; [by split_and!|done|by rewrite F1|by rewrite F3].
Qed.
Lemma block_reading role omit block h parts hp : reading (h, parts) -> content_block unicode_lower role omit block h parts = Ok hp -> reading hp.
Proof.
  intros Hr. unfold content_block. set (type := stringValue (map_get block "type")).
  destruct (bool_decide (type = "text")); [by apply text_reading|].
  destruct (_ || bool_decide (type = "search_result")).
  { destruct omit; [by intros [= <-]|]. destruct (parseAnthropicContentBlock _ _) as [converted|]; [|done]. cbn [rbind].
    destruct (converted_plain (historyContentParts (default [] converted))) as [Ec Er]. apply reading_add; [done..|apply history_parts_plain]. }
  destruct (bool_decide (type = "thinking")); [destruct (negb _); [done|by apply reading_add; [..|by repeat constructor]]|].
  destruct (bool_decide (type = "redacted_thinking")); [destruct (negb _); [done|by apply reading_add; [..|by repeat constructor]]|].
  destruct (bool_decide (type = "compaction")); [destruct (negb _); [done|apply compaction_reading]|].
  destruct (bool_decide (type = "container_upload")); [done|].
  destruct (_ || bool_decide (type = "mcp_tool_use")); [by apply call_reading|].
  destruct (_ || _); [by apply result_reading|done].
Qed.
Lemma blocks_reading role omit blocks h parts hp :
  reading (h, parts) -> content_blocks unicode_lower role omit blocks h parts = Ok hp -> reading hp.
Proof.
  revert h parts. induction blocks as [|block blocks IH]; intros h parts Hr; cbn [content_blocks]; [by intros [= <-]|].
  destruct block as [| | | | | | |block]; try done. destruct (content_block _ _ _ _ _ _) as [[h1 parts1]|] eqn:E; [|done]. cbn [rbind].
  apply IH. by eapply block_reading.
Qed.
Lemma message_paired omit message h h' : paired h [] -> history_message unicode_lower omit message h = Ok h' -> paired h' [].
Proof.
  intros Hp. unfold history_message. set (role := stringValue _). set (content := map_get message "content").
  destruct (if bool_decide (role = "user") then _ else _) as [h1|] eqn:E; [|done]. cbn [rbind].
  assert (paired h1 []) as Hp1 by (case_bool_decide; [by eapply flush_spec in E as [? _]|by injection E as <-]).
  destruct content as [| | | | |text|blocks|]; try done.
  - destruct omit; [by intros [= <-]|]. intros E2. by apply append_spec in E2 as [? _]; [..|by repeat constructor].
  - destruct (content_blocks _ _ _ _ _ _) as [[h2 parts]|] eqn:Eb; [|done]. cbn [rbind]. intros E2.
    apply blocks_reading in Eb as (Hp2 & Hr2 & Hl2); [|by split_and!; [..|constructor]]. by apply append_spec in E2 as [? _].
Qed.
Lemma messages_paired omit messages h h' : paired h [] -> history_messages unicode_lower omit messages h = Ok h' -> paired h' [].
Proof.
  revert h. induction messages as [|message messages IH]; intros h Hp; cbn [history_messages]; [by intros [= <-]|].
  destruct message as [| | | | | | |message]; try done. destruct (history_message _ _ _ _) as [h1|] eqn:E; [|done]. cbn [rbind].
  apply IH. by eapply message_paired.
Qed.
(** *** Reading makes the calls of the blocks, in their order *)
Definition made (hp : progress) : list (string * string) := calls_in (hs_out hp.1) ++ calls_of hp.2.
Lemma append_made role parts id h h' : appendMessage role parts id h = Ok h' -> calls_in (hs_out h') = calls_in (hs_out h) ++ calls_of parts.
Proof.
  unfold appendMessage. case_bool_decide as Hn; [intros [= <-]; subst parts; by rewrite app_nil_r|].
  destruct (json_marshal _); [|done]. intros [= <-]. cbn. rewrite calls_in_app. unfold calls_in at 2. cbn. by rewrite app_nil_r.
Qed.
Lemma flush_made answered ids h h' : flush_ids answered ids h = Ok h' -> calls_in (hs_out h') = calls_in (hs_out h).
Proof.
  revert h. induction ids as [|id ids IH]; intros h; cbn [flush_ids]; [by intros [= <-]|]. destruct (_ || _); [apply IH|].
  destruct (appendMessage _ _ _ h) as [h1|] eqn:E; [|done]. cbn [rbind]. intros ->%IH. cbn. rewrite (append_made _ _ _ _ _ E). by rewrite app_nil_r.
Qed.
Lemma add_made ps h parts hp : add_parts ps h parts = Ok hp -> made hp = made (h, parts) ++ calls_of ps.
Proof. intros [= <-]. unfold made, calls_of. cbn. by rewrite omap_app, app_assoc. Qed.
Lemma block_made role omit block h parts hp :
  content_block unicode_lower role omit block h parts = Ok hp -> block_type (AnyMap block) <> "compaction" ->
  made hp = made (h, parts) ++ block_calls (AnyMap block).
Proof.
  unfold content_block, block_calls, block_type. set (type := stringValue (map_get block "type")).
  assert (forall hp' ps, calls_of ps = [] -> add_parts ps h parts = Ok hp' -> made hp' = made (h, parts) ++ []) as Hadd.
  { intros hp' ps Hc ->%add_made. by rewrite Hc. }
  destruct (bool_decide (type = "text")) eqn:T1.
  { apply bool_decide_eq_true_1 in T1 as ->. intros E _. change (bool_decide ("text" ∈ _)) with false. cbv iota. unfold text_block in E.
    destruct (as_string _); [|done]. destruct omit; [injection E as <-; by rewrite app_nil_r|].
    destruct (map_get block "citations") as [| | | | | |[|c l]|]; try (by eapply Hadd in E). destruct (json_marshal _); [|done]. by eapply Hadd in E. }
  destruct (bool_decide (type = "image") || _ || _) eqn:T2.
  { intros E _. rewrite bool_decide_eq_false_2.
    2: { apply orb_true_iff in T2 as [[T2|T2]%orb_true_iff|T2]; apply bool_decide_eq_true_1 in T2 as ->; set_solver. }
    destruct omit; [injection E as <-; by rewrite app_nil_r|]. destruct (parseAnthropicContentBlock _ _) as [converted|]; [|done]. cbn [rbind] in E.
    apply Hadd in E; [done|]. apply converted_plain. }
  clear T2. destruct (bool_decide (type = "thinking")) eqn:T3.
  { apply bool_decide_eq_true_1 in T3 as ->. intros E _. change (bool_decide ("thinking" ∈ _)) with false. destruct (negb _); [done|]. by eapply Hadd in E. }
  destruct (bool_decide (type = "redacted_thinking")) eqn:T4.
  { apply bool_decide_eq_true_1 in T4 as ->. intros E _. change (bool_decide ("redacted_thinking" ∈ _)) with false. destruct (negb _); [done|]. by eapply Hadd in E. }
  destruct (bool_decide (type = "compaction")) eqn:T5; [by intros _ []; apply bool_decide_eq_true_1 in T5|].
  destruct (bool_decide (type = "container_upload")); [done|].
  destruct (_ || bool_decide (type = "mcp_tool_use")) eqn:T6.
  { intros E _. rewrite bool_decide_eq_true_2.
    2: { apply orb_true_iff in T6 as [[T6|T6]%orb_true_iff|T6]; apply bool_decide_eq_true_1 in T6 as ->; set_solver. }
    clear T6. revert E. unfold call_block. destruct (_ || _); [done|].
    destruct (map_get block "input"); try done; intros E%add_made; exact E. }
  destruct (bool_decide (type = "tool_result") || _); [|done]. intros E _. rewrite bool_decide_eq_false_2.
  2: { intros Hin. apply orb_false_iff in T6 as [[T6 T7]%orb_false_iff T8]. apply bool_decide_eq_false_1 in T6, T7, T8. set_solver. }
  clear T6. unfold result_block in E. destruct (_ || _); [done|]. destruct (_ && _); [done|]. destruct (_ && _); [done|].
  destruct (appendMessage role parts "" h) as [h1|] eqn:E1; [|done]. cbn [rbind] in E. destruct (result_value _ _ _) as [[value media]|]; [|done].
  cbn [rbind] in E. destruct (appendMessage "tool" _ _ h1) as [h2|] eqn:E2; [|done]. injection E as <-. unfold made. cbn [fst snd resolve hs_out].
  rewrite (append_made _ _ _ _ _ E2), (append_made _ _ _ _ _ E1). by rewrite !app_nil_r.
Qed.
Lemma blocks_made role omit blocks h parts hp :
  content_blocks unicode_lower role omit blocks h parts = Ok hp -> Forall (fun b => block_type b <> "compaction") blocks ->
  made hp = made (h, parts) ++ (blocks ≫= block_calls).
Proof.
  intros E Hb. revert h parts E. induction Hb as [|block blocks Hb _ IH]; intros h parts; cbn [content_blocks]; [intros [= <-]; by rewrite app_nil_r|].
  destruct block as [| | | | | | |block]; try done. destruct (content_block _ _ _ _ _ _) as [[h1 parts1]|] eqn:E; [|done]. cbn [rbind].
  intros ->%IH. rewrite (block_made _ _ _ _ _ _ E Hb), bind_cons. by rewrite app_assoc.
Qed.
Lemma message_made omit message h h' :
  history_message unicode_lower omit message h = Ok h' -> Forall (fun b => block_type b <> "compaction") (json_content (AnyMap message)) ->
  calls_in (hs_out h') = calls_in (hs_out h) ++ (json_content (AnyMap message) ≫= block_calls).
Proof.
  unfold history_message. set (role := stringValue _). cbn [json_content].
  destruct (if bool_decide (role = "user") then _ else _) as [h1|] eqn:E; [|done]. cbn [rbind].
  assert (calls_in (hs_out h1) = calls_in (hs_out h)) as Eh by (case_bool_decide; [by eapply flush_made|by injection E as <-]).
  destruct (map_get message "content") as [| | | | |text|blocks|]; try done.
  - destruct omit; [intros [= <-] _; by rewrite app_nil_r|]. intros ->%append_made _. by rewrite Eh.
  - destruct (content_blocks _ _ _ _ _ _) as [[h2 parts]|] eqn:Eb; [|done]. cbn [rbind]. intros E2 Hb. rewrite (append_made _ _ _ _ _ E2).
    pose proof (blocks_made _ _ _ _ _ _ Eb Hb) as Hm. unfold made in Hm. cbn [fst snd] in Hm. rewrite Hm, Eh. unfold calls_of at 1. cbn. by rewrite app_nil_r.
Qed.
Lemma messages_made omit messages h h' :
  history_messages unicode_lower omit messages h = Ok h' -> Forall (fun b => block_type b <> "compaction") (input_blocks messages) ->
  calls_in (hs_out h') = calls_in (hs_out h) ++ (input_blocks messages ≫= block_calls).
Proof.
  revert h. induction messages as [|message messages IH]; intros h; cbn [history_messages]; [intros [= <-] _; by rewrite app_nil_r|].
  destruct message as [| | | | | | |message]; try done. destruct (history_message _ _ _ _) as [h1|] eqn:E; [|done]. cbn [rbind].
  unfold input_blocks. rewrite bind_cons. intros E2 [Hb1 Hb2]%Forall_app. rewrite (IH _ E2 Hb2), (message_made _ _ _ _ E Hb1), bind_app. by rewrite app_assoc.
Qed.
Lemma rebuild_made messages omit out :
  rebuild unicode_lower messages omit = Ok out -> Forall (fun b => block_type b <> "compaction") (input_blocks messages) ->
  calls_in out = input_blocks messages ≫= block_calls.
Proof.
  unfold rebuild. destruct (history_messages _ _ _ _) as [h|] eqn:E; [|done]. cbn [rbind]. destruct (unfinished h); [done|].
  destruct (flushUnansweredCallerCalls ∅ h) as [h'|] eqn:Ef; [|done]. intros [= <-] Hb. rewrite (flush_made _ _ _ _ Ef).
  by rewrite (messages_made _ _ _ _ E Hb).
Qed.

(** The whole rebuild: every call is answered at the end. *)
Lemma rebuild_paired messages omit out :
  rebuild unicode_lower messages omit = Ok out ->
  exists h, hs_out h = out /\ paired h [] /\ forall id, is_Some (hs_names h !! id) -> id ∈ hs_resolved h.
Proof.
  unfold rebuild. destruct (history_messages _ _ _ _) as [h|] eqn:E; [|done]. cbn [rbind]. destruct (unfinished h) eqn:Hu; [done|].
  apply messages_paired in E; [|apply paired_empty]. destruct (flushUnansweredCallerCalls ∅ h) as [h'|] eqn:Ef; [|done]. intros [= <-].
  destruct (flush_spec _ _ _ E Ef) as (Hp & E1 & E2 & Hsub & Hall). exists h'. split_and!; [done|done|]. intros id. rewrite E1. intros Hid.
  destruct (Hall id Hid) as [?|[Hs|?]]; [done| |set_solver]. destruct (decide (id ∈ hs_resolved h)) as [Hin|Hout]; [by apply Hsub|].
  exfalso. enough (unfinished h = true) by congruence. unfold unfinished. apply existsb_exists. exists id. split.
  - destruct Hid as [name Hn]. apply list_elem_of_In, list_elem_of_fmap. exists (id, name). split; [done|]. by apply elem_of_map_to_list.
  - by rewrite (bool_decide_eq_false_2 _ Hout), (bool_decide_eq_true_2 _ Hs).
Qed.
End props.

(** C21 A rebuilt conversation is well typed: the bytes returned encode its messages in
    order, and in the JSON of these the identifiers of the tool calls are distinct,
    every call has exactly one result under its own name, which is alone in a tool
    message that carries its identifier and follows the call; whatever the client
    left out, duplicated or interrupted.  The calls are those of the request, in its
    order, unless it holds a compaction block, which drops what came before it. *)
Theorem history_tools_paired `{JSON} (unicode_lower : string -> string) (messages : list any) (omitLastText : bool) (encoded : list bytes) :
  structuredHistory unicode_lower messages omitLastText = Ok encoded ->
  exists out, rebuild unicode_lower messages omitLastText = Ok out /\
    let values := message_json <$> out in
    Forall2 (fun v b => json_marshal v = Some b) values encoded /\
    NoDup (json_calls values).*1 /\ json_results values ≡ₚ json_calls values /\ json_placed [] values /\
    (Forall (fun b => block_type b <> "compaction") (input_blocks messages) -> json_calls values = input_blocks messages ≫= block_calls).
Proof.
  unfold structuredHistory. destruct (rebuild _ _ _) as [out|] eqn:E; [|done]. intros [= <-]. exists out. split; [done|].
  pose proof (rebuild_made unicode_lower messages omitLastText out E) as Hmade.
  destruct (rebuild_paired unicode_lower messages omitLastText out E) as (h & <- & [G1 G2 G3 G4 G5 G6 G7 G8 G9] & Hall).
  destruct (json_messages (hs_out h) [] G9) as (-> & -> & Hplaced). rewrite app_nil_r in *. split_and!; [|done| |by apply Hplaced|done].
  - clear -G8. induction G8 as [|m ms [b Hb] _ IH]; [constructor|]. cbn. rewrite Hb. by constructor.
  - apply NoDup_Permutation; [by apply NoDup_fmap_1 in G5|by apply NoDup_fmap_1 in G3|]. intros [id name]. split; [apply G6|]. intros Hin.
    assert (hs_names h !! id = Some name) as Hid by (by apply G1).
    assert (id ∈ (results_in (hs_out h)).*1) as Hr by (apply G4, Hall; by eexists).
    apply list_elem_of_fmap in Hr as ([id' name'] & E' & Hr). cbn in E'. subst id'.
    pose proof (G6 _ Hr) as Hc. assert (hs_names h !! id = Some name') as Hid' by (by apply G1). congruence.
Qed.

(** ** A concrete conversation: one call answered, one left open *)
#[local] Instance sample_json : JSON := table_json AnyNil.
Definition sample_call (id name : string) : any :=
  AnyMap [("type", AnyString "tool_use"); ("id", AnyString id); ("name", AnyString name); ("input", AnyMap [])].
Definition sample_messages : list any :=
  [AnyMap [("role", AnyString "user"); ("content", AnyString "hi")];
   AnyMap [("role", AnyString "assistant"); ("content", AnyList [sample_call "c1" "weather"; sample_call "c2" "news"])];
   AnyMap [("role", AnyString "user");
           ("content", AnyList [AnyMap [("type", AnyString "tool_result"); ("tool_use_id", AnyString "c1"); ("content", AnyString "sunny")];
                                AnyMap [("type", AnyString "text"); ("text", AnyString "thanks")]])]].
Definition unlowered (s : string) : string := s.
Definition sample_encoded : list bytes := match structuredHistory unlowered sample_messages false with Ok encoded => encoded | Fail _ => [] end.
Lemma sample_rebuilds : structuredHistory unlowered sample_messages false = Ok sample_encoded.
Proof.
  unfold sample_encoded. assert (is_ok (structuredHistory unlowered sample_messages false) = true) as E by (vm_compute; reflexivity).
  by destruct (structuredHistory _ _ _).
Qed.
Lemma history_tools_paired_witness :
  length sample_encoded = 5%nat /\
  exists out, rebuild unlowered sample_messages false = Ok out /\
    Permutation (json_results (message_json <$> out)) [("c1", "weather"); ("c2", "news")].
Proof.
  split; [vm_compute; reflexivity|].
  destruct (history_tools_paired unlowered sample_messages false sample_encoded sample_rebuilds) as (out & E & _ & _ & Hp & _ & Hc).
  exists out. split; [exact E|]. rewrite Hp, Hc; [reflexivity|].
  apply Forall_forall. intros b Hb. apply list_elem_of_In in Hb. vm_compute in Hb. decompose [or] Hb; subst; try contradiction; vm_compute; discriminate.
Defined.
