(* ===== verification/Translate.v ===== *)
(** * Translating a request into a turn (src/cursoragentv1/translate.go, full_history.go)

    A request of any format becomes a Messages body and then a managed request: the
    active user text and tool results, the caller's tools and the policy on them, the
    hosted tools, the history.  The SDK translates the formats, a parameter. *)
From stdpp Require Import base tactics list gmap strings sorting.
From Stdlib Require Import Strings.Byte.
From S2P Require Import Prelude GoStrings Sha256 JsonValue Connect Data HostedPolicy Segment StoreState Manager Media HostedSearch Projection History.
Open Scope Z_scope.

Local Notation "x <-? m ;; k" := (rbind m (fun x => k)) (at level 100, m at next level, right associativity).
Definition bad_request (text : string) : Err := ErrRequest 400 text.
Definition claudeCodeNoVisibleOutputRecovery : string :=
  "[Your previous response had no visible output. Please continue and produce a user-visible response.]".
Definition continueTurnUserText : string := ".".

(** ** Strings *)
Fixpoint contains_bytes (l p : bytes) : bool :=
  match strip_prefix p l with Some _ => true | None => match l with [] => false | _ :: l => contains_bytes l p end end.
Definition Contains (s p : string) : bool := contains_bytes (to_bytes s) (to_bytes p).
Definition digit (b : byte) : option Z := let z := byteZ b - 48 in if (0 <=? z) && (z <=? 9) then Some z else None.
Fixpoint digits (n : Z) (l : bytes) : option Z := match l with [] => Some n | b :: l => d ← digit b; digits (n * 10 + d) l end.
(** [strconv.Atoi]: an optional sign and decimal digits, in the range of an [int]. *)
Definition Atoi (s : string) : option Z :=
  let unsigned l := match l with [] => None | _ => digits 0 l end in
  z ← match to_bytes s with
      | x2d :: l => n ← unsigned l; Some (- n)
      | x2b :: l => unsigned l
      | l => unsigned l
      end;
  if (min_i64 <=? z) && (z <=? max_i64) then Some z else None.
Definition blank (s : string) : bool := bool_decide (TrimSpace s = "").
Definition paragraphs (parts : list string) : string := Join parts (newline +:+ newline).

(** ** Scopes and metadata *)
Definition scope_id (position : nat) (label credentialScope : string) : Z :=
  let parts := Split (TrimSpace credentialScope) x3a in
  if negb (bool_decide (length parts = 6%nat)) || negb (bool_decide (parts !! position = Some label)) then 0
  else match Atoi (default "" (parts !! S position)) with Some id => if id <=? 0 then 0 else id | None => 0 end.
Definition routeChannelID : string -> Z := scope_id 4 "channel".
Definition routeUserID : string -> Z := scope_id 2 "user".

(** ** Text of a request *)
Definition system_part (raw : any) : option string :=
  match raw with
  | AnyString text => if blank text then None else Some text
  | AnyMap block => if bool_decide (stringValue (map_get block "type") = "text") then Some (stringValue (map_get block "text")) else None
  | _ => None
  end.
Definition systemText (value : any) : string :=
  match value with AnyString text => text | AnyList blocks => paragraphs (omap system_part blocks) | _ => "" end.
Definition trailing_part (raw : any) : option string :=
  match raw with
  | AnyMap block =>
      if bool_decide (stringValue (map_get block "type") = "text") then
        match map_get block "text" with AnyString text => if blank text then None else Some text | _ => None end
      else None
  | _ => None
  end.
Definition lenientTrailingSystemText (value : any) : string :=
  match value with AnyString text => text | AnyList blocks => paragraphs (omap trailing_part blocks) | _ => "" end.
Definition isClaudeCodeSystem (value : any) : bool :=
  let text := TrimSpace (systemText value) in
  if HasPrefix text "You are Claude Code" then true
  else if negb (Contains text "x-anthropic-billing-header: cc_version=") then false
  else Contains text "cc_entrypoint=sdk-cli;" || Contains text "cc_entrypoint=cli;".
Definition isClaudeCodeToolRecoveryText (text : string) : bool := bool_decide (TrimSpace text = claudeCodeNoVisibleOutputRecovery).
Definition role_of (raw : any) : option string := match raw with AnyMap message => Some (stringValue (map_get message "role")) | _ => None end.
Definition is_context (raw : any) : bool := bool_decide (role_of raw = Some "system") || bool_decide (role_of raw = Some "developer").
(** Trailing system messages are taken off as one text. *)
Fixpoint take_context (reversed : list any) : list any * list any :=
  match reversed with
  | raw :: rest => if is_context raw then let '(context, rest) := take_context rest in (raw :: context, rest) else ([], reversed)
  | [] => ([], [])
  end.
Definition context_text (raw : any) : option string :=
  match raw with
  | AnyMap message => let text := lenientTrailingSystemText (map_get message "content") in if blank text then None else Some text
  | _ => None
  end.
Definition normalizeTrailingContext (messages : list any) : result (list any * string) :=
  let '(context, kept) := take_context (reverse messages) in
  match context, kept with
  | [], _ => Ok (messages, "")
  | _, [] => Fail (bad_request "Cursor Agent v1 Claude Code context is missing its user message")
  | _, active :: _ =>
      match role_of active with
      | None => Fail (bad_request "Cursor Agent v1 Claude Code context is missing its user message")
      | Some role =>
          if bool_decide (role = "user") || bool_decide (role = "assistant") then Ok (reverse kept, paragraphs (omap context_text (reverse context)))
          else Fail (bad_request "Cursor Agent v1 Claude Code context must follow a user message")
      end
  end.

Section translate.
Context `{JSON} (unicode_lower : string -> string).
Local Notation lower := (lower unicode_lower).
(** The value as a keyword. *)
Definition keyword (v : any) : string := lower (TrimSpace (stringValue v)).
Definition claudeThinkingEnabled (value : any) : bool :=
  match value with
  | AnyMap thinking => let kind := lower (stringValue (map_get thinking "type")) in bool_decide (kind = "enabled") || bool_decide (kind = "adaptive")
  | _ => false
  end.

(** ** The active user turn *)
Record activeUserContent := { au_Text : string; au_Results : list ToolResult; au_Media : list MediaPart }.
(** The texts and media of a tool result's blocks; unknown blocks are skipped. *)
Fixpoint result_blocks (blocks : list any) : result (list string * list MediaPart) :=
  match blocks with
  | [] => Ok ([], [])
  | AnyMap part :: blocks =>
      converted <-? parseAnthropicContentBlock unicode_lower part ;;
      rest <-? result_blocks blocks ;;
      let '(texts, media) := rest in
      match converted with
      | None => Ok (texts, media)
      | Some parts =>
          let '(text, found) := splitContentParts parts in
          Ok (if bool_decide (text = "") then texts else text :: texts, found ++ media)
      end
  | _ :: blocks => result_blocks blocks
  end.
Definition parseActiveToolResult (id : string) (block : object) : result ToolResult :=
  let make content media := {| tr_ToolCallID := id; tr_Content := content; tr_IsError := boolValue (map_get block "is_error"); tr_Media := media |} in
  match map_get block "content" with
  | AnyString content => Ok (make content [])
  | AnyList blocks => r <-? result_blocks blocks ;; Ok (make (Join r.1 newline) r.2)
  | _ => Ok (make "" [])
  end.
Fixpoint active_blocks (blocks : list any) : result (list string * list ToolResult * list MediaPart) :=
  match blocks with
  | [] => Ok ([], [], [])
  | AnyMap block :: blocks =>
      let type := stringValue (map_get block "type") in
      if bool_decide (type = "text") then
        rest <-? active_blocks blocks ;;
        let '(texts, results, media) := rest in
        let text := stringValue (map_get block "text") in
        Ok (if bool_decide (text = "") then texts else text :: texts, results, media)
      else if bool_decide (type = "tool_result") then
        let id := stringValue (map_get block "tool_use_id") in
        if bool_decide (id = "") then Fail (unprocessable "Cursor Agent v1 tool_result is missing tool_use_id")
        else
          r <-? parseActiveToolResult id block ;;
          rest <-? active_blocks blocks ;;
          let '(texts, results, media) := rest in Ok (texts, r :: results, media)
      else if bool_decide (type = "image") || bool_decide (type = "document") || bool_decide (type = "search_result") then
        converted <-? parseAnthropicContentBlock unicode_lower block ;;
        rest <-? active_blocks blocks ;;
        let '(texts, results, media) := rest in
        let '(text, found) := splitContentParts (default [] converted) in
        Ok (if bool_decide (text = "") then texts else text :: texts, results, found ++ media)
      else active_blocks blocks
  | _ :: blocks => active_blocks blocks
  end.
Definition parseActiveUserTurn (content : any) : result activeUserContent :=
  match content with
  | AnyString text => Ok {| au_Text := text; au_Results := []; au_Media := [] |}
  | AnyList blocks =>
      r <-? active_blocks blocks ;;
      let '(texts, results, media) := r in Ok {| au_Text := Join texts newline; au_Results := results; au_Media := media |}
  | _ => Fail (bad_request "Cursor Agent v1 user content is invalid")
  end.
Definition parseActiveUserContent (content : any) : result (string * list ToolResult) :=
  active <-? parseActiveUserTurn content ;; Ok (au_Text active, au_Results active).
(** The last message, or its text with the results of the user message before it. *)
Definition parseLiveToolContinuation (messages : list any) : result (string * list ToolResult) :=
  match reverse messages with
  | [] => Ok ("", [])
  | last :: before =>
      r <-? parseActiveUserContent (match last with AnyMap message => map_get message "content" | _ => AnyNil end) ;;
      let '(userText, results) := r in
      if negb (bool_decide (results = [])) || blank userText then Ok (userText, results)
      else
        match before with
        | AnyMap previous :: _ =>
            if bool_decide (stringValue (map_get previous "role") = "user")
            then r <-? parseActiveUserContent (map_get previous "content") ;; Ok (userText, r.2)
            else Ok (userText, results)
        | _ => Ok (userText, results)
        end
  end.

(** ** Text-event history *)
Definition tool_event (fields : object) (err : string) : result any :=
  match json_marshal (AnyMap fields) with
  | None => Fail (unprocessable err)
  | Some event => Ok (history_text_part ("BEEFAPI_TOOL_EVENT " +:+ of_bytes event))
  end.
Definition normalizedHistoryToolResultContent (content : any) : result any := r <-? normalizedHistoryToolResultParts unicode_lower content ;; Ok r.1.
(** The blocks that stand for one block. *)
Definition normalize_block (block : object) : result (list any) :=
  let type := stringValue (map_get block "type") in
  if bool_decide (type = "tool_use") then
    let id := stringValue (map_get block "id") in
    let name := stringValue (map_get block "name") in
    if bool_decide (id = "") || bool_decide (name = "") then Fail (unprocessable "Cursor Agent v1 historical tool_use is invalid")
    else
      match map_get block "input" with
      | AnyNil | AnyMap _ =>
          let input := match map_get block "input" with AnyNil => AnyMap [] | v => v end in
          e <-? tool_event [("type", AnyString "tool_use"); ("id", AnyString id); ("name", AnyString name); ("input", input)]
                  "Cursor Agent v1 historical tool_use input is invalid" ;; Ok [e]
      | _ => Fail (unprocessable "Cursor Agent v1 historical tool_use input must be an object")
      end
  else if bool_decide (type = "tool_result") then
    let id := stringValue (map_get block "tool_use_id") in
    if bool_decide (id = "") then Fail (unprocessable "Cursor Agent v1 historical tool_result is invalid")
    else
      content <-? normalizedHistoryToolResultContent (map_get block "content") ;;
      isError <-? match map_find block "is_error" with
                  | None => Ok false
                  | Some (AnyBool isError) => Ok isError
                  | Some _ => Fail (unprocessable "Cursor Agent v1 historical tool_result is_error must be a boolean")
                  end ;;
      e <-? tool_event [("type", AnyString "tool_result"); ("tool_use_id", AnyString id); ("is_error", AnyBool isError); ("content", content)]
              "Cursor Agent v1 historical tool_result content is invalid" ;; Ok [e]
  else if bool_decide (type = "image") || bool_decide (type = "document") || bool_decide (type = "search_result") then
    converted <-? parseAnthropicContentBlock unicode_lower block ;; Ok (historyContentParts (default [] converted))
  else if bool_decide (type = "thinking") || bool_decide (type = "redacted_thinking") then Ok []
  else Ok [AnyMap block].
Fixpoint normalize_blocks (blocks : list any) : result (list any) :=
  match blocks with
  | [] => Ok []
  | raw :: blocks =>
      head <-? match raw with AnyMap block => normalize_block block | _ => Ok [raw] end ;;
      rest <-? normalize_blocks blocks ;; Ok (head ++ rest)
  end.
Definition normalizeHistoryMessage (value : any) : result object :=
  match value with
  | AnyMap message =>
      match map_get message "content" with
      | AnyList blocks => normalized <-? normalize_blocks blocks ;; Ok (map_set message "content" (AnyList normalized))
      | _ => Ok message
      end
  | _ => Fail (bad_request "Cursor Agent v1 history is invalid")
  end.
Definition is_tool_result (raw : any) : bool :=
  match raw with AnyMap block => bool_decide (stringValue (map_get block "type") = "tool_result") | _ => false end.
Definition toolResultHistoryMessage (last : object) (results : list ToolResult) : option object :=
  if bool_decide (results = []) then None
  else
    match map_get last "content" with
    | AnyList blocks =>
        match List.filter is_tool_result blocks with
        | [] => None
        | filtered => match normalizeHistoryMessage (AnyMap (map_set last "content" (AnyList filtered))) with Ok message => Some message | Fail _ => None end
        end
    | _ => None
    end.
Fixpoint encode_history (messages : list any) : result (list bytes) :=
  match messages with
  | [] => Ok []
  | message :: messages =>
      normalized <-? normalizeHistoryMessage message ;;
      match json_marshal (AnyMap normalized) with
      | None => Fail (bad_request "Cursor Agent v1 history is invalid")
      | Some encoded => rest <-? encode_history messages ;; Ok (encoded :: rest)
      end
  end.
End translate.
