(* ===== verification/TranslateRequest.v ===== *)
(** * From a request to a managed request (src/cursoragentv1/translate.go, full_history.go)

    The second half of the translation: the caller's tools and the policy on them,
    the hosted tools of every format, the identity of a full-history request, and
    [translateExecutionRequest], which puts the parts together.  The SDK's format
    translator and names, [encoding/json] decoding into a struct and [fmt.Sprint]
    are parameters. *)
From stdpp Require Import base tactics list gmap strings sorting.
From Stdlib Require Import Strings.Byte.
From S2P Require Import Prelude GoStrings Sha256 JsonValue Connect Data HostedPolicy Segment StoreState Manager Media HostedSearch Projection History Translate.
Open Scope Z_scope.

Local Notation "x <-? m ;; k" := (rbind m (fun x => k)) (at level 100, m at next level, right associativity).

(** ** The executor's request (cliproxyexecutor.Request and Options) *)
Record Request := { rq_Model : string; rq_Payload : bytes; rq_Format : Format; rq_Metadata : object }.
(** [op_Header]: [Headers.Get]; [op_Format]: what [ResponseFormatOrSource] finds. *)
Record Options := { op_Metadata : object; op_Header : string -> string; op_OriginalRequest : bytes; op_Format : Format }.
Definition headerMeteringMode : string := "X-CPA-Runtime-Cursor-Agent-V1-Metering".
(** The SDK: [TranslateRequest] from a format to Messages, the text of a format, two
    metadata keys; [fmt.Sprint] of a value that is not a string; and the
    [previous_response_id] of a payload decoded into a struct. *)
Class SDK := {
  TranslateRequest : Format -> string -> bytes -> bytes;
  format_name : Format -> string;
  ExecutionSessionMetadataKey : string;
  RequestedModelMetadataKey : string;
  sprint : any -> string;
  decode_previous_response_id : bytes -> option string }.

Section request.
Context `{JSON} `{Digest} `{SDK} (unicode_lower : string -> string) (overflowed : Z).
Local Notation keyword := (keyword unicode_lower).

Definition metadataString (metadata : object) (key : string) : string :=
  match map_get metadata key with AnyNil => "" | AnyString s => TrimSpace s | v => TrimSpace (sprint v) end.
Definition responsesRequiresExisting (req : Request) : bool :=
  bool_decide (rq_Format req = FormatOpenAIResponse) &&
  match decode_previous_response_id (rq_Payload req) with Some id => negb (blank id) | None => false end.
(** Writing to the nil map a JSON [null] leaves panics in Go. *)
Definition requestWithModel (payload : bytes) (model : string) : result bytes :=
  if bool_decide (payload = []) || blank model then Ok payload
  else
    match json_unmarshal payload with
    | Some (AnyMap root) =>
        match json_marshal (AnyMap (map_set root "model" (AnyString (TrimSpace model)))) with Some encoded => Ok encoded | None => Fail errEncode end
    | Some AnyNil => Fail (ErrMsg "panic: assignment to entry in nil map")
    | _ => Fail (bad_request "Cursor Agent v1 original request is invalid")
    end.

(** ** Hosted tools *)
Definition no_hosted : hostedRunPolicy :=
  {| hp_AllowSearch := false; hp_AllowFetch := false; hp_RequireSearch := false; hp_RequireFetch := false; hp_RequireAny := false;
     hp_SearchMaxUses := None; hp_FetchMaxUses := None; hp_SearchDomains := no_domains; hp_FetchDomains := no_domains |}.
(** [hosted.AllowSearch = search], [hosted.AllowFetch = fetch] where set. *)
Definition allow_hosted (search fetch : bool) (p : hostedRunPolicy) : hostedRunPolicy :=
  {| hp_AllowSearch := hp_AllowSearch p || search; hp_AllowFetch := hp_AllowFetch p || fetch; hp_RequireSearch := hp_RequireSearch p;
     hp_RequireFetch := hp_RequireFetch p; hp_RequireAny := hp_RequireAny p; hp_SearchMaxUses := hp_SearchMaxUses p;
     hp_FetchMaxUses := hp_FetchMaxUses p; hp_SearchDomains := hp_SearchDomains p; hp_FetchDomains := hp_FetchDomains p |}.
(** What the declared server tools add. *)
Definition add_declared (p server : hostedRunPolicy) : hostedRunPolicy :=
  let override (next current : option Z) := match next with Some _ => next | None => current end in
  {| hp_AllowSearch := hp_AllowSearch p || hp_AllowSearch server; hp_AllowFetch := hp_AllowFetch p || hp_AllowFetch server;
     hp_RequireSearch := hp_RequireSearch p || hp_RequireSearch server; hp_RequireFetch := hp_RequireFetch p || hp_RequireFetch server;
     hp_RequireAny := hp_RequireAny p || hp_RequireAny server;
     hp_SearchMaxUses := override (hp_SearchMaxUses server) (hp_SearchMaxUses p);
     hp_FetchMaxUses := override (hp_FetchMaxUses server) (hp_FetchMaxUses p);
     hp_SearchDomains := merge_domains (hp_SearchDomains p) (hp_SearchDomains server);
     hp_FetchDomains := merge_domains (hp_FetchDomains p) (hp_FetchDomains server) |}.

(** *** Claude Code's own fetch tool becomes the hosted one *)
Definition is_web_fetch (raw : any) : bool :=
  match raw with
  | AnyMap tool => bool_decide (knownServerWebKind (keyword (map_get tool "type")) = "") && bool_decide (keyword (map_get tool "name") = "webfetch")
  | _ => false
  end.
Definition normalizeClaudeCodeNativeSearchTools (value : any) : any * bool :=
  match value with
  | AnyList tools => (AnyList (List.filter (fun raw => negb (is_web_fetch raw)) tools), existsb is_web_fetch tools)
  | _ => (value, false)
  end.

(** *** Web search of the Responses format *)
Definition choice_mode (root : object) : string :=
  match map_get root "tool_choice" with
  | AnyNil => "auto"
  | AnyString _ as typed => keyword typed
  | AnyMap typed => keyword (map_get typed "type")
  | _ => "invalid"
  end.
Definition names_caller (mode : string) : bool := bool_decide (mode = "function") || bool_decide (mode = "custom") || bool_decide (mode = "tool").
Definition is_optional (mode : string) : bool := bool_decide (mode = "") || bool_decide (mode = "auto") || names_caller mode.
Definition requires_hosted (mode : string) : bool :=
  bool_decide (mode = "required") || bool_decide (mode = "web_search") || bool_decide (mode = "web_search_preview").
Definition is_web_search (type : string) : bool := bool_decide (type = "web_search") || bool_decide (type = "web_search_preview").
(** The fields of a search tool; its filters add to the allowed domains. *)
Fixpoint search_fields (entries : object) (domains : hostedDomainPolicy) : result hostedDomainPolicy :=
  match entries with
  | [] => Ok domains
  | (key, value) :: entries =>
      if bool_decide (key ∈ ["type"; "external_web_access"; "user_location"; "search_context_size"]) then search_fields entries domains
      else if bool_decide (key = "filters") then
        match value with
        | AnyMap filters =>
            match domainListFromJSON (map_get filters "allowed_domains") with
            | Some allowed => search_fields entries (merge_domains domains {| dp_Allowed := allowed; dp_Blocked := [] |})
            | None => Fail (unprocessable "Cursor Agent v1 native web_search filters.allowed_domains must be a list of domains")
            end
        | _ => Fail (unprocessable "Cursor Agent v1 native web_search filters.allowed_domains must be a list of domains")
        end
      else Fail (unprocessable ("Cursor Agent v1 native web_search cannot faithfully apply " +:+ key))
  end.
(** The tools kept, the domains, whether search is allowed and whether it was declared. *)
Record responsesTools := { rt_filtered : list any; rt_domains : hostedDomainPolicy; rt_allow : bool; rt_saw : bool }.
Definition keep_tool (raw : any) (s : responsesTools) : responsesTools :=
  {| rt_filtered := rt_filtered s ++ [raw]; rt_domains := rt_domains s; rt_allow := rt_allow s; rt_saw := rt_saw s |}.
Definition search_tool (mode : string) (allowRequiredHosted : bool) (tool : object) (s : responsesTools) : result responsesTools :=
  let seen domains allow := {| rt_filtered := rt_filtered s; rt_domains := domains; rt_allow := allow; rt_saw := true |} in
  let disabled := bool_decide (mode = "none") in
  if requires_hosted mode && negb allowRequiredHosted then Fail (unprocessable "Cursor Agent v1 required web_search is unsupported")
  else
    domains <-? search_fields tool (rt_domains s) ;;
    if negb (is_optional mode) && negb disabled && negb (requires_hosted mode)
    then Fail (unprocessable "Cursor Agent v1 required web_search is unsupported")
    else if disabled || names_caller mode then Ok (seen domains (rt_allow s))
    else
      match map_find tool "external_web_access" with
      | None | Some (AnyBool true) => Ok (seen domains true)
      | Some (AnyBool false) =>
          if requires_hosted mode then Fail (unprocessable "Cursor Agent v1 required web_search needs external_web_access=true")
          else Ok (seen domains (rt_allow s))
      | Some _ => Fail (bad_request "Cursor Agent v1 web_search.external_web_access must be a boolean")
      end.
Definition responses_tool (mode : string) (allowRequiredHosted : bool) (raw : any) (s : responsesTools) : result responsesTools :=
  match raw with
  | AnyMap tool =>
      let type := keyword (map_get tool "type") in
      if bool_decide (type = "x_search") then
        if is_optional mode || bool_decide (mode = "none") then Ok s
        else Fail (unprocessable "Cursor Agent v1 required x_search must use a Grok/xAI channel")
      else if is_web_search type then search_tool mode allowRequiredHosted tool s
      else Ok (keep_tool raw s)
  | _ => Ok (keep_tool raw s)
  end.
Fixpoint responses_tools (mode : string) (allowRequiredHosted : bool) (tools : list any) (s : responsesTools) : result responsesTools :=
  match tools with
  | [] => Ok s
  | raw :: tools => s <-? responses_tool mode allowRequiredHosted raw s ;; responses_tools mode allowRequiredHosted tools s
  end.
Definition no_tools : responsesTools := {| rt_filtered := []; rt_domains := no_domains; rt_allow := false; rt_saw := false |}.
(** The root with its tools filtered, and the hosted policy they ask for. *)
Definition responses_hosted (allowRequiredHosted : bool) (root : object) : result (object * hostedRunPolicy) :=
  let mode := choice_mode root in
  match map_get root "tools" with
  | AnyList tools =>
      s <-? responses_tools mode allowRequiredHosted tools no_tools ;;
      let root := map_set root "tools" (AnyList (rt_filtered s)) in
      let hosted require :=
        {| hp_AllowSearch := rt_allow s; hp_AllowFetch := false; hp_RequireSearch := require; hp_RequireFetch := false; hp_RequireAny := false;
           hp_SearchMaxUses := None; hp_FetchMaxUses := None; hp_SearchDomains := rt_domains s; hp_FetchDomains := no_domains |} in
      if requires_hosted mode && rt_saw s then
        if negb (rt_allow s) || negb (bool_decide (rt_filtered s = []))
        then Fail (unprocessable "Cursor Agent v1 required web_search needs a hosted-search-only request")
        else Ok (map_set root "tool_choice" (AnyString "auto"), hosted true)
      else Ok (root, hosted false)
  | _ => Ok (root, no_hosted)
  end.
Definition user_input (text : string) : any :=
  AnyList [AnyMap [("type", AnyString "message"); ("role", AnyString "user");
                   ("content", AnyList [AnyMap [("type", AnyString "input_text"); ("text", AnyString text)]])]].
Definition normalizeAgentV1ResponsesRequest (payload : bytes) (allowRequiredHosted : bool) : result (bytes * hostedRunPolicy) :=
  match json_unmarshal payload with
  | Some (AnyMap root) =>
      r <-? responses_hosted allowRequiredHosted root ;;
      let '(root, hosted) := r in
      let root := match map_get root "input" with AnyString text => map_set root "input" (user_input text) | _ => root end in
      match json_marshal (AnyMap root) with Some encoded => Ok (encoded, hosted) | None => Fail errEncode end
  | Some AnyNil => match json_marshal AnyNil with Some encoded => Ok (encoded, no_hosted) | None => Fail errEncode end
  | _ => Ok (payload, no_hosted)
  end.

(** *** Search of the chat format *)
Definition chatHostedSearchPolicy (payload : bytes) : result bool :=
  match unmarshal_map payload with
  | None => Ok false
  | Some root =>
      match map_get root "web_search_options" with
      | AnyNil => Ok false
      | AnyMap _ => Ok true
      | _ => Fail (bad_request "Cursor Agent v1 web_search_options must be an object")
      end
  end.

(** ** The caller's tools *)
Record callerToolPolicy := { cp_none : bool; cp_required : bool; cp_name : string; cp_maxParallel : Z }.
Definition caller_policy (none required : bool) (name : string) (parallel : Z) : callerToolPolicy :=
  {| cp_none := none; cp_required := required; cp_name := name; cp_maxParallel := parallel |}.
Definition requires_tool (mode : string) : bool := requires_hosted mode || bool_decide (mode = "any").
Definition choice_name (choice : object) : string :=
  let name := stringValue (map_get choice "name") in
  if bool_decide (name = "") then match map_get choice "function" with AnyMap function => stringValue (map_get function "name") | _ => "" end
  else name.
Definition parseCallerToolPolicy (req : Request) : result callerToolPolicy :=
  match unmarshal_map (rq_Payload req) with
  | None => Fail (bad_request "Cursor Agent v1 tool policy is invalid")
  | Some root =>
      let parallel := match map_get root "parallel_tool_calls" with AnyBool false => 1 | _ => 0 end in
      match map_get root "tool_choice" with
      | AnyNil => Ok (caller_policy false false "" parallel)
      | AnyString _ as value =>
          let mode := keyword value in
          if bool_decide (mode = "") || bool_decide (mode = "auto") then Ok (caller_policy false false "" parallel)
          else if bool_decide (mode = "none") then Ok (caller_policy true false "" parallel)
          else if requires_tool mode then Ok (caller_policy false true "" parallel)
          else Fail (unprocessable "Cursor Agent v1 tool_choice is unsupported")
      | AnyMap choice =>
          let parallel := match map_get choice "disable_parallel_tool_use" with AnyBool true => 1 | _ => parallel end in
          let mode := keyword (map_get choice "type") in
          if bool_decide (mode = "") || bool_decide (mode = "auto") then Ok (caller_policy false false "" parallel)
          else if bool_decide (mode = "none") then Ok (caller_policy true false "" parallel)
          else if requires_tool mode then Ok (caller_policy false true "" parallel)
          else if names_caller mode then
            if bool_decide (choice_name choice = "") then Fail (unprocessable "Cursor Agent v1 named tool_choice is missing its name")
            else Ok (caller_policy false true (choice_name choice) parallel)
          else Fail (unprocessable "Cursor Agent v1 tool_choice type is unsupported")
      | _ => Fail (unprocessable "Cursor Agent v1 tool_choice is invalid")
      end
  end.
(** The declared tools: the caller's and the hosted ones. *)
Fixpoint declared_tools (tools : list any) : result (list ToolDefinition * list hostedDeclaredTool) :=
  match tools with
  | [] => Ok ([], [])
  | AnyMap tool :: tools =>
      let kind := knownServerWebKind (keyword (map_get tool "type")) in
      if negb (bool_decide (kind = "")) then
        declared <-? parseHostedDeclaredTool overflowed tool kind ;;
        rest <-? declared_tools tools ;; Ok (rest.1, declared :: rest.2)
      else if bool_decide (stringValue (map_get tool "name") = "")
      then Fail (unprocessable "Cursor Agent v1 supports caller function tools only")
      else
        match json_marshal (map_get tool "input_schema") with
        | None => Fail (bad_request "Cursor Agent v1 tool input schema is invalid")
        | Some schema =>
            rest <-? declared_tools tools ;;
            Ok ({| td_Name := stringValue (map_get tool "name"); td_Description := stringValue (map_get tool "description"); td_InputSchema := schema |} :: rest.1, rest.2)
        end
  | _ :: _ => Fail (unprocessable "Cursor Agent v1 supports caller function tools only")
  end.
(** The schema of a tool decoded into an object and encoded again. *)
Definition canonical_schema (schema : bytes) : option bytes :=
  match json_unmarshal schema with Some (AnyMap object) => json_marshal (AnyMap object) | _ => None end.
Definition catalog (tools : list ToolDefinition) : result (list ToolDefinition) :=
  match normalizeToolDefinitions canonical_schema tools with
  | Ok normalized => Ok normalized
  | Fail (ErrMsg text) => Fail (unprocessable text)
  | Fail e => Fail e
  end.
(** The tools the choice leaves ([None] is a nil slice), the hosted ones, and whether
    one of those must be used. *)
Definition select_tools (policy : callerToolPolicy) (normalized : list ToolDefinition) (hostedTools : list hostedDeclaredTool)
    : result (option (list ToolDefinition) * list hostedDeclaredTool * bool) :=
  if negb (bool_decide (cp_name policy = "")) then
    match List.filter (fun tool => bool_decide (td_Name tool = cp_name policy)) normalized with
    | (_ :: _) as selected => Ok (Some selected, [], false)
    | [] =>
        match List.filter (fun tool => bool_decide (ht_Name tool = cp_name policy)) hostedTools with
        | [] => Fail (unprocessable "Cursor Agent v1 named tool_choice does not match a declared tool")
        | matched => Ok (None, matched, true)
        end
    end
  else if cp_required policy && bool_decide (normalized = []) then
    if bool_decide (hostedTools = []) then Fail (unprocessable "Cursor Agent v1 required tool_choice has no tools")
    else Ok (Some normalized, hostedTools, true)
  else Ok (Some normalized, hostedTools, false).
Definition tool_le (a b : ToolDefinition) : Prop := String.le (td_Name a) (td_Name b).
#[export] Instance tool_le_dec : RelDecision tool_le := fun a b => decide (String.le (td_Name a) (td_Name b)).
Definition catalog_json (t : ToolDefinition) : any :=
  AnyMap [("name", AnyString (td_Name t)); ("description", AnyString (td_Description t)); ("input_schema", AnyString (of_bytes (td_InputSchema t)))].
Definition catalog_digest (tools : list ToolDefinition) : string :=
  "sha256:" +:+ digest (of_bytes (default [] (json_marshal (AnyList (catalog_json <$> merge_sort tool_le tools))))).
Record parsedTools := { pt_Tools : option (list ToolDefinition); pt_Digest : string; pt_Hosted : hostedRunPolicy }.
Definition no_parsed : parsedTools := {| pt_Tools := None; pt_Digest := ""; pt_Hosted := no_hosted |}.
Definition is_capped (p : hostedRunPolicy) : bool :=
  bool_decide (is_Some (hp_SearchMaxUses p)) || bool_decide (is_Some (hp_FetchMaxUses p)).
Definition parseClaudeTools (value : any) (policy : callerToolPolicy) : result parsedTools :=
  if cp_none policy then Ok no_parsed
  else
    match value with
    | AnyNil => if cp_required policy then Fail (unprocessable "Cursor Agent v1 required tool_choice has no tools") else Ok no_parsed
    | AnyList list =>
        declared <-? declared_tools list ;;
        normalized <-? catalog declared.1 ;;
        selected <-? select_tools policy normalized declared.2 ;;
        let '(selected, hostedTools, requireHosted) := selected in
        let tools := default [] selected in
        let hosted := summarizeHostedPolicy hostedTools requireHosted in
        if negb (bool_decide (tools = [])) && (is_capped hosted || (cp_required policy && enabled hosted))
        then Fail (unprocessable "Cursor Agent v1 bounded or required hosted search needs a server-tool-only request")
        else if cp_required policy && bool_decide (tools = []) && negb (enabled hosted)
        then Fail (unprocessable "Cursor Agent v1 required tool_choice has no tools")
        else Ok {| pt_Tools := selected; pt_Digest := catalog_digest tools; pt_Hosted := hosted |}
    | _ => Fail (bad_request "Cursor Agent v1 tools must be an array")
    end.
End request.
