(* ===== verification/TranslateTurn.v ===== *)
(** * A translated turn (src/cursoragentv1/translate.go, full_history.go, executor.go)

    [translateExecutionRequest]: the stages of the translation in their order, each a
    definition of its own, and the managed request they make; the identity of a
    full-history request; the restart of a lost session from its transcript. *)
From stdpp Require Import base tactics list gmap strings sorting.
From Stdlib Require Import Strings.Byte.
From S2P Require Import Prelude GoStrings Sha256 JsonValue Connect Data HostedPolicy Segment StoreState Manager Media HostedSearch Projection History Translate TranslateRequest.
Open Scope Z_scope.

Local Notation "x <-? m ;; k" := (rbind m (fun x => k)) (at level 100, m at next level, right associativity).

(** ** JSON of Go values *)
Definition b64_std_char (n : Z) : byte :=
  let n := n mod 64 in
  Zbyte (if n <? 26 then n + 65 else if n <? 52 then n + 71 else if n <? 62 then n - 4 else if n =? 62 then 43 else 47).
Fixpoint b64_encode_bytes (l : bytes) : bytes :=
  match l with
  | a :: b :: c :: l =>
      let w := byteZ a * 65536 + byteZ b * 256 + byteZ c in
      (b64_std_char <$> [w / 262144; w / 4096; w / 64; w]) ++ b64_encode_bytes l
  | [a; b] => let w := byteZ a * 65536 + byteZ b * 256 in (b64_std_char <$> [w / 262144; w / 4096; w / 64]) ++ [x3d]
  | [a] => let w := byteZ a * 65536 in (b64_std_char <$> [w / 262144; w / 4096]) ++ [x3d; x3d]
  | [] => []
  end.
(** A [[]byte] is encoded in base64. *)
Definition bytes_json (l : bytes) : any := AnyString (of_bytes (b64_encode_bytes l)).
Definition optional_json {A} (f : A -> any) (v : option A) : any := match v with Some a => f a | None => AnyNil end.
Definition omit_empty (key : string) (values : list string) : object :=
  if bool_decide (values = []) then [] else [(key, AnyList (AnyString <$> values))].
Definition domains_json (p : hostedDomainPolicy) : any := AnyMap (omit_empty "allowed" (dp_Allowed p) ++ omit_empty "blocked" (dp_Blocked p)).
Definition media_json (m : MediaPart) : any :=
  AnyMap ([("kind", AnyString (mp_Kind m)); ("mime_type", AnyString (mp_MimeType m)); ("data", AnyString (mp_Data m))]
          ++ if bool_decide (mp_Filename m = "") then [] else [("filename", AnyString (mp_Filename m))]).
Definition tool_json (t : ToolDefinition) : any :=
  AnyMap [("Name", AnyString (td_Name t)); ("Description", AnyString (td_Description t)); ("InputSchema", bytes_json (td_InputSchema t))].

Section turn.
Context `{JSON} `{Digest} `{SDK} (unicode_lower : string -> string) (overflowed : Z).

(** ** The identity of a full-history request
    [nil_tools]: the run has a nil slice of tools, not an empty one. *)
Definition history_contract (turn : translatedTurn) (tokenID : any) (continuation nil_tools : bool) : object :=
  let run := mr_Run (tt_managed turn) in
  let r := rr_Options run in
  [("format", AnyString (format_name (tt_responseFormat turn))); ("model", AnyString (ro_Model r)); ("public_model", AnyString (tt_publicModel turn));
   ("token_id", tokenID); ("system", AnyString (ro_SystemText r)); ("history", AnyList (bytes_json <$> ro_HistoryMessages r));
   ("user", AnyString (rr_UserText run)); ("tools", if nil_tools then AnyNil else AnyList (tool_json <$> rr_Tools run));
   ("require_tool", AnyBool (ro_RequireToolCall r)); ("search", AnyBool (ro_AllowHostedSearch r)); ("fetch", AnyBool (ro_AllowHostedFetch r));
   ("require_search", AnyBool (ro_RequireHostedSearch r)); ("require_fetch", AnyBool (ro_RequireHostedFetch r));
   ("require_hosted", AnyBool (ro_RequireHostedTool r));
   ("search_max", optional_json AnyInt (ro_HostedSearchMaxUses r)); ("fetch_max", optional_json AnyInt (ro_HostedFetchMaxUses r))]
  ++ (if restricts (ro_HostedSearchDomains r) then [("search_domains", domains_json (ro_HostedSearchDomains r))] else [])
  ++ (if restricts (ro_HostedFetchDomains r) then [("fetch_domains", domains_json (ro_HostedFetchDomains r))] else [])
  ++ (if bool_decide (ro_UserMedia r = []) then [] else [("user_media", AnyList (media_json <$> ro_UserMedia r))])
  ++ (if bool_decide (normalizeRuntimeProfile (rr_RuntimeProfile run) = runtimeSand) then
        [("runtime_profile", AnyString runtimeSand); ("reasoning_effort", AnyString (ro_ReasoningEffort r));
         ("inference_context", AnyString (ro_InferenceContext r)); ("thinking", AnyBool (ro_ThinkingEnabled r));
         ("explicit_thinking", optional_json AnyBool (ro_InferenceThinking r))]
      else [])
  ++ (if continuation then [] else [("new_request", AnyString (mr_SessionID (tt_managed turn)))]).
Definition historyRequestKey (turn : translatedTurn) (tokenID : any) (continuation nil_tools : bool) : result string :=
  match json_marshal (AnyMap (history_contract turn tokenID continuation nil_tools)) with
  | None => Fail (ErrWrap "encode full-history request identity: " errEncode)
  | Some encoded => Ok ("history:" +:+ digest (of_bytes encoded))
  end.

(** ** Stages of the translation *)
Definition is_format (format : Format) (req : Request) : bool := bool_decide (rq_Format req = format).
(** The Messages body, and what a Responses request asks of hosted search. *)
Definition claude_body (req : Request) (sand : bool) : result (bytes * hostedRunPolicy) :=
  match rq_Format req with
  | FormatClaude => Ok (rq_Payload req, no_hosted)
  | FormatOpenAIResponse =>
      r <-? normalizeAgentV1ResponsesRequest unicode_lower (rq_Payload req) sand ;;
      Ok (TranslateRequest FormatOpenAIResponse (rq_Model req) r.1, allow_hosted false (hp_AllowSearch r.2) r.2)
  | format => Ok (TranslateRequest format (rq_Model req) (rq_Payload req), no_hosted)
  end.
Record claudeRoot := { cl_root : object; cl_messages : list any; cl_dynamicSystem : string; cl_body : bytes }.
Definition claude_root (req : Request) (body : bytes) : result claudeRoot :=
  match unmarshal_map body with
  | None => Fail (bad_request "Cursor Agent v1 could not translate the request to Messages")
  | Some root =>
      let messages := match map_get root "messages" with AnyList l => l | _ => [] end in
      let make root messages dynamic body := {| cl_root := root; cl_messages := messages; cl_dynamicSystem := dynamic; cl_body := body |} in
      if negb (is_format FormatClaude req) then Ok (make root messages "" body)
      else
        r <-? normalizeTrailingContext messages ;;
        if bool_decide (length r.1 = length messages) then Ok (make root r.1 r.2 body)
        else
          let root := map_set root "messages" (AnyList r.1) in
          match json_marshal (AnyMap root) with
          | None => Fail (bad_request "Cursor Agent v1 could not normalize Claude Code context")
          | Some body => Ok (make root r.1 r.2 body)
          end
  end.
(** The active turn: [ac_continue] when the last message is the assistant's. *)
Record activeTurn := { ac_continue : bool; ac_text : string; ac_results : list ToolResult; ac_media : list MediaPart; ac_last : object }.
Definition attachedMediaText : string := "See the attached media.".
Definition default_text (text : string) (results : list ToolResult) (media : list MediaPart) : string :=
  let text := if blank text && bool_decide (results = []) && negb (bool_decide (media = [])) then attachedMediaText else text in
  if blank text && bool_decide (results = []) && bool_decide (media = []) then continueTurnUserText else text.
Definition active_turn (messages : list any) : result activeTurn :=
  match last messages with
  | Some (AnyMap final) =>
      let role := stringValue (map_get final "role") in
      if bool_decide (role = "user") then
        r <-? parseLiveToolContinuation unicode_lower messages ;;
        active <-? parseActiveUserTurn unicode_lower (map_get final "content") ;;
        let '(text, results) := r in
        Ok {| ac_continue := false; ac_text := default_text text results (au_Media active); ac_results := results; ac_media := au_Media active; ac_last := final |}
      else if bool_decide (role = "assistant")
      then Ok {| ac_continue := true; ac_text := continueTurnUserText; ac_results := []; ac_media := []; ac_last := final |}
      else Fail (bad_request "Cursor Agent v1 requires a trailing user message")
  | _ => Fail (bad_request "Cursor Agent v1 requires at least one message")
  end.
(** Claude Code's recovery prompt next to tool results is not a user text. *)
Definition user_text (req : Request) (root : object) (active : activeTurn) : string :=
  if negb (bool_decide (ac_results active = [])) && negb (blank (ac_text active)) && is_format FormatClaude req
     && isClaudeCodeSystem (map_get root "system") && isClaudeCodeToolRecoveryText (ac_text active)
  then "" else ac_text active.
Definition run_policy (req : Request) (sand : bool) (hosted : hostedRunPolicy) (policy : callerToolPolicy) : callerToolPolicy :=
  let hosted_only := is_format FormatOpenAIResponse req && hp_RequireSearch hosted in
  {| cp_none := cp_none policy; cp_required := cp_required policy && negb hosted_only; cp_name := if hosted_only then "" else cp_name policy;
     cp_maxParallel := if sand then cp_maxParallel policy else 1 |}.
Definition chat_hosted (req : Request) (hosted : hostedRunPolicy) : result hostedRunPolicy :=
  if is_format FormatOpenAI req
  then search <-? chatHostedSearchPolicy (rq_Payload req) ;; Ok (allow_hosted search search hosted)
  else Ok hosted.
(** The tools to declare, and whether Claude Code's fetch tool was one of them. *)
Definition tool_value (req : Request) (root : object) : any * bool :=
  if is_format FormatClaude req && isClaudeCodeSystem (map_get root "system")
  then normalizeClaudeCodeNativeSearchTools unicode_lower (map_get root "tools") else (map_get root "tools", false).
Definition errDomains : Err := unprocessable "Cursor Agent v1 hosted search domain restrictions require the Sand runtime profile".
(** The tools, and the hosted policy after everything that bears on it. *)
Definition run_tools (req : Request) (root : object) (sand : bool) (policy : callerToolPolicy) (hosted : hostedRunPolicy)
    : result (parsedTools * hostedRunPolicy) :=
  hosted <-? chat_hosted req hosted ;;
  let '(value, enableFetch) := tool_value req root in
  let hosted := allow_hosted false (enableFetch && negb (cp_required policy)) hosted in
  parsed <-? parseClaudeTools unicode_lower overflowed value policy ;;
  let hosted := if cp_none policy then no_hosted else add_declared hosted (pt_Hosted parsed) in
  if restrictsDomains hosted && negb sand then Fail errDomains else Ok (parsed, hosted).
(** The history of events as text. *)
Definition turn_history (messages : list any) (active : activeTurn) : result (list bytes) :=
  history <-? encode_history unicode_lower (if ac_continue active then messages else removelast messages) ;;
  match toolResultHistoryMessage unicode_lower (ac_last active) (ac_results active) with
  | None => Ok history
  | Some message =>
      match json_marshal (AnyMap message) with
      | None => Fail (bad_request "Cursor Agent v1 history is invalid")
      | Some encoded => Ok (history ++ [encoded])
      end
  end.
Definition session_id (req : Request) (results : list ToolResult) : result string :=
  let id := metadataString (rq_Metadata req) ExecutionSessionMetadataKey in
  if negb (bool_decide (results = [])) then Ok ""
  else if bool_decide (id = "") then Fail (bad_request "Cursor Agent v1 execution session id is required") else Ok id.
Definition system_text (root : object) (dynamic : string) : string :=
  let text := systemText (map_get root "system") in
  if bool_decide (dynamic = "") then text
  else (if bool_decide (text = "") then text else text +:+ newline +:+ newline) +:+ dynamic.

(** ** The managed request *)
(** What the executor knows of the credential. *)
Record Credential := { cd_Scope : string; cd_AccountKey : string; cd_BaseURL : string; cd_AccessToken : string; cd_ClientVersion : string }.
Definition run_options (req : Request) (credential : Credential) (root : object) (dynamic : string) (active : activeTurn)
    (policy : callerToolPolicy) (parsed : parsedTools) (hosted : hostedRunPolicy) (history : list bytes) (key : string) : RunOptions :=
  {| ro_HistoryRequestKey := key; ro_BaseURL := cd_BaseURL credential; ro_ProxyURL := ""; ro_AccessToken := cd_AccessToken credential;
     ro_ClientVersion := cd_ClientVersion credential; ro_RouteChannelID := routeChannelID (cd_Scope credential);
     ro_RouteUserID := routeUserID (cd_Scope credential); ro_Model := rq_Model req; ro_UserMedia := ac_media active;
     ro_ThinkingEnabled := claudeThinkingEnabled unicode_lower (map_get root "thinking"); ro_ReasoningEffort := ""; ro_InferenceContext := "";
     ro_InferenceThinking := None; ro_dropReasoningSignatures := false; ro_SystemText := system_text root dynamic; ro_HistoryMessages := history;
     ro_AllowHostedSearch := hp_AllowSearch hosted; ro_AllowHostedFetch := hp_AllowFetch hosted; ro_RequireHostedSearch := hp_RequireSearch hosted;
     ro_RequireHostedFetch := hp_RequireFetch hosted; ro_RequireHostedTool := hp_RequireAny hosted;
     ro_HostedSearchMaxUses := hp_SearchMaxUses hosted; ro_HostedFetchMaxUses := hp_FetchMaxUses hosted;
     ro_HostedSearchDomains := hp_SearchDomains hosted; ro_HostedFetchDomains := hp_FetchDomains hosted;
     ro_RequireToolCall := cp_required policy && bool_decide (ac_results active = []) && negb (bool_decide (default [] (pt_Tools parsed) = []));
     ro_MaxParallelTools := cp_maxParallel policy; ro_DeleteCompletedState := negb (is_format FormatOpenAIResponse req) |}.
Definition managed_request (req : Request) (opts : Options) (credential : Credential) (session : string) (policy : callerToolPolicy)
    (parsed : parsedTools) (results : list ToolResult) (userText followUp : string) (options : RunOptions) : ManagedRequest :=
  {| mr_TurnMetering := bool_decide (op_Header opts headerMeteringMode = "turn-v2"); mr_RequestSegmentID := ""; mr_SessionID := session;
     mr_BillingRunID := metadataString (rq_Metadata req) "beefapi_request_id"; mr_CredentialScope := cd_Scope credential;
     mr_AccountKey := cd_AccountKey credential; mr_ToolCatalogDigest := pt_Digest parsed; mr_FollowUpText := followUp; mr_ActiveResults := results;
     mr_CarryUsage := []; mr_RequireExisting := responsesRequiresExisting req; mr_ReuseBillingRun := false; mr_Context := None;
     mr_Run := {| rr_Options := options; rr_RuntimeProfile := ""; rr_ConversationID := ""; rr_UserText := userText; rr_FollowUpText := "";
                  rr_Tools := default [] (pt_Tools parsed); rr_InitialCheckpoint := []; rr_InitialBlobs := ∅; rr_Resume := false |};
     mr_DisableCallerTools := cp_none policy |}.
Definition response_format (req : Request) (opts : Options) : Format :=
  if bool_decide (op_Format opts = FormatOther "") then rq_Format req else op_Format opts.
Definition public_model (req : Request) (opts : Options) : string :=
  let model := metadataString (op_Metadata opts) RequestedModelMetadataKey in if bool_decide (model = "") then rq_Model req else model.
Definition make_turn (req : Request) (opts : Options) (managed : ManagedRequest) (original body : bytes) (parsedUserText : string) : translatedTurn :=
  {| tt_managed := managed; tt_publicModel := public_model req opts; tt_responseFormat := response_format req opts; tt_original := original;
     tt_claudeRequest := body; tt_parsedUserText := parsedUserText; tt_replay := false |}.
(** Messages and chat requests carry the whole conversation. *)
Definition is_full_history (req : Request) : bool := is_format FormatClaude req || is_format FormatOpenAI req.
Definition is_sand (opts : Options) : bool := bool_decide (metadataString (op_Metadata opts) "beefapi_cursor_runtime_profile" = runtimeSand).
Definition translateExecutionRequest (req : Request) (opts : Options) (credential : Credential) : result translatedTurn :=
  let sand := is_sand opts in
  body <-? claude_body req sand ;;
  claude <-? claude_root req body.1 ;;
  let root := cl_root claude in
  active <-? active_turn (cl_messages claude) ;;
  let results := ac_results active in
  let userText := user_text req root active in
  policy <-? parseCallerToolPolicy unicode_lower req ;;
  let policy := run_policy req sand body.2 policy in
  tools <-? run_tools req root sand policy body.2 ;;
  let '(parsed, hosted) := tools in
  history <-? turn_history (cl_messages claude) active ;;
  session <-? session_id req results ;;
  let continuation := negb (bool_decide (results = [])) in
  let options := run_options req credential root (cl_dynamicSystem claude) active policy parsed hosted in
  let managed := managed_request req opts credential session policy parsed results in
  original <-? requestWithModel (op_OriginalRequest opts) (public_model req opts) ;;
  let turn managed := make_turn req opts managed original (cl_body claude) (ac_text active) in
  if is_full_history req then
    history <-? structuredHistory unicode_lower (cl_messages claude) (negb (ac_continue active)) ;;
    let text := if continuation && blank userText then historyContinuationText else userText in
    key <-? historyRequestKey (turn (managed text "" (options history ""))) (map_get (rq_Metadata req) "beefapi_token_id") continuation
              (bool_decide (pt_Tools parsed = None)) ;;
    Ok (turn (managed text "" (options history key)))
  else
    Ok (turn (managed (if continuation then "" else userText) (if continuation then TrimSpace userText else "") (options history ""))).

(** ** A lost Responses session restarted from its transcript (executor.go) *)
Definition set_history (history : list bytes) (o : RunOptions) : RunOptions :=
  {| ro_HistoryRequestKey := ro_HistoryRequestKey o; ro_BaseURL := ro_BaseURL o; ro_ProxyURL := ro_ProxyURL o; ro_AccessToken := ro_AccessToken o;
     ro_ClientVersion := ro_ClientVersion o; ro_RouteChannelID := ro_RouteChannelID o; ro_RouteUserID := ro_RouteUserID o; ro_Model := ro_Model o;
     ro_UserMedia := ro_UserMedia o; ro_ThinkingEnabled := ro_ThinkingEnabled o; ro_ReasoningEffort := ro_ReasoningEffort o;
     ro_InferenceContext := ro_InferenceContext o; ro_InferenceThinking := ro_InferenceThinking o;
     ro_dropReasoningSignatures := ro_dropReasoningSignatures o; ro_SystemText := ro_SystemText o; ro_HistoryMessages := history;
     ro_AllowHostedSearch := ro_AllowHostedSearch o; ro_AllowHostedFetch := ro_AllowHostedFetch o; ro_RequireHostedSearch := ro_RequireHostedSearch o;
     ro_RequireHostedFetch := ro_RequireHostedFetch o; ro_RequireHostedTool := ro_RequireHostedTool o;
     ro_HostedSearchMaxUses := ro_HostedSearchMaxUses o; ro_HostedFetchMaxUses := ro_HostedFetchMaxUses o;
     ro_HostedSearchDomains := ro_HostedSearchDomains o; ro_HostedFetchDomains := ro_HostedFetchDomains o;
     ro_RequireToolCall := ro_RequireToolCall o; ro_MaxParallelTools := ro_MaxParallelTools o; ro_DeleteCompletedState := ro_DeleteCompletedState o |}.
Definition set_request (session followUp : string) (results : list ToolResult) (run : RunRequest) (m : ManagedRequest) : ManagedRequest :=
  {| mr_TurnMetering := mr_TurnMetering m; mr_RequestSegmentID := mr_RequestSegmentID m; mr_SessionID := session; mr_BillingRunID := mr_BillingRunID m;
     mr_CredentialScope := mr_CredentialScope m; mr_AccountKey := mr_AccountKey m; mr_ToolCatalogDigest := mr_ToolCatalogDigest m;
     mr_FollowUpText := followUp; mr_ActiveResults := results; mr_CarryUsage := mr_CarryUsage m; mr_RequireExisting := mr_RequireExisting m;
     mr_ReuseBillingRun := mr_ReuseBillingRun m; mr_Context := mr_Context m; mr_Run := run; mr_DisableCallerTools := mr_DisableCallerTools m |}.
Definition set_managed (managed : ManagedRequest) (t : translatedTurn) : translatedTurn :=
  {| tt_managed := managed; tt_publicModel := tt_publicModel t; tt_responseFormat := tt_responseFormat t; tt_original := tt_original t;
     tt_claudeRequest := tt_claudeRequest t; tt_parsedUserText := tt_parsedUserText t; tt_replay := tt_replay t |}.
Definition restarted_run (history : list bytes) (r : RunRequest) : RunRequest :=
  {| rr_Options := set_history history (rr_Options r); rr_RuntimeProfile := rr_RuntimeProfile r; rr_ConversationID := rr_ConversationID r;
     rr_UserText := historyContinuationText; rr_FollowUpText := rr_FollowUpText r; rr_Tools := rr_Tools r; rr_InitialCheckpoint := [];
     rr_InitialBlobs := ∅; rr_Resume := false |}.
Definition transcript_history (turn : translatedTurn) (req : Request) : option (list bytes) :=
  if negb (is_format FormatOpenAIResponse req) || responsesRequiresExisting req then None
  else
    root ← unmarshal_map (tt_claudeRequest turn);
    match map_get root "messages" with
    | AnyList ((_ :: _) as messages) =>
        match structuredHistory unicode_lower messages true with Ok ((_ :: _) as history) => Some history | _ => None end
    | _ => None
    end.
Definition restartFromResponsesTranscript (turn : translatedTurn) (req : Request) : option translatedTurn :=
  history ← transcript_history turn req;
  let m := tt_managed turn in Some (set_managed (set_request (mr_SessionID m) "" [] (restarted_run history (mr_Run m)) m) turn).
End turn.
