(* ===== verification/TranslateProps.v ===== *)
(** * Properties of a translated turn (src/cursoragentv1/translate.go)

    Whatever the request, an accepted turn is one the manager and the runner can
    run, and the caller's tool choice is honoured. *)
From stdpp Require Import base tactics list gmap strings sorting.
From Stdlib Require Import Strings.Byte.
From S2P Require Import Prelude GoStrings Sha256 JsonValue Connect Data HostedPolicy Segment StoreState Manager Media HostedSearch Projection History Translate TranslateRequest TranslateTurn.
Open Scope Z_scope.

(** ** Hosted policies that only require what they allow *)
Definition requires_any (p : hostedRunPolicy) : bool := hp_RequireSearch p || hp_RequireFetch p || hp_RequireAny p.
Record hosted_sound (p : hostedRunPolicy) : Prop := {
  hs_search : hp_RequireSearch p = true -> hp_AllowSearch p = true;
  hs_fetch : hp_RequireFetch p = true -> hp_AllowFetch p = true;
  hs_any : hp_RequireAny p = true -> hp_AllowSearch p = true /\ hp_AllowFetch p = true }.
Lemma no_hosted_sound : hosted_sound no_hosted.
Proof. by split. Qed.
Lemma allow_sound search fetch p : hosted_sound p -> hosted_sound (allow_hosted search fetch p).
Proof. intros [G1 G2 G3]. split; cbn; [intros ->%G1|intros ->%G2|intros [-> ->]%G3]; done. Qed.
Lemma add_sound p server : hosted_sound p -> hosted_sound server -> hosted_sound (add_declared p server).
Proof.
  intros [G1 G2 G3] [F1 F2 F3]. split; cbn; intros E; apply orb_true_iff in E as [E|E]; rewrite ?orb_true_iff; naive_solver.
Qed.
Lemma summary_sound tools require : hosted_sound (summarizeHostedPolicy tools require).
Proof. split; cbn; [intros E|intros E|intros E]; by bool_hyps. Qed.
Lemma summary_requires tools : enabled (summarizeHostedPolicy tools true) = true -> requires_any (summarizeHostedPolicy tools true) = true.
Proof. unfold enabled, requires_any, summarizeHostedPolicy. cbv zeta. by destruct (0 <? ks_Count (summarize_kind "search" tools))%nat, (0 <? ks_Count (summarize_kind "fetch" tools))%nat. Qed.
Lemma summary_nil require : enabled (summarizeHostedPolicy [] require) = false.
Proof. done. Qed.
Lemma requires_add p server : requires_any server = true -> requires_any (add_declared p server) = true.
Proof. unfold requires_any. cbn. intros E. repeat (apply orb_true_iff in E as [E|E]); rewrite E, ?orb_true_r; done. Qed.

(** [simpl_bind]: every call in a successful [rbind] chain succeeded. *)
Ltac simpl_bind :=
  repeat match goal with
  | G : rbind ?m _ = Ok _ |- _ => let E := fresh "E" in destruct m eqn:E; [cbn [rbind] in G|discriminate G]
  | G : (if ?b then Fail _ else _) = Ok _ |- _ => let E := fresh "E" in destruct b eqn:E; [discriminate G|]
  | G : Ok _ = Ok _ |- _ => injection G as G
  | G : Fail _ = Ok _ |- _ => discriminate G
  end.

Section props.
Context `{JSON} `{Digest} `{SDK} (unicode_lower : string -> string) (overflowed : Z).

(** ** Stages *)
Lemma responses_sound sand root r : responses_hosted unicode_lower sand root = Ok r -> hosted_sound r.2.
Proof.
  unfold responses_hosted. destruct (map_get root "tools") as [| | | | | |tools|]; try (intros [= <-]; apply no_hosted_sound).
  intros G. simpl_bind. destruct (_ && _); simpl_bind; subst r; [|by split]. bool_hyps. split; cbn; done.
Qed.
Lemma normalized_sound sand payload r : normalizeAgentV1ResponsesRequest unicode_lower payload sand = Ok r -> hosted_sound r.2.
Proof.
  unfold normalizeAgentV1ResponsesRequest. destruct (json_unmarshal _) as [[| | | | | | |root]|]; try (intros [= <-]; apply no_hosted_sound).
  - destruct (json_marshal _); [|done]. intros [= <-]. apply no_hosted_sound.
  - destruct (responses_hosted _ _ root) as [[root' hosted]|] eqn:E; [|done]. cbn [rbind]. apply responses_sound in E.
    destruct (json_marshal _); [|done]. by intros [= <-].
Qed.
Lemma body_sound req sand r : claude_body unicode_lower req sand = Ok r -> hosted_sound r.2.
Proof.
  unfold claude_body. destruct (rq_Format req); try (intros [= <-]; apply no_hosted_sound). intros G. simpl_bind. subst r. cbn.
  by apply allow_sound, (normalized_sound sand (rq_Payload req)).
Qed.
Lemma default_text_visible text media : blank (default_text text [] media) = false.
Proof.
  unfold default_text. rewrite (bool_decide_eq_true_2 ([] = [])) by done. rewrite !andb_true_r. case_bool_decide as Hm; cbn [negb].
  - rewrite andb_false_r, andb_true_r. destruct (blank text) eqn:Eb; [by vm_compute|done].
  - rewrite andb_true_r, andb_false_r. destruct (blank text) eqn:Eb; [by vm_compute|done].
Qed.
Lemma active_visible messages active : active_turn unicode_lower messages = Ok active -> ac_results active = [] -> blank (ac_text active) = false.
Proof.
  unfold active_turn. destruct (last messages) as [[| | | | | | |final]|]; try done. destruct (bool_decide (_ = "user")).
  - intros G. simpl_bind. destruct a as [text results]. simpl_bind. subst active. cbn. intros ->. apply default_text_visible.
  - destruct (bool_decide _); [|done]. intros [= <-]. cbn. by vm_compute.
Qed.
Lemma user_text_active req root active : ac_results active = [] -> user_text req root active = ac_text active.
Proof. intros E. unfold user_text. by rewrite E. Qed.

(** ** Tools *)
Definition distinct_names (tools : list ToolDefinition) : Prop := NoDup (td_Name <$> tools) /\ Forall (fun t => td_Name t <> "") tools.
Lemma definitions_names canonical seen tools out :
  definitions_loop canonical seen tools = Ok out -> distinct_names out /\ forall t, t ∈ out -> td_Name t ∉ seen.
Proof.
  revert seen out. induction tools as [|t tools IH]; intros seen out; cbn [definitions_loop].
  { intros [= <-]. split; [split; constructor|]. by intros t ?%elem_of_nil. }
  case_bool_decide as Hn; [done|]. case_bool_decide as Hs; [done|]. destruct (canonical _) as [schema|]; [|done]. intros G. simpl_bind. subst out.
  destruct (IH _ _ E) as [[I1 I2] I3]. split; [split; cbn|].
  - constructor; [|done]. intros (t' & E' & Hin)%list_elem_of_fmap. apply I3 in Hin. cbn in E'. set_solver.
  - by constructor.
  - intros t' [->|Hin]%elem_of_cons; [done|]. apply I3 in Hin. set_solver.
Qed.
Lemma distinct_filter (f : ToolDefinition -> bool) tools : distinct_names tools -> distinct_names (List.filter f tools).
Proof.
  intros [G1 G2]. split.
  - induction tools as [|t tools IH]; [constructor|]. cbn in *. apply NoDup_cons in G1 as [G1 G1']. apply Forall_cons in G2 as [_ G2].
    destruct (f t); [|by apply IH]. cbn. constructor; [|by apply IH]. intros (t' & E & Hin)%list_elem_of_fmap. apply G1. rewrite E.
    apply list_elem_of_fmap. exists t'. split; [done|]. apply list_elem_of_In in Hin. apply filter_In in Hin as [Hin _]. by apply list_elem_of_In.
  - apply Forall_forall. intros t Hin. apply list_elem_of_In, filter_In in Hin as [Hin _]. rewrite Forall_forall in G2. by apply G2, list_elem_of_In.
Qed.
Lemma catalog_names tools out : catalog tools = Ok out -> distinct_names out.
Proof.
  unfold catalog. destruct (normalizeToolDefinitions _ _) as [normalized|e] eqn:E; [|by destruct e]. intros [= <-].
  by apply definitions_names in E as [? _].
Qed.
(** What the selection leaves. *)
Lemma select_spec policy normalized hostedTools selected hosted require :
  distinct_names normalized -> select_tools policy normalized hostedTools = Ok (selected, hosted, require) ->
  distinct_names (default [] selected) /\
  ((cp_required policy = true \/ cp_name policy <> "") -> default [] selected = [] -> require = true).
Proof.
  intros Hd. unfold select_tools. case_bool_decide as Hn; cbn [negb].
  - destruct (cp_required policy) eqn:Er; cbn [andb].
    + case_bool_decide as Hnil; [case_bool_decide; [done|]|]; intros [= <- <- <-]; by split.
    + intros [= <- <- <-]. split; [done|]. naive_solver.
  - destruct (List.filter _ normalized) as [|t ts] eqn:Ef.
    + destruct (List.filter _ hostedTools); [done|]. intros [= <- <- <-]. split; [split; constructor|]. done.
    + intros [= <- <- <-]. split; [|done]. cbn. rewrite <-Ef. by apply distinct_filter.
Qed.
Record tools_sound (policy : callerToolPolicy) (parsed : parsedTools) : Prop := {
  ts_names : distinct_names (default [] (pt_Tools parsed));
  ts_hosted : hosted_sound (pt_Hosted parsed);
  ts_none : cp_none policy = true -> parsed = no_parsed;
  ts_required : cp_none policy = false -> cp_required policy = true -> default [] (pt_Tools parsed) = [] -> requires_any (pt_Hosted parsed) = true }.
Lemma parse_sound value policy parsed : parseClaudeTools unicode_lower overflowed value policy = Ok parsed -> tools_sound policy parsed.
Proof.
  unfold parseClaudeTools. destruct (cp_none policy) eqn:Hnone.
  { intros [= <-]. split; cbn; [by split; constructor|apply no_hosted_sound|done|congruence]. }
  destruct value as [| | | | | |tools|]; try done.
  - destruct (cp_required policy) eqn:Er; [done|]. intros [= <-]. split; cbn; [by split; constructor|apply no_hosted_sound|congruence..].
  - intros G. simpl_bind. destruct a1 as [[selected hosted] require]. simpl_bind. subst parsed. apply catalog_names in E0.
    destruct (select_spec _ _ _ _ _ _ E0 E1) as [Hd Hr]. split; cbn; try done; [apply summary_sound|congruence|].
    intros _ Hreq Hnil. rewrite (Hr (or_introl Hreq) Hnil) in *. apply summary_requires.
    rewrite Hreq, Hnil, (bool_decide_eq_true_2 ([] = [])) in E3 by done. cbn in E3. by apply negb_false_iff in E3.
Qed.
Lemma tools_stage req root sand policy hosted0 parsed hosted :
  hosted_sound hosted0 -> run_tools unicode_lower overflowed req root sand policy hosted0 = Ok (parsed, hosted) ->
  tools_sound policy parsed /\ hosted_sound hosted /\ (sand = false -> restrictsDomains hosted = false) /\
  (cp_none policy = true -> hosted = no_hosted) /\
  (cp_none policy = false -> requires_any hosted0 = true \/ requires_any (pt_Hosted parsed) = true -> requires_any hosted = true).
Proof.
  intros Hs. unfold run_tools. destruct (chat_hosted req hosted0) as [chat|] eqn:Ec; [|done]. cbn [rbind].
  assert (hosted_sound chat /\ requires_any chat = requires_any hosted0) as [Hc Hr].
  { unfold chat_hosted in Ec. destruct (is_format _ _); [|by injection Ec as <-]. destruct (chatHostedSearchPolicy _) as [search|]; [|done].
    injection Ec as <-. split; [by apply allow_sound|done]. }
  destruct (tool_value _ _ _) as [value fetch]. destruct (parseClaudeTools _ _ _ _) as [parsed'|] eqn:Ep; [|done]. cbn [rbind].
  apply parse_sound in Ep. destruct (restrictsDomains _ && _) eqn:Hd; [done|]. intros [= -> <-].
  set (chat' := allow_hosted false _ chat) in *. assert (hosted_sound chat') as Hc' by by apply allow_sound.
  split_and!; [done| | |by intros ->|].
  - destruct (cp_none policy); [apply no_hosted_sound|]. apply add_sound; [done|apply Ep].
  - intros ->. by rewrite andb_true_r in Hd.
  - intros ->. intros [Hq|Hq]; [|by apply requires_add]. rewrite <-Hr in Hq. unfold requires_any in *. cbn in *.
    repeat (apply orb_true_iff in Hq as [Hq|Hq]); rewrite Hq, ?orb_true_r; done.
Qed.
Lemma policy_exclusive req policy : parseCallerToolPolicy unicode_lower req = Ok policy -> cp_required policy = true -> cp_none policy = false.
Proof.
  unfold parseCallerToolPolicy. destruct (unmarshal_map _) as [root|]; [|discriminate].
  destruct (map_get root "tool_choice") as [| | | | | | |choice]; intros G; try discriminate G; [by injection G as <-|..]; cbv zeta in G.
  all: repeat match type of G with (if ?b then _ else _) = _ => destruct b end; try discriminate G; by injection G as <-.
Qed.
(** The parts of an accepted turn. *)
Record translated (req : Request) (opts : Options) (credential : Credential) (turn : translatedTurn) : Prop := Translated {
  tr_parts : exists hosted0 root dynamic active policy parsed hosted history key session text followUp,
    let results := ac_results active in
    let policy' := run_policy req (is_sand opts) hosted0 policy in
    hosted_sound hosted0 /\ parseCallerToolPolicy unicode_lower req = Ok policy /\
    run_tools unicode_lower overflowed req root (is_sand opts) policy' hosted0 = Ok (parsed, hosted) /\
    session_id req results = Ok session /\
    tt_managed turn = managed_request req opts credential session policy' parsed results text followUp
      (run_options unicode_lower req credential root dynamic active policy' parsed hosted history key) /\
    (blank text = false \/ results <> [] /\ key = "") }.
Lemma translate_inv req opts credential turn :
  translateExecutionRequest unicode_lower overflowed req opts credential = Ok turn -> translated req opts credential turn.
Proof.
  unfold translateExecutionRequest. intros G. split.
  destruct (claude_body _ req _) as [body|] eqn:Eb; [cbn [rbind] in G|done]. apply body_sound in Eb.
  destruct (claude_root req _) as [claude|]; [cbn [rbind] in G|done].
  destruct (active_turn _ _) as [active|] eqn:Ea; [cbn [rbind] in G|done]. pose proof (active_visible _ _ Ea) as Hv.
  destruct (parseCallerToolPolicy _ req) as [policy|] eqn:Ep; [cbn [rbind] in G|done].
  destruct (run_tools _ _ _ _ _ _ _) as [[parsed hosted]|] eqn:Et; [cbn [rbind] in G|done].
  destruct (turn_history _ _ _) as [history|]; [cbn [rbind] in G|done].
  destruct (session_id _ _) as [session|] eqn:Es; [cbn [rbind] in G|done].
  destruct (requestWithModel _ _) as [original|]; [cbn [rbind] in G|done].
  destruct (is_full_history req).
  - destruct (structuredHistory _ _ _) as [messages|]; [cbn [rbind] in G|done].
    destruct (historyRequestKey _ _ _ _) as [key|]; [cbn [rbind] in G|done]. injection G as <-.
    do 12 eexists. split_and!; [exact Eb|reflexivity|exact Et|exact Es|reflexivity|]. left. case_bool_decide as Hn; cbn [negb andb].
    + rewrite user_text_active by done. by apply Hv.
    + by destruct (blank (user_text _ _ _)) eqn:Ht.
  - injection G as <-. do 12 eexists. split_and!; [exact Eb|reflexivity|exact Et|exact Es|reflexivity|]. case_bool_decide as Hn; cbn [negb].
    + left. rewrite user_text_active by done. by apply Hv.
    + by right.
Qed.
Lemma session_spec req results session : session_id req results = Ok session -> results = [] <-> session <> "".
Proof.
  unfold session_id. case_bool_decide as Hn; cbn [negb]; [|by intros [= <-]]. case_bool_decide; [done|]. by intros [= <-].
Qed.
End props.

(** What the run of a request may use and must use. *)
Definition run_hosted (o : RunOptions) : hostedRunPolicy :=
  {| hp_AllowSearch := ro_AllowHostedSearch o; hp_AllowFetch := ro_AllowHostedFetch o; hp_RequireSearch := ro_RequireHostedSearch o;
     hp_RequireFetch := ro_RequireHostedFetch o; hp_RequireAny := ro_RequireHostedTool o; hp_SearchMaxUses := ro_HostedSearchMaxUses o;
     hp_FetchMaxUses := ro_HostedFetchMaxUses o; hp_SearchDomains := ro_HostedSearchDomains o; hp_FetchDomains := ro_HostedFetchDomains o |}.
Lemma run_hosted_parts `{SDK} unicode_lower req opts credential root dynamic active policy parsed hosted history key session results text followUp :
  run_hosted (rr_Options (mr_Run (managed_request req opts credential session policy parsed results text followUp
    (run_options unicode_lower req credential root dynamic active policy parsed hosted history key)))) = hosted.
Proof. by destruct hosted. Qed.

(** C23 Every accepted request is a turn the manager and the runner can run: it either
    starts a session or answers calls, never both; its user text is visible, except
    that a turn which only answers calls of a running session, as a Responses tool
    result does, may have none; the tools have distinct names and a required call has a tool to
    call; a required hosted tool is an allowed one; outside the Sand profile the turn
    is serial and unrestricted by domains. *)
Theorem translated_turn_runnable `{JSON} `{Digest} `{SDK} (unicode_lower : string -> string) (overflowed : Z)
    (req : Request) (opts : Options) (credential : Credential) (turn : translatedTurn) :
  translateExecutionRequest unicode_lower overflowed req opts credential = Ok turn ->
  let m := tt_managed turn in
  let run := mr_Run m in
  let o := rr_Options run in
  (mr_ActiveResults m = [] <-> mr_SessionID m <> "") /\
  (TrimSpace (rr_UserText run) <> "" \/ mr_ActiveResults m <> [] /\ HistoryRequestKey run = "") /\
  distinct_names (rr_Tools run) /\
  (ro_RequireToolCall o = true -> rr_Tools run <> [] /\ mr_ActiveResults m = []) /\
  hosted_sound (run_hosted o) /\
  (is_sand opts = false -> ro_MaxParallelTools o = 1 /\ restrictsDomains (run_hosted o) = false).
Proof.
  intros G m run o. apply translate_inv in G as [(hosted0 & root & dynamic & active & policy & parsed & hosted & history & key & session & text & followUp & Parts)].
  destruct Parts as (Hs & Hp & Ht & Hsession & Hm & Htext). apply tools_stage in Ht as ([Hnames _ _ _] & Hh & Hd & _ & _); [|done].
  unfold o, run, m. rewrite Hm, run_hosted_parts. cbn. unfold HistoryRequestKey. cbn. split_and!.
  - by eapply session_spec.
  - destruct Htext as [Htext|?]; [left; by apply bool_decide_eq_false in Htext|by right].
  - done.
  - intros E. bool_hyps. done.
  - done.
  - intros E. rewrite E. split; [done|]. by apply Hd.
Qed.

(** C22 The caller's tool choice is honoured: with the choice "none" the run gets no
    tools and no hosted tool at all, and when a call is required of a new turn the run
    must call a declared tool or use a hosted one. *)
Theorem tool_choice_honoured `{JSON} `{Digest} `{SDK} (unicode_lower : string -> string) (overflowed : Z)
    (req : Request) (opts : Options) (credential : Credential) (turn : translatedTurn) :
  translateExecutionRequest unicode_lower overflowed req opts credential = Ok turn ->
  let m := tt_managed turn in
  let o := rr_Options (mr_Run m) in
  exists policy, parseCallerToolPolicy unicode_lower req = Ok policy /\
    (cp_none policy = true -> mr_DisableCallerTools m = true /\ rr_Tools (mr_Run m) = [] /\ run_hosted o = no_hosted) /\
    (cp_required policy = true -> mr_ActiveResults m = [] -> ro_RequireToolCall o = true \/ requires_any (run_hosted o) = true).
Proof.
  intros G m o. apply translate_inv in G as [(hosted0 & root & dynamic & active & policy & parsed & hosted & history & key & session & text & followUp & Parts)].
  destruct Parts as (Hs & Hp & Ht & Hsession & Hm & Htext). apply tools_stage in Ht as ([_ _ Hnone Hreq] & _ & _ & Hoff & Hmust); [|done].
  exists policy. unfold o, m. rewrite Hm, run_hosted_parts. split_and!; [done|..].
  - intros E. cbn. by rewrite E, (Hnone E), (Hoff E).
  - intros E Hres. cbn. pose proof (policy_exclusive _ _ _ Hp E) as En. cbn in Hreq, Hmust, Hoff. rewrite En, E in *. specialize (Hmust eq_refl).
    destruct (is_format FormatOpenAIResponse req && hp_RequireSearch hosted0) eqn:Ho; cbn in *.
    + right. apply Hmust. left. apply andb_true_iff in Ho as [_ Ho]. unfold requires_any. by rewrite Ho.
    + destruct (decide (default [] (pt_Tools parsed) = [])) as [Hn|Hn]; [right; apply Hmust; right; by apply Hreq|]. left.
      apply andb_true_iff. split; [by apply bool_decide_eq_true|]. by apply negb_true_iff, bool_decide_eq_false.
Qed.

(** ** A concrete request *)
Definition sample_root : any :=
  AnyMap [("model", AnyString "claude"); ("messages", AnyList [AnyMap [("role", AnyString "user"); ("content", AnyString "hi")]]);
          ("tools", AnyList [AnyMap [("name", AnyString "weather"); ("input_schema", AnyMap [])]]); ("tool_choice", AnyMap [("type", AnyString "any")])].
Definition sample_sdk : SDK :=
  {| TranslateRequest _ _ payload := payload; format_name _ := "claude"; ExecutionSessionMetadataKey := "execution_session_id";
     RequestedModelMetadataKey := "requested_model"; sprint _ := ""; decode_previous_response_id _ := None |}.
Definition sample_req : Request :=
  {| rq_Model := "claude"; rq_Payload := to_bytes "body"; rq_Format := FormatClaude; rq_Metadata := [("execution_session_id", AnyString "s1")] |}.
Definition sample_opts : Options := {| op_Metadata := []; op_Header _ := ""; op_OriginalRequest := []; op_Format := FormatOther "" |}.
Definition sample_credential : Credential :=
  {| cd_Scope := "a:b:user:7:channel:9"; cd_AccountKey := "acct"; cd_BaseURL := ""; cd_AccessToken := ""; cd_ClientVersion := "" |}.
#[local] Instance sample_json : JSON := table_json sample_root.
#[local] Existing Instance sample_sdk.
#[local] Existing Instance sha256_digest.
Definition same_text (s : string) : string := s.
Definition sample_translation : result translatedTurn := translateExecutionRequest same_text 0 sample_req sample_opts sample_credential.
Definition sample_translated : translatedTurn :=
  match sample_translation with
  | Ok turn => turn
  | Fail _ => make_turn sample_req sample_opts (managed_request sample_req sample_opts sample_credential "" (caller_policy true false "" 0) no_parsed [] "" ""
                (run_options same_text sample_req sample_credential [] "" {| ac_continue := true; ac_text := ""; ac_results := []; ac_media := []; ac_last := [] |}
                   (caller_policy true false "" 0) no_parsed no_hosted [] "")) [] [] ""
  end.
Lemma sample_translates : sample_translation = Ok sample_translated.
Proof. unfold sample_translated. assert (is_ok sample_translation = true) as E by (vm_compute; reflexivity). by destruct sample_translation. Qed.
Definition sample_run : RunRequest := mr_Run (tt_managed sample_translated).
Lemma translated_turn_runnable_witness :
  ro_RequireToolCall (rr_Options sample_run) = true /\ distinct_names (rr_Tools sample_run) /\ rr_Tools sample_run <> [] /\
  ro_MaxParallelTools (rr_Options sample_run) = 1.
Proof.
  assert (ro_RequireToolCall (rr_Options sample_run) = true) as Er by (vm_compute; reflexivity). split; [exact Er|].
  destruct (translated_turn_runnable same_text 0 sample_req sample_opts sample_credential sample_translated sample_translates) as (_ & _ & G1 & G2 & _ & G3).
  split; [exact G1|]. split; [exact (proj1 (G2 Er))|]. assert (is_sand sample_opts = false) as Es by (vm_compute; reflexivity). exact (proj1 (G3 Es)).
Defined.
Lemma tool_choice_honoured_witness :
  exists policy, parseCallerToolPolicy same_text sample_req = Ok policy /\
    (cp_required policy = true -> mr_ActiveResults (tt_managed sample_translated) = [] ->
     ro_RequireToolCall (rr_Options sample_run) = true \/ requires_any (run_hosted (rr_Options sample_run)) = true).
Proof.
  destruct (tool_choice_honoured same_text 0 sample_req sample_opts sample_credential sample_translated sample_translates) as (policy & G1 & _ & G2).
  exists policy. split; [exact G1|exact G2].
Defined.
