(* ===== verification/Dispatch.v ===== *)
(** * From a turn to a managed output (src/cursoragentv1/executor.go)

    Which handler of the manager a translated turn goes to, the restart of a lost
    session, the follow-up run of a turn that mixes tool results with a new user
    text, receipts and response headers.  The calls on the manager are a trace; what
    they answer and what the context does are oracles. *)
From stdpp Require Import base tactics list gmap strings sorting.
From Stdlib Require Import Strings.Byte.
From S2P Require Import Prelude GoStrings Sha256 JsonValue Connect Data HostedPolicy EventSnapshot Segment StoreState Manager Media HostedSearch Projection Delivery History Translate TranslateRequest TranslateTurn.
Open Scope Z_scope.

(** ** Calls *)
Inductive call : Type :=
  | Start (request : ManagedRequest) | StartHistory (request : ManagedRequest)
  | ResumeTools (request : ManagedRequest) (results : list ToolResult)
  | StartFollowUp (request : ManagedRequest) (covering : list ToolResult)
  | Park (request : ManagedRequest) (err : option Err) | Cancel (request : ManagedRequest).
(** A [ManagedOutput] with what its channels deliver. *)
Record Output := {
  mo_RequestSegmentID : string; mo_Feed : Feed; mo_SessionID : string; mo_BillingRunID : string; mo_ConversationID : string;
  mo_OriginalBatch : list string; mo_Replay : bool; mo_HasPending : bool; mo_FollowUpApplied : bool }.
Definition traced (A : Type) : Type := list call * result A.

(** ** The request and its output *)
Definition set_identity (session billing segment : string) (m : ManagedRequest) : ManagedRequest :=
  {| mr_TurnMetering := mr_TurnMetering m; mr_RequestSegmentID := segment; mr_SessionID := session; mr_BillingRunID := billing;
     mr_CredentialScope := mr_CredentialScope m; mr_AccountKey := mr_AccountKey m; mr_ToolCatalogDigest := mr_ToolCatalogDigest m;
     mr_FollowUpText := mr_FollowUpText m; mr_ActiveResults := mr_ActiveResults m; mr_CarryUsage := mr_CarryUsage m;
     mr_RequireExisting := mr_RequireExisting m; mr_ReuseBillingRun := mr_ReuseBillingRun m; mr_Context := mr_Context m; mr_Run := mr_Run m;
     mr_DisableCallerTools := mr_DisableCallerTools m |}.
Definition set_user_text (text : string) (r : RunRequest) : RunRequest :=
  {| rr_Options := rr_Options r; rr_RuntimeProfile := rr_RuntimeProfile r; rr_ConversationID := rr_ConversationID r; rr_UserText := text;
     rr_FollowUpText := rr_FollowUpText r; rr_Tools := rr_Tools r; rr_InitialCheckpoint := rr_InitialCheckpoint r;
     rr_InitialBlobs := rr_InitialBlobs r; rr_Resume := rr_Resume r |}.
Definition set_follow_up (followUp : string) (m : ManagedRequest) : ManagedRequest :=
  set_request (mr_SessionID m) followUp (mr_ActiveResults m) (mr_Run m) m.
(** The turn takes the identity of its output. *)
Definition adopt (turn : translatedTurn) (output : Output) : translatedTurn :=
  let turn := set_managed (set_identity (mo_SessionID output) (mo_BillingRunID output) (mo_RequestSegmentID output) (tt_managed turn)) turn in
  {| tt_managed := tt_managed turn; tt_publicModel := tt_publicModel turn; tt_responseFormat := tt_responseFormat turn; tt_original := tt_original turn;
     tt_claudeRequest := tt_claudeRequest turn; tt_parsedUserText := tt_parsedUserText turn; tt_replay := mo_Replay output |}.

Section dispatch.
Context `{JSON} `{Digest} `{SDK} (unicode_lower : string -> string).
(** What a starting call answers; whether the context is done at the [n]-th select,
    and what the [n]-th [Park] returns. *)
Context (answer : call -> result Output) (cancelled parked : nat -> option Err).

Definition asked (c : call) (k : Output -> translatedTurn) : traced (translatedTurn * Output) :=
  ([c], match answer c with Ok output => Ok (k output, output) | Fail e => Fail (mapManagerError e) end).
Definition start_turn (c : call) (turn : translatedTurn) : traced (translatedTurn * Output) := asked c (adopt turn).
(** A text next to the results is the follow-up, unless it is the recovery prompt. *)
Definition with_follow_up (turn : translatedTurn) : translatedTurn :=
  let m := tt_managed turn in
  let text := tt_parsedUserText turn in
  if blank (mr_FollowUpText m) && negb (blank text) && negb (isClaudeCodeToolRecoveryText text)
  then set_managed (set_follow_up (TrimSpace text) m) turn else turn.
(** The turn restarted when no session waits for its results. *)
Definition restarted (req : Request) (turn : translatedTurn) : option translatedTurn :=
  let m := tt_managed turn in
  let text := tt_parsedUserText turn in
  if negb (blank text) then Some (set_managed (set_request (mr_SessionID m) "" (mr_ActiveResults m) (set_user_text text (mr_Run m)) m) turn)
  else restartFromResponsesTranscript unicode_lower turn req.
Definition with_session (req : Request) (turn : translatedTurn) : translatedTurn :=
  let session := metadataString (rq_Metadata req) ExecutionSessionMetadataKey in
  let m := tt_managed turn in
  if bool_decide (session = "") then turn else set_managed (set_request session (mr_FollowUpText m) (mr_ActiveResults m) (mr_Run m) m) turn.
(** [prepare] once the turn is translated. *)
Definition dispatch (req : Request) (turn : translatedTurn) : traced (translatedTurn * Output) :=
  let m := tt_managed turn in
  let results := mr_ActiveResults m in
  if negb (bool_decide (HistoryRequestKey (mr_Run m) = "")) then start_turn (StartHistory m) turn
  else if bool_decide (results = []) then start_turn (Start m) turn
  else
    let turn := with_follow_up turn in
    let resume := ResumeTools (tt_managed turn) results in
    match answer resume with
    | Ok output => ([resume], Ok (adopt turn output, output))
    | Fail e =>
        match (if errors_is e ErrSessionNotPending then restarted req turn else None) with
        | None => ([resume], Fail (mapManagerError e))
        | Some turn =>
            let turn := with_session req turn in
            let '(calls, r) := start_turn (Start (tt_managed turn)) turn in (resume :: calls, r)
        end
    end.

(** ** The follow-up run *)
Definition followUpRequestID (prior : Output) (m : ManagedRequest) : result string :=
  rbind (CredentialFingerprint (mr_CredentialScope m) (mr_AccountKey m)) (fun fingerprint =>
  rbind (canonicalToolResults (mr_ActiveResults m)) (fun canonical =>
  let batch := if bool_decide (mo_OriginalBatch prior = []) then completedBatchIDs canonical else mo_OriginalBatch prior in
  Ok match completedResultsForBatch canonical batch with
     | Some accepted => generationSegmentID fingerprint batch accepted (mr_FollowUpText m)
     | None => generationSegmentID fingerprint (completedBatchIDs canonical) canonical (mr_FollowUpText m)
     end)).
Definition set_conversation (conversation : string) (r : RunRequest) : RunRequest :=
  {| rr_Options := rr_Options r; rr_RuntimeProfile := rr_RuntimeProfile r;
     rr_ConversationID := if bool_decide (rr_ConversationID r = "") then conversation else rr_ConversationID r; rr_UserText := rr_UserText r;
     rr_FollowUpText := rr_FollowUpText r; rr_Tools := rr_Tools r; rr_InitialCheckpoint := rr_InitialCheckpoint r;
     rr_InitialBlobs := rr_InitialBlobs r; rr_Resume := rr_Resume r |}.
Definition covering_results (prior : Output) (results : list ToolResult) : list ToolResult :=
  if bool_decide (mo_OriginalBatch prior = []) then results else default results (toolResultsForBatch results (mo_OriginalBatch prior)).
(** The follow-up is of the request that started the prior run. *)
Definition same_request (prior : Output) (id : string) : bool :=
  bool_decide (mo_RequestSegmentID prior = id)
  || (bool_decide (mo_RequestSegmentID prior = "") && negb (bool_decide (mo_BillingRunID prior = "")) && bool_decide (mo_BillingRunID prior = id)).
Definition follow_up_request (prior : Output) (events : list Event) (id : string) (m : ManagedRequest) : ManagedRequest :=
  let fresh := mo_Replay prior && negb (same_request prior id) in
  let billing := if fresh then id else mo_BillingRunID prior in
  {| mr_TurnMetering := mr_TurnMetering m; mr_RequestSegmentID := id; mr_SessionID := mo_SessionID prior; mr_BillingRunID := billing;
     mr_CredentialScope := mr_CredentialScope m; mr_AccountKey := mr_AccountKey m; mr_ToolCatalogDigest := mr_ToolCatalogDigest m;
     mr_FollowUpText := mr_FollowUpText m; mr_ActiveResults := mr_ActiveResults m;
     mr_CarryUsage := if fresh then [] else if isMeteredTurn billing then meteredUsageCarry events else usageEvidenceEvents events;
     mr_RequireExisting := true; mr_ReuseBillingRun := negb fresh; mr_Context := mr_Context m;
     mr_Run := set_conversation (mo_ConversationID prior) (mr_Run m); mr_DisableCallerTools := mr_DisableCallerTools m |}.
Definition startChainedFollowUp (n : nat) (turn : translatedTurn) (prior : Output) (events : list Event) : traced (translatedTurn * Output) :=
  match cancelled n with
  | Some e => ([], Fail e)
  | None =>
      let m := tt_managed turn in
      match followUpRequestID prior m with
      | Fail e => ([], Fail e)
      | Ok id => asked (StartFollowUp (follow_up_request prior events id m) (covering_results prior (mr_ActiveResults m))) (adopt turn)
      end
  end.
Definition emitBufferedOutput (prior : Output) (events : list Event) : Output :=
  let '(sent, err) := newSnapshotOutput events in
  {| mo_RequestSegmentID := mo_RequestSegmentID prior; mo_Feed := {| fd_events := sent; fd_result := err |}; mo_SessionID := mo_SessionID prior;
     mo_BillingRunID := mo_BillingRunID prior; mo_ConversationID := mo_ConversationID prior; mo_OriginalBatch := mo_OriginalBatch prior;
     mo_Replay := false; mo_HasPending := true; mo_FollowUpApplied := false |}.
(** The loop that buffers the prior run: the select it ended at and whether it parked. *)
Fixpoint buffer_prior (m : ManagedRequest) (n : nat) (parked_yet : bool) (events : list Event) (final : option Err) : traced (nat * bool) :=
  match cancelled n with
  | Some e => (if parked_yet then [] else [Cancel m], Fail e)
  | None =>
      match events with
      | [] => ([], match final with Some e => Fail e | None => Ok (n, parked_yet) end)
      | event :: events =>
          if bool_decide (ev_Type event = EventTurnEnded) then
            match parked n with
            | Some e =>
                if errors_is e ErrSessionNotPending
                then let '(calls, r) := buffer_prior m (S n) true events final in (Park m (Some e) :: calls, r)
                else ([Park m (Some e); Cancel m], Fail e)
            | None => let '(calls, r) := buffer_prior m (S n) true events final in (Park m None :: calls, r)
            end
          else buffer_prior m (S n) parked_yet events final
      end
  end.
Definition maybeChainFollowUp (turn : translatedTurn) (output : Output) : traced (translatedTurn * Output) :=
  let feed := mo_Feed output in
  if blank (mr_FollowUpText (tt_managed turn)) then ([], Ok (turn, output))
  else if mo_Replay output then
    if mo_FollowUpApplied output || mo_HasPending output then ([], Ok (turn, output))
    else
      match cancelled 0%nat with
      | Some e => ([], Fail e)
      | None =>
          match fd_result feed with
          | Some e => ([], Fail e)
          | None => startChainedFollowUp 1 turn output (fd_events feed)
          end
      end
  else
    match buffer_prior (tt_managed turn) 0 false (fd_events feed) (fd_result feed) with
    | (calls, Fail e) => (calls, Fail e)
    | (calls, Ok (_, true)) => (calls, Ok (turn, emitBufferedOutput output (fd_events feed)))
    | (calls, Ok (n, false)) =>
        match cancelled (S n) with
        | Some e => (calls, Fail e)
        | None => let '(calls', r) := startChainedFollowUp (S (S n)) turn output (fd_events feed) in (calls ++ calls', r)
        end
    end.
(** A request up to the output that is delivered. *)
Definition serve (req : Request) (turn : translatedTurn) : traced (translatedTurn * Output) :=
  match dispatch req turn with
  | (calls, Fail e) => (calls, Fail e)
  | (calls, Ok (turn, output)) => let '(calls', r) := maybeChainFollowUp turn output in (calls ++ calls', r)
  end.

(** ** Receipts *)
Definition HeaderUsageReceipt : string := "X-Cursor-Agent-V1-Usage-Receipt".
Definition HeaderUsageReplay : string := "X-Cursor-Agent-V1-Usage-Replay".
Definition usageReceiptID (turn : translatedTurn) : string :=
  let m := tt_managed turn in
  let billing := TrimSpace (mr_BillingRunID m) in
  if bool_decide (billing = "") then ""
  else
    let sum := digest (mr_CredentialScope m +:+ NUL +:+ mr_AccountKey m +:+ NUL +:+ billing) in
    (if isMeteredTurn billing then "cursor-agent-v1:turn:" else "cursor-agent-v1:") +:+ sum.
Definition executionHeaders (contentType : string) (turn : translatedTurn) : list (string * string) :=
  [("Content-Type", contentType)]
  ++ (if bool_decide (usageReceiptID turn = "") then [] else [(HeaderUsageReceipt, usageReceiptID turn)])
  ++ (if tt_replay turn then [(HeaderUsageReplay, "1")] else []).
End dispatch.
