(* ===== verification/DispatchProps.v ===== *)
(** * Properties of dispatch and of follow-up runs (src/cursoragentv1/executor.go)

    When the user's text next to tool results becomes a run of its own, and what
    becomes of the run before it. *)
From stdpp Require Import base tactics list gmap strings sorting.
From Stdlib Require Import Strings.Byte.
From S2P Require Import Prelude GoStrings Sha256 JsonValue Connect Data HostedPolicy EventSnapshot Segment StoreState Manager Media HostedSearch Projection Delivery History Translate TranslateRequest TranslateTurn Dispatch TranslateProps DeliveryProps.
Open Scope Z_scope.

(** ** Calls of a trace *)
Definition is_follow_up (c : call) : bool := match c with StartFollowUp _ _ => true | _ => false end.
Definition is_park_or_cancel (c : call) : bool := match c with Park _ _ | Cancel _ => true | _ => false end.
Definition follow_ups (calls : list call) : list call := List.filter is_follow_up calls.
Definition hands_off (events : list Event) : bool := existsb (fun e => bool_decide (ev_Type e = EventTurnEnded)) events.
Definition is_start (c : call) : bool := match c with Start _ | StartHistory _ | ResumeTools _ _ => true | _ => false end.

Section props.
Context `{JSON} `{Digest} `{SDK} (unicode_lower : string -> string).
Context (answer : call -> result Output) (cancelled parked : nat -> option Err).

(** ** The prior run *)
Lemma buffer_calls m n yet events final calls r :
  buffer_prior cancelled parked m n yet events final = (calls, r) -> Forall (fun c => is_park_or_cancel c = true) calls.
Proof.
  revert n yet calls r. induction events as [|event events IH]; intros n yet calls r; cbn [buffer_prior].
  - destruct (cancelled n); intros [= <- _]; [destruct yet|]; repeat constructor.
  - destruct (cancelled n); [intros [= <- _]; destruct yet; repeat constructor|]. case_bool_decide; [|apply IH].
    destruct (parked n) as [e|]; [destruct (errors_is e _); [|intros [= <- _]; by repeat constructor]|].
    all: destruct (buffer_prior _ _ _ _ _ _ _) as [calls' r'] eqn:E; intros [= <- _]; constructor; [done|by eapply IH].
Qed.
(** Without a hand-off nothing is parked, and a run that ended was read to its end. *)
Lemma buffer_spec m n yet events final calls last parked_now :
  buffer_prior cancelled parked m n yet events final = (calls, Ok (last, parked_now)) ->
  final = None /\ parked_now = yet || hands_off events /\ (hands_off events = false -> calls = []).
Proof.
  revert n yet calls last parked_now. induction events as [|event events IH]; intros n yet calls last parked_now; cbn [buffer_prior hands_off existsb].
  - destruct (cancelled n); [done|]. destruct final; [done|]. intros [= <- _ <-]. by rewrite orb_false_r.
  - destruct (cancelled n); [done|]. case_bool_decide as Ht; cbn [orb].
    + destruct (parked n) as [e|]; [destruct (errors_is e _); [|done]|].
      all: destruct (buffer_prior _ _ _ _ _ _ _) as [calls' r'] eqn:E; intros [= <- ->]; apply IH in E as (-> & -> & _); by rewrite orb_true_r.
    + intros E. by apply IH in E.
Qed.
Lemma follow_ups_none calls : Forall (fun c => is_park_or_cancel c = true) calls -> follow_ups calls = [].
Proof. induction 1 as [|c calls Hc _ IH]; [done|]. unfold follow_ups in *. cbn. by destruct c. Qed.
Lemma follow_ups_app calls calls' : follow_ups (calls ++ calls') = follow_ups calls ++ follow_ups calls'.
Proof. apply List.filter_app. Qed.

(** ** The follow-up *)
(** [c] starts the follow-up of [prior], whose events were [events]: in the same
    session, with the usage of [prior] carried unless that was billed as a run of
    another request. *)
Record continues (prior : Output) (events : list Event) (m : ManagedRequest) (request : ManagedRequest) : Prop := {
  ct_session : mr_SessionID request = mo_SessionID prior /\ mr_RequireExisting request = true;
  ct_text : mr_FollowUpText request = mr_FollowUpText m /\ TrimSpace (mr_FollowUpText request) <> "";
  ct_reuse : mr_ReuseBillingRun request = true -> mr_BillingRunID request = mo_BillingRunID prior /\
    mr_CarryUsage request = if isMeteredTurn (mo_BillingRunID prior) then meteredUsageCarry events else usageEvidenceEvents events;
  ct_fresh : mr_ReuseBillingRun request = false -> mo_Replay prior = true /\ mr_BillingRunID request = mr_RequestSegmentID request /\ mr_CarryUsage request = [] }.
(** [prior] is over: nobody has to answer calls first. *)
Definition finished (prior : Output) : Prop :=
  fd_result (mo_Feed prior) = None /\
  if mo_Replay prior then mo_FollowUpApplied prior = false /\ mo_HasPending prior = false else hands_off (fd_events (mo_Feed prior)) = false.
(** What a chain of calls after [prior] may be. *)
Inductive chained (turn : translatedTurn) (prior : Output) : list call -> result (translatedTurn * Output) -> Prop :=
  | chained_none calls e : follow_ups calls = [] -> chained turn prior calls (Fail e)
  | chained_same : blank (mr_FollowUpText (tt_managed turn)) = true \/ mo_Replay prior = true -> chained turn prior [] (Ok (turn, prior))
  | chained_parked calls : hands_off (fd_events (mo_Feed prior)) = true -> follow_ups calls = [] ->
      chained turn prior calls (Ok (turn, emitBufferedOutput prior (fd_events (mo_Feed prior))))
  | chained_run request covering r : finished prior -> continues prior (fd_events (mo_Feed prior)) (tt_managed turn) request ->
      (forall turn' output, r = Ok (turn', output) -> answer (StartFollowUp request covering) = Ok output /\ turn' = adopt turn output) ->
      chained turn prior [StartFollowUp request covering] r.
Lemma start_chained n turn prior events calls r :
  blank (mr_FollowUpText (tt_managed turn)) = false -> finished prior -> events = fd_events (mo_Feed prior) ->
  startChainedFollowUp answer cancelled n turn prior events = (calls, r) -> chained turn prior calls r.
Proof.
  intros Hb Hf -> . unfold startChainedFollowUp. destruct (cancelled n); [intros [= <- <-]; by apply chained_none|].
  destruct (followUpRequestID _ _) as [id|e]; [|intros [= <- <-]; by apply chained_none]. unfold asked. intros [= <- <-].
  apply chained_run; [done| |].
  - unfold follow_up_request. split; cbn; [done| | |].
    + split; [done|]. unfold blank in Hb. by apply bool_decide_eq_false in Hb.
    + intros E. apply negb_true_iff in E. rewrite E. done.
    + intros E. apply negb_false_iff in E. rewrite E. apply andb_true_iff in E as [-> _]. done.
  - intros turn' output. destruct (answer _) as [o|]; [|done]. by intros [= <- <-].
Qed.
Lemma chain_spec turn output calls r : maybeChainFollowUp answer cancelled parked turn output = (calls, r) -> chained turn output calls r.
Proof.
  unfold maybeChainFollowUp. destruct (blank _) eqn:Hb; [intros [= <- <-]; apply chained_same; by left|]. destruct (mo_Replay output) eqn:Hr.
  - destruct (_ || _) eqn:Hp; [intros [= <- <-]; apply chained_same; by right|]. apply orb_false_iff in Hp as [Hp1 Hp2].
    destruct (cancelled 0%nat); [intros [= <- <-]; by apply chained_none|].
    destruct (fd_result _) eqn:Hd; [intros [= <- <-]; by apply chained_none|]. apply start_chained; [done| |done]. split; [done|]. by rewrite Hr.
  - destruct (buffer_prior _ _ _ _ _ _ _) as [calls1 [[n p]|e]] eqn:Eb.
    + pose proof (buffer_calls _ _ _ _ _ _ _ Eb) as Hc. apply buffer_spec in Eb as (Hd & -> & Hnil). cbn [orb]. destruct (hands_off _) eqn:Hh.
      * intros [= <- <-]. apply chained_parked; [done|]. by apply follow_ups_none.
      * rewrite (Hnil eq_refl). destruct (cancelled (S n)); [intros [= <- <-]; by apply chained_none|].
        destruct (startChainedFollowUp _ _ _ _ _ _) as [calls' r'] eqn:E. intros [= <- <-]. eapply start_chained; [done| |done|exact E].
        split; [done|]. by rewrite Hr.
    + intros [= <- <-]. apply chained_none, follow_ups_none. by eapply buffer_calls.
Qed.
Definition succeeded (calls : list call) : list call := List.filter (fun c => is_ok (answer c)) calls.
Lemma dispatch_spec req turn calls r :
  dispatch unicode_lower answer req turn = (calls, r) ->
  Forall (fun c => is_start c = true) calls /\
  match r with
  | Fail _ => succeeded calls = []
  | Ok (_, output) => exists c, succeeded calls = [c] /\ answer c = Ok output
  end.
Proof.
  assert (forall c turn', is_start c = true -> start_turn answer c turn' = (calls, r) -> Forall (fun c => is_start c = true) calls /\
    match r with Fail _ => succeeded calls = [] | Ok (_, output) => exists c, succeeded calls = [c] /\ answer c = Ok output end) as Hone.
  { intros c turn' Hc. unfold start_turn, asked. intros [= <- <-]. split; [by repeat constructor|]. unfold succeeded. cbn.
    destruct (answer c) eqn:E; [|done]. cbn. exists c. by split. }
  unfold dispatch. destruct (negb _); [by apply Hone|]. destruct (bool_decide _); [by apply Hone|]. cbv zeta. clear Hone.
  destruct (answer (ResumeTools _ _)) as [output|e] eqn:Ea.
  - intros [= <- <-]. split; [by repeat constructor|]. eexists. split; [|exact Ea]. unfold succeeded. cbn. by rewrite Ea.
  - destruct (if errors_is e _ then _ else _) as [turn'|].
    + unfold start_turn, asked. intros [= <- <-]. split; [by repeat constructor|]. unfold succeeded. cbn. rewrite Ea. cbn.
      destruct (answer (Start _)) eqn:E; [|done]. cbn. eexists. split; [done|exact E].
    + intros [= <- <-]. split; [by repeat constructor|]. unfold succeeded. cbn. by rewrite Ea.
Qed.
End props.

(** C24 A request is one run and at most one follow-up: of the calls that start it (two,
    when a lost session is restarted) at most one succeeds; the run of a text next to
    tool results starts only after the run that took the results is over without
    asking for more, in its session, carrying its usage once; when that run asks for
    more tools, it is delivered instead and nothing else starts. *)
Theorem one_run_then_follow_up `{JSON} `{Digest} `{SDK} (unicode_lower : string -> string) (answer : call -> result Output)
    (cancelled parked : nat -> option Err) (req : Request) (turn : translatedTurn) (calls : list call) (r : result (translatedTurn * Output)) :
  serve unicode_lower answer cancelled parked req turn = (calls, r) ->
  exists first chain, calls = first ++ chain /\ Forall (fun c => is_start c = true) first /\
    ((chain = [] /\ succeeded answer first = [] /\ is_ok r = false) \/
     (exists c prior, succeeded answer first = [c] /\ answer c = Ok prior /\
        exists turn', dispatch unicode_lower answer req turn = (first, Ok (turn', prior)) /\ chained answer turn' prior chain r)).
Proof.
  unfold serve. destruct (dispatch _ _ _ _) as [first [[turn' prior]|e]] eqn:Ed; apply dispatch_spec in Ed as [Hs Ho].
  - destruct (maybeChainFollowUp _ _ _ _ _) as [chain r'] eqn:Ec. intros [= <- <-]. exists first, chain. split_and!; [done|done|]. right.
    destruct Ho as (c & Hc & Ha). exists c, prior. split_and!; [done|done|]. exists turn'. split; [done|]. by eapply chain_spec.
  - intros [= <- <-]. exists first, []. rewrite app_nil_r. split_and!; [done|done|]. by left.
Qed.

(** ** A turn that answers a call and asks for more *)
#[local] Existing Instance brace_json.
#[local] Existing Instance plain_url.
#[local] Existing Instance byte_tokens.
#[local] Existing Instance sample_sdk.
#[local] Existing Instance sha256_digest.
#[local] Instance projector : Projector (claudeProjection unit) := claude_projector no_translator same_body.
Definition answered : ToolResult := {| tr_ToolCallID := "call_0"; tr_Content := "sunny"; tr_IsError := false; tr_Media := [] |}.
Definition mixed_turn : translatedTurn :=
  let m := tt_managed sample_turn in set_managed (set_request "" "and tomorrow?" [answered] (mr_Run m) m) sample_turn.
(** The run that takes the results and ends with [events]. *)
Definition taken (events : list Event) : Output :=
  {| mo_RequestSegmentID := "seg"; mo_Feed := {| fd_events := events; fd_result := None |}; mo_SessionID := "session"; mo_BillingRunID := "run";
     mo_ConversationID := "conv"; mo_OriginalBatch := ["call_0"]; mo_Replay := false; mo_HasPending := false; mo_FollowUpApplied := false |}.
Definition done_events : list Event := [with_text "sunny" (event_of EventText)].
Definition asking_events : list Event := [with_tool_call (Some weather_call) (event_of EventToolCall); event_of EventTurnEnded].
Definition sample_served (events : list Event) : traced (translatedTurn * Output) :=
  serve same_text (fun _ => Ok (taken events)) steady steady sample_req mixed_turn.
Definition sample_calls : list call := (sample_served done_events).1.
Example follow_up_sample : (is_follow_up <$> sample_calls) = [false; true] /\ (is_start <$> sample_calls) = [true; false].
Proof. by vm_compute. Qed.
Lemma one_run_then_follow_up_witness :
  exists first chain, sample_calls = first ++ chain /\ Forall (fun c => is_start c = true) first /\
    ((chain = [] /\ succeeded (fun _ => Ok (taken done_events)) first = [] /\ is_ok (sample_served done_events).2 = false) \/
     (exists c prior, succeeded (fun _ => Ok (taken done_events)) first = [c] /\ Ok (taken done_events) = Ok prior /\
        exists turn', dispatch same_text (fun _ => Ok (taken done_events)) sample_req mixed_turn = (first, Ok (turn', prior)) /\
          chained (fun _ => Ok (taken done_events)) turn' prior chain (sample_served done_events).2)).
Proof. apply (one_run_then_follow_up same_text _ steady steady sample_req mixed_turn). apply surjective_pairing. Defined.

(** A hand-off that was buffered is delivered as an ordinary output: when the consumer
    leaves before its last payload, the session that was parked for it is cancelled. *)
Definition leaves (n : nat) : option Err := if (1 <=? n)%nat then Some ErrContextCanceled else None.
Lemma buffered_batch_cancelled :
  exists turn output,
    sample_served asking_events = ([ResumeTools (tt_managed mixed_turn) [answered]; Park (tt_managed turn) None], Ok (turn, output)) /\
    (ExecuteStream leaves steady (mo_Replay output) (mo_Feed output) (newClaudeProjection "uuid" tt turn)).1.1 = [CallCancel].
Proof.
  destruct (sample_served asking_events) as [calls [[turn output]|e]] eqn:E; [|by vm_compute in E].
  exists turn, output. vm_compute in E. injection E as <- <- <-. split; [reflexivity|]. vm_compute. reflexivity.
Qed.
