(* ===== verification/Credentials.v ===== *)
(** * Credentials of a run (src/cursoragentv1/executor.go, server_config.go, models.go)

    What an account's credential must hold, refreshing its access token, checking
    that the API key and the token belong to one identity, and discovering the agent
    server.  HTTP exchanges, decoding into structs, [url.Parse] and formatting of times
    are parameters; a call that joins the flight of another caller gets what that
    caller's arguments give. *)
From stdpp Require Import base tactics list gmap strings sorting.
From Stdlib Require Import Strings.Byte.
From S2P Require Import Prelude GoStrings Sha256 JsonValue Connect Data HostedPolicy Segment StoreState Manager Media HostedSearch Projection Translate TranslateRequest TranslateTurn.
Open Scope Z_scope.

Local Notation "x <-? m ;; k" := (rbind m (fun x => k)) (at level 100, m at next level, right associativity).

(** ** Constants *)
Definition serverConfigPath : string := "/aiserver.v1.ServerConfigService/GetServerConfig".
Definition serverConfigCacheTTL : Z := 600000000000.
Definition identityCheckCacheTTL : Z := 600000000000.
Definition serverConfigBodyLimit : nat := Z.to_nat 1048576.
Definition refreshBodyLimit : nat := Z.to_nat 1048576.
Definition defaultCursorClientType : string := "cli".
Definition defaultRefreshURL : string := "https://api2.cursor.sh/auth/exchange_user_api_key".
Definition minute : Z := 60000000000.
Definition unauthorized (text : string) : Err := ErrRequest 401 text.

(** ** Models (models.go) *)
Definition DefaultModels : list string :=
  ["claude-fable-5-1"; "claude-fable-5"; "claude-opus-5"; "claude-opus-4-6"; "claude-opus-4-7"; "claude-opus-4-8"; "claude-sonnet-4-6";
   "claude-sonnet-5"; "composer-2.5-fast"; "glm-5.2"; "kimi-k3"].
Definition SandModels : list string := ["grok-4.6"].
Definition ModelsForRuntimeProfile (profile : string) : list string :=
  if bool_decide (profile = runtimeSand) then DefaultModels ++ SandModels else DefaultModels.

(** ** [base64.RawURLEncoding.DecodeString] *)
Definition b64url_value (b : byte) : option Z :=
  let n := byteZ b in
  if (65 <=? n) && (n <=? 90) then Some (n - 65)
  else if (97 <=? n) && (n <=? 122) then Some (n - 71)
  else if (48 <=? n) && (n <=? 57) then Some (n + 4)
  else if n =? 45 then Some 62 else if n =? 95 then Some 63 else None.
Fixpoint b64url_groups (l : bytes) : option bytes :=
  match l with
  | [] => Some []
  | a :: b :: c :: d :: l =>
      x ← b64url_value a; y ← b64url_value b; z ← b64url_value c; t ← b64url_value d; rest ← b64url_groups l;
      Some (b64_group x y z t ++ rest)
  | [a; b; c] => x ← b64url_value a; y ← b64url_value b; z ← b64url_value c; Some (take 2 (b64_group x y z 0))
  | [a; b] => x ← b64url_value a; y ← b64url_value b; Some (take 1 (b64_group x y 0 0))
  | [_] => None
  end.
Definition raw_url_decode (s : string) : option bytes :=
  b64url_groups (List.filter (fun b => negb (Byte.eqb b x0a || Byte.eqb b x0d)) (to_bytes s)).
Fixpoint drop_slashes (l : bytes) : bytes := match l with x2f :: l => drop_slashes l | _ => l end.
(** [strings.TrimRight(s, "/")]. *)
Definition trim_slashes (s : string) : string := of_bytes (reverse (drop_slashes (reverse (to_bytes s)))).

(** ** What is outside *)
Record URL := { u_Scheme : string; u_Hostname : string; u_User : bool; u_RawQuery : string; u_Fragment : string }.
(** An HTTP exchange: the error of the request, or the status and the body read. *)
Class Outside := {
  url_parse : string -> option URL;
  http_new_request : string -> option Err;
  http_post : string -> list (string * string) -> result (Z * result bytes);
  decode_sub : bytes -> option string;
  decode_exp : bytes -> option Z;
  decode_token : bytes -> option (string * string);
  decode_config : bytes -> option (string * string);
  format_rfc3339 : Z -> string;
  format_rfc3339nano : Z -> string }.

(** ** The credential *)
Record Auth := { au_Metadata : object; au_Attributes : object; au_ProxyURL : string }.
Record executorCredentials := {
  ec_Scope : string; ec_AccountKey : string; ec_BaseURL : string; ec_ProxyURL : string; ec_AccessToken : string; ec_ClientVersion : string }.
Record refreshedCredential := { rc_accessToken : string; rc_refreshToken : string; rc_expired : string; rc_lastRefresh : string }.
Record caches := { ca_endpoint : gmap string (string * Z); ca_identity : gmap string (string * Z) }.
Definition no_caches : caches := {| ca_endpoint := ∅; ca_identity := ∅ |}.

Section credentials.
Context `{Digest} `{SDK} `{Outside} (unicode_lower : string -> string).
(** [e.refreshURL]; the time the clock shows; the caller of the flight a call joins;
    whether the context is done while a call waits. *)
Context (refreshURL : string) (now : Z).
Context (refresh_leader : string -> option Auth) (endpoint_leader : string -> option (string * string * string)).
Context (ctx_done : nat -> option Err).
Local Notation lower := (lower unicode_lower).

Definition metadataValue (auth : Auth) (key : string) : string := metadataString (au_Metadata auth) key.
Definition executorCredential (auth : option Auth) : result executorCredentials :=
  match auth with
  | None => Fail (unauthorized "Cursor Agent v1 credential is missing")
  | Some auth =>
      let token := metadataValue auth "access_token" in
      let account := metadataValue auth "account_id" in
      let base := trim_slashes (metadataValue auth "base_url") in
      let version := metadataValue auth "client_version" in
      let scope := match map_get (au_Attributes auth) "credential_scope" with AnyString s => TrimSpace s | _ => "" end in
      if bool_decide (token = "") then Fail (unauthorized "Cursor Agent v1 access token is missing")
      else if bool_decide (account = "") then Fail (unauthorized "Cursor Agent v1 stable account identity is missing")
      else if bool_decide (base = "") then Fail (unauthorized "Cursor Agent v1 base URL is missing")
      else if bool_decide (version = "") then Fail (unauthorized "Cursor Agent v1 client version is missing")
      else if bool_decide (scope = "") then Fail (bad_request "Cursor Agent v1 credential scope is missing")
      else Ok {| ec_Scope := scope; ec_AccountKey := account; ec_BaseURL := base; ec_ProxyURL := TrimSpace (au_ProxyURL auth);
                 ec_AccessToken := token; ec_ClientVersion := version |}
  end.
Definition cursorRuntimeProfile (auth : Auth) : result string :=
  let profile := lower (metadataValue auth "runtime_profile") in
  if bool_decide (profile = "") || bool_decide (profile = runtimeAgentV1) then Ok runtimeAgentV1
  else if bool_decide (profile = runtimeSand) then Ok runtimeSand
  else Fail (bad_request "Cursor Agent v1 runtime profile is invalid").

(** ** Tokens *)
Definition token_claims (token : string) : option bytes := part ← Split token x2e !! 1%nat; raw_url_decode part.
Definition cursorTokenSubject (token : string) : string :=
  match token_claims (TrimSpace token) with Some payload => match decode_sub payload with Some sub => TrimSpace sub | None => "" end | None => "" end.
(** [None]: the zero time. *)
Definition jwtExpiry (token : string) : option Z :=
  raw ← token_claims token; exp ← decode_exp raw; if exp <=? 0 then None else Some (exp * 1000000000).
Definition digestBootstrapKey (parts : list string) : string := digest (Join parts NUL).

(** ** Refreshing *)
Definition errIdentities : Err := unauthorized "Cursor Agent v1 API key and access token belong to different identities".
Definition ok_status (status : Z) : bool := (200 <=? status) && (status <? 300).
Definition refreshOnce (auth : Auth) : result refreshedCredential :=
  let url := if blank refreshURL then defaultRefreshURL else TrimSpace refreshURL in
  match http_new_request url with
  | Some e => Fail e
  | None =>
      response <-? http_post url [("Authorization", "Bearer " +:+ metadataValue auth "api_key"); ("Content-Type", "application/json"); ("Accept", "application/json")] ;;
      let '(status, body) := response in
      body <-? body ;;
      if negb (ok_status status) then Fail (ErrHTTP status ("Cursor Agent v1 refresh HTTP " +:+ Itoa status))
      else
        match decode_token (take refreshBodyLimit body) with
        | None => Fail (ErrMsg "Cursor Agent v1 refresh response is invalid")
        | Some (access, refresh) =>
            if blank access then Fail (ErrMsg "Cursor Agent v1 refresh response is invalid")
            else
              let current := cursorTokenSubject (metadataValue auth "access_token") in
              let refreshed := cursorTokenSubject access in
              if negb (bool_decide (current = "")) && (bool_decide (refreshed = "") || negb (bool_decide (refreshed = current)))
              then Fail errIdentities
              else Ok {| rc_accessToken := TrimSpace access; rc_refreshToken := TrimSpace refresh;
                         rc_expired := match jwtExpiry access with Some expiry => format_rfc3339 expiry | None => "" end;
                         rc_lastRefresh := format_rfc3339nano now |}
        end
  end.
Definition set_nonempty (key value : string) (m : object) : object := if bool_decide (value = "") then m else map_set m key (AnyString value).
Definition Refresh (n : nat) (auth : option Auth) : result Auth :=
  match auth with
  | None => Fail (unauthorized "Cursor Agent v1 API key is required to refresh access token")
  | Some auth =>
      if blank (metadataValue auth "api_key") then Fail (unauthorized "Cursor Agent v1 API key is required to refresh access token")
      else
        let account := metadataValue auth "account_id" in
        let activating := bool_decide (account = "") && bool_decide (metadataValue auth "access_token" = "") in
        if bool_decide (account = "") && negb activating then Fail (unauthorized "Cursor Agent v1 account id is required for refresh")
        else
          match ctx_done n with
          | Some e => Fail e
          | None =>
              let leader := default auth (refresh_leader (digest (account +:+ NUL +:+ metadataValue auth "api_key"))) in
              refreshed <-? refreshOnce leader ;;
              let subject := cursorTokenSubject (rc_accessToken refreshed) in
              if activating && bool_decide (subject = "") then Fail (unauthorized "Cursor Agent v1 access token has no identity subject")
              else
                let m := map_set (au_Metadata auth) "access_token" (AnyString (rc_accessToken refreshed)) in
                let m := if activating then map_set m "account_id" (AnyString subject) else m in
                let m := set_nonempty "expired" (rc_expired refreshed) (set_nonempty "refresh_token" (rc_refreshToken refreshed) m) in
                Ok {| au_Metadata := map_set m "last_refresh" (AnyString (rc_lastRefresh refreshed)); au_Attributes := au_Attributes auth;
                      au_ProxyURL := au_ProxyURL auth |}
          end
  end.

(** ** Identity *)
Definition fresh_entry (entry : option (string * Z)) : option string :=
  match entry with Some (value, expires) => if now <? expires then Some value else None | None => None end.
Definition validateCursorCredentialIdentity (auth : Auth) (accessToken : string) (c : caches) : result string * caches :=
  let configured := cursorTokenSubject accessToken in
  let apiKey := metadataValue auth "api_key" in
  if bool_decide (configured = "") then (Ok accessToken, c)
  else if bool_decide (apiKey = "") then (Fail (unauthorized "Cursor Agent v1 API key is required to validate credential identity"), c)
  else
    let key := digestBootstrapKey ["identity"; apiKey; configured] in
    match fresh_entry (ca_identity c !! key) with
    | Some value => (Ok value, c)
    | None =>
        match Refresh 0 (Some auth) with
        | Fail e => (Fail e, c)
        | Ok refreshedAuth =>
            let token := metadataValue refreshedAuth "access_token" in
            let subject := cursorTokenSubject token in
            if bool_decide (subject = "") || negb (bool_decide (subject = configured)) then (Fail errIdentities, c)
            else
              let expires := now + identityCheckCacheTTL in
              let expires := match jwtExpiry token with Some t => Z.min expires (t - minute) | None => expires end in
              (Ok token, {| ca_endpoint := ca_endpoint c; ca_identity := <[key := (token, expires)]> (ca_identity c) |})
        end
    end.

(** ** The agent server *)
Definition cursorHost : string := "cursor.sh".
Definition isCursorControlPlaneBaseURL (raw : string) : bool :=
  match url_parse (TrimSpace raw) with
  | Some u => EqualFoldASCII (u_Scheme u) "https" && EqualFoldASCII (u_Hostname u) "api2.cursor.sh"
  | None => false
  end.
Definition validateDiscoveredCursorAgentURL (raw : string) : option Err :=
  let invalid := ErrMsg "Cursor Agent v1 server config returned an invalid Agent URL" in
  match url_parse (TrimSpace raw) with
  | None => Some invalid
  | Some u =>
      if negb (EqualFoldASCII (u_Scheme u) "https") || bool_decide (u_Hostname u = "") || u_User u || negb (bool_decide (u_RawQuery u = ""))
         || negb (bool_decide (u_Fragment u = ""))
      then Some invalid
      else
        let host := lower (u_Hostname u) in
        if negb (bool_decide (host = cursorHost)) && negb (HasSuffix host ("." +:+ cursorHost))
        then Some (ErrMsg "Cursor Agent v1 server config returned an untrusted Agent host") else None
  end.
Definition fetchCursorServerConfig (baseURL accessToken clientVersion : string) : result string :=
  match http_new_request (baseURL +:+ serverConfigPath) with
  | Some e => Fail e
  | None =>
      match http_post (baseURL +:+ serverConfigPath)
              [("Authorization", "Bearer " +:+ TrimSpace accessToken); ("Content-Type", "application/json"); ("Connect-Protocol-Version", "1");
               ("X-Cursor-Client-Type", defaultCursorClientType); ("X-Cursor-Client-Version", TrimSpace clientVersion)] with
      | Fail e => Fail (ErrWrap "Cursor Agent v1 server config request: " e)
      | Ok (status, Fail e) => Fail (ErrWrap "Cursor Agent v1 server config read: " e)
      | Ok (status, Ok body) =>
          if (serverConfigBodyLimit <? length body)%nat then Fail (ErrMsg "Cursor Agent v1 server config response is too large")
          else if negb (ok_status status) then Fail (ErrHTTP status ("Cursor Agent v1 server config HTTP " +:+ Itoa status))
          else
            match decode_config body with
            | None => Fail (ErrWrap "Cursor Agent v1 server config is invalid: " (ErrMsg "json"))
            | Some (agentN, agent) =>
                let resolved := trim_slashes (TrimSpace agentN) in
                let resolved := if bool_decide (resolved = "") then trim_slashes (TrimSpace agent) else resolved in
                match validateDiscoveredCursorAgentURL resolved with Some e => Fail e | None => Ok resolved end
            end
      end
  end.
Definition resolveCursorAgentBaseURL (baseURL accessToken clientVersion : string) (c : caches) : result string * caches :=
  let baseURL := trim_slashes (TrimSpace baseURL) in
  if negb (isCursorControlPlaneBaseURL baseURL) then (Ok baseURL, c)
  else
    let key := digestBootstrapKey ["endpoint"; baseURL; cursorTokenSubject accessToken] in
    match fresh_entry (ca_endpoint c !! key) with
    | Some value => (Ok value, c)
    | None =>
        match ctx_done 1 with
        | Some e => (Fail e, c)
        | None =>
            let '(base, token, version) := default (baseURL, accessToken, clientVersion) (endpoint_leader key) in
            match fetchCursorServerConfig base token version with
            | Fail e => (Fail e, c)
            | Ok resolved =>
                (Ok resolved, {| ca_endpoint := <[key := (resolved, now + serverConfigCacheTTL)]> (ca_endpoint c); ca_identity := ca_identity c |})
            end
        end
    end.
Definition bootstrapCursorRun (auth : Auth) (baseURL accessToken clientVersion : string) (c : caches) : result (string * string) * caches :=
  let '(token, c) := validateCursorCredentialIdentity auth accessToken c in
  match token with
  | Fail e => (Fail e, c)
  | Ok token =>
      let '(url, c) := resolveCursorAgentBaseURL baseURL token clientVersion c in
      (match url with Ok url => Ok (url, token) | Fail e => Fail e end, c)
  end.
(** ** [profileRunner.Run]: which runner a request goes to ([true]: Sand) *)
Definition pick_runner (profile : string) : result bool :=
  let name := lower (TrimSpace profile) in
  if bool_decide (name = "") || bool_decide (name = runtimeAgentV1) then Ok false
  else if bool_decide (name = runtimeSand) then Ok true
  else Fail (ErrMsg ("Cursor Agent v1 runtime profile " +:+ Quote profile +:+ " is invalid")).
End credentials.
