(* ===== verification/CredentialsProps.v ===== *)
(** * Properties of credentials (src/cursoragentv1/server_config.go)

    A run uses a token of the identity it was configured with, and sends it to the
    configured server or to one of Cursor's own. *)
From stdpp Require Import base tactics list gmap strings sorting.
From Stdlib Require Import Strings.Byte.
From S2P Require Import Prelude GoStrings Sha256 JsonValue Connect Data HostedPolicy Segment StoreState Manager Media HostedSearch Projection Translate TranslateRequest TranslateTurn Credentials.
Open Scope Z_scope.

(** The materials of identity keys. *)
Definition identity_fields (apiKey subject : string) : list string := ["identity"; apiKey; subject].
Definition identity_material (m : string) : Prop :=
  exists apiKey subject, nul_free apiKey = true /\ nul_free subject = true /\ m = Join (identity_fields apiKey subject) NUL.
Lemma identity_material_inj a s a' s' :
  nul_free a = true -> nul_free s = true -> nul_free a' = true -> nul_free s' = true ->
  Join (identity_fields a s) NUL = Join (identity_fields a' s') NUL -> a = a' /\ s = s'.
Proof.
  intros Ha Hs Ha' Hs' E. assert (identity_fields a s = identity_fields a' s') as [= -> ->]; [|done].
  apply fields_inj; [unfold identity_fields; cbn [forallb]; rewrite ?Ha, ?Hs, ?Ha', ?Hs'; done..|].
  rewrite <-!fields_Join by done. by rewrite E.
Qed.

Section props.
Context `{Digest} `{SDK} `{Outside} (unicode_lower : string -> string) (refreshURL : string) (now : Z).
Context (refresh_leader : string -> option Auth) (endpoint_leader : string -> option (string * string * string)) (ctx_done : nat -> option Err).

(** A server the token may be sent to. *)
Definition trusted (raw : string) : Prop :=
  exists u, url_parse (TrimSpace raw) = Some u /\ EqualFoldASCII (u_Scheme u) "https" = true /\ u_User u = false /\
    let host := lower unicode_lower (u_Hostname u) in host = cursorHost \/ exists d, host = d +:+ "." +:+ cursorHost.
Record caches_ok (c : caches) : Prop := {
  co_endpoint : forall k v t, ca_endpoint c !! k = Some (v, t) -> trusted v;
  co_identity : forall k v t, ca_identity c !! k = Some (v, t) -> exists apiKey subject,
    nul_free apiKey = true /\ nul_free subject = true /\ k = digestBootstrapKey (identity_fields apiKey subject) /\ cursorTokenSubject v = subject }.
Lemma no_caches_ok : caches_ok no_caches.
Proof. split; intros k v t; cbn; by rewrite lookup_empty. Qed.
Lemma discovered_trusted raw : validateDiscoveredCursorAgentURL unicode_lower raw = None -> trusted raw.
Proof.
  unfold validateDiscoveredCursorAgentURL. destruct (url_parse _) as [u|] eqn:E; [|done]. destruct (_ || _) eqn:Hg; [done|].
  apply orb_false_iff in Hg as [[[[Hs _]%orb_false_iff Hu]%orb_false_iff _]%orb_false_iff _]. apply negb_false_iff in Hs.
  destruct (_ && _) eqn:Hh; [done|]. intros _. exists u. split_and!; [done..|]. apply andb_false_iff in Hh as [Hh|Hh]; apply negb_false_iff in Hh.
  - left. by apply bool_decide_eq_true in Hh.
  - right. by apply HasSuffix_spec in Hh.
Qed.
Lemma fetched_trusted base token version url : fetchCursorServerConfig unicode_lower base token version = Ok url -> trusted url.
Proof.
  unfold fetchCursorServerConfig. destruct (http_new_request _); [done|]. destruct (http_post _ _) as [[status [body|e]]|e]; [|done..].
  destruct (_ <? _)%nat; [done|]. destruct (negb _); [done|]. destruct (decode_config body) as [[agentN agent]|]; [|done].
  destruct (validateDiscoveredCursorAgentURL _ _) eqn:E; [done|]. intros [= <-]. by apply discovered_trusted.
Qed.
Lemma fresh_entry_Some entry value : fresh_entry now entry = Some value -> exists t, entry = Some (value, t).
Proof. destruct entry as [[v t]|]; [|done]. cbn. destruct (_ <? _); [|done]. intros [= ->]. by exists t. Qed.

Lemma identity_kept (auth : Auth) accessToken c r c' :
  caches_ok c -> CollisionFree identity_material -> nul_free (metadataValue auth "api_key") = true -> nul_free (cursorTokenSubject accessToken) = true ->
  validateCursorCredentialIdentity refreshURL now refresh_leader ctx_done auth accessToken c = (r, c') ->
  caches_ok c' /\ forall token, r = Ok token -> cursorTokenSubject token = cursorTokenSubject accessToken.
Proof.
  intros Hc Hcf Hk Hs. unfold validateCursorCredentialIdentity. case_bool_decide as H3; [intros [= <- <-]; split; [done|by intros token [= <-]]|].
  case_bool_decide; [by intros [= <- <-]|]. cbv zeta. destruct (fresh_entry _ _) as [value|] eqn:Ef.
  - intros [= <- <-]. split; [done|]. intros token [= <-]. apply fresh_entry_Some in Ef as [t Ef].
    apply (co_identity _ Hc) in Ef as (a & s & Ha & Hs' & E & Hv). apply Hcf in E; [|by exists (metadataValue auth "api_key"), (cursorTokenSubject accessToken)|by exists a, s].
    apply identity_material_inj in E as [_ E]; [|done..]. by rewrite Hv.
  - destruct (Refresh _ _ _ _ _ _) as [auth'|e]; [|by intros [= <- <-]]. destruct (_ || _) eqn:Hg; [by intros [= <- <-]|].
    apply orb_false_iff in Hg as [_ Hg]. apply negb_false_iff, bool_decide_eq_true in Hg. intros [= <- <-]. split; [|by intros token [= <-]].
    destruct Hc as [G1 G2]. split; [done|]. cbn. intros k v t. rewrite lookup_insert_Some. intros [[<- [= <- <-]]|[_ E]]; [|by eapply G2].
    by exists (metadataValue auth "api_key"), (cursorTokenSubject accessToken).
Qed.
Lemma endpoint_kept baseURL token version c r c' :
  caches_ok c -> resolveCursorAgentBaseURL unicode_lower now endpoint_leader ctx_done baseURL token version c = (r, c') ->
  caches_ok c' /\ forall url, r = Ok url -> isCursorControlPlaneBaseURL url = false /\ url = trim_slashes (TrimSpace baseURL) \/ trusted url.
Proof.
  intros Hc. unfold resolveCursorAgentBaseURL. destruct (isCursorControlPlaneBaseURL _) eqn:Hp; cbn [negb].
  - destruct (fresh_entry _ _) as [value|] eqn:Ef.
    + intros [= <- <-]. split; [done|]. intros url [= <-]. right. apply fresh_entry_Some in Ef as [t Ef]. by eapply co_endpoint.
    + destruct (ctx_done 1); [by intros [= <- <-]|]. destruct (default _ _) as [[base token'] version'].
      destruct (fetchCursorServerConfig _ _ _ _) as [resolved|e] eqn:Er; [|by intros [= <- <-]]. apply fetched_trusted in Er.
      intros [= <- <-]. split; [|intros url [= <-]; by right]. destruct Hc as [G1 G2]. split; [|done]. cbn. intros k v t.
      rewrite lookup_insert_Some. intros [[_ [= <- _]]|[_ E]]; [done|by eapply G1].
  - intros [= <- <-]. split; [done|]. intros url [= <-]. by left.
Qed.
End props.

(** A run is bootstrapped for the identity it was configured with: the token it gets
    has the subject of the configured token, the server it is sent to is the
    configured one, or, behind the control plane, an https server of cursor.sh without
    user information; and what the caches keep stays so for later runs. *)
Theorem run_credential_safe `{Digest} `{SDK} `{Outside} (unicode_lower : string -> string) (refreshURL : string) (now : Z)
    (refresh_leader : string -> option Auth) (endpoint_leader : string -> option (string * string * string)) (ctx_done : nat -> option Err)
    (auth : Auth) (baseURL accessToken clientVersion : string) (c c' : caches) (r : result (string * string)) :
  caches_ok unicode_lower c -> CollisionFree identity_material ->
  nul_free (metadataValue auth "api_key") = true -> nul_free (cursorTokenSubject accessToken) = true ->
  bootstrapCursorRun unicode_lower refreshURL now refresh_leader endpoint_leader ctx_done auth baseURL accessToken clientVersion c = (r, c') ->
  caches_ok unicode_lower c' /\
  forall url token, r = Ok (url, token) ->
    cursorTokenSubject token = cursorTokenSubject accessToken /\
    (isCursorControlPlaneBaseURL url = false /\ url = trim_slashes (TrimSpace baseURL) \/ trusted unicode_lower url).
Proof.
  intros Hc Hcf Hk Hs. unfold bootstrapCursorRun. destruct (validateCursorCredentialIdentity _ _ _ _ _ _ _) as [token1 c1] eqn:Ev.
  apply (identity_kept unicode_lower) in Ev as [Hc1 Hid]; [|done..]. destruct token1 as [token1|e]; [|by intros [= <- <-]].
  destruct (resolveCursorAgentBaseURL _ _ _ _ _ _ _ _) as [url1 c2] eqn:Eu. apply endpoint_kept in Eu as [Hc2 Hu]; [|done].
  intros [= <- <-]. split; [done|]. intros url token. destruct url1 as [url1|]; [|done]. intros [= -> ->]. split; [by apply Hid|by apply Hu].
Qed.

(** ** A concrete account behind the control plane *)
Definition sample_token : string := "h.dXNlcg.s".
Definition agent_url : string := "https://agent.cursor.sh".
Definition sample_outside : Outside :=
  {| url_parse raw := Some {| u_Scheme := "https"; u_Hostname := TrimPrefix raw "https://"; u_User := false; u_RawQuery := ""; u_Fragment := "" |};
     http_new_request _ := None; http_post _ _ := Ok (200, Ok []); decode_sub payload := Some (of_bytes payload); decode_exp _ := None;
     decode_token _ := Some (sample_token, ""); decode_config _ := Some (agent_url, ""); format_rfc3339 _ := ""; format_rfc3339nano _ := "" |}.
Definition plain_digest : Digest := fun m => m.
Definition sample_metadata : SDK :=
  {| TranslateRequest _ _ payload := payload; format_name _ := ""; ExecutionSessionMetadataKey := ""; RequestedModelMetadataKey := ""; sprint _ := "";
     decode_previous_response_id _ := None |}.
#[local] Existing Instance sample_outside.
#[local] Existing Instance plain_digest.
#[local] Existing Instance sample_metadata.
Definition sample_auth : Auth :=
  {| au_Metadata := [("api_key", AnyString "key"); ("access_token", AnyString sample_token); ("account_id", AnyString "user")]; au_Attributes := []; au_ProxyURL := "" |}.
Definition alone {A} (_ : string) : option A := None.
Definition unlimited (_ : nat) : option Err := None.
Definition unlowered (s : string) : string := s.
Definition sample_bootstrap : result (string * string) * caches :=
  bootstrapCursorRun unlowered "" 0 alone alone unlimited sample_auth "https://api2.cursor.sh/" sample_token "1" no_caches.
Definition sample_caches : caches := sample_bootstrap.2.
Lemma sample_bootstraps :
  bootstrapCursorRun unlowered "" 0 alone alone unlimited sample_auth "https://api2.cursor.sh/" sample_token "1" no_caches =
  (Ok (agent_url, sample_token), sample_caches).
Proof. vm_compute. reflexivity. Qed.
Lemma run_credential_safe_witness :
  cursorTokenSubject sample_token = "user" /\ caches_ok unlowered sample_caches /\
  (isCursorControlPlaneBaseURL agent_url = false /\ agent_url = trim_slashes (TrimSpace "https://api2.cursor.sh/") \/ trusted unlowered agent_url).
Proof.
  assert (cursorTokenSubject sample_token = "user") as Es by (vm_compute; reflexivity). split; [exact Es|].
  assert (nul_free (cursorTokenSubject sample_token) = true) as En by (rewrite Es; vm_compute; reflexivity).
  destruct (run_credential_safe unlowered "" 0 alone alone unlimited sample_auth "https://api2.cursor.sh/" sample_token "1" no_caches sample_caches
    (Ok (agent_url, sample_token)) (no_caches_ok unlowered) (fun a b _ _ E => E) eq_refl En sample_bootstraps) as [Hc Hr].
  split; [exact Hc|]. exact (proj2 (Hr agent_url sample_token eq_refl)).
Defined.
