(* ===== verification/Effects.v ===== *)
(** * A state and error monad, and its logic

    Handlers over any record of state: they return a value or fail, and the state
    they leave is kept on both ways.  [ewp m Q E s]: run from [s], [m] returns a value
    and a state in [Q], or fails with an error and a state in [E]. *)
From stdpp Require Import base tactics.
From S2P Require Import Prelude.

Definition eff (S A : Type) : Type := S -> result A * S.
Section monad.
Context {S : Type}.
Definition eret {A} (a : A) : eff S A := fun s => (Ok a, s).
Definition ebind {A B} (m : eff S A) (k : A -> eff S B) : eff S B :=
  fun s => match m s with (Ok a, s) => k a s | (Fail e, s) => (Fail e, s) end.
Definition efail {A} (e : Err) : eff S A := fun s => (Fail e, s).
Definition eget {A} (f : S -> A) : eff S A := fun s => (Ok (f s), s).
Definition emodify (f : S -> S) : eff S unit := fun s => (Ok tt, f s).
Definition elift {A} (r : result A) : eff S A := fun s => (r, s).
Fixpoint efor {A} (f : A -> eff S unit) (l : list A) : eff S unit :=
  match l with [] => eret tt | a :: l => ebind (f a) (fun _ => efor f l) end.

(** ** Logic *)
Definition ewp {A} (m : eff S A) (Q : A -> S -> Prop) (E : Err -> S -> Prop) (s : S) : Prop :=
  match m s with (Ok a, s) => Q a s | (Fail e, s) => E e s end.
Lemma ewp_ret {A} (a : A) (Q : A -> S -> Prop) E s : Q a s -> ewp (eret a) Q E s.
Proof. done. Qed.
Lemma ewp_fail {A} e (Q : A -> S -> Prop) (E : Err -> S -> Prop) s : E e s -> ewp (efail e) Q E s.
Proof. done. Qed.
Lemma ewp_get {A} (f : S -> A) (Q : A -> S -> Prop) E s : Q (f s) s -> ewp (eget f) Q E s.
Proof. done. Qed.
Lemma ewp_modify (f : S -> S) (Q : unit -> S -> Prop) E s : Q tt (f s) -> ewp (emodify f) Q E s.
Proof. done. Qed.
Lemma ewp_lift {A} (r : result A) (Q : A -> S -> Prop) (E : Err -> S -> Prop) s :
  (forall a, r = Ok a -> Q a s) -> (forall e, r = Fail e -> E e s) -> ewp (elift r) Q E s.
Proof. unfold ewp, elift. destruct r; intros HQ HE; [by apply HQ|by eapply HE]. Qed.
Lemma ewp_bind {A B} (m : eff S A) (k : A -> eff S B) (Q : B -> S -> Prop) E s :
  ewp m (fun a => ewp (k a) Q E) E s -> ewp (ebind m k) Q E s.
Proof. unfold ewp, ebind. destruct (m s) as [[a|e] s']; done. Qed.
Lemma ewp_mono {A} (m : eff S A) (Q Q' : A -> S -> Prop) (E E' : Err -> S -> Prop) s :
  ewp m Q E s -> (forall a s', Q a s' -> Q' a s') -> (forall e s', E e s' -> E' e s') -> ewp m Q' E' s.
Proof. unfold ewp. destruct (m s) as [[a|e] s']; auto. Qed.
Lemma ewp_for {A} (f : A -> eff S unit) (l : list A) (I : S -> Prop) (E : Err -> S -> Prop) s :
  (forall a s, a ∈ l -> I s -> ewp (f a) (fun _ => I) E s) -> I s -> ewp (efor f l) (fun _ => I) E s.
Proof.
  revert s. induction l as [|a l IH]; cbn [efor]; intros s Hf Hs; [done|].
  apply ewp_bind. eapply ewp_mono; [apply Hf; [by left|done]| |done].
  intros ? s' G. apply IH; [|done]. intros a' s1 Ha; apply Hf; by right.
Qed.
(** What a result says, from the logic. *)
Lemma ewp_run {A} (m : eff S A) (Q : A -> S -> Prop) (E : Err -> S -> Prop) s r s' :
  ewp m Q E s -> m s = (r, s') -> match r with Ok a => Q a s' | Fail e => E e s' end.
Proof. unfold ewp. intros Hw Hm. rewrite Hm in Hw. by destruct r. Qed.
End monad.

Declare Scope eff_scope.
Delimit Scope eff_scope with eff.
Notation "x <- m ;; k" := (ebind m (fun x => k)) (at level 100, m at next level, right associativity) : eff_scope.
Notation "m ;;; k" := (ebind m (fun _ => k)) (at level 100, right associativity) : eff_scope.

(** One step of a handler; [ewp_steps] takes all that are determined by its text. *)
Ltac ewp_step :=
  lazymatch goal with
  | |- ewp (ebind _ _) _ _ _ => apply ewp_bind
  | |- ewp (eret _) _ _ _ => apply ewp_ret
  | |- ewp (efail _) _ _ _ => apply ewp_fail
  | |- ewp (eget _) _ _ _ => apply ewp_get; cbv beta
  | |- ewp (emodify _) _ _ _ => apply ewp_modify; cbv beta
  | |- ewp (elift _) _ _ _ => apply ewp_lift; intros ? ?
  | |- ewp (if ?b then _ else _) _ _ _ => let E := fresh "C" in destruct b eqn:E
  | |- ewp (match ?x with _ => _ end) _ _ _ => let E := fresh "C" in destruct x eqn:E
  end.
Ltac ewp_steps := repeat ewp_step.
