(* ===== verification/Sand.v ===== *)
(** * The Sand profile: models, signatures, hosted tools, checkpoints
    (src/cursoragentv1/inference_parameters.go, inference_reasoning.go, inference_web.go,
    inference_checkpoint.go)

    What a run on Cursor's inference service needs around its stream: the model and
    its parameters, which reasoning signatures may be replayed, the private web tools
    and their limits, and the checkpoint that carries a conversation from one segment to
    the next. *)
From stdpp Require Import base tactics list gmap strings sorting.
From Stdlib Require Import Strings.Byte.
From S2P Require Import Prelude GoStrings Sha256 JsonValue Connect Data Json HostedPolicy Segment StoreState Manager Media HostedSearch Projection History Translate TranslateRequest TranslateTurn Credentials.
Open Scope Z_scope.

Local Notation "x <-? m ;; k" := (rbind m (fun x => k)) (at level 100, m at next level, right associativity).

(** ** What is outside *)
(** [gjson.GetBytes(..).String()]; the HTTP transport of a proxy; the answer to the n-th
    web request of a run; decoding the answers of the web services and a checkpoint;
    [structpb.NewStruct], [NewValue] ([None]: an error) and marshalling the message. *)
Class SandOutside := {
  gjson_string : bytes -> string -> string;
  http2_transport : string -> option Err;
  web_post : nat -> string -> list (string * string) -> bytes -> result (Z * result bytes);
  decode_search : bytes -> option (string * list (string * string * string));
  decode_fetch : bytes -> option (option string * option (string * bool));
  decode_checkpoint : bytes -> option (Z * string * list bytes);
  struct_marshal : object -> option (result bytes);
  value_marshal : any -> option (result bytes) }.

(** ** Options of a run *)
Definition options_with (effort context : string) (thinking : option bool) (drop require : bool) (system : string) (history : list bytes)
    (key : string) (o : RunOptions) : RunOptions :=
  {| ro_HistoryRequestKey := key; ro_BaseURL := ro_BaseURL o; ro_ProxyURL := ro_ProxyURL o; ro_AccessToken := ro_AccessToken o;
     ro_ClientVersion := ro_ClientVersion o; ro_RouteChannelID := ro_RouteChannelID o; ro_RouteUserID := ro_RouteUserID o; ro_Model := ro_Model o;
     ro_UserMedia := ro_UserMedia o; ro_ThinkingEnabled := ro_ThinkingEnabled o; ro_ReasoningEffort := effort; ro_InferenceContext := context;
     ro_InferenceThinking := thinking; ro_dropReasoningSignatures := drop; ro_SystemText := system; ro_HistoryMessages := history;
     ro_AllowHostedSearch := ro_AllowHostedSearch o; ro_AllowHostedFetch := ro_AllowHostedFetch o; ro_RequireHostedSearch := ro_RequireHostedSearch o;
     ro_RequireHostedFetch := ro_RequireHostedFetch o; ro_RequireHostedTool := ro_RequireHostedTool o;
     ro_HostedSearchMaxUses := ro_HostedSearchMaxUses o; ro_HostedFetchMaxUses := ro_HostedFetchMaxUses o;
     ro_HostedSearchDomains := ro_HostedSearchDomains o; ro_HostedFetchDomains := ro_HostedFetchDomains o;
     ro_RequireToolCall := require; ro_MaxParallelTools := ro_MaxParallelTools o; ro_DeleteCompletedState := ro_DeleteCompletedState o |}.
(** The run with other messages. *)
Definition with_messages (system : string) (history : list bytes) (o : RunOptions) : RunOptions :=
  options_with (ro_ReasoningEffort o) (ro_InferenceContext o) (ro_InferenceThinking o) (ro_dropReasoningSignatures o) (ro_RequireToolCall o)
    system history (ro_HistoryRequestKey o) o.
Definition run_with (options : RunOptions) (userText : string) (tools : list ToolDefinition) (checkpoint : bytes) (resume : bool) (r : RunRequest) : RunRequest :=
  {| rr_Options := options; rr_RuntimeProfile := rr_RuntimeProfile r; rr_ConversationID := rr_ConversationID r; rr_UserText := userText;
     rr_FollowUpText := rr_FollowUpText r; rr_Tools := tools; rr_InitialCheckpoint := checkpoint; rr_InitialBlobs := rr_InitialBlobs r;
     rr_Resume := resume |}.

Section parameters.
Context `{SandOutside} (unicode_lower : string -> string).
Local Notation lower := (lower unicode_lower).

(** ** What the caller asked for (inference_parameters.go) *)
Definition gjson_keyword (payload : bytes) (path : string) : string := lower (TrimSpace (gjson_string payload path)).
Definition originalReasoningEffort (req : Request) : string :=
  match rq_Format req with
  | FormatOpenAI =>
      let value := TrimSpace (gjson_string (rq_Payload req) "reasoning_effort") in
      if bool_decide (value = "") then gjson_keyword (rq_Payload req) "reasoning.effort" else lower value
  | FormatOpenAIResponse => gjson_keyword (rq_Payload req) "reasoning.effort"
  | _ => gjson_keyword (rq_Payload req) "output_config.effort"
  end.
Definition originalInferenceContext (req : Request) : string := gjson_keyword (rq_Payload req) "cursor_context".
Definition originalInferenceThinking (req : Request) : option bool :=
  let value := gjson_keyword (rq_Payload req) "thinking.type" in
  if bool_decide (value = "enabled") || bool_decide (value = "adaptive") then Some true
  else if bool_decide (value = "disabled") then Some false else None.

(** *** Models (inference_wire.go) *)
Record inferenceModelSpec := { im_ID : string; im_Parameters : list (string * string); im_BuiltIn : bool; im_MaxMode : bool }.
Definition hasParameter (id : string) (spec : inferenceModelSpec) : bool := bool_decide (id ∈ (im_Parameters spec).*1).
Definition inferenceModelSupportsThinkingParameter (modelID : string) : bool := HasPrefix (lower (TrimSpace modelID)) "claude-".
Definition grok_model (value prefix id : string) : option (result (string * string)) :=
  if HasPrefix value prefix then
    let effort := TrimPrefix value prefix in
    Some (if bool_decide (effort ∈ ["low"; "medium"; "high"; "xhigh"]) then Ok (id, effort) else Fail (bad_request "Cursor Sand Grok effort is invalid"))
  else None.
Definition inferenceModelSelection (model : string) : result (string * string) :=
  let value := lower (TrimSpace model) in
  match grok_model value "cursor-grok-4.6-" "grok-4.6" with
  | Some r => r
  | None =>
      match grok_model value "cursor-grok-4.5-" "grok-4.5" with
      | Some r => r
      | None =>
          if bool_decide (value = "grok-4.6") then Ok (value, "medium")
          else if bool_decide (value = "") then Fail (bad_request "Cursor Sand model is required")
          else Ok (value, "")
      end
  end.
Definition inferenceRequestedModel (model : string) : result inferenceModelSpec :=
  selection <-? inferenceModelSelection model ;;
  let '(id, effort) := selection in
  if bool_decide (id = "claude-sonnet-5")
  then Ok {| im_ID := id; im_Parameters := [("thinking", "true"); ("context", "1m"); ("effort", "high")]; im_BuiltIn := false; im_MaxMode := true |}
  else Ok {| im_ID := id; im_Parameters := if bool_decide (effort = "") then [] else [("effort", effort)]; im_BuiltIn := true; im_MaxMode := false |}.

(** *** Parameters *)
Fixpoint set_parameter (key value : string) (parameters : list (string * string)) : list (string * string) :=
  match parameters with
  | [] => [(key, value)]
  | (id, v) :: parameters => if bool_decide (id = key) then (id, value) :: parameters else (id, v) :: set_parameter key value parameters
  end.
Definition setInferenceParameter (key value : string) (spec : inferenceModelSpec) : inferenceModelSpec :=
  {| im_ID := im_ID spec; im_Parameters := set_parameter key value (im_Parameters spec); im_BuiltIn := im_BuiltIn spec; im_MaxMode := im_MaxMode spec |}.
Definition all_efforts : list string := ["low"; "medium"; "high"; "xhigh"; "max"].
(** The contexts and efforts of a known model. *)
Definition claudeInferenceParameters (id : string) : option (list string * list string) :=
  if bool_decide (id ∈ ["claude-fable-5-1"; "claude-fable-5"; "claude-opus-5"; "claude-opus-4-8"; "claude-opus-4-7"; "claude-sonnet-5"])
  then Some (["300k"; "1m"], all_efforts)
  else if bool_decide (id ∈ ["claude-opus-4-6"; "claude-sonnet-4-6"]) then Some (["200k"; "1m"], ["low"; "medium"; "high"; "max"])
  else None.
Definition is_fable (id : string) : bool := bool_decide (id = "claude-fable-5-1") || bool_decide (id = "claude-fable-5").
Definition thinking_parameter (thinking : option bool) (spec : inferenceModelSpec) : result inferenceModelSpec :=
  spec <-? (if is_fable (im_ID spec) then
              match thinking with
              | Some false => Fail (bad_request "Fable thinking cannot be disabled; use effort to control reasoning depth")
              | _ => Ok (setInferenceParameter "thinking" "true" spec)
              end
            else Ok spec) ;;
  Ok match thinking with
     | Some value => if bool_decide (is_Some (claudeInferenceParameters (im_ID spec)))
                     then setInferenceParameter "thinking" (if value then "true" else "false") spec else spec
     | None => spec
     end.
Definition context_parameter (context : string) (spec : inferenceModelSpec) : result inferenceModelSpec :=
  if bool_decide (context = "") then Ok spec
  else
    match claudeInferenceParameters (im_ID spec) with
    | Some (contexts, _) =>
        if bool_decide (context ∈ contexts)
        then Ok (setInferenceParameter "context" context
                   {| im_ID := im_ID spec; im_Parameters := im_Parameters spec; im_BuiltIn := false; im_MaxMode := bool_decide (context = "1m") |})
        else Fail (bad_request "unsupported cursor_context for this Claude model")
    | None => Fail (bad_request "unsupported cursor_context for this Claude model")
    end.
Definition effort_parameter (effort : string) (spec : inferenceModelSpec) : result inferenceModelSpec :=
  let effort := lower (TrimSpace effort) in
  let known := match claudeInferenceParameters (im_ID spec) with Some (_, efforts) => bool_decide (effort ∈ efforts) | None => true end in
  let grok := HasPrefix (im_ID spec) "grok-" in
  if bool_decide (effort = "") then Ok spec
  else if negb known then Fail (bad_request "unsupported reasoning effort for this Claude model")
  else if negb (HasPrefix (im_ID spec) "claude-") && negb grok
  then Fail (bad_request "explicit Sand effort is currently supported for Claude and Grok")
  else if negb (bool_decide (effort ∈ all_efforts)) then Fail (bad_request "unsupported Cursor Sand reasoning effort")
  else Ok (setInferenceParameter "effort" (if grok && bool_decide (effort = "max") then "xhigh" else effort) spec).
Definition applyInferenceParameters (spec : inferenceModelSpec) (o : RunOptions) : result inferenceModelSpec :=
  spec <-? thinking_parameter (ro_InferenceThinking o) spec ;;
  spec <-? context_parameter (ro_InferenceContext o) spec ;;
  effort_parameter (ro_ReasoningEffort o) spec.
End parameters.

(** ** Signatures Cursor minted (inference_reasoning.go)

    A bounded memory, first in first out. *)
Inductive signatureState : Type := signatureUnknown | signatureMinted | signatureRejected.
#[export] Instance signatureState_eq_dec : EqDecision signatureState.
Proof. solve_decision. Defined.
Record signatureMemoryStore := { sm_limit : nat; sm_order : list string; sm_state : gmap string signatureState }.
Definition newSignatureMemory (limit : nat) : signatureMemoryStore := {| sm_limit := limit; sm_order := []; sm_state := ∅ |}.
Definition signatureMemory : signatureMemoryStore := newSignatureMemory (Z.to_nat 8192).
(** The oldest entries are dropped while there are too many. *)
Fixpoint trim_memory (limit : nat) (order : list string) (state : gmap string signatureState) : list string * gmap string signatureState :=
  match order with
  | [] => ([], state)
  | oldest :: rest => if (limit <? length order)%nat then trim_memory limit rest (delete oldest state) else (order, state)
  end.
Definition sandReasoningSignatureForwarding : bool := true.
Definition sandForwardsRedactedReasoning : bool := false.

Section signatures.
Context `{JSON} `{Digest}.
Definition signatureKey (signature : string) : string := digest (TrimSpace signature).
Definition lookup_signature (signature : string) (m : signatureMemoryStore) : signatureState :=
  if blank signature then signatureUnknown else default signatureUnknown (sm_state m !! signatureKey signature).
Definition record_signature (signature : string) (state : signatureState) (m : signatureMemoryStore) : signatureMemoryStore :=
  if blank signature then m
  else
    let key := signatureKey signature in
    let '(order, states) :=
      if bool_decide (is_Some (sm_state m !! key)) then (sm_order m, sm_state m)
      else trim_memory (sm_limit m) (sm_order m ++ [key]) (sm_state m) in
    {| sm_limit := sm_limit m; sm_order := order; sm_state := <[key := state]> states |}.
Definition rememberMintedSignature (signature : string) : signatureMemoryStore -> signatureMemoryStore := record_signature signature signatureMinted.
Definition sandForwardsReasoningSignature (m : signatureMemoryStore) (signature : string) : bool :=
  if negb sandReasoningSignatureForwarding || blank signature then false else bool_decide (lookup_signature signature m = signatureMinted).
Definition part_signature (raw : any) : option string :=
  match raw with
  | AnyMap part =>
      let signature := stringValue (map_get part "signature") in
      if bool_decide (stringValue (map_get part "type") = "reasoning") && negb (bool_decide (signature = "")) then Some signature else None
  | _ => None
  end.
Definition message_signatures (raw : bytes) : list string :=
  match unmarshal_map raw with
  | Some message => match map_get message "content" with AnyList parts => omap part_signature parts | _ => [] end
  | None => []
  end.
Definition historySignatures (messages : list bytes) : list string := messages ≫= message_signatures.
Definition historyCarriesForwardedSignature (m : signatureMemoryStore) (messages : list bytes) : bool :=
  existsb (sandForwardsReasoningSignature m) (historySignatures messages).
Definition reject_signature (signature : string) (m : signatureMemoryStore) : signatureMemoryStore :=
  if bool_decide (lookup_signature signature m = signatureMinted) then record_signature signature signatureRejected m else m.
Definition markHistorySignaturesRejected (messages : list bytes) (m : signatureMemoryStore) : signatureMemoryStore :=
  fold_left (fun m signature => reject_signature signature m) (historySignatures messages) m.
End signatures.
(** [errors.As] to a Connect error with one of two codes. *)
Fixpoint as_connect (e : Err) : option (string * string) :=
  match e with ErrConnect code message => Some (code, message) | ErrWrap _ inner => as_connect inner | _ => None end.
Definition isForeignReasoningSignatureRejection (unicode_lower : string -> string) (e : Err) : bool :=
  match as_connect e with
  | Some (code, _) => let code := lower unicode_lower (TrimSpace code) in bool_decide (code = "resource_exhausted") || bool_decide (code = "invalid_argument")
  | None => false
  end.
