(* ===== verification/SandTools.v ===== *)
(** * Web tools and checkpoints of the Sand profile
    (src/cursoragentv1/inference_web.go, inference_checkpoint.go, inference_wire.go)

    The private web tools a run declares, what one call of them does, and the
    checkpoint of a segment that the next segment starts from. *)
From stdpp Require Import base tactics list gmap strings sorting.
From Stdlib Require Import Strings.Byte.
From S2P Require Import Prelude GoStrings Sha256 JsonValue Connect Data Json HostedPolicy Segment StoreState Manager Media HostedSearch Projection History Translate TranslateRequest TranslateTurn Credentials Sand.
Open Scope Z_scope.

Local Notation "x <-? m ;; k" := (rbind m (fun x => k)) (at level 100, m at next level, right associativity).

(** ** Constants *)
Definition inferenceWebSearchToolName : string := "beefapi_cursor_web_search".
Definition inferenceWebFetchToolName : string := "beefapi_cursor_web_fetch".
Definition inferenceWebSearchPath : string := "/aiserver.v1.AiService/RunWebSearch".
Definition inferenceWebFetchPath : string := "/aiserver.v1.AiService/RunWebFetch".
Definition maxInferenceWebBodyBytes : Z := 4194304.
Definition maxInferenceWebResultRunes : nat := Z.to_nat 30000.
Definition maxInferenceHostedSteps : nat := 16.
Definition maxInferenceHostedUses : Z := 8.
Definition inferenceCheckpointVersion : Z := 1.
Definition defaultInferenceBaseURL : string := "https://api2.cursor.sh".
Record inferenceToolCall := { it_ID : string; it_Name : string; it_Arguments : string }.
Record inferenceHostedToolResult := { ir_CallID : string; ir_Name : string; ir_Content : any; ir_IsError : bool }.
Record inferenceReasoning := { rs_Text : string; rs_Signature : string }.
Definition sand_error (text : string) : Err := ErrMsg ("Cursor Sand " +:+ text).

(** ** Runes *)
(** [[]rune(value)], each as its bytes; an invalid byte becomes U+FFFD. *)
Fixpoint split_runes (fuel : nat) (l : bytes) : list bytes :=
  match fuel, l with
  | S fuel, _ :: rest =>
      match rune_len l with
      | O => [xef; xbf; xbd] :: split_runes fuel rest
      | n => take n l :: split_runes fuel (drop n l)
      end
  | _, _ => []
  end.
Definition truncateInferenceWebText (value : string) : string :=
  let runes := split_runes (length (to_bytes value)) (to_bytes value) in
  if (length runes <=? maxInferenceWebResultRunes)%nat then value else of_bytes (mjoin (take maxInferenceWebResultRunes runes)).

(** ** Declaring the tools *)
(** The kind of a private tool; [""] for the caller's. *)
Definition inferenceHostedKind (name : string) : string :=
  let name := TrimSpace name in
  if bool_decide (name = inferenceWebSearchToolName) then HostedSearchKindWebSearch
  else if bool_decide (name = inferenceWebFetchToolName) then HostedSearchKindWebFetch else "".
Definition is_hosted (name : string) : bool := negb (bool_decide (inferenceHostedKind name = "")).
Definition string_property (description : string) : any := AnyMap [("type", AnyString "string"); ("description", AnyString description)].
Definition object_schema (properties : object) (required : string) : any :=
  AnyMap [("type", AnyString "object"); ("properties", AnyMap properties); ("required", AnyList [AnyString required]); ("additionalProperties", AnyBool false)].
Definition search_schema : any :=
  object_schema [("search_term", string_property "Specific web search query."); ("explanation", string_property "Why this search helps answer the user.")]
    "search_term".
Definition fetch_schema : any := object_schema [("url", string_property "Fully-qualified public HTTP or HTTPS URL to fetch.")] "url".
Definition search_description : string :=
  "Search the live web through Cursor's official web search service. Return current sources before answering time-sensitive or explicitly researched questions.".
Definition fetch_description : string := "Fetch readable content for a public HTTP or HTTPS URL through Cursor's official web fetch service.".
(** Uses the caller leaves: unlimited, or more than none. *)
Definition some_uses (uses : option Z) : bool := match uses with Some n => 0 <? n | None => true end.
Definition required_text (o : RunOptions) : string :=
  if ro_RequireHostedSearch o then "You must call " +:+ inferenceWebSearchToolName +:+ " before answering this request."
  else if ro_RequireHostedFetch o then "You must call " +:+ inferenceWebFetchToolName +:+ " before answering this request."
  else if ro_RequireHostedTool o
  then "You must call " +:+ inferenceWebSearchToolName +:+ " or " +:+ inferenceWebFetchToolName +:+ " before answering this request."
  else "".
Definition with_required (o : RunOptions) : string :=
  let required := required_text o in
  if bool_decide (required = "") then ro_SystemText o
  else (if blank (ro_SystemText o) then ro_SystemText o else ro_SystemText o +:+ newline +:+ newline) +:+ required.

(** ** Limits of a run *)
Record inferenceHostedUseTracker := { iu_search : Z; iu_fetch : Z }.
Definition no_uses : inferenceHostedUseTracker := {| iu_search := 0; iu_fetch := 0 |}.
Definition use_limit (max : option Z) : Z := match max with Some n => if n <? maxInferenceHostedUses then n else maxInferenceHostedUses | None => maxInferenceHostedUses end.
Definition allow_use (kind : string) (o : RunOptions) (uses : inferenceHostedUseTracker) : result inferenceHostedUseTracker :=
  if bool_decide (kind = HostedSearchKindWebSearch) then
    let limit := use_limit (ro_HostedSearchMaxUses o) in
    if limit <=? iu_search uses then Fail (sand_error ("hosted search exceeded max_uses=" +:+ Itoa limit))
    else Ok {| iu_search := iu_search uses + 1; iu_fetch := iu_fetch uses |}
  else if bool_decide (kind = HostedSearchKindWebFetch) then
    let limit := use_limit (ro_HostedFetchMaxUses o) in
    if limit <=? iu_fetch uses then Fail (sand_error ("hosted fetch exceeded max_uses=" +:+ Itoa limit))
    else Ok {| iu_search := iu_search uses; iu_fetch := iu_fetch uses + 1 |}
  else Fail (sand_error "hosted web tool is unsupported").
Definition validateRequired (o : RunOptions) (uses : inferenceHostedUseTracker) : option Err :=
  if ro_RequireHostedSearch o && (iu_search uses =? 0) then Some (sand_error "completed without the required hosted search")
  else if ro_RequireHostedFetch o && (iu_fetch uses =? 0) then Some (sand_error "completed without the required hosted fetch")
  else if ro_RequireHostedTool o && (iu_search uses + iu_fetch uses =? 0) then Some (sand_error "completed without the required hosted web tool")
  else None.

Section tools.
Context `{JSON} `{SDK} `{Outside} `{SandOutside} (unicode_lower : string -> string).
(** [url.Parse] for the domain rules, as [HostedPolicy] takes it. *)
Context (parse_url : string -> option (string * string)).

Definition attachInferenceHostedTools (run : RunRequest) : result RunRequest :=
  let o := rr_Options run in
  if negb (ro_AllowHostedSearch o) && negb (ro_AllowHostedFetch o) then Ok run
  else if existsb (fun tool => is_hosted (td_Name tool)) (rr_Tools run)
  then Fail (unprocessable "Cursor Sand caller tool uses a reserved hosted-web name")
  else
    let allowSearch := ro_AllowHostedSearch o && some_uses (ro_HostedSearchMaxUses o) in
    let allowFetch := ro_AllowHostedFetch o && some_uses (ro_HostedFetchMaxUses o) in
    if (ro_RequireHostedSearch o && negb allowSearch) || (ro_RequireHostedFetch o && negb allowFetch)
       || (ro_RequireHostedTool o && negb allowSearch && negb allowFetch)
    then Fail (unprocessable "Cursor Sand required hosted web tool has max_uses=0")
    else
      let tool allowed name description schema :=
        if allowed : bool
        then match json_marshal schema with
             | None => Fail errEncode
             | Some encoded => Ok [{| td_Name := name; td_Description := description; td_InputSchema := encoded |}]
             end
        else Ok [] in
      search <-? tool allowSearch inferenceWebSearchToolName search_description search_schema ;;
      fetch <-? tool allowFetch inferenceWebFetchToolName fetch_description fetch_schema ;;
      Ok (run_with (with_messages (with_required o) (ro_HistoryMessages o) o) (rr_UserText run) (rr_Tools run ++ search ++ fetch)
            (rr_InitialCheckpoint run) (rr_Resume run) run).

(** ** The web services
    [n]: which request of the run it is. *)
Definition post (n : nat) (o : RunOptions) (path : string) (input : any) : result bytes :=
  match json_marshal input with
  | None => Fail errEncode
  | Some body =>
      match http_new_request (defaultInferenceBaseURL +:+ path) with
      | Some e => Fail (ErrWrap "build Cursor official web request: " e)
      | None =>
          match http2_transport (ro_ProxyURL o) with
          | Some e => Fail e
          | None =>
              match web_post n (defaultInferenceBaseURL +:+ path)
                      [("Authorization", "Bearer " +:+ TrimSpace (ro_AccessToken o)); ("Content-Type", "application/json");
                       ("Connect-Protocol-Version", "1"); ("X-Cursor-Client-Type", runtimeSand);
                       ("X-Cursor-Client-Version", TrimSpace (ro_ClientVersion o)); ("User-Agent", "connect-es/1.6.1")] body with
              | Fail e => Fail (ErrWrap "Cursor official web request: " e)
              | Ok (_, Fail e) => Fail (ErrWrap "read Cursor official web response: " e)
              | Ok (status, Ok body) =>
                  if maxInferenceWebBodyBytes <? blen body
                  then Fail (ErrMsg ("Cursor official web response exceeds " +:+ Itoa maxInferenceWebBodyBytes +:+ " bytes"))
                  else if negb (ok_status status) then Fail (ErrHTTP status ("Cursor official web upstream HTTP " +:+ Itoa status))
                  else Ok body
              end
          end
      end
  end.
(** A result, and what the model is told. *)
Definition web_result (kind query url content error : string) (references : list HostedSearchReference) : HostedSearch :=
  {| hs_CallID := ""; hs_Kind := kind; hs_Query := query; hs_URL := url; hs_ArgsJSON := ""; hs_References := references; hs_Content := content;
     hs_Error := error |}.
Definition search_unavailable : string := "Cursor official web search was unavailable".
Definition fetch_unavailable : string := "Cursor official web fetch was unavailable".
Definition Search (n : nat) (o : RunOptions) (query explanation : string) : result (HostedSearch * any) :=
  let query := TrimSpace query in
  let result := web_result HostedSearchKindWebSearch query "" in
  if bool_decide (query = "") then Fail (sand_error "web search query is empty")
  else
    selection <-? inferenceModelSelection unicode_lower (ro_Model o) ;;
    let decoded :=
      body <-? post n o inferenceWebSearchPath
                 (AnyMap [("searchTerm", AnyString query); ("explanation", AnyString (TrimSpace explanation)); ("modelId", AnyString selection.1)]) ;;
      match decode_search body with Some r => Ok r | None => Fail (ErrWrap "decode Cursor official web response: " (ErrMsg "json")) end in
    match decoded with
    | Fail _ => Ok (result "" search_unavailable [], AnyMap [("error", AnyString search_unavailable)])
    | Ok (answer, documents) =>
        let domains := ro_HostedSearchDomains o in
        let restricted := restricts domains in
        let kept := List.filter (fun d => negb restricted || permits unicode_lower parse_url domains d.1.1) documents in
        let references := (fun '(url, title, text) => {| hr_Title := title; hr_URL := url; hr_Chunk := truncateInferenceWebText text |}) <$> kept in
        let listed := (fun '(url, title, text) =>
          AnyMap [("url", AnyString url); ("title", AnyString title); ("text", AnyString (truncateInferenceWebText text))]) <$> kept in
        if restricted then
          Ok (result "" "" references,
              AnyMap ([("documents", AnyList listed); ("domain_filter", domains_json domains)]
                      ++ if bool_decide (listed = []) then [("note", AnyString "no results matched the caller's domain restriction")] else []))
        else
          let content := truncateInferenceWebText answer in
          Ok (result content "" references, AnyMap [("answer", AnyString content); ("documents", AnyList listed)])
    end.
Definition Fetch (n : nat) (o : RunOptions) (rawURL : string) : result (HostedSearch * any) :=
  let rawURL := TrimSpace rawURL in
  let result := fun content error => web_result HostedSearchKindWebFetch rawURL rawURL content error [] in
  match url_parse rawURL with
  | None => Fail (sand_error "web fetch URL must be public HTTP or HTTPS")
  | Some u =>
      if bool_decide (u_Hostname u = "") || (negb (bool_decide (u_Scheme u = "http")) && negb (bool_decide (u_Scheme u = "https")))
      then Fail (sand_error "web fetch URL must be public HTTP or HTTPS")
      else if u_User u then Fail (sand_error "web fetch URL must not contain credentials")
      else if negb (permits unicode_lower parse_url (ro_HostedFetchDomains o) rawURL) then
        let text := "URL is outside the caller's allowed domains" in
        Ok (result "" text, AnyMap [("error", AnyString text); ("domain_filter", domains_json (ro_HostedFetchDomains o))])
      else
        let decoded :=
          body <-? post n o inferenceWebFetchPath (AnyMap [("url", AnyString rawURL)]) ;;
          match decode_fetch body with Some r => Ok r | None => Fail (ErrWrap "decode Cursor official web response: " (ErrMsg "json")) end in
        match decoded with
        | Fail _ => Ok (result "" fetch_unavailable, AnyMap [("error", AnyString fetch_unavailable)])
        | Ok (Some content, _) =>
            let content := truncateInferenceWebText content in Ok (result content "", AnyMap [("content", AnyString content)])
        | Ok (None, Some (error, timeout)) =>
            let text := if blank error then "Cursor official web fetch returned an error" else TrimSpace error in
            Ok (result "" text, AnyMap [("error", AnyString text); ("is_timeout", AnyBool timeout)])
        | Ok (None, None) =>
            let text := "Cursor official web fetch returned no result" in Ok (result "" text, AnyMap [("error", AnyString text)])
        end
  end.

(** ** One call *)
Definition firstInferenceValue (values : list string) : string :=
  match List.filter (fun v => negb (bool_decide (v = ""))) (TrimSpace <$> values) with v :: _ => v | [] => "" end.
Definition inferenceHostedArguments (call : inferenceToolCall) : result (string * string) :=
  match unmarshal_map (to_bytes (it_Arguments call)) with
  | None => Fail (sand_error "hosted tool returned invalid arguments")
  | Some args =>
      let kind := inferenceHostedKind (it_Name call) in
      let arg key := stringValue (map_get args key) in
      if bool_decide (kind = HostedSearchKindWebSearch)
      then Ok (firstInferenceValue [arg "search_term"; arg "query"; arg "searchTerm"], arg "explanation")
      else if bool_decide (kind = HostedSearchKindWebFetch) then Ok (arg "url", "")
      else Fail (sand_error "hosted tool is unsupported")
  end.
Definition of_call (call : inferenceToolCall) (s : HostedSearch) : HostedSearch :=
  {| hs_CallID := it_ID call; hs_Kind := hs_Kind s; hs_Query := hs_Query s; hs_URL := hs_URL s; hs_ArgsJSON := it_Arguments call;
     hs_References := hs_References s; hs_Content := hs_Content s; hs_Error := hs_Error s |}.
Definition executeInferenceHostedCall (run : RunRequest) (call : inferenceToolCall) (uses : inferenceHostedUseTracker)
    : result (inferenceHostedToolResult * HostedSearch) * inferenceHostedUseTracker :=
  let o := rr_Options run in
  let kind := inferenceHostedKind (it_Name call) in
  if bool_decide (kind = "") then (Fail (sand_error "hosted web client is unavailable"), uses)
  else
    match allow_use kind o uses with
    | Fail e => (Fail e, uses)
    | Ok uses =>
        (arguments <-? inferenceHostedArguments call ;;
         let '(primary, explanation) := arguments in
         let is_search := bool_decide (kind = HostedSearchKindWebSearch) in
         let primary := if is_search && blank primary then TrimSpace (rr_UserText run) else primary in
         let n := Z.to_nat (iu_search uses + iu_fetch uses) in
         r <-? (if is_search then Search n o primary explanation else Fetch n o primary) ;;
         let search := of_call call r.1 in
         Ok ({| ir_CallID := it_ID call; ir_Name := it_Name call; ir_Content := r.2; ir_IsError := negb (bool_decide (hs_Error search = "")) |}, search),
         uses)
    end.

(** ** Checkpoints *)
(** [fmt.Sprint]. *)
Definition Sprint (v : any) : string := match v with AnyNil => "<nil>" | AnyString s => s | v => sprint v end.
Definition sprint_field (m : object) (key : string) : string := TrimSpace (Sprint (map_get m key)).
Definition role_message (role : string) (parts : list any) : any := AnyMap [("role", AnyString role); ("content", AnyList parts)].
Definition marshal_message (role : string) (parts : list any) : result bytes :=
  match json_marshal (role_message role parts) with Some encoded => Ok encoded | None => Fail errEncode end.
Fixpoint call_parts (tools : list inferenceToolCall) : result (list any) :=
  match tools with
  | [] => Ok []
  | tool :: tools =>
      match unmarshal_map (to_bytes (it_Arguments tool)) with
      | None => Fail (sand_error "returned invalid tool arguments")
      | Some args =>
          rest <-? call_parts tools ;;
          Ok (AnyMap [("type", AnyString "tool-call"); ("toolCallId", AnyString (it_ID tool)); ("toolName", AnyString (it_Name tool)); ("args", AnyMap args)] :: rest)
      end
  end.
Definition error_value (isError : bool) (value : any) : any := if isError then AnyMap [("is_error", AnyBool true); ("content", value)] else value.
Definition tool_result_part (id name : string) (value : any) : object :=
  [("type", AnyString "tool-result"); ("toolCallId", AnyString id); ("toolName", AnyString name); ("result", value)].
Fixpoint hosted_messages (results : list inferenceHostedToolResult) : result (list bytes) :=
  match results with
  | [] => Ok []
  | r :: results =>
      message <-? marshal_message "tool" [AnyMap (tool_result_part (ir_CallID r) (ir_Name r) (error_value (ir_IsError r) (ir_Content r)))] ;;
      rest <-? hosted_messages results ;; Ok (message :: rest)
  end.
Definition one_message (present : bool) (role : string) (parts : list any) : result (list bytes) :=
  if present then message <-? marshal_message role parts ;; Ok [message] else Ok [].
Definition text_part_json (text : string) : any := AnyMap [("type", AnyString "text"); ("text", AnyString text)].
Definition reasoning_part (r : inferenceReasoning) : list any :=
  if blank (rs_Text r) then []
  else [AnyMap ([("type", AnyString "reasoning"); ("text", AnyString (rs_Text r))]
                ++ if bool_decide (rs_Signature r = "") then [] else [("signature", AnyString (rs_Signature r))])].
Definition checkpoint_messages (run : RunRequest) (assistantText : string) (reasoning : inferenceReasoning) (tools : list inferenceToolCall)
    (hostedResults : list inferenceHostedToolResult) : result (list bytes) :=
  let o := rr_Options run in
  system <-? one_message (negb (blank (ro_SystemText o))) "system" [text_part_json (ro_SystemText o)] ;;
  let userParts := (if blank (rr_UserText run) then [] else [text_part_json (rr_UserText run)]) ++ (AnyMap ∘ historyMediaPart <$> ro_UserMedia o) in
  user <-? one_message (negb (bool_decide (userParts = []))) "user" userParts ;;
  calls <-? call_parts tools ;;
  let parts := reasoning_part reasoning ++ (if blank assistantText then [] else [text_part_json assistantText]) ++ calls in
  assistant <-? one_message (negb (bool_decide (parts = []))) "assistant" parts ;;
  hosted <-? hosted_messages hostedResults ;;
  Ok (system ++ ro_HistoryMessages o ++ user ++ assistant ++ hosted).
Definition checkpoint_json (messages : list bytes) : any :=
  AnyMap [("version", AnyInt inferenceCheckpointVersion); ("profile", AnyString runtimeSand); ("messages", AnyList (bytes_json <$> messages))].
Definition encodeInferenceCheckpoint (run : RunRequest) (assistantText : string) (reasoning : inferenceReasoning) (tools : list inferenceToolCall)
    (hostedResults : list inferenceHostedToolResult) : result bytes :=
  messages <-? checkpoint_messages run assistantText reasoning tools hostedResults ;;
  match json_marshal (checkpoint_json messages) with Some encoded => Ok encoded | None => Fail errEncode end.
Definition decodeInferenceCheckpoint (raw : bytes) : result (list bytes) :=
  match decode_checkpoint raw with
  | Some (version, profile, messages) =>
      if (version =? inferenceCheckpointVersion) && bool_decide (profile = runtimeSand) then Ok messages else Fail (sand_error "checkpoint is invalid")
  | None => Fail (sand_error "checkpoint is invalid")
  end.
Definition part_tool_name (toolCallID : string) (raw : any) : option string :=
  let part := default [] (as_map raw) in
  if bool_decide (sprint_field part "type" = "tool-call") && bool_decide (sprint_field part "toolCallId" = toolCallID)
  then Some (sprint_field part "toolName") else None.
Definition message_tool_name (toolCallID : string) (raw : bytes) : option string :=
  message ← unmarshal_map raw;
  if bool_decide (sprint_field message "role" = "assistant")
  then match map_get message "content" with AnyList parts => head (omap (part_tool_name toolCallID) parts) | _ => None end else None.
(** The latest call with the identifier. *)
Definition inferenceCheckpointToolName (messages : list bytes) (toolCallID : string) : string :=
  default "" (head (omap (message_tool_name (TrimSpace toolCallID)) (reverse messages))).

(** ** Starting a segment *)
(** What the select on the results finds. *)
Inductive received : Type := NoChannel | ContextDone (e : Err) | ChannelClosed | Received (r : ToolResult).
Definition result_media (r : ToolResult) : object :=
  if bool_decide (tr_Media r = []) then []
  else [("experimental_content", AnyList (historyContentParts
          ((if bool_decide (tr_Content r = "") then [] else [text_part (tr_Content r)]) ++ (media_part ∘ Some <$> tr_Media r))))].
Definition continued (r : ToolResult) (run : RunRequest) : result RunRequest :=
  let o := rr_Options run in
  let name := inferenceCheckpointToolName (ro_HistoryMessages o) (tr_ToolCallID r) in
  if bool_decide (name = "") then Fail (sand_error "tool continuation does not match checkpoint")
  else
    message <-? marshal_message "tool"
      [AnyMap (tool_result_part (tr_ToolCallID r) name (error_value (tr_IsError r) (AnyString (tr_Content r))) ++ result_media r)] ;;
    let o := options_with (ro_ReasoningEffort o) (ro_InferenceContext o) (ro_InferenceThinking o) (ro_dropReasoningSignatures o) false
               (ro_SystemText o) (ro_HistoryMessages o ++ [message]) (ro_HistoryRequestKey o) o in
    Ok (run_with o historyContinuationText (rr_Tools run) (rr_InitialCheckpoint run) false run).
Definition prepareInferenceRun (input : received) (run : RunRequest) : result (RunRequest * option ToolResult) :=
  run <-? (if bool_decide (rr_InitialCheckpoint run = []) then Ok run
           else messages <-? decodeInferenceCheckpoint (rr_InitialCheckpoint run) ;;
                Ok (run_with (with_messages "" messages (rr_Options run)) (rr_UserText run) (rr_Tools run) (rr_InitialCheckpoint run) (rr_Resume run) run)) ;;
  if negb (rr_Resume run) then Ok (run, None)
  else
    match input with
    | NoChannel => Fail (sand_error "tool continuation has no result channel")
    | ContextDone e => Fail e
    | ChannelClosed => Fail (sand_error "tool continuation closed before its result")
    | Received r => run <-? continued r run ;; Ok (run, Some r)
    end.
End tools.
