(* ===== verification/SandWire.v ===== *)
(** * Messages of the inference service on the wire (src/cursoragentv1/inference_wire.go)

    The request of a segment, field by field, the responses of the stream, and the
    preparation of a translated turn for the Sand profile. *)
From stdpp Require Import base tactics list gmap strings sorting.
From Stdlib Require Import Strings.Byte.
From S2P Require Import Prelude GoStrings Sha256 JsonValue Connect Data HostedPolicy Manager Media HostedSearch Wire Projection History Translate TranslateRequest TranslateTurn Credentials Sand SandTools.
Open Scope Z_scope.

Local Notation "x <-? m ;; k" := (rbind m (fun x => k)) (at level 100, m at next level, right associativity).

(** ** Responses *)
Record inferenceUsage := { us_Input : Z; us_Output : Z; us_CacheRead : Z; us_CacheWrite : Z; us_Extended : bool }.
Record inferenceResponse := {
  in_Text : string; in_TextFinal : bool; in_Thinking : string; in_ThinkSignature : string; in_ThinkFinal : bool;
  in_Tool : option inferenceToolCall; in_ToolFinal : bool; in_Usage : option inferenceUsage; in_ErrorCode : string; in_ErrorText : string }.
Definition no_response : inferenceResponse :=
  {| in_Text := ""; in_TextFinal := false; in_Thinking := ""; in_ThinkSignature := ""; in_ThinkFinal := false; in_Tool := None; in_ToolFinal := false;
     in_Usage := None; in_ErrorCode := ""; in_ErrorText := "" |}.
Definition text_response (text : string) (final : bool) : inferenceResponse :=
  {| in_Text := text; in_TextFinal := final; in_Thinking := ""; in_ThinkSignature := ""; in_ThinkFinal := false; in_Tool := None; in_ToolFinal := false;
     in_Usage := None; in_ErrorCode := ""; in_ErrorText := "" |}.
Definition tool_response (tool : inferenceToolCall) (final : bool) : inferenceResponse :=
  {| in_Text := ""; in_TextFinal := false; in_Thinking := ""; in_ThinkSignature := ""; in_ThinkFinal := false; in_Tool := Some tool;
     in_ToolFinal := final; in_Usage := None; in_ErrorCode := ""; in_ErrorText := "" |}.
Definition usage_response (usage : inferenceUsage) : inferenceResponse :=
  {| in_Text := ""; in_TextFinal := false; in_Thinking := ""; in_ThinkSignature := ""; in_ThinkFinal := false; in_Tool := None; in_ToolFinal := false;
     in_Usage := Some usage; in_ErrorCode := ""; in_ErrorText := "" |}.
Definition error_response (text code : string) : inferenceResponse :=
  {| in_Text := ""; in_TextFinal := false; in_Thinking := ""; in_ThinkSignature := ""; in_ThinkFinal := false; in_Tool := None; in_ToolFinal := false;
     in_Usage := None; in_ErrorCode := code; in_ErrorText := text |}.
Definition thinking_response (thinking signature : string) (final : bool) : inferenceResponse :=
  {| in_Text := ""; in_TextFinal := false; in_Thinking := thinking; in_ThinkSignature := signature; in_ThinkFinal := final; in_Tool := None;
     in_ToolFinal := false; in_Usage := None; in_ErrorCode := ""; in_ErrorText := "" |}.

Section decode.
Context `{Protowire}.
(** The first varint field [target], at most the largest int64; 0 on malformed data. *)
Fixpoint decode_int64_loop (fuel : nat) (data : bytes) (target : Number) : Z :=
  match fuel with
  | O => 0
  | S fuel =>
      if bool_decide (data = []) then 0
      else match pw_ConsumeTag data with
           | inl _ => 0
           | inr (number, wireType, consumed) =>
               let data := drop consumed data in
               if (number =? target) && (wireType =? VarintType) then
                 match pw_ConsumeVarint data with
                 | inl _ => 0
                 | inr (value, n) => if (n =? 0)%nat then 0 else if max_i64 <? value then max_i64 else value
                 end
               else match pw_ConsumeFieldValue number wireType data with
                    | inl _ => 0
                    | inr n => decode_int64_loop fuel (drop n data) target
                    end
           end
  end.
Definition decodeInt64 (data : bytes) (target : Number) : Z := decode_int64_loop (S (length data)) data target.
Definition decodeBool (data : bytes) (target : Number) : bool := negb (decodeInt64 data target =? 0).
Definition errResponseTag : Err := sand_error "response tag is invalid".
Definition errResponseField : Err := sand_error "response field is invalid".
(** The first bytes field and its number; [None]: there is none. *)
Fixpoint first_field_loop (fuel : nat) (payload : bytes) : result (option (Number * bytes)) :=
  match fuel with
  | O => Ok None
  | S fuel =>
      if bool_decide (payload = []) then Ok None
      else match pw_ConsumeTag payload with
           | inl _ => Fail errResponseTag
           | inr (number, wireType, consumed) =>
               let payload := drop consumed payload in
               if wireType =? BytesType then
                 match pw_ConsumeBytes payload with
                 | inl _ => Fail errResponseField
                 | inr (value, _) => Ok (Some (number, value))
                 end
               else match pw_ConsumeFieldValue number wireType payload with
                    | inl _ => Fail errResponseField
                    | inr n => first_field_loop fuel (drop n payload)
                    end
           end
  end.
Definition firstBytesField (payload : bytes) : result (option (Number * bytes)) := first_field_loop (S (length payload)) payload.
Definition decodeInferenceResponse (payload : bytes) : result inferenceResponse :=
  field <-? firstBytesField payload ;;
  Ok match field with
     | None => no_response
     | Some (number, value) =>
         if number =? 1 then text_response (decodeString value 1) (decodeBool value 2)
         else if number =? 2 then
           tool_response {| it_ID := decodeString value 1; it_Name := decodeString value 2; it_Arguments := decodeString value 3 |} (decodeBool value 4)
         else if number =? 3 then
           usage_response {| us_Input := decodeInt64 value 1; us_Output := decodeInt64 value 2; us_CacheRead := 0; us_CacheWrite := 0;
                             us_Extended := false |}
         else if number =? 5 then
           usage_response {| us_Input := decodeInt64 value 1; us_Output := decodeInt64 value 2; us_CacheRead := decodeInt64 value 3;
                             us_CacheWrite := decodeInt64 value 4; us_Extended := true |}
         else if number =? 8 then error_response (decodeString value 1) (decodeString value 2)
         else if number =? 9 then thinking_response (decodeString value 1) (decodeString value 2) (decodeBool value 3)
         else no_response
     end.
End decode.

Section encode.
Context `{Protowire} `{JSON} `{Digest} `{SDK} `{SandOutside} (unicode_lower : string -> string).

(** ** Content *)
Definition marshalStruct (value : object) : result bytes :=
  match struct_marshal value with None => Fail (bad_request "Cursor Sand protobuf Struct is invalid") | Some r => r end.
Definition encodeInferenceTextMessage (role : Z) (text : string) : bytes := appendStringField (appendVarintField [] 1 role) 2 text.
Definition encodeInferenceContentPart (part : ContentPart) : bytes :=
  match cp_Media part with
  | None => appendBytesField [] 1 (appendStringField [] 1 (cp_Text part))
  | Some media =>
      if bool_decide (mp_Kind media = mediaKindImage)
      then appendBytesField [] 2 (appendStringField (appendStringField [] 1 (mp_Data media)) 2 (mp_MimeType media))
      else appendBytesField [] 3
             (appendStringField (appendStringField (appendStringField [] 1 (mp_Data media)) 2 (mp_MimeType media)) 3 (mp_Filename media))
  end.
Definition append_part (dst : bytes) (number : Number) (part : ContentPart) : bytes := appendBytesField dst number (encodeInferenceContentPart part).
Definition encodeInferenceUserMessage (text : string) (media : list MediaPart) : bytes :=
  if bool_decide (media = []) then encodeInferenceTextMessage 1 text
  else
    let parts := if blank text then [] else append_part [] 1 (text_part text) in
    let parts := fold_left (fun parts m => append_part parts 1 (media_part (Some m))) media parts in
    appendBytesField (appendVarintField [] 1 1) 3 parts.

(** ** Tool calls and results of the history *)
Definition encodeInferenceHistoricalToolCall (part : object) : result bytes :=
  let id := sprint_field part "toolCallId" in
  let name := sprint_field part "toolName" in
  match map_get part "args" with
  | AnyMap args =>
      if bool_decide (id = "") || bool_decide (name = "") then Fail (bad_request "Cursor Sand historical tool call is invalid")
      else
        argsProto <-? marshalStruct args ;;
        let out := appendBytesField (appendStringField (appendStringField [] 1 id) 2 name) 3 argsProto in
        Ok (match json_marshal (AnyMap args) with Some raw => appendStringField out 4 (of_bytes raw) | None => out end)
  | _ => Fail (bad_request "Cursor Sand historical tool call is invalid")
  end.
(** The value of a result and whether it is an error: an object with [is_error] wraps it. *)
Definition unwrap_error (value : any) : any * bool :=
  match value with
  | AnyMap wrapper => match map_find wrapper "is_error" with Some raw => (map_get wrapper "content", boolValue raw) | None => (value, false) end
  | _ => (value, false)
  end.
Definition errResultMedia : Err := bad_request "Cursor Sand historical tool result media is invalid".
Fixpoint append_experimental (contents : list any) (out : bytes) : result bytes :=
  match contents with
  | [] => Ok out
  | AnyMap content :: contents =>
      match mediaPartFromHistory content with
      | Some media => append_experimental contents (append_part out 5 (media_part (Some media)))
      | None =>
          if bool_decide (sprint_field content "type" = "text")
          then append_experimental contents (append_part out 5 (text_part (default "" (as_string (map_get content "text")))))
          else Fail errResultMedia
      end
  | _ :: _ => Fail errResultMedia
  end.
Definition encodeInferenceHistoricalToolResult (part : object) : result bytes :=
  let id := sprint_field part "toolCallId" in
  let name := sprint_field part "toolName" in
  if bool_decide (id = "") || bool_decide (name = "") then Fail (bad_request "Cursor Sand historical tool result is invalid")
  else
    let '(value, isError) := unwrap_error (map_get part "result") in
    match value_marshal value with
    | None => Fail (bad_request "Cursor Sand historical tool result is invalid")
    | Some encoded =>
        encodedValue <-? encoded ;;
        let out := appendBytesField (appendStringField (appendStringField [] 1 id) 2 name) 3 encodedValue in
        let out := if isError then appendVarintField out 4 1 else out in
        match map_get part "experimental_content" with AnyList contents => append_experimental contents out | _ => Ok out end
    end.

(** ** A message of the history *)
Record inferenceParts := {
  ip_out : bytes; ip_texts : list string; ip_content : bytes; ip_media : bool; ip_results : bytes; ip_reasoning : bytes }.
Definition inference_role (name : string) : option Z :=
  if bool_decide (name = "user") then Some 1 else if bool_decide (name = "assistant") then Some 2
  else if bool_decide (name = "tool") then Some 3 else if bool_decide (name = "system") then Some 4 else None.
Definition add_content (content : ContentPart) (media : bool) (texts : list string) (p : inferenceParts) : inferenceParts :=
  {| ip_out := ip_out p; ip_texts := ip_texts p ++ texts; ip_content := append_part (ip_content p) 1 content; ip_media := ip_media p || media;
     ip_results := ip_results p; ip_reasoning := ip_reasoning p |}.
Definition add_reasoning (encoded : bytes) (p : inferenceParts) : inferenceParts :=
  {| ip_out := ip_out p; ip_texts := ip_texts p; ip_content := ip_content p; ip_media := ip_media p; ip_results := ip_results p;
     ip_reasoning := appendBytesField (ip_reasoning p) 7 encoded |}.
Definition add_call (encoded : bytes) (p : inferenceParts) : inferenceParts :=
  {| ip_out := appendBytesField (ip_out p) 4 encoded; ip_texts := ip_texts p; ip_content := ip_content p; ip_media := ip_media p;
     ip_results := ip_results p; ip_reasoning := ip_reasoning p |}.
Definition add_result (encoded : bytes) (p : inferenceParts) : inferenceParts :=
  {| ip_out := ip_out p; ip_texts := ip_texts p; ip_content := ip_content p; ip_media := ip_media p;
     ip_results := appendBytesField (ip_results p) 1 encoded; ip_reasoning := ip_reasoning p |}.
(** The signature is sent only when Cursor minted it and nothing says to drop it. *)
Definition encode_reasoning (memory : signatureMemoryStore) (dropSignatures : bool) (part : object) : bytes :=
  let signature := default "" (as_string (map_get part "signature")) in
  let encoded := appendStringField [] 2 (default "" (as_string (map_get part "text"))) in
  if negb dropSignatures && sandForwardsReasoningSignature memory signature then appendStringField encoded 3 signature else encoded.
Definition encode_redacted (part : object) : bytes :=
  appendStringField (appendVarintField [] 1 1) 4 (default "" (as_string (map_get part "data"))).
Definition history_part (memory : signatureMemoryStore) (dropSignatures : bool) (rawPart : any) (p : inferenceParts) : result inferenceParts :=
  match rawPart with
  | AnyMap part =>
      let type := sprint_field part "type" in
      if bool_decide (type = "text") then
        let text := Sprint (map_get part "text") in Ok (add_content (text_part text) false [text] p)
      else if bool_decide (type = "image") || bool_decide (type = "file") then
        match mediaPartFromHistory part with
        | None => Fail (bad_request "Cursor Sand history media part is invalid")
        | Some media => Ok (add_content (media_part (Some media)) true [] p)
        end
      else if bool_decide (type = "reasoning") then
        let encoded := encode_reasoning memory dropSignatures part in
        Ok (if bool_decide (encoded = []) then p else add_reasoning encoded p)
      else if bool_decide (type = "redacted-reasoning") then
        let data := default "" (as_string (map_get part "data")) in
        Ok (if sandForwardsRedactedReasoning && negb (bool_decide (data = "")) then add_reasoning (encode_redacted part) p else p)
      else if bool_decide (type = "tool-call") then call <-? encodeInferenceHistoricalToolCall part ;; Ok (add_call call p)
      else if bool_decide (type = "tool-result") then r <-? encodeInferenceHistoricalToolResult part ;; Ok (add_result r p)
      else Fail (unprocessable "Cursor Sand history part is unsupported")
  | _ => Fail (bad_request "Cursor Sand history part is invalid")
  end.
Fixpoint history_parts (memory : signatureMemoryStore) (dropSignatures : bool) (parts : list any) (p : inferenceParts) : result inferenceParts :=
  match parts with
  | [] => Ok p
  | part :: parts => p <-? history_part memory dropSignatures part p ;; history_parts memory dropSignatures parts p
  end.
(** One of three contents: the results, the parts when there is media, or the text. *)
Definition message_content (p : inferenceParts) : bytes :=
  if negb (bool_decide (ip_results p = [])) then appendBytesField (ip_out p) 6 (ip_results p)
  else if ip_media p then appendBytesField (ip_out p) 3 (ip_content p)
  else appendStringField (ip_out p) 2 (TrimSpace (Join (ip_texts p) (newline +:+ newline))).
Definition encodeInferenceHistoryMessage (memory : signatureMemoryStore) (dropSignatures : bool) (raw : bytes) : result bytes :=
  match unmarshal_map raw with
  | None => Fail (bad_request "Cursor Sand history is invalid")
  | Some message =>
      match inference_role (lower unicode_lower (sprint_field message "role")) with
      | None => Fail (unprocessable "Cursor Sand history role is unsupported")
      | Some role =>
          let parts := default [] (as_list (map_get message "content")) in
          p <-? history_parts memory dropSignatures parts
                  {| ip_out := appendVarintField [] 1 role; ip_texts := []; ip_content := []; ip_media := false; ip_results := []; ip_reasoning := [] |} ;;
          Ok (message_content p ++ ip_reasoning p)
      end
  end.

(** ** The request *)
Definition encodeInferenceTool (tool : ToolDefinition) : result bytes :=
  if blank (td_Name tool) then Fail (bad_request "Cursor Sand tool name is required")
  else
    match (if bool_decide (td_InputSchema tool = []) then Some [] else unmarshal_map (td_InputSchema tool)) with
    | None => Fail (bad_request "Cursor Sand tool schema is invalid")
    | Some schema =>
        parameters <-? marshalStruct [("jsonSchema", AnyMap schema)] ;;
        Ok (appendBytesField (appendStringField (appendStringField [] 1 (td_Name tool)) 2 (td_Description tool)) 3 parameters)
    end.
Definition encode_model (spec : inferenceModelSpec) : bytes :=
  let model := appendStringField [] 1 (im_ID spec) in
  let model := if im_MaxMode spec then appendVarintField model 2 1 else model in
  let model := fold_left (fun model '(id, value) => appendBytesField model 3 (appendStringField (appendStringField [] 1 id) 2 value))
                 (im_Parameters spec) model in
  if im_BuiltIn spec then appendVarintField model 4 1 else model.
Definition thinking_enabled (o : RunOptions) (spec : inferenceModelSpec) : inferenceModelSpec :=
  if ro_ThinkingEnabled o && negb (hasParameter "thinking" spec) && inferenceModelSupportsThinkingParameter unicode_lower (im_ID spec)
  then {| im_ID := im_ID spec; im_Parameters := im_Parameters spec ++ [("thinking", "true")]; im_BuiltIn := im_BuiltIn spec; im_MaxMode := im_MaxMode spec |}
  else spec.
Fixpoint append_history (memory : signatureMemoryStore) (dropSignatures : bool) (history : list bytes) (payload : bytes) : result bytes :=
  match history with
  | [] => Ok payload
  | raw :: history =>
      message <-? encodeInferenceHistoryMessage memory dropSignatures raw ;;
      append_history memory dropSignatures history (if bool_decide (message = []) then payload else appendBytesField payload 1 message)
  end.
Fixpoint append_tools (tools : list ToolDefinition) (payload : bytes) : result bytes :=
  match tools with
  | [] => Ok payload
  | tool :: tools => encoded <-? encodeInferenceTool tool ;; append_tools tools (appendBytesField payload 2 encoded)
  end.
(** [uuid]: the identifier of the request. *)
Definition encodeInferenceRequestWithPolicy (memory : signatureMemoryStore) (uuid : string) (run : RunRequest) (dropSignatures : bool) : result bytes :=
  let o := rr_Options run in
  spec <-? inferenceRequestedModel unicode_lower (ro_Model o) ;;
  spec <-? applyInferenceParameters unicode_lower (thinking_enabled o spec) o ;;
  let payload := if blank (ro_SystemText o) then [] else appendBytesField [] 1 (encodeInferenceTextMessage 4 (ro_SystemText o)) in
  payload <-? append_history memory dropSignatures (ro_HistoryMessages o) payload ;;
  let payload := if blank (rr_UserText run) && bool_decide (ro_UserMedia o = []) then payload
                 else appendBytesField payload 1 (encodeInferenceUserMessage (rr_UserText run) (ro_UserMedia o)) in
  payload <-? append_tools (rr_Tools run) payload ;;
  let payload := appendStringField payload 6 uuid in
  let payload := appendBytesField payload 7 (encode_model spec) in
  let payload := appendStringField payload 8 (rr_ConversationID run) in
  if maxConnectPayloadSize <? blen payload then Fail (errExceedsConnectLimit "Cursor Sand request") else Ok payload.
Definition encodeInferenceRequest (memory : signatureMemoryStore) (uuid : string) (run : RunRequest) : result bytes :=
  encodeInferenceRequestWithPolicy memory uuid run (ro_dropReasoningSignatures (rr_Options run)).

(** ** A translated turn for this profile *)
Definition with_inference (req : Request) (o : RunOptions) : RunOptions :=
  options_with (originalReasoningEffort unicode_lower req) (originalInferenceContext unicode_lower req) (originalInferenceThinking unicode_lower req)
    (ro_dropReasoningSignatures o) (ro_RequireToolCall o) (ro_SystemText o) (ro_HistoryMessages o) (ro_HistoryRequestKey o) o.
Definition with_history (history : list bytes) (key : string) (o : RunOptions) : RunOptions :=
  options_with (ro_ReasoningEffort o) (ro_InferenceContext o) (ro_InferenceThinking o) (ro_dropReasoningSignatures o) (ro_RequireToolCall o)
    (ro_SystemText o) history key o.
Definition plain_run (o : RunOptions) (r : RunRequest) : RunRequest :=
  {| rr_Options := o; rr_RuntimeProfile := rr_RuntimeProfile r; rr_ConversationID := rr_ConversationID r; rr_UserText := rr_UserText r;
     rr_FollowUpText := rr_FollowUpText r; rr_Tools := rr_Tools r; rr_InitialCheckpoint := []; rr_InitialBlobs := ∅; rr_Resume := false |}.
Definition with_run (followUp : string) (run : RunRequest) (turn : translatedTurn) : translatedTurn :=
  let m := tt_managed turn in set_managed (set_request (mr_SessionID m) followUp (mr_ActiveResults m) run m) turn.
(** [nil_tools]: the tools of the run are a nil slice; an attached tool makes them a slice. *)
Definition prepareInferenceTurn (turn : translatedTurn) (req : Request) (nil_tools : bool) : result translatedTurn :=
  let m := tt_managed turn in
  let responses := bool_decide (rq_Format req = FormatOpenAIResponse) in
  let answering := negb (bool_decide (mr_ActiveResults m = [])) in
  let run := mr_Run m in
  let run := run_with (with_inference req (rr_Options run)) (rr_UserText run) (rr_Tools run) (rr_InitialCheckpoint run) (rr_Resume run) run in
  run <-? attachInferenceHostedTools run ;;
  match unmarshal_map (tt_claudeRequest turn) with
  | None => Fail (bad_request "Cursor Sand could not rebuild request history")
  | Some root =>
      let messages := default [] (as_list (map_get root "messages")) in
      history <-? (if responses && answering then Ok [] else structuredHistory unicode_lower messages true) ;;
      let before := run_with (with_history history (ro_HistoryRequestKey (rr_Options run)) (rr_Options run)) (rr_UserText run) (rr_Tools run)
                      (rr_InitialCheckpoint run) (rr_Resume run) run in
      key <-? (if responses then Ok ""
               else historyRequestKey (with_run (mr_FollowUpText m) before turn) (map_get (rq_Metadata req) "beefapi_token_id") answering
                      (nil_tools && bool_decide (rr_Tools run = []))) ;;
      Ok (with_run "" (plain_run (with_history history key (rr_Options run)) run) turn)
  end.
End encode.
