(* ===== verification/SandRun.v ===== *)
(** * One segment and the run of the Sand profile (src/cursoragentv1/inference_runner.go)

    A segment sends the conversation, reads the parts of the answer, runs the hosted
    tools it asked for and leaves a checkpoint.  A run is a loop over segments: the next
    one starts from the checkpoint with the result of a caller's tool, or with those of the
    hosted tools. *)
From stdpp Require Import base tactics list gmap strings sorting.
From Stdlib Require Import Strings.Byte.
From S2P Require Import Prelude Effects GoStrings Sha256 JsonValue Connect Data HostedPolicy Usage Manager Media HostedSearch Wire HostedRun Runner Projection History Translate TranslateRequest TranslateTurn Credentials Sand SandTools SandWire.
Open Scope Z_scope.
Open Scope eff_scope.

(** ** State *)
Record inferenceSegmentOutcome := { so_Checkpoint : bytes; so_ToolSeen : bool; so_Continue : bool }.
(** What lives longer than a segment: the signatures, the hosted uses of the run, the
    retries counted, how many requests were sent, the events emitted.  The signatures are
    one memory of the process, here as this run sees it when no other run records any
    meanwhile. *)
Record sandWorld := {
  sw_memory : signatureMemoryStore; sw_uses : inferenceHostedUseTracker; sw_retries : Z; sw_streams : nat; sw_log : list Event }.
Definition put_memory (x : signatureMemoryStore) (s : sandWorld) : sandWorld :=
  {| sw_memory := x; sw_uses := sw_uses s; sw_retries := sw_retries s; sw_streams := sw_streams s; sw_log := sw_log s |}.
Definition put_uses (x : inferenceHostedUseTracker) (s : sandWorld) : sandWorld :=
  {| sw_memory := sw_memory s; sw_uses := x; sw_retries := sw_retries s; sw_streams := sw_streams s; sw_log := sw_log s |}.
Definition put_retries (x : Z) (s : sandWorld) : sandWorld :=
  {| sw_memory := sw_memory s; sw_uses := sw_uses s; sw_retries := x; sw_streams := sw_streams s; sw_log := sw_log s |}.
Definition put_streams (x : nat) (s : sandWorld) : sandWorld :=
  {| sw_memory := sw_memory s; sw_uses := sw_uses s; sw_retries := sw_retries s; sw_streams := x; sw_log := sw_log s |}.
Definition put_log (x : list Event) (s : sandWorld) : sandWorld :=
  {| sw_memory := sw_memory s; sw_uses := sw_uses s; sw_retries := sw_retries s; sw_streams := sw_streams s; sw_log := x |}.
(** The variables of [consumeInferenceStream]. *)
Record segmentState := {
  sg_world : sandWorld; sg_buffer : bytes; sg_toolCalls : gmap string inferenceToolCall; sg_callerToolSeen : bool; sg_usage : option
  inferenceUsage; sg_assistantText : string; sg_reasoningText : string; sg_reasoningSignature : string; sg_thinkingOpen : bool;
  sg_completedTools : list inferenceToolCall; sg_hostedCalls : list inferenceToolCall; sg_outcome : inferenceSegmentOutcome }.
Definition put_world (x : sandWorld) (s : segmentState) : segmentState :=
  {| sg_world := x; sg_buffer := sg_buffer s; sg_toolCalls := sg_toolCalls s; sg_callerToolSeen := sg_callerToolSeen s; sg_usage := sg_usage
     s; sg_assistantText := sg_assistantText s; sg_reasoningText := sg_reasoningText s; sg_reasoningSignature := sg_reasoningSignature s;
     sg_thinkingOpen := sg_thinkingOpen s; sg_completedTools := sg_completedTools s; sg_hostedCalls := sg_hostedCalls s; sg_outcome :=
     sg_outcome s |}.
Definition put_buffer (x : bytes) (s : segmentState) : segmentState :=
  {| sg_world := sg_world s; sg_buffer := x; sg_toolCalls := sg_toolCalls s; sg_callerToolSeen := sg_callerToolSeen s; sg_usage := sg_usage
     s; sg_assistantText := sg_assistantText s; sg_reasoningText := sg_reasoningText s; sg_reasoningSignature := sg_reasoningSignature s;
     sg_thinkingOpen := sg_thinkingOpen s; sg_completedTools := sg_completedTools s; sg_hostedCalls := sg_hostedCalls s; sg_outcome :=
     sg_outcome s |}.
Definition put_toolCalls (x : gmap string inferenceToolCall) (s : segmentState) : segmentState :=
  {| sg_world := sg_world s; sg_buffer := sg_buffer s; sg_toolCalls := x; sg_callerToolSeen := sg_callerToolSeen s; sg_usage := sg_usage s;
     sg_assistantText := sg_assistantText s; sg_reasoningText := sg_reasoningText s; sg_reasoningSignature := sg_reasoningSignature s;
     sg_thinkingOpen := sg_thinkingOpen s; sg_completedTools := sg_completedTools s; sg_hostedCalls := sg_hostedCalls s; sg_outcome :=
     sg_outcome s |}.
Definition put_callerToolSeen (x : bool) (s : segmentState) : segmentState :=
  {| sg_world := sg_world s; sg_buffer := sg_buffer s; sg_toolCalls := sg_toolCalls s; sg_callerToolSeen := x; sg_usage := sg_usage s;
     sg_assistantText := sg_assistantText s; sg_reasoningText := sg_reasoningText s; sg_reasoningSignature := sg_reasoningSignature s;
     sg_thinkingOpen := sg_thinkingOpen s; sg_completedTools := sg_completedTools s; sg_hostedCalls := sg_hostedCalls s; sg_outcome :=
     sg_outcome s |}.
Definition put_usage (x : option inferenceUsage) (s : segmentState) : segmentState :=
  {| sg_world := sg_world s; sg_buffer := sg_buffer s; sg_toolCalls := sg_toolCalls s; sg_callerToolSeen := sg_callerToolSeen s; sg_usage :=
     x; sg_assistantText := sg_assistantText s; sg_reasoningText := sg_reasoningText s; sg_reasoningSignature := sg_reasoningSignature s;
     sg_thinkingOpen := sg_thinkingOpen s; sg_completedTools := sg_completedTools s; sg_hostedCalls := sg_hostedCalls s; sg_outcome :=
     sg_outcome s |}.
Definition put_assistantText (x : string) (s : segmentState) : segmentState :=
  {| sg_world := sg_world s; sg_buffer := sg_buffer s; sg_toolCalls := sg_toolCalls s; sg_callerToolSeen := sg_callerToolSeen s; sg_usage :=
     sg_usage s; sg_assistantText := x; sg_reasoningText := sg_reasoningText s; sg_reasoningSignature := sg_reasoningSignature s;
     sg_thinkingOpen := sg_thinkingOpen s; sg_completedTools := sg_completedTools s; sg_hostedCalls := sg_hostedCalls s; sg_outcome :=
     sg_outcome s |}.
Definition put_reasoningText (x : string) (s : segmentState) : segmentState :=
  {| sg_world := sg_world s; sg_buffer := sg_buffer s; sg_toolCalls := sg_toolCalls s; sg_callerToolSeen := sg_callerToolSeen s; sg_usage :=
     sg_usage s; sg_assistantText := sg_assistantText s; sg_reasoningText := x; sg_reasoningSignature := sg_reasoningSignature s;
     sg_thinkingOpen := sg_thinkingOpen s; sg_completedTools := sg_completedTools s; sg_hostedCalls := sg_hostedCalls s; sg_outcome :=
     sg_outcome s |}.
Definition put_reasoningSignature (x : string) (s : segmentState) : segmentState :=
  {| sg_world := sg_world s; sg_buffer := sg_buffer s; sg_toolCalls := sg_toolCalls s; sg_callerToolSeen := sg_callerToolSeen s; sg_usage :=
     sg_usage s; sg_assistantText := sg_assistantText s; sg_reasoningText := sg_reasoningText s; sg_reasoningSignature := x; sg_thinkingOpen
     := sg_thinkingOpen s; sg_completedTools := sg_completedTools s; sg_hostedCalls := sg_hostedCalls s; sg_outcome := sg_outcome s |}.
Definition put_thinkingOpen (x : bool) (s : segmentState) : segmentState :=
  {| sg_world := sg_world s; sg_buffer := sg_buffer s; sg_toolCalls := sg_toolCalls s; sg_callerToolSeen := sg_callerToolSeen s; sg_usage :=
     sg_usage s; sg_assistantText := sg_assistantText s; sg_reasoningText := sg_reasoningText s; sg_reasoningSignature :=
     sg_reasoningSignature s; sg_thinkingOpen := x; sg_completedTools := sg_completedTools s; sg_hostedCalls := sg_hostedCalls s; sg_outcome
     := sg_outcome s |}.
Definition put_completedTools (x : list inferenceToolCall) (s : segmentState) : segmentState :=
  {| sg_world := sg_world s; sg_buffer := sg_buffer s; sg_toolCalls := sg_toolCalls s; sg_callerToolSeen := sg_callerToolSeen s; sg_usage :=
     sg_usage s; sg_assistantText := sg_assistantText s; sg_reasoningText := sg_reasoningText s; sg_reasoningSignature :=
     sg_reasoningSignature s; sg_thinkingOpen := sg_thinkingOpen s; sg_completedTools := x; sg_hostedCalls := sg_hostedCalls s; sg_outcome
     := sg_outcome s |}.
Definition put_hostedCalls (x : list inferenceToolCall) (s : segmentState) : segmentState :=
  {| sg_world := sg_world s; sg_buffer := sg_buffer s; sg_toolCalls := sg_toolCalls s; sg_callerToolSeen := sg_callerToolSeen s; sg_usage :=
     sg_usage s; sg_assistantText := sg_assistantText s; sg_reasoningText := sg_reasoningText s; sg_reasoningSignature :=
     sg_reasoningSignature s; sg_thinkingOpen := sg_thinkingOpen s; sg_completedTools := sg_completedTools s; sg_hostedCalls := x;
     sg_outcome := sg_outcome s |}.
Definition put_outcome (x : inferenceSegmentOutcome) (s : segmentState) : segmentState :=
  {| sg_world := sg_world s; sg_buffer := sg_buffer s; sg_toolCalls := sg_toolCalls s; sg_callerToolSeen := sg_callerToolSeen s; sg_usage :=
     sg_usage s; sg_assistantText := sg_assistantText s; sg_reasoningText := sg_reasoningText s; sg_reasoningSignature :=
     sg_reasoningSignature s; sg_thinkingOpen := sg_thinkingOpen s; sg_completedTools := sg_completedTools s; sg_hostedCalls :=
     sg_hostedCalls s; sg_outcome := x |}.
Definition no_outcome : inferenceSegmentOutcome := {| so_Checkpoint := []; so_ToolSeen := false; so_Continue := false |}.
Definition no_world (memory : signatureMemoryStore) : sandWorld :=
  {| sw_memory := memory; sw_uses := no_uses; sw_retries := 0; sw_streams := 0; sw_log := [] |}.
Definition new_segment (w : sandWorld) : segmentState :=
  {| sg_world := w; sg_buffer := []; sg_toolCalls := ∅; sg_callerToolSeen := false; sg_usage := None; sg_assistantText := ""; sg_reasoningText := "";
     sg_reasoningSignature := ""; sg_thinkingOpen := false; sg_completedTools := []; sg_hostedCalls := []; sg_outcome := no_outcome |}.
Abbreviation seg := (eff segmentState).
Definition on_world (f : sandWorld -> sandWorld) (s : segmentState) : segmentState := put_world (f (sg_world s)) s.
Definition log_event (e : Event) (w : sandWorld) : sandWorld := put_log (sw_log w ++ [e]) w.
Definition emit_event (e : Event) : seg unit := emodify (on_world (log_event e)).
Definition with_signature (signature : string) (e : Event) : Event :=
  {| ev_Type := ev_Type e; ev_Text := ev_Text e; ev_Signature := signature; ev_ProgressEvents := ev_ProgressEvents e; ev_Tokens := ev_Tokens e;
     ev_Usage := ev_Usage e; ev_Checkpoint := ev_Checkpoint e; ev_Blobs := ev_Blobs e; ev_ToolCall := ev_ToolCall e;
     ev_ToolResult := ev_ToolResult e; ev_HostedSearch := ev_HostedSearch e |}.
Definition inferenceStreamPath : string := "/aiserver.v1.InferenceService/Stream".

(** ** Helpers *)
Definition inferenceToolDeclared (tools : list ToolDefinition) (name : string) : bool :=
  existsb (fun tool => bool_decide (TrimSpace (td_Name tool) = TrimSpace name)) tools.
Definition countValue (value : Z) : ObservedCount := {| oc_Present := true; oc_Invalid := false; oc_Value := value |}.
Definition valueOrDefault (value fallback : string) : string := if blank value then fallback else TrimSpace value.
Definition cursorRequestCookie (accessToken : string) : string := "CursorCookie=Cookie-" +:+ of_bytes (take 15 (to_bytes (TrimSpace accessToken))).
Definition mergeInferenceToolArguments `{JSON} (current next : string) : string :=
  if bool_decide (next = "") then current
  else if bool_decide (current = "") || json_valid (to_bytes next) || HasPrefix next current then next else current +:+ next.
(** The usage facts of a segment. *)
Definition segment_usage (usage : inferenceUsage) : UsageObservation :=
  {| uo_Carried := false; uo_Kind := UsageKindTurnEnded; uo_TokenDelta := noCount; uo_Input := countValue (us_Input usage);
     uo_Output := countValue (us_Output usage);
     uo_CacheRead := if us_Extended usage then countValue (us_CacheRead usage) else noCount;
     uo_CacheWrite := if us_Extended usage then countValue (us_CacheWrite usage) else noCount; uo_Reasoning := noCount |}.
Definition no_reply (id : string) : inferenceToolCall := {| it_ID := id; it_Name := ""; it_Arguments := "" |}.
Definition call_event (call : inferenceToolCall) : Event :=
  with_tool_call (Some {| tc_MessageID := 0; tc_ExecID := ""; tc_ToolCallID := it_ID call; tc_Name := it_Name call; tc_Arguments := it_Arguments call |}) (event_of EventToolCall).

Section run.
Context `{Protowire} `{JSON} `{Digest} `{SDK} `{Outside} `{SandOutside} (unicode_lower : string -> string).
(** [url.Parse] for the domain rules; at most so many bytes of a gzip stream; the error
    object of a Connect trailer; the identifiers of the requests; the answer to the n-th
    request (or why there is none): its status, the chunks read, and the error of the last
    read ([None]: end of file). *)
Context (parse_url : string -> option (string * string)) (gzip_read : Z -> bytes -> result bytes)
        (decodeTrailer : bytes -> option (option (string * string))) (ids : nat -> string).
Context (stream_open : nat -> string -> list (string * string) -> bytes -> result (Z * (list bytes * option Err))).

Section segment.
Context (request : RunRequest).
Local Notation options := (rr_Options request).

(** ** A part of the answer *)
Definition close_thinking : seg unit :=
  open <- eget sg_thinkingOpen ;;
  if open : bool then
    signature <- eget sg_reasoningSignature ;;
    emodify (put_thinkingOpen false) ;;; emit_event (with_signature signature (event_of EventThinkingCompleted))
  else eret tt.
Definition on_text (text : string) : seg unit :=
  if bool_decide (text = "") then eret tt
  else close_thinking ;;; emodify (fun s => put_assistantText (sg_assistantText s +:+ text) s) ;;; emit_event (with_text text (event_of EventText)).
Definition on_thinking (text : string) : seg unit :=
  if bool_decide (text = "") then eret tt
  else emodify (put_thinkingOpen true) ;;; emodify (fun s => put_reasoningText (sg_reasoningText s +:+ text) s) ;;;
       emit_event (with_text text (event_of EventThinking)).
Definition remember (signature : string) (w : sandWorld) : sandWorld := put_memory (rememberMintedSignature signature (sw_memory w)) w.
Definition on_signature (signature : string) : seg unit :=
  if bool_decide (signature = "") then eret tt
  else emodify (put_reasoningSignature signature) ;;; emodify (on_world (remember signature)) ;;; emodify (put_thinkingOpen true) ;;; close_thinking.
Definition on_usage (usage : option inferenceUsage) : seg unit :=
  match usage with
  | None => eret tt
  | Some u =>
      emodify (fun s => if us_Extended u || negb (bool_decide (is_Some (sg_usage s))) || negb (default false (us_Extended <$> sg_usage s))
                        then put_usage (Some u) s else s)
  end.
(** The pending call of an identifier, a new one when there is room. *)
Definition pending_call (id : string) : seg inferenceToolCall :=
  calls <- eget sg_toolCalls ;;
  match calls !! id with
  | Some pending => eret pending
  | None =>
      if maxPendingTools <=? Z.of_nat (size calls) then efail (sand_error ("pending tools exceed " +:+ Itoa maxPendingTools))
      else if (0 <? ro_MaxParallelTools options) && (ro_MaxParallelTools options <=? Z.of_nat (size calls))
      then efail (sand_error "returned parallel caller tools when the client disabled them")
      else eret (no_reply id)
  end.
Definition merged (pending tool : inferenceToolCall) : inferenceToolCall :=
  {| it_ID := it_ID pending; it_Name := if bool_decide (it_Name tool = "") then it_Name pending else it_Name tool;
     it_Arguments := mergeInferenceToolArguments (it_Arguments pending) (it_Arguments tool) |}.
Definition finish_call (call : inferenceToolCall) : seg unit :=
  if blank (it_Name call) then efail (sand_error ("tool call " +:+ quote +:+ it_ID call +:+ quote +:+ " is missing its name"))
  else if negb (inferenceToolDeclared (rr_Tools request) (it_Name call))
  then efail (sand_error ("returned undeclared tool " +:+ quote +:+ it_Name call +:+ quote))
  else
    emodify (fun s => put_completedTools (sg_completedTools s ++ [call]) s) ;;;
    (if is_hosted (it_Name call) then emodify (fun s => put_hostedCalls (sg_hostedCalls s ++ [call]) s)
     else emodify (put_callerToolSeen true) ;;; emit_event (call_event call)) ;;;
    emodify (fun s => put_toolCalls (delete (it_ID call) (sg_toolCalls s)) s).
Definition on_tool (tool : inferenceToolCall) (final : bool) : seg unit :=
  let id := TrimSpace (it_ID tool) in
  if bool_decide (id = "") then efail (sand_error "tool call is missing its id")
  else
    pending <- pending_call id ;;
    let call := merged pending tool in
    emodify (fun s => put_toolCalls (<[id := call]> (sg_toolCalls s)) s) ;;;
    (if final then finish_call call else eret tt).
Definition on_response (part : inferenceResponse) : seg unit :=
  if negb (bool_decide (in_ErrorCode part = "")) || negb (bool_decide (in_ErrorText part = ""))
  then efail (ErrConnect (valueOrDefault (in_ErrorCode part) "unknown") (valueOrDefault (in_ErrorText part) "Cursor Sand inference failed"))
  else
    on_text (in_Text part) ;;; on_thinking (in_Thinking part) ;;; on_signature (in_ThinkSignature part) ;;;
    (if in_ThinkFinal part then close_thinking else eret tt) ;;;
    (if bool_decide (is_Some (in_Tool part)) then close_thinking else eret tt) ;;;
    on_usage (in_Usage part) ;;;
    match in_Tool part with Some tool => on_tool tool (in_ToolFinal part) | None => eret tt end.

(** ** The end of the stream *)
Definition hosted_event (t : EventType) (search : HostedSearch) : Event := with_search search (event_of t).
Definition run_hosted (call : inferenceToolCall) : seg inferenceHostedToolResult :=
  uses <- eget (fun s => sw_uses (sg_world s)) ;;
  let '(r, uses) := executeInferenceHostedCall unicode_lower parse_url request call uses in
  emodify (on_world (put_uses uses)) ;;;
  r <- elift r ;;
  let '(result, search) := r in
  emit_event (event_of EventHostedSearchCall) ;;; emit_event (hosted_event EventHostedSearchStarted search) ;;;
  emit_event (hosted_event EventHostedSearchCompleted search) ;;; eret result.
Fixpoint run_hosted_calls (calls : list inferenceToolCall) : seg (list inferenceHostedToolResult) :=
  match calls with
  | [] => eret []
  | call :: calls => r <- run_hosted call ;; rest <- run_hosted_calls calls ;; eret (r :: rest)
  end.
Definition report_usage : seg unit :=
  usage <- eget sg_usage ;;
  match usage with
  | None => eret tt
  | Some u => emit_event (with_usage 0 (Some (segment_usage u)) (event_of EventUsageObservation))
  end.
Definition set_outcome (f : inferenceSegmentOutcome -> inferenceSegmentOutcome) : seg unit := emodify (fun s => put_outcome (f (sg_outcome s)) s).
Definition segment_checkpoint (hosted : list inferenceHostedToolResult) (s : segmentState) : result bytes :=
  encodeInferenceCheckpoint request (sg_assistantText s) {| rs_Text := sg_reasoningText s; rs_Signature := sg_reasoningSignature s |}
    (sg_completedTools s) hosted.
Definition save_checkpoint (hosted : list inferenceHostedToolResult) : seg unit :=
  encoded <- eget (segment_checkpoint hosted) ;;
  checkpoint <- elift encoded ;;
  emit_event (with_payload checkpoint ∅ (event_of EventCheckpoint)) ;;;
  set_outcome (fun o => {| so_Checkpoint := checkpoint; so_ToolSeen := so_ToolSeen o; so_Continue := so_Continue o |}).
Definition no_key : bool := bool_decide (ro_HistoryRequestKey options = "").
(** What the segment returns, after the checkpoint. *)
Definition settle : seg unit :=
  seen <- eget sg_callerToolSeen ;;
  hosted <- eget sg_hostedCalls ;;
  (if seen : bool then
     emit_event (event_of EventTurnEnded) ;;;
     set_outcome (fun o => {| so_Checkpoint := so_Checkpoint o; so_ToolSeen := true; so_Continue := so_Continue o |})
   else eret tt) ;;;
  if seen && no_key then eret tt
  else if negb (bool_decide (hosted = []))
  then set_outcome (fun o => {| so_Checkpoint := so_Checkpoint o; so_ToolSeen := so_ToolSeen o; so_Continue := true |})
  else
    uses <- eget (fun s => sw_uses (sg_world s)) ;;
    match validateRequired options uses with
    | Some e => efail e
    | None => emit_event (event_of EventDone)
    end.
Definition on_end_segment (payload : bytes) : seg unit :=
  match parseConnectEndStream decodeTrailer payload with
  | Some e => efail e
  | None =>
      close_thinking ;;;
      calls <- eget sg_toolCalls ;;
      if negb (bool_decide (calls = ∅)) then efail (sand_error ("ended with " +:+ Itoa (Z.of_nat (size calls)) +:+ " incomplete tool call(s)"))
      else
        hosted <- eget sg_hostedCalls ;;
        results <- run_hosted_calls hosted ;;
        report_usage ;;;
        (if no_key || negb (bool_decide (hosted = [])) then save_checkpoint results else eret tt) ;;;
        settle
  end.

(** ** Frames and chunks *)
Definition on_segment_frame (flags : byte) (payload : bytes) : seg control :=
  payload <- (if has_flag flags connectCompressionFlag then elift (decompressConnectPayload gzip_read payload) else eret payload) ;;
  if has_flag flags connectEndStreamFlag then on_end_segment payload ;;; eret Finished
  else part <- elift (decodeInferenceResponse payload) ;; on_response part ;;; eret Continue.
(** Every frame takes at least five bytes of the buffer. *)
Fixpoint segment_frames (fuel : nat) : seg control :=
  match fuel with
  | O => eret Continue
  | S fuel =>
      buffer <- eget sg_buffer ;;
      frame <- elift (parseConnectFrame buffer) ;;
      match frame with
      | None => eret Continue
      | Some (flags, payload, consumed) =>
          emodify (put_buffer (drop consumed buffer)) ;;;
          c <- on_segment_frame flags payload ;;
          match c with Finished => eret Finished | Continue => segment_frames fuel end
      end
  end.
Definition on_segment_chunk (chunk : bytes) : seg control :=
  if bool_decide (chunk = []) then eret Continue
  else
    emodify (fun s => put_buffer (sg_buffer s ++ chunk) s) ;;;
    buffered <- eget (fun s => length (sg_buffer s)) ;;
    if maxConnectPayloadSize + Z.of_nat connectHeaderSize <? Z.of_nat buffered then efail (errExceedsConnectLimit "Cursor Sand response frame")
    else segment_frames (S buffered).
Definition errSandTrailer : Err := sand_error "stream closed without Connect terminal trailer".
Fixpoint consumeInferenceStream (chunks : list bytes) (readErr : option Err) : seg unit :=
  match chunks with
  | [] => efail match readErr with None => errSandTrailer | Some e => ErrWrap "read Cursor Sand response: " e end
  | chunk :: chunks =>
      c <- on_segment_chunk chunk ;;
      match c with Finished => eret tt | Continue => consumeInferenceStream chunks readErr end
  end.
End segment.

(** ** A segment *)
Definition segment_headers (o : RunOptions) : list (string * string) :=
  [("Authorization", "Bearer " +:+ TrimSpace (ro_AccessToken o)); ("Content-Type", "application/connect+proto"); ("Connect-Protocol-Version", "1");
   ("Connect-Accept-Encoding", "gzip"); ("X-Cursor-Client-Type", runtimeSand); ("X-Cursor-Client-Version", TrimSpace (ro_ClientVersion o));
   ("X-Cursor-Streaming", "true"); ("X-Ghost-Mode", "true"); ("User-Agent", "connect-es/1.6.1"); ("Cookie", cursorRequestCookie (ro_AccessToken o))].
Definition accepted_event (r : ToolResult) : Event := with_result r (event_of EventToolResultAccepted).
Definition accepted_events (accepted : option ToolResult) (w : sandWorld) : sandWorld :=
  match accepted with Some r => log_event (accepted_event r) w | None => w end.
Definition count_stream (w : sandWorld) : sandWorld := put_streams (S (sw_streams w)) w.
Definition runInferenceSegment (request : RunRequest) (accepted : option ToolResult) (w : sandWorld) : result inferenceSegmentOutcome * sandWorld :=
  let o := rr_Options request in
  let url := defaultInferenceBaseURL +:+ inferenceStreamPath in
  match encodeInferenceRequest unicode_lower (sw_memory w) (ids (sw_streams w)) request with
  | Fail e => (Fail e, w)
  | Ok payload =>
      match http_new_request url with
      | Some e => (Fail (ErrWrap "build Cursor Sand request: " e), w)
      | None =>
          match http2_transport (ro_ProxyURL o) with
          | Some e => (Fail e, w)
          | None =>
              match stream_open (sw_streams w) url (segment_headers o) (frameConnect payload) with
              | Fail e => (Fail (ErrWrap "Cursor Sand HTTP/2 request: " e), count_stream w)
              | Ok (status, (chunks, readErr)) =>
                  let w := count_stream w in
                  if negb (status =? 200) then (Fail (ErrHTTP status ("Cursor Sand upstream HTTP " +:+ Itoa status)), w)
                  else
                    match consumeInferenceStream request chunks readErr (new_segment (accepted_events accepted w)) with
                    | (Ok _, s) => (Ok (sg_outcome s), sg_world s)
                    | (Fail e, s) => (Fail e, sg_world s)
                    end
              end
          end
      end
  end.

(** ** The run *)
(** The results the manager sends, and what the select finds after them. *)
Inductive channelEnd : Type := EndNoChannel | EndContext (e : Err) | EndClosed.
Definition receive (results : list ToolResult) (closed : channelEnd) : received :=
  match results, closed with
  | r :: _, _ => Received r
  | [], EndNoChannel => NoChannel
  | [], EndContext e => ContextDone e
  | [], EndClosed => ChannelClosed
  end.
Definition drop_signatures (r : RunRequest) : RunRequest :=
  let o := rr_Options r in
  run_with (options_with (ro_ReasoningEffort o) (ro_InferenceContext o) (ro_InferenceThinking o) true (ro_RequireToolCall o) (ro_SystemText o)
              (ro_HistoryMessages o) (ro_HistoryRequestKey o) o) (rr_UserText r) (rr_Tools r) (rr_InitialCheckpoint r) (rr_Resume r) r.
(** An event other than the acceptance was emitted since [before]. *)
Definition emitted_since (before : nat) (w : sandWorld) : bool :=
  existsb (fun e => negb (bool_decide (ev_Type e = EventToolResultAccepted))) (drop before (sw_log w)).
Definition foreign_signature (before : nat) (prepared : RunRequest) (e : Err) (w : sandWorld) : bool :=
  negb (emitted_since before w) && negb (ro_dropReasoningSignatures (rr_Options prepared)) && isForeignReasoningSignatureRejection unicode_lower e &&
  historyCarriesForwardedSignature (sw_memory w) (ro_HistoryMessages (rr_Options prepared)).
Definition reject_history (prepared : RunRequest) (w : sandWorld) : sandWorld :=
  put_retries (sw_retries w + 1) (put_memory (markHistorySignaturesRejected (ro_HistoryMessages (rr_Options prepared)) (sw_memory w)) w).
(** The segment, once more without signatures when one was refused. *)
Definition run_segment (prepared : RunRequest) (accepted : option ToolResult) (w : sandWorld)
    : result (inferenceSegmentOutcome * RunRequest) * sandWorld :=
  match runInferenceSegment prepared accepted w with
  | (Ok outcome, w') => (Ok (outcome, prepared), w')
  | (Fail e, w') =>
      if foreign_signature (length (sw_log w)) prepared e w' then
        let prepared := drop_signatures prepared in
        let '(r, w'') := runInferenceSegment prepared None (reject_history prepared w') in
        (rbind r (fun outcome => Ok (outcome, prepared)), w'')
      else (Fail e, w')
  end.
Definition next_request (outcome : inferenceSegmentOutcome) (prepared : RunRequest) : RunRequest :=
  run_with (with_messages "" [] (rr_Options prepared)) "" (rr_Tools prepared) (so_Checkpoint outcome) (so_ToolSeen outcome) prepared.
Definition errHostedLoop : Err := sand_error ("hosted web loop exceeded " +:+ Itoa (Z.of_nat maxInferenceHostedSteps) +:+ " inference steps").
(** [None]: the fuel ran out.  [steps]: segments that ended with hosted calls. *)
Fixpoint run_loop (fuel : nat) (request : RunRequest) (results : list ToolResult) (closed : channelEnd) (steps : nat) (w : sandWorld)
    : option (result unit * sandWorld) :=
  match fuel with
  | O => None
  | S fuel =>
      match prepareInferenceRun (receive results closed) request with
      | Fail e => Some (Fail e, w)
      | Ok (prepared, accepted) =>
          let results := if rr_Resume request then tail results else results in
          match run_segment prepared accepted w with
          | (Fail e, w) => Some (Fail e, w)
          | (Ok (outcome, prepared), w) =>
              if so_ToolSeen outcome && negb (no_key prepared) then Some (Ok tt, w)
              else if negb (so_ToolSeen outcome) && negb (so_Continue outcome) then Some (Ok tt, w)
              else
                let steps := if so_Continue outcome then S steps else steps in
                if so_Continue outcome && (maxInferenceHostedSteps <=? steps)%nat then Some (Fail errHostedLoop, w)
                else run_loop fuel (next_request outcome prepared) results closed steps w
          end
      end
  end.
Definition errSandCredential : Err := sand_error "access token and client version are required".
(** A segment that is resumed takes a result, one that goes on for hosted tools a step. *)
Definition run_fuel (results : list ToolResult) : nat := (length results + maxInferenceHostedSteps + 2)%nat.
Definition SandRun (request : RunRequest) (results : list ToolResult) (closed : channelEnd) (w : sandWorld) : option (result unit * sandWorld) :=
  let o := rr_Options request in
  if blank (ro_AccessToken o) || blank (ro_ClientVersion o) then Some (Fail errSandCredential, w)
  else run_loop (run_fuel results) request results closed 0 (put_uses no_uses w).
End run.

(** ** The runner of a profile (profile_runner.go) *)
Definition profileRunner_Run {A} (unicode_lower : string -> string) (agent sand : RunRequest -> result A) (request : RunRequest) : result A :=
  let profile := lower unicode_lower (TrimSpace (rr_RuntimeProfile request)) in
  if bool_decide (profile = "") || bool_decide (profile = runtimeAgentV1) then agent request
  else if bool_decide (profile = runtimeSand) then sand request
  else Fail (ErrMsg ("Cursor Agent v1 runtime profile " +:+ quote +:+ rr_RuntimeProfile request +:+ quote +:+ " is invalid")).
