(* ===== verification/SandLogic.v ===== *)
(** * Invariants of a Sand run

    What holds of the events, the hosted uses and the signature memory while the parts
    of a segment are handled, and what a segment leaves. *)
From stdpp Require Import base tactics list gmap strings sorting.
From Stdlib Require Import Strings.Byte.
From S2P Require Import Prelude Effects GoStrings Sha256 JsonValue Connect Data HostedPolicy Usage Manager Media HostedSearch Wire HostedRun Runner Projection History Translate TranslateRequest TranslateTurn Credentials Sand SandTools SandWire SandRun.
Open Scope Z_scope.
Open Scope eff_scope.

(** ** Observing the events *)
Definition completed_of (kind : string) (e : Event) : bool :=
  bool_decide (ev_Type e = EventHostedSearchCompleted) && bool_decide (hs_Kind <$> ev_HostedSearch e = Some kind).
Definition completed (kind : string) (log : list Event) : Z := Z.of_nat (length (List.filter (completed_of kind) log)).
Definition not_finished (e : Event) : Prop := ev_Type e <> EventDone.
(** A call of the caller's: one of the declared tools, not a private one. *)
Definition call_allowed (tools : list ToolDefinition) (e : Event) : Prop :=
  ev_Type e = EventToolCall -> exists c, ev_ToolCall e = Some c /\ blank (tc_ToolCallID c) = false /\
    inferenceToolDeclared tools (tc_Name c) = true /\ is_hosted (tc_Name c) = false.
(** Reading the events, whether a thinking block is open; [None]: something came inside. *)
Definition block_step (open : option bool) (e : Event) : option bool :=
  match open, ev_Type e with
  | None, _ => None
  | Some _, EventThinking => Some true
  | Some _, EventThinkingCompleted => Some false
  | Some true, _ => None
  | Some false, _ => Some false
  end.
Definition blocks (log : list Event) : option bool := fold_left block_step log (Some false).
Definition quiet (e : Event) : bool :=
  negb (bool_decide (ev_Type e ∈ [EventDone; EventToolCall; EventThinking; EventThinkingCompleted; EventHostedSearchCompleted])).

Lemma completed_app kind l e : completed kind (l ++ [e]) = completed kind l + Z.b2z (completed_of kind e).
Proof. unfold completed. rewrite List.filter_app, length_app. cbn [List.filter]. destruct (completed_of kind e); cbn [length Z.b2z]; lia. Qed.
Lemma blocks_app l e : blocks (l ++ [e]) = block_step (blocks l) e.
Proof. unfold blocks. by rewrite fold_left_app. Qed.

(** ** The signature memory *)
Section memory.
Context `{JSON} `{Digest}.
(** First in, first out, with no more than [sm_limit] entries. *)
Record fifo (m : signatureMemoryStore) : Prop := Fifo {
  ff_limit : (0 < sm_limit m)%nat;
  ff_nodup : NoDup (sm_order m);
  ff_dom : forall key, is_Some (sm_state m !! key) <-> key ∈ sm_order m;
  ff_length : (length (sm_order m) <= sm_limit m)%nat }.
(** A signature the answers of [log] carried. *)
Definition minted_in (log : list Event) (key : string) : Prop :=
  exists e, e ∈ log /\ ev_Type e = EventThinkingCompleted /\ blank (ev_Signature e) = false /\ signatureKey (ev_Signature e) = key.
(** The keys of these signatures, in the order of the events. *)
Definition sig_key (e : Event) : option string :=
  if bool_decide (ev_Type e = EventThinkingCompleted) && negb (blank (ev_Signature e)) then Some (signatureKey (ev_Signature e)) else None.
Definition minted_keys (log : list Event) : list string := omap sig_key log.
(** A queue of limited length takes a key: one it has stays where it is, a new one goes
    to the end, and what is then too much leaves at the front. *)
Definition first_out (limit : nat) (queue : list string) (key : string) : list string :=
  if bool_decide (key ∈ queue) then queue else drop (S (length queue) - limit) (queue ++ [key]).
(** [m] is what [m0] becomes by taking keys of [log] in their order, every one of them at
    least once; what it forwards it forwarded before or is minted in [log]. *)
Record from_log (m0 : signatureMemoryStore) (log : list Event) (m : signatureMemoryStore) : Prop := FromLog {
  fl_limit : sm_limit m = sm_limit m0;
  fl_order : exists keys, keys `sublist_of` minted_keys log /\ (forall key, key ∈ minted_keys log -> key ∈ keys) /\
               sm_order m = fold_left (first_out (sm_limit m0)) keys (sm_order m0);
  fl_minted : forall key, sm_state m !! key = Some signatureMinted -> sm_state m0 !! key = Some signatureMinted \/ minted_in log key }.
(** No signature of its own. *)
Definition unsigned (log : list Event) (e : Event) : Prop := forall key, sig_key e = Some key -> key ∈ minted_keys log.

Lemma minted_in_app log e key : minted_in log key -> minted_in (log ++ [e]) key.
Proof. intros (x & Hx & G). exists x. split; [apply elem_of_app; by left|done]. Qed.
Lemma minted_keys_app log e : minted_keys (log ++ [e]) = minted_keys log ++ option_list (sig_key e).
Proof. unfold minted_keys. rewrite omap_app. cbn. by destruct (sig_key e). Qed.
Lemma from_log_app m0 log e m : unsigned log e -> from_log m0 log m -> from_log m0 (log ++ [e]) m.
Proof.
  intros He [El (keys & Hs & Hk & Ho) G]. split; [done| |].
  - exists keys. rewrite minted_keys_app. split_and!; [by apply sublist_inserts_r|intros key|done].
    rewrite elem_of_app. intros [Hi|Hi]; [by apply Hk|]. apply Hk, He. destruct (sig_key e); [|by apply not_elem_of_nil in Hi].
    apply list_elem_of_singleton in Hi. by subst.
  - intros key Hi. destruct (G key Hi) as [|Hm]; [by left|right; by apply minted_in_app].
Qed.
Lemma from_log_refl m0 : from_log m0 [] m0.
Proof. split; [done| |intros key; by left]. exists []. split_and!; [constructor|done|done]. Qed.
Lemma unsigned_type log e : ev_Type e <> EventThinkingCompleted -> unsigned log e.
Proof. intros He key. unfold sig_key. by rewrite bool_decide_eq_false_2. Qed.

Lemma trim_fits limit order state : (length order <= limit)%nat -> trim_memory limit order state = (order, state).
Proof. destruct order; cbn [trim_memory]; [done|]. intros Hl. by rewrite (proj2 (Nat.ltb_ge _ _) Hl). Qed.
(** One entry too many: the oldest goes. *)
Lemma trim_one limit oldest order state :
  length order = limit -> trim_memory limit (oldest :: order) state = (order, delete oldest state).
Proof.
  intros Hl. cbn [trim_memory]. rewrite (proj2 (Nat.ltb_lt _ _)) by (cbn [length]; lia). apply trim_fits. lia.
Qed.
Lemma record_state_sub signature st m key v :
  sm_state (record_signature signature st m) !! key = Some v ->
  sm_state m !! key = Some v \/ (blank signature = false /\ signatureKey signature = key /\ v = st).
Proof.
  unfold record_signature. destruct (blank signature); [by left|].
  case_bool_decide; cbn [sm_state].
  { intros [[<- <-]|[_ G]]%lookup_insert_Some; [by right|by left]. }
  destruct (trim_memory _ _ _) as [order states] eqn:E. cbn [sm_state].
  intros [[<- <-]|[_ G]]%lookup_insert_Some; [by right|left].
  revert order states E G. generalize (sm_order m ++ [signatureKey signature]) as l. generalize (sm_state m) as s0.
  intros s0 l. revert s0. induction l as [|x l IH]; intros s0 order states; cbn [trim_memory]; [intros [= <- <-]; done|].
  destruct (_ <? _)%nat; [|intros [= <- <-]; done]. intros E G. specialize (IH _ _ _ E G). by apply lookup_delete_Some in IH as [_ ?].
Qed.
Lemma record_limit signature st m : sm_limit (record_signature signature st m) = sm_limit m.
Proof. unfold record_signature. destruct (blank signature); [done|]. case_bool_decide; [done|]. by destruct (trim_memory _ _ _). Qed.
Lemma record_fifo signature st m : fifo m -> fifo (record_signature signature st m).
Proof.
  intros [Hl Hn Hd Hs]. unfold record_signature. destruct (blank signature); [done|]. case_bool_decide as Hk.
  { split; cbn [sm_limit sm_order sm_state]; [done..| |done]. intros key. rewrite lookup_insert_is_Some, Hd.
    destruct (decide (signatureKey signature = key)) as [<-|]; [|naive_solver]. apply Hd in Hk. naive_solver. }
  set (key := signatureKey signature) in *. assert (key ∉ sm_order m) as Hfresh by (intros G; apply Hk, Hd, G).
  assert (NoDup (sm_order m ++ [key])) as Hnd.
  { apply NoDup_app. split; [done|]. split; [|apply NoDup_singleton]. intros x Hx Hx'. apply list_elem_of_singleton in Hx'. by subst. }
  destruct (decide (length (sm_order m) < sm_limit m)%nat) as [Hlt|Hge].
  - rewrite trim_fits by (rewrite length_app; cbn [length]; lia). split; cbn [sm_limit sm_order sm_state]; [done|done| |rewrite length_app; cbn [length]; lia].
    intros k. rewrite lookup_insert_is_Some, elem_of_app, list_elem_of_singleton, Hd. destruct (decide (key = k)); naive_solver.
  - destruct (sm_order m) as [|oldest order] eqn:Eo; [cbn [length] in *; lia|]. rewrite <- app_comm_cons.
    rewrite <- app_comm_cons in Hnd. apply NoDup_cons in Hnd as [Hold Hnd].
    rewrite trim_one by (rewrite length_app; cbn [length] in *; lia).
    split; cbn [sm_limit sm_order sm_state]; [done|done| |rewrite length_app; cbn [length] in *; lia].
    intros k. rewrite lookup_insert_is_Some, lookup_delete_is_Some, elem_of_app, list_elem_of_singleton, Hd, elem_of_cons.
    destruct (decide (key = k)) as [<-|Hne]; [naive_solver|]. split; [naive_solver|]. intros [Hin|]; [|congruence].
    right. split; [done|]. split; [|by right]. intros <-. apply Hold, elem_of_app. by left.
Qed.
(** What a signature does to the order of the keys. *)
Lemma record_order signature st m :
  fifo m -> sm_order (record_signature signature st m) =
    if blank signature then sm_order m else first_out (sm_limit m) (sm_order m) (signatureKey signature).
Proof.
  intros [Hl Hn Hd Hs]. unfold record_signature, first_out. destruct (blank signature); [done|]. set (key := signatureKey signature).
  destruct (decide (key ∈ sm_order m)) as [Hi|Hi].
  { rewrite !bool_decide_eq_true_2 by (done || by apply Hd). done. }
  rewrite !bool_decide_eq_false_2 by (by rewrite ?Hd). destruct (decide (length (sm_order m) < sm_limit m)%nat) as [Hlt|Hge].
  - rewrite trim_fits by (rewrite length_app; cbn [length]; lia). by replace (S (length (sm_order m)) - sm_limit m)%nat with O by lia.
  - destruct (sm_order m) as [|oldest order] eqn:Eo; [cbn [length] in *; lia|]. rewrite <- app_comm_cons.
    rewrite trim_one by (rewrite length_app; cbn [length] in *; lia). by replace (S (length (oldest :: order)) - sm_limit m)%nat with 1%nat by (cbn [length] in *; lia).
Qed.
Lemma sig_key_completed signature :
  sig_key (with_signature signature (event_of EventThinkingCompleted)) = if blank signature then None else Some (signatureKey signature).
Proof. unfold sig_key. cbn. by destruct (blank signature). Qed.
Lemma remember_sound m0 log signature m :
  fifo m -> from_log m0 log m -> from_log m0 (log ++ [with_signature signature (event_of EventThinkingCompleted)]) (rememberMintedSignature signature m).
Proof.
  intros Hm [El (keys & Hs & Hk & Ho) G]. set (e := with_signature _ _). unfold rememberMintedSignature.
  assert (option_list (sig_key e) = if blank signature then [] else [signatureKey signature]) as He
    by (unfold e; rewrite sig_key_completed; by destruct (blank signature)).
  split; [by rewrite record_limit| |].
  - rewrite minted_keys_app, He, record_order by done. destruct (blank signature).
    + exists keys. rewrite app_nil_r. by split_and!.
    + exists (keys ++ [signatureKey signature]). rewrite fold_left_app. cbn [fold_left]. rewrite <-Ho, El.
      split_and!; [by apply sublist_app| |done]. intros key. rewrite !elem_of_app. intros [Hi|Hi]; [left; by apply Hk|by right].
  - intros key Hi. apply record_state_sub in Hi as [Hi|(Hb & <- & _)].
    + destruct (G key Hi) as [|Hx]; [by left|right; by apply minted_in_app].
    + right. exists e. split; [apply elem_of_app; right; by apply list_elem_of_singleton|done].
Qed.
Lemma reject_one m0 log signature m : fifo m -> from_log m0 log m -> from_log m0 log (reject_signature signature m).
Proof.
  intros Hm [El (keys & Hs & Hk & Ho) G]. unfold reject_signature. case_bool_decide as Hl; [|by split; [done|exists keys|]].
  unfold lookup_signature in Hl. destruct (blank signature) eqn:Eb; [done|].
  destruct (sm_state m !! signatureKey signature) as [v|] eqn:Ev; [|done].
  split; [by rewrite record_limit| |].
  - exists keys. rewrite record_order, Eb by done. unfold first_out. rewrite bool_decide_eq_true_2 by (apply (ff_dom _ Hm); by eexists).
    by split_and!.
  - intros key Hi. apply record_state_sub in Hi as [Hi|(_ & _ & ?)]; [by apply G|done].
Qed.
Lemma reject_sound m0 log messages m : fifo m -> from_log m0 log m -> from_log m0 log (markHistorySignaturesRejected messages m).
Proof.
  unfold markHistorySignaturesRejected. generalize (historySignatures messages) as l. intros l. revert m.
  induction l as [|x l IH]; cbn [fold_left]; intros m Hm G; [done|]. apply IH; [|by apply reject_one].
  unfold reject_signature. case_bool_decide; [|done]. by apply record_fifo.
Qed.
Lemma reject_fifo messages m : fifo m -> fifo (markHistorySignaturesRejected messages m).
Proof.
  unfold markHistorySignaturesRejected. generalize (historySignatures messages) as l. intros l. revert m.
  induction l as [|x l IH]; cbn [fold_left]; intros m G; [done|]. apply IH. unfold reject_signature. case_bool_decide; [|done]. by apply record_fifo.
Qed.
End memory.

(** ** What holds of a run at any time *)
Section world.
Context `{JSON} `{Digest} (tools : list ToolDefinition) (searchMax fetchMax : option Z) (m0 : signatureMemoryStore) (base : list Event).
(** No more than 8 uses, and no more than the caller asked for. *)
Definition within (uses : Z) (max : option Z) : Prop := 0 <= uses <= 8 /\ forall n, max = Some n -> uses <= Z.max 0 n.
Lemma within_more uses max : within uses max -> uses < use_limit max -> within (uses + 1) max.
Proof.
  unfold within, use_limit, maxInferenceHostedUses. intros [Hu Hm] Hl. destruct max as [n|]; [|split; [lia|done]].
  specialize (Hm n eq_refl). destruct (n <? 8) eqn:E; (split; [lia|intros ? [= <-]; lia]).
Qed.
(** On every path, errors included; [base]: the events at the start. *)
Record safe (streams : nat) (w : sandWorld) : Prop := Safe {
  sf_done : Forall not_finished (sw_log w);
  sf_calls : Forall (call_allowed tools) (sw_log w);
  sf_search : completed HostedSearchKindWebSearch (sw_log w) <= iu_search (sw_uses w);
  sf_fetch : completed HostedSearchKindWebFetch (sw_log w) <= iu_fetch (sw_uses w);
  sf_search_max : within (iu_search (sw_uses w)) searchMax;
  sf_fetch_max : within (iu_fetch (sw_uses w)) fetchMax;
  sf_fifo : fifo (sw_memory w);
  sf_minted : from_log m0 (sw_log w) (sw_memory w);
  sf_streams : sw_streams w = streams;
  sf_base : base `prefix_of` sw_log w }.
(** While nothing failed: every use was answered, and the thinking block is [open]. *)
Record sound (streams : nat) (open : bool) (w : sandWorld) : Prop := Sound {
  sd_safe : safe streams w;
  sd_search : iu_search (sw_uses w) = completed HostedSearchKindWebSearch (sw_log w);
  sd_fetch : iu_fetch (sw_uses w) = completed HostedSearchKindWebFetch (sw_log w);
  sd_blocks : blocks (sw_log w) = Some open }.

Lemma safe_event streams e w :
  ev_Type e <> EventDone -> call_allowed tools e -> completed_of HostedSearchKindWebSearch e = false ->
  completed_of HostedSearchKindWebFetch e = false -> unsigned (sw_log w) e -> safe streams w -> safe streams (log_event e w).
Proof.
  intros He Hc Hs Hf Hu [A B C D E F G I J K].
  split; unfold log_event; cbn [sw_log sw_uses sw_memory sw_streams put_log];
    try done; try (apply Forall_app; split; [done|by apply Forall_singleton]); rewrite ?completed_app, ?Hs, ?Hf; cbn [Z.b2z]; try lia.
  - by apply from_log_app.
  - by apply prefix_app_r.
Qed.
Lemma sound_event streams open open' e w :
  ev_Type e <> EventDone -> call_allowed tools e -> ev_Type e <> EventHostedSearchCompleted -> block_step (Some open) e = Some open' ->
  unsigned (sw_log w) e -> sound streams open w -> sound streams open' (log_event e w).
Proof.
  intros He Hc Hh Hb Hu [Hs Es Ef Eb].
  assert (forall kind, completed_of kind e = false) as Hk by (intros kind; unfold completed_of; by rewrite bool_decide_eq_false_2).
  split; [by apply safe_event| | |]; unfold log_event; cbn [sw_log sw_uses put_log]; rewrite ?completed_app, ?Hk, ?blocks_app, ?Eb; cbn [Z.b2z];
    [lia|lia|done].
Qed.
Lemma quiet_event streams e w : quiet e = true -> sound streams false w -> sound streams false (log_event e w).
Proof.
  unfold quiet. intros Hq%negb_true_iff%bool_decide_eq_false. apply sound_event.
  - intros E. rewrite E in Hq. by apply Hq; repeat constructor.
  - intros E. rewrite E in Hq. exfalso. apply Hq. repeat constructor.
  - intros E. rewrite E in Hq. apply Hq. repeat constructor.
  - destruct (ev_Type e) eqn:E; try (cbn; by rewrite E); exfalso; apply Hq; repeat constructor.
  - apply unsigned_type. intros E. rewrite E in Hq. apply Hq. repeat constructor.
Qed.
(** A signature: remembered, and its event. *)
Lemma sound_signature streams open signature w :
  sound streams open w ->
  sound streams false (log_event (with_signature signature (event_of EventThinkingCompleted)) (put_memory (rememberMintedSignature signature (sw_memory w)) w)).
Proof.
  intros [[A B C D E F G I J K] Es Ef Eb]. set (e := with_signature _ _).
  assert (forall kind, completed_of kind e = false) as Hk by done.
  split; [split|..]; unfold log_event; cbn [sw_log sw_uses sw_memory sw_streams put_log put_memory]; rewrite ?completed_app, ?blocks_app, ?Eb, ?Hk;
    cbn [Z.b2z]; try done; try lia; try (apply Forall_app; split; [done|by apply Forall_singleton]).
  - by apply record_fifo.
  - by apply remember_sound.
  - by apply prefix_app_r.
  - by destruct open.
Qed.
(** A hosted call that was answered: the use and its three events at once. *)
Definition answer_events (search : HostedSearch) (w : sandWorld) : sandWorld :=
  log_event (hosted_event EventHostedSearchCompleted search) (log_event (hosted_event EventHostedSearchStarted search)
    (log_event (event_of EventHostedSearchCall) w)).
Definition one_more (kind : string) (uses uses' : inferenceHostedUseTracker) : Prop :=
  (kind = HostedSearchKindWebSearch /\ uses' = {| iu_search := iu_search uses + 1; iu_fetch := iu_fetch uses |} /\
     iu_search uses < use_limit searchMax) \/
  (kind = HostedSearchKindWebFetch /\ uses' = {| iu_search := iu_search uses; iu_fetch := iu_fetch uses + 1 |} /\
     iu_fetch uses < use_limit fetchMax).
Lemma safe_use streams kind uses' w : one_more kind (sw_uses w) uses' -> safe streams w -> safe streams (put_uses uses' w).
Proof.
  intros Ho [A B C D E F G I J K]. split; cbn [sw_log sw_uses sw_memory sw_streams put_uses]; try done;
    destruct Ho as [(_ & -> & Hl)|(_ & -> & Hl)]; cbn [iu_search iu_fetch]; try done; try lia; by apply within_more.
Qed.
Lemma answered streams search uses' w :
  one_more (hs_Kind search) (sw_uses w) uses' -> sound streams false w -> sound streams false (answer_events search (put_uses uses' w)).
Proof.
  intros Ho [Hs Es Ef Eb]. pose proof (safe_use _ _ _ _ Ho Hs) as [A B C D E F G I J K]. cbn [sw_log sw_uses sw_memory sw_streams put_uses] in *.
  assert (forall kind, completed_of kind (hosted_event EventHostedSearchCompleted search) = bool_decide (hs_Kind search = kind)) as Hk.
  { intros kind. unfold completed_of. cbn. apply bool_decide_ext. split; [by intros [= ->]|by intros ->]. }
  unfold answer_events, log_event; split; [split|..]; cbn [sw_log sw_uses sw_memory sw_streams put_log put_uses];
    rewrite ?completed_app, ?blocks_app, ?Eb, ?Hk; try done.
  1-2: rewrite !Forall_app, !Forall_singleton; done.
  3: repeat (apply from_log_app; [by apply unsigned_type|]); done.
  3: by repeat apply prefix_app_r.
  all: assert (forall kind, completed_of kind (event_of EventHostedSearchCall) = false) as E1 by done;
    assert (forall kind, completed_of kind (hosted_event EventHostedSearchStarted search) = false) as E2 by done;
    rewrite !E1, !E2; destruct Ho as [(-> & -> & _)|(-> & -> & _)]; rewrite ?bool_decide_eq_true_2, ?bool_decide_eq_false_2 by done;
    cbn [Z.b2z iu_search iu_fetch] in *; lia.
Qed.
End world.
