(* ===== verification/SandInv.v ===== *)
(** * The parts of a segment keep the invariant

    Every handler of the stream, from a state that satisfies [handled], ends in such a
    state, or fails in one that is still [safe]; the end of the stream leaves an outcome. *)
From stdpp Require Import base tactics list gmap strings sorting.
From Stdlib Require Import Strings.Byte.
From S2P Require Import Prelude Effects GoStrings Sha256 JsonValue Connect Data HostedPolicy Usage Manager Media HostedSearch Wire HostedRun Runner Projection History Translate TranslateRequest TranslateTurn Credentials Sand SandTools SandWire SandRun SandLogic.
Open Scope Z_scope.
Open Scope eff_scope.

Section inv.
Context `{Protowire} `{JSON} `{Digest} `{SDK} `{Outside} `{SandOutside} (unicode_lower : string -> string).
Context (parse_url : string -> option (string * string)) (gzip_read : Z -> bytes -> result bytes)
        (decodeTrailer : bytes -> option (option (string * string))).
Context (request : RunRequest) (m0 : signatureMemoryStore) (base : list Event) (streams : nat).
Local Notation options := (rr_Options request).
Local Notation tools := (rr_Tools request).
Local Notation safe := (safe tools (ro_HostedSearchMaxUses options) (ro_HostedFetchMaxUses options) m0 base streams).
Local Notation sound := (sound tools (ro_HostedSearchMaxUses options) (ro_HostedFetchMaxUses options) m0 base streams).

Definition is_call (e : Event) : Prop := ev_Type e = EventToolCall.
Record handled (s : segmentState) : Prop := Handled {
  hd_sound : sound (sg_thinkingOpen s) (sg_world s);
  hd_hosted : Forall (fun c => is_hosted (it_Name c) = true) (sg_hostedCalls s);
  hd_seen : sg_callerToolSeen s = true -> Exists is_call (sw_log (sg_world s));
  hd_ids : map_Forall (fun id c => it_ID c = id /\ blank id = false) (sg_toolCalls s);
  hd_outcome : sg_outcome s = no_outcome;
  hd_signature : blank (sg_reasoningSignature s) = false -> signatureKey (sg_reasoningSignature s) ∈ minted_keys (sw_log (sg_world s)) }.
(** A failure; when the server refused the request, no hosted call was left unanswered. *)
Definition answered_all (w : sandWorld) : Prop :=
  iu_search (sw_uses w) = completed HostedSearchKindWebSearch (sw_log w) /\ iu_fetch (sw_uses w) = completed HostedSearchKindWebFetch (sw_log w).
Definition broken (e : Err) (s : segmentState) : Prop := safe (sg_world s) /\ (is_Some (as_connect e) -> answered_all (sg_world s)).
Definition keeps {A} (m : seg A) : Prop := forall s, handled s -> ewp m (fun _ => handled) broken s.

Lemma sound_broken e open s : sound open (sg_world s) -> broken e s.
Proof. intros []. done. Qed.
Lemma handled_broken e s : handled s -> broken e s.
Proof. intros [A _ _ _ _ _]. by eapply sound_broken. Qed.
Lemma kept_bind {A B} (m : seg A) (k : A -> seg B) : keeps m -> (forall a, keeps (k a)) -> keeps (ebind m k).
Proof. intros Hm Hk s Hs. apply ewp_bind. eapply ewp_mono; [by apply Hm| |done]. intros a s' Hs'. by apply Hk. Qed.
Lemma kept_ret {A} (a : A) : keeps (eret a).
Proof. intros s Hs. by apply ewp_ret. Qed.
Lemma kept_fail {A} e : keeps (@efail _ A e).
Proof. intros s Hs. apply ewp_fail. by apply handled_broken. Qed.
Lemma kept_lift {A} (r : result A) : keeps (elift r).
Proof. intros s Hs. apply ewp_lift; [done|]. intros. by apply handled_broken. Qed.
Lemma keeps_get {A} (f : segmentState -> A) : keeps (eget f).
Proof. intros s Hs. by apply ewp_get. Qed.
Lemma keeps_modify f : (forall s, handled s -> handled (f s)) -> keeps (emodify f).
Proof. intros Hf s Hs. apply ewp_modify. by apply Hf. Qed.
(** The invariant reads seven fields. *)
Lemma handled_proper s s' :
  sg_world s' = sg_world s -> sg_thinkingOpen s' = sg_thinkingOpen s -> sg_hostedCalls s' = sg_hostedCalls s ->
  sg_callerToolSeen s' = sg_callerToolSeen s -> sg_toolCalls s' = sg_toolCalls s -> sg_outcome s' = sg_outcome s ->
  sg_reasoningSignature s' = sg_reasoningSignature s -> handled s -> handled s'.
Proof. intros E1 E2 E3 E4 E5 E6 E7 []. split; rewrite ?E1, ?E2, ?E3, ?E4, ?E5, ?E6, ?E7; done. Qed.
Lemma minted_later log e key : key ∈ minted_keys log -> key ∈ minted_keys (log ++ [e]).
Proof. intros Hk. rewrite minted_keys_app. apply elem_of_app. by left. Qed.

(** ** Events *)
Lemma handled_event e open' s :
  ev_Type e <> EventDone -> call_allowed tools e -> ev_Type e <> EventHostedSearchCompleted ->
  block_step (Some (sg_thinkingOpen s)) e = Some open' -> unsigned (sw_log (sg_world s)) e -> handled s -> handled (put_thinkingOpen open' (on_world (log_event e) s)).
Proof.
  intros He Hc Hh Hb Hu [A B C D E F].
  split; cbn [on_world put_world put_thinkingOpen sg_world sg_thinkingOpen sg_hostedCalls sg_callerToolSeen sg_toolCalls sg_outcome sg_reasoningSignature];
    try done; [by eapply sound_event|intros Hs; unfold log_event; cbn [sw_log put_log]..]; [apply Exists_app; left; by apply C|by apply minted_later, F].
Qed.
Lemma handled_quiet e s : quiet e = true -> sg_thinkingOpen s = false -> handled s -> handled (on_world (log_event e) s).
Proof.
  intros He Ho [A B C D E F].
  split; cbn [on_world put_world sg_world sg_thinkingOpen sg_hostedCalls sg_callerToolSeen sg_toolCalls sg_outcome sg_reasoningSignature];
    try done; [rewrite Ho in *; by apply quiet_event|intros Hs; unfold log_event; cbn [sw_log put_log]..]; [apply Exists_app; left; by apply C|by apply minted_later, F].
Qed.
(** After it no block is open. *)
Definition closes {A} (m : seg A) : Prop := forall s, handled s -> ewp m (fun _ s => handled s /\ sg_thinkingOpen s = false) broken s.
Lemma closes_keeps {A} (m : seg A) : closes m -> keeps m.
Proof. intros Hm s Hs. eapply ewp_mono; [by apply Hm| |done]. by intros a s' []. Qed.
Lemma closes_close_thinking : closes close_thinking.
Proof.
  intros s Hs. unfold close_thinking. ewp_step. ewp_step. destruct (sg_thinkingOpen s) eqn:Eo; [|by ewp_steps].
  ewp_steps. split; [|done].
  apply (handled_proper (put_thinkingOpen false (on_world (log_event (with_signature (sg_reasoningSignature s) (event_of EventThinkingCompleted))) s)));
    [reflexivity..|]. apply handled_event; [done..| | |done]; [by rewrite Eo|]. intros key. rewrite sig_key_completed.
  destruct (blank _) eqn:Eb; [done|]. intros [= <-]. by apply (hd_signature _ Hs).
Qed.
Lemma keeps_close_thinking : keeps close_thinking.
Proof. apply closes_keeps, closes_close_thinking. Qed.
Lemma keeps_on_text text : keeps (on_text text).
Proof.
  intros s Hs. unfold on_text. ewp_step; [by ewp_steps|]. apply ewp_bind. eapply ewp_mono; [by apply closes_close_thinking| |done].
  intros ? s' [Hs' Ho]. unfold emit_event. ewp_steps. apply handled_quiet; [done|done|]. by apply (handled_proper s').
Qed.
Lemma keeps_on_thinking text : keeps (on_thinking text).
Proof.
  intros s Hs. unfold on_thinking, emit_event. ewp_steps; [done|].
  apply (handled_proper (put_thinkingOpen true (on_world (log_event (with_text text (event_of EventThinking))) s))); [reflexivity..|].
  apply handled_event; [done..|by destruct (sg_thinkingOpen s)|by apply unsigned_type|done].
Qed.
Lemma keeps_on_signature signature : keeps (on_signature signature).
Proof.
  intros s Hs. unfold on_signature, close_thinking. ewp_step; [by ewp_steps|]. ewp_steps; [|discriminate].
  destruct Hs as [A B C' D E F]. cbn [sg_reasoningSignature put_thinkingOpen on_world put_world put_reasoningSignature].
  set (e := with_signature signature (event_of EventThinkingCompleted)).
  split; try done; cbn [on_world put_world put_thinkingOpen put_reasoningSignature sg_world sg_thinkingOpen sg_callerToolSeen sg_reasoningSignature].
  - by eapply sound_signature.
  - intros G. cbn. apply Exists_app. left. by apply C'.
  - intros Hb. assert (signatureKey signature ∈ minted_keys (sw_log (sg_world s) ++ [e])) as G; [|exact G].
    rewrite minted_keys_app. apply elem_of_app. right. unfold e. rewrite sig_key_completed, Hb. by apply list_elem_of_singleton.
Qed.
Lemma keeps_on_usage usage : keeps (on_usage usage).
Proof.
  unfold on_usage. destruct usage as [u|]; [|apply kept_ret]. apply keeps_modify. intros s Hs. destruct (_ || _ || _); [|done]. by apply (handled_proper s).
Qed.

(** ** Tool calls *)
Definition shut (s : segmentState) : Prop := handled s /\ sg_thinkingOpen s = false.
Lemma ewp_pending_call id s :
  handled s -> blank id = false ->
  ewp (pending_call request id) (fun p s' => s' = s /\ it_ID p = id) broken s.
Proof.
  intros Hs Hb. unfold pending_call. ewp_step. ewp_step. destruct (sg_toolCalls s !! id) as [p|] eqn:Ep.
  - ewp_step. split; [done|]. by apply (hd_ids _ Hs id p).
  - ewp_steps; [by apply handled_broken|by apply handled_broken|done].
Qed.
Lemma shut_finish_call call s :
  shut s -> blank (it_ID call) = false -> ewp (finish_call request call) (fun _ => shut) broken s.
Proof.
  intros [Hs Ho] Hb. unfold finish_call. do 2 (ewp_step; [ewp_step; by apply handled_broken|]).
  apply negb_false_iff in C0. ewp_step. ewp_step. ewp_step.
  assert (shut (put_completedTools (sg_completedTools s ++ [call]) s)) as [Hs1 Ho1] by (split; [by apply (handled_proper s)|done]).
  set (s1 := put_completedTools _ s) in *. clearbody s1. destruct (is_hosted (it_Name call)) eqn:Eh; ewp_steps; (split; [|done]).
  - destruct Hs1 as [A B C2 D E F]. split; try done; cbn.
    + apply Forall_app. split; [done|by apply Forall_singleton].
    + by apply map_Forall_delete.
  - assert (handled (put_thinkingOpen false (on_world (log_event (call_event call)) s1))) as [A B C2 D E F].
    { apply handled_event; [done| |done|by rewrite Ho1|by apply unsigned_type|done]. intros _. by eexists. }
    split; try done; cbn; [cbn in A; by rewrite Ho1| |by apply map_Forall_delete].
    intros _. apply Exists_app. right. by apply Exists_cons_hd.
Qed.
Lemma shut_on_tool tool final s : shut s -> ewp (on_tool request tool final) (fun _ => handled) broken s.
Proof.
  intros [Hs Ho]. unfold on_tool. set (id := TrimSpace (it_ID tool)). ewp_step; [ewp_step; by apply handled_broken|].
  apply bool_decide_eq_false in C. assert (blank id = false) as Hb by (apply bool_decide_eq_false; unfold id; by rewrite TrimSpace_idemp).
  ewp_step. eapply ewp_mono; [by apply ewp_pending_call| |done]. intros p s' [-> Hid]. ewp_step. ewp_step.
  assert (shut (put_toolCalls (<[id:=merged p tool]> (sg_toolCalls s)) s)) as Hs1.
  { destruct Hs as [A B C' D E F]. split; [|done]. split; try done. cbn. by apply map_Forall_insert_2. }
  destruct final; [|ewp_step; apply Hs1]. eapply ewp_mono; [apply shut_finish_call; [done|by cbn; rewrite Hid]| |done]. by intros ? s' [].
Qed.
Lemma keeps_on_response part : keeps (on_response request part).
Proof.
  unfold on_response. destruct (_ || _); [apply kept_fail|].
  apply kept_bind; [apply keeps_on_text|intros _]. apply kept_bind; [apply keeps_on_thinking|intros _].
  apply kept_bind; [apply keeps_on_signature|intros _].
  apply kept_bind; [destruct (in_ThinkFinal part); [apply keeps_close_thinking|apply kept_ret]|intros _].
  destruct (in_Tool part) as [tool|].
  - rewrite bool_decide_eq_true_2 by done. intros s Hs. apply ewp_bind. eapply ewp_mono; [by apply closes_close_thinking| |done].
    intros ? s1 [Hs1 Ho1]. apply ewp_bind. unfold on_usage. destruct (in_Usage part); ewp_steps; apply shut_on_tool; [|done].
    destruct (_ || _ || _); [|done]. split; [by apply (handled_proper s1)|done].
  - rewrite bool_decide_eq_false_2 by (by intros []). apply kept_bind; [apply kept_ret|intros _].
    apply kept_bind; [apply keeps_on_usage|intros _]. apply kept_ret.
Qed.

(** ** Hosted calls *)
(** An answer is of the kind of the call; no failure comes from the inference stream. *)
Definition web_outcome (kind : string) (r : result (HostedSearch * any)) : Prop :=
  match r with Ok (search, _) => hs_Kind search = kind | Fail e => as_connect e = None end.
Lemma selection_error model e : inferenceModelSelection unicode_lower model = Fail e -> as_connect e = None.
Proof.
  unfold inferenceModelSelection, grok_model, bad_request. intros G. repeat (case_match; try discriminate); simplify_eq; done.
Qed.
Lemma search_outcome n o query explanation : web_outcome HostedSearchKindWebSearch (Search unicode_lower parse_url n o query explanation).
Proof.
  unfold Search. case_bool_decide; [done|]. destruct (inferenceModelSelection _ _) as [[a b]|e] eqn:E; cbn [rbind]; [|by eapply selection_error].
  destruct (rbind _ _) as [[answer documents]|]; [|done]. by destruct (restricts _).
Qed.
Lemma fetch_outcome n o rawURL : web_outcome HostedSearchKindWebFetch (Fetch unicode_lower parse_url n o rawURL).
Proof.
  unfold Fetch. destruct (url_parse _) as [u|]; [|done]. destruct (_ || _); [done|]. destruct (u_User u); [done|].
  destruct (negb _); [done|]. by destruct (rbind _ _) as [[[content|] [[error timeout]|]]|].
Qed.
Lemma allow_one_more kind uses uses' :
  allow_use kind options uses = Ok uses' -> one_more (ro_HostedSearchMaxUses options) (ro_HostedFetchMaxUses options) kind uses uses'.
Proof.
  unfold allow_use. case_bool_decide as E1.
  - destruct (_ <=? _) eqn:E; [done|]. intros [= <-]. left. split; [done|]. split; [done|lia].
  - case_bool_decide as E2; [|done]. destruct (_ <=? _) eqn:E; [done|]. intros [= <-]. right. split; [done|]. split; [done|lia].
Qed.
Lemma execute_spec call uses r uses' :
  executeInferenceHostedCall unicode_lower parse_url request call uses = (r, uses') ->
  (uses' = uses /\ exists e, r = Fail e /\ as_connect e = None) \/
  (one_more (ro_HostedSearchMaxUses options) (ro_HostedFetchMaxUses options) (inferenceHostedKind (it_Name call)) uses uses' /\
   match r with Ok (_, search) => hs_Kind search = inferenceHostedKind (it_Name call) | Fail e => as_connect e = None end).
Proof.
  unfold executeInferenceHostedCall. set (kind := inferenceHostedKind (it_Name call)). cbv zeta. case_bool_decide; [intros [= <- <-]; left; eauto|].
  destruct (allow_use kind options uses) as [next|e] eqn:Ea; intros G; injection G as <- <-.
  2: { left. split; [done|]. exists e. split; [done|]. revert Ea. unfold allow_use, sand_error. repeat case_match; try done; by intros [= <-]. }
  right. split; [by apply allow_one_more|]. apply allow_one_more in Ea.
  destruct (inferenceHostedArguments call) as [[primary explanation]|e] eqn:Eg; cbn [rbind].
  2: { revert Eg. unfold inferenceHostedArguments, sand_error. repeat case_match; try done; by intros [= <-]. }
  case_bool_decide as Ek.
  - set (p := Search _ _ _ _ _ _). assert (web_outcome HostedSearchKindWebSearch p) as Hp by apply search_outcome.
    destruct p as [[search content]|e]; cbn in *; [congruence|done].
  - set (p := Fetch _ _ _ _ _). assert (web_outcome HostedSearchKindWebFetch p) as Hp by apply fetch_outcome.
    destruct p as [[search content]|e]; cbn in *; [destruct Ea as [[Ea _]|[Ea _]]; congruence|done].
Qed.
Lemma shut_run_hosted call s : shut s -> ewp (run_hosted unicode_lower parse_url request call) (fun _ => shut) broken s.
Proof.
  intros [Hs Ho]. unfold run_hosted. ewp_step. ewp_step.
  destruct (executeInferenceHostedCall _ _ _ _ _) as [r uses'] eqn:Ex. apply execute_spec in Ex.
  ewp_step. ewp_step. ewp_step. destruct Ex as [[-> [e [-> Hc]]]|[Hone Hkind]]; ewp_step; simplify_eq.
  - split; [|by rewrite Hc; intros []]. destruct Hs as [[[] ? ? ?] ? ? ? ? ?]. by split.
  - destruct a as [res search]. unfold emit_event. ewp_steps. split; [|done]. destruct Hs as [A B C D E F]. split; try done.
    + cbn [sg_thinkingOpen sg_world on_world put_world]. rewrite Ho in *. apply answered; [by rewrite Hkind|done].
    + intros G. cbn. rewrite <- !app_assoc. apply Exists_app. left. by apply C.
    + intros G. by apply minted_later, minted_later, minted_later, F.
  - split; [|by rewrite Hkind; intros []]. eapply safe_use; [exact Hone|]. apply Hs.
Qed.
Lemma shut_run_hosted_calls calls s : shut s -> ewp (run_hosted_calls unicode_lower parse_url request calls) (fun _ => shut) broken s.
Proof.
  revert s. induction calls as [|call calls IH]; intros s Hs; cbn [run_hosted_calls]; [by ewp_step|].
  ewp_step. eapply ewp_mono; [by apply shut_run_hosted| |done]. intros r s' Hs'. ewp_step. eapply ewp_mono; [by apply IH| |done].
  intros rs s'' Hs''. by ewp_step.
Qed.

(** ** The end of the stream *)
Definition keeps_shut {A} (m : seg A) : Prop := forall s, shut s -> ewp m (fun _ => shut) broken s.
Lemma shut_quiet e s : quiet e = true -> shut s -> shut (on_world (log_event e) s).
Proof. intros He [Hs Ho]. split; [by apply handled_quiet|done]. Qed.
Lemma shut_report_usage : keeps_shut report_usage.
Proof. intros s Hs. unfold report_usage, emit_event. ewp_steps; [|done]. by apply shut_quiet. Qed.
(** The outcome of a segment that returned nil: it goes on, or it is done. *)
Definition going_on (s : segmentState) : Prop :=
  sound false (sg_world s) /\ (so_ToolSeen (sg_outcome s) || so_Continue (sg_outcome s) = true) /\
  (so_ToolSeen (sg_outcome s) = true -> Exists is_call (sw_log (sg_world s))).
Definition done_sand (w : sandWorld) : Prop :=
  exists before, sw_log w = sw_log before ++ [event_of EventDone] /\ sound false before /\ sw_uses w = sw_uses before /\
    sw_memory w = sw_memory before /\ sw_streams w = sw_streams before /\ validateRequired options (sw_uses before) = None.
Definition left_outcome (s : segmentState) : Prop :=
  going_on s \/ (done_sand (sg_world s) /\ so_Continue (sg_outcome s) = false /\ (so_ToolSeen (sg_outcome s) = true -> no_key request = false)).

(** The checkpoint does not matter for it. *)
Definition ready (s : segmentState) : Prop :=
  sound false (sg_world s) /\ (sg_callerToolSeen s = true -> Exists is_call (sw_log (sg_world s))) /\
  so_ToolSeen (sg_outcome s) = false /\ so_Continue (sg_outcome s) = false.
Lemma shut_ready s : shut s -> ready s.
Proof. intros [[A B C D E F] Ho]. unfold ready. rewrite E, Ho in *. done. Qed.
Lemma ready_save_checkpoint hosted s : ready s -> ewp (save_checkpoint request hosted) (fun _ => ready) broken s.
Proof.
  intros (A & B & C & D). unfold save_checkpoint, emit_event, set_outcome. ewp_steps; [|by eapply sound_broken].
  unfold ready. cbn. split_and!; [by apply quiet_event| |done|done]. intros G. apply Exists_app. left. by apply B.
Qed.
Lemma left_settle s : ready s -> ewp (settle request) (fun _ => left_outcome) broken s.
Proof.
  intros (A & B & C & D). unfold settle. ewp_step. ewp_step. ewp_step. ewp_step. ewp_step.
  assert (forall s1, sound false (sg_world s1) -> so_Continue (sg_outcome s1) = false ->
    so_ToolSeen (sg_outcome s1) = sg_callerToolSeen s ->
    (sg_callerToolSeen s = true -> Exists is_call (sw_log (sg_world s1))) -> sg_hostedCalls s1 = sg_hostedCalls s ->
    ewp (if sg_callerToolSeen s && no_key request then eret tt
         else if negb (bool_decide (sg_hostedCalls s = []))
         then set_outcome (fun o => {| so_Checkpoint := so_Checkpoint o; so_ToolSeen := so_ToolSeen o; so_Continue := true |})
         else uses <- eget (fun s => sw_uses (sg_world s)) ;;
              match validateRequired options uses with Some e => efail e | None => emit_event (event_of EventDone) end)
      (fun _ => left_outcome) broken s1) as Hrest.
  { intros s1 A1 D1 C1 B1 E1. unfold set_outcome, emit_event. ewp_steps.
    - apply andb_prop in C0 as [C0 _]. left. unfold going_on. rewrite C1. split_and!; [done|by rewrite C0|intros; by apply B1].
    - left. unfold going_on. cbn. split_and!; [done|apply orb_true_r|]. rewrite C1. done.
    - by eapply sound_broken.
    - right. split_and!; [|done|].
      + exists (sg_world s1). done.
      + cbn. rewrite C1. intros Hseen. rewrite Hseen in C0. exact C0. }
  destruct (sg_callerToolSeen s) eqn:Es.
  - unfold emit_event, set_outcome. ewp_step. ewp_step. ewp_step. apply Hrest; try done; cbn.
    + by apply quiet_event.
    + intros _. apply Exists_app. left. by apply B.
  - ewp_step. by apply Hrest.
Qed.
Lemma left_on_end_segment payload s :
  handled s -> ewp (on_end_segment unicode_lower parse_url decodeTrailer request payload) (fun _ => left_outcome) broken s.
Proof.
  intros Hs. unfold on_end_segment. destruct (parseConnectEndStream _ _); [ewp_step; by apply handled_broken|].
  ewp_step. eapply ewp_mono; [by apply closes_close_thinking| |done]. intros ? s1 Hs1. ewp_step. ewp_step. ewp_step; [ewp_step; apply handled_broken; apply Hs1|].
  ewp_step. ewp_step. ewp_step. eapply ewp_mono; [by apply shut_run_hosted_calls| |done]. intros results s2 Hs2.
  ewp_step. eapply ewp_mono; [by apply shut_report_usage| |done]. intros ? s3 Hs3%shut_ready. ewp_step. ewp_step.
  - eapply ewp_mono; [by apply ready_save_checkpoint| |done]. intros ? s4 Hs4. by apply left_settle.
  - ewp_step. by apply left_settle.
Qed.

(** ** Frames, chunks, the stream *)
Definition reads (c : control) (s : segmentState) : Prop := match c with Continue => handled s | Finished => left_outcome s end.
Definition may_end (m : seg control) : Prop := forall s, handled s -> ewp m reads broken s.
Lemma may_end_frame flags payload : may_end (on_segment_frame unicode_lower parse_url gzip_read decodeTrailer request flags payload).
Proof.
  intros s Hs. unfold on_segment_frame. ewp_step.
  assert (keeps (if has_flag flags connectCompressionFlag then elift (decompressConnectPayload gzip_read payload) else eret payload)) as Hdata
    by (destruct (has_flag _ _); [apply kept_lift|apply kept_ret]).
  eapply ewp_mono; [by apply Hdata| |done].
  intros data s1 Hs1. ewp_step.
  - ewp_step. eapply ewp_mono; [by apply left_on_end_segment| |done]. intros ? s2 Hs2. by ewp_step.
  - ewp_step. ewp_step; [|by apply handled_broken]. ewp_step. eapply ewp_mono; [by apply keeps_on_response| |done]. intros ? s2 Hs2. by ewp_step.
Qed.
Lemma may_end_frames fuel : may_end (segment_frames unicode_lower parse_url gzip_read decodeTrailer request fuel).
Proof.
  induction fuel as [|fuel IH]; intros s Hs; cbn [segment_frames]; [by ewp_step|].
  ewp_step. ewp_step. ewp_step. ewp_step; [|by apply handled_broken]. destruct a as [[[flags payload] consumed]|]; [|by ewp_step].
  ewp_step. ewp_step. ewp_step. eapply ewp_mono; [apply may_end_frame; by apply (handled_proper s)| |done].
  intros [|] s1 Hs1; [by apply IH|by ewp_step].
Qed.
Lemma may_end_chunk chunk : may_end (on_segment_chunk unicode_lower parse_url gzip_read decodeTrailer request chunk).
Proof.
  intros s Hs. unfold on_segment_chunk. ewp_step; [by ewp_step|]. ewp_step. ewp_step. ewp_step. ewp_step. cbv beta.
  ewp_step; [ewp_step; apply handled_broken; by apply (handled_proper s)|]. apply may_end_frames. by apply (handled_proper s).
Qed.
Lemma left_consume chunks readErr s :
  handled s -> ewp (consumeInferenceStream unicode_lower parse_url gzip_read decodeTrailer request chunks readErr) (fun _ => left_outcome) broken s.
Proof.
  revert s. induction chunks as [|chunk chunks IH]; intros s Hs; cbn [consumeInferenceStream]; [ewp_step; by apply handled_broken|].
  ewp_step. eapply ewp_mono; [by apply may_end_chunk| |done]. intros [|] s1 Hs1; [by apply IH|by ewp_step].
Qed.
Lemma handled_new w : sound false w -> handled (new_segment w).
Proof. intros Hw. split; try done. Qed.
End inv.
