(* ===== verification/SandProps.v ===== *)
(** * What a Sand run guarantees (src/cursoragentv1/inference_runner.go)

    A run returns, within its limits; it reports completion only when it is complete;
    only signatures Cursor minted are remembered; and a continuation starts from the
    checkpoint with the result under the name of its tool. *)
From stdpp Require Import base tactics list gmap strings sorting.
From Stdlib Require Import Strings.Byte.
From S2P Require Import Prelude Effects GoStrings Sha256 JsonValue Connect Data HostedPolicy Usage Manager Media HostedSearch Wire HostedRun Runner Projection History Translate TranslateRequest TranslateTurn Credentials Sand SandTools SandWire SandRun SandLogic SandInv.
Open Scope Z_scope.

(** ** What the segments of a run share *)
Definition policy (r : RunRequest) : list ToolDefinition * string * (bool * bool * bool) * (option Z * option Z) :=
  let o := rr_Options r in
  (rr_Tools r, ro_HistoryRequestKey o, (ro_RequireHostedSearch o, ro_RequireHostedFetch o, ro_RequireHostedTool o),
   (ro_HostedSearchMaxUses o, ro_HostedFetchMaxUses o)).

Section props.
Context `{Protowire} `{JSON} `{Digest} `{SDK} `{Outside} `{SandOutside} (unicode_lower : string -> string).
Context (parse_url : string -> option (string * string)) (gzip_read : Z -> bytes -> result bytes)
        (decodeTrailer : bytes -> option (option (string * string))) (ids : nat -> string).
Context (stream_open : nat -> string -> list (string * string) -> bytes -> result (Z * (list bytes * option Err))).
Local Notation runInferenceSegment := (runInferenceSegment unicode_lower parse_url gzip_read decodeTrailer ids stream_open).
Local Notation run_segment := (run_segment unicode_lower parse_url gzip_read decodeTrailer ids stream_open).
Local Notation run_loop := (run_loop unicode_lower parse_url gzip_read decodeTrailer ids stream_open).
Local Notation SandRun := (SandRun unicode_lower parse_url gzip_read decodeTrailer ids stream_open).

Lemma policy_continued r run run' : continued r run = Ok run' -> policy run' = policy run.
Proof.
  unfold continued. case_bool_decide; [done|]. destruct (marshal_message _ _) as [m|]; [|done]. cbn [rbind]. by intros [= <-].
Qed.
Lemma policy_prepare input run run' accepted : prepareInferenceRun input run = Ok (run', accepted) -> policy run' = policy run.
Proof.
  unfold prepareInferenceRun. set (restored := if bool_decide _ then _ else _). intros G.
  assert (forall run1, restored = Ok run1 -> policy run1 = policy run) as Hr.
  { subst restored. case_bool_decide; [by intros ? [= <-]|]. destruct (decodeInferenceCheckpoint _); [|done]. by intros ? [= <-]. }
  destruct restored as [run1|]; [|done]. cbn [rbind] in G. rewrite <- (Hr run1) by done.
  destruct (negb _); [by injection G as <- _|]. destruct input as [| | |r]; try done.
  destruct (continued r run1) as [run2|] eqn:Ec; [|done]. cbn [rbind] in G. injection G as <- _. by eapply policy_continued.
Qed.

(** ** One segment *)
Section segment.
Context (request0 : RunRequest) (m0 : signatureMemoryStore).
Local Notation options := (rr_Options request0).
Local Notation tools := (rr_Tools request0).
Local Notation safe := (safe tools (ro_HostedSearchMaxUses options) (ro_HostedFetchMaxUses options) m0).
Local Notation sound := (sound tools (ro_HostedSearchMaxUses options) (ro_HostedFetchMaxUses options) m0).

(** What a segment leaves, in the world. *)
Definition segment_left (base : list Event) (streams : nat) (outcome : inferenceSegmentOutcome) (w : sandWorld) : Prop :=
  (sound base streams false w /\ so_ToolSeen outcome || so_Continue outcome = true /\
     (so_ToolSeen outcome = true -> Exists is_call (sw_log w))) \/
  (done_sand request0 m0 base streams w /\ so_Continue outcome = false /\ (so_ToolSeen outcome = true -> no_key request0 = false)).
Definition segment_failed (base : list Event) (streams : nat) (e : Err) (w : sandWorld) : Prop :=
  safe base streams w /\ (is_Some (as_connect e) -> answered_all w).
Definition segment_result (base : list Event) (streams : nat) (r : result inferenceSegmentOutcome) (w : sandWorld) : Prop :=
  match r with Ok outcome => segment_left base streams outcome w | Fail e => segment_failed base streams e w end.

Lemma safe_streams base n n' w : safe base n w -> safe base n' (put_streams n' w).
Proof. intros []. by split. Qed.
Lemma sound_streams base n n' open w : sound base n open w -> sound base n' open (put_streams n' w).
Proof. intros [A B C D]. split; [by eapply safe_streams|done..]. Qed.
Lemma sound_accepted base n accepted w : sound base n false w -> sound base n false (accepted_events accepted w).
Proof. destruct accepted; [|done]. by apply quiet_event. Qed.
Lemma safe_base base base' n w : base' `prefix_of` base -> safe base n w -> safe base' n w.
Proof. intros Hb []. split; try done. by etrans. Qed.
Lemma sound_base base base' n open w : base' `prefix_of` base -> sound base n open w -> sound base' n open w.
Proof. intros Hb []. split; try done. by eapply safe_base. Qed.
Lemma sound_rebase base n open w : sound base n open w -> sound (sw_log w) n open w.
Proof. intros [[] ? ? ?]. by split. Qed.
Lemma result_base base base' n r w : base' `prefix_of` base -> segment_result base n r w -> segment_result base' n r w.
Proof.
  intros Hb. destruct r as [outcome|e]; cbn; [|intros [A B]; split; [by eapply safe_base|done]].
  intros [[A B]|[(before & A & B & C) D]]; [left; split; [by eapply sound_base|done]|right].
  split; [|done]. exists before. split_and!; [done|by eapply sound_base|apply C..].
Qed.

Lemma segment_spec prepared accepted base w n r w' :
  policy prepared = policy request0 -> sound base n false w -> runInferenceSegment prepared accepted w = (r, w') ->
  exists n', (n' <= S n)%nat /\ segment_result (sw_log w) n' r w'.
Proof.
  intros Hp Hw%sound_rebase. pose proof (sd_safe _ _ _ _ _ _ _ _ Hw) as Hs.
  assert (forall e : Err, exists n', (n' <= S n)%nat /\ segment_failed (sw_log w) n' e w) as Hnow.
  { intros e. exists n. split; [lia|]. split; [done|]. intros _. split; apply Hw. }
  assert (sound (sw_log w) (S n) false (count_stream w)) as Hsent.
  { unfold count_stream. rewrite (sf_streams _ _ _ _ _ _ _ Hs). by eapply sound_streams. }
  assert (forall e : Err, exists n', (n' <= S n)%nat /\ segment_failed (sw_log w) n' e (count_stream w)) as Hrefused.
  { intros e. exists (S n). split; [done|]. split; [apply Hsent|]. intros _. split; apply Hsent. }
  unfold SandRun.runInferenceSegment. destruct (encodeInferenceRequest _ _ _ _) as [payload|]; [|intros [= <- <-]; apply Hnow].
  destruct (http_new_request _); [intros [= <- <-]; apply Hnow|]. destruct (http2_transport _); [intros [= <- <-]; apply Hnow|].
  destruct (stream_open _ _ _ _) as [[status [chunks readErr]]|]; [|intros [= <- <-]; apply Hrefused].
  destruct (negb _); [intros [= <- <-]; apply Hrefused|]. cbv zeta. apply (sound_accepted _ _ accepted) in Hsent.
  unfold policy in Hp. injection Hp as Ht Hk Hr1 Hr2 Hr3 Hm1 Hm2.
  set (s0 := new_segment _). assert (handled prepared m0 (sw_log w) (S n) s0) as Hs0 by (apply handled_new; by rewrite Ht, Hm1, Hm2).
  pose proof (left_consume unicode_lower parse_url gzip_read decodeTrailer prepared m0 (sw_log w) (S n) chunks readErr s0 Hs0) as Hc.
  unfold ewp in Hc. destruct (consumeInferenceStream _ _ _ _ _ _ _ s0) as [[[]|e] s1]; intros [= <- <-]; exists (S n); (split; [done|]); cbn.
  - unfold left_outcome, going_on, done_sand in Hc. unfold segment_left, done_sand. rewrite Ht, Hm1, Hm2 in Hc.
    unfold no_key in *. rewrite Hk in Hc. unfold validateRequired in *. rewrite Hr1, Hr2, Hr3 in Hc. exact Hc.
  - unfold broken in Hc. by rewrite Ht, Hm1, Hm2 in Hc.
Qed.

(** ** With the retry *)
Lemma blocks_accepted log more :
  blocks log = Some false -> existsb (fun e => negb (bool_decide (ev_Type e = EventToolResultAccepted))) more = false -> blocks (log ++ more) = Some false.
Proof.
  revert log. induction more as [|e more IH]; intros log Hb He; [by rewrite app_nil_r|]. cbn [existsb] in He.
  apply orb_false_iff in He as [He1 He2]. apply negb_false_iff, bool_decide_eq_true in He1.
  rewrite cons_middle, app_assoc. apply IH; [|done]. rewrite blocks_app, Hb. cbn. by rewrite He1.
Qed.
Lemma sound_rejected base n open prepared w : sound base n open w -> sound base n open (reject_history prepared w).
Proof. intros [[] ? ? ?]. split; [split|..]; try done; cbn; [by apply reject_fifo|by apply reject_sound]. Qed.
Lemma refused_sound base n e prepared w w' :
  sound base n false w -> (exists n', segment_failed (sw_log w) n' e w' /\ (n' <= S n)%nat) ->
  foreign_signature unicode_lower (length (sw_log w)) prepared e w' = true -> exists n', (n' <= S n)%nat /\ sound (sw_log w) n' false w'.
Proof.
  intros Hw (n' & [Hs Ha] & Hn) Hf. exists n'. split; [done|]. unfold foreign_signature in Hf.
  apply andb_prop in Hf as [[[He _]%andb_prop Hc]%andb_prop _]. apply negb_true_iff in He. unfold emitted_since in He.
  assert (is_Some (as_connect e)) as [E1 E2]%Ha by (unfold isForeignReasoningSignatureRejection in Hc; by destruct (as_connect e)).
  split; try done. destruct (sf_base _ _ _ _ _ _ _ Hs) as [more Hmore]. rewrite Hmore, drop_app_length in He. rewrite Hmore.
  apply blocks_accepted; [apply Hw|done].
Qed.
Lemma run_segment_spec prepared accepted base w n r w' :
  policy prepared = policy request0 -> sound base n false w -> run_segment prepared accepted w = (r, w') ->
  exists n', (n' <= S (S n))%nat /\
    match r with
    | Ok (outcome, prepared') => segment_left base n' outcome w' /\ policy prepared' = policy request0
    | Fail e => segment_failed base n' e w'
    end.
Proof.
  intros Hp Hw. unfold SandRun.run_segment. pose proof (sf_base _ _ _ _ _ _ _ (sd_safe _ _ _ _ _ _ _ _ Hw)) as Hb.
  destruct (runInferenceSegment prepared accepted w) as [[outcome|e] w1] eqn:E1.
  - intros [= <- <-]. destruct (segment_spec _ _ _ _ _ _ _ Hp Hw E1) as (n' & Hn & Hr). exists n'. split; [lia|].
    split; [|done]. by apply (result_base _ base) in Hr.
  - destruct (segment_spec _ _ _ _ _ _ _ Hp Hw E1) as (n1 & Hn1 & Hr1). destruct (foreign_signature _ _ _ _ _) eqn:Ef.
    + destruct (refused_sound base n e prepared w w1 Hw (ex_intro _ n1 (conj Hr1 Hn1)) Ef) as (n2 & Hn2 & Hw1).
      apply (sound_rejected _ _ _ (drop_signatures prepared)) in Hw1.
      destruct (SandRun.runInferenceSegment _ _ _ _ _ _ (drop_signatures prepared) None _) as [r2 w2] eqn:E2. intros [= <- <-].
      destruct (segment_spec _ _ _ _ _ _ _ (Hp : policy (drop_signatures prepared) = _) Hw1 E2) as (n3 & Hn3 & Hr2).
      exists n3. split; [lia|]. assert (base `prefix_of` sw_log (reject_history (drop_signatures prepared) w1)) as Hb1.
      { destruct Hr1 as [Hr1 _]. etrans; [exact Hb|]. apply (sf_base _ _ _ _ _ _ _ Hr1). }
      apply (result_base _ base) in Hr2; [|done]. by destruct r2.
    + intros [= <- <-]. exists n1. split; [lia|]. by apply (result_base _ base) in Hr1.
Qed.

(** ** The loop *)
(** How a run may end. *)
Definition run_ended (base : list Event) (streams : nat) (r : result unit) (w : sandWorld) : Prop :=
  match r with
  | Ok _ => done_sand request0 m0 base streams w \/ (sound base streams false w /\ no_key request0 = false /\ Exists is_call (sw_log w))
  | Fail _ => safe base streams w
  end.
(** Segments still possible: one for every result, one for every step, and the first. *)
Definition rounds_left (request : RunRequest) (results : list ToolResult) (steps : nat) : nat :=
  ((if rr_Resume request then length results else S (length results)) + (maxInferenceHostedSteps - 1 - steps))%nat.

Lemma prepare_resume_end closed request : rr_Resume request = true -> is_ok (prepareInferenceRun (receive [] closed) request) = false.
Proof.
  unfold prepareInferenceRun. intros Hr. case_bool_decide; cbn [rbind]; [rewrite Hr; by destruct closed|].
  destruct (decodeInferenceCheckpoint _); [|done]. cbn [rbind run_with rr_Resume]. rewrite Hr. by destruct closed.
Qed.
Lemma run_loop_ends base closed fuel :
  forall request results steps w n, policy request = policy request0 -> sound base n false w -> (steps < maxInferenceHostedSteps)%nat ->
    (rounds_left request results steps < fuel)%nat ->
    exists r w' n', run_loop fuel request results closed steps w = Some (r, w') /\
      (n' <= n + 2 * rounds_left request results steps)%nat /\ run_ended base n' r w'.
Proof.
  induction fuel as [|fuel IH]; intros request results steps w n Hp Hw Hsteps Hfuel; [lia|]. cbn [SandRun.run_loop].
  destruct (prepareInferenceRun _ _) as [[prepared accepted]|e] eqn:Eprep; [|exists (Fail e), w, n; split_and!; [done|lia|apply Hw]].
  assert (rr_Resume request = true -> results <> []) as Hsome.
  { intros Hr ->. pose proof (prepare_resume_end closed request Hr) as G. by rewrite Eprep in G. }
  apply policy_prepare in Eprep. rewrite Hp in Eprep.
  destruct (run_segment prepared accepted w) as [r w1] eqn:Eseg.
  destruct (run_segment_spec _ _ _ _ _ _ _ Eprep Hw Eseg) as (n1 & Hn1 & Hr1).
  assert (1 <= rounds_left request results steps)%nat as Hone.
  { unfold rounds_left. destruct (rr_Resume request); [|lia]. destruct results; [by destruct Hsome|cbn [length]; lia]. }
  destruct r as [[outcome prepared']|e]; [|exists (Fail e), w1, n1; split_and!; [done|lia|apply Hr1]].
  destruct Hr1 as [Hleft Hp']. assert (no_key prepared' = no_key request0) as Hkey by (unfold policy, no_key in *; injection Hp' as _ -> _ _ _ _ _; done).
  rewrite Hkey. set (results' := if rr_Resume request then tail results else results).
  assert (forall steps', (steps <= steps' < maxInferenceHostedSteps)%nat -> sound base n1 false w1 ->
    (so_ToolSeen outcome = true \/ S steps = steps') ->
    exists r w' n', run_loop fuel (next_request outcome prepared') results' closed steps' w1 = Some (r, w') /\
      (n' <= n + 2 * rounds_left request results steps)%nat /\ run_ended base n' r w') as Hnext.
  { intros steps' Hs' Hw1 Hless.
    assert (S (rounds_left (next_request outcome prepared') results' steps') <= rounds_left request results steps)%nat as Hdec.
    { unfold rounds_left, results', next_request, run_with, maxInferenceHostedSteps in *. cbn [rr_Resume].
      destruct (rr_Resume request); [destruct results as [|x results]; [by destruct Hsome|]; cbn [tail length]|];
        destruct (so_ToolSeen outcome); destruct Hless; try done; lia. }
    destruct (IH (next_request outcome prepared') results' steps' w1 n1 Hp' Hw1 ltac:(lia) ltac:(lia)) as (r & w' & n' & E & Hn' & He).
    exists r, w', n'. split_and!; [done|lia|done]. }
  clear IH. destruct (so_ToolSeen outcome && negb (no_key request0)) eqn:E1.
  { exists (Ok tt), w1, n1. split_and!; [done|lia|]. apply andb_prop in E1 as [Es Ek%negb_true_iff].
    destruct Hleft as [(A & _ & B)|[A _]]; [right; split_and!; [done|done|by apply B]|by left]. }
  destruct (negb (so_ToolSeen outcome) && negb (so_Continue outcome)) eqn:E2.
  { exists (Ok tt), w1, n1. split_and!; [done|lia|]. destruct Hleft as [(A & B & _)|[A _]]; [|by left].
    by destruct (so_ToolSeen outcome), (so_Continue outcome). }
  destruct Hleft as [(A & B & C)|(_ & B & C)]; [|rewrite B, andb_true_r in E2; apply negb_false_iff in E2; rewrite E2, (C E2) in E1; done].
  destruct (so_Continue outcome) eqn:Ec; cbn [andb].
  - destruct (_ <=? _)%nat eqn:El; [exists (Fail errHostedLoop), w1, n1; split_and!; [done|lia|apply A]|].
    apply Nat.leb_gt in El. apply Hnext; [lia|done|by right].
  - apply Hnext; [lia|done|]. left. by destruct (so_ToolSeen outcome).
Qed.
Lemma SandRun_ends closed results :
  fifo m0 ->
  exists r w' n', SandRun request0 results closed (no_world m0) = Some (r, w') /\
    (n' <= 2 * (length results + maxInferenceHostedSteps))%nat /\ run_ended [] n' r w'.
Proof.
  intros Hm. assert (sound [] 0%nat false (no_world m0)) as Hw.
  { split; [split|..]; try done; cbn; try (split; [lia|intros; lia]). apply from_log_refl. }
  unfold SandRun.SandRun. destruct (_ || _); [exists (Fail errSandCredential), (no_world m0), 0%nat; split_and!; [done|lia|apply Hw]|].
  destruct (run_loop_ends [] closed (run_fuel results) request0 results 0 (no_world m0) 0%nat eq_refl Hw) as (r & w' & n' & E & Hn & He).
  - unfold maxInferenceHostedSteps. lia.
  - unfold run_fuel, rounds_left. case_match; lia.
  - exists r, w', n'. split_and!; [exact E| |done]. unfold rounds_left, maxInferenceHostedSteps in *. case_match; lia.
Qed.
Lemma ended_safe base n r w : run_ended base n r w -> (match r with Ok _ => True | Fail _ => safe base n w end) /\
  Forall (call_allowed tools) (sw_log w) /\ fifo (sw_memory w) /\ from_log m0 (sw_log w) (sw_memory w) /\ sw_streams w = n /\
  within (iu_search (sw_uses w)) (ro_HostedSearchMaxUses options) /\ within (iu_fetch (sw_uses w)) (ro_HostedFetchMaxUses options) /\
  completed HostedSearchKindWebSearch (sw_log w) <= iu_search (sw_uses w) /\ completed HostedSearchKindWebFetch (sw_log w) <= iu_fetch (sw_uses w).
Proof.
  intros He. split; [by destruct r|]. destruct r as [[]|e]; cbn in He.
  2: by destruct He.
  destruct He as [(before & El & [[] ? ? ?] & Eu & Em & Es & _)|[[[] ? ? ?] _]]; [|done].
  rewrite El, Eu, Em, Es, !completed_app. change (completed_of _ (event_of EventDone)) with false. cbn [Z.b2z].
  split_and!; try done; try lia; [|by apply from_log_app; [by apply unsigned_type|]]. apply Forall_app. split; [done|by apply Forall_singleton].
Qed.
End segment.

(** ** The properties of a run *)
(** C34 A Sand run always returns, after at most two streams for every tool result and every
    hosted step; of each hosted tool it makes at most 8 uses, and no more than the caller's
    max_uses where there is one, and every result shown to the caller is one of these uses. *)
Theorem sand_run_bounded (request : RunRequest) (results : list ToolResult) (closed : channelEnd) (memory : signatureMemoryStore) :
  fifo memory ->
  exists r w, SandRun request results closed (no_world memory) = Some (r, w) /\
    (sw_streams w <= 2 * (length results + maxInferenceHostedSteps))%nat /\
    within (iu_search (sw_uses w)) (ro_HostedSearchMaxUses (rr_Options request)) /\
    within (iu_fetch (sw_uses w)) (ro_HostedFetchMaxUses (rr_Options request)) /\
    completed HostedSearchKindWebSearch (sw_log w) <= iu_search (sw_uses w) /\
    completed HostedSearchKindWebFetch (sw_log w) <= iu_fetch (sw_uses w).
Proof.
  intros Hm. destruct (SandRun_ends request memory closed results Hm) as (r & w & n & E & Hn & He). exists r, w. split; [done|].
  apply ended_safe in He as (_ & _ & _ & _ & -> & G). by split.
Qed.
(** C33 A Sand run that returns nil has either emitted completion as its last event and only then, with every
    thinking block closed and the required hosted tools used, or has handed a caller's tool to the
    next history request. A failed run never reports completion, and no run hands over a call of an undeclared or
    private tool. *)
Theorem sand_run_settled (request : RunRequest) (results : list ToolResult) (closed : channelEnd) (memory : signatureMemoryStore)
    (r : result unit) (w : sandWorld) :
  fifo memory -> SandRun request results closed (no_world memory) = Some (r, w) ->
  Forall (call_allowed (rr_Tools request)) (sw_log w) /\
  match r with
  | Fail _ => Forall not_finished (sw_log w)
  | Ok _ =>
      (exists log, sw_log w = log ++ [event_of EventDone] /\ Forall not_finished log /\ blocks log = Some false /\
         (ro_RequireHostedSearch (rr_Options request) = true -> 0 < completed HostedSearchKindWebSearch log) /\
         (ro_RequireHostedFetch (rr_Options request) = true -> 0 < completed HostedSearchKindWebFetch log) /\
         (ro_RequireHostedTool (rr_Options request) = true ->
            0 < completed HostedSearchKindWebSearch log + completed HostedSearchKindWebFetch log)) \/
      (ro_HistoryRequestKey (rr_Options request) <> "" /\ Forall not_finished (sw_log w) /\ blocks (sw_log w) = Some false /\
         Exists is_call (sw_log w))
  end.
Proof.
  intros Hm Hrun. destruct (SandRun_ends request memory closed results Hm) as (r' & w' & n & E & _ & He).
  rewrite E in Hrun. injection Hrun as -> ->. split; [apply ended_safe in He as (_ & G & _); exact G|].
  destruct r as [[]|e]; [|by destruct He]. destruct He as [(before & El & [[] Es Ef Eb] & _ & _ & _ & Hv)|([[] ? ? ?] & Hk & Hc)].
  - left. exists (sw_log before). unfold validateRequired in Hv. rewrite Es, Ef in *. repeat case_match; try done.
    unfold within in *. split_and!; try done; intros Hreq; rewrite Hreq in *; bool_hyps; lia.
  - right. split_and!; try done. by apply bool_decide_eq_false in Hk.
Qed.
(** C35 The memory of signatures is a first-in first-out store within its limit: its keys are in the
    order in which they came, every signature of an answer of the run was taken in this order, and what
    was too much left at the front, the oldest first. After a run a reasoning signature is sent to Cursor
    only if it was so before or if an answer of the run carried it. *)
Theorem sand_signatures_minted (request : RunRequest) (results : list ToolResult) (closed : channelEnd) (memory : signatureMemoryStore)
    (r : result unit) (w : sandWorld) :
  fifo memory -> SandRun request results closed (no_world memory) = Some (r, w) ->
  fifo (sw_memory w) /\ sm_limit (sw_memory w) = sm_limit memory /\
  (exists keys, keys `sublist_of` minted_keys (sw_log w) /\ (forall key, key ∈ minted_keys (sw_log w) -> key ∈ keys) /\
     sm_order (sw_memory w) = fold_left (first_out (sm_limit memory)) keys (sm_order memory)) /\
  forall signature, sandForwardsReasoningSignature (sw_memory w) signature = true ->
    sandForwardsReasoningSignature memory signature = true \/ minted_in (sw_log w) (signatureKey signature).
Proof.
  intros Hm Hrun. destruct (SandRun_ends request memory closed results Hm) as (r' & w' & n & E & _ & He).
  rewrite E in Hrun. injection Hrun as -> ->. apply ended_safe in He as (_ & _ & G1 & [G2 Go G3] & _). split_and!; [done..|].
  intros signature. unfold sandForwardsReasoningSignature, lookup_signature. destruct (blank signature); [done|]. cbn [negb orb].
  unfold default. intros Hf%bool_decide_eq_true. destruct (sm_state (sw_memory w) !! _) as [st|] eqn:Es; [|done]. cbn in Hf. subst st.
  destruct (G3 _ Es) as [G|G]; [left|by right]. apply bool_decide_eq_true. by rewrite G.
Qed.
End props.
