(* ===== verification/SandResume.v ===== *)
(** * From a checkpoint to the next segment (src/cursoragentv1/inference_checkpoint.go)

    The checkpoint of a segment read back, and the request that continues it with the
    result of one of its calls. *)
From stdpp Require Import base tactics list gmap strings sorting.
From Stdlib Require Import Strings.Byte.
From S2P Require Import Prelude Effects GoStrings Sha256 JsonValue Connect Data HostedPolicy Usage Manager Media HostedSearch Wire HostedRun Runner Projection History Translate TranslateRequest TranslateTurn Credentials Sand SandTools SandWire SandRun.
Open Scope Z_scope.

(** ** What is relied on of the JSON codec *)
Section laws.
Context `{JSON} `{SDK} `{SandOutside}.
(** A message that was written reads as one of the same role with the same calls. *)
Definition same_call (part part' : any) : Prop := forall id, part_tool_name id part = part_tool_name id part'.
Definition reads_back (raw : bytes) (role : string) (parts : list any) : Prop :=
  exists message parts', unmarshal_map raw = Some message /\ sprint_field message "role" = role /\
    map_get message "content" = AnyList parts' /\ Forall2 same_call parts parts'.
(** A part as the checkpoint writes it: a map, and in a call the identifier and the name
    are texts the codec does not repair. *)
Definition legible (part : any) : Prop :=
  exists m, part = AnyMap m /\ NoDup m.*1 /\
    (sprint_field m "type" = "tool-call" -> exists id name, map_get m "toolCallId" = AnyString id /\ map_get m "toolName" = AnyString name /\
                                              is_ascii id = true /\ is_ascii name = true).
(** The roles of the messages that are searched for a call. *)
Definition searched_roles : list string := ["assistant"; "tool"].
Class CheckpointLaws : Prop := {
  message_reads role parts raw : role ∈ searched_roles -> Forall legible parts -> marshal_message role parts = Ok raw -> reads_back raw role parts;
  checkpoint_reads messages raw : json_marshal (checkpoint_json messages) = Some raw ->
    raw <> [] /\ decode_checkpoint raw = Some (inferenceCheckpointVersion, runtimeSand, messages) }.

Context `{!CheckpointLaws}.

Lemma omap_head_ext {A B} (f g : A -> option B) l l' :
  Forall2 (fun x y => f x = g y) l l' -> head (omap f l) = head (omap g l').
Proof. induction 1 as [|x y l l' Exy _ IH]; [done|]. cbn. rewrite Exy. by destruct (g y). Qed.
Lemma tool_name_written id role parts raw :
  role ∈ searched_roles -> Forall legible parts -> marshal_message role parts = Ok raw ->
  message_tool_name id raw = if bool_decide (role = "assistant") then head (omap (part_tool_name id) parts) else None.
Proof.
  intros Hr Hp Hm. destruct (message_reads _ _ _ Hr Hp Hm) as (message & parts' & E1 & E2 & E3 & E4). clear Hm. unfold message_tool_name. rewrite E1. cbn [mbind option_bind]. rewrite E2, E3.
  case_bool_decide; [|done]. symmetry. apply omap_head_ext. eapply Forall2_impl; [exact E4|]. intros x y G. apply G.
Qed.

(** ** The calls of a segment *)
Definition ascii_call (t : inferenceToolCall) : Prop := is_ascii (it_ID t) = true /\ is_ascii (it_Name t) = true.
Lemma legible_part m : NoDup m.*1 -> sprint_field m "type" <> "tool-call" -> legible (AnyMap m).
Proof. intros Hn Ht. exists m. by split_and!. Qed.
Lemma legible_calls tools parts : call_parts tools = Ok parts -> Forall ascii_call tools -> Forall legible parts.
Proof.
  revert parts. induction tools as [|tool tools IH]; cbn [call_parts]; intros parts; [by intros [= <-]|].
  destruct (unmarshal_map _) as [args|]; [|done]. destruct (call_parts tools) as [rest|]; [|done]. cbn [rbind].
  intros [= <-] [[Hi Hn] Ht]%Forall_cons. constructor; [|by apply IH]. eexists. split; [done|]. split.
  - apply (bool_decide_unpack _). vm_compute. exact I.
  - intros _. by exists (it_ID tool), (it_Name tool).
Qed.
Lemma legible_reasoning reasoning : Forall legible (reasoning_part reasoning).
Proof.
  unfold reasoning_part. destruct (blank _); [constructor|]. apply Forall_singleton.
  case_bool_decide; (apply legible_part; [apply (bool_decide_unpack _); vm_compute; exact I|discriminate]).
Qed.
Lemma tool_call_name id callID name args :
  part_tool_name id (AnyMap [("type", AnyString "tool-call"); ("toolCallId", AnyString callID); ("toolName", AnyString name); ("args", args)]) =
  if bool_decide (TrimSpace callID = id) then Some (TrimSpace name) else None.
Proof.
  set (part := [_; _; _; _]). unfold part_tool_name. change (default [] (as_map (AnyMap part))) with part.
  assert (sprint_field part "type" = "tool-call") as -> by reflexivity.
  assert (sprint_field part "toolCallId" = TrimSpace callID) as -> by reflexivity.
  assert (sprint_field part "toolName" = TrimSpace name) as -> by reflexivity. done.
Qed.
Lemma call_parts_names id tools parts :
  call_parts tools = Ok parts ->
  omap (part_tool_name id) parts = (fun t => TrimSpace (it_Name t)) <$> List.filter (fun t => bool_decide (TrimSpace (it_ID t) = id)) tools.
Proof.
  revert parts. induction tools as [|tool tools IH]; cbn [call_parts]; intros parts; [by intros [= <-]|].
  destruct (unmarshal_map _) as [args|]; [|done]. destruct (call_parts tools) as [rest|]; [|done]. cbn [rbind]. intros [= <-].
  cbn [omap list_omap List.filter]. rewrite (IH rest) by done. rewrite tool_call_name. by case_bool_decide.
Qed.
Lemma filter_unique (tools : list inferenceToolCall) call :
  call ∈ tools -> NoDup ((fun t => TrimSpace (it_ID t)) <$> tools) ->
  List.filter (fun t => bool_decide (TrimSpace (it_ID t) = TrimSpace (it_ID call))) tools = [call].
Proof.
  induction tools as [|tool tools IH]; [by intros []%not_elem_of_nil|]. cbn [fmap list_fmap List.filter].
  intros Hin [Hnot Hnd]%NoDup_cons. apply elem_of_cons in Hin as [->|Hin].
  - rewrite bool_decide_eq_true_2 by done. f_equal. clear IH Hnd. induction tools as [|x tools IH]; [done|].
    cbn [List.filter]. cbn in Hnot. apply not_elem_of_cons in Hnot as [Hne Hnot]. rewrite bool_decide_eq_false_2 by done. by apply IH.
  - rewrite bool_decide_eq_false_2; [by apply IH|]. intros E. apply Hnot. rewrite E. by apply (list_elem_of_fmap_2 (fun t => TrimSpace (it_ID t))).
Qed.
Lemma hosted_no_calls id results messages : hosted_messages results = Ok messages -> omap (message_tool_name id) (reverse messages) = [].
Proof.
  revert messages. induction results as [|r results IH]; cbn [hosted_messages]; intros messages; [by intros [= <-]|].
  destruct (marshal_message _ _) as [raw|] eqn:E; [|done]. cbn [rbind]. destruct (hosted_messages results) as [rest|]; [|done].
  cbn [rbind]. intros [= <-]. rewrite reverse_cons, omap_app, (IH rest) by done. cbn. rewrite (tool_name_written _ _ _ _ ltac:(by right; left)) with (2 := E); [done|].
  apply Forall_singleton, legible_part; [apply (bool_decide_unpack _); vm_compute; exact I|discriminate].
Qed.
(** The name the checkpoint keeps for a call of its segment. *)
Lemma checkpoint_names_call run text reasoning tools hosted messages call :
  checkpoint_messages run text reasoning tools hosted = Ok messages -> call ∈ tools -> Forall ascii_call tools ->
  NoDup ((fun t => TrimSpace (it_ID t)) <$> tools) ->
  forall id, TrimSpace id = TrimSpace (it_ID call) -> inferenceCheckpointToolName messages id = TrimSpace (it_Name call).
Proof.
  unfold checkpoint_messages. intros G Hin Hascii Hnd id Hid. unfold inferenceCheckpointToolName. rewrite Hid.
  destruct (one_message _ "system" _) as [system|]; [|done]. cbn [rbind] in G. destruct (one_message _ "user" _) as [user|]; [|done]. cbn [rbind] in G.
  destruct (call_parts tools) as [calls|] eqn:Ec; [|done]. cbn [rbind] in G.
  set (parts := reasoning_part reasoning ++ _) in G. destruct (one_message _ "assistant" _) as [assistant|] eqn:Ea; [|done]. cbn [rbind] in G.
  destruct (hosted_messages hosted) as [rest|] eqn:Eh; [|done]. cbn [rbind] in G. injection G as <-.
  assert (head (omap (part_tool_name (TrimSpace (it_ID call))) parts) = Some (TrimSpace (it_Name call))) as Hname.
  { unfold parts. rewrite !omap_app, (call_parts_names _ _ _ Ec), filter_unique by done.
    assert (omap (part_tool_name (TrimSpace (it_ID call))) (reasoning_part reasoning) = []) as ->.
    { unfold reasoning_part. destruct (blank (rs_Text reasoning)); [reflexivity|]. case_bool_decide; reflexivity. }
    destruct (blank text); reflexivity. }
  assert (Forall legible parts) as Hlegible.
  { unfold parts. apply Forall_app. split; [apply legible_reasoning|]. apply Forall_app. split; [|by eapply legible_calls].
    destruct (blank text); [constructor|]. apply Forall_singleton, legible_part; [apply (bool_decide_unpack _); vm_compute; exact I|discriminate]. }
  unfold one_message in Ea. destruct parts as [|part parts]; [done|]. cbn [negb bool_decide] in Ea.
  rewrite bool_decide_eq_false_2 in Ea by done. cbn [negb] in Ea. destruct (marshal_message _ _) as [raw|] eqn:Em; [|done].
  cbn [rbind] in Ea. injection Ea as <-. rewrite !reverse_app, !omap_app, (hosted_no_calls _ _ _ Eh). cbn [reverse rev_append app].
  cbn [omap list_omap]. rewrite (tool_name_written _ _ _ _ ltac:(by left) Hlegible Em). rewrite bool_decide_eq_true_2 by done. by rewrite Hname.
Qed.

(** ** The continuation *)
Definition tool_message (r : ToolResult) (name : string) : result bytes :=
  marshal_message "tool" [AnyMap (tool_result_part (tr_ToolCallID r) name (error_value (tr_IsError r) (AnyString (tr_Content r))) ++ result_media r)].
(** C36 The checkpoint of a segment that ended with calls of the caller's, under distinct
    identifiers, and the result of one of them give the next segment the conversation of
    the checkpoint followed by that result under the name of its tool.  Besides it the
    next request has the continuation text and still the media of the user, which the
    conversation of the checkpoint holds already. *)
Theorem sand_checkpoint_continues (run : RunRequest) (text : string) (reasoning : inferenceReasoning) (tools : list inferenceToolCall)
    (hosted : list inferenceHostedToolResult) (checkpoint : bytes) (call : inferenceToolCall) (r : ToolResult) (message : bytes) :
  encodeInferenceCheckpoint run text reasoning tools hosted = Ok checkpoint ->
  call ∈ tools -> NoDup ((fun t => TrimSpace (it_ID t)) <$> tools) -> Forall ascii_call tools -> blank (it_Name call) = false ->
  TrimSpace (tr_ToolCallID r) = TrimSpace (it_ID call) -> tool_message r (TrimSpace (it_Name call)) = Ok message ->
  exists messages next,
    checkpoint_messages run text reasoning tools hosted = Ok messages /\
    prepareInferenceRun (Received r) (next_request {| so_Checkpoint := checkpoint; so_ToolSeen := true; so_Continue := false |} run) = Ok (next, Some r) /\
    ro_HistoryMessages (rr_Options next) = messages ++ [message] /\ ro_SystemText (rr_Options next) = "" /\
    rr_UserText next = historyContinuationText /\ ro_UserMedia (rr_Options next) = ro_UserMedia (rr_Options run) /\ rr_Tools next = rr_Tools run /\ rr_Resume next = false.
Proof.
  intros He Hin Hnd Hascii Hb Hid Hm. unfold encodeInferenceCheckpoint in He.
  destruct (checkpoint_messages _ _ _ _ _) as [messages|] eqn:Ec; [|done]. cbn [rbind] in He.
  destruct (json_marshal _) as [encoded|] eqn:Ej; [|done]. injection He as ->. apply checkpoint_reads in Ej as [Hne Hd].
  pose proof (checkpoint_names_call _ _ _ _ _ _ _ Ec Hin Hascii Hnd _ Hid) as Hname.
  unfold prepareInferenceRun. cbn [next_request run_with rr_InitialCheckpoint so_Checkpoint]. rewrite bool_decide_eq_false_2 by done.
  unfold decodeInferenceCheckpoint. rewrite Hd, Z.eqb_refl, bool_decide_eq_true_2 by done. cbn [andb rbind run_with rr_Resume so_ToolSeen negb].
  unfold continued. cbn [run_with rr_Options with_messages options_with ro_HistoryMessages]. rewrite Hname.
  apply bool_decide_eq_false in Hb. rewrite bool_decide_eq_false_2 by done. unfold tool_message in Hm. rewrite Hm. cbn [rbind].
  by eexists messages, _.
Qed.
End laws.
