(* ===== verification/SandSample.v ===== *)
(** * A concrete Sand run

    The first segment asks for a hosted search, the second thinks, signs and answers; and
    a checkpoint with its continuation.  The witnesses of the theorems on Sand runs. *)
From stdpp Require Import base tactics list gmap strings sorting.
From Stdlib Require Import Strings.Byte.
From S2P Require Import Prelude Effects GoStrings Sha256 JsonValue Connect Data HostedPolicy Usage Manager Media HostedSearch Wire WireProps HostedRun Runner RunnerSample Projection History Translate TranslateRequest TranslateTurn Credentials CredentialsProps Sand SandTools SandWire SandRun SandLogic SandInv SandProps SandResume.
Open Scope Z_scope.

Definition sand_root : any := AnyMap [("role", AnyString "user"); ("content", AnyList []); ("search_term", AnyString "go")].
#[local] Instance sand_json : JSON := table_json sand_root.
#[local] Existing Instance sample_outside.
#[local] Existing Instance plain_digest.
#[local] Existing Instance sample_metadata.
#[local] Existing Instance sample_protowire.
#[local] Instance sand_outside : SandOutside :=
  {| gjson_string _ _ := ""; http2_transport _ := None; web_post _ _ _ _ := Ok (200, Ok []); decode_search _ := Some ("an answer", []);
     decode_fetch _ := None; decode_checkpoint _ := Some (1, runtimeSand, [[x00]]); struct_marshal _ := Some (Ok []);
     value_marshal _ := Some (Ok []) |}.

Definition sand_options : RunOptions := {|
  ro_HistoryRequestKey := ""; ro_BaseURL := ""; ro_ProxyURL := ""; ro_AccessToken := "t"; ro_ClientVersion := "1";
  ro_RouteChannelID := 0; ro_RouteUserID := 0; ro_Model := "m"; ro_UserMedia := []; ro_ThinkingEnabled := false;
  ro_ReasoningEffort := ""; ro_InferenceContext := ""; ro_InferenceThinking := None; ro_dropReasoningSignatures := false;
  ro_SystemText := ""; ro_HistoryMessages := []; ro_AllowHostedSearch := true; ro_AllowHostedFetch := false;
  ro_RequireHostedSearch := true; ro_RequireHostedFetch := false; ro_RequireHostedTool := false;
  ro_HostedSearchMaxUses := Some 2; ro_HostedFetchMaxUses := None; ro_HostedSearchDomains := no_domains;
  ro_HostedFetchDomains := no_domains; ro_RequireToolCall := false; ro_MaxParallelTools := 0; ro_DeleteCompletedState := false |}.
Definition sand_request : RunRequest := {|
  rr_Options := sand_options; rr_RuntimeProfile := "sand"; rr_ConversationID := "conv"; rr_UserText := "hi"; rr_FollowUpText := "";
  rr_Tools := [{| td_Name := inferenceWebSearchToolName; td_Description := ""; td_InputSchema := [] |}]; rr_InitialCheckpoint := [];
  rr_InitialBlobs := ∅; rr_Resume := false |}.
Definition search_frame : bytes :=
  sample_message [(2, encode_fields [FB 1 (to_bytes "call-1"); FB 2 (to_bytes inferenceWebSearchToolName); FB 3 (to_bytes "{}"); FV 4 1])].
Definition answer_frames : bytes :=
  sample_message [(9, encode_fields [FB 1 (to_bytes "hm")])] ++ sample_message [(9, encode_fields [FB 2 (to_bytes "sig")])]
  ++ sample_message [(1, encode_fields [FB 1 (to_bytes "done")])].
Definition sand_stream (n : nat) (url : string) (headers : list (string * string)) (body : bytes) : result (Z * (list bytes * option Err)) :=
  Ok (200, ([if (n =? 0)%nat then search_frame ++ sample_end else answer_frames ++ sample_end], None)).
Definition no_parse (url : string) : option (string * string) := None.
Definition sand_id (n : nat) : string := "id".
Definition sand_run : option (result unit * sandWorld) :=
  SandRun unlowered no_parse no_gzip no_trailer sand_id sand_stream sand_request [] EndClosed (no_world signatureMemory).
Definition sand_world : sandWorld := match sand_run with Some (_, w) => w | None => no_world signatureMemory end.
Lemma sand_runs : sand_run = Some (Ok tt, sand_world).
Proof.
  unfold sand_world. assert (match sand_run with Some (Ok _, _) => true | _ => false end = true) as E by (vm_compute; reflexivity).
  destruct sand_run as [[[[]|] w]|]; done.
Qed.
Lemma signatureMemory_fifo : fifo signatureMemory.
Proof.
  split; cbn [signatureMemory newSignatureMemory sm_limit sm_order sm_state length]; [lia|apply NoDup_nil_2| |lia].
  intros key. rewrite lookup_empty. split; [by intros []|by intros ?%not_elem_of_nil].
Qed.
Lemma sand_run_bounded_witness :
  exists r w, sand_run = Some (r, w) /\ (sw_streams w <= 32)%nat /\ iu_search (sw_uses w) <= 2 /\ iu_fetch (sw_uses w) <= 8.
Proof.
  destruct (sand_run_bounded unlowered no_parse no_gzip no_trailer sand_id sand_stream sand_request [] EndClosed signatureMemory signatureMemory_fifo)
    as (r & w & E & G1 & [_ G2] & [G3 _] & _).
  exists r, w. split; [exact E|]. split; [exact G1|]. split; [exact (G2 2 eq_refl)|lia].
Defined.
Lemma sand_run_settled_witness : exists log, sw_log sand_world = log ++ [event_of EventDone] /\ 0 < completed HostedSearchKindWebSearch log.
Proof.
  destruct (sand_run_settled unlowered no_parse no_gzip no_trailer sand_id sand_stream sand_request [] EndClosed signatureMemory (Ok tt) sand_world
    signatureMemory_fifo sand_runs) as (_ & [(log & E & _ & _ & G & _)|(G & _)]).
  - exists log. split; [exact E|]. apply G. reflexivity.
  - destruct G. reflexivity.
Defined.
(** A memory with room for one signature, that has another. *)
Definition full_memory : signatureMemoryStore := rememberMintedSignature "old" (newSignatureMemory 1).
Lemma full_memory_fifo : fifo full_memory.
Proof.
  apply record_fifo. split; cbn [newSignatureMemory sm_limit sm_order sm_state length]; [lia|apply NoDup_nil_2| |lia].
  intros key. rewrite lookup_empty. split; [by intros []|by intros ?%not_elem_of_nil].
Qed.
Definition full_run : option (result unit * sandWorld) :=
  SandRun unlowered no_parse no_gzip no_trailer sand_id sand_stream sand_request [] EndClosed (no_world full_memory).
Definition full_world : sandWorld := match full_run with Some (_, w) => w | None => no_world full_memory end.
Lemma full_runs : full_run = Some (Ok tt, full_world).
Proof.
  unfold full_world. assert (match full_run with Some (Ok _, _) => true | _ => false end = true) as E by (vm_compute; reflexivity).
  destruct full_run as [[[[]|] w]|]; done.
Qed.
(** The new signature displaces the old one. *)
Lemma sand_signatures_minted_witness :
  minted_in (sw_log full_world) (signatureKey "sig") /\ sandForwardsReasoningSignature (sw_memory full_world) "old" = false /\
  exists keys, keys `sublist_of` [signatureKey "sig"] /\ sm_order (sw_memory full_world) = fold_left (first_out 1) keys [signatureKey "old"].
Proof.
  destruct (sand_signatures_minted unlowered no_parse no_gzip no_trailer sand_id sand_stream sand_request [] EndClosed full_memory (Ok tt) full_world
    full_memory_fifo full_runs) as (_ & _ & (keys & K1 & _ & K2) & G).
  split; [|split; [vm_compute; reflexivity|]].
  - assert (sandForwardsReasoningSignature (sw_memory full_world) "sig" = true) as Es by (vm_compute; reflexivity).
    destruct (G _ Es) as [E|E]; [|exact E]. exfalso. assert (sandForwardsReasoningSignature full_memory "sig" = false) as En by (vm_compute; reflexivity).
    rewrite En in E. discriminate E.
  - exists keys. split; [|exact K2]. assert (minted_keys (sw_log full_world) = [signatureKey "sig"]) as <- by (vm_compute; reflexivity). exact K1.
Defined.

(** ** A checkpoint *)
Definition lookup_call : inferenceToolCall := {| it_ID := "call-1"; it_Name := "lookup"; it_Arguments := "args" |}.
Definition resume_user : any := role_message "user" [text_part_json "hi"].
Definition resume_assistant : any :=
  role_message "assistant" [AnyMap [("type", AnyString "tool-call"); ("toolCallId", AnyString "call-1"); ("toolName", AnyString "lookup"); ("args", AnyMap [])]].
Definition resume_answer : ToolResult := {| tr_ToolCallID := "call-1"; tr_Content := "42"; tr_IsError := false; tr_Media := [] |}.
Definition resume_tool : any := role_message "tool" [AnyMap (tool_result_part "call-1" "lookup" (AnyString "42"))].
(** A codec for these values alone. *)
Definition resume_codes : list (any * bytes) :=
  [(resume_user, to_bytes "user"); (resume_assistant, to_bytes "assistant"); (resume_tool, to_bytes "tool"); (AnyMap [], to_bytes "args");
   (checkpoint_json [to_bytes "user"; to_bytes "assistant"], to_bytes "checkpoint")].
Definition resume_json : JSON :=
  {| json_unmarshal raw := match List.find (fun e => bool_decide (e.2 = raw)) resume_codes with Some e => Some e.1 | None => None end;
     json_marshal v := match List.find (fun e => any_eqb e.1 v) resume_codes with Some e => Some e.2 | None => None end; json_valid _ := true |}.
Definition resume_outside : SandOutside :=
  {| gjson_string _ _ := ""; http2_transport _ := None; web_post _ _ _ _ := Ok (200, Ok []); decode_search _ := None; decode_fetch _ := None;
     decode_checkpoint raw := if bool_decide (raw = to_bytes "checkpoint") then Some (1, runtimeSand, [to_bytes "user"; to_bytes "assistant"]) else None;
     struct_marshal _ := None; value_marshal _ := None |}.
#[local] Existing Instance resume_json.
#[local] Existing Instance resume_outside.
(** Base64 keeps messages apart. *)
Lemma b64_char_inj n m : b64_std_char n = b64_std_char m -> n mod 64 = m mod 64.
Proof.
  unfold b64_std_char. intros E%(f_equal byteZ). rewrite !byteZ_Zbyte in E. revert E.
  pose proof (Z.mod_pos_bound n 64 ltac:(lia)). pose proof (Z.mod_pos_bound m 64 ltac:(lia)).
  generalize dependent (n mod 64). generalize dependent (m mod 64). intros x Hx y Hy.
  repeat match goal with |- context [if ?b then _ else _] => destruct b eqn:? end; bool_hyps; rewrite !Z.mod_small by lia; lia.
Qed.
Lemma b64_char_pad n : b64_std_char n <> x3d.
Proof.
  unfold b64_std_char. intros E%(f_equal byteZ). rewrite byteZ_Zbyte in E. change (byteZ x3d) with 61 in E. revert E.
  pose proof (Z.mod_pos_bound n 64 ltac:(lia)). generalize dependent (n mod 64). intros x Hx.
  repeat match goal with |- context [if ?b then _ else _] => destruct b eqn:? end; bool_hyps; rewrite !Z.mod_small by lia; lia.
Qed.
Lemma byteZ_inj a b : byteZ a = byteZ b -> a = b.
Proof. intros E. by rewrite <- (Zbyte_byteZ a), E, Zbyte_byteZ. Qed.
Lemma word_inj a b c a' b' c' :
  let w := byteZ a * 65536 + byteZ b * 256 + byteZ c in let w' := byteZ a' * 65536 + byteZ b' * 256 + byteZ c' in
  w / 262144 mod 64 = w' / 262144 mod 64 -> w / 4096 mod 64 = w' / 4096 mod 64 -> w / 64 mod 64 = w' / 64 mod 64 -> w mod 64 = w' mod 64 ->
  a = a' /\ b = b' /\ c = c'.
Proof.
  cbv zeta. pose proof (byteZ_range a). pose proof (byteZ_range b). pose proof (byteZ_range c).
  pose proof (byteZ_range a'). pose proof (byteZ_range b'). pose proof (byteZ_range c'). intros E1 E2 E3 E4.
  assert (byteZ a = byteZ a' /\ byteZ b = byteZ b' /\ byteZ c = byteZ c') as (Ea & Eb & Ec).
  { generalize dependent (byteZ a). generalize dependent (byteZ b). generalize dependent (byteZ c).
    generalize dependent (byteZ a'). generalize dependent (byteZ b'). generalize dependent (byteZ c'). intros.
    Z.div_mod_to_equations. lia. }
  split_and!; by apply byteZ_inj.
Qed.
Lemma b64_encode_inj : forall l l', b64_encode_bytes l = b64_encode_bytes l' -> l = l'.
Proof.
  assert (byteZ x00 = 0) as E0 by reflexivity.
  fix IH 1. intros [|a [|b [|c l]]] [|a' [|b' [|c' l']]]; cbn [b64_encode_bytes fmap list_fmap app]; intros E; try done; injection E; clear E; intros;
    try (exfalso; match goal with
         | E : b64_std_char _ = x3d |- _ => by apply b64_char_pad in E
         | E : x3d = b64_std_char _ |- _ => symmetry in E; by apply b64_char_pad in E
         end).
  - assert (a = a' /\ x00 = x00 /\ x00 = x00) as (-> & _) by (apply word_inj; rewrite ?E0, ?Z.mul_0_l, ?Z.add_0_r; try (by apply b64_char_inj);
      Z.div_mod_to_equations; lia). done.
  - assert (a = a' /\ b = b' /\ x00 = x00) as (-> & -> & _) by (apply word_inj; rewrite ?E0, ?Z.mul_0_l, ?Z.add_0_r; try (by apply b64_char_inj);
      Z.div_mod_to_equations; lia). done.
  - assert (a = a' /\ b = b' /\ c = c') as (-> & -> & ->) by (apply word_inj; by apply b64_char_inj). do 3 f_equal. by apply IH.
Qed.
Lemma bytes_json_inj (messages messages' : list bytes) : bytes_json <$> messages = bytes_json <$> messages' -> messages = messages'.
Proof.
  revert messages'. induction messages as [|m messages IH]; intros [|m' messages']; cbn; try done. unfold bytes_json at 1 3.
  intros E. injection E as E1 E2. f_equal; [|by apply IH]. apply b64_encode_inj. by rewrite <- (to_of_bytes (b64_encode_bytes m)), E1, to_of_bytes.
Qed.
Lemma resume_code v raw : json_marshal v = Some raw -> (v, raw) ∈ resume_codes.
Proof.
  cbn [json_marshal resume_json]. destruct (List.find _ _) as [[v' raw']|] eqn:E; [|discriminate]. intros [= <-].
  apply List.find_some in E as [Hin He]. apply any_eqb_eq in He. cbn in He. subst v'. by apply list_elem_of_In.
Qed.
Lemma resume_back raw role parts :
  unmarshal_map raw = Some [("role", AnyString role); ("content", AnyList parts)] ->
  sprint_field [("role", AnyString role); ("content", AnyList parts)] "role" = role -> reads_back raw role parts.
Proof.
  intros E1 E2. exists [("role", AnyString role); ("content", AnyList parts)], parts. split; [exact E1|]. split; [exact E2|].
  split; [reflexivity|]. apply Forall2_same_length_lookup_2; [done|]. intros i x y Ex Ey. rewrite Ex in Ey. injection Ey as ->. by intros ?.
Qed.
#[local] Instance resume_laws : CheckpointLaws.
Proof.
  split.
  - intros role parts raw _ _. unfold marshal_message. destruct (json_marshal _) as [encoded|] eqn:E; [|discriminate]. intros [= ->].
    apply resume_code in E. unfold resume_codes, role_message, resume_user, resume_assistant, resume_tool, checkpoint_json in E.
    repeat apply elem_of_cons in E as [E|E]; try (by apply elem_of_nil in E); try discriminate E; injection E as -> -> ->;
      apply resume_back; vm_compute; reflexivity.
  - intros messages raw E. apply resume_code in E. unfold resume_codes, role_message, resume_user, resume_assistant, resume_tool, checkpoint_json in E.
    repeat apply elem_of_cons in E as [E|E]; try (by apply elem_of_nil in E); try discriminate E. injection E as Em ->.
    split; [discriminate|]. apply (bytes_json_inj messages [to_bytes "user"; to_bytes "assistant"]) in Em as ->. vm_compute. reflexivity.
Qed.
Definition resume_checkpoint : bytes := to_bytes "checkpoint".
Definition resume_run : RunRequest := {|
  rr_Options := sand_options; rr_RuntimeProfile := "sand"; rr_ConversationID := "conv"; rr_UserText := "hi"; rr_FollowUpText := "";
  rr_Tools := [{| td_Name := "lookup"; td_Description := ""; td_InputSchema := [] |}]; rr_InitialCheckpoint := []; rr_InitialBlobs := ∅;
  rr_Resume := false |}.
Definition no_reasoning : inferenceReasoning := {| rs_Text := ""; rs_Signature := "" |}.
Lemma resume_encodes : encodeInferenceCheckpoint resume_run "" no_reasoning [lookup_call] [] = Ok resume_checkpoint.
Proof. vm_compute. reflexivity. Qed.
Lemma resume_tool_encodes : tool_message resume_answer (TrimSpace (it_Name lookup_call)) = Ok (to_bytes "tool").
Proof. vm_compute. reflexivity. Qed.
Lemma sand_checkpoint_continues_witness :
  exists next, prepareInferenceRun (Received resume_answer)
      (next_request {| so_Checkpoint := resume_checkpoint; so_ToolSeen := true; so_Continue := false |} resume_run) = Ok (next, Some resume_answer) /\
    rr_UserText next = historyContinuationText.
Proof.
  destruct (sand_checkpoint_continues resume_run "" no_reasoning [lookup_call] [] resume_checkpoint lookup_call resume_answer (to_bytes "tool"))
    as (messages & next & _ & G1 & _ & _ & G2 & _).
  - exact resume_encodes.
  - left.
  - apply NoDup_singleton.
  - apply Forall_singleton. split; reflexivity.
  - reflexivity.
  - reflexivity.
  - exact resume_tool_encodes.
  - exists next. split; [exact G1|exact G2].
Defined.
