(* ===== verification/Rely.v ===== *)
(** * Rely and guarantee for the goroutines of a pool

    [Conc] proves what every section keeps whoever runs it.  Some facts are known to one
    goroutine only: what it has sent so far, that it holds a mutex, that it has not
    closed a channel yet.  An outline annotates its program with assertions that the
    steps of the others keep, and says that its own steps stay within its guarantee. *)
From stdpp Require Import base tactics list.
From S2P Require Import Prelude Conc.

Section rely.
Context {S L : Type}.
Definition assertion : Type := list L -> S -> Prop.
(** What one step of the environment, or of the goroutine with a number, may do; with its labels. *)
Context (env : S -> S -> Prop) (guar : nat -> S -> list L -> S -> Prop).
(** What a goroutine maintains at every moment. *)
Context (I : nat -> assertion).

Definition rely (i : nat) (s : S) (u : list L) (s' : S) : Prop := (u = [] /\ env s s') \/ exists j, j <> i /\ guar j s u s'.
Definition stable (i : nat) (P : assertion) : Prop := forall t s u s', P t s -> rely i s u s' -> P (t ++ u) s'.
(** [outline i p P Q]: run by goroutine [i] from [P], the program keeps [I], stays within
    the guarantee and ends in [Q].  It starts no goroutines. *)
Fixpoint outline (i : nat) {A} (p : Prog S L A) (P : assertion) (Q : A -> assertion) : Prop :=
  stable i P /\ (forall t s, P t s -> I i t s) /\
  match p in Prog _ _ A return (A -> assertion) -> Prop with
  | Ret a => fun Q => forall t s, P t s -> Q a t s
  | Act lab f k => fun Q =>
      exists P', (forall t s b s', P t s -> (b, s') ∈ f s -> guar i s (option_list (lab b)) s' /\ P' b (t ++ option_list (lab b)) s') /\
                 forall b, (exists s s', (b, s') ∈ f s) -> outline i (k b) (P' b) Q
  | Fork _ _ => fun _ => False
  end Q.

Lemma outline_inv i {A} (p : Prog S L A) P Q : outline i p P Q -> stable i P /\ forall t s, P t s -> I i t s.
Proof. destruct p; cbn [outline]; intros (Hs & Hi & _); by split. Qed.
Lemma outline_pre i {A} (p : Prog S L A) (P P' : assertion) Q :
  outline i p P Q -> stable i P' -> (forall t s, P' t s -> P t s) -> outline i p P' Q.
Proof.
  intros Ho Hs Hp. destruct p; cbn [outline]; destruct Ho as (? & Hi & Ho); (split; [done|]; split; [by auto|]).
  - auto.
  - destruct Ho as (P1 & H1 & H2). exists P1. split; [|done]. intros t s b s' Ht. apply H1. auto.
  - done.
Qed.
Lemma outline_post i {A} (p : Prog S L A) P (Q Q' : A -> assertion) :
  outline i p P Q -> (forall a t s, Q a t s -> Q' a t s) -> outline i p P Q'.
Proof.
  revert P. induction p as [A a|A B lab f k IH|A p _ k IH]; intros P (Hs & Hi & Ho) HQ; cbn [outline]; (split; [done|]; split; [done|]).
  - auto.
  - destruct Ho as (P1 & H1 & H2). exists P1. split; [done|]. intros b Hb. eapply IH; [by apply H2|done].
  - done.
Qed.
Lemma outline_bind i {A B} (p : Prog S L A) (q : A -> Prog S L B) P (M : A -> assertion) Q :
  outline i p P M -> (forall a, outline i (q a) (M a) Q) -> outline i (p ≫= q) P Q.
Proof.
  unfold mbind, Prog_bind. intros Hp Hq. revert P Hp.
  induction p as [A a|A C lab f k IH|A p _ k IH]; intros P Hp; cbn [prog_bind].
  - destruct Hp as (Hs & Hi & Hp). eapply outline_pre; [apply (Hq a)|done|done].
  - destruct Hp as (Hs & Hi & P1 & H1 & H2). cbn [outline]. split_and!; [done|done|].
    exists P1. split; [done|]. intros b Hb. eapply IH; [done|by apply H2].
  - by destruct Hp as (Hs & Hi & H1).
Qed.
Lemma outline_ret i {A} (a : A) (P : assertion) (Q : A -> assertion) :
  stable i P -> (forall t s, P t s -> I i t s) -> (forall t s, P t s -> Q a t s) -> outline i (mret a) P Q.
Proof. intros Hs Hi Hq. cbn [outline mret Prog_ret]. by split_and!. Qed.
(** An action and what follows, for the answers the action can give. *)
Lemma outline_then i {A B} lab (f : Sect S A) (q : A -> Prog S L B) P (M : A -> assertion) Q :
  stable i P -> (forall t s, P t s -> I i t s) ->
  (forall t s a s', P t s -> (a, s') ∈ f s -> guar i s (option_list (lab a)) s' /\ M a (t ++ option_list (lab a)) s') ->
  (forall a, (exists s s', (a, s') ∈ f s) -> outline i (q a) (M a) Q) -> outline i (labelled lab f ≫= q) P Q.
Proof. intros Hs Hi Hf Hq. unfold mbind, Prog_bind. cbn [outline labelled prog_bind]. split_and!; [done|done|]. by exists M. Qed.
(** One action; what it ends in has to be stable and within the invariant too. *)
Lemma outline_act i {A} lab (f : Sect S A) P (Q : A -> assertion) :
  stable i P -> (forall t s, P t s -> I i t s) -> (forall a, stable i (Q a)) -> (forall a t s, Q a t s -> I i t s) ->
  (forall t s a s', P t s -> (a, s') ∈ f s -> guar i s (option_list (lab a)) s' /\ Q a (t ++ option_list (lab a)) s') ->
  outline i (labelled lab f) P Q.
Proof.
  intros Hs Hi HQ HI Hf. cbn [outline labelled]. split_and!; [done|done|]. exists Q. split; [done|].
  intros a _. split_and!; [apply HQ|apply HI|done].
Qed.
Lemma outline_each i {A} (l : list A) body P :
  stable i P -> (forall t s, P t s -> I i t s) -> (forall a, outline i (body a) P (fun _ => P)) -> outline i (prog_each l body) P (fun _ => P).
Proof.
  intros Hs Hi Hb. induction l as [|x l IH]; cbn [prog_each]; [by apply outline_ret|]. eapply outline_bind; [apply Hb|done].
Qed.

(** *** Goroutines whose sections stay within the guarantee in any state *)
Fixpoint guarantees (G : S -> list L -> S -> Prop) {A} (p : Prog S L A) : Prop :=
  match p with
  | Ret _ => True
  | Act lab f k => (forall s b s', (b, s') ∈ f s -> G s (option_list (lab b)) s') /\ forall b, guarantees G (k b)
  | Fork _ _ => False
  end.
Lemma guarantees_bind G {A B} (p : Prog S L A) (q : A -> Prog S L B) : guarantees G p -> (forall a, guarantees G (q a)) -> guarantees G (p ≫= q).
Proof.
  unfold mbind, Prog_bind. intros Hp Hq. induction p as [A a|A C lab f k IH|A p _ k IH]; cbn [prog_bind guarantees] in *; [apply Hq| |done].
  destruct Hp as [H1 H2]. split; [done|]. intros b. by apply IH.
Qed.
Lemma guarantees_act G {A} lab (f : Sect S A) : (forall s b s', (b, s') ∈ f s -> G s (option_list (lab b)) s') -> guarantees G (labelled lab f).
Proof. by split. Qed.
(** An assertion such sections keep holds all along. *)
Lemma outline_guarantees i {A} (p : Prog S L A) (P : assertion) :
  stable i P -> (forall t s, P t s -> I i t s) -> (forall t s u s', P t s -> guar i s u s' -> P (t ++ u) s') ->
  guarantees (guar i) p -> outline i p P (fun _ => P).
Proof.
  intros Hs Hi Hk. induction p as [A a|A B lab f k IH|A p _ k IH]; intros Hp; [|destruct Hp as [H1 H2]|done]; cbn [outline]; split_and!; try done.
  exists (fun _ => P). split; [|by intros b _; apply IH]. intros t s b s' Ht Hb. split; [|eapply Hk; [done|]]; by apply H1.
Qed.
Lemma guarantees_each G {A} (l : list A) body : (forall a, guarantees G (body a)) -> guarantees G (prog_each l body).
Proof. intros Hb. induction l as [|x l IH]; cbn [prog_each]; [done|]. apply guarantees_bind; [apply Hb|done]. Qed.
End rely.
Arguments assertion : clear implicits.

Section soundness.
Context {S L : Type} (env : S -> S -> Prop) (guar : nat -> S -> list L -> S -> Prop) (I : nat -> assertion S L).
Local Notation outline := (outline env guar I).

(** Every goroutine of the pool, numbered from [i], is somewhere in an outline. *)
Fixpoint outlined (i : nat) (t : list L) (ps : list (Prog S L unit)) (s : S) : Prop :=
  match ps with
  | [] => True
  | p :: ps => (exists P, outline i p P (fun _ _ _ => True) /\ P t s) /\ outlined (Datatypes.S i) t ps s
  end.
Lemma outlined_stable i t ps s u s' :
  (forall k, i <= k -> rely env guar k s u s') -> outlined i t ps s -> outlined i (t ++ u) ps s'.
Proof.
  revert i. induction ps as [|p ps IH]; intros i Hr; cbn [outlined]; [done|]. intros [(P & Ho & Hp) Hps]. split.
  - exists P. split; [done|]. apply outline_inv in Ho as [Hs _]. eapply Hs; [done|]. by apply Hr.
  - apply IH; [|done]. intros k Hk. apply Hr. lia.
Qed.
Lemma outlined_act i t pre {B} lab (f : Sect S B) k post s b s' :
  (b, s') ∈ f s -> outlined i t (pre ++ Act lab f k :: post) s ->
  guar (i + length pre) s (option_list (lab b)) s' /\ outlined i (t ++ option_list (lab b)) (pre ++ k b :: post) s'.
Proof.
  intros Hb. revert i. induction pre as [|p pre IH]; intros i; cbn [outlined app length].
  - intros [(P & (_ & _ & P1 & H1 & H2) & Hp) Hps]. destruct (H1 _ _ _ _ Hp Hb) as [Hg Hp']. rewrite Nat.add_0_r. split; [done|]. split.
    + exists (P1 b). split; [apply H2; eauto|done].
    + eapply outlined_stable; [|done]. intros j Hj. right. exists i. split; [lia|done].
  - intros [(P & Ho & Hp) Hps]. destruct (IH (Datatypes.S i) Hps) as [Hg Hps']. replace (i + Datatypes.S (length pre)) with (Datatypes.S i + length pre) by lia.
    split; [done|]. split; [|done]. exists P. split; [done|]. apply outline_inv in Ho as [Hs _].
    eapply Hs; [done|]. right. exists (Datatypes.S i + length pre). split; [lia|done].
Qed.
Lemma outlined_no_fork i t pre p k post s : ~ outlined i t (pre ++ Fork p k :: post) s.
Proof.
  revert i. induction pre as [|q pre IH]; intros i; cbn [outlined app]; [|by intros [_ Hps%IH]].
  by intros [(P & (_ & _ & []) & _) _].
Qed.
(** Together with what the guarantees and the environment keep. *)
Lemma outlined_invariant (K : assertion S L) ps s u qs s' :
  (forall j t s u s', K t s -> guar j s u s' -> K (t ++ u) s') -> (forall t s s', K t s -> env s s' -> K (t ++ []) s') ->
  outlined 0 [] ps s -> K [] s -> pool_steps env (ps, s) u (qs, s') -> outlined 0 u qs s' /\ K u s'.
Proof.
  intros Hg He. assert (forall x u y, pool_steps env x u y -> outlined 0 [] x.1 x.2 /\ K [] x.2 -> outlined 0 u y.1 y.2 /\ K u y.2) as H.
  { intros x v y Hsteps Hx. induction Hsteps as [|x v y w z _ IH Hstep]; [done|]. destruct (IH Hx) as [I1 I2].
    destruct Hstep as [B lab f k pre post s0 b s1 Hb|q k pre post s0|rs s0 s1 He']; cbn [fst snd] in *.
    - destruct (outlined_act _ _ _ _ _ _ _ _ _ _ Hb I1) as [G1 G2]. split; [done|]. by eapply Hg.
    - by apply outlined_no_fork in I1.
    - split; [|by apply (He _ s0)]. eapply outlined_stable; [|done]. intros k _. left. by split. }
  intros Hx Hk Hsteps. by apply (H _ _ _ Hsteps).
Qed.
Lemma pool_steps_first x (t : list L) y : pool_steps env x t y -> x.1 <> [] -> y.1 <> [].
Proof.
  intros Hsteps Hx. induction Hsteps as [|x t y u z _ IH Hstep]; [done|]. specialize (IH Hx).
  destruct Hstep as [B lab f k pre post s b s' _|q k pre post s|]; cbn [fst] in *; [by destruct pre..|done].
Qed.
(** The first goroutine's invariant, in every reachable state. *)
Lemma outlined_first p ps s u qs s' : outlined 0 [] (p :: ps) s -> pool_steps env (p :: ps, s) u (qs, s') -> I 0 u s'.
Proof.
  intros Hx Hsteps. destruct (outlined_invariant (fun _ _ => True) _ _ _ _ _ ltac:(done) ltac:(done) Hx ltac:(done) Hsteps) as [Hy _].
  apply pool_steps_first in Hsteps; [|done].
  destruct qs as [|q qs]; [done|]. destruct Hy as [(P & Ho & Hp) _]. apply outline_inv in Ho as [_ Hi]. by apply Hi.
Qed.
End soundness.

(** ** Running one goroutine of the pool alone, the first choice everywhere *)
(** A goroutine that starts none leaves the rest of the pool alone. *)
Fixpoint forkless {S L A} (p : Prog S L A) : Prop :=
  match p with Ret _ => True | Act _ _ k => forall b, forkless (k b) | Fork _ _ => False end.
Lemma exec_alone {S L} (env : S -> S -> Prop) {A} (p : Prog S L A) (q : A -> Prog S L unit) pre post s a t s' :
  forkless p -> exec p s = Some (a, t, s') ->
  pool_steps env (pre ++ prog_bind p q :: post, s) t (pre ++ q a :: post, s').
Proof.
  revert q a s t. induction p as [A a'|A B lab f k IH|A p _ k IH]; intros q a s t Hf E; cbn [exec prog_bind forkless] in *; [| |done].
  - injection E as -> <- <-. constructor.
  - destruct (f s) as [|[b s1] l] eqn:Ef; [done|]. destruct (exec (k b) s1) as [[[a1 t1] s2]|] eqn:Ek; [|done].
    injection E as <- <- <-. eapply steps_trans; [|by apply (IH b q _ s1 t1)]. rewrite <-(app_nil_l (option_list (lab b))).
    eapply pool_snoc; [constructor|]. refine (pool_act env lab f (fun b => prog_bind (k b) q) pre post s b s1 _). rewrite Ef. by left.
Qed.
Lemma exec_turn {S L} (env : S -> S -> Prop) {A} (p : Prog S L A) (q : A -> Prog S L unit) pre post s a t s' u y :
  forkless p -> exec p s = Some (a, t, s') -> pool_steps env (pre ++ q a :: post, s') u y ->
  pool_steps env (pre ++ prog_bind p q :: post, s) (t ++ u) y.
Proof. intros Hf E Hs. eapply steps_trans; [by apply exec_alone|exact Hs]. Qed.
Lemma guarantees_forkless {S L} (G : S -> list L -> S -> Prop) {A} (p : Prog S L A) : guarantees G p -> forkless p.
Proof. induction p as [A a|A B lab f k IH|A p _ k IH]; cbn [guarantees forkless]; [done| |done]. intros [_ Hk] b. by apply IH. Qed.
