(* ===== verification/Stream.v ===== *)
(** * The HTTP/2 stream of a run (src/cursoragentv1/stream.go)

    Opening the request, the proxy's dialer, and the stream object the runner reads and
    writes: the goroutine that performs the exchange and the methods its users call run
    as [Conc] programs over one shared state.  The HTTP/2 library is the environment:
    what the exchange answers is an argument, and it may close the request body. *)
From stdpp Require Import base tactics list gmap strings sorting.
From Stdlib Require Import Strings.Byte.
From S2P Require Import Prelude GoStrings Conc JsonValue Connect Data HostedPolicy Segment Manager Media Effects Translate Credentials SandRun.
Open Scope Z_scope.

Definition agentRunPath : string := "/agent.v1.AgentService/Run".
Definition maxQueuedChunks : nat := 64.
Definition errEOF : Err := ErrOS "EOF".
Definition errClosedPipe : Err := ErrOS "io: read/write on closed pipe".
Definition errNilStream : Err := ErrMsg "Cursor Agent v1 stream is nil".

(** ** Opening *)
(** [tls.Config]: the server name, and all other settings. *)
Record tlsConfig := { tc_ServerName : string; tc_Settings : string }.
Definition new_tls : tlsConfig := {| tc_ServerName := ""; tc_Settings := "" |}.
Definition set_ServerName (name : string) (c : tlsConfig) : tlsConfig := {| tc_ServerName := name; tc_Settings := tc_Settings c |}.
Record streamConfig := {
  sc_BaseURL : string; sc_ProxyURL : string; sc_AccessToken : string; sc_ClientVersion : string; sc_AllowedNativeTools : list string;
  sc_TLSConfig : option tlsConfig }.
(** [net/url.URL]: the parts [Open] looks at or replaces, and the others. *)
Record requestURL := { ru_Scheme : string; ru_Host : string; ru_Path : string; ru_RawQuery : string; ru_Fragment : string; ru_Others : string }.
Definition run_url (base : requestURL) : requestURL :=
  {| ru_Scheme := ru_Scheme base; ru_Host := ru_Host base; ru_Path := trim_slashes (ru_Path base) +:+ agentRunPath; ru_RawQuery := "";
     ru_Fragment := ""; ru_Others := ru_Others base |}.
(** The network libraries: [url.Parse] and [String], [http.NewRequestWithContext],
    [proxyutil.BuildDialer], [net.SplitHostPort], a TLS handshake on a connection. *)
Class Network := {
  dialer : Type;
  connection : Type;
  parse_url : string -> option requestURL;
  url_String : requestURL -> string;
  new_request : string -> string -> option Err;
  build_dialer : string -> result dialer;
  split_host_port : string -> option (string * string);
  tls_handshake : connection -> tlsConfig -> option Err }.

(** What [Open] has created and released so far. *)
Record openState := { op_cancelled : bool; op_readerClosed : bool; op_writerClosed : bool; op_started : bool }.
Definition nothing_open : openState := {| op_cancelled := false; op_readerClosed := false; op_writerClosed := false; op_started := false |}.
Definition released (s : openState) : openState :=
  {| op_cancelled := true; op_readerClosed := true; op_writerClosed := true; op_started := op_started s |}.
Definition start_exchange (s : openState) : openState :=
  {| op_cancelled := op_cancelled s; op_readerClosed := op_readerClosed s; op_writerClosed := op_writerClosed s; op_started := true |}.
(** [cancel(); reader.Close(); writer.Close()], then the error. *)
Definition give_up_open {A} (e : Err) : eff openState A := (emodify released ;;; efail e)%eff.

Section open.
Context `{Network}.

(** The transport: its TLS settings, and the dialer of a proxy when there is one. *)
Record http2Transport := { ht_TLS : option tlsConfig; ht_Dialer : option dialer }.
Definition cursorHTTP2Transport (proxyURL : string) (tls : option tlsConfig) : result http2Transport :=
  let proxyURL := TrimSpace proxyURL in
  if bool_decide (proxyURL = "") then Ok {| ht_TLS := tls; ht_Dialer := None |}
  else
    match build_dialer proxyURL with
    | Fail e => Fail (ErrWrap "configure Cursor Agent v1 proxy: " e)
    | Ok d => Ok {| ht_TLS := tls; ht_Dialer := Some d |}
    end.
(** [transport.DialTLSContext]: [dial] is what [proxyDialContext] answers; the
    connection and its settings, or the error and the connection that was closed. *)
Definition tls_for_conn (clientTLS : option tlsConfig) (addr : string) : tlsConfig :=
  let c := default new_tls clientTLS in
  if bool_decide (tc_ServerName c = "")
  then set_ServerName (match split_host_port addr with Some (host, _) => host | None => addr end) c else c.
Definition DialTLSContext (dial : result connection) (addr : string) (clientTLS : option tlsConfig) : result (connection * tlsConfig) * option connection :=
  match dial with
  | Fail e => (Fail (ErrWrap "dial Cursor Agent v1 proxy: " e), None)
  | Ok conn =>
      let c := tls_for_conn clientTLS addr in
      match tls_handshake conn c with
      | Some e => (Fail (ErrWrap "Cursor Agent v1 proxy TLS handshake: " e), Some conn)
      | None => (Ok (conn, c), None)
      end
  end.

Definition stream_headers (accessToken clientVersion : string) (allowed : list string) : list (string * string) :=
  [("Content-Type", "application/connect+proto"); ("Connect-Protocol-Version", "1"); ("TE", "trailers");
   ("Authorization", "Bearer " +:+ TrimSpace accessToken); ("X-Ghost-Mode", "true"); ("X-Cursor-Client-Version", clientVersion);
   ("X-Cursor-Client-Type", defaultCursorClientType); ("X-Cursor-Streaming", "true"); ("Connect-Accept-Encoding", "gzip,br");
   ("User-Agent", "connect-es/1.6.1"); ("Cookie", cursorRequestCookie accessToken)] ++
  match allowed with [] => [] | _ => [("X-Cursor-Agent-Allowed-Tools", Join allowed ",")] end.
(** The request the stream's goroutine sends. *)
Record openedStream := { os_URL : string; os_Headers : list (string * string); os_Transport : http2Transport }.
Definition Open (cfg : streamConfig) : eff openState openedStream :=
  (match parse_url (trim_slashes (TrimSpace (sc_BaseURL cfg))) with
   | None => efail (ErrMsg "invalid Cursor Agent v1 base URL")
   | Some base =>
       if bool_decide (ru_Scheme base = "") || bool_decide (ru_Host base = "") then efail (ErrMsg "invalid Cursor Agent v1 base URL")
       else if negb (bool_decide (ru_Scheme base = "https")) then efail (ErrMsg ("unsupported Cursor Agent v1 scheme " +:+ Quote (ru_Scheme base)))
       else if blank (sc_AccessToken cfg) then efail (ErrMsg "Cursor Agent v1 access token is required")
       else
         let clientVersion := TrimSpace (sc_ClientVersion cfg) in
         if bool_decide (clientVersion = "") then efail (ErrMsg "Cursor Agent v1 client version is required")
         else
           let url := url_String (run_url base) in
           match new_request "POST" url with
           | Some e => give_up_open (ErrWrap "build Cursor Agent v1 request: " e)
           | None =>
               match cursorHTTP2Transport (sc_ProxyURL cfg) (sc_TLSConfig cfg) with
               | Fail e => give_up_open e
               | Ok transport =>
                   emodify start_exchange ;;;
                   eret {| os_URL := url; os_Headers := stream_headers (sc_AccessToken cfg) clientVersion (sc_AllowedNativeTools cfg);
                           os_Transport := transport |}
               end
           end
   end)%eff.
End open.

(** ** [proxyDialContext] for a dialer that knows no context
    A goroutine dials and offers what it got to a channel of one place; the caller waits
    for it or for the context. *)
Section dial.
Context {C : Type}.
Definition dialed : Type := option C * option Err.
Record dialState := { dr_cancelled : option Err; dr_result : option dialed; dr_closed : list C }.
Definition dial_started : dialState := {| dr_cancelled := None; dr_result := None; dr_closed := [] |}.
Definition cancel_dial (e : Err) (s : dialState) : dialState := {| dr_cancelled := Some e; dr_result := dr_result s; dr_closed := dr_closed s |}.
Definition put_result (r : option dialed) (s : dialState) : dialState := {| dr_cancelled := dr_cancelled s; dr_result := r; dr_closed := dr_closed s |}.
Definition close_conn (c : option C) (s : dialState) : dialState :=
  {| dr_cancelled := dr_cancelled s; dr_result := dr_result s; dr_closed := dr_closed s ++ option_list c |}.
Definition when {A} (b : bool) (a : A) : list A := if b then [a] else [].
Definition offer (d : dialed) : Sect dialState unit :=
  s ← get (fun s => s);
  send ← choose (when (bool_decide (dr_result s = None)) true ++ when (negb (bool_decide (dr_cancelled s = None))) false);
  put (fun s => if send : bool then put_result (Some d) s else close_conn d.1 s).
Definition await : Sect dialState dialed :=
  s ← get (fun s => s);
  answer ← choose (match dr_cancelled s with Some e => [inl e] | None => [] end ++ match dr_result s with Some d => [inr d] | None => [] end);
  match answer with
  | inl e => mret (None, Some e)
  | inr d => _ ← put (put_result None); mret d
  end.
(** [contextual]: what [DialContext] answers, for a dialer that has it. *)
Definition proxyDialContext (contextual : option dialed) (d : dialed) : Prog dialState dialed dialed :=
  match contextual with
  | Some d => mret d
  | None => _ ← fork (atomic (offer d)); labelled (fun d => Some d) await
  end.
Inductive dial_outside : dialState -> dialState -> Prop := dial_cancelled e s : dial_outside s (cancel_dial e s).
End dial.
Arguments dialed : clear implicits.
Arguments dialState : clear implicits.

(** ** The stream object *)
(** [sync.Once]: not entered, entered by a caller that has not finished, finished. *)
Inductive onceState : Type := OnceIdle | OnceRunning | OnceDone.
(** [http2Stream].  The channel [data] is its queue and whether it is closed; the pipe
    is what the exchange has taken out of it and which of its ends are closed; the
    write mutex carries its holder, the payload it writes and the part not taken yet. *)
Record writer := { wr_who : nat; wr_payload : bytes; wr_rest : bytes }.
Record http2Stream := {
  s_cancelled : option Err;
  s_readerClosed : bool; s_writerClosed : bool; s_sent : bytes;
  s_writeMu : option writer;
  s_err : option Err;
  s_data : list bytes; s_dataClosed : bool;
  s_done : bool;
  s_once : onceState }.
Definition new_stream : http2Stream :=
  {| s_cancelled := None; s_readerClosed := false; s_writerClosed := false; s_sent := []; s_writeMu := None; s_err := None;
     s_data := []; s_dataClosed := false; s_done := false; s_once := OnceIdle |}.
Definition put_cancelled (e : Err) (s : http2Stream) : http2Stream :=
  {| s_cancelled := Some (default e (s_cancelled s)); s_readerClosed := s_readerClosed s; s_writerClosed := s_writerClosed s; s_sent := s_sent s;
     s_writeMu := s_writeMu s; s_err := s_err s; s_data := s_data s; s_dataClosed := s_dataClosed s; s_done := s_done s; s_once := s_once s |}.
Definition close_reader (s : http2Stream) : http2Stream :=
  {| s_cancelled := s_cancelled s; s_readerClosed := true; s_writerClosed := s_writerClosed s; s_sent := s_sent s; s_writeMu := s_writeMu s;
     s_err := s_err s; s_data := s_data s; s_dataClosed := s_dataClosed s; s_done := s_done s; s_once := s_once s |}.
Definition close_writer (s : http2Stream) : http2Stream :=
  {| s_cancelled := s_cancelled s; s_readerClosed := s_readerClosed s; s_writerClosed := true; s_sent := s_sent s; s_writeMu := s_writeMu s;
     s_err := s_err s; s_data := s_data s; s_dataClosed := s_dataClosed s; s_done := s_done s; s_once := s_once s |}.
Definition put_writing (m : option writer) (sent : bytes) (s : http2Stream) : http2Stream :=
  {| s_cancelled := s_cancelled s; s_readerClosed := s_readerClosed s; s_writerClosed := s_writerClosed s; s_sent := sent; s_writeMu := m;
     s_err := s_err s; s_data := s_data s; s_dataClosed := s_dataClosed s; s_done := s_done s; s_once := s_once s |}.
Definition put_err (e : option Err) (s : http2Stream) : http2Stream :=
  {| s_cancelled := s_cancelled s; s_readerClosed := s_readerClosed s; s_writerClosed := s_writerClosed s; s_sent := s_sent s;
     s_writeMu := s_writeMu s; s_err := e; s_data := s_data s; s_dataClosed := s_dataClosed s; s_done := s_done s; s_once := s_once s |}.
Definition put_data (l : list bytes) (s : http2Stream) : http2Stream :=
  {| s_cancelled := s_cancelled s; s_readerClosed := s_readerClosed s; s_writerClosed := s_writerClosed s; s_sent := s_sent s;
     s_writeMu := s_writeMu s; s_err := s_err s; s_data := l; s_dataClosed := s_dataClosed s; s_done := s_done s; s_once := s_once s |}.
Definition close_data (s : http2Stream) : http2Stream :=
  {| s_cancelled := s_cancelled s; s_readerClosed := s_readerClosed s; s_writerClosed := s_writerClosed s; s_sent := s_sent s;
     s_writeMu := s_writeMu s; s_err := s_err s; s_data := s_data s; s_dataClosed := true; s_done := s_done s; s_once := s_once s |}.
Definition close_done (s : http2Stream) : http2Stream :=
  {| s_cancelled := s_cancelled s; s_readerClosed := s_readerClosed s; s_writerClosed := s_writerClosed s; s_sent := s_sent s;
     s_writeMu := s_writeMu s; s_err := s_err s; s_data := s_data s; s_dataClosed := s_dataClosed s; s_done := true; s_once := s_once s |}.
Definition put_once (o : onceState) (s : http2Stream) : http2Stream :=
  {| s_cancelled := s_cancelled s; s_readerClosed := s_readerClosed s; s_writerClosed := s_writerClosed s; s_sent := s_sent s;
     s_writeMu := s_writeMu s; s_err := s_err s; s_data := s_data s; s_dataClosed := s_dataClosed s; s_done := s_done s; s_once := o |}.

(** What the users of the stream see: a chunk or the end of [Data], an answer of [Err],
    the answer of a [Write], a [Close] that returned, the end of [Done]. *)
Inductive seen : Type :=
  | Received (chunk : bytes) | ReceivedClosed | SawErr (e : option Err) | Wrote (payload : bytes) (e : option Err) | Closed | SawDone.
Local Notation prog := (Prog http2Stream seen).
Local Notation sect := (Sect http2Stream).

(** *** Errors *)
Definition load_err : sect (option Err) := get s_err.
Definition setErr (e : Err) : sect unit := put (fun s => match s_err s with None => put_err (Some e) s | Some _ => s end).

(** *** [roundTrip]
    What the exchange answers: the error of the request, or the status and what each
    [Read] of the body gives; a list that ends without an error is a server that stays
    silent.  A context that is done ends any of these waits with its error. *)
Abbreviation reads := (list (bytes * option Err)).
Definition response : Type := result (Z * reads).
Definition or_cancelled {A} (answers : list A) (cancelled : Err -> A) : sect A :=
  s ← get s_cancelled; choose (answers ++ match s with Some e => [cancelled e] | None => [] end).
Definition request_error (e : Err) : Err := ErrWrap "Cursor Agent v1 HTTP/2 request: " e.
Definition read_error (e : Err) : Err := ErrWrap "read Cursor Agent v1 HTTP/2 response: " e.
Definition status_error (code : Z) : Err := ErrHTTP code ("Cursor Agent v1 upstream HTTP " +:+ Itoa code).
(** [None]: the error is not recorded. *)
Definition recorded_request (e : Err) : option Err :=
  if negb (errors_is e ErrContextCanceled) && negb (errors_is e errClosedPipe) then Some (request_error e) else None.
Definition recorded_read (e : Err) : option Err :=
  if negb (errors_is e errEOF) && negb (errors_is e ErrContextCanceled) then Some (read_error e) else None.
Definition record_error (e : option Err) : prog unit := match e with Some e => atomic (setErr e) | None => mret tt end.
(** [select] between the channel and the context: whether the chunk was sent. *)
Definition send_chunk (chunk : bytes) : sect bool :=
  s ← get (fun s => s);
  sent ← choose ((if (length (s_data s) <? maxQueuedChunks)%nat then [true] else []) ++ match s_cancelled s with Some _ => [false] | None => [] end);
  _ ← put (fun s => if sent : bool then put_data (s_data s ++ [chunk]) s else s);
  mret sent.
Definition next_read (reads : reads) : sect (bytes * option Err) :=
  or_cancelled (match reads with r :: _ => [r] | [] => [] end) (fun e => ([], Some e)).
(** One turn of the loop on what was read; the error that ends it, if any. *)
Definition after_read (r : bytes * option Err) (more : prog unit) : prog unit :=
  sent ← match r.1 with [] => mret true | chunk => atomic (send_chunk chunk) end;
  if negb (sent : bool) then mret tt else match r.2 with Some e => record_error (recorded_read e) | None => more end.
Fixpoint read_loop (reads : reads) : prog unit :=
  r ← atomic (next_read reads); after_read r (match reads with _ :: reads => read_loop reads | [] => mret tt end).
Definition exchange (response : response) : prog unit :=
  answer ← atomic (or_cancelled [response] Fail);
  match answer with
  | Fail e => record_error (recorded_request e)
  | Ok (code, reads) => if negb (code =? 200) then record_error (Some (status_error code)) else read_loop reads
  end.
(** The deferred calls, last first. *)
Definition roundTrip (response : response) : prog unit :=
  _ ← exchange response;
  _ ← atomic (put close_data);
  atomic (put close_done).

(** *** Methods *)
(** Take the write mutex for a payload; [me] is the calling goroutine. *)
Definition lock_write (me : nat) (payload : bytes) : sect unit :=
  m ← get s_writeMu;
  match m with
  | Some _ => block
  | None => put (fun s => put_writing (Some {| wr_who := me; wr_payload := payload; wr_rest := payload |}) (s_sent s) s)
  end.
Definition unlock_write : sect unit := put (fun s => put_writing None (s_sent s) s).
(** [io.Pipe]'s [Write]: it fails once an end is closed, also halfway; otherwise the
    exchange takes the payload out, here byte by byte. *)
Definition pipe_open : sect (option Err) := s ← get (fun s => s); mret (if s_readerClosed s || s_writerClosed s then Some errClosedPipe else None).
Definition take_byte : sect (option Err) :=
  closed ← pipe_open;
  match closed with
  | Some e => mret (Some e)
  | None =>
      _ ← put (fun s => match s_writeMu s with
                        | Some {| wr_who := me; wr_payload := payload; wr_rest := b :: rest |} =>
                            put_writing (Some {| wr_who := me; wr_payload := payload; wr_rest := rest |}) (s_sent s ++ [b]) s
                        | _ => s end);
      mret None
  end.
Fixpoint pipe_bytes (n : nat) : prog (option Err) :=
  match n with
  | O => mret None
  | S n => e ← atomic take_byte; match e with Some e => mret (Some e) | None => pipe_bytes n end
  end.
Definition pipe_write (payload : bytes) : prog (option Err) :=
  closed ← atomic pipe_open; match closed with Some e => mret (Some e) | None => pipe_bytes (length payload) end.
Definition write_error (e : Err) : Err := ErrWrap "write Cursor Agent v1 request: " e.
(** Unlocking, with what [Write] answers. *)
Definition end_write (payload : bytes) (answer : option Err) : prog (option Err) :=
  _ ← labelled (fun _ => Some (Wrote payload answer)) unlock_write;
  mret answer.
(** [nonnil]: whether the receiver is a stream. *)
Definition Write (nonnil : bool) (me : nat) (payload : bytes) : prog (option Err) :=
  if negb nonnil then mret (Some errNilStream)
  else
    _ ← atomic (lock_write me payload);
    failed ← atomic load_err;
    match failed with
    | Some e => end_write payload (Some e)
    | None => e ← pipe_write payload; end_write payload (write_error <$> e)
    end.
Definition stream_Err (nonnil : bool) : prog (option Err) :=
  if negb nonnil then mret (Some errNilStream) else labelled (fun e => Some (SawErr e)) load_err.
(** Receiving from [Data()]; [None]: it is closed and empty. *)
Definition receive_data : prog (option bytes) :=
  labelled (fun r => Some (match r with Some chunk => Received chunk | None => ReceivedClosed end))
    (s ← get (fun s => s);
     match s_data s with
     | chunk :: rest => _ ← put (put_data rest); mret (Some chunk)
     | [] => if s_dataClosed s then mret None else block
     end).
(** Waiting for [Done()]. *)
Definition wait_done : prog unit := labelled (fun _ => Some SawDone) (d ← get s_done; if d : bool then mret tt else block).
(** The body of the [Once], and [Close]: a second caller waits for the first. *)
Definition close_body : prog unit :=
  _ ← atomic (put (put_cancelled ErrContextCanceled)); _ ← atomic (put close_writer); _ ← atomic (put close_reader); atomic (put (put_once OnceDone)).
Definition enter_once : sect bool :=
  o ← get s_once;
  match o with OnceIdle => _ ← put (put_once OnceRunning); mret true | OnceRunning => block | OnceDone => mret false end.
Definition Close (nonnil : bool) : prog unit :=
  if negb nonnil then mret tt
  else
    first ← atomic enter_once;
    _ ← (if first : bool then close_body else mret tt);
    labelled (fun _ => Some Closed) (mret tt).

(** *** Its users
    The runner reads [Data] and, when it is closed, [Err]; it and its heartbeat write. *)
Inductive call : Type := CallWrite (payload : bytes) | CallReceive | CallErr | CallClose | CallDone.
Definition run_call (me : nat) (c : call) : prog unit :=
  match c with
  | CallWrite payload => _ ← Write true me payload; mret tt
  | CallReceive => _ ← receive_data; mret tt
  | CallErr => _ ← stream_Err true; mret tt
  | CallClose => Close true
  | CallDone => wait_done
  end.
Definition user (me : nat) (calls : list call) : prog unit := prog_each calls (run_call me).
Fixpoint user_pool (me : nat) (users : list (list call)) : list (prog unit) :=
  match users with [] => [] | u :: users => user me u :: user_pool (S me) users end.
(** The context of the run ends; the HTTP/2 library closes the request body. *)
Inductive outside : http2Stream -> http2Stream -> Prop :=
  | outside_cancel e s : outside s (put_cancelled e s)
  | outside_body s : outside s (close_reader s).
Definition stream_reachable (response : response) (users : list (list call)) (t : list seen) (s : http2Stream) : Prop :=
  exists ps, pool_steps outside (roundTrip response :: user_pool 1 users, new_stream) t (ps, s).
