(* ===== verification/StreamProps.v ===== *)
(** * The stream delivers the response and sends whole frames (src/cursoragentv1/stream.go)

    Over every interleaving of the exchange with any users: what the runner receives is
    a queue's view of the response's body, ending with its error; what the server
    receives is the written payloads, never interleaved. *)
From stdpp Require Import base tactics list gmap strings sorting.
From Stdlib Require Import Strings.Byte.
From S2P Require Import Prelude GoStrings Conc Rely Data Connect Credentials Translate Effects Runner Stream.
Open Scope Z_scope.

(** ** What the users have seen *)
Definition received (t : list seen) : list bytes := omap (fun x => match x with Received c => Some c | _ => None end) t.
(** The payloads whose [Write] succeeded, in order. *)
Definition written (t : list seen) : list bytes := omap (fun x => match x with Wrote p None => Some p | _ => None end) t.
(** The inputs the runner takes from the stream: chunks, then the end with the error
    [Err] gives after the channel was found closed. *)
Inductive readerMode : Type := Reading | Ended | Told.
Definition feed (x : list input * readerMode) (y : seen) : list input * readerMode :=
  match x.2, y with
  | Reading, Received c => (x.1 ++ [Chunk c], Reading)
  | Reading, ReceivedClosed => (x.1, Ended)
  | Ended, SawErr e => (x.1 ++ [DataClosed e], Told)
  | _, _ => x
  end.
Definition reader (t : list seen) : list input * readerMode := foldl feed ([], Reading) t.
Definition runner_inputs (t : list seen) : list input := (reader t).1.

(** ** What the response amounts to *)
Definition chunk_of (data : bytes) : list bytes := match data with [] => [] | _ => [data] end.
Fixpoint delivered (rs : reads) : list bytes :=
  match rs with
  | [] => []
  | (data, e) :: rs => chunk_of data ++ match e with Some _ => [] | None => delivered rs end
  end.
Fixpoint reads_end (rs : reads) : option Err :=
  match rs with [] => None | (_, Some e) :: _ => Some e | (_, None) :: rs => reads_end rs end.
Definition response_chunks (r : response) : list bytes :=
  match r with Ok (code, rs) => if code =? 200 then delivered rs else [] | Fail _ => [] end.
(** The error the stream ends with; [None]: the server stays silent. *)
Definition response_end (r : response) : option (option Err) :=
  match r with
  | Fail e => Some (recorded_request e)
  | Ok (code, rs) => if code =? 200 then recorded_read <$> reads_end rs else Some (Some (status_error code))
  end.

Lemma received_app t u : received (t ++ u) = received t ++ received u.
Proof. apply omap_app. Qed.
Lemma written_app t u : written (t ++ u) = written t ++ written u.
Proof. apply omap_app. Qed.
Lemma reader_snoc t x : reader (t ++ [x]) = feed (reader t) x.
Proof. unfold reader. by rewrite foldl_app. Qed.

(** ** What the users and the environment can do to the reading side *)
Definition data_rely (s : http2Stream) (u : list seen) (s' : http2Stream) : Prop :=
  s_err s' = s_err s /\ s_dataClosed s' = s_dataClosed s /\ s_done s' = s_done s /\
  (s_cancelled s <> None -> s_cancelled s' <> None) /\
  match u with
  | [] | [Wrote _ _] | [Closed] => s_data s' = s_data s
  | [Received c] => s_data s = c :: s_data s'
  | [ReceivedClosed] => s_data s = [] /\ s_data s' = [] /\ s_dataClosed s = true
  | [SawErr e] => s_data s' = s_data s /\ e = s_err s
  | [SawDone] => s_data s' = s_data s /\ s_done s = true
  | _ => False
  end.
(** Where the reading side is: the chunks sent, the error, what is closed. *)
Definition at_ (sent : list bytes) (err : option Err) (closed done : bool) (known : Prop) (t : list seen) (s : http2Stream) : Prop :=
  received t ++ s_data s = sent /\ s_err s = err /\ s_dataClosed s = closed /\ s_done s = done /\
  (length (s_data s) <= maxQueuedChunks)%nat /\ (SawDone ∈ t -> done = true) /\
  (s_cancelled s <> None \/ known) /\
  match (reader t).2 with
  | Reading => runner_inputs t = Chunk <$> received t
  | Ended => runner_inputs t = Chunk <$> received t /\ closed = true /\ s_data s = []
  | Told => runner_inputs t = (Chunk <$> received t) ++ [DataClosed err] /\ closed = true /\ s_data s = []
  end.

Lemma at_mono sent err closed done (K K' : Prop) t s : (K -> K') -> at_ sent err closed done K t s -> at_ sent err closed done K' t s.
Proof. unfold at_. intros HK ?. naive_solver. Qed.

Lemma at_rely sent err closed done K t s u s' :
  at_ sent err closed done K t s -> data_rely s u s' -> at_ sent err closed done K (t ++ u) s'.
Proof.
  intros (H1 & H2 & H3 & H4 & H5 & H6 & H7 & H8) (R1 & R2 & R3 & R4 & R5). unfold at_, runner_inputs in *.
  rewrite received_app. destruct u as [|x [|y u]]; [|destruct x|by destruct x]; cbn [received omap list_omap option_list] in *.
  - rewrite !app_nil_r, R1, R2, R3, R5. split_and!; auto. naive_solver.
  - rewrite R1, R2, R3, R5 in *. rewrite reader_snoc. cbn [length app] in *. split_and!; auto.
    + by rewrite <-app_assoc.
    + lia.
    + intros [?|E%list_elem_of_singleton]%elem_of_app; [by apply H6|done].
    + naive_solver.
    + destruct (reader t) as [l m]; cbn [fst snd] in *. destruct m; cbn [feed fst snd]; [by rewrite H8, fmap_app|naive_solver..].
  - destruct R5 as (D & D' & C). rewrite R1, R2, R3, D' in *. rewrite D in *. rewrite !app_nil_r in *. rewrite reader_snoc. split_and!; auto.
    + intros [?|E%list_elem_of_singleton]%elem_of_app; [by apply H6|done].
    + naive_solver.
    + destruct (reader t) as [l m]; cbn [fst snd] in *. destruct m; cbn [feed fst snd]; [|done..]. split_and!; [done| |done]. congruence.
  - destruct R5 as [D E]. rewrite R1, R2, R3, D in *. rewrite !app_nil_r. rewrite reader_snoc. split_and!; auto.
    + intros [?|E'%list_elem_of_singleton]%elem_of_app; [by apply H6|done].
    + naive_solver.
    + destruct (reader t) as [l m]; cbn [fst snd] in *. destruct m; cbn [feed fst snd]; [done| |done]. subst. destruct H8 as (-> & ? & ?). by split_and!.
  - rewrite R1, R2, R3, R5 in *. destruct e; rewrite !app_nil_r; rewrite reader_snoc; split_and!; auto; [|naive_solver| | |naive_solver|].
    all: try (intros [?|E'%list_elem_of_singleton]%elem_of_app; [by apply H6|done]).
    all: destruct (reader t) as [l []]; exact H8.
  - rewrite R1, R2, R3, R5 in *. rewrite !app_nil_r, reader_snoc. split_and!; auto.
    + intros [?|E'%list_elem_of_singleton]%elem_of_app; [by apply H6|done].
    + naive_solver.
    + destruct (reader t) as [l []]; exact H8.
  - destruct R5 as [D E]. rewrite R1, R2, R3, D in *. rewrite !app_nil_r, reader_snoc. split_and!; auto.
    + intros _. congruence.
    + naive_solver.
    + destruct (reader t) as [l []]; exact H8.
Qed.

(** Every call of a user keeps to it. *)
Ltac quiet := intros ? ? ? ?; sect; by unfold data_rely.
Lemma guarantees_write me p : guarantees data_rely (Write true me p).
Proof.
  assert (forall e, guarantees data_rely (end_write p e)) as He.
  { intros e. apply guarantees_bind; [|done]. apply guarantees_act. unfold unlock_write. destruct e; quiet. }
  assert (forall n, guarantees data_rely (pipe_bytes n)) as Hn.
  { induction n as [|n IH]; cbn [pipe_bytes]; [done|]. apply guarantees_bind; [|by intros []]. apply guarantees_act.
    intros s b s' Hb. unfold take_byte, pipe_open in Hb. sect; try by unfold data_rely. destruct (s_writeMu s) as [[w q [|c r]]|]; by unfold data_rely. }
  unfold Write, lock_write, load_err. cbn [negb]. apply guarantees_bind; [apply guarantees_act; quiet|intros _].
  apply guarantees_bind; [apply guarantees_act; quiet|]. intros [e|]; [done|].
  apply guarantees_bind; [|done]. apply guarantees_bind; [|by intros []]. apply guarantees_act. unfold pipe_open. quiet.
Qed.
Lemma guarantees_close : guarantees data_rely (Close true).
Proof.
  unfold Close, close_body, enter_once. cbn [negb]. apply guarantees_bind; [apply guarantees_act; quiet|]. intros first.
  apply guarantees_bind; [destruct first; [|done]|intros _; apply guarantees_act; quiet].
  repeat (apply guarantees_bind; [apply guarantees_act; quiet|intros _]). apply guarantees_act. quiet.
Qed.
Lemma guarantees_call me c : guarantees data_rely (run_call me c).
Proof.
  destruct c; cbn [run_call]; try (apply guarantees_bind; [|done]); [apply guarantees_write| | |apply guarantees_close|];
    apply guarantees_act; unfold load_err; quiet.
Qed.
Lemma guarantees_user me u : guarantees data_rely (user me u).
Proof. apply guarantees_each, guarantees_call. Qed.
(** The exchange is goroutine 0. *)
Definition users_guar (i : nat) : http2Stream -> list seen -> http2Stream -> Prop := match i with O => fun _ _ _ => True | S _ => data_rely end.
Lemma outside_rely s s' : outside s s' -> data_rely s [] s'.
Proof. intros []; by unfold data_rely. Qed.
Lemma rely_zero s u s' : rely outside users_guar 0 s u s' -> data_rely s u s'.
Proof. intros [[-> H]|([|j] & Hj & H)]; [by apply outside_rely|done|exact H]. Qed.

(** ** The outline of the exchange *)
Lemma at_stable sent err closed done K : stable outside users_guar 0 (at_ sent err closed done K).
Proof. intros t s u s' Ha Hr%rely_zero. by eapply at_rely. Qed.
Section round_trip.
Context (r : response).
(** What holds at every moment: the chunks sent are a prefix of the response's, and
    unless the context was done, an error or the end of [data] is the response's. *)
Definition delivers : assertion http2Stream seen := fun t s =>
  exists sent err closed done,
    at_ sent err closed done ((err <> None \/ closed = true) -> sent = response_chunks r /\ response_end r = Some err) t s /\
    sent `prefix_of` response_chunks r /\ (done = true -> closed = true).
Definition maintained (i : nat) : assertion http2Stream seen := match i with O => delivers | S _ => fun _ _ => True end.
Definition ended (closed done : bool) : unit -> assertion http2Stream seen := fun _ t s =>
  exists sent err, sent `prefix_of` response_chunks r /\
    at_ sent err closed done (sent = response_chunks r /\ response_end r = Some err) t s.

Lemma at_delivers sent err closed done (K : Prop) t s :
  sent `prefix_of` response_chunks r -> (done = true -> closed = true) ->
  (K -> (err <> None \/ closed = true) -> sent = response_chunks r /\ response_end r = Some err) ->
  at_ sent err closed done K t s -> delivers t s.
Proof. intros Hp Hd HK Ha. exists sent, err, closed, done. split_and!; [|done|done]. by eapply at_mono. Qed.
Lemma ended_stable closed done x : stable outside users_guar 0 (ended closed done x).
Proof. intros t s u s' (sent & err & Hp & Ha) Hr. exists sent, err. split; [done|]. by eapply at_stable. Qed.
Lemma ended_delivers closed done x t s : (done = true -> closed = true) -> ended closed done x t s -> delivers t s.
Proof. intros Hd (sent & err & Hp & Ha). eapply (at_delivers _ _ closed done); [done|done| |exact Ha]. by intros ? _. Qed.

(** A step of the exchange emits nothing. *)
Lemma at_quiet sent err closed done K t s sent' err' closed' done' (K' : Prop) s' :
  at_ sent err closed done K t s ->
  s_data s' = s_data s ++ drop (length sent) sent' -> sent' = sent ++ drop (length sent) sent' ->
  s_err s' = err' -> s_dataClosed s' = closed' -> s_done s' = done' -> (length (s_data s') <= maxQueuedChunks)%nat ->
  (closed = true -> closed' = true /\ sent' = sent /\ err' = err) -> (done = true -> done' = true) ->
  (s_cancelled s' <> None \/ K') -> at_ sent' err' closed' done' K' (t ++ []) s'.
Proof.
  intros (H1 & H2 & H3 & H4 & H5 & H6 & H7 & H8) D E R1 R2 R3 R4 Hc Hd HK. rewrite app_nil_r. unfold at_. split_and!; auto.
  - by rewrite D, app_assoc, H1.
  - destruct ((reader t).2); [done| |].
    + destruct H8 as (? & -> & D0). destruct Hc as (-> & -> & ->); [done|]. rewrite drop_all in D. rewrite D, app_nil_r. by split_and!.
    + destruct H8 as (? & -> & D0). destruct Hc as (-> & -> & ->); [done|]. rewrite drop_all in D. rewrite D, app_nil_r. by split_and!.
Qed.
Lemma record_outline sent e :
  sent `prefix_of` response_chunks r ->
  outline outside users_guar maintained 0 (record_error e) (at_ sent None false false (sent = response_chunks r /\ response_end r = Some e)) (ended false false).
Proof.
  intros Hp. assert (forall t s, at_ sent None false false (sent = response_chunks r /\ response_end r = Some e) t s -> delivers t s) as Hd.
  { intros t s Ha. eapply (at_delivers _ _ false false); [done|done| |exact Ha]. by intros _ [?|?]. }
  destruct e as [e|]; cbn [record_error].
  - apply outline_act; [apply at_stable|done|apply ended_stable|intros; by eapply (ended_delivers false false)|].
    intros t s [] s' Ha Hs. split; [done|]. unfold setErr in Hs. sect. exists sent, (Some e). split; [done|].
    pose proof Ha as (H1 & H2 & H3 & H4 & H5 & H6 & H7 & H8). rewrite H2.
    eapply at_quiet; [exact Ha|..]; cbn; rewrite ?drop_all, ?app_nil_r; auto; done.
  - apply outline_ret; [apply at_stable|done|]. intros t s Ha. by exists sent, None.
Qed.
Lemma running_delivers sent K t s : sent `prefix_of` response_chunks r -> at_ sent None false false K t s -> delivers t s.
Proof. intros Hp Ha. eapply (at_delivers _ _ false false); [done|done| |exact Ha]. by intros _ [?|?]. Qed.
Lemma send_outline sent chunk K :
  sent ++ [chunk] `prefix_of` response_chunks r ->
  outline outside users_guar maintained 0 (atomic (send_chunk chunk)) (at_ sent None false false K)
    (fun b : bool => if b then at_ (sent ++ [chunk]) None false false K else at_ sent None false false False).
Proof.
  intros Hp. assert (sent `prefix_of` response_chunks r) as Hp' by (by (destruct Hp as [k ->]; exists ([chunk] ++ k); by rewrite app_assoc)).
  apply outline_act; [apply at_stable|intros; (eapply running_delivers; [|eassumption]; done)|intros []; apply at_stable|intros [] ? ? ?; (eapply running_delivers; [|eassumption]; done)|].
  intros t s b s' Ha Hs. split; [done|]. pose proof Ha as (H1 & H2 & H3 & H4 & H5 & H6 & H7 & H8). unfold send_chunk in Hs.
  apply sect_bind in Hs as (s0 & s1 & E & Hs). apply sect_get in E as [-> ->].
  apply sect_bind in Hs as (sent0 & s2 & E & Hs). apply sect_choose in E as [E ->].
  apply sect_bind in Hs as ([] & s3 & E' & Hs). apply sect_put in E' as ->. apply sect_ret in Hs as [-> ->].
  apply elem_of_app in E as [E|E].
  - destruct (length (s_data s) <? maxQueuedChunks)%nat eqn:C; [|by apply not_elem_of_nil in E].
    apply list_elem_of_singleton in E as ->. apply Nat.ltb_lt in C.
    eapply at_quiet; [exact Ha|..]; cbn; rewrite ?drop_app_length; auto; [|done]. rewrite length_app. cbn. lia.
  - destruct (s_cancelled s) eqn:C; [|by apply not_elem_of_nil in E]. apply list_elem_of_singleton in E as ->.
    eapply at_quiet; [exact Ha|..]; cbn; rewrite ?drop_all, ?app_nil_r; auto. left. by rewrite C.
Qed.
Lemma after_outline x more sent K :
  sent ++ chunk_of x.1 `prefix_of` response_chunks r ->
  match x.2 with
  | Some e => K -> sent ++ chunk_of x.1 = response_chunks r /\ response_end r = Some (recorded_read e)
  | None => outline outside users_guar maintained 0 more (at_ (sent ++ chunk_of x.1) None false false K) (ended false false)
  end ->
  outline outside users_guar maintained 0 (after_read x more) (at_ sent None false false K) (ended false false).
Proof.
  intros Hp Hm. unfold after_read.
  assert (outline outside users_guar maintained 0 (match x.2 with Some e => record_error (recorded_read e) | None => more end)
            (at_ (sent ++ chunk_of x.1) None false false K) (ended false false)) as Hrest.
  { destruct (x.2) as [e|]; [|done]. eapply outline_pre; [by apply record_outline|apply at_stable|]. intros t s Ha. by eapply at_mono. }
  destruct (x.1) as [|c data] eqn:D; cbn [chunk_of] in *.
  - rewrite app_nil_r in *. exact Hrest.
  - eapply outline_bind; [by apply send_outline|]. intros []; cbn [negb]; [exact Hrest|].
    assert (sent `prefix_of` response_chunks r) as Hp' by (by (destruct Hp as [k ->]; exists ((c :: data) :: k); by rewrite <-app_assoc)).
    apply outline_ret; [apply at_stable|intros; (eapply running_delivers; [|eassumption]; done)|].
    intros t s Ha. exists sent, None. split; [done|]. eapply at_mono; [|exact Ha]; intros [].
Qed.
Lemma next_read_answers rs x s s' :
  (x, s') ∈ next_read rs s -> s' = s /\ (head rs = Some x \/ (x.1 = [] /\ x.2 <> None /\ s_cancelled s <> None)).
Proof.
  unfold next_read, or_cancelled. intros Hx. sect. split; [done|].
  match goal with H : _ ∈ _ ++ _ |- _ => apply elem_of_app in H as [E|E] end.
  - left. destruct rs as [|y rs]; [by apply not_elem_of_nil in E|]. by apply list_elem_of_singleton in E as ->.
  - right. destruct (s_cancelled s); [|by apply not_elem_of_nil in E]. by apply list_elem_of_singleton in E as ->.
Qed.
(** One turn: what was read comes from the response, or the context is done. *)
Lemma turn_outline rs sent more :
  sent `prefix_of` response_chunks r ->
  (forall x, head rs = Some x -> outline outside users_guar maintained 0 (after_read x more) (at_ sent None false false True) (ended false false)) ->
  outline outside users_guar maintained 0 (x ← atomic (next_read rs); after_read x more) (at_ sent None false false True) (ended false false).
Proof.
  intros Hp Ho. apply (outline_then _ _ _ _ _ _ _ _ (fun x => at_ sent None false false (head rs = Some x)));
    [apply at_stable|intros; (eapply running_delivers; [|eassumption]; done)| |].
  - intros t s x s' Ha [-> Hx]%next_read_answers. split; [done|]. cbn [option_list]. rewrite app_nil_r. unfold at_ in *. naive_solver.
  - intros x (s & s' & [-> [Hx|(Hd & Hx & _)]]%next_read_answers).
    + eapply outline_pre; [by apply Ho|apply at_stable|]. intros t s1 Ha. by eapply at_mono.
    + destruct x as [d [e|]]; [|done]. cbn [fst] in Hd. subst d. destruct (decide (head rs = Some ([], Some e))) as [E|E].
      * eapply outline_pre; [by apply Ho|apply at_stable|]. intros t s1 Ha. by eapply at_mono.
      * apply after_outline; cbn [fst snd chunk_of]; rewrite app_nil_r; done.
Qed.
Lemma read_outline rs : forall sent,
  sent ++ delivered rs = response_chunks r -> recorded_read <$> reads_end rs = response_end r ->
  outline outside users_guar maintained 0 (read_loop rs) (at_ sent None false false True) (ended false false).
Proof.
  induction rs as [|y rs IH]; intros sent Hs He; cbn [read_loop]; (apply turn_outline; [rewrite <-Hs; by eexists|]); [done|].
  intros x [= <-]. destruct y as [d [e|]]; cbn [delivered reads_end] in *; apply after_outline; cbn [fst snd].
  - exists []. rewrite <-Hs. by rewrite !app_nil_r.
  - intros _. split; [rewrite <-Hs; by rewrite !app_nil_r|done].
  - exists (delivered rs). rewrite <-Hs. by rewrite <-app_assoc.
  - apply IH; [rewrite <-Hs; by rewrite <-app_assoc|done].
Qed.
Lemma exchange_outline : outline outside users_guar maintained 0 (exchange r) (at_ [] None false false True) (ended false false).
Proof.
  assert ([] `prefix_of` response_chunks r) as Hp by apply prefix_nil. unfold exchange.
  apply (outline_then _ _ _ _ _ _ _ _ (fun x => at_ [] None false false (x = r)));
    [apply at_stable|intros; (eapply running_delivers; [|eassumption]; done)| |].
  - intros t s x s' Ha Hx. split; [done|]. unfold or_cancelled in Hx. sect. cbn [option_list]. rewrite app_nil_r.
    match goal with H : _ ∈ _ ++ _ |- _ => apply elem_of_app in H as [E|E] end.
    + apply list_elem_of_singleton in E as ->. unfold at_ in *. naive_solver.
    + destruct (s_cancelled s) eqn:C; [|by apply not_elem_of_nil in E]. unfold at_ in *. naive_solver.
  - intros x (s & s' & Hx). unfold or_cancelled in Hx. sect.
    assert (x = r \/ exists e, x = Fail e) as Hxr.
    { match goal with H : _ ∈ _ ++ _ |- _ => apply elem_of_app in H as [E|E] end; [left; by apply list_elem_of_singleton in E|right].
      destruct (s_cancelled s); [|by apply not_elem_of_nil in E]. apply list_elem_of_singleton in E as ->. eauto. }
    destruct x as [[code rs]|e].
    + destruct Hxr as [Hr|[? ?]]; [|done]. unfold response_chunks, response_end in *. destruct (code =? 200) eqn:C; cbn [negb].
      * eapply outline_pre; [apply (read_outline rs []); unfold response_chunks, response_end; by rewrite <-Hr, C|apply at_stable|].
        intros t s1 Ha. by eapply at_mono.
      * eapply outline_pre; [by apply record_outline|apply at_stable|]. intros t s1 Ha. eapply at_mono; [|exact Ha].
        intros _. unfold response_chunks, response_end. by rewrite <-Hr, C.
    + eapply outline_pre; [by apply record_outline|apply at_stable|]. intros t s1 Ha. eapply at_mono; [|exact Ha].
      intros Hr. unfold response_chunks, response_end. by rewrite <-Hr.
Qed.
Lemma round_trip_outline : outline outside users_guar maintained 0 (roundTrip r) (at_ [] None false false True) (fun _ _ _ => True).
Proof.
  unfold roundTrip. eapply outline_bind; [apply exchange_outline|]. intros u.
  assert (forall f closed done (closed' done' : bool), (forall s, s_data (f s) = s_data s /\ s_err (f s) = s_err s /\ s_cancelled (f s) = s_cancelled s /\
            (s_dataClosed s = closed -> s_dataClosed (f s) = closed') /\ (s_done s = done -> s_done (f s) = done')) ->
          (done = true -> closed = true) -> (done' = true -> closed' = true) -> (closed = true -> closed' = true) -> (done = true -> done' = true) ->
          forall u, outline outside users_guar maintained 0 (atomic (put f)) (ended closed done u) (ended closed' done')) as Hstep.
  { intros f closed done closed' done' Hf H1 H2 H3 H4 v.
    apply outline_act; [apply ended_stable|intros; by eapply (ended_delivers closed done)|apply ended_stable|intros; by eapply (ended_delivers closed' done')|].
    intros t s [] s' (sent & err & Hp & Ha) ->%sect_put. split; [done|]. exists sent, err. split; [done|]. destruct (Hf s) as (F1 & F2 & F3 & F4 & F5).
    pose proof Ha as (A1 & A2 & A3 & A4 & A5 & A6 & A7 & A8).
    eapply at_quiet; [exact Ha|..]; cbn [option_list]; rewrite ?drop_all, ?app_nil_r, ?F1, ?F2, ?F3; auto. }
  eapply outline_bind; [by apply (Hstep close_data false false true false)|]. intros v.
  eapply outline_post; [by apply (Hstep close_done true false true true)|done].
Qed.
End round_trip.

(** ** The stream refines a queue of the response's chunks *)
(** What a runner that reads to the end takes from a response. *)
Definition response_inputs (r : response) : list input :=
  (Chunk <$> response_chunks r) ++ match response_end r with Some e => [DataClosed e] | None => [] end.
Lemma users_outlined r me users t s : outlined outside users_guar (maintained r) (S me) t (user_pool (S me) users) s.
Proof.
  revert me. induction users as [|u users IH]; intros me; cbn [user_pool outlined]; [done|]. split; [|apply IH].
  exists (fun _ _ => True). split; [|done]. eapply outline_post; [apply (outline_guarantees outside users_guar (maintained r) (S me)); try done; apply guarantees_user|done].
Qed.
Lemma stream_delivers r users t s : stream_reachable r users t s -> delivers r t s.
Proof.
  intros [ps Hr]. eapply (outlined_first outside users_guar (maintained r)); [|exact Hr]. cbn [outlined]. split; [|apply users_outlined].
  exists (at_ [] None false false True). split; [apply round_trip_outline|].
  unfold at_. cbn. split_and!; try done; [lia|by intros ?%not_elem_of_nil|by right].
Qed.

(** C29 However the exchange, the runner, its heartbeat and any callers of Close
    interleave, what was received and what is queued is a prefix of the chunks of the
    response, at most 64 are queued, Done comes after Data is closed, and unless the
    context was done the runner's inputs are a prefix of the chunks of the response
    followed by the end with its error (the network's, the HTTP status, or none). *)
Theorem stream_refines_response (r : response) (users : list (list call)) (t : list seen) (s : http2Stream) :
  stream_reachable r users t s ->
  received t ++ s_data s `prefix_of` response_chunks r /\ (length (s_data s) <= maxQueuedChunks)%nat /\
  (SawDone ∈ t -> s_dataClosed s = true) /\
  (s_cancelled s = None ->
     runner_inputs t `prefix_of` response_inputs r /\
     (s_dataClosed s = true -> received t ++ s_data s = response_chunks r /\ response_end r = Some (s_err s))).
Proof.
  intros (sent & err & closed & done & (H1 & H2 & H3 & H4 & H5 & H6 & H7 & H8) & Hp & Hd)%stream_delivers.
  split_and!; [by rewrite H1|done|rewrite H3; auto|]. intros Hc.
  destruct H7 as [?|HK]; [done|]. split; [|intros E; rewrite H2, <-H1 in *; apply HK; right; congruence].
  unfold response_inputs. destruct ((reader t).2).
  - rewrite H8. destruct Hp as [k ->]. rewrite <-H1, !fmap_app, <-!app_assoc. by eexists.
  - destruct H8 as (-> & -> & D). destruct HK as [<- E]; [by right|]. rewrite <-H1, D, E, app_nil_r. by eexists.
  - destruct H8 as (-> & -> & D). destruct HK as [<- E]; [by right|]. rewrite <-H1, D, E, app_nil_r. done.
Qed.

(** ** A dialled connection can be lost
    The caller leaves when its context is done; the dialling goroutine may still put its
    connection into the channel, where nobody takes it or closes it. *)
Definition finished_all {S L} (ps : list (Prog S L unit)) : Prop := Forall (fun p => p = Ret tt) ps.
Lemma dial_leaks {C} (conn : C) :
  exists ps s, pool_steps dial_outside ([_ ← proxyDialContext None (Some conn, None); mret tt], dial_started) [(None, Some ErrContextCanceled)] (ps, s) /\
    finished_all ps /\ dr_closed s = [] /\ dr_result s = Some (Some conn, None).
Proof.
  eexists _, _. split.
  - change [(None, Some ErrContextCanceled)] with ([] ++ [] ++ [(@None C, Some ErrContextCanceled)] ++ @nil (dialed C)).
    unfold proxyDialContext, mbind, Prog_bind, fork, labelled, atomic. cbn [prog_bind].
    eapply steps_trans; [eapply (pool_snoc _ _ []); [constructor|apply (pool_fork _ _ _ [] [])]|].
    eapply steps_trans; [eapply (pool_snoc _ _ []); [constructor|apply pool_env, (dial_cancelled ErrContextCanceled)]|].
    eapply steps_trans; [eapply (pool_snoc _ _ []); [constructor|]|].
    + refine (pool_act _ (fun d => Some d) await (fun _ => mret tt) [] _ _ (None, Some ErrContextCanceled) (cancel_dial ErrContextCanceled dial_started) _).
      vm_compute. by left.
    + eapply (pool_snoc _ _ []); [constructor|]. cbn [app]. refine (pool_act _ (fun _ => None) (offer (Some conn, None)) Ret [_] [] (cancel_dial ErrContextCanceled dial_started) tt
        (put_result (Some (Some conn, None)) (cancel_dial ErrContextCanceled dial_started)) _). vm_compute. by left.
  - split_and!; [repeat constructor|reflexivity..].
Qed.

(** ** Opening *)
(** Either the exchange was started on an https URL of the run service and nothing was
    given up, or it was not and whatever had been created is released. *)
Theorem open_settled `{Network} (cfg : streamConfig) :
  match Open cfg nothing_open with
  | (Ok o, s) => s = start_exchange nothing_open /\
      exists base, parse_url (trim_slashes (TrimSpace (sc_BaseURL cfg))) = Some base /\ ru_Scheme base = "https" /\ ru_Host base <> "" /\
        os_URL o = url_String (run_url base) /\ ("Authorization", "Bearer " +:+ TrimSpace (sc_AccessToken cfg)) ∈ os_Headers o
  | (Fail e, s) => s = nothing_open \/ s = released nothing_open
  end.
Proof.
  unfold Open. destruct (parse_url _) as [base|]; [|by left]. destruct (bool_decide _ || bool_decide _) eqn:E1; [by left|].
  destruct (negb _) eqn:E2; [by left|]. destruct (blank _); [by left|]. destruct (bool_decide (TrimSpace (sc_ClientVersion cfg) = "")); [by left|].
  destruct (new_request _ _) as [e|]; [by right|]. destruct (cursorHTTP2Transport _ _) as [tr|e]; [|by right].
  apply orb_false_iff in E1 as [E1 E1'%bool_decide_eq_false_1]. apply negb_false_iff in E2. apply bool_decide_eq_true in E2. cbv [ebind emodify eret]. split; [done|]. exists base. split_and!; try done; cbn [os_Headers].
  unfold stream_headers. apply elem_of_app. left. do 3 right. by left.
Qed.
