(* ===== verification/StreamWrites.v ===== *)
(** * Concurrent writes are sent whole (src/cursoragentv1/stream.go)

    The runner and its heartbeat write frames to one pipe while the exchange takes bytes
    out of it.  Each goroutine has an outline: what it knows while it holds the write
    mutex, and that it takes bytes only then. *)
From stdpp Require Import base tactics list gmap strings sorting.
From Stdlib Require Import Strings.Byte.
From S2P Require Import Prelude GoStrings Conc Rely Data Connect Runner Stream StreamProps.
Open Scope Z_scope.

Definition pipe_closed (s : http2Stream) : Prop := s_readerClosed s || s_writerClosed s = true.
Definition holds_write (me : nat) (payload rest : bytes) (s : http2Stream) : Prop :=
  s_writeMu s = Some {| wr_who := me; wr_payload := payload; wr_rest := rest |}.

(** ** What a goroutine may do to the pipe and the mutex *)
Definition write_guar (me : nat) (s : http2Stream) (u : list seen) (s' : http2Stream) : Prop :=
  (pipe_closed s -> pipe_closed s') /\
  ( (written u = [] /\ s_sent s' = s_sent s /\ s_writeMu s' = s_writeMu s)
  \/ (exists p, s_writeMu s = None /\ holds_write me p p s' /\ s_sent s' = s_sent s /\ u = [])
  \/ (exists p b r, holds_write me p (b :: r) s /\ holds_write me p r s' /\ s_sent s' = s_sent s ++ [b] /\ u = [] /\ ~ pipe_closed s)
  \/ (exists p r e, holds_write me p r s /\ s_writeMu s' = None /\ s_sent s' = s_sent s /\ u = [Wrote p e] /\
        match e with None => r = [] | Some _ => r = p \/ pipe_closed s end)).
(** The bytes sent: the payloads written, and a part of the one being written. *)
Definition sent_whole : assertion http2Stream seen := fun t s =>
  exists part, s_sent s = concat (written t) ++ part /\
    match s_writeMu s with
    | None => part = [] \/ pipe_closed s
    | Some w => wr_payload w = part ++ wr_rest w \/ (pipe_closed s /\ wr_rest w = wr_payload w)
    end.

Lemma sent_whole_kept me t s u s' : sent_whole t s -> write_guar me s u s' -> sent_whole (t ++ u) s'.
Proof.
  intros (part & Hs & Hw) [Hc [(U & S & M)|[(p & M & M' & S & ->)|[(p & b & r & M & M' & S & -> & N)|(p & r & e & M & M' & S & -> & He)]]]];
    unfold sent_whole; rewrite written_app, S, Hs; unfold holds_write in *; rewrite ?M', ?M in *; cbn [wr_payload wr_rest] in *; try (change (written []) with (@nil bytes)).
  - rewrite U, app_nil_r. exists part. split; [done|]. destruct (s_writeMu s); naive_solver.
  - rewrite app_nil_r. exists part. split; [done|]. destruct Hw as [->|Hw]; [by left|right; auto].
  - rewrite app_nil_r. exists (part ++ [b]). split; [by rewrite app_assoc|]. destruct Hw as [->|[Hw _]]; [|done]. left. by rewrite <-app_assoc.
  - destruct e as [e|].
    + change (written [Wrote p (Some e)]) with (@nil bytes). rewrite app_nil_r. exists part. split; [done|]. destruct Hw as [Hw|[Hw _]]; [|right; auto].
      destruct He as [->|He]; [|right; auto]. left.
      destruct part as [|b part]; [done|]. apply (f_equal length) in Hw. rewrite length_app in Hw. cbn in Hw. lia.
    + change (written [Wrote p None]) with [p]. subst r. rewrite app_nil_r in Hw. rewrite concat_app. cbn [concat]. rewrite app_nil_r. destruct Hw as [->|[Hw <-]].
      * exists []. rewrite app_nil_r. split; [done|by left].
      * exists part. rewrite app_nil_r. split; [done|right; auto].
Qed.
Lemma sent_whole_outside t s s' : sent_whole t s -> outside s s' -> sent_whole (t ++ []) s'.
Proof.
  intros Ht Ho. apply (sent_whole_kept 0 t s); [done|]. destruct Ho; (split; [|by left]); unfold pipe_closed; done.
Qed.
Lemma quiet_guar me s u s' :
  written u = [] -> (pipe_closed s -> pipe_closed s') -> s_sent s' = s_sent s -> s_writeMu s' = s_writeMu s -> write_guar me s u s'.
Proof. intros ????. split; [done|]. by left. Qed.

(** ** Outlines *)
Section writers.
Local Notation outline := (outline outside write_guar (fun i => match i with O => sent_whole | S _ => fun _ _ => True end)).
Local Notation stable := (stable outside write_guar).
Definition holding (me : nat) (payload rest : bytes) : assertion http2Stream seen := fun _ s => holds_write me payload rest s.
Definition holding_closed (me : nat) (payload rest : bytes) : assertion http2Stream seen := fun _ s => holds_write me payload rest s /\ pipe_closed s.

Lemma rely_holds me p r s u s' :
  holds_write me p r s -> rely outside write_guar me s u s' -> holds_write me p r s' /\ (pipe_closed s -> pipe_closed s').
Proof.
  unfold holds_write. intros Hs [[_ Ho]|(j & Hj & Hc & Hg)].
  - destruct Ho; (split; [done|]); unfold pipe_closed; done.
  - split; [|done]. unfold holds_write in Hg.
    destruct Hg as [(_ & _ & ->)|[(? & M & _)|[(? & ? & ? & M & _)|(? & ? & ? & M & _)]]]; [done|congruence..].
Qed.
Lemma holding_stable me p r : stable me (holding me p r).
Proof. intros t s u s' Hs Hr. by eapply rely_holds. Qed.
Lemma holding_closed_stable me p r : stable me (holding_closed me p r).
Proof. intros t s u s' [Hs Hc] Hr. destruct (rely_holds _ _ _ _ _ _ Hs Hr). split; auto. Qed.
Lemma idle_stable me : stable me (fun _ _ => True).
Proof. done. Qed.

(** After the pipe: everything was taken, or an end is closed. *)
Definition piped (me : nat) (payload : bytes) (e : option Err) : assertion http2Stream seen := fun t s =>
  match e with None => holding me payload [] t s | Some _ => exists r, holding_closed me payload r t s end.
Lemma piped_stable me p e : stable me (piped me p e).
Proof.
  intros t s u s' Hs Hr. destruct e as [e|]; cbn [piped] in *; [|by eapply holding_stable].
  destruct Hs as [r Hs]. exists r. by eapply holding_closed_stable.
Qed.
Lemma take_byte_steps me p b r s e s' :
  holds_write me p (b :: r) s -> (e, s') ∈ take_byte s ->
  (exists x, e = Some x /\ s' = s /\ pipe_closed s) \/ (e = None /\ holds_write me p r s' /\ s_sent s' = s_sent s ++ [b] /\ ~ pipe_closed s /\ (pipe_closed s -> pipe_closed s')).
Proof.
  intros Hs Hb. unfold take_byte, pipe_open in Hb. apply sect_bind in Hb as (c & s0 & Hc & Hb).
  apply sect_bind in Hc as (s1 & s2 & Hg & Hc). apply sect_get in Hg as [-> ->]. apply sect_ret in Hc as [-> ->]. unfold pipe_closed.
  destruct (s_readerClosed s || s_writerClosed s) eqn:C.
  - apply sect_ret in Hb as [-> ->]. left. eauto.
  - apply sect_bind in Hb as ([] & s3 & Hp & Hb). apply sect_put in Hp as ->. apply sect_ret in Hb as [-> ->]. right.
    unfold holds_write in *. rewrite Hs. by split_and!.
Qed.
Lemma pipe_bytes_outline me p : forall r, outline (S me) (pipe_bytes (length r)) (holding (S me) p r) (piped (S me) p).
Proof.
  induction r as [|b r IH]; cbn [pipe_bytes length].
  - apply outline_ret; [apply holding_stable|done|done].
  - apply (outline_then _ _ _ _ _ _ _ _ (fun e => match e with Some _ => holding_closed (S me) p (b :: r) | None => holding (S me) p r end)).
    + apply holding_stable.
    + done.
    + intros t s e s' Hs Hb. destruct (take_byte_steps _ _ _ _ _ _ _ Hs Hb) as [(x & -> & -> & Hc)|(-> & Hh & Hse & Hn & Hc)].
      * split; [by apply quiet_guar|by split].
      * split; [|done]. split; [done|]. right. right. left. exists p, b, r. by split_and!.
    + intros [e|] _; [|done]. apply outline_ret; [apply holding_closed_stable|done|]. intros t s Hs. by exists (b :: r).
Qed.
Lemma pipe_write_outline me p : outline (S me) (pipe_write p) (holding (S me) p p) (piped (S me) p).
Proof.
  unfold pipe_write. apply (outline_then _ _ _ _ _ _ _ _ (fun e => match e with Some _ => holding_closed (S me) p p | None => holding (S me) p p end)).
  - apply holding_stable.
  - done.
  - intros t s e s' Hs Hb. unfold pipe_open in Hb. sect. split; [by apply quiet_guar|].
    destruct (s_readerClosed s || s_writerClosed s) eqn:C; [by split|done].
  - intros [e|] _; [|apply pipe_bytes_outline]. apply outline_ret; [apply holding_closed_stable|done|]. intros t s Hs. by exists p.
Qed.
Lemma end_write_outline me p e P :
  stable (S me) P -> (forall t s, P t s -> exists r, holds_write (S me) p r s /\ match e with None => r = [] | Some _ => r = p \/ pipe_closed s end) ->
  outline (S me) (end_write p e) P (fun _ _ _ => True).
Proof.
  intros Hs Hp. unfold end_write. apply (outline_then _ _ _ _ _ _ _ _ (fun _ _ _ => True)); [done|done| |].
  - intros t s [] s' Ht Hb. split; [|done]. unfold unlock_write in Hb. sect. destruct (Hp _ _ Ht) as (r & Hr & He).
    split; [done|]. right. right. right. exists p, r, e. by split_and!.
  - intros a _. by apply outline_ret.
Qed.
Lemma write_outline me p : outline (S me) (Write true (S me) p) (fun _ _ => True) (fun _ _ _ => True).
Proof.
  unfold Write. cbn [negb]. apply (outline_then _ _ _ _ _ _ _ _ (fun _ => holding (S me) p p)); [done|done| |intros [] _].
  { intros t s [] s' _ Hb. unfold lock_write in Hb. sect. split; [|done]. split; [done|]. right. left. by exists p. }
  apply (outline_then _ _ _ _ _ _ _ _ (fun _ => holding (S me) p p)); [apply holding_stable|done| |intros e _].
  { intros t s e s' Hs Hb. unfold load_err in Hb. sect. split; [by apply quiet_guar|done]. }
  destruct e as [e|].
  - apply end_write_outline; [apply holding_stable|]. intros t s Hs. exists p. split; [done|by left].
  - eapply outline_bind; [apply pipe_write_outline|]. intros e. apply end_write_outline; [apply piped_stable|].
    intros t s Hs. destruct e as [e|]; cbn [piped fmap option_fmap option_map] in *; [|by exists []].
    destruct Hs as (r & Hs & Hc). exists r. split; [done|by right].
Qed.

(** Everything else leaves the mutex and the bytes alone. *)
Ltac quiet_write := intros ? ? ? ?; sect; by apply quiet_guar.
Lemma call_outline me c : outline (S me) (run_call (S me) c) (fun _ _ => True) (fun _ _ _ => True).
Proof.
  assert (forall A (p : Prog http2Stream seen A), guarantees (write_guar (S me)) p -> outline (S me) p (fun _ _ => True) (fun _ _ _ => True)) as Hg
    by (intros A p Hp; by apply outline_guarantees).
  destruct c; cbn [run_call].
  - eapply outline_bind; [apply write_outline|]. intros e. by apply outline_ret.
  - apply Hg, guarantees_bind; [|done]. apply guarantees_act. quiet_write.
  - apply Hg, guarantees_bind; [|done]. apply guarantees_act. unfold load_err. quiet_write.
  - apply Hg. unfold Close, close_body, enter_once. cbn [negb]. apply guarantees_bind; [apply guarantees_act; quiet_write|]. intros first.
    apply guarantees_bind; [destruct first; [|done]|intros _; apply guarantees_act; quiet_write].
    assert (forall f, (forall s, pipe_closed s -> pipe_closed (f s)) -> (forall s, s_sent (f s) = s_sent s) -> (forall s, s_writeMu (f s) = s_writeMu s) ->
              guarantees (write_guar (S me)) (atomic (put f))) as Hf by (intros f H1 H2 H3; apply guarantees_act; intros s [] s' ->%sect_put; by apply quiet_guar; auto).
    repeat (apply guarantees_bind; [apply Hf; try done; unfold pipe_closed; cbn; intros s; rewrite ?orb_true_r; done|intros _]). by apply Hf.
  - apply Hg, guarantees_act. quiet_write.
Qed.
Lemma users_write_outlined me users t s :
  outlined outside write_guar (fun i => match i with O => sent_whole | S _ => fun _ _ => True end) (S me) t (user_pool (S me) users) s.
Proof.
  revert me. induction users as [|u users IH]; intros me; cbn [user_pool outlined]; [done|]. split; [|apply IH].
  exists (fun _ _ => True). split; [|done]. eapply outline_post; [apply outline_each; [done|done|apply call_outline]|done].
Qed.
Lemma record_quiet e : guarantees (write_guar 0) (record_error e).
Proof. destruct e as [e|]; [|done]. apply guarantees_act. unfold setErr. intros s [] s' ->%sect_put. destruct (s_err s); by apply quiet_guar. Qed.
Lemma read_loop_quiet (rs : reads) : guarantees (write_guar 0) (read_loop rs).
Proof.
  assert (forall x more, guarantees (write_guar 0) more -> guarantees (write_guar 0) (after_read x more)) as Ha.
  { intros x more Hm. apply guarantees_bind.
    - destruct (x.1); [done|]. apply guarantees_act. unfold send_chunk. intros ? [] ? ?; sect; by apply quiet_guar.
    - intros sent. destruct (negb sent); [done|]. destruct (x.2); [apply record_quiet|done]. }
  induction rs as [|y rs IH]; cbn [read_loop]; (apply guarantees_bind; [|intros x; by apply Ha]);
    apply guarantees_act; unfold next_read, or_cancelled; quiet_write.
Qed.
Lemma exchange_quiet r : guarantees (write_guar 0) (exchange r).
Proof.
  unfold exchange. apply guarantees_bind; [apply guarantees_act; unfold or_cancelled; quiet_write|]. intros [[code rs]|e]; [|apply record_quiet].
  destruct (negb (code =? 200)); [apply record_quiet|apply read_loop_quiet].
Qed.
Lemma round_trip_quiet r : guarantees (write_guar 0) (roundTrip r).
Proof.
  apply guarantees_bind; [apply exchange_quiet|]. intros u.
  apply guarantees_bind; [apply guarantees_act; quiet_write|]. intros v. apply guarantees_act. quiet_write.
Qed.
Lemma sent_whole_stable : stable 0 sent_whole.
Proof. intros t s u s' Ht [[-> Ho]|(j & _ & Hg)]; [by eapply sent_whole_outside|by eapply sent_whole_kept]. Qed.
Lemma stream_sends_whole r users t s : stream_reachable r users t s -> sent_whole t s.
Proof.
  intros [ps Hr]. eapply (outlined_first outside write_guar (fun i => match i with O => sent_whole | S _ => fun _ _ => True end)); [|exact Hr].
  cbn [outlined]. split; [|apply users_write_outlined]. exists sent_whole. split; [|exists []; split; [done|by left]].
  eapply outline_post; [apply outline_guarantees; [apply sent_whole_stable|done| |apply round_trip_quiet]|done].
  intros t1 s1 u s2. apply sent_whole_kept.
Qed.
End writers.

(** C30 Any number of goroutines may write to the stream at once: while the pipe is open,
    the bytes the server gets are the payloads written so far, each whole and in the
    order their writes ended, followed by the beginning of the one being written; so
    when frames were written and no write is in progress, the server's parser reads
    exactly those frames. *)
Theorem writes_sent_whole (r : response) (users : list (list call)) (t : list seen) (s : http2Stream) :
  stream_reachable r users t s -> ~ pipe_closed s ->
  match s_writeMu s with
  | Some w => exists part, s_sent s = concat (written t) ++ part /\ wr_payload w = part ++ wr_rest w
  | None => s_sent s = concat (written t) /\
      forall frames, frames_fit frames = true -> written t = (fun f => frameConnectWithFlags f.2 f.1) <$> frames -> drain (s_sent s) = (frames, [], None)
  end.
Proof.
  intros (part & Hs & Hw)%stream_sends_whole Ho. destruct (s_writeMu s) as [w|].
  - exists part. split; [done|]. by destruct Hw as [?|[? _]].
  - destruct Hw as [->|?]; [|done]. rewrite app_nil_r in Hs. split; [done|]. intros frames Hf Hw. rewrite Hs, Hw. by apply drain_encode.
Qed.

(** ** An example
    A response of two chunks, read while two frames are written. *)
Definition sample_response : response := Ok (200, [(to_bytes "he", None); ([], None); (to_bytes "llo", Some errEOF)]).
Definition sample_payload : bytes := frameConnect (to_bytes "hi").
Definition sample_users : list (list call) :=
  [[CallReceive; CallReceive; CallReceive; CallErr; CallDone]; [CallWrite sample_payload]; [CallWrite sample_payload]].
Definition sample_trace : list seen :=
  [Received (to_bytes "he"); Wrote sample_payload None; Received (to_bytes "llo"); ReceivedClosed; SawErr None; Wrote sample_payload None].
Definition sample_stream : http2Stream := close_data (put_writing None (sample_payload ++ sample_payload) new_stream).
Lemma exchange_forkless r : forkless (exchange r).
Proof. eapply guarantees_forkless, exchange_quiet. Qed.
Lemma call_forkless me c : forkless (run_call me c).
Proof. eapply guarantees_forkless, guarantees_call. Qed.
(** The goroutine after [pre] makes its next call. *)
Ltac turn pre := eapply (exec_turn outside (run_call _ _) _ pre); [apply call_forkless|vm_compute; reflexivity|]; cbn [app].
Lemma sample_reachable : exists t, t = sample_trace /\ stream_reachable sample_response sample_users t sample_stream.
Proof.
  eexists. split; [|eexists; cbn [sample_users user_pool user prog_each]].
  2:{ unfold roundTrip. eapply (exec_turn outside (exchange _) _ []); [apply exchange_forkless|vm_compute; reflexivity|].
      eapply (exec_turn outside (atomic (put close_data)) _ []); [by intros []|vm_compute; reflexivity|]; cbn [app].
      match goal with |- pool_steps _ (?x :: _, _) _ _ => turn [x] end.
      match goal with |- pool_steps _ (?x :: ?y :: _, _) _ _ => turn [x; y] end.
      do 3 (match goal with |- pool_steps _ (?x :: _, _) _ _ => turn [x] end).
      match goal with |- pool_steps _ (?x :: ?y :: ?z :: _, _) _ _ => turn [x; y; z] end.
      match goal with |- pool_steps _ (_, ?s) _ (_, ?s') => change s' with s end. constructor. }
  reflexivity.
Qed.
Lemma stream_refines_response_witness :
  runner_inputs sample_trace = response_inputs sample_response /\
  runner_inputs sample_trace `prefix_of` response_inputs sample_response /\
  received sample_trace ++ s_data sample_stream = response_chunks sample_response.
Proof.
  split; [reflexivity|]. destruct sample_reachable as (t & -> & Hr).
  destruct (stream_refines_response sample_response sample_users sample_trace sample_stream Hr) as (_ & _ & _ & Hi).
  destruct (Hi eq_refl) as [H1 H2]. split; [exact H1|]. by apply H2.
Defined.
Lemma writes_sent_whole_witness :
  s_sent sample_stream = concat (written sample_trace) /\
  drain (s_sent sample_stream) = ([(x00%byte, to_bytes "hi"); (x00%byte, to_bytes "hi")], [], None).
Proof.
  destruct sample_reachable as (t & -> & Hr).
  destruct (writes_sent_whole sample_response sample_users sample_trace sample_stream Hr) as [H1 H2]; [discriminate|].
  split; [exact H1|]. apply H2; vm_compute; reflexivity.
Defined.
