(* ===== verification/TokenText.v ===== *)
(** * The text tokens are counted on (src/internal/helps/claude_input_tokens.go, token_helpers.go)

    The segments of a request that its token count covers, for Messages and for chat
    requests.  gjson, the compaction of JSON and the tokenizers are parameters; a gjson
    value is opaque, with the methods the code calls on it. *)
From stdpp Require Import base tactics list gmap strings sorting.
From Stdlib Require Import Strings.Byte.
From S2P Require Import Prelude GoStrings JsonValue.
Open Scope Z_scope.

(** ** The libraries *)
Inductive gjsonType : Type := GNull | GFalse | GNumber | GString | GTrue | GJSON.
#[export] Instance gjsonType_eq_dec : EqDecision gjsonType.
Proof. solve_decision. Defined.
(** [gjson.ValidBytes], [ParseBytes], and the methods of a [Result]: [Get], [Exists],
    [Type], [IsArray], [IsObject], [String], [Raw], [Int], and the elements [ForEach]
    visits of an array.  [json_compact] is [json.Compact]. *)
Class Gjson := {
  gjson : Type;
  gjson_valid : bytes -> bool;
  gjson_parse : bytes -> gjson;
  g_get : gjson -> string -> gjson;
  g_exists : gjson -> bool;
  g_type : gjson -> gjsonType;
  g_is_array : gjson -> bool;
  g_is_object : gjson -> bool;
  g_string : gjson -> string;
  g_raw : gjson -> string;
  g_int : gjson -> Z;
  g_each : gjson -> list gjson;
  json_compact : string -> option string }.
(** The member names the recursion descends into: plain ones, without a character that
    gjson gives a meaning in a path. *)
Definition nested_keys : list string := ["content"; "output"].
(** Such a member, and an element, is a part of the text of its container. *)
Class GjsonLaws `{Gjson} := {
  g_get_smaller r key : key ∈ nested_keys -> g_exists (g_get r key) = true -> (String.length (g_raw (g_get r key)) < String.length (g_raw r))%nat;
  g_each_smaller r x : g_is_array r = true -> x ∈ g_each r -> (String.length (g_raw x) < String.length (g_raw r))%nat }.

Section text.
Context `{Gjson}.
Local Notation text r key := (g_string (g_get r key)).

(** ** Appending a segment *)
(** [appendClaudeTokenString], and [addIfNotEmpty] of the chat helpers. *)
Definition appendClaudeTokenString (segments : list string) (value : string) : list string :=
  let trimmed := TrimSpace value in if bool_decide (trimmed = "") then segments else segments ++ [trimmed].
Definition addIfNotEmpty (segments : list string) (value : string) : list string :=
  let trimmed := TrimSpace value in if bool_decide (trimmed = "") then segments else segments ++ [trimmed].
Definition appendClaudeTokenJSON (segments : list string) (value : gjson) : list string :=
  if negb (g_exists value) then segments
  else if bool_decide (g_type value = GString) then appendClaudeTokenString segments (g_string value)
  else
    let raw := TrimSpace (g_raw value) in
    if bool_decide (raw = "") then segments
    else match json_compact raw with Some compact => appendClaudeTokenString segments compact | None => appendClaudeTokenString segments raw end.
Definition add_texts (r : gjson) (keys : list string) (segments : list string) : list string :=
  foldl (fun segments key => appendClaudeTokenString segments (text r key)) segments keys.
(** [ForEach] with a callback that always goes on. *)
Definition g_for_each (r : gjson) (f : gjson -> list string -> list string) (segments : list string) : list string :=
  foldl (fun segments x => f x segments) segments (g_each r).

(** The same with a callback that may run out of fuel. *)
Fixpoint fold_opt {A B} (f : A -> B -> option B) (l : list A) (b : B) : option B :=
  match l with [] => Some b | x :: l => match f x b with Some b => fold_opt f l b | None => None end end.
Definition g_for_each_opt (r : gjson) (f : gjson -> list string -> option (list string)) (segments : list string) : option (list string) :=
  fold_opt f (g_each r) segments.
(** No answer of the code: the fuel of a nested content ran out. *)
Definition errStuck : Err := ErrMsg "".

(** ** Messages requests *)
Definition collectClaudeSystemTokenSegments (system : gjson) (segments : list string) : list string :=
  if bool_decide (g_type system = GString) then appendClaudeTokenString segments (g_string system)
  else if negb (g_is_array system) then segments
  else
    g_for_each system (fun part segments =>
      if bool_decide (g_type part = GString) then appendClaudeTokenString segments (g_string part)
      else if bool_decide (text part "type" = "text") then appendClaudeTokenString segments (text part "text") else segments) segments.
Definition collectClaudeDocumentTokenSegments (document : gjson) (segments : list string) : list string :=
  let source := g_get document "source" in
  if negb (bool_decide (text source "type" = "text")) then segments
  else add_texts source ["data"; "content"] (add_texts document ["title"; "context"] segments).

(** The kinds of content blocks the switch distinguishes. *)
Inductive contentKind : Type :=
  | KText | KThinking | KDocument | KToolUse | KToolResult | KSearchResult | KFetchResult | KExecutionResult | KToolReference | KSkipped | KUntyped | KOther.
Definition content_kinds : list (contentKind * list string) :=
  [(KText, ["text"]); (KThinking, ["thinking"]); (KDocument, ["document"]); (KToolUse, ["tool_use"; "server_tool_use"; "mcp_tool_use"]);
   (KToolResult, ["tool_result"; "mcp_tool_result"; "web_search_tool_result"; "web_fetch_tool_result"; "code_execution_tool_result";
                  "bash_code_execution_tool_result"; "text_editor_code_execution_tool_result"]);
   (KSearchResult, ["web_search_result"; "search_result"]); (KFetchResult, ["web_fetch_result"]);
   (KExecutionResult, ["code_execution_result"; "bash_code_execution_result"; "text_editor_code_execution_result"]);
   (KToolReference, ["tool_reference"]); (KSkipped, ["image"; "input_audio"; "audio"; "video"; "redacted_thinking"]); (KUntyped, [""])].
Definition content_kind (type : string) : contentKind :=
  match List.find (fun x => bool_decide (type ∈ x.2)) content_kinds with Some (k, _) => k | None => KOther end.
(** [fuel] bounds the nesting, [None] when it ran out; the text of the content is enough (TokenProps). *)
Fixpoint collectClaudeContentTokenSegments (fuel : nat) (content : gjson) (segments : list string) : option (list string) :=
  match fuel with
  | O => None
  | S fuel =>
      let nested key segments := collectClaudeContentTokenSegments fuel (g_get content key) segments in
      if negb (g_exists content) then Some segments
      else if bool_decide (g_type content = GString) then Some (appendClaudeTokenString segments (g_string content))
      else if g_is_array content then g_for_each_opt content (collectClaudeContentTokenSegments fuel) segments
      else if negb (g_is_object content) then Some segments
      else
        match content_kind (text content "type") with
        | KText => Some (add_texts content ["text"] segments)
        | KThinking => Some (add_texts content ["thinking"] segments)
        | KDocument => Some (collectClaudeDocumentTokenSegments content segments)
        | KToolUse => Some (appendClaudeTokenJSON (add_texts content ["id"; "name"] segments) (g_get content "input"))
        | KToolResult => nested "content" (add_texts content ["tool_use_id"; "tool_call_id"] segments)
        | KSearchResult =>
            let source := g_get content "source" in
            let segments := if bool_decide (g_type source = GString) then appendClaudeTokenString segments (g_string source) else segments in
            nested "content" (add_texts content ["title"; "url"; "page_age"] segments)
        | KFetchResult => nested "content" (add_texts content ["url"; "retrieved_at"] segments)
        | KExecutionResult =>
            match nested "content" (add_texts content ["stdout"; "stderr"; "return_code"] segments) with
            | Some segments => nested "output" segments
            | None => None
            end
        | KToolReference => Some (add_texts content ["tool_name"] segments)
        | KSkipped => Some segments
        | KUntyped => Some (appendClaudeTokenJSON segments content)
        | KOther => Some (add_texts content ["text"] segments)
        end
  end.
Definition nesting (content : gjson) : nat := S (S (String.length (g_raw content))).
Definition collectClaudeMessageTokenSegments (messages : gjson) (segments : list string) : option (list string) :=
  if negb (g_is_array messages) then Some segments
  else
    g_for_each_opt messages (fun message segments =>
      let content := g_get message "content" in
      collectClaudeContentTokenSegments (nesting content) content (add_texts message ["role"] segments)) segments.
Definition collectClaudeToolTokenSegments (tools : gjson) (segments : list string) : list string :=
  if negb (g_is_array tools) then segments
  else g_for_each tools (fun tool segments => appendClaudeTokenJSON (add_texts tool ["type"; "name"; "description"] segments) (g_get tool "input_schema")) segments.
Definition collectClaudeToolChoiceTokenSegments (toolChoice : gjson) (segments : list string) : list string :=
  if negb (g_exists toolChoice) then segments
  else if bool_decide (g_type toolChoice = GString) then appendClaudeTokenString segments (g_string toolChoice)
  else add_texts toolChoice ["type"; "name"] segments.
Definition collectClaudeInputTokenSegments (payload : bytes) : result (list string) :=
  match trim_bytes payload with
  | [] => Ok []
  | _ =>
      if negb (gjson_valid payload) then Fail (ErrMsg "invalid Claude request JSON")
      else
        let root := gjson_parse payload in
        match collectClaudeMessageTokenSegments (g_get root "messages") (collectClaudeSystemTokenSegments (g_get root "system") []) with
        | None => Fail errStuck
        | Some segments => Ok (collectClaudeToolChoiceTokenSegments (g_get root "tool_choice")
                                 (collectClaudeToolTokenSegments (g_get root "tools") segments))
        end
  end.

(** ** Chat requests *)
Definition add_chat (r : gjson) (keys : list string) (segments : list string) : list string :=
  foldl (fun segments key => addIfNotEmpty segments (text r key)) segments keys.
(** [if v := r.Get(key); v.Exists() { addIfNotEmpty(segments, v.Raw) }]. *)
Definition add_raw (r : gjson) (key : string) (segments : list string) : list string :=
  let v := g_get r key in if g_exists v then addIfNotEmpty segments (g_raw v) else segments.
Fixpoint collectOpenAIContent (fuel : nat) (content : gjson) (segments : list string) : option (list string) :=
  match fuel with
  | O => None
  | S fuel =>
      if negb (g_exists content) then Some segments
      else if bool_decide (g_type content = GString) then Some (addIfNotEmpty segments (g_string content))
      else if g_is_array content then
        g_for_each_opt content (fun part segments =>
          let partType := text part "type" in
          if bool_decide (partType ∈ ["text"; "input_text"; "output_text"]) then Some (add_chat part ["text"] segments)
          else if bool_decide (partType = "image_url") then Some (add_chat part ["image_url.url"] segments)
          else if bool_decide (partType ∈ ["input_audio"; "output_audio"; "audio"]) then Some (add_chat part ["id"] segments)
          else if bool_decide (partType = "tool_result") then collectOpenAIContent fuel (g_get part "content") (add_chat part ["name"] segments)
          else if g_is_array part then collectOpenAIContent fuel part segments
          else if bool_decide (g_type part = GJSON) then Some (addIfNotEmpty segments (g_raw part))
          else Some (addIfNotEmpty segments (g_string part))) segments
      else if bool_decide (g_type content = GJSON) then Some (addIfNotEmpty segments (g_raw content)) else Some segments
  end.
Definition collectOpenAIToolCalls (calls : gjson) (segments : list string) : list string :=
  if negb (g_exists calls) || negb (g_is_array calls) then segments
  else
    g_for_each calls (fun call segments =>
      let segments := add_chat call ["id"; "type"] segments in
      let function := g_get call "function" in
      if g_exists function then add_raw function "parameters" (add_chat function ["name"; "description"; "arguments"] segments) else segments) segments.
Definition collectOpenAIFunctionCall (call : gjson) (segments : list string) : list string :=
  if negb (g_exists call) then segments else add_chat call ["name"; "arguments"] segments.
Definition collectOpenAIMessages (messages : gjson) (segments : list string) : option (list string) :=
  if negb (g_exists messages) || negb (g_is_array messages) then Some segments
  else
    g_for_each_opt messages (fun message segments =>
      let segments := add_chat message ["role"; "name"] segments in
      let content := g_get message "content" in
      match collectOpenAIContent (nesting content) content segments with
      | None => None
      | Some segments =>
          let segments := collectOpenAIToolCalls (g_get message "tool_calls") segments in
          Some (collectOpenAIFunctionCall (g_get message "function_call") segments)
      end) segments.
Definition appendToolPayload (tool : gjson) (segments : list string) : list string :=
  if negb (g_exists tool) then segments
  else
    let segments := add_chat tool ["type"; "name"; "description"] segments in
    let function := g_get tool "function" in
    if g_exists function then add_raw function "parameters" (add_chat function ["name"; "description"] segments) else segments.
Definition collectOpenAITools (tools : gjson) (segments : list string) : list string :=
  if negb (g_exists tools) then segments
  else if g_is_array tools then g_for_each tools appendToolPayload segments else appendToolPayload tools segments.
Definition collectOpenAIFunctions (functions : gjson) (segments : list string) : list string :=
  if negb (g_exists functions) || negb (g_is_array functions) then segments
  else g_for_each functions (fun function segments => add_raw function "parameters" (add_chat function ["name"; "description"] segments)) segments.
Definition collectOpenAIToolChoice (choice : gjson) (segments : list string) : list string :=
  if negb (g_exists choice) then segments
  else if bool_decide (g_type choice = GString) then addIfNotEmpty segments (g_string choice) else addIfNotEmpty segments (g_raw choice).
Definition collectOpenAIResponseFormat (format : gjson) (segments : list string) : list string :=
  if negb (g_exists format) then segments else add_raw format "schema" (add_raw format "json_schema" (add_chat format ["type"; "name"] segments)).
Definition chat_segments (root : gjson) : option (list string) :=
  match collectOpenAIMessages (g_get root "messages") [] with
  | None => None
  | Some segments =>
      Some (add_chat root ["input"; "prompt"]
        (collectOpenAIResponseFormat (g_get root "response_format")
           (collectOpenAIToolChoice (g_get root "tool_choice")
              (collectOpenAIFunctions (g_get root "functions") (collectOpenAITools (g_get root "tools") segments)))))
  end.
End text.
