(* ===== verification/Tokens.v ===== *)
(** * Counting tokens (src/internal/helps/token_helpers.go, claude_input_tokens.go, logging.go)

    Which tokenizer a model gets, the counts of chat and Messages requests, and the one
    rewriting of a translated stream: the input tokens of its [message_start].  The
    tokenizers and sjson are parameters. *)
From stdpp Require Import base tactics list gmap strings sorting.
From Stdlib Require Import Strings.Byte.
From S2P Require Import Prelude GoStrings JsonValue Data HostedPolicy Projection TokenText.
Open Scope Z_scope.

(** ** Tokenizers *)
Inductive encoding : Type := Cl100kBase | O200kBase.
Inductive tokenizerModel : Type := GPT5 | GPT41 | GPT4o | GPT4 | GPT35Turbo | O1 | O3 | O4Mini.
(** [tokenizer.Get], [tokenizer.ForModel], [Codec.Count]; [sjson.SetBytes] of the path
    [message.usage.input_tokens]. *)
Class Tokenizers := {
  codec : Type;
  tokenizer_Get : encoding -> result codec;
  tokenizer_ForModel : tokenizerModel -> result codec;
  codec_Count : codec -> string -> result Z;
  sjson_set_input_tokens : bytes -> Z -> result bytes }.
Definition errNoEncoder : Err := ErrMsg "encoder is nil".

Section tokens.
Context `{Gjson} `{Tokenizers} (unicode_lower : string -> string).

Definition model_prefixes : list (list string * tokenizerModel) :=
  [(["gpt-5"], GPT5); (["gpt-5.1"], GPT5); (["gpt-4.1"], GPT41); (["gpt-4o"], GPT4o); (["gpt-4"], GPT4); (["gpt-3.5"; "gpt-3"], GPT35Turbo);
   (["o1"], O1); (["o3"], O3); (["o4"], O4Mini)].
Definition TokenizerForModel (model : string) : result codec :=
  let sanitized := lower unicode_lower (TrimSpace model) in
  if bool_decide (sanitized = "") then tokenizer_Get Cl100kBase
  else
    match List.find (fun x => existsb (HasPrefix sanitized) x.1) model_prefixes with
    | Some (_, m) => tokenizer_ForModel m
    | None => tokenizer_Get O200kBase
    end.
Definition newline : string := String (Ascii.ascii_of_nat 10) "".
(** [enc = None]: a nil interface. *)
Definition CountOpenAIChatTokens (enc : option codec) (payload : bytes) : result Z :=
  match enc with
  | None => Fail errNoEncoder
  | Some enc =>
      match payload with
      | [] => Ok 0
      | _ =>
          match chat_segments (gjson_parse payload) with
          | None => Fail errStuck
          | Some segments =>
              let joined := TrimSpace (Join segments newline) in
              if bool_decide (joined = "") then Ok 0 else codec_Count enc joined
          end
      end
  end.
Definition BuildOpenAIUsageJSON (count : Z) : bytes :=
  to_bytes (show_json (AnyMap [("usage", AnyMap [("prompt_tokens", AnyInt count); ("completion_tokens", AnyInt 0); ("total_tokens", AnyInt count)])])).
Definition countClaudeInputTokens (enc : option codec) (payload : bytes) : result Z :=
  match enc with
  | None => Fail errNoEncoder
  | Some enc =>
      match collectClaudeInputTokenSegments payload with
      | Fail e => Fail e
      | Ok [] => Ok 0
      | Ok segments => codec_Count enc (Join segments newline)
      end
  end.
(** [claudeInputTokenizer]: initialised once; what it answers does not change. *)
Definition claudeInputTokenizer : result codec := tokenizer_Get O200kBase.
Definition wrap_count (r : result Z) : result Z := match r with Ok n => Ok n | Fail e => Fail (ErrWrap "count Claude input tokens: " e) end.
Definition errTokenizer (e : Err) : Err := ErrWrap "initialize O200kBase tokenizer: " e.
Definition CountClaudeInputTokens (payload : bytes) : result Z :=
  match claudeInputTokenizer with
  | Fail e => Fail (errTokenizer e)
  | Ok enc => wrap_count (countClaudeInputTokens (Some enc) payload)
  end.
(** [Executor.CountTokens] and [Executor.HttpRequest] (executor.go). *)
Definition CountTokens (payload : bytes) : result bytes :=
  match CountClaudeInputTokens payload with
  | Fail e => Fail e
  | Ok count => Ok (to_bytes (show_json (AnyMap [("input_tokens", AnyInt count)])))
  end.
Definition HttpRequest : Err := ErrRequest 400 "Cursor Agent v1 raw HTTP requests are unsupported".
(** What the projections use: a failing tokenizer counts nothing. *)
Definition helper_tokens : Tokens :=
  {| token_count model content := match TokenizerForModel model with
                                  | Fail _ => None
                                  | Ok enc => match codec_Count enc content with Ok n => Some n | Fail _ => None end
                                  end;
     claude_input_tokens payload := match CountClaudeInputTokens payload with Ok n => Some n | Fail _ => None end |}.

(** ** Log entries (logging.go): the request id that is put on them *)
Definition LogWithRequestID (request_id : option string) : option string :=
  match request_id with
  | None => None
  | Some id => let trimmed := TrimSpace id in if bool_decide (trimmed = "") then None else Some trimmed
  end.

(** ** The translated stream *)
Record ClaudeInputTokenState := {
  ct_upstreamFormat : Format; ct_responseFormat : Format; ct_originalRequest : bytes; ct_codec : option codec; ct_handled : bool }.
Definition is_claude (f : Format) : bool := match f with FormatClaude => true | _ => false end.
Definition NewClaudeInputTokenState (sourceFormat upstreamFormat responseFormat : Format) (originalRequest : bytes) : ClaudeInputTokenState :=
  let enabled := is_claude sourceFormat && negb (is_claude upstreamFormat) && is_claude responseFormat in
  {| ct_upstreamFormat := upstreamFormat; ct_responseFormat := responseFormat; ct_originalRequest := originalRequest; ct_codec := None;
     ct_handled := negb enabled |}.
Definition set_handled (state : ClaudeInputTokenState) : ClaudeInputTokenState :=
  {| ct_upstreamFormat := ct_upstreamFormat state; ct_responseFormat := ct_responseFormat state; ct_originalRequest := ct_originalRequest state;
     ct_codec := ct_codec state; ct_handled := true |}.
Definition estimate (state : ClaudeInputTokenState) : result Z :=
  match ct_codec state with
  | Some enc => wrap_count (countClaudeInputTokens (Some enc) (ct_originalRequest state))
  | None =>
      match claudeInputTokenizer with
      | Fail e => Fail (errTokenizer e)
      | Ok enc => wrap_count (countClaudeInputTokens (Some enc) (ct_originalRequest state))
      end
  end.

(** Bytes at an index, and [b[i:j]]. *)
Definition slice (i j : nat) (b : bytes) : bytes := take (j - i) (drop i b).
Definition is_blank (b : byte) : bool := match b with x20 | x09 => true | _ => false end.
(** [bytes.IndexByte(b, '\n')]. *)
Fixpoint index_newline (b : bytes) : option nat :=
  match b with [] => None | x0a :: _ => Some O | _ :: b => S <$> index_newline b end.
Fixpoint drop_blanks (b : bytes) : bytes := match b with c :: rest => if is_blank c then drop_blanks rest else b | [] => [] end.
(** The number of blanks in front, and at the end. *)
Definition blanks_before (b : bytes) : nat := (length b - length (drop_blanks b))%nat.
Definition data_field : bytes := to_bytes "data:".
(** Where the payload of a data line starts and stops within the line. *)
Definition payload_bounds (line : bytes) : option (nat * nat) :=
  let trimmedLeft := drop_blanks line in
  if bool_decide (take 5 trimmedLeft = data_field) then
    let offset := (length line - length trimmedLeft + 5)%nat in
    let offset := (offset + blanks_before (drop offset line))%nat in
    let stop := (length line - Nat.min (blanks_before (reverse line)) (length line - offset))%nat in
    Some (offset, stop)
  else None.
(** What a [message_start] does to its chunk: the chunk to send, and an error to log. *)
Definition start_chunk (state : ClaudeInputTokenState) (chunk : bytes) (start stop : nat) : bytes * option Err :=
  let payload := slice start stop chunk in
  let inputTokens := g_get (gjson_parse payload) "message.usage.input_tokens" in
  if g_exists inputTokens && negb (g_int inputTokens =? 0) then (chunk, None)
  else
    match estimate state with
    | Fail e => (chunk, Some e)
    | Ok count =>
        if count =? 0 then (chunk, None)
        else
          match sjson_set_input_tokens payload count with
          | Fail e => (chunk, Some (ErrWrap "set message_start usage: " e))
          | Ok updatedPayload => (take start chunk ++ updatedPayload ++ drop stop chunk, None)
          end
    end.
Definition is_message_start (payload : bytes) : bool := bool_decide (g_string (g_get (gjson_parse payload) "type") = "message_start").
(** The end of the line that starts at [lineStart], and the line without its CR. *)
Definition line_end (chunk : bytes) (lineStart : nat) : nat :=
  match index_newline (drop lineStart chunk) with Some n => (lineStart + n)%nat | None => length chunk end.
Definition line_content (chunk : bytes) (lineStart : nat) : bytes :=
  let line := slice lineStart (line_end chunk lineStart) chunk in
  match reverse line with x0d :: rest => reverse rest | _ => line end.
(** The bounds in the chunk of the data payload of the line at [lineStart], when it is a [message_start]. *)
Definition message_start_at (chunk : bytes) (lineStart : nat) : option (nat * nat) :=
  match payload_bounds (line_content chunk lineStart) with
  | Some (offset, stop) =>
      if is_message_start (slice (lineStart + offset) (lineStart + stop) chunk) then Some (lineStart + offset, lineStart + stop)%nat else None
  | None => None
  end.
(** [None]: no [message_start] in the chunk.  [fuel] bounds the lines. *)
Fixpoint apply_lines (state : ClaudeInputTokenState) (chunk : bytes) (fuel lineStart : nat) : option (bytes * option Err) :=
  match fuel with
  | O => None
  | S fuel =>
      if (lineStart <? length chunk)%nat then
        match message_start_at chunk lineStart with
        | Some (start, stop) => Some (start_chunk state chunk start stop)
        | None =>
            let lineEnd := line_end chunk lineStart in
            if (lineEnd =? length chunk)%nat then None else apply_lines state chunk fuel (S lineEnd)
        end
      else None
  end.
Definition applyChunk (state : ClaudeInputTokenState) (chunk : bytes) : option (bytes * option Err) :=
  apply_lines state chunk (S (length chunk)) 0.
Fixpoint apply_chunks (state : ClaudeInputTokenState) (chunks : list bytes) : list bytes * bool * list Err :=
  match chunks with
  | [] => ([], false, [])
  | chunk :: rest =>
      match applyChunk state chunk with
      | Some (updated, e) => (updated :: rest, true, option_list e)
      | None => let '(rest, found, errs) := apply_chunks state rest in (chunk :: rest, found, errs)
      end
  end.
(** The chunks to send, the state, and the errors logged. *)
Definition apply (state : ClaudeInputTokenState) (chunks : list bytes) : list bytes * ClaudeInputTokenState * list Err :=
  if ct_handled state then (chunks, state, [])
  else let '(chunks, found, errs) := apply_chunks state chunks in (chunks, if found : bool then set_handled state else state, errs).
Definition TranslateStreamWithClaudeInputTokens {T} (translate : T -> bytes -> list bytes * T) (rawJSON : bytes) (param : T)
    (state : option ClaudeInputTokenState) : list bytes * T * option ClaudeInputTokenState * list Err :=
  let '(chunks, param) := translate param rawJSON in
  match state with
  | None => (chunks, param, None, [])
  | Some state => let '(chunks, state, errs) := apply state chunks in (chunks, param, Some state, errs)
  end.
End tokens.
