(* ===== verification/TokenProps.v ===== *)
(** * Token counting: termination and the rewriting of a stream

    The nesting of a content bounds the recursion over it; a translated stream is changed
    in one place at most, the input tokens of its first [message_start]. *)
From stdpp Require Import base tactics list gmap strings sorting.
From Stdlib Require Import Strings.Byte.
From S2P Require Import Prelude GoStrings JsonValue Data HostedPolicy Projection TokenText Tokens.
Open Scope Z_scope.

(** ** Recursion over contents *)
Section nesting.
Context `{GjsonLaws}.

(** More fuel never changes an answer, whatever the library does. *)
Lemma fold_opt_mono {A B} (f g : A -> B -> option B) l b r :
  (forall x b r, f x b = Some r -> g x b = Some r) -> fold_opt f l b = Some r -> fold_opt g l b = Some r.
Proof.
  intros Hfg. revert b. induction l as [|x l IH]; intros b; cbn [fold_opt]; [done|].
  destruct (f x b) as [b'|] eqn:E; [|done]. rewrite (Hfg _ _ _ E). apply IH.
Qed.
Lemma claude_content_more n : forall m content segments r, (n <= m)%nat ->
  collectClaudeContentTokenSegments n content segments = Some r -> collectClaudeContentTokenSegments m content segments = Some r.
Proof.
  induction n as [|n IH]; [done|]. intros [|m] content segments r Hm; [lia|]. apply le_S_n in Hm. cbn [collectClaudeContentTokenSegments].
  destruct (negb _); [done|]. destruct (bool_decide _); [done|]. destruct (g_is_array content).
  { apply fold_opt_mono. intros x b r'. by apply IH. }
  destruct (negb _); [done|]. destruct (content_kind _); try done; try by apply IH.
  destruct (collectClaudeContentTokenSegments n (g_get content "content") _) as [s1|] eqn:E; [|done]. apply (IH m) in E; [|done].
  rewrite E. by apply IH.
Qed.
Lemma chat_content_more n : forall m content segments r, (n <= m)%nat ->
  collectOpenAIContent n content segments = Some r -> collectOpenAIContent m content segments = Some r.
Proof.
  induction n as [|n IH]; [done|]. intros [|m] content segments r Hm; [lia|]. apply le_S_n in Hm. cbn [collectOpenAIContent].
  destruct (negb _); [done|]. destruct (bool_decide _); [done|]. destruct (g_is_array content); [|done].
  apply fold_opt_mono. intros x b r'. cbv zeta. repeat (destruct (bool_decide _); [done|]). destruct (bool_decide _); [by apply IH|].
  destruct (g_is_array x); [by apply IH|done].
Qed.

(** Below the fuel of its text a content is read in full. *)
Definition enough (n : nat) (content : gjson) : Prop := g_exists content = true -> (String.length (g_raw content) < n)%nat.
Lemma enough_get n r key : key ∈ nested_keys -> (String.length (g_raw r) <= n)%nat -> enough n (g_get r key).
Proof. intros Hk Hn He. pose proof (g_get_smaller r key Hk He). lia. Qed.
Lemma enough_each n r x : g_is_array r = true -> x ∈ g_each r -> (String.length (g_raw r) <= n)%nat -> enough n x.
Proof. intros Ha Hx Hn _. pose proof (g_each_smaller r x Ha Hx). lia. Qed.
Lemma fold_opt_ends {A B} (f : A -> B -> option B) l b : (forall x b, x ∈ l -> is_Some (f x b)) -> is_Some (fold_opt f l b).
Proof.
  revert b. induction l as [|x l IH]; intros b Hf; cbn [fold_opt]; [done|].
  destruct (Hf x b) as [b' ->]; [by left|]. apply IH. intros y c Hy. apply Hf. by right.
Qed.
Lemma claude_content_ends n : forall m content segments, (n < m)%nat ->
  enough n content -> is_Some (collectClaudeContentTokenSegments m content segments).
Proof.
  induction n as [|n IH]; intros [|m] content segments Hm Hn; try lia; cbn [collectClaudeContentTokenSegments];
    (destruct (g_exists content) eqn:E; cbn [negb]; [|done]); specialize (Hn E); [lia|].
  apply Nat.succ_lt_mono in Hm. destruct (bool_decide _); [done|]. destruct (g_is_array content) eqn:Ea.
  { apply fold_opt_ends. intros x s Hi. apply IH; [done|]. apply (enough_each _ content); try done; lia. }
  destruct (negb _); [done|].
  assert (forall key s, key ∈ nested_keys -> is_Some (collectClaudeContentTokenSegments m (g_get content key) s)) as Hg
    by (intros key s Hk; apply IH, enough_get; [done|done|lia]).
  assert ("content" ∈ nested_keys /\ "output" ∈ nested_keys) as [Hc Ho] by (split; [by left|by right; left]).
  destruct (content_kind _); try done; try by apply Hg.
  destruct (Hg "content" (add_texts content ["stdout"; "stderr"; "return_code"] segments) Hc) as [s1 ->]. by apply Hg.
Qed.
Lemma chat_content_ends n : forall m content segments, (n < m)%nat ->
  enough n content -> is_Some (collectOpenAIContent m content segments).
Proof.
  induction n as [|n IH]; intros [|m] content segments Hm Hn; try lia; cbn [collectOpenAIContent];
    (destruct (g_exists content) eqn:E; cbn [negb]; [|done]); specialize (Hn E); [lia|].
  apply Nat.succ_lt_mono in Hm. destruct (bool_decide _); [done|]. destruct (g_is_array content) eqn:Ea; [|by destruct (bool_decide _)].
  apply fold_opt_ends. intros x s Hi. cbv zeta. pose proof (g_each_smaller content x Ea Hi).
  repeat (destruct (bool_decide _); [done|]). destruct (bool_decide _); [apply IH, enough_get; [done|by left|lia]|].
  destruct (g_is_array x); [apply IH; [done|intros _; lia]|]. by destruct (bool_decide _).
Qed.
(** The fuel the callers give, and any more. *)
Lemma claude_nesting content segments : exists out, forall extra, collectClaudeContentTokenSegments (nesting content + extra) content segments = Some out.
Proof.
  destruct (claude_content_ends (S (String.length (g_raw content))) (nesting content) content segments) as [out E]; [unfold nesting; lia|intros _; lia|].
  exists out. intros extra. apply (claude_content_more (nesting content)); [lia|exact E].
Qed.
Lemma chat_nesting content segments : exists out, forall extra, collectOpenAIContent (nesting content + extra) content segments = Some out.
Proof.
  destruct (chat_content_ends (S (String.length (g_raw content))) (nesting content) content segments) as [out E]; [unfold nesting; lia|intros _; lia|].
  exists out. intros extra. apply (chat_content_more (nesting content)); [lia|exact E].
Qed.

Lemma claude_messages_end messages segments : is_Some (collectClaudeMessageTokenSegments messages segments).
Proof.
  unfold collectClaudeMessageTokenSegments. destruct (negb _); [done|]. apply fold_opt_ends. intros x b _.
  destruct (claude_nesting (g_get x "content") (add_texts x ["role"] b)) as [o Ho]. specialize (Ho O). rewrite Nat.add_0_r in Ho. by rewrite Ho.
Qed.
Lemma chat_messages_end messages segments : is_Some (collectOpenAIMessages messages segments).
Proof.
  unfold collectOpenAIMessages. destruct (_ || _); [done|]. apply fold_opt_ends. intros x b _. cbv zeta.
  destruct (chat_nesting (g_get x "content") (add_chat x ["role"; "name"] b)) as [o Ho]. specialize (Ho O). rewrite Nat.add_0_r in Ho. by rewrite Ho.
Qed.

(** C31 Reading a request for its token count always ends: the recursion over a content
    returns its segments within the fuel that its text gives, however deeply tool
    results, arrays and nested contents are put into each other, and with any more fuel
    the same; so neither a Messages nor a chat request ever runs out of it. *)
Theorem token_text_terminates (content : gjson) (segments : list string) (payload : bytes) (root : gjson) :
  (exists out, forall extra, collectClaudeContentTokenSegments (nesting content + extra) content segments = Some out) /\
  (exists out, forall extra, collectOpenAIContent (nesting content + extra) content segments = Some out) /\
  collectClaudeInputTokenSegments payload <> Fail errStuck /\ chat_segments root <> None.
Proof.
  split_and!; [apply claude_nesting|apply chat_nesting| |].
  - unfold collectClaudeInputTokenSegments. destruct (trim_bytes payload); [done|]. destruct (negb _); [done|]. cbv zeta.
    by destruct (claude_messages_end (g_get (gjson_parse payload) "messages") (collectClaudeSystemTokenSegments (g_get (gjson_parse payload) "system") [])) as [out ->].
  - unfold chat_segments. by destruct (chat_messages_end (g_get root "messages") []) as [out ->].
Qed.
End nesting.

(** ** The rewriting of a stream *)
(** What a [message_start] in a chunk of server-sent events is, without the scanner: a
    line of the chunk, up to its line feed and without one carriage return, that is
    [data:] and a payload of this type, blanks around both. *)
Definition blanks (b : bytes) : Prop := Forall (fun c => c = x20 \/ c = x09) b.
Definition unblank (c : byte) : Prop := c <> x20 /\ c <> x09.
Record data_line (line before payload after : bytes) : Prop := {
  dl_line : line = before ++ payload ++ after;
  dl_before : exists indent gap, before = indent ++ data_field ++ gap /\ blanks indent /\ blanks gap;
  dl_after : blanks after /\ (payload = [] -> after = []);
  dl_payload : forall c, (head payload = Some c \/ last payload = Some c) -> unblank c }.
Record line_of (chunk pre line cr post : bytes) : Prop := {
  lo_chunk : chunk = pre ++ (line ++ cr) ++ post;
  lo_pre : pre = [] \/ exists p, pre = p ++ [x0a];
  lo_post : post = [] \/ exists q, post = x0a :: q;
  lo_line : x0a ∉ line ++ cr;
  lo_cr : cr = [x0d] \/ (cr = [] /\ last line <> Some x0d) }.

Section rewriting.
Context `{Gjson} `{Tokenizers}.

(** The payload of a [message_start] lies between [before] and [after] in the chunk. *)
Definition starts (chunk before payload after : bytes) : Prop :=
  exists pre line cr post b a, line_of chunk pre line cr post /\ data_line line b payload a /\
    g_string (g_get (gjson_parse payload) "type") = "message_start" /\ before = pre ++ b /\ after = a ++ cr ++ post.
Definition startless (chunk : bytes) : Prop := forall before payload after, ~ starts chunk before payload after.
Definition first_start (chunk before payload after : bytes) : Prop :=
  starts chunk before payload after /\ forall b p a, starts chunk b p a -> (length before <= length b)%nat.
(** The count of the original request, by the codec of the state or the one of O200kBase. *)
Definition counts (state : ClaudeInputTokenState) (n : Z) : Prop :=
  exists enc segments, (ct_codec state = Some enc \/ ct_codec state = None /\ tokenizer_Get O200kBase = Ok enc) /\
    collectClaudeInputTokenSegments (ct_originalRequest state) = Ok segments /\
    (segments = [] /\ n = 0 \/ segments <> [] /\ codec_Count enc (Join segments newline) = Ok n).
Definition own_count (payload : bytes) : Prop :=
  let n := g_get (gjson_parse payload) "message.usage.input_tokens" in g_exists n = true /\ g_int n <> 0.
(** What the client gets for the chunk. *)
Definition sent (state : ClaudeInputTokenState) (chunk before payload after updated : bytes) : Prop :=
  (own_count payload -> updated = chunk) /\
  (forall n payload', ~ own_count payload -> counts state n -> n <> 0 -> sjson_set_input_tokens payload n = Ok payload' ->
     updated = before ++ payload' ++ after) /\
  (~ (exists n payload', counts state n /\ n <> 0 /\ sjson_set_input_tokens payload n = Ok payload') -> updated = chunk).

(** *** Blanks and data lines *)
Lemma blank_iff c : is_blank c = true <-> c = x20 \/ c = x09.
Proof. split; [by destruct c; try done; auto|by intros [-> | ->]]. Qed.
Lemma unblank_iff c : is_blank c = false <-> unblank c.
Proof. rewrite <-not_true_iff_false, blank_iff. unfold unblank. tauto. Qed.
Lemma drop_blanks_split b : exists i, b = i ++ drop_blanks b /\ blanks i /\ (forall c, head (drop_blanks b) = Some c -> unblank c).
Proof.
  induction b as [|c b (i & Hi & Hb & Hc)]; cbn [drop_blanks].
  { exists []. split_and!; [done|constructor|done]. }
  destruct (is_blank c) eqn:E.
  - exists (c :: i). split_and!; [by rewrite Hi at 1|constructor; [by apply blank_iff|done]|done].
  - exists []. split_and!; [done|constructor|]. intros d [= <-]. by apply unblank_iff.
Qed.
Lemma drop_blanks_app i b : blanks i -> drop_blanks (i ++ b) = drop_blanks b.
Proof. induction 1 as [|c i Hc Hi IH]; [done|]. cbn [app drop_blanks]. by apply blank_iff in Hc as ->. Qed.
Lemma drop_unblank b : (forall c, head b = Some c -> unblank c) -> drop_blanks b = b.
Proof. destruct b as [|c b]; [done|]. intros Hc. cbn [drop_blanks]. specialize (Hc c eq_refl). by apply unblank_iff in Hc as ->. Qed.
Lemma blanks_before_app i b : blanks i -> (forall c, head b = Some c -> unblank c) -> blanks_before (i ++ b) = length i.
Proof. intros Hi Hb. unfold blanks_before. rewrite drop_blanks_app, drop_unblank, length_app by done. lia. Qed.
Lemma blanks_reverse b : blanks b -> blanks (reverse b).
Proof. apply Forall_reverse. Qed.
Lemma data_field_head b c : head (data_field ++ b) = Some c -> unblank c.
Proof. change (head (data_field ++ b)) with (Some x64). intros [= <-]. split; discriminate. Qed.

Lemma data_line_bounds line before payload after :
  data_line line before payload after -> payload_bounds line = Some (length before, length before + length payload)%nat.
Proof.
  intros [-> (i & g & -> & Hi & Hg) [Ha He] Hp]. unfold payload_bounds.
  rewrite <-!app_assoc, drop_blanks_app, (drop_unblank (data_field ++ _)) by (done || apply data_field_head).
  rewrite take_app_length' by done. rewrite bool_decide_true by done.
  assert (forall c, head (payload ++ after) = Some c -> unblank c) as Hh.
  { destruct payload as [|p payload]; [by rewrite He|]. intros c [= <-]. apply Hp. by left. }
  assert (forall (x : bytes), (length (i ++ x) - length x = length i)%nat) as Hl by (intros x; rewrite length_app; lia).
  rewrite Hl.
  assert (drop (length i + 5) (i ++ data_field ++ g ++ payload ++ after) = g ++ payload ++ after) as ->.
  { rewrite app_assoc. apply drop_app_length'. by rewrite length_app. }
  rewrite (blanks_before_app g) by done.
  assert (length (i ++ data_field ++ g ++ payload ++ after) = (length i + 5 + length g + length payload + length after)%nat) as ->
    by (rewrite !length_app; change (length data_field) with 5%nat; lia).
  rewrite !length_app. change (length data_field) with 5%nat. destruct payload as [|p payload].
  { rewrite He by done. cbn [length]. f_equal. f_equal; lia. }
  rewrite !reverse_app, <-!app_assoc. rewrite (blanks_before_app (reverse after)).
  - rewrite length_reverse. cbn [length]. f_equal. f_equal; lia.
  - by apply blanks_reverse.
  - intros c Hc. apply Hp. right. rewrite <-(reverse_involutive (p :: payload)), last_reverse.
    destruct (reverse (p :: payload)) as [|d r] eqn:E; [|done]. apply (f_equal length) in E. by rewrite length_reverse in E.
Qed.
Lemma bounds_data_line line o e : payload_bounds line = Some (o, e) -> exists before payload after, data_line line before payload after.
Proof.
  unfold payload_bounds. destruct (bool_decide _) eqn:E; [|done]. intros _. apply bool_decide_eq_true in E.
  destruct (drop_blanks_split line) as (i & Hi & Hbi & _). rewrite <-(take_drop 5 (drop_blanks line)), E in Hi.
  set (rest := drop 5 (drop_blanks line)) in Hi. destruct (drop_blanks_split rest) as (g & Hg & Hbg & Hq).
  destruct (drop_blanks_split (reverse (drop_blanks rest))) as (t & Ht & Hbt & Hl). set (p := drop_blanks (reverse _)) in *.
  assert (drop_blanks rest = reverse p ++ reverse t) as Hr by (rewrite <-reverse_app, <-Ht; by rewrite reverse_involutive).
  destruct (decide (p = [])) as [Ep|Ep].
  - assert (drop_blanks rest = []) as Hn.
    { destruct (drop_blanks rest) as [|c r] eqn:Er; [done|]. specialize (Hq c eq_refl). rewrite Ep in Hr. cbn [reverse rev_append app] in Hr.
      assert (blanks (c :: r)) as Hb by (rewrite Hr; by apply blanks_reverse). apply Forall_cons in Hb as [Hb _]. unfold unblank in Hq. tauto. }
    exists line, [], []. split; [by rewrite !app_nil_r| |split; [constructor|done]|by intros c [[=]|[=]]].
    exists i, g. split_and!; [|done|done]. rewrite Hi, Hg, Hn. by rewrite app_nil_r.
  - exists (i ++ data_field ++ g), (reverse p), (reverse t). split.
    + rewrite Hi, Hg at 1. rewrite Hr. by rewrite <-!app_assoc.
    + by exists i, g.
    + split; [by apply blanks_reverse|]. intros Er. destruct Ep. by rewrite <-(reverse_involutive p), Er.
    + intros c [Hc|Hc].
      * apply Hq. rewrite Hr. destruct (reverse p); [done|exact Hc].
      * apply Hl. rewrite last_reverse in Hc. exact Hc.
Qed.

(** *** Lines *)
Lemma index_newline_some b n : index_newline b = Some n -> b = take n b ++ x0a :: drop (S n) b /\ x0a ∉ take n b /\ (n < length b)%nat.
Proof.
  revert n. induction b as [|c b IH]; intros n; cbn [index_newline]; [done|]. destruct (decide (c = x0a)) as [->|Hc].
  { intros [= <-]. cbn. split_and!; [done|apply not_elem_of_nil|lia]. }
  intros E. assert (S <$> index_newline b = Some n) as Hn by (destruct c; done || (by destruct Hc)).
  apply fmap_Some in Hn as (k & Hk & ->). destruct (IH k Hk) as (Hb & Ho & Hl). cbn [take drop app length].
  split_and!; [by rewrite Hb at 1|by apply not_elem_of_cons; split; [congruence|]|lia].
Qed.
Lemma index_newline_app raw post : x0a ∉ raw -> (post = [] \/ exists q, post = x0a :: q) ->
  index_newline (raw ++ post) = match post with [] => None | _ => Some (length raw) end.
Proof.
  intros Hr Hp. induction raw as [|c raw IH]; cbn [app].
  { destruct Hp as [->|[q ->]]; done. }
  apply not_elem_of_cons in Hr as [Hc Hr]. specialize (IH Hr). destruct c; try (cbn [index_newline]; rewrite IH; by destruct post). by destruct Hc.
Qed.
Definition strip_cr (raw : bytes) : bytes := match reverse raw with x0d :: rest => reverse rest | _ => raw end.
Lemma strip_cr_split raw : exists cr, raw = strip_cr raw ++ cr /\ (cr = [x0d] \/ cr = [] /\ last (strip_cr raw) <> Some x0d).
Proof.
  unfold strip_cr. destruct (decide (head (reverse raw) = Some x0d)) as [Hh|Hh].
  - destruct (reverse raw) as [|c r] eqn:E; [done|]. injection Hh as ->. exists [x0d]. split; [|by left].
    rewrite <-(reverse_involutive raw), E. by rewrite reverse_cons.
  - assert (match reverse raw with x0d :: rest => reverse rest | _ => raw end = raw) as ->
      by (destruct (reverse raw) as [|[] r]; try done; by destruct Hh).
    exists []. split; [by rewrite app_nil_r|right]. split; [done|]. by rewrite <-(reverse_involutive raw), last_reverse.
Qed.
Lemma strip_cr_app line cr : cr = [x0d] \/ cr = [] /\ last line <> Some x0d -> strip_cr (line ++ cr) = line.
Proof.
  intros [->|[-> Hl]]; unfold strip_cr.
  - rewrite reverse_snoc. apply reverse_involutive.
  - rewrite app_nil_r. rewrite <-(reverse_involutive line), last_reverse in Hl. destruct (reverse line) as [|[] r]; try done.
Qed.
(** The raw line at [k]. *)
Definition raw_line (chunk : bytes) (k : nat) : bytes := take (line_end chunk k - k) (drop k chunk).
Lemma line_content_raw chunk k : line_content chunk k = strip_cr (raw_line chunk k).
Proof. done. Qed.
Lemma raw_line_split chunk k : (k <= length chunk)%nat -> exists post,
  drop k chunk = raw_line chunk k ++ post /\ (post = [] \/ exists q, post = x0a :: q) /\ x0a ∉ raw_line chunk k /\
  line_end chunk k = (k + length (raw_line chunk k))%nat.
Proof.
  intros Hk. unfold raw_line, line_end. destruct (index_newline _) as [n|] eqn:E.
  - apply index_newline_some in E as (Hb & Ho & Hl). replace (k + n - k)%nat with n by lia. eexists. split_and!; [exact Hb|eauto|done|].
    rewrite length_take. lia.
  - exists []. rewrite take_ge by (rewrite length_drop; lia). split_and!; [by rewrite app_nil_r|by left| |rewrite length_drop; lia].
    intros Hi. apply list_elem_of_split in Hi as (l & r & Hb). revert E. clear Hk. rewrite Hb. clear Hb.
    induction l as [|c l IH]; [done|]. cbn [app]. destruct c; cbn [index_newline]; try done; destruct (index_newline (l ++ x0a :: r)); done.
Qed.
Definition line_start (chunk : bytes) (k : nat) : Prop := (k <= length chunk)%nat /\ (k = O \/ exists j, k = S j /\ chunk !! j = Some x0a).
Lemma line_at chunk k : line_start chunk k -> exists cr post, line_of chunk (take k chunk) (line_content chunk k) cr post.
Proof.
  intros [Hk Hs]. destruct (raw_line_split chunk k Hk) as (post & Hd & Hp & Ho & _). rewrite line_content_raw.
  destruct (strip_cr_split (raw_line chunk k)) as (cr & Hr & Hc). exists cr, post. split; [|..|done|by rewrite <-Hr|done].
  - rewrite <-Hr, <-Hd. by rewrite take_drop.
  - destruct Hs as [->|(j & -> & Hj)]; [by left|right]. exists (take j chunk). by apply take_S_r.
Qed.
Lemma line_of_at chunk pre line cr post : line_of chunk pre line cr post ->
  line_start chunk (length pre) /\ line_content chunk (length pre) = line /\ line_end chunk (length pre) = (length pre + length (line ++ cr))%nat.
Proof.
  intros [-> Hp Ho Hl Hc]. pose proof (index_newline_app (line ++ cr) post Hl Ho) as Hi.
  assert (line_end (pre ++ (line ++ cr) ++ post) (length pre) = (length pre + length (line ++ cr))%nat) as He.
  { unfold line_end. rewrite drop_app_length, Hi. destruct post; [|done]. rewrite app_nil_r, length_app. done. }
  split_and!; [|rewrite line_content_raw; unfold raw_line|done].
  - split; [rewrite length_app; lia|]. destruct Hp as [->|[p ->]]; [by left|right]. exists (length p). rewrite length_app. split; [cbn; lia|].
    rewrite <-app_assoc. by rewrite lookup_app_r, Nat.sub_diag by lia.
  - rewrite He, drop_app_length. rewrite take_app_length' by lia. by apply strip_cr_app.
Qed.
Lemma next_line_start chunk k j : line_start chunk j -> (k < j)%nat -> (k <= length chunk)%nat -> (S (line_end chunk k) <= j)%nat.
Proof.
  intros [Hl Hs] Hj Hk. destruct Hs as [->|(i & -> & Hi)]; [lia|]. destruct (raw_line_split chunk k Hk) as (post & Hd & _ & Ho & He).
  destruct (decide (i < line_end chunk k)%nat) as [Hlt|]; [|lia]. destruct Ho.
  apply list_elem_of_lookup_2 with (i - k)%nat. unfold raw_line. rewrite lookup_take_lt by lia. rewrite lookup_drop. by replace (k + (i - k))%nat with i by lia.
Qed.
Lemma message_start_iff chunk k s e : line_start chunk k -> message_start_at chunk k = Some (s, e) ->
  starts chunk (take s chunk) (slice s e chunk) (drop e chunk) /\ (s <= line_end chunk k)%nat.
Proof.
  intros Hk. unfold message_start_at. destruct (payload_bounds (line_content chunk k)) as [[o f]|] eqn:E; [|done].
  destruct (is_message_start _) eqn:Em; [|done]. intros [= <- <-]. apply bool_decide_eq_true in Em.
  destruct (bounds_data_line _ _ _ E) as (b & p & a & Hd). pose proof (data_line_bounds _ _ _ _ Hd) as Eb. rewrite E in Eb. injection Eb as -> ->.
  destruct (line_at chunk k Hk) as (cr & post & Hl). pose proof (line_of_at _ _ _ _ _ Hl) as (_ & _ & He).
  assert (length (take k chunk) = k) as Hlk by (rewrite length_take; destruct Hk; lia). rewrite Hlk in He.
  assert (chunk = (take k chunk ++ b) ++ p ++ a ++ cr ++ post) as Hc.
  { rewrite (lo_chunk _ _ _ _ _ Hl) at 1. rewrite (dl_line _ _ _ _ Hd). by rewrite <-!app_assoc. }
  assert (length (take k chunk ++ b) = (k + length b)%nat) as Hlb by (rewrite length_app; lia).
  assert (take (k + length b) chunk = take k chunk ++ b) as Ht by (rewrite Hc at 1; by apply take_app_length').
  assert (drop (k + length b) chunk = p ++ a ++ cr ++ post) as Hdr by (rewrite Hc at 1; by apply drop_app_length').
  assert (slice (k + length b) (k + (length b + length p)) chunk = p) as Hs.
  { unfold slice. rewrite Hdr. apply take_app_length'. lia. }
  assert (drop (k + (length b + length p)) chunk = a ++ cr ++ post) as Hf.
  { replace (k + (length b + length p))%nat with ((k + length b) + length p)%nat by lia. rewrite <-drop_drop, Hdr. apply drop_app_length. }
  rewrite Hs in Em |- *. rewrite Ht, Hf. split; [exists (take k chunk), (line_content chunk k), cr, post, b, a; by split_and!|].
  rewrite He, (dl_line _ _ _ _ Hd), !length_app. lia.
Qed.
Lemma starts_at chunk before payload after : starts chunk before payload after ->
  exists k, line_start chunk k /\ message_start_at chunk k = Some (length before, length before + length payload)%nat /\ (k <= length before)%nat.
Proof.
  intros (pre & line & cr & post & b & a & Hl & Hd & Hm & -> & ->). destruct (line_of_at _ _ _ _ _ Hl) as (Hk & Hc & _).
  exists (length pre). split; [done|]. unfold message_start_at. rewrite Hc, (data_line_bounds _ _ _ _ Hd).
  assert (slice (length pre + length b) (length pre + (length b + length payload)) chunk = payload) as ->.
  { rewrite (lo_chunk _ _ _ _ _ Hl), (dl_line _ _ _ _ Hd). unfold slice. rewrite <-!app_assoc, (app_assoc pre b).
    rewrite drop_app_length' by (by rewrite length_app). rewrite take_app_length' by lia. done. }
  unfold is_message_start. rewrite bool_decide_true by done. rewrite length_app. split; [|lia]. f_equal. f_equal; lia.
Qed.

(** *** The scanner *)
(** From a line start the scanner answers for the next line that has a [message_start]. *)
Lemma apply_lines_scan state chunk fuel : forall k, line_start chunk k -> (length chunk < fuel + k)%nat ->
  match apply_lines state chunk fuel k with
  | None => forall j, line_start chunk j -> (k <= j)%nat -> message_start_at chunk j = None
  | Some r => exists j s e, line_start chunk j /\ message_start_at chunk j = Some (s, e) /\ r = start_chunk state chunk s e /\
                (forall i, line_start chunk i -> (k <= i < j)%nat -> message_start_at chunk i = None)
  end.
Proof.
  assert (forall j, line_start chunk j -> (length chunk <= j)%nat -> message_start_at chunk j = None) as Hend.
  { intros j [Hj _] Hl. replace j with (length chunk) by lia. unfold message_start_at, line_content, slice. rewrite drop_ge by lia. by rewrite take_nil. }
  induction fuel as [|fuel IH]; intros k Hk Hf; cbn [apply_lines]; [destruct Hk; lia|].
  destruct (k <? length chunk)%nat eqn:El. 2: { apply Nat.ltb_ge in El. intros j Hj Hkj. apply Hend; [done|lia]. }
  apply Nat.ltb_lt in El. destruct (message_start_at chunk k) as [[s e]|] eqn:E.
  { exists k, s, e. split_and!; try done. intros i _ Hi. lia. }
  assert (forall j, line_start chunk j -> (k <= j)%nat -> (j < S (line_end chunk k))%nat -> message_start_at chunk j = None) as Hskip.
  { intros j Hj Hkj Hje. destruct (decide (j = k)) as [->|]; [done|]. pose proof (next_line_start chunk k j Hj). lia. }
  destruct (line_end chunk k =? length chunk)%nat eqn:Ee.
  { apply Nat.eqb_eq in Ee. intros j Hj Hkj. apply Hskip; [done|done|]. destruct Hj. lia. }
  apply Nat.eqb_neq in Ee. destruct (raw_line_split chunk k) as (post & Hd & Hp & _ & He); [lia|].
  assert (line_start chunk (S (line_end chunk k))) as Hn.
  { assert (length (drop k chunk) = (length (raw_line chunk k) + length post)%nat) as Hl by (rewrite Hd; apply length_app).
    rewrite length_drop in Hl. destruct Hp as [->|[q ->]]; [cbn [length] in Hl; lia|]. cbn [length] in Hl.
    split; [lia|right; exists (line_end chunk k); split; [done|]].
    rewrite He, <-lookup_drop, Hd, lookup_app_r, Nat.sub_diag by lia. done. }
  specialize (IH _ Hn ltac:(lia)). destruct (apply_lines state chunk fuel _) as [r|].
  - destruct IH as (j & s & e & Hj & Hm & -> & Hi). exists j, s, e. split_and!; try done. intros i Hli Hki.
    destruct (decide (i < S (line_end chunk k))%nat); [apply Hskip; [done|lia|lia]|apply Hi; [done|lia]].
  - intros j Hj Hkj. destruct (decide (j < S (line_end chunk k))%nat); [by apply Hskip|apply IH; [done|lia]].
Qed.
Lemma counts_estimate state n : counts state n <-> estimate state = Ok n.
Proof.
  unfold counts, estimate, claudeInputTokenizer, wrap_count, countClaudeInputTokens. split.
  - intros (enc & segments & He & Hs & Hn).
    destruct He as [-> |[-> ->]]; rewrite Hs; (destruct Hn as [[-> ->]|[Hne Hc]]; [done|destruct segments; [done|by rewrite Hc]]).
  - intros Hn. destruct (ct_codec state) as [enc|] eqn:Ec.
    + destruct (collectClaudeInputTokenSegments _) as [segments|] eqn:Es; [|done]. exists enc, segments. split_and!; [by left|done|].
      destruct segments; [by injection Hn as <-; left|right]. split; [done|]. destruct (codec_Count _ _); [|done]. by injection Hn as <-.
    + destruct (tokenizer_Get O200kBase) as [enc|] eqn:Et; [|done].
      destruct (collectClaudeInputTokenSegments _) as [segments|] eqn:Es; [|done]. exists enc, segments. split_and!; [by right|done|].
      destruct segments; [by injection Hn as <-; left|right]. split; [done|]. destruct (codec_Count _ _); [|done]. by injection Hn as <-.
Qed.
Lemma start_chunk_sent state chunk s e : sent state chunk (take s chunk) (slice s e chunk) (drop e chunk) (start_chunk state chunk s e).1.
Proof.
  unfold sent, own_count, start_chunk. cbv zeta. set (n := g_get _ _). setoid_rewrite counts_estimate.
  destruct (g_exists n && negb (g_int n =? 0)) eqn:E.
  { apply andb_true_iff in E as [Ex En]. apply negb_true_iff, Z.eqb_neq in En. split_and!; [done| |done]. intros m p Hno. by destruct Hno. }
  assert (~ (g_exists n = true /\ g_int n <> 0)) as Ho.
  { intros [Ex En]. rewrite Ex in E. cbn in E. apply negb_false_iff, Z.eqb_eq in E. done. }
  split; [done|]. destruct (estimate state) as [count|err]; [|split; [by intros|done]].
  destruct (count =? 0) eqn:Ec; [apply Z.eqb_eq in Ec as ->|apply Z.eqb_neq in Ec].
  { split; [|done]. by intros m p _ [= <-]. }
  destruct (sjson_set_input_tokens _ count) as [p'|err] eqn:Es.
  - split; [intros m p _ [= <-] _; rewrite Es; by intros [= <-]|]. intros Hno. destruct Hno. by exists count, p'.
  - split; [|done]. intros m p _ [= <-] _. by rewrite Es.
Qed.
Lemma applyChunk_scan state chunk :
  match applyChunk state chunk with
  | None => startless chunk
  | Some r => exists before payload after, first_start chunk before payload after /\ sent state chunk before payload after r.1
  end.
Proof.
  assert (line_start chunk 0) as H0l by (split; [lia|by left]).
  pose proof (apply_lines_scan state chunk (S (length chunk)) 0 H0l ltac:(lia)) as Hs. unfold applyChunk.
  destruct (apply_lines _ _ _ _) as [r|].
  - destruct Hs as (j & s & e & Hj & Hm & -> & Hi). destruct (message_start_iff _ _ _ _ Hj Hm) as [Hst Hse].
    exists (take s chunk), (slice s e chunk), (drop e chunk). split; [|apply start_chunk_sent]. split; [done|].
    intros b p a Hb. destruct (starts_at _ _ _ _ Hb) as (k & Hk & Hmk & Hkb). rewrite length_take.
    destruct (decide (k < j)%nat); [by rewrite Hi in Hmk by (done || lia)|]. destruct (decide (k = j)) as [->|].
    + rewrite Hm in Hmk. injection Hmk as -> _. lia.
    + pose proof (next_line_start chunk j k Hk ltac:(lia) ltac:(destruct Hj; lia)). lia.
  - intros b p a Hb. destruct (starts_at _ _ _ _ Hb) as (k & Hk & Hmk & _). by rewrite Hs in Hmk by (done || lia).
Qed.
Lemma apply_chunks_scan state chunks : forall out found errs,
  apply_chunks state chunks = (out, found, errs) ->
  if found : bool then
    exists pre chunk updated post before payload after, chunks = pre ++ chunk :: post /\ out = pre ++ updated :: post /\
      Forall startless pre /\ first_start chunk before payload after /\ sent state chunk before payload after updated
  else out = chunks /\ Forall startless chunks.
Proof.
  induction chunks as [|chunk rest IH]; intros out found errs; cbn [apply_chunks].
  { intros [= <- <- <-]. by split. }
  pose proof (applyChunk_scan state chunk) as Hs. destruct (applyChunk state chunk) as [[updated e]|].
  - intros [= <- <- <-]. destruct Hs as (b & p & a & Hf & Hu). exists [], chunk, updated, rest, b, p, a. by split_and!.
  - destruct (apply_chunks state rest) as [[out' found'] errs'] eqn:Er. intros [= <- <- <-]. specialize (IH _ _ _ eq_refl).
    destruct found'.
    + destruct IH as (pre & c & u & post & b & p & a & -> & -> & Hp & Hf & Hr). exists (chunk :: pre), c, u, post, b, p, a.
      split_and!; try done. by constructor.
    + destruct IH as [-> Hp]. split; [done|by constructor].
Qed.
(** A stream as the batches the translator gives. *)
Fixpoint apply_batches (state : ClaudeInputTokenState) (batches : list (list bytes)) : list (list bytes) * ClaudeInputTokenState :=
  match batches with
  | [] => ([], state)
  | chunks :: rest =>
      let '(chunks, state, _) := apply state chunks in let '(rest, state) := apply_batches state rest in (chunks :: rest, state)
  end.
Lemma apply_batches_handled state batches : ct_handled state = true -> apply_batches state batches = (batches, state).
Proof.
  intros Hh. induction batches as [|chunks rest IH]; cbn [apply_batches]; [done|]. unfold apply. rewrite Hh. by rewrite IH.
Qed.

(** C32 Over a whole stream, however its chunks are batched, at most one chunk changes:
    the first that has a [message_start] - a line of it that is [data:] and a payload of
    this type, blanks around it and its carriage return apart - and in that chunk only
    the payload of its first [message_start], to what sjson gives for the estimated
    count: exactly when the payload has no count of its own and the estimate is known
    and not zero.  Without a [message_start] nothing changes, the batches keep their
    sizes, and nothing is rewritten twice. *)
Theorem claude_usage_rewritten_once (state : ClaudeInputTokenState) (batches : list (list bytes)) :
  let out := (apply_batches state batches).1 in
  let state' := (apply_batches state batches).2 in
  length <$> out = length <$> batches /\
  if ct_handled state then out = batches /\ state' = state
  else (out = batches /\ state' = state /\ Forall startless (concat batches)) \/
       (state' = set_handled state /\
        exists pre chunk updated post before payload after, concat batches = pre ++ chunk :: post /\ concat out = pre ++ updated :: post /\
          Forall startless pre /\ first_start chunk before payload after /\ sent state chunk before payload after updated).
Proof.
  cbv zeta. destruct (ct_handled state) eqn:Hh; [by rewrite apply_batches_handled|].
  induction batches as [|chunks rest IH]; cbn [apply_batches]; [split; [done|left]; by split_and!|].
  unfold apply. rewrite Hh. destruct (apply_chunks state chunks) as [[out found] errs] eqn:E.
  pose proof (apply_chunks_scan state chunks out found errs E) as Hc. destruct found.
  - rewrite (apply_batches_handled (set_handled state) rest) by done. cbn [fst snd].
    destruct Hc as (pre & chunk & updated & post & b & p & a & -> & -> & Hp & Hf & Hr). split.
    + by rewrite !fmap_cons, !length_app.
    + right. split; [done|]. exists pre, chunk, updated, (post ++ concat rest), b, p, a. cbn [concat]. rewrite <-!app_assoc. by split_and!.
  - destruct Hc as [-> Hp]. destruct (apply_batches state rest) as [out' state'] eqn:Er. cbn [fst snd] in *.
    destruct IH as [Hl IH]. split; [by rewrite !fmap_cons, Hl|].
    destruct IH as [(-> & -> & Hn)|(Hs & pre & chunk & updated & post & b & p & a & Hb & Ho & Hf & Hx & Hr)]; [left|right].
    + split_and!; try done. cbn [concat]. by apply Forall_app.
    + split; [done|]. exists (chunks ++ pre), chunk, updated, post, b, p, a. cbn [concat]. rewrite Hb, Ho, <-!app_assoc.
      split_and!; try done. by apply Forall_app.
Qed.
End rewriting.

(** ** Examples
    gjson over decoded values whose text is what [show_json] prints, with its law, and a
    tokenizer that counts bytes. *)

Fixpoint get_path (v : any) (path : list string) : option any :=
  match path with
  | [] => Some v
  | key :: path => match v with AnyMap m => x ← map_find m key; get_path x path | _ => None end
  end.
Fixpoint split_dots (b : bytes) : list bytes :=
  match b with
  | [] => [[]]
  | x2e :: b => [] :: split_dots b
  | c :: b => match split_dots b with part :: rest => (c :: part) :: rest | [] => [[c]] end
  end.
Definition value_type (v : option any) : gjsonType :=
  match v with
  | None | Some AnyNil => GNull
  | Some (AnyBool b) => if b then GTrue else GFalse
  | Some (AnyInt _ | AnyFloat _ _ | AnyNumber _) => GNumber
  | Some (AnyString _) => GString
  | Some (AnyList _ | AnyMap _) => GJSON
  end.
Definition parsed_gjson (parse : bytes -> any) : Gjson :=
  {| gjson := option any; gjson_valid _ := true; gjson_parse b := Some (parse b);
     g_get r key := v ← r; match split_dots (to_bytes key) with [] => None | k :: ks =>
                      match v with AnyMap m => x ← map_find m (of_bytes k); get_path x (of_bytes <$> ks) | _ => None end end;
     g_exists r := match r with Some _ => true | None => false end;
     g_type := value_type;
     g_is_array r := match r with Some (AnyList _) => true | _ => false end;
     g_is_object r := match r with Some (AnyMap _) => true | _ => false end;
     g_string r := match r with Some (AnyString s) => s | Some v => show_json v | None => "" end;
     g_raw r := match r with Some v => show_json v | None => "" end;
     g_int r := match r with Some (AnyInt z) => z | _ => 0 end;
     g_each r := match r with Some (AnyList l) => Some <$> l | _ => [] end;
     json_compact s := Some s |}.

Lemma strlen_app s t : String.length (s +:+ t) = (String.length s + String.length t)%nat.
Proof. induction s as [|c s IH]; [done|]. change (S (String.length (s +:+ t)) = S (String.length s + String.length t)). by rewrite IH. Qed.
Lemma Join_length parts sep s : s ∈ parts -> (String.length s <= String.length (Join parts sep))%nat.
Proof.
  induction parts as [|p parts IH]; [by intros ?%not_elem_of_nil|]. intros Hs. destruct parts as [|q parts].
  - apply list_elem_of_singleton in Hs as ->. done.
  - change (Join (p :: q :: parts) sep) with (p +:+ sep +:+ Join (q :: parts) sep). rewrite !strlen_app.
    apply elem_of_cons in Hs as [->|Hs]; [lia|]. specialize (IH Hs). lia.
Qed.
Lemma list_text l x : x ∈ l -> (String.length (show_json x) < String.length (show_json (AnyList l)))%nat.
Proof.
  intros Hx. cbn [show_json]. rewrite !strlen_app. cbn [String.length].
  assert (show_json x ∈ (fix go l := match l with [] => [] | x :: l => show_json x :: go l end) l) as Hi.
  { induction l as [|y l IH]; [by apply not_elem_of_nil in Hx|]. apply elem_of_cons in Hx as [->|Hx]; [by left|right; auto]. }
  pose proof (Join_length _ "," _ Hi). lia.
Qed.
Lemma map_text m key x : map_find m key = Some x -> (String.length (show_json x) < String.length (show_json (AnyMap m)))%nat.
Proof.
  unfold map_find. destruct (List.find _ m) as [[k v]|] eqn:E; [|done]. intros [= <-]. apply List.find_some in E as [E _].
  cbn [show_json]. rewrite !strlen_app. cbn [String.length].
  assert ((quoted k +:+ ":" +:+ show_json v) ∈ (fix go l := match l with [] => [] | (k, x) :: l => (quoted k +:+ ":" +:+ show_json x) :: go l end) m) as Hi.
  { induction m as [|[k' v'] m IH]; [done|]. destruct E as [[= <- <-]|E]; [by left|right; auto]. }
  pose proof (Join_length _ "," _ Hi) as Hl. rewrite !strlen_app in Hl. lia.
Qed.
Lemma path_text path : forall v x, get_path v path = Some x -> (String.length (show_json x) <= String.length (show_json v))%nat.
Proof.
  induction path as [|key path IH]; intros v x; cbn [get_path]; [by intros [= ->]|]. destruct v; try done.
  intros (y & Hy & Hx)%bind_Some. apply IH in Hx. apply map_text in Hy. lia.
Qed.
#[export] Instance tree_laws parse : @GjsonLaws (parsed_gjson parse).
Proof.
  split; cbn [parsed_gjson g_exists g_get g_raw g_is_array g_each].
  - intros r key _. destruct r as [v|]; cbn [mbind option_bind]; [|done]. destruct (split_dots _) as [|k ks]; [done|]. destruct v; try done.
    destruct (map_find entries (of_bytes k)) as [y|] eqn:Ey; cbn [mbind option_bind]; [|done].
    destruct (get_path y _) as [x|] eqn:Ex; [|done]. intros _. apply path_text in Ex. apply map_text in Ey. lia.
  - intros [[]|] x; try done. intros _ (y & -> & Hy)%list_elem_of_fmap. by apply list_text.
Qed.

(** ** Segments *)
Definition sample_content : any :=
  AnyMap [("type", AnyString "tool_result"); ("tool_use_id", AnyString "call-1");
          ("content", AnyList [AnyMap [("type", AnyString "text"); ("text", AnyString " found it ")];
                               AnyMap [("type", AnyString "image"); ("source", AnyMap [])]; AnyList [AnyString "end"]])].
Definition sample_request : any := AnyMap [("messages", AnyList [AnyMap [("role", AnyString "user"); ("content", AnyList [sample_content])]])].
Definition sample_gjson : Gjson := parsed_gjson (fun _ => sample_request).
Example sample_segments : @collectClaudeInputTokenSegments sample_gjson (to_bytes "{}") = Ok ["user"; "call-1"; "found it"; "end"].
Proof. vm_compute. reflexivity. Qed.
Lemma token_text_terminates_witness :
  (forall extra, @collectClaudeContentTokenSegments sample_gjson (@nesting sample_gjson (Some sample_content) + extra) (Some sample_content) [] =
                 Some ["call-1"; "found it"; "end"]) /\
  @collectClaudeInputTokenSegments sample_gjson (to_bytes "{}") = Ok ["user"; "call-1"; "found it"; "end"].
Proof.
  destruct (@token_text_terminates sample_gjson (tree_laws (fun _ => sample_request)) (Some sample_content) [] (to_bytes "{}") None) as ((out & Hout) & _ & _ & _).
  split; [|vm_compute; reflexivity]. intros extra. rewrite (Hout extra). rewrite <-(Hout 0%nat). vm_compute. reflexivity.
Defined.

(** ** A stream *)
(** The one payload that is a [message_start], without tokens; sjson writes the count
    alone. *)
Definition start_payload : bytes := to_bytes "{..}".
Definition start_gjson : Gjson :=
  parsed_gjson (fun b => if bool_decide (b = start_payload) then AnyMap [("type", AnyString "message_start")]
                         else AnyMap [("type", AnyString "ping"); ("system", AnyString "be brief")]).
Definition sample_tokenizers : Tokenizers :=
  {| codec := unit; tokenizer_Get _ := Ok tt; tokenizer_ForModel _ := Ok tt; codec_Count _ text := Ok (len text);
     sjson_set_input_tokens _ n := Ok (to_bytes (Itoa n)) |}.
Definition sample_state : @ClaudeInputTokenState sample_tokenizers :=
  @NewClaudeInputTokenState sample_tokenizers FormatClaude FormatOpenAI FormatClaude (to_bytes "{}").
Definition lf : bytes := [x0a].
Definition sample_chunk (payload : bytes) : bytes := to_bytes "event: message_start" ++ lf ++ to_bytes "data: " ++ payload ++ [x0d] ++ lf ++ lf.
Definition sample_batches : list (list bytes) :=
  [[to_bytes ": message_start"]; [sample_chunk (to_bytes "{}") ++ sample_chunk start_payload; sample_chunk start_payload]; [sample_chunk start_payload]].
Definition sample_rewritten : list (list bytes) :=
  [[to_bytes ": message_start"]; [sample_chunk (to_bytes "{}") ++ sample_chunk (to_bytes "8"); sample_chunk start_payload]; [sample_chunk start_payload]].
Lemma claude_usage_rewritten_once_witness :
  (@apply_batches start_gjson sample_tokenizers sample_state sample_batches).1 = sample_rewritten /\
  exists pre chunk updated post before payload after, concat sample_batches = pre ++ chunk :: post /\ concat sample_rewritten = pre ++ updated :: post /\
    @first_start start_gjson chunk before payload after /\ updated <> chunk.
Proof.
  pose proof (@claude_usage_rewritten_once start_gjson sample_tokenizers sample_state sample_batches) as [_ Ht].
  assert ((@apply_batches start_gjson sample_tokenizers sample_state sample_batches).1 = sample_rewritten) as E by (vm_compute; reflexivity).
  assert (concat sample_rewritten <> concat sample_batches) as Hn by (apply (bool_decide_eq_false_1 (concat sample_rewritten = concat sample_batches)); vm_compute; reflexivity).
  split; [exact E|]. rewrite E in Ht. change (@ct_handled sample_tokenizers sample_state) with false in Ht. cbv iota in Ht.
  destruct Ht as [[Ht _]|(_ & pre & chunk & updated & post & b & p & a & Hc & Ho & _ & Hf & _)]; [by destruct Hn; rewrite Ht|].
  exists pre, chunk, updated, post, b, p, a. split; [exact Hc|]. split; [exact Ho|]. split; [exact Hf|].
  intros ->. apply Hn. rewrite Ho. symmetry. exact Hc.
Defined.
