(* ===== verification/Prepare.v ===== *)
(** * A request of the executor from end to end (src/cursoragentv1/executor.go)

    [prepare] composes the credential, its profile, the bootstrap of the run, the
    translation of the request and the calls on the manager; [Execute] and
    [ExecuteStream] add the follow-up run and the delivery through a projection. *)
From stdpp Require Import base tactics list gmap strings sorting.
From Stdlib Require Import Strings.Byte.
From S2P Require Import Prelude GoStrings Sha256 JsonValue Connect Data HostedPolicy EventSnapshot Segment StoreState Manager Media HostedSearch Projection Delivery History Translate TranslateRequest TranslateTurn Credentials Dispatch Sand SandTools SandWire.
Open Scope Z_scope.

Local Notation "x <-? m ;; k" := (rbind m (fun x => k)) (at level 100, m at next level, right associativity).

Definition runtimeProfileKey : string := "beefapi_cursor_runtime_profile".
Definition errNotConfigured : Err := ErrMsg "Cursor Agent v1 executor is not configured".

Section prepare.
Context `{JSON} `{Digest} `{SDK} `{Outside} `{SandOutside} (unicode_lower : string -> string) (overflowed : Z).
(** The refresh server and the clock; flights that were joined; the context. *)
Context (refreshURL : string) (now : Z).
Context (refresh_leader : string -> option Auth) (endpoint_leader : string -> option (string * string * string)).
Context (ctx_done : nat -> option Err).
(** What the manager answers; whether the context is done at a select and what [Park]
    returns, while the follow-up is prepared and while the output is delivered. *)
Context (answer : call -> result Output) (chain_cancelled chain_parked cancelled parked : nat -> option Err).
(** The executor and its manager are there; the context of the request. *)
Context (configured : bool) (context : option nat).

(** The server and the token of the run. *)
Definition run_endpoint (auth : Auth) (profile : string) (credential : executorCredentials) (c : caches) : result (string * string) * caches :=
  if bool_decide (profile = runtimeSand) then
    let '(token, c) := validateCursorCredentialIdentity refreshURL now refresh_leader ctx_done auth (ec_AccessToken credential) c in
    (match token with Ok token => Ok (defaultInferenceBaseURL, token) | Fail e => Fail e end, c)
  else
    bootstrapCursorRun unicode_lower refreshURL now refresh_leader endpoint_leader ctx_done auth (ec_BaseURL credential) (ec_AccessToken credential)
      (ec_ClientVersion credential) c.
Definition with_profile (profile : string) (opts : Options) : Options :=
  {| op_Metadata := map_set (op_Metadata opts) runtimeProfileKey (AnyString profile); op_Header := op_Header opts;
     op_OriginalRequest := op_OriginalRequest opts; op_Format := op_Format opts |}.
(** Whether the tools of the translated run are a nil slice. *)
Definition nil_tools (req : Request) (opts : Options) : bool :=
  match (body <-? claude_body unicode_lower req (is_sand opts) ;;
         claude <-? claude_root req body.1 ;;
         policy <-? parseCallerToolPolicy unicode_lower req ;;
         run_tools unicode_lower overflowed req (cl_root claude) (is_sand opts) (run_policy req (is_sand opts) body.2 policy) body.2) with
  | Ok (parsed, _) => bool_decide (pt_Tools parsed = None)
  | Fail _ => true
  end.
(** The context, the proxy and the profile of the run. *)
Definition set_proxy (proxyURL : string) (o : RunOptions) : RunOptions :=
  {| ro_HistoryRequestKey := ro_HistoryRequestKey o; ro_BaseURL := ro_BaseURL o; ro_ProxyURL := proxyURL; ro_AccessToken := ro_AccessToken o;
     ro_ClientVersion := ro_ClientVersion o; ro_RouteChannelID := ro_RouteChannelID o; ro_RouteUserID := ro_RouteUserID o; ro_Model := ro_Model o;
     ro_UserMedia := ro_UserMedia o; ro_ThinkingEnabled := ro_ThinkingEnabled o; ro_ReasoningEffort := ro_ReasoningEffort o;
     ro_InferenceContext := ro_InferenceContext o; ro_InferenceThinking := ro_InferenceThinking o;
     ro_dropReasoningSignatures := ro_dropReasoningSignatures o; ro_SystemText := ro_SystemText o; ro_HistoryMessages := ro_HistoryMessages o;
     ro_AllowHostedSearch := ro_AllowHostedSearch o; ro_AllowHostedFetch := ro_AllowHostedFetch o; ro_RequireHostedSearch := ro_RequireHostedSearch o;
     ro_RequireHostedFetch := ro_RequireHostedFetch o; ro_RequireHostedTool := ro_RequireHostedTool o;
     ro_HostedSearchMaxUses := ro_HostedSearchMaxUses o; ro_HostedFetchMaxUses := ro_HostedFetchMaxUses o;
     ro_HostedSearchDomains := ro_HostedSearchDomains o; ro_HostedFetchDomains := ro_HostedFetchDomains o;
     ro_RequireToolCall := ro_RequireToolCall o; ro_MaxParallelTools := ro_MaxParallelTools o; ro_DeleteCompletedState := ro_DeleteCompletedState o |}.
Definition set_run (proxyURL profile : string) (r : RunRequest) : RunRequest :=
  {| rr_Options := set_proxy proxyURL (rr_Options r); rr_RuntimeProfile := profile; rr_ConversationID := rr_ConversationID r;
     rr_UserText := rr_UserText r; rr_FollowUpText := rr_FollowUpText r; rr_Tools := rr_Tools r; rr_InitialCheckpoint := rr_InitialCheckpoint r;
     rr_InitialBlobs := rr_InitialBlobs r; rr_Resume := rr_Resume r |}.
Definition set_context (context : option nat) (run : RunRequest) (m : ManagedRequest) : ManagedRequest :=
  {| mr_TurnMetering := mr_TurnMetering m; mr_RequestSegmentID := mr_RequestSegmentID m; mr_SessionID := mr_SessionID m;
     mr_BillingRunID := mr_BillingRunID m; mr_CredentialScope := mr_CredentialScope m; mr_AccountKey := mr_AccountKey m;
     mr_ToolCatalogDigest := mr_ToolCatalogDigest m; mr_FollowUpText := mr_FollowUpText m; mr_ActiveResults := mr_ActiveResults m;
     mr_CarryUsage := mr_CarryUsage m; mr_RequireExisting := mr_RequireExisting m; mr_ReuseBillingRun := mr_ReuseBillingRun m;
     mr_Context := context; mr_Run := run; mr_DisableCallerTools := mr_DisableCallerTools m |}.
Definition run_turn (profile : string) (credential : executorCredentials) (turn : translatedTurn) : translatedTurn :=
  let m := tt_managed turn in set_managed (set_context context (set_run (ec_ProxyURL credential) profile (mr_Run m)) m) turn.
(** The turn that goes to the manager. *)
Definition prepared_turn (profile : string) (credential : executorCredentials) (url token : string) (req : Request) (opts : Options)
    : result translatedTurn :=
  let opts := with_profile profile opts in
  turn <-? translateExecutionRequest unicode_lower overflowed req opts
             {| cd_Scope := ec_Scope credential; cd_AccountKey := ec_AccountKey credential; cd_BaseURL := url; cd_AccessToken := token;
                cd_ClientVersion := ec_ClientVersion credential |} ;;
  let turn := run_turn profile credential turn in
  if bool_decide (profile = runtimeSand) then prepareInferenceTurn unicode_lower turn req (nil_tools req opts) else Ok turn.
Definition prepare (auth : option Auth) (req : Request) (opts : Options) (c : caches) : traced (translatedTurn * Output) * caches :=
  if negb configured then (([], Fail errNotConfigured), c)
  else
    match executorCredential auth, auth with
    | Fail e, _ => (([], Fail e), c)
    | Ok _, None => (([], Fail errNotConfigured), c)
    | Ok credential, Some auth =>
        match cursorRuntimeProfile unicode_lower auth with
        | Fail e => (([], Fail e), c)
        | Ok profile =>
            let '(endpoint, c) := run_endpoint auth profile credential c in
            match endpoint with
            | Fail e => (([], Fail e), c)
            | Ok (url, token) =>
                match prepared_turn profile credential url token req opts with
                | Fail e => (([], Fail e), c)
                | Ok turn => (dispatch unicode_lower answer req turn, c)
                end
            end
        end
    end.
(** Up to the output that is delivered. *)
Definition managed_output (auth : option Auth) (req : Request) (opts : Options) (c : caches) : traced (translatedTurn * Output) * caches :=
  match prepare auth req opts c with
  | ((calls, Ok (turn, output)), c) => let '(calls', r) := maybeChainFollowUp answer chain_cancelled chain_parked turn output in ((calls ++ calls', r), c)
  | ((calls, Fail e), c) => ((calls, Fail e), c)
  end.

(** ** Delivery *)
Section deliver.
Context {S : Type} `{Projector S} (new_projection : translatedTurn -> S).
Record served (A : Type) := { sv_calls : list call; sv_effects : list effect; sv_result : result A; sv_caches : caches }.
Definition deliver {A} (auth : option Auth) (req : Request) (opts : Options) (c : caches)
    (body : translatedTurn -> Output -> list effect * result A) : served A :=
  match managed_output auth req opts c with
  | ((calls, Fail e), c) => {| sv_calls := calls; sv_effects := []; sv_result := Fail e; sv_caches := c |}
  | ((calls, Ok (turn, output)), c) =>
      let '(fx, r) := body turn output in {| sv_calls := calls; sv_effects := fx; sv_result := r; sv_caches := c |}
  end.
(** The body and the headers. *)
Definition Execute (auth : option Auth) (req : Request) (opts : Options) (c : caches) : served (bytes * list (string * string)) :=
  deliver auth req opts c (fun turn output =>
    let '(fx, r, _) := Delivery.Execute cancelled parked (mo_Replay output) (mo_Feed output) (new_projection turn) in
    (fx, match r with Ok payload => Ok (payload, executionHeaders "application/json" turn) | Fail e => Fail e end)).
(** The headers; what is sent is among the effects. *)
Definition ExecuteStream (auth : option Auth) (req : Request) (opts : Options) (c : caches) : served (list (string * string)) :=
  deliver auth req opts c (fun turn output =>
    let '(fx, e, _) := Delivery.ExecuteStream cancelled parked (mo_Replay output) (mo_Feed output) (new_projection turn) in
    (fx, match e with Some e => Fail e | None => Ok (executionHeaders "text/event-stream" turn) end)).
End deliver.
End prepare.
