(* ===== verification/PrepareProps.v ===== *)
(** * Properties of a request from end to end (src/cursoragentv1/executor.go)

    Everything a request asks of the manager is asked under its own credential. *)
From stdpp Require Import base tactics list gmap strings sorting.
From Stdlib Require Import Strings.Byte.
From S2P Require Import Prelude GoStrings Sha256 JsonValue Connect Data HostedPolicy EventSnapshot Segment StoreState Manager Media HostedSearch Projection Delivery History Translate TranslateRequest TranslateTurn Credentials CredentialsProps Dispatch TranslateProps Sand SandTools SandWire Prepare.
Open Scope Z_scope.

Local Notation "x <-? m ;; k" := (rbind m (fun x => k)) (at level 100, m at next level, right associativity).

Definition request_of (c : call) : ManagedRequest :=
  match c with Start m | StartHistory m | ResumeTools m _ | StartFollowUp m _ | Park m _ | Cancel m => m end.

(** ** The account of a request *)
Record runAccount := {
  ru_BaseURL : string; ru_ProxyURL : string; ru_AccessToken : string; ru_ClientVersion : string; ru_Channel : Z; ru_User : Z; ru_Profile : string }.
Definition run_account (r : RunRequest) : runAccount :=
  let o := rr_Options r in
  {| ru_BaseURL := ro_BaseURL o; ru_ProxyURL := ro_ProxyURL o; ru_AccessToken := ro_AccessToken o; ru_ClientVersion := ro_ClientVersion o;
     ru_Channel := ro_RouteChannelID o; ru_User := ro_RouteUserID o; ru_Profile := rr_RuntimeProfile r |}.
Definition account_of (m : ManagedRequest) : string * string * option nat * runAccount :=
  (mr_CredentialScope m, mr_AccountKey m, mr_Context m, run_account (mr_Run m)).

Section dispatch.
Context `{JSON} `{Digest} `{SDK} (unicode_lower : string -> string) (answer : call -> result Output).
(** [acct] is the account of every call, and of the turn that is answered. *)
Definition keeps_account (acct : string * string * option nat * runAccount) (x : traced (translatedTurn * Output)) : Prop :=
  Forall (fun c => account_of (request_of c) = acct) x.1 /\ forall turn output, x.2 = Ok (turn, output) -> account_of (tt_managed turn) = acct.

Lemma keeps_failed acct calls e : Forall (fun c => account_of (request_of c) = acct) calls -> keeps_account acct (calls, Fail e).
Proof. by split. Qed.
Lemma start_account c turn : account_of (request_of c) = account_of (tt_managed turn) -> keeps_account (account_of (tt_managed turn)) (start_turn answer c turn).
Proof.
  intros Hc. split; cbn [start_turn asked fst snd]; [by constructor|]. intros turn' output. destruct (answer c) as [o|e]; [|done]. by intros [= <- <-].
Qed.
Lemma follow_up_account turn : account_of (tt_managed (with_follow_up turn)) = account_of (tt_managed turn).
Proof. unfold with_follow_up. by destruct (_ && _). Qed.
Lemma restarted_account req turn turn' : restarted unicode_lower req turn = Some turn' -> account_of (tt_managed turn') = account_of (tt_managed turn).
Proof.
  unfold restarted. destruct (negb _); [by intros [= <-]|]. unfold restartFromResponsesTranscript.
  destruct (transcript_history _ _ _); [|done]. by intros [= <-].
Qed.
Lemma session_account req turn : account_of (tt_managed (with_session req turn)) = account_of (tt_managed turn).
Proof. unfold with_session. by case_bool_decide. Qed.
Lemma dispatch_account req turn : keeps_account (account_of (tt_managed turn)) (dispatch unicode_lower answer req turn).
Proof.
  unfold dispatch. destruct (negb _); [by apply start_account|]. case_bool_decide; [by apply start_account|].
  pose proof (follow_up_account turn) as Hf. set (turn1 := with_follow_up turn) in *. destruct (answer _) as [output|e].
  - split; cbn [fst snd]; [by constructor|]. by intros turn' output' [= <- <-].
  - destruct (if errors_is e _ then _ else _) as [turn2|] eqn:E; [|by apply keeps_failed; constructor].
    destruct (errors_is e _); [|done]. apply restarted_account in E. pose proof (session_account req turn2) as Hs. set (turn3 := with_session req turn2) in *.
    assert (account_of (tt_managed turn3) = account_of (tt_managed turn)) as Ha by by rewrite Hs, E, Hf.
    pose proof (start_account (Start (tt_managed turn3)) turn3 eq_refl) as Hk. rewrite Ha in Hk. destruct (start_turn _ _ _) as [calls r].
    destruct Hk as [Hk1 Hk2]. split; cbn [fst snd] in *; [by constructor|done].
Qed.

Context (cancelled parked : nat -> option Err).
Lemma buffer_account m n yet events final : Forall (fun c => account_of (request_of c) = account_of m) (buffer_prior cancelled parked m n yet events final).1.
Proof.
  revert n yet. induction events as [|event events IH]; intros n yet; cbn [buffer_prior].
  - destruct (cancelled n); [|by destruct final]. destruct yet; cbn; by repeat constructor.
  - destruct (cancelled n); [destruct yet; cbn; by repeat constructor|]. case_bool_decide; [|apply IH].
    destruct (parked n) as [e|]; [destruct (errors_is e _)|]; cbn [fst]; try (by repeat constructor).
    all: pose proof (IH (S n) true) as Hb; destruct (buffer_prior _ _ _ _ _ _ _) as [calls r]; cbn [fst] in *; by constructor.
Qed.
Lemma chained_account n turn prior events : keeps_account (account_of (tt_managed turn)) (startChainedFollowUp answer cancelled n turn prior events).
Proof.
  unfold startChainedFollowUp. destruct (cancelled n); [by apply keeps_failed|]. destruct (followUpRequestID _ _) as [id|e]; [|by apply keeps_failed].
  split; cbn [asked fst snd]; [by constructor|]. intros turn' output. destruct (answer _); [|done]. by intros [= <- <-].
Qed.
Lemma keeps_after acct calls x : Forall (fun c => account_of (request_of c) = acct) calls -> keeps_account acct x -> keeps_account acct (calls ++ x.1, x.2).
Proof. intros Hc [K1 K2]. split; cbn [fst snd]; [by apply Forall_app|done]. Qed.
Lemma maybe_chain_account turn output : keeps_account (account_of (tt_managed turn)) (maybeChainFollowUp answer cancelled parked turn output).
Proof.
  assert (forall o, keeps_account (account_of (tt_managed turn)) ([], Ok (turn, o))) as Hsame by (intros o; split; [constructor|by intros ? ? [= <- <-]]).
  unfold maybeChainFollowUp. destruct (blank _); [done|]. destruct (mo_Replay output).
  - destruct (_ || _); [done|]. destruct (cancelled 0%nat); [by apply keeps_failed|]. destruct (fd_result _); [by apply keeps_failed|]. apply chained_account.
  - pose proof (buffer_account (tt_managed turn) 0 false (fd_events (mo_Feed output)) (fd_result (mo_Feed output))) as Hb.
    destruct (buffer_prior _ _ _ _ _ _ _) as [calls [[n []]|e]]; cbn [fst] in Hb.
    + split; [done|]. by intros ? ? [= <- <-].
    + destruct (cancelled _); [by apply keeps_failed|]. pose proof (chained_account (S (S n)) turn output (fd_events (mo_Feed output))) as Hc.
      destruct (startChainedFollowUp _ _ _ _ _ _) as [calls' r]. by apply (keeps_after _ calls (calls', r)).
    + by apply keeps_failed.
Qed.
End dispatch.

(** ** What a request asks for under its credential *)
Section prepare.
Context `{JSON} `{Digest} `{SDK} `{Outside} `{SandOutside} (unicode_lower : string -> string) (overflowed : Z).
Context (refreshURL : string) (now : Z).
Context (refresh_leader : string -> option Auth) (endpoint_leader : string -> option (string * string * string)) (ctx_done : nat -> option Err).
Context (answer : call -> result Output) (chain_cancelled chain_parked : nat -> option Err) (configured : bool) (context : option nat).

(** The server a token goes to: Cursor's for Sand; otherwise the configured one or a
    trusted one. *)
Definition server_of (credential : executorCredentials) (profile url : string) : Prop :=
  profile = runtimeSand /\ url = defaultInferenceBaseURL \/
  profile = runtimeAgentV1 /\ (isCursorControlPlaneBaseURL url = false /\ url = trim_slashes (TrimSpace (ec_BaseURL credential)) \/ trusted unicode_lower url).
Definition run_under (credential : executorCredentials) (profile : string) (r : runAccount) : Prop :=
  ru_Profile r = profile /\ pick_runner unicode_lower profile = Ok (bool_decide (profile = runtimeSand)) /\
  ru_ProxyURL r = ec_ProxyURL credential /\ ru_ClientVersion r = ec_ClientVersion credential /\
  ru_Channel r = routeChannelID (ec_Scope credential) /\ ru_User r = routeUserID (ec_Scope credential) /\
  cursorTokenSubject (ru_AccessToken r) = cursorTokenSubject (ec_AccessToken credential) /\ server_of credential profile (ru_BaseURL r).
Definition under_account (auth : Auth) (acct : string * string * option nat * runAccount) : Prop :=
  exists credential profile r, executorCredential (Some auth) = Ok credential /\ cursorRuntimeProfile unicode_lower auth = Ok profile /\
    acct = (ec_Scope credential, ec_AccountKey credential, context, r) /\ run_under credential profile r.

Lemma profile_spec auth profile : cursorRuntimeProfile unicode_lower auth = Ok profile -> profile = runtimeAgentV1 \/ profile = runtimeSand.
Proof. unfold cursorRuntimeProfile. destruct (_ || _); [intros [= <-]; by left|]. case_bool_decide; [intros [= <-]; by right|done]. Qed.
Lemma profile_picks profile : profile = runtimeAgentV1 \/ profile = runtimeSand -> pick_runner unicode_lower profile = Ok (bool_decide (profile = runtimeSand)).
Proof. by intros [->| ->]; vm_compute. Qed.
Lemma endpoint_under auth profile credential c url token c' :
  caches_ok unicode_lower c -> CollisionFree identity_material -> nul_free (metadataValue auth "api_key") = true ->
  nul_free (cursorTokenSubject (ec_AccessToken credential)) = true -> profile = runtimeAgentV1 \/ profile = runtimeSand ->
  forall r, run_endpoint unicode_lower refreshURL now refresh_leader endpoint_leader ctx_done auth profile credential c = (r, c') ->
  caches_ok unicode_lower c' /\ (r = Ok (url, token) -> cursorTokenSubject token = cursorTokenSubject (ec_AccessToken credential) /\ server_of credential profile url).
Proof.
  intros Hc Hcf Hk Hs Hp r. unfold run_endpoint. case_bool_decide as Hb.
  - destruct (validateCursorCredentialIdentity _ _ _ _ _ _ _) as [token1 c1] eqn:E. apply (identity_kept unicode_lower) in E as [Hc1 Hid]; [|done..].
    intros [= <- <-]. split; [done|]. destruct token1 as [t|e]; [|done]. intros [= <- <-]. split; [by apply Hid|by left].
  - intros E. eapply run_credential_safe in E as [Hc1 Hr]; [|done..]. split; [done|]. intros ->. destruct (Hr url token eq_refl) as [K1 K2].
    split; [done|]. right. by destruct Hp as [->|].
Qed.
Lemma attach_account run run' : attachInferenceHostedTools run = Ok run' -> run_account run' = run_account run.
Proof.
  unfold attachInferenceHostedTools. destruct (_ && _); [by intros [= <-]|]. destruct (existsb _ _); [done|]. cbv zeta. destruct (_ || _); [done|].
  unfold rbind. repeat match goal with |- context [match ?x with Ok _ => _ | Fail _ => _ end = Ok _] => destruct x; [|done] end. by intros [= <-].
Qed.
Lemma inference_account turn req nil turn' :
  prepareInferenceTurn unicode_lower turn req nil = Ok turn' -> account_of (tt_managed turn') = account_of (tt_managed turn).
Proof.
  unfold prepareInferenceTurn. unfold rbind. destruct (attachInferenceHostedTools _) as [run|e] eqn:E; [|done]. apply attach_account in E.
  destruct (unmarshal_map _); [|done].
  repeat match goal with |- context [match ?x with Ok _ => _ | Fail _ => _ end = Ok _] => destruct x; [|done] end. intros [= <-].
  unfold account_of. cbn [with_run tt_managed set_managed set_request mr_CredentialScope mr_AccountKey mr_Context mr_Run]. f_equal.
  change (run_account run = run_account (mr_Run (tt_managed turn))). by rewrite E.
Qed.
Lemma prepared_account profile credential url token req opts turn :
  prepared_turn unicode_lower overflowed context profile credential url token req opts = Ok turn ->
  account_of (tt_managed turn) = (ec_Scope credential, ec_AccountKey credential, context,
    {| ru_BaseURL := url; ru_ProxyURL := ec_ProxyURL credential; ru_AccessToken := token; ru_ClientVersion := ec_ClientVersion credential;
       ru_Channel := routeChannelID (ec_Scope credential); ru_User := routeUserID (ec_Scope credential); ru_Profile := profile |}).
Proof.
  unfold prepared_turn, rbind. destruct (translateExecutionRequest _ _ _ _ _) as [turn1|e] eqn:E; [|done].
  apply translate_inv in E as [(hosted0 & root & dynamic & active & policy & parsed & hosted & history & key & session & text & followUp & Parts)].
  destruct Parts as (_ & _ & _ & _ & Hm & _). cbv zeta. intros Hr.
  assert (account_of (tt_managed turn) = account_of (tt_managed (run_turn context profile credential turn1))) as ->.
  { case_bool_decide; [by eapply inference_account|]. by injection Hr as <-. }
  unfold run_turn. cbn [tt_managed set_managed]. rewrite Hm. reflexivity.
Qed.
End prepare.

(** C25 Whatever a request asks of the manager (to start, to resume, to follow up, to park
    or to cancel), it asks under its own credential: with that scope, account key, proxy,
    client version and routing, the profile of the credential, which picks the runner,
    a token of the configured identity, and a server it may be sent to; so does the turn
    that is delivered, and the caches keep their invariant for later requests. *)
Theorem request_under_credential `{JSON} `{Digest} `{SDK} `{Outside} `{SandOutside} (unicode_lower : string -> string) (overflowed : Z)
    (refreshURL : string) (now : Z) (refresh_leader : string -> option Auth) (endpoint_leader : string -> option (string * string * string))
    (ctx_done : nat -> option Err) (answer : call -> result Output) (chain_cancelled chain_parked : nat -> option Err) (configured : bool)
    (context : option nat) (auth : Auth) (req : Request) (opts : Options) (c c' : caches) (calls : list call) (r : result (translatedTurn * Output)) :
  caches_ok unicode_lower c -> CollisionFree identity_material ->
  nul_free (metadataValue auth "api_key") = true -> nul_free (cursorTokenSubject (metadataValue auth "access_token")) = true ->
  managed_output unicode_lower overflowed refreshURL now refresh_leader endpoint_leader ctx_done answer chain_cancelled chain_parked configured context
    (Some auth) req opts c = ((calls, r), c') ->
  caches_ok unicode_lower c' /\ Forall (fun call => under_account unicode_lower context auth (account_of (request_of call))) calls /\
  forall turn output, r = Ok (turn, output) -> under_account unicode_lower context auth (account_of (tt_managed turn)).
Proof.
  intros Hc Hcf Hk Hs. unfold managed_output, prepare.
  destruct (negb configured); [intros [= <- <- <-]; by split|].
  destruct (executorCredential (Some auth)) as [credential|e] eqn:Ecred; [|intros [= <- <- <-]; by split].
  destruct (cursorRuntimeProfile unicode_lower auth) as [profile|e] eqn:Ep; [|intros [= <- <- <-]; by split]. apply profile_spec in Ep as Hp.
  destruct (run_endpoint _ _ _ _ _ _ _ _ _ _) as [endpoint c1] eqn:Ee.
  assert (ec_AccessToken credential = metadataValue auth "access_token") as Ht.
  { revert Ecred. unfold executorCredential. cbv zeta. repeat (case_bool_decide; [done|]). by intros [= <-]. }
  pose proof (fun url token => endpoint_under unicode_lower refreshURL now refresh_leader endpoint_leader ctx_done auth profile credential c url token c1
                Hc Hcf Hk ltac:(by rewrite Ht) Hp endpoint Ee) as Hu.
  destruct endpoint as [[url token]|e]; [|destruct (Hu "" "") as [Hc1 _]; intros [= <- <- <-]; by split]. destruct (Hu url token) as [Hc1 He].
  destruct (prepared_turn _ _ _ _ _ _ _ _ _) as [turn|e] eqn:Et; [|intros [= <- <- <-]; by split].
  apply prepared_account in Et. pose proof (dispatch_account unicode_lower answer req turn) as Hd.
  assert (under_account unicode_lower context auth (account_of (tt_managed turn))) as Hua.
  { destruct (He eq_refl) as [He1 He2]. eexists credential, profile, _. split_and!; [done|done|exact Et|]. unfold run_under. cbn. split_and!; try done. by apply profile_picks. }
  assert (forall x, keeps_account (account_of (tt_managed turn)) x ->
    Forall (fun call => under_account unicode_lower context auth (account_of (request_of call))) x.1 /\
    forall turn output, x.2 = Ok (turn, output) -> under_account unicode_lower context auth (account_of (tt_managed turn))) as Hall.
  { intros x [K1 K2]. split; [|intros turn' output Hx; by rewrite (K2 _ _ Hx)]. eapply Forall_impl; [exact K1|]. intros call Hcall. cbn. by rewrite Hcall. }
  destruct (dispatch _ _ _ _) as [calls1 [[turn1 output]|e]]; [|intros [= <- <- <-]; split; [done|]; by apply (Hall (calls1, Fail e))].
  pose proof (maybe_chain_account answer chain_cancelled chain_parked turn1 output) as Hm. destruct Hd as [Hd1 Hd2]. cbn [fst snd] in *.
  rewrite (Hd2 _ _ eq_refl) in Hm. destruct (maybeChainFollowUp _ _ _ _ _) as [calls2 r2]. intros [= <- <- <-]. split; [done|].
  apply (Hall (calls1 ++ calls2, r2)). by apply (keeps_after _ calls1 (calls2, r2)).
Qed.

(** ** An example
    A chat request under a credential of the control plane: its identity is checked, the
    server discovered, the request translated and a session started. *)

#[local] Instance request_json : JSON := table_json sample_root.
#[local] Existing Instances sample_sdk sample_outside plain_digest.
#[local] Instance no_sand : SandOutside :=
  {| gjson_string _ _ := ""; http2_transport _ := None; web_post _ _ _ _ := Fail (ErrMsg "offline"); decode_search _ := None; decode_fetch _ := None;
     decode_checkpoint _ := None; struct_marshal _ := None; value_marshal _ := None |}.
Definition account : Auth :=
  {| au_Metadata := [("api_key", AnyString "key"); ("access_token", AnyString sample_token); ("account_id", AnyString "user");
                     ("base_url", AnyString "https://api2.cursor.sh/"); ("client_version", AnyString "1")];
     au_Attributes := [("credential_scope", AnyString "a:b:user:7:channel:9")]; au_ProxyURL := " socks5://proxy " |}.
Definition started (_ : call) : result Output :=
  Ok {| mo_RequestSegmentID := "segment"; mo_Feed := {| fd_events := []; fd_result := None |}; mo_SessionID := "s1"; mo_BillingRunID := "run";
        mo_ConversationID := "c"; mo_OriginalBatch := []; mo_Replay := false; mo_HasPending := false; mo_FollowUpApplied := false |}.
Definition sample_request : traced (translatedTurn * Output) * caches :=
  managed_output unlowered 0 "" 0 alone alone unlimited started unlimited unlimited true (Some 3%nat) (Some account) sample_req sample_opts no_caches.
Definition sample_calls : list call := sample_request.1.1.
Example sample_request_starts :
  (fun c => match c with StartHistory m => (ru_BaseURL (run_account (mr_Run m)), ru_ProxyURL (run_account (mr_Run m))) | _ => ("", "") end) <$> sample_calls =
  [(agent_url, "socks5://proxy")].
Proof. vm_compute. reflexivity. Qed.
Lemma request_under_credential_witness :
  length sample_calls = 1%nat /\ Forall (fun call => under_account unlowered (Some 3%nat) account (account_of (request_of call))) sample_calls.
Proof.
  split; [vm_compute; reflexivity|].
  refine (proj1 (proj2 (request_under_credential unlowered 0 "" 0 alone alone unlimited started unlimited unlimited true (Some 3%nat) account sample_req sample_opts
    no_caches sample_request.2 sample_calls sample_request.1.2 (no_caches_ok unlowered) (fun a b _ _ E => E) _ _ _))).
  - vm_compute. reflexivity.
  - vm_compute. reflexivity.
  - unfold sample_calls, sample_request. by destruct (managed_output _ _ _ _ _ _ _ _ _ _ _ _ _ _ _ _) as [[calls r] c'].
Defined.
