(* ===== verification/Plugin.v ===== *)
(** * The plugin (src/internal/plugin/plugin.go, helps/proxy.go)

    What the host's calls do before and after the executor: credential files, the
    credential of a request and its activation on first use, execution arguments,
    models.  The executor is an interface; JSON, YAML, paths, times and the SDK's types
    are parameters. *)
From stdpp Require Import base tactics list gmap strings sorting.
From Stdlib Require Import Strings.Byte.
From S2P Require Import Prelude GoStrings Conc Sha256 JsonValue Connect Data HostedPolicy Segment StoreState Manager Media HostedSearch Projection Translate TranslateRequest TranslateTurn Credentials Tokens.
Open Scope Z_scope.

Local Notation "x <-? m ;; k" := (rbind m (fun x => k)) (at level 100, m at next level, right associativity).

Definition ProviderID : string := "cursor-agent-v1".
Definition Version : string := "0.2.0".
Definition hostRefreshInterval : Z := 1800000000000.
Definition EnvStateDir : string := "CURSOR_AGENT_V1_STATE_DIR".
Definition EnvStateTTL : string := "CURSOR_AGENT_V1_STATE_TTL".

(** The operating system, YAML, paths and times; [sprint_value] is [fmt.Sprint] of a
    value that is neither nil nor a string; [FromString] makes a format of its name. *)
Class Platform := {
  yaml_state_dir : bytes -> result string;
  getenv : string -> string;
  user_home : result string;
  path_join : string -> string -> string;
  path_abs : string -> result string;
  path_is_abs : string -> bool;
  make_dirs : string -> option Err;
  parse_duration : string -> option Z;
  parse_rfc3339 : string -> option Z;
  sprint_value : any -> string;
  FromString : string -> Format }.

(** ** Credentials *)
(** [cliproxyauth.Auth]: what the executor reads, and the host's own fields. *)
Record PluginAuth := {
  pa_ID : string; pa_Provider : string; pa_FileName : string; pa_Label : string; pa_Prefix : string; pa_Disabled : bool; pa_Auth : Auth }.
Definition pa_Metadata (a : PluginAuth) : object := au_Metadata (pa_Auth a).
Record AuthData := {
  ad_Provider : string; ad_ID : string; ad_FileName : string; ad_Label : string; ad_Prefix : string; ad_ProxyURL : string; ad_Disabled : bool;
  ad_StorageJSON : bytes; ad_Metadata : object; ad_Attributes : object }.
(** The fields of a credential file, by the names of their JSON keys. *)
Definition storage_keys : list string :=
  ["type"; "api_key"; "access_token"; "accessToken"; "refresh_token"; "refreshToken"; "account_id"; "accountId"; "email"; "expired"; "last_refresh";
   "base_url"; "client_version"; "runtime_profile"].
Definition storageFile : Type := string -> string.
Definition empty_storage : storageFile := fun _ => "".
Definition set_field (key value : string) (data : storageFile) : storageFile := fun k => if bool_decide (k = key) then value else data k.

(** [strings.TrimSpace] of the first value that is not blank. *)
Fixpoint firstNonEmpty (values : list string) : string :=
  match values with
  | [] => ""
  | value :: values => let trimmed := TrimSpace value in if bool_decide (trimmed = "") then firstNonEmpty values else trimmed
  end.
Definition looksLikeCursorKey (apiKey : string) : bool := let key := TrimSpace apiKey in HasPrefix key "key_" || HasPrefix key "crsr_".
Definition cloneMap (m : object) : object := m.

Section plugin.
Context `{JSON} `{Platform} (unicode_lower : string -> string).
Local Notation lower := (lower unicode_lower).

(** [json.Unmarshal] into the struct: a key names the field it equals, or the one it
    equals but for case; a value that is neither a string nor null is an error. *)
Definition field_of (key : string) : option string :=
  match List.find (fun k => bool_decide (k = key)) storage_keys with
  | Some k => Some k
  | None => List.find (fun k => EqualFoldASCII key (ToLower k)) storage_keys
  end.
Fixpoint decode_fields (m : object) (data : storageFile) : option storageFile :=
  match m with
  | [] => Some data
  | (key, value) :: m =>
      match field_of key, value with
      | None, _ | Some _, AnyNil => decode_fields m data
      | Some k, AnyString s => decode_fields m (set_field k s data)
      | Some _, _ => None
      end
  end.
Definition decode_storage (raw : bytes) : option storageFile :=
  match json_unmarshal raw with
  | Some (AnyMap m) => decode_fields m empty_storage
  | Some AnyNil => Some empty_storage
  | _ => None
  end.
Definition encode_storage (data : storageFile) : bytes := default [] (json_marshal (AnyMap ((fun k => (k, AnyString (data k))) <$> storage_keys))).
Definition parseStorage (raw : bytes) : option storageFile :=
  match decode_storage raw with
  | None => None
  | Some data =>
      let kind := lower (TrimSpace (data "type")) in
      if bool_decide (kind = ProviderID) then Some data
      else if bool_decide (kind = "") then
        if looksLikeCursorKey (data "api_key") || looksLikeCursorKey (data "access_token") || looksLikeCursorKey (data "accessToken") then Some data else None
      else None
  end.
Definition storage_metadata (data : storageFile) : object :=
  let access := firstNonEmpty [data "access_token"; data "accessToken"] in
  let refresh := firstNonEmpty [data "refresh_token"; data "refreshToken"] in
  let account := firstNonEmpty [data "account_id"; data "accountId"] in
  let field name value := (name, AnyString (TrimSpace value)) in
  [field "api_key" (data "api_key"); field "access_token" access; field "refresh_token" refresh; field "account_id" account;
   field "email" (data "email"); field "expired" (data "expired"); field "last_refresh" (data "last_refresh"); field "base_url" (data "base_url");
   field "client_version" (data "client_version"); ("runtime_profile", AnyString (lower (TrimSpace (data "runtime_profile"))));
   ("refresh_interval_seconds", AnyInt (hostRefreshInterval / 1000000000))].
Definition storageToAuthData (data : storageFile) (fileName path : string) : AuthData :=
  let account := firstNonEmpty [data "account_id"; data "accountId"] in
  {| ad_Provider := ProviderID; ad_ID := ""; ad_FileName := firstNonEmpty [fileName; path];
     ad_Label := firstNonEmpty [data "email"; account; fileName]; ad_Prefix := ""; ad_ProxyURL := ""; ad_Disabled := false;
     ad_StorageJSON := encode_storage data; ad_Metadata := storage_metadata data; ad_Attributes := [] |}.
Definition authFromPlugin (id provider : string) (storage : bytes) (metadata attributes : object) : PluginAuth :=
  let metadata := match cloneMap metadata with
                  | [] => match parseStorage storage with Some data => ad_Metadata (storageToAuthData data "" "") | None => [] end
                  | m => m end in
  {| pa_ID := TrimSpace id; pa_Provider := firstNonEmpty [provider; ProviderID]; pa_FileName := ""; pa_Label := ""; pa_Prefix := "";
     pa_Disabled := false; pa_Auth := {| au_Metadata := metadata; au_Attributes := cloneMap attributes; au_ProxyURL := "" |} |}.
Definition authToAuthData (auth : option PluginAuth) : AuthData :=
  match auth with
  | None => {| ad_Provider := ProviderID; ad_ID := ""; ad_FileName := ""; ad_Label := ""; ad_Prefix := ""; ad_ProxyURL := ""; ad_Disabled := false;
               ad_StorageJSON := []; ad_Metadata := []; ad_Attributes := [] |}
  | Some auth =>
      {| ad_Provider := firstNonEmpty [pa_Provider auth; ProviderID]; ad_ID := pa_ID auth; ad_FileName := pa_FileName auth; ad_Label := pa_Label auth;
         ad_Prefix := pa_Prefix auth; ad_ProxyURL := au_ProxyURL (pa_Auth auth); ad_Disabled := pa_Disabled auth; ad_StorageJSON := [];
         ad_Metadata := cloneMap (pa_Metadata auth); ad_Attributes := cloneMap (au_Attributes (pa_Auth auth)) |}
  end.
(** [strings.TrimSpace(fmt.Sprint(m[key]))]. *)
Definition Sprint (v : any) : string := match v with AnyNil => "<nil>" | AnyString s => s | v => sprint_value v end.
Definition metaString (auth : option PluginAuth) (key : string) : string :=
  match auth with
  | None => ""
  | Some auth => match map_get (pa_Metadata auth) key with AnyNil => "" | v => TrimSpace (Sprint v) end
  end.
Definition refreshed_keys : list string := ["access_token"; "refresh_token"; "expired"; "last_refresh"; "api_key"; "account_id"].
Definition merge_field (m : object) (data : storageFile) (key : string) : storageFile :=
  let v := TrimSpace (Sprint (map_get m key)) in
  if bool_decide (v = "") || bool_decide (v = "<nil>") then data else set_field key v data.
Definition merged (data : storageFile) (auth : option PluginAuth) : storageFile :=
  set_field "type" ProviderID (match auth with Some auth => foldl (merge_field (pa_Metadata auth)) data refreshed_keys | None => data end).
Definition mergeStorage (raw : bytes) (auth : option PluginAuth) : bytes := encode_storage (merged (default empty_storage (parseStorage raw)) auth).

(** ** Execution arguments *)
Record ExecutorRequest := {
  er_AuthID : string; er_AuthProvider : string; er_StorageJSON : bytes; er_AuthMetadata : object; er_AuthAttributes : object;
  er_SourceFormat : string; er_Format : string; er_Model : string; er_Payload : bytes; er_Metadata : object; er_Stream : bool; er_Alt : string;
  er_Headers : list (string * list string); er_Query : list (string * list string); er_OriginalRequest : bytes }.
Record ExecutorOptions := {
  eo_Stream : bool; eo_Alt : string; eo_Headers : list (string * list string); eo_Query : list (string * list string); eo_OriginalRequest : bytes;
  eo_SourceFormat : Format; eo_ResponseFormat : Format; eo_Metadata : object }.
Definition no_format (f : Format) : bool := match f with FormatOther "" => true | _ => false end.
Definition execution_formats (sourceFormat responseFormat : string) : Format * Format :=
  let source := FromString (TrimSpace sourceFormat) in
  let format := FromString (TrimSpace responseFormat) in
  let source := if no_format source then format else source in
  let format := if no_format format then source else format in
  if no_format source then (FormatClaude, FormatClaude) else (source, format).
Definition executionArgs (req : ExecutorRequest) : PluginAuth * Request * ExecutorOptions :=
  let auth := authFromPlugin (er_AuthID req) (er_AuthProvider req) (er_StorageJSON req) (er_AuthMetadata req) (er_AuthAttributes req) in
  let '(source, format) := execution_formats (er_SourceFormat req) (er_Format req) in
  (auth, {| rq_Model := er_Model req; rq_Payload := er_Payload req; rq_Format := format; rq_Metadata := er_Metadata req |},
   {| eo_Stream := er_Stream req; eo_Alt := er_Alt req; eo_Headers := er_Headers req; eo_Query := er_Query req; eo_OriginalRequest := er_OriginalRequest req;
      eo_SourceFormat := source; eo_ResponseFormat := format; eo_Metadata := er_Metadata req |}).
End plugin.

(** ** Construction and models *)
Record ModelInfo := { mi_ID : string; mi_OwnedBy : string; mi_ContextLength : Z; mi_MaxCompletionTokens : Z; mi_Methods : list string }.
Record ModelResponse := { ms_Provider : string; ms_Models : list ModelInfo }.
Record AuthModelRequest := { am_Metadata : object; am_StorageJSON : bytes }.
(** [cliproxyexecutor.Response] and [StreamResult], an HTTP response. *)
Record ExecutorResponse := { xr_Payload : bytes; xr_Headers : list (string * list string); xr_Metadata : object }.
Record StreamChunk := { ch_Payload : bytes; ch_Err : option Err }.
Record StreamResult := { sr_Headers : list (string * list string); sr_Chunks : list StreamChunk }.
Record HTTPResponse := { hr_StatusCode : Z; hr_Headers : list (string * list string); hr_Body : bytes }.
(** The executor as the plugin sees it; the number of a call stands for the time it is made at. *)
Class PluginExecutor := {
  ex_Refresh : nat -> option PluginAuth -> result PluginAuth;
  ex_Execute : nat -> PluginAuth -> Request -> ExecutorOptions -> result ExecutorResponse;
  ex_ExecuteStream : nat -> PluginAuth -> Request -> ExecutorOptions -> result StreamResult;
  ex_CountTokens : Request -> result bytes }.
(** A refreshed credential keeps its identifier and has a token. *)
Class RefreshLaws `{Platform} `{PluginExecutor} : Prop := {
  refresh_keeps_id n auth next : ex_Refresh n (Some auth) = Ok next -> pa_ID next = pa_ID auth;
  refresh_has_token n auth next : ex_Refresh n auth = Ok next -> metaString (Some next) "access_token" <> "" }.

Definition NewExecutor {X} `{Platform} (new_store : string -> Z -> result X) (stateDir : string) : result X :=
  if negb (path_is_abs (TrimSpace stateDir)) then Fail (ErrMsg "Cursor Agent v1 state directory must be absolute")
  else
    let rawTTL := TrimSpace (getenv EnvStateTTL) in
    if bool_decide (rawTTL = "") then new_store stateDir defaultStateTTL
    else
      match parse_duration rawTTL with
      | Some ttl => if ttl <=? 0 then Fail (ErrMsg "Cursor Agent v1 state TTL is invalid") else new_store stateDir ttl
      | None => Fail (ErrMsg "Cursor Agent v1 state TTL is invalid")
      end.
(** The state directory: configured, of the environment, or in the home directory. *)
Definition state_dir `{Platform} (configYAML : bytes) : result string :=
  configured <-? match trim_bytes configYAML with
                 | [] => Ok ""
                 | _ => match yaml_state_dir configYAML with Ok dir => Ok dir | Fail e => Fail (ErrWrap "cursor-agent-v1 config: " e) end
                 end ;;
  let dir := TrimSpace configured in
  let dir := if bool_decide (dir = "") then TrimSpace (getenv EnvStateDir) else dir in
  if bool_decide (dir = "") then
    match user_home with
    | Ok home => Ok (path_join home ".cliproxy-cursor-agent-v1")
    | Fail _ => Fail (ErrMsg "cursor-agent-v1 state directory is required")
    end
  else Ok dir.
(** The plugin: its state directory, and the credentials exchanged on first use. *)
Record Plugin := { pl_stateDir : string; pl_activated : gmap string PluginAuth; pl_calls : nat }.
Definition Build {X} `{Platform} (new_store : string -> Z -> result X) (configYAML : bytes) : result Plugin :=
  dir <-? state_dir configYAML ;;
  abs <-? path_abs dir ;;
  match make_dirs abs with
  | Some e => Fail e
  | None => _ <-? NewExecutor new_store abs ;; Ok {| pl_stateDir := abs; pl_activated := ∅; pl_calls := 0 |}
  end.
Definition Identifier : string := ProviderID.
(** [pluginapi.Metadata], its configuration fields as names and descriptions. *)
Record PluginMetadata := { pm_Name : string; pm_Version : string; pm_Author : string; pm_GitHubRepository : string; pm_ConfigFields : list (string * string) }.
Definition Metadata : PluginMetadata :=
  {| pm_Name := "Cursor Agent v1"; pm_Version := Version; pm_Author := "enderzcx"; pm_GitHubRepository := "https://github.com/enderzcx/cursor-agent2api";
     pm_ConfigFields := [("state_dir", "Absolute directory for Agent v1 conversation state. Defaults to CURSOR_AGENT_V1_STATE_DIR or ~/.cliproxy-cursor-agent-v1.")] |}.
Definition InputFormats : list string := ["claude"; "openai"; "openai-response"].
Definition OutputFormats : list string := ["claude"; "openai"; "openai-response"].
Definition model_info (id : string) : ModelInfo :=
  {| mi_ID := id; mi_OwnedBy := ProviderID; mi_ContextLength := 200000; mi_MaxCompletionTokens := 64000; mi_Methods := ["chat"] |}.
Definition models (runtimeProfile : string) : list ModelInfo := model_info <$> ModelsForRuntimeProfile runtimeProfile.
Definition RegisterModels : ModelResponse := {| ms_Provider := ProviderID; ms_Models := models "" |}.
Definition StaticModels : ModelResponse := {| ms_Provider := ProviderID; ms_Models := models "" |}.
Definition StartLogin : Err :=
  ErrMsg ("cursor-agent-v1 login is file import only: save a JSON auth file with type " +:+ Quote ProviderID +:+ " and api_key").
Definition PollLogin : string * string := ("error", "cursor-agent-v1 has no interactive login").

(** A call of the executor: the credential of the request, and the one it ran with. *)
Record ran := { rn_requested : PluginAuth; rn_used : PluginAuth }.
Section operations.
Context `{JSON} `{Platform} `{PluginExecutor} (unicode_lower : string -> string) (now : nat -> Z).
Local Notation lower := (lower unicode_lower).
Local Notation sect := (Sect Plugin).
Local Notation prog := (Prog Plugin ran).

Definition ModelsForAuth (req : AuthModelRequest) : ModelResponse :=
  let profile := lower (TrimSpace (Sprint (map_get (am_Metadata req) "runtime_profile"))) in
  let profile := match am_Metadata req with [] => "" | _ => profile end in
  let profile := if bool_decide (profile = "") || bool_decide (profile = "<nil>")
                 then match parseStorage unicode_lower (am_StorageJSON req) with Some data => lower (TrimSpace (data "runtime_profile")) | None => profile end
                 else profile in
  {| ms_Provider := ProviderID; ms_Models := models profile |}.
(** [None]: not handled. *)
Definition ParseAuth (rawJSON : bytes) (fileName path : string) : option AuthData :=
  data ← parseStorage unicode_lower rawJSON; Some (storageToAuthData unicode_lower data fileName path).

(** ** Activation *)
Definition put_activated (m : gmap string PluginAuth) (p : Plugin) : Plugin := {| pl_stateDir := pl_stateDir p; pl_activated := m; pl_calls := pl_calls p |}.
Definition count_call (p : Plugin) : Plugin := {| pl_stateDir := pl_stateDir p; pl_activated := pl_activated p; pl_calls := S (pl_calls p) |}.
(** The number of the next call of the executor. *)
Definition next_call : sect nat := n ← get pl_calls; _ ← put count_call; mret n.
Definition activationExpired (at_ : Z) (auth : PluginAuth) : bool :=
  let raw := metaString (Some auth) "expired" in
  if bool_decide (raw = "") then false else match parse_rfc3339 raw with Some expiry => expiry - at_ <? 2 * minute | None => false end.
Definition forgetActivated (id : string) : prog unit :=
  if bool_decide (id = "") then mret tt else atomic (put (fun p => put_activated (delete id (pl_activated p)) p)).
(** The exchange itself; a credential with an identifier is kept for later requests. *)
Definition activate (auth : PluginAuth) : prog (result PluginAuth) :=
  n ← atomic next_call;
  match ex_Refresh n (Some auth) with
  | Fail e => mret (Fail e)
  | Ok next =>
      _ ← (if bool_decide (pa_ID auth = "") then mret tt else atomic (put (fun p => put_activated (<[pa_ID auth := next]> (pl_activated p)) p)));
      mret (Ok next)
  end.
Definition ensureActivated (auth : PluginAuth) : prog (result PluginAuth) :=
  if negb (bool_decide (metaString (Some auth) "access_token" = "")) || bool_decide (metaString (Some auth) "api_key" = "") then mret (Ok auth)
  else
    cached ← atomic (get (fun p => (pl_activated p !! pa_ID auth, now (pl_calls p))));
    match cached.1 with
    | Some next => if negb (activationExpired cached.2 next) then mret (Ok next) else activate auth
    | None => activate auth
    end.

(** ** Calls of the host *)
Record AuthRefreshRequest := { ar_AuthID : string; ar_AuthProvider : string; ar_StorageJSON : bytes; ar_Metadata : object; ar_Attributes : object }.
Definition with_storage (storage : bytes) (d : AuthData) : AuthData :=
  {| ad_Provider := ad_Provider d; ad_ID := ad_ID d; ad_FileName := ad_FileName d; ad_Label := ad_Label d; ad_Prefix := ad_Prefix d;
     ad_ProxyURL := ad_ProxyURL d; ad_Disabled := ad_Disabled d; ad_StorageJSON := storage; ad_Metadata := ad_Metadata d; ad_Attributes := ad_Attributes d |}.
Definition RefreshAuth (req : AuthRefreshRequest) : prog (result AuthData) :=
  let auth := authFromPlugin unicode_lower (ar_AuthID req) (ar_AuthProvider req) (ar_StorageJSON req) (ar_Metadata req) (ar_Attributes req) in
  n ← atomic next_call;
  match ex_Refresh n (Some auth) with
  | Fail e => mret (Fail e)
  | Ok next =>
      _ ← forgetActivated (pa_ID auth);
      let data := authToAuthData (Some next) in
      mret (Ok (match ad_StorageJSON data with [] => with_storage (mergeStorage unicode_lower (ar_StorageJSON req) (Some next)) data | _ => data end))
  end.
(** What every call of the executor starts with. *)
Definition with_credential {A} (req : ExecutorRequest) (run : nat -> PluginAuth -> Request -> ExecutorOptions -> result A) : prog (result A) :=
  let '(auth, nativeReq, opts) := executionArgs unicode_lower req in
  activated ← ensureActivated auth;
  match activated with
  | Fail e => mret (Fail e)
  | Ok used => n ← labelled (fun _ => Some {| rn_requested := auth; rn_used := used |}) next_call; mret (run n used nativeReq opts)
  end.
Definition Execute (req : ExecutorRequest) : prog (result ExecutorResponse) := with_credential req ex_Execute.
(** The goroutine passes the chunks of the executor on, in order. *)
Definition forwarded (chunks : list StreamChunk) : list StreamChunk := (fun c => {| ch_Payload := ch_Payload c; ch_Err := ch_Err c |}) <$> chunks.
Definition ExecuteStream (req : ExecutorRequest) : prog (result StreamResult) :=
  with_credential req (fun n auth nativeReq opts =>
    resp <-? ex_ExecuteStream n auth nativeReq opts ;; Ok {| sr_Headers := sr_Headers resp; sr_Chunks := forwarded (sr_Chunks resp) |}).
Definition CountTokens (req : ExecutorRequest) : prog (result ExecutorResponse) :=
  with_credential req (fun _ _ nativeReq _ =>
    payload <-? ex_CountTokens nativeReq ;; Ok {| xr_Payload := payload; xr_Headers := []; xr_Metadata := [] |}).
(** The executor refuses raw HTTP; [new_request] is [http.NewRequestWithContext]. *)
Definition HttpRequest (new_request : string -> string -> option Err) (method url : string) : result HTTPResponse :=
  match new_request (firstNonEmpty [method; "GET"]) url with Some e => Fail e | None => Fail Tokens.HttpRequest end.
End operations.

(** ** [NewProxyAwareHTTPClient] (helps/proxy.go)
    The client's timeout and its transport: the proxy's, or the round tripper of the
    context, or the default one. *)
Record httpClient {X} := { hc_Timeout : Z; hc_Transport : option X }.
Arguments httpClient : clear implicits.
Definition NewProxyAwareHTTPClient {X} (build_transport : string -> result (option X)) (context_transport : option X) (auth : option PluginAuth)
    (timeout : Z) : httpClient X :=
  let timeout := if 0 <? timeout then timeout else 0 in
  let proxyURL := match auth with Some auth => TrimSpace (au_ProxyURL (pa_Auth auth)) | None => "" end in
  match (if bool_decide (proxyURL = "") then Ok None else build_transport proxyURL) with
  | Ok (Some transport) => {| hc_Timeout := timeout; hc_Transport := Some transport |}
  | _ => {| hc_Timeout := timeout; hc_Transport := context_transport |}
  end.
