(* ===== verification/PluginProps.v ===== *)
(** * Properties of the plugin

    The executor's refresh discharges the interface the plugin relies on; a refreshed
    credential survives its file; concurrent requests run with usable credentials. *)
From stdpp Require Import base tactics list gmap strings sorting.
From Stdlib Require Import Strings.Byte.
From S2P Require Import Prelude GoStrings Conc Rely Sha256 JsonValue Connect Data HostedPolicy Segment StoreState Manager Media HostedSearch Projection Translate TranslateRequest TranslateTurn Credentials Tokens Plugin.
Open Scope Z_scope.

(** ** The interface is discharged by [Credentials.Refresh] *)
Section refresh.
Context `{Digest} `{SDK} `{Outside} `{Platform} (refreshURL : string) (clock : nat -> Z).
Context (refresh_leader : string -> option Auth) (ctx_done : nat -> option Err).
Definition with_auth (a : PluginAuth) (auth : Auth) : PluginAuth :=
  {| pa_ID := pa_ID a; pa_Provider := pa_Provider a; pa_FileName := pa_FileName a; pa_Label := pa_Label a; pa_Prefix := pa_Prefix a;
     pa_Disabled := pa_Disabled a; pa_Auth := auth |}.
Definition no_auth : PluginAuth :=
  {| pa_ID := ""; pa_Provider := ""; pa_FileName := ""; pa_Label := ""; pa_Prefix := ""; pa_Disabled := false;
     pa_Auth := {| au_Metadata := []; au_Attributes := []; au_ProxyURL := "" |} |}.
(** [Executor.Refresh] on the host's credential, at the time of its call. *)
Definition executor_refresh (n : nat) (auth : option PluginAuth) : result PluginAuth :=
  match Refresh refreshURL (clock n) refresh_leader ctx_done n (pa_Auth <$> auth) with
  | Ok next => Ok (with_auth (default no_auth auth) next)
  | Fail e => Fail e
  end.
Definition executor_plugin (execute : nat -> PluginAuth -> Request -> ExecutorOptions -> result ExecutorResponse)
    (stream : nat -> PluginAuth -> Request -> ExecutorOptions -> result StreamResult) (count : Request -> result bytes) : PluginExecutor :=
  {| ex_Refresh := executor_refresh; ex_Execute := execute; ex_ExecuteStream := stream; ex_CountTokens := count |}.

Lemma map_get_set_eq m k v : map_get (map_set m k v) k = v.
Proof. unfold map_get. by rewrite map_find_set_eq. Qed.
Lemma map_get_set_ne m k k' v : k <> k' -> map_get (map_set m k v) k' = map_get m k'.
Proof. intros Hk. unfold map_get. by rewrite map_find_set_ne. Qed.
Lemma refreshOnce_token n auth r : refreshOnce refreshURL (clock n) auth = Ok r -> TrimSpace (rc_accessToken r) = rc_accessToken r /\ rc_accessToken r <> "".
Proof.
  unfold refreshOnce. destruct (http_new_request _); [done|]. unfold rbind. destruct (http_post _ _) as [[status body]|e]; [|done].
  destruct body as [body|e]; [|done]. destruct (negb (ok_status _)); [done|]. destruct (decode_token _) as [[access refresh]|]; [|done].
  unfold blank. case_bool_decide as Hb; [done|]. destruct (_ && _); [done|]. intros [= <-]. cbn [rc_accessToken]. split; [|done]. apply TrimSpace_idemp.
Qed.
#[export] Instance executor_refresh_laws execute stream count : @RefreshLaws _ (executor_plugin execute stream count).
Proof.
  split; cbn [ex_Refresh executor_plugin]; unfold executor_refresh.
  - intros n auth next. destruct (Refresh _ _ _ _ _ _); [|done]. by intros [= <-].
  - intros n auth next. destruct auth as [auth|]; cbn [fmap option_fmap option_map]; [|done].
    unfold Refresh. destruct (blank _); [done|]. cbv zeta. destruct (bool_decide _ && negb _); [done|]. destruct (ctx_done n); [done|]. unfold rbind.
    destruct (refreshOnce _ _ _) as [r|e] eqn:E; [|done]. apply refreshOnce_token in E as [Ht Hn].
    destruct (_ && bool_decide (cursorTokenSubject _ = "")); [done|]. intros [= <-]. unfold metaString, with_auth, pa_Metadata, set_nonempty.
    cbn [pa_Auth au_Metadata]. rewrite map_get_set_ne by done.
    destruct (bool_decide (rc_expired r = "")), (bool_decide (rc_refreshToken r = "")), (bool_decide _ && bool_decide _);
      rewrite ?map_get_set_ne by done; rewrite map_get_set_eq; cbn [Sprint]; by rewrite Ht.
Qed.
End refresh.

(** ** A refreshed credential survives its file *)
(** Objects of ASCII strings under distinct keys read back as they were written. *)
Definition ascii_entry (e : string * any) : bool := is_ascii e.1 && match e.2 with AnyString s => is_ascii s | _ => false end.
Class StorageCodec `{JSON} : Prop := storage_codec m :
  NoDup m.*1 -> forallb ascii_entry m = true -> exists raw, json_marshal (AnyMap m) = Some raw /\ json_unmarshal raw = Some (AnyMap m).

Section storage.
Context `{JSON} `{Platform} (unicode_lower : string -> string).

Lemma storage_keys_NoDup : NoDup storage_keys.
Proof. apply (bool_decide_unpack _). vm_compute. exact I. Qed.
Lemma storage_fields : forallb (fun k => bool_decide (field_of k = Some k) && is_ascii k) storage_keys = true.
Proof. vm_compute. reflexivity. Qed.
Lemma decode_entries (data : storageFile) ks : forall d0, (forall k, k ∈ ks -> field_of k = Some k) ->
  exists d, decode_fields ((fun k => (k, AnyString (data k))) <$> ks) d0 = Some d /\ forall k, d k = if decide (k ∈ ks) then data k else d0 k.
Proof.
  induction ks as [|k ks IH]; intros d0 Hf; cbn [fmap list_fmap decode_fields].
  - exists d0. split; [done|]. intros k. destruct (decide (k ∈ [])) as [Hk|]; [by apply not_elem_of_nil in Hk|done].
  - rewrite (Hf k) by by left. destruct (IH (set_field k (data k) d0)) as (d & E & Hd); [intros k' Hk; apply Hf; by right|].
    exists d. split; [done|]. intros k'. rewrite Hd. unfold set_field.
    destruct (decide (k' ∈ ks)) as [Hk|Hk], (decide (k' ∈ k :: ks)) as [Hk'|Hk']; try done.
    + destruct Hk'. by right.
    + apply elem_of_cons in Hk' as [->|?]; [by rewrite bool_decide_eq_true_2|done].
    + rewrite bool_decide_eq_false_2; [done|]. intros ->. apply Hk'. by left.
Qed.
Lemma storage_reads_back `{!StorageCodec} (data : storageFile) :
  (forall k, k ∈ storage_keys -> is_ascii (data k) = true) ->
  exists d, decode_storage (encode_storage data) = Some d /\ forall k, d k = if decide (k ∈ storage_keys) then data k else "".
Proof.
  intros Ha. pose proof storage_fields as Hk. rewrite forallb_forall in Hk.
  assert (forall k, k ∈ storage_keys -> field_of k = Some k /\ is_ascii k = true) as Hf.
  { intros k Hi%list_elem_of_In%Hk. apply andb_true_iff in Hi as [Hi%bool_decide_eq_true_1 ?]. done. }
  set (m := (fun k => (k, AnyString (data k))) <$> storage_keys).
  destruct (storage_codec m) as (raw & Em & Eu).
  - subst m. rewrite <-list_fmap_compose. rewrite (list_fmap_ext _ id), list_fmap_id; [apply storage_keys_NoDup|done].
  - apply forallb_forall. intros [k v] (k' & [= -> ->] & Hi)%list_elem_of_In%list_elem_of_fmap.
    unfold ascii_entry. cbn [fst snd]. rewrite (proj2 (Hf k' Hi)). by apply Ha.
  - destruct (decode_entries data storage_keys empty_storage) as (d & E & Hd); [intros k Hi; by apply Hf|].
    exists d. split; [|exact Hd]. unfold decode_storage, encode_storage. fold m. rewrite Em. cbn [default from_option id]. rewrite Eu. exact E.
Qed.
(** What the merge keeps and what it takes from the refreshed credential. *)
Lemma merged_field m data key k :
  merge_field m data key k = let v := TrimSpace (Sprint (map_get m key)) in
    if bool_decide (k = key) && negb (bool_decide (v = "") || bool_decide (v = "<nil>")) then v else data k.
Proof.
  unfold merge_field. cbv zeta. destruct (bool_decide (_ = "") || bool_decide (_ = "<nil>")); cbn [negb]; [by rewrite andb_false_r|].
  rewrite andb_true_r. unfold set_field. by case_bool_decide.
Qed.
Lemma merged_other m data ks k : k ∉ ks -> foldl (merge_field m) data ks k = data k.
Proof.
  revert data. induction ks as [|key ks IH]; intros data Hk; cbn [foldl]; [done|]. apply not_elem_of_cons in Hk as [Hk1 Hk2].
  rewrite IH by done. rewrite merged_field. cbv zeta. rewrite bool_decide_eq_false_2 by done. done.
Qed.
Lemma merged_in m data ks k : NoDup ks -> k ∈ ks -> foldl (merge_field m) data ks k = merge_field m data k k.
Proof.
  revert data. induction ks as [|key ks IH]; intros data Hn Hk; cbn [foldl]; [by apply not_elem_of_nil in Hk|].
  apply NoDup_cons in Hn as [Hn1 Hn2]. apply elem_of_cons in Hk as [->|Hk].
  - by rewrite merged_other.
  - rewrite IH by done. assert (merge_field m data key k = data k) as E.
    { rewrite merged_field. cbv zeta. by rewrite bool_decide_eq_false_2 by (intros ->; done). }
    by rewrite (merged_field m (merge_field m data key) k k), (merged_field m data k k), E.
Qed.

Lemma refreshed_stored k : k ∈ refreshed_keys -> k ∈ storage_keys.
Proof. intros Hk. assert (forall k, k ∈ refreshed_keys -> k ∈ storage_keys) as Hs; [|by apply Hs]. apply Forall_forall. by repeat constructor. Qed.
Lemma refreshed_not_type : "type" ∉ refreshed_keys.
Proof. apply (bool_decide_unpack _). vm_compute. exact I. Qed.
Lemma refreshed_NoDup : NoDup refreshed_keys.
Proof. apply (bool_decide_unpack _). vm_compute. exact I. Qed.

(** C38 When the host refreshes a credential and stores the file it is given, reading
    the file again is recognised as this provider's and gives the refreshed token, with
    every other refreshed field that was set and every field the refresh does not touch
    as they were; a request with that file is not activated again. *)
Theorem refreshed_storage_reloads `{!StorageCodec} `{!PluginExecutor} (now : nat -> Z) (raw : bytes) (next : PluginAuth) :
  let data := default empty_storage (parseStorage unicode_lower raw) in
  let stored := mergeStorage unicode_lower raw (Some next) in
  let token := metaString (Some next) "access_token" in
  token <> "" -> token <> "<nil>" -> (forall k, k ∈ storage_keys -> is_ascii (merged data (Some next) k) = true) ->
  exists d, parseStorage unicode_lower stored = Some d /\ d "access_token" = token /\
    (forall k, k ∈ refreshed_keys ->
       let v := TrimSpace (Sprint (map_get (pa_Metadata next) k)) in d k = if bool_decide (v = "") || bool_decide (v = "<nil>") then data k else v) /\
    (forall k, k ∈ storage_keys -> k ∉ "type" :: refreshed_keys -> d k = data k) /\
    forall id provider attributes,
      let auth := authFromPlugin unicode_lower id provider stored [] attributes in
      metaString (Some auth) "access_token" = token /\ ensureActivated now auth = mret (Ok auth).
Proof.
  cbv zeta. intros Ht Hn Ha. destruct (storage_reads_back _ Ha) as (d & Ed & Hd).
  set (data := default _ _) in *. set (token := metaString _ _) in *.
  assert (forall k, k ∈ storage_keys -> d k = merged data (Some next) k) as Hm by (intros k Hk; rewrite Hd; by rewrite decide_True).
  assert (parseStorage unicode_lower (mergeStorage unicode_lower raw (Some next)) = Some d) as Hp.
  { unfold parseStorage at 1, mergeStorage. fold data. rewrite Ed. cbv zeta. rewrite (Hm "type") by (apply (bool_decide_unpack _); vm_compute; exact I).
    unfold merged, set_field. rewrite bool_decide_eq_true_2 by done. replace (lower unicode_lower (TrimSpace ProviderID)) with ProviderID by (vm_compute; reflexivity).
    done. }
  set (md := pa_Metadata next) in *.
  assert (forall k, k ∈ refreshed_keys -> d k = let v := TrimSpace (Sprint (map_get md k)) in
            if bool_decide (v = "") || bool_decide (v = "<nil>") then data k else v) as Hk.
  { intros k Hk. rewrite Hm by by apply refreshed_stored. unfold merged, set_field. rewrite bool_decide_eq_false_2 by (intros ->; by apply refreshed_not_type).
    rewrite merged_in by (done || apply refreshed_NoDup). rewrite merged_field. cbv zeta. rewrite bool_decide_eq_true_2 by done.
    by destruct (bool_decide (_ = "") || _). }
  assert (TrimSpace (Sprint (map_get md "access_token")) = token) as Et.
  { subst token. unfold metaString in *. fold md in Ht |- *. by destruct (map_get md "access_token"). }
  assert (d "access_token" = token) as Ed'.
  { rewrite Hk by by left. cbv zeta. by rewrite Et, !bool_decide_eq_false_2. }
  exists d. split_and!; [exact Hp|exact Ed'|exact Hk| |].
  - intros k Hi Hno. rewrite Hm by done. unfold merged, set_field. apply not_elem_of_cons in Hno as [Hno1 Hno2].
    rewrite bool_decide_eq_false_2 by done. by apply merged_other.
  - intros id provider attributes. unfold authFromPlugin, cloneMap. rewrite Hp.
    set (auth := Build_PluginAuth _ _ _ _ _ _ _).
    assert (metaString (Some auth) "access_token" = token) as Ea.
    { assert (TrimSpace token = token) as Htt by (rewrite <-Et; apply TrimSpace_idemp).
      assert (firstNonEmpty [d "access_token"; d "accessToken"] = token) as Ef.
      { cbn [firstNonEmpty]. rewrite Ed', Htt. by rewrite bool_decide_eq_false_2. }
      change (metaString (Some auth) "access_token") with (TrimSpace (TrimSpace (firstNonEmpty [d "access_token"; d "accessToken"]))).
      by rewrite Ef, !Htt. }
    split; [exact Ea|]. unfold ensureActivated. rewrite Ea. by rewrite bool_decide_eq_false_2.
Qed.
End storage.

(** ** Concurrent requests and the cache of activated credentials *)
Section activation.
Context `{JSON} `{Platform} `{PluginExecutor} `{!RefreshLaws} (unicode_lower : string -> string) (now : nat -> Z).

Definition has_token (a : PluginAuth) : Prop := metaString (Some a) "access_token" <> "".
(** A credential that has an access token of its own, or nothing to get one with. *)
Definition complete (a : PluginAuth) : Prop := has_token a \/ metaString (Some a) "api_key" = "".
(** [a] is what the executor gave for [auth]. *)
Definition exchanged (auth a : PluginAuth) : Prop := exists n, ex_Refresh n (Some auth) = Ok a.
(** It goes on for two minutes, when it says how long. *)
Definition live (at_ : Z) (a : PluginAuth) : Prop :=
  forall expiry, metaString (Some a) "expired" <> "" -> parse_rfc3339 (metaString (Some a) "expired") = Some expiry -> 2 * minute <= expiry - at_.
Definition entry_ok (id : string) (a : PluginAuth) : Prop :=
  pa_ID a = id /\ has_token a /\ exists auth, pa_ID auth = id /\ exchanged auth a.
Definition cache_ok (p : Plugin) : Prop := forall id a, pl_activated p !! id = Some a -> entry_ok id a.
(** A request runs with its own credential exactly when that is complete, and otherwise
    with the one exchanged for it, now or for an earlier request under its identifier. *)
Definition used_ok (x : ran) : Prop :=
  (complete (rn_requested x) -> rn_used x = rn_requested x) /\
  (~ complete (rn_requested x) -> has_token (rn_used x) /\ pa_ID (rn_used x) = pa_ID (rn_requested x) /\
     (exchanged (rn_requested x) (rn_used x) \/
      exists auth m, pa_ID auth = pa_ID (rn_requested x) /\ exchanged auth (rn_used x) /\ live (now m) (rn_used x))).
Definition activations : assertion Plugin ran := fun t p => cache_ok p /\ Forall used_ok t.
Definition activation_guar (_ : nat) (p : Plugin) (u : list ran) (p' : Plugin) : Prop := (cache_ok p -> cache_ok p') /\ Forall used_ok u.
Definition alone (_ _ : Plugin) : Prop := False.
Local Notation outline := (outline alone activation_guar (fun _ => activations)).

Lemma activations_kept i : stable alone activation_guar i activations.
Proof. intros t p u p' [Hc Ht] [[_ []]|(j & _ & Hg & Hu)]. split; [auto|by apply Forall_app]. Qed.
Lemma quiet_step (f : Plugin -> Plugin) : (forall p, pl_activated (f p) = pl_activated p) -> forall p, cache_ok p -> cache_ok (f p).
Proof. intros Hf p Hp id a. rewrite Hf. apply Hp. Qed.
Lemma activations_quiet t p p' : activations t p -> (cache_ok p -> cache_ok p') -> activations (t ++ []) p'.
Proof. intros [Hc Ht] Hp. rewrite app_nil_r. split; auto. Qed.

(** The credential an activation gives. *)
Definition activated_for (auth : PluginAuth) (r : result PluginAuth) : Prop :=
  forall used, r = Ok used -> used_ok {| rn_requested := auth; rn_used := used |}.
Definition ready (P : Prop) : assertion Plugin ran := fun t p => activations t p /\ P.
Lemma ready_kept i P : stable alone activation_guar i (ready P).
Proof. intros t p u p' [Ha HP] Hr. split; [by eapply activations_kept|done]. Qed.
Lemma ready_ret i {A} (a : A) (P : A -> Prop) : P a -> outline i (mret a) activations (fun a => ready (P a)).
Proof. intros HP. apply outline_ret; [apply activations_kept|done|]. intros t p Ht. by split. Qed.
Lemma next_call_section p n p' : (n, p') ∈ next_call p -> p' = count_call p.
Proof. unfold next_call. intros Hn. by sect. Qed.

Lemma activate_outline i auth : ~ complete auth -> outline i (activate auth) activations (fun r => ready (activated_for auth r)).
Proof.
  intros Hno. unfold activate. apply (outline_then _ _ _ _ _ _ _ _ (fun _ => activations)); [apply activations_kept|done| |].
  - intros t p n p' Ht ->%next_call_section. split; [split; [by apply quiet_step|constructor]|]. eapply activations_quiet; [done|by apply quiet_step].
  - intros n _. destruct (ex_Refresh n (Some auth)) as [next|e] eqn:E; [|by apply ready_ret].
    pose proof (refresh_keeps_id _ _ _ E) as Hid. pose proof (refresh_has_token _ _ _ E) as Htok.
    assert (activated_for auth (Ok next)) as Hfor by (intros used [= <-]; split; [done|intros _; split_and!; [done|done|left; by exists n]]).
    eapply outline_bind; [|intros u; by apply ready_ret].
    case_bool_decide as Hb; [by apply outline_ret; [apply activations_kept| |]|].
    apply outline_act; [apply activations_kept|done|intros _; apply activations_kept|done|].
    assert (forall p, cache_ok p -> cache_ok (put_activated (<[pa_ID auth := next]> (pl_activated p)) p)) as Hc.
    { intros p Hp id a. cbn [put_activated pl_activated]. destruct (decide (id = pa_ID auth)) as [->|Hn].
      - rewrite lookup_insert_eq. intros [= <-]. split_and!; [done|done|]. exists auth. split; [done|by exists n].
      - rewrite lookup_insert_ne by done. apply Hp. }
    intros t p [] p' Ht ->%sect_put. split; [split; [apply Hc|constructor]|]. eapply activations_quiet; [done|apply Hc].
Qed.
Lemma unexpired_live at_ a : activationExpired at_ a = false -> live at_ a.
Proof.
  unfold activationExpired, live. intros Ha expiry Hne Hp. rewrite bool_decide_eq_false_2, Hp in Ha by done. lia.
Qed.
(** What was read of the cache. *)
Definition read_of (id : string) (c : option PluginAuth * Z) : Prop := (exists m, c.2 = now m) /\ forall a, c.1 = Some a -> entry_ok id a.
Lemma ensure_outline i auth : outline i (ensureActivated now auth) activations (fun r => ready (activated_for auth r)).
Proof.
  unfold ensureActivated. destruct (negb _ || bool_decide _) eqn:E.
  - apply ready_ret. intros used [= <-]. split; [done|]. intros Hno. destruct Hno. apply orb_true_iff in E as [E|E].
    + left. apply negb_true_iff, bool_decide_eq_false_1 in E. done.
    + right. by apply bool_decide_eq_true_1 in E.
  - assert (~ complete auth) as Hno.
    { apply orb_false_iff in E as [E1 E2]. apply negb_false_iff, bool_decide_eq_true_1 in E1. apply bool_decide_eq_false_1 in E2. by intros [?|?]. }
    apply (outline_then _ _ _ _ _ _ _ _ (fun c => ready (read_of (pa_ID auth) c))); [apply activations_kept|done| |].
    + intros t p c p' [Hp Ht] [-> ->]%sect_get. split; [by split; [|constructor]|]. split; [by apply (activations_quiet t p p)|].
      split; [by eexists|]. intros a Ha. by apply Hp.
    + intros [[next|] at_] _; cbn [fst snd].
      * destruct (activationExpired at_ next) eqn:Ex; cbn [negb]; [eapply outline_pre; [by apply activate_outline|apply ready_kept|by intros t p []]|].
        apply outline_ret; [apply ready_kept|by intros t p []|]. intros t p [Ha [[m Hm] Hn]]. split; [done|]. intros used [= <-].
        destruct (Hn next eq_refl) as (Hi & Htok & old & Hold & Hx). split; [done|]. intros _. split_and!; [done|done|right].
        exists old, m. split_and!; [done|done|]. cbn [snd] in Hm. rewrite <-Hm. by apply unexpired_live.
      * eapply outline_pre; [by apply activate_outline|apply ready_kept|by intros t p []].
Qed.
Lemma with_credential_outline i {A} req (run : nat -> PluginAuth -> Request -> ExecutorOptions -> result A) :
  outline i (with_credential unicode_lower now req run) activations (fun _ => activations).
Proof.
  unfold with_credential. destruct (executionArgs unicode_lower req) as [[auth nativeReq] opts]. eapply outline_bind; [apply ensure_outline|].
  intros [used|e]; [|by apply outline_ret; [apply ready_kept|intros t p []..]].
  apply (outline_then _ _ _ _ _ _ _ _ (fun _ => activations)); [apply ready_kept|by intros t p []| |].
  - intros t p n p' [Ht Hu] ->%next_call_section. cbn [option_list]. assert (Forall used_ok [{| rn_requested := auth; rn_used := used |}]) as Hr by (constructor; [by apply Hu|constructor]).
    split; [split; [by apply quiet_step|done]|]. destruct Ht as [Hc Ht]. split; [by apply quiet_step|]. by apply Forall_app.
  - intros n _. apply outline_ret; [apply activations_kept|done|done].
Qed.

(** *** The calls of the host *)
Inductive hostCall : Type :=
  | HostExecute (req : ExecutorRequest) | HostExecuteStream (req : ExecutorRequest) | HostCountTokens (req : ExecutorRequest)
  | HostRefresh (req : AuthRefreshRequest).
Definition host_call (c : hostCall) : Prog Plugin ran unit :=
  match c with
  | HostExecute req => _ ← Execute unicode_lower now req; mret tt
  | HostExecuteStream req => _ ← ExecuteStream unicode_lower now req; mret tt
  | HostCountTokens req => _ ← CountTokens unicode_lower now req; mret tt
  | HostRefresh req => _ ← RefreshAuth unicode_lower req; mret tt
  end.
Fixpoint host_pool (calls : list hostCall) : list (Prog Plugin ran unit) := match calls with [] => [] | c :: calls => host_call c :: host_pool calls end.
Lemma forget_outline i id : outline i (forgetActivated id) activations (fun _ => activations).
Proof.
  unfold forgetActivated. destruct (bool_decide _); [by apply outline_ret; [apply activations_kept|..]|].
  apply outline_act; [apply activations_kept|done|intros _; apply activations_kept|done|].
  assert (forall p, cache_ok p -> cache_ok (put_activated (delete id (pl_activated p)) p)) as Hc.
  { intros p Hp id' a. cbn [put_activated pl_activated]. intros [_ Ha]%lookup_delete_Some. by apply Hp. }
  intros t p [] p' Ht ->%sect_put. split; [split; [apply Hc|constructor]|]. eapply activations_quiet; [done|apply Hc].
Qed.
Lemma host_call_outline i c : outline i (host_call c) activations (fun _ => activations).
Proof.
  destruct c; cbn [host_call]; (eapply outline_bind; [|intros r; by apply outline_ret; [apply activations_kept|..]]); try apply with_credential_outline.
  unfold RefreshAuth. apply (outline_then _ _ _ _ _ _ _ _ (fun _ => activations)); [apply activations_kept|done| |].
  - intros t p n p' Ht ->%next_call_section. split; [split; [by apply quiet_step|constructor]|]. eapply activations_quiet; [done|by apply quiet_step].
  - intros n _. destruct (ex_Refresh _ _) as [next|e]; [|by apply outline_ret; [apply activations_kept|..]].
    eapply outline_bind; [apply forget_outline|]. intros u. by apply outline_ret; [apply activations_kept|..].
Qed.

(** C37 However many requests and refreshes of the host run at once, every one that
    reaches the executor does so with its own credential if that has an access token or no
    API key, and otherwise never with it but with one of the same identifier that has a
    token: what the executor exchanged its own for, or the cached one, which was exchanged
    for one of this identifier and had two minutes left.  The cache holds only exchanged
    credentials with a token, each under its identifier. *)
Theorem requests_run_activated (dir : string) (calls : list hostCall) (ps : list (Prog Plugin ran unit)) (t : list ran) (p : Plugin) :
  pool_steps alone (host_pool calls, {| pl_stateDir := dir; pl_activated := ∅; pl_calls := 0 |}) t (ps, p) ->
  Forall used_ok t /\ forall id a, pl_activated p !! id = Some a -> entry_ok id a.
Proof.
  intros Hs. assert (forall k t p, activations t p -> outlined alone activation_guar (fun _ => activations) k t (host_pool calls) p) as Ho.
  { clear Hs. intros k t0 p0 Ha. revert k. induction calls as [|c calls' IH]; intros k; cbn [host_pool outlined]; [done|]. split; [|apply IH].
    exists activations. split; [|done]. eapply outline_post; [apply host_call_outline|done]. }
  assert (activations [] {| pl_stateDir := dir; pl_activated := ∅; pl_calls := 0 |}) as Hi.
  { split; [|constructor]. intros id a. cbn [pl_activated]. by rewrite lookup_empty. }
  eapply (outlined_invariant alone activation_guar (fun _ => activations) activations) in Hs as [_ [Hc Ht]].
  - by split.
  - intros j t0 p0 u p' [Hc Ht] [Hg Hu]. split; [auto|by apply Forall_app].
  - by intros ? ? ? _ [].
  - by apply Ho.
  - exact Hi.
Qed.
End activation.
