(* ===== verification/Abi.v ===== *)
(** * The plugin's C interface (src/cmd/cursor-agent2api/abi.go)

    The calls the host makes, their envelopes, and the calls the plugin makes to the
    host: callbacks, streams read from it and streams pumped to it.  The SDK's types are
    encoded and decoded by parameters; the host is an oracle that answers each call. *)
From stdpp Require Import base tactics list gmap strings sorting.
From Stdlib Require Import Strings.Byte.
From S2P Require Import Prelude GoStrings Conc Sha256 JsonValue Connect Data HostedPolicy Segment StoreState Manager Media HostedSearch Projection Translate TranslateRequest TranslateTurn Credentials Delivery Plugin.
Open Scope Z_scope.

Local Notation "x <-? m ;; k" := (rbind m (fun x => k)) (at level 100, m at next level, right associativity).

(** ** Envelopes *)
Record envelopeError := { ee_Code : string; ee_Message : string; ee_HTTPStatus : Z }.
Record Envelope := { en_OK : bool; en_Result : bytes; en_Error : option envelopeError }.
(** [abiCapabilities]; the model scope is always [ExecutorModelScopeBoth]. *)
Record abiCapabilities := {
  ac_AuthProvider : bool; ac_ModelProvider : bool; ac_ModelRegistrar : bool; ac_Executor : bool; ac_ExecutorInputFormats : list string;
  ac_ExecutorOutputFormats : list string; ac_RequestTranslator : bool; ac_ResponseTranslator : bool; ac_ThinkingApplier : bool; ac_CommandLinePlugin : bool }.
Definition capabilities : abiCapabilities :=
  {| ac_AuthProvider := true; ac_ModelProvider := true; ac_ModelRegistrar := true; ac_Executor := true; ac_ExecutorInputFormats := InputFormats;
     ac_ExecutorOutputFormats := OutputFormats; ac_RequestTranslator := false; ac_ResponseTranslator := false; ac_ThinkingApplier := false;
     ac_CommandLinePlugin := false |}.
(** What a method answers with, before it is encoded. *)
Inductive abiResponse : Type :=
  | RRegistration (metadata : PluginMetadata) (capabilities : abiCapabilities)
  | RIdentifier (id : string)
  | RAuthParse (auth : option AuthData)
  | RAuthRefresh (auth : AuthData)
  | RLoginPoll (status message : string)
  | RModels (models : ModelResponse)
  | RExecutor (response : ExecutorResponse)
  | RStream (headers : list (string * list string)) (chunks : list StreamChunk)
  | RHTTP (response : HTTPResponse).
(** The calls of the host, by name. *)
Inductive abiMethod : Type :=
  | MRegister | MReconfigure | MAuthIdentifier | MExecutorIdentifier | MAuthParse | MAuthLoginStart | MAuthLoginPoll | MAuthRefresh | MModelRegister
  | MModelStatic | MModelForAuth | MExecute | MExecuteStream | MCountTokens | MHTTPRequest.
(** The requests to the host. *)
Inductive hostRequest : Type :=
  | QStreamEmit (stream : string) (payload : bytes) | QStreamClose (stream error : string)
  | QHTTPDo (request : bytes) (callback : string) | QHTTPDoStream (request : bytes) (callback : string)
  | QStreamRead (stream : string) | QStreamReadClose (stream : string).
Record streamRead := { rd_Payload : bytes; rd_Error : string; rd_Done : bool }.
Definition no_read : streamRead := {| rd_Payload := []; rd_Error := ""; rd_Done := false |}.
(** [abiHostHTTPStreamResponse]: chunks at once, or a stream to read. *)
Record hostStream := { hs_StatusCode : Z; hs_Headers : list (string * list string); hs_StreamID : string; hs_Chunks : list StreamChunk }.
Definition no_stream : hostStream := {| hs_StatusCode := 0; hs_Headers := []; hs_StreamID := ""; hs_Chunks := [] |}.
Definition no_http : HTTPResponse := {| hr_StatusCode := 0; hr_Headers := []; hr_Body := [] |}.
(** What [json] makes of the SDK's types (requests come with the identifiers beside
    them), the names of the methods, and the texts of errors. *)
Class AbiCodec := {
  method_of : string -> option abiMethod;
  host_method : hostRequest -> string;
  error_text : Err -> string;
  dec_lifecycle : bytes -> result bytes;
  dec_auth_parse : bytes -> result (bytes * string * string);
  dec_login_start : bytes -> result unit;
  dec_login_poll : bytes -> result unit;
  dec_refresh : bytes -> result AuthRefreshRequest;
  dec_model_register : bytes -> result unit;
  dec_model_static : bytes -> result unit;
  dec_model_auth : bytes -> result AuthModelRequest;
  dec_execute : bytes -> result (ExecutorRequest * string);
  dec_http : bytes -> result (string * string);
  enc_response : abiResponse -> result bytes;
  enc_envelope : Envelope -> result bytes;
  enc_host : hostRequest -> result bytes;
  dec_envelope : bytes -> result Envelope;
  dec_empty : bytes -> result unit;
  dec_read : bytes -> result streamRead;
  dec_stream : bytes -> result hostStream;
  dec_http_response : bytes -> result HTTPResponse }.

(** ** State
    [abiState]: whether there is a host with a function to call, and the plugin in use; the plugins made so far
    are objects, which calls that began earlier go on using. *)
Record abiState := { ab_host : bool; ab_plugin : option nat; ab_plugins : list Plugin }.
Definition put_host (b : bool) (s : abiState) : abiState := {| ab_host := b; ab_plugin := ab_plugin s; ab_plugins := ab_plugins s |}.
Definition put_plugins (l : list Plugin) (s : abiState) : abiState := {| ab_host := ab_host s; ab_plugin := ab_plugin s; ab_plugins := l |}.
Definition use_plugin (p : Plugin) (s : abiState) : abiState :=
  {| ab_host := ab_host s; ab_plugin := Some (length (ab_plugins s)); ab_plugins := ab_plugins s ++ [p] |}.
Definition shut_down (s : abiState) : abiState := {| ab_host := false; ab_plugin := None; ab_plugins := ab_plugins s |}.
(** A call of the executor; a request to the host with what it answered: a code and the
    bytes of its response. *)
Inductive abiEvent : Type := EvRan (r : ran) | EvHost (q : hostRequest) (answer : Z * bytes).
Local Notation prog := (Prog abiState abiEvent).
Local Notation sect := (Sect abiState).

(** A program of a plugin, on the plugin object with a number. *)
Definition on_plugin {A} (i : nat) (f : Sect Plugin A) : sect A := fun s =>
  match ab_plugins s !! i with
  | Some p => (fun x => (x.1, put_plugins (<[i := x.2]> (ab_plugins s)) s)) <$> f p
  | None => []
  end.
Fixpoint plugin_call {A} (i : nat) (p : Prog Plugin ran A) : prog A :=
  match p with
  | Ret a => Ret a
  | Act lab f k => Act (fun b => EvRan <$> lab b) (on_plugin i f) (fun b => plugin_call i (k b))
  | Fork p k => Fork (plugin_call i p) (plugin_call i k)
  end.

Section abi.
Context `{JSON} `{Platform} `{PluginExecutor} `{AbiCodec} (unicode_lower : string -> string) (now : nat -> Z).
Context {X : Type} (new_store : string -> Z -> result X) (new_request : string -> string -> option Err).
(** What the host may answer: a code and the bytes of its response, fewer than 2^31 of
    them ([C.GoBytes] panics on more, and the process ends). *)
Context (host_answers : string -> bytes -> list (Z * bytes)).

(** ** Envelopes *)
Definition abiErrorEnvelopeWithStatus (code message : string) (httpStatus : Z) : bytes :=
  match enc_envelope {| en_OK := false; en_Result := []; en_Error := Some {| ee_Code := code; ee_Message := message; ee_HTTPStatus := httpStatus |} |} with
  | Ok raw => raw
  | Fail _ => []
  end.
Definition abiErrorEnvelope (code message : string) : bytes := abiErrorEnvelopeWithStatus code message 0.
Definition abiErrorEnvelopeFromError (code : string) (e : Err) : bytes := abiErrorEnvelopeWithStatus code (error_text e) (errorStatusCode e).
Definition abiOKEnvelope (v : abiResponse) : result bytes :=
  result <-? enc_response v ;; enc_envelope {| en_OK := true; en_Result := result; en_Error := None |}.
Definition abiOKEnvelopeWithError (v : result abiResponse) : result bytes :=
  match v with Fail e => Ok (abiErrorEnvelopeFromError "plugin_error" e) | Ok v => abiOKEnvelope v end.

(** ** Calls to the host *)
Definition errNoHost : Err := ErrMsg "host callback is unavailable".
Definition host_failed (q : hostRequest) (code : Z) : Err := ErrMsg ("host callback " +:+ host_method q +:+ " failed with code " +:+ Itoa code).
Definition host_refused (q : hostRequest) (e : option envelopeError) : Err :=
  match e with Some e => ErrMsg (ee_Message e) | None => ErrMsg ("host callback " +:+ host_method q +:+ " failed") end.
(** Reading the answer; [zero] is the result when the envelope has none. *)
Definition read_answer {T} (q : hostRequest) (zero : T) (decode : bytes -> result T) (answer : Z * bytes) : result T :=
  let '(code, rawResp) := answer in
  if negb (code =? 0) then Fail (host_failed q code)
  else
    envelope <-? dec_envelope rawResp ;;
    if negb (en_OK envelope) then Fail (host_refused q (en_Error envelope))
    else match en_Result envelope with [] => Ok zero | result => decode result end.
Definition callHost {T} (q : hostRequest) (zero : T) (decode : bytes -> result T) : prog (result T) :=
  host ← atomic (get ab_host);
  if negb (host : bool) then mret (Fail errNoHost)
  else
    match enc_host q with
    | Fail e => mret (Fail e)
    | Ok raw => answer ← labelled (fun answer => Some (EvHost q answer)) (choose (host_answers (host_method q) raw)); mret (read_answer q zero decode answer)
    end.

(** ** Streams to the host
    [chunks] is what the channel gives until it is closed; [cancelled] the error of the
    context, when it may be done. *)
Definition closeStream (streamID errorMessage : string) : prog unit := _ ← callHost (QStreamClose streamID errorMessage) tt dec_empty; mret tt.
Fixpoint pump_loop (cancelled : option Err) (streamID : string) (chunks : list StreamChunk) : prog string :=
  let next := match chunks with [] => inr None | chunk :: _ => inr (Some chunk) end in
  received ← atomic (choose (next :: match cancelled with Some e => [inl e] | None => [] end));
  match received with
  | inl e => mret (error_text e)
  | inr _ =>
      match chunks with
      | [] => mret ""
      | chunk :: rest =>
          match ch_Err chunk with
          | Some e => mret (error_text e)
          | None =>
              match ch_Payload chunk with
              | [] => pump_loop cancelled streamID rest
              | payload =>
                  emitted ← callHost (QStreamEmit streamID payload) tt dec_empty;
                  match emitted with Fail e => mret (error_text e) | Ok _ => pump_loop cancelled streamID rest end
              end
          end
      end
  end.
Definition pumpABIStream (cancelled : option Err) (streamID : string) (chunks : list StreamChunk) : prog unit :=
  errorMessage ← pump_loop cancelled streamID chunks; closeStream streamID errorMessage.
Definition marshalABIStreamResponse (streamID : string) (resp : StreamResult) : prog abiResponse :=
  if bool_decide (streamID = "") then mret (RStream (sr_Headers resp) (sr_Chunks resp))
  else
    _ ← fork (pumpABIStream None streamID (sr_Chunks resp));
    mret (RStream (sr_Headers resp) []).

(** ** Streams of the host ([abiHostHTTPClient])
    What [readHostHTTPStream] sends to its channel within [fuel] reads, and whether it has ended. *)
Definition error_chunk (e : Err) : StreamChunk := {| ch_Payload := []; ch_Err := Some e |}.
Definition payload_chunks (payload : bytes) : list StreamChunk := match payload with [] => [] | _ => [{| ch_Payload := payload; ch_Err := None |}] end.
Definition closeHostHTTPStream (streamID : string) : prog unit := _ ← callHost (QStreamReadClose streamID) tt dec_empty; mret tt.
Fixpoint readHostHTTPStream (cancelled : option Err) (streamID : string) (fuel : nat) : prog (list StreamChunk * bool) :=
  match fuel with
  | O => mret ([], false)
  | S fuel =>
      done ← atomic (choose (false :: match cancelled with Some _ => [true] | None => [] end));
      if done : bool then _ ← closeHostHTTPStream streamID; mret ([], true)
      else
        resp ← callHost (QStreamRead streamID) no_read dec_read;
        match resp with
        | Fail e => _ ← closeHostHTTPStream streamID; mret ([error_chunk e], true)
        | Ok resp =>
            if negb (bool_decide (rd_Error resp = "")) then mret ([error_chunk (ErrMsg (rd_Error resp))], true)
            else if rd_Done resp then mret (payload_chunks (rd_Payload resp), true)
            else rest ← readHostHTTPStream cancelled streamID fuel; mret (payload_chunks (rd_Payload resp) ++ rest.1, rest.2)
        end
  end.
Definition Do (callback : string) (request : bytes) : prog (result HTTPResponse) := callHost (QHTTPDo request callback) no_http dec_http_response.
(** The response, and its chunks when they came at once ([None]: a goroutine reads them). *)
Definition DoStream (callback : string) (request : bytes) : prog (result (hostStream * option (list StreamChunk))) :=
  resp ← callHost (QHTTPDoStream request callback) no_stream dec_stream;
  match resp with
  | Fail e => mret (Fail e)
  | Ok resp => mret (Ok (resp, if bool_decide (hs_StreamID resp = "") then Some (hs_Chunks resp) else None))
  end.

(** ** Calls of the host *)
Definition handleRegister (request : bytes) : prog (result bytes) :=
  match (config <-? dec_lifecycle request ;; Build new_store config) with
  | Fail e => mret (Fail e)
  | Ok p => _ ← atomic (put (use_plugin p)); mret (abiOKEnvelope (RRegistration Metadata capabilities))
  end.
Definition errNotRegistered : Err := ErrMsg "cursor-agent-v1 plugin is not registered".
Definition currentPlugin : sect (result nat) := p ← get ab_plugin; mret (match p with Some i => Ok i | None => Fail errNotRegistered end).
(** A decoding error ends the call; an error of the method goes into an envelope. *)
Definition decoded {T} (req : result T) (call : T -> prog (result abiResponse)) : prog (result bytes) :=
  match req with Fail e => mret (Fail e) | Ok req => r ← call req; mret (abiOKEnvelopeWithError r) end.
Definition pure_call (r : result abiResponse) : prog (result abiResponse) := mret r.
Definition answered {A} (f : A -> abiResponse) (r : result A) : result abiResponse := match r with Ok a => Ok (f a) | Fail e => Fail e end.
Definition plugin_method (i : nat) (m : abiMethod) (request : bytes) : prog (result bytes) :=
  match m with
  | MRegister | MReconfigure => handleRegister request
  | MAuthIdentifier | MExecutorIdentifier => mret (abiOKEnvelope (RIdentifier Identifier))
  | MAuthParse => decoded (dec_auth_parse request) (fun '(raw, fileName, path) => pure_call (Ok (RAuthParse (ParseAuth unicode_lower raw fileName path))))
  | MAuthLoginStart => decoded (dec_login_start request) (fun _ => pure_call (Fail StartLogin))
  | MAuthLoginPoll => decoded (dec_login_poll request) (fun _ => pure_call (Ok (RLoginPoll PollLogin.1 PollLogin.2)))
  | MAuthRefresh => decoded (dec_refresh request) (fun req => r ← plugin_call i (RefreshAuth unicode_lower req); mret (answered RAuthRefresh r))
  | MModelRegister => decoded (dec_model_register request) (fun _ => pure_call (Ok (RModels RegisterModels)))
  | MModelStatic => decoded (dec_model_static request) (fun _ => pure_call (Ok (RModels StaticModels)))
  | MModelForAuth => decoded (dec_model_auth request) (fun req => pure_call (Ok (RModels (ModelsForAuth unicode_lower req))))
  | MExecute => decoded (dec_execute request) (fun '(req, _) => r ← plugin_call i (Execute unicode_lower now req); mret (answered RExecutor r))
  | MExecuteStream =>
      match dec_execute request with
      | Fail e => mret (Fail e)
      | Ok (req, streamID) =>
          resp ← plugin_call i (ExecuteStream unicode_lower now req);
          match resp with
          | Fail e => mret (Fail e)
          | Ok resp => streamResp ← marshalABIStreamResponse streamID resp; mret (abiOKEnvelope streamResp)
          end
      end
  | MCountTokens => decoded (dec_execute request) (fun '(req, _) => r ← plugin_call i (CountTokens unicode_lower now req); mret (answered RExecutor r))
  | MHTTPRequest => decoded (dec_http request) (fun '(method, url) => pure_call (answered RHTTP (HttpRequest new_request method url)))
  end.
Definition handleABIMethod (method : string) (request : bytes) : prog (result bytes) :=
  match method_of method with
  | Some (MRegister | MReconfigure) => handleRegister request
  | m =>
      p ← atomic currentPlugin;
      match p, m with
      | Fail e, _ => mret (Fail e)
      | Ok i, Some m => plugin_method i m request
      | Ok _, None => mret (Ok (abiErrorEnvelope "unknown_method" ("unknown method: " +:+ method)))
      end
  end.

(** ** The exported functions *)
(** [C.int] of a length, and [C.GoBytes]: [None] when it panics on a negative one. *)
Definition wrap_i32 (z : Z) : Z := (z + 2 ^ 31) mod 2 ^ 32 - 2 ^ 31.
Definition GoBytes (memory : bytes) (length : Z) : option bytes := let n := wrap_i32 length in if n <? 0 then None else Some (take (Z.to_nat n) memory).
(** The response buffer after a call: empty, or the bytes of a block that was allocated. *)
Definition writeABIResponse (wanted : bool) (data : bytes) : prog bytes :=
  if negb wanted then mret []
  else match data with [] => mret [] | _ => allocated ← atomic (choose [true; false]); mret (if allocated : bool then data else []) end.
Inductive abiOutcome : Type := Panicked | Returned (code : Z) (response : bytes).
(** [method] and the request may be null; [wanted]: the response buffer is not. *)
Definition CursorAgentPluginCall (method : option string) (request : option bytes) (requestLen : Z) (wanted : bool) : prog abiOutcome :=
  match method with
  | None => written ← writeABIResponse wanted (abiErrorEnvelope "invalid_method" "method is required"); mret (Returned 1 written)
  | Some method =>
      let requestBytes := match request with Some memory => if 0 <? requestLen then GoBytes memory requestLen else Some [] | None => Some [] end in
      match requestBytes with
      | None => mret Panicked
      | Some requestBytes =>
          raw ← handleABIMethod method requestBytes;
          match raw with
          | Fail e => written ← writeABIResponse wanted (abiErrorEnvelopeFromError "plugin_error" e); mret (Returned 1 written)
          | Ok raw => written ← writeABIResponse wanted raw; mret (Returned 0 written)
          end
      end
  end.
(** The table of the host, with or without a function to call, and whether there is one
    for the plugin; the code returned. *)
Definition cliproxy_plugin_init (host : option bool) (plugin : bool) : prog Z :=
  match host with
  | Some has_call => if negb plugin then mret 1 else _ ← atomic (put (put_host has_call)); mret 0
  | None => mret 1
  end.
Definition CursorAgentPluginShutdown : prog unit := atomic (put shut_down).
End abi.
