(* ===== verification/AbiProps.v ===== *)
(** * Properties of the plugin's C interface

    A stream pumped to the host reaches it in order, ends at the first payload the host
    does not take and is closed once, as a success only when all of it was taken; the exported call answers with an envelope. *)
From stdpp Require Import base tactics list gmap strings sorting.
From Stdlib Require Import Strings.Byte.
From S2P Require Import Prelude GoStrings Conc Sha256 JsonValue Connect Data HostedPolicy Segment StoreState Manager Media HostedSearch Projection Translate TranslateRequest TranslateTurn Credentials Delivery Plugin Abi.
Open Scope Z_scope.

(** ** Streams to the host *)
(** What a stream holds for the host: the payloads before its first error. *)
Fixpoint deliverable (chunks : list StreamChunk) : list bytes :=
  match chunks with
  | [] => []
  | chunk :: rest =>
      match ch_Err chunk, ch_Payload chunk with Some _, _ => [] | None, [] => deliverable rest | None, payload => payload :: deliverable rest end
  end.
Fixpoint first_error (chunks : list StreamChunk) : option Err :=
  match chunks with [] => None | chunk :: rest => match ch_Err chunk with Some e => Some e | None => first_error rest end end.

Section streams.
Context `{AbiCodec} (host_answers : string -> bytes -> list (Z * bytes)).
(** Payloads the host was asked to take, with its answers. *)
Definition emits (streamID : string) (sent : list (bytes * (Z * bytes))) : list abiEvent := (fun x => EvHost (QStreamEmit streamID x.1) x.2) <$> sent.
(** An answer that takes the request: code 0 and an envelope that says so, with nothing in
    it or with what the request is answered with. *)
Definition accepted (answer : Z * bytes) : Prop :=
  answer.1 = 0 /\ exists envelope, dec_envelope answer.2 = Ok envelope /\ en_OK envelope = true /\
    (en_Result envelope = [] \/ exists u, dec_empty (en_Result envelope) = Ok u).
(** One that does not, and the error it stands for. *)
Inductive refusal (q : hostRequest) (answer : Z * bytes) : Err -> Prop :=
  | refused_code : answer.1 <> 0 -> refusal q answer (host_failed q answer.1)
  | refused_unread e : answer.1 = 0 -> dec_envelope answer.2 = Fail e -> refusal q answer e
  | refused_envelope envelope : answer.1 = 0 -> dec_envelope answer.2 = Ok envelope -> en_OK envelope = false -> refusal q answer (host_refused q (en_Error envelope))
  | refused_result envelope e : answer.1 = 0 -> dec_envelope answer.2 = Ok envelope -> en_OK envelope = true -> en_Result envelope <> [] ->
      dec_empty (en_Result envelope) = Fail e -> refusal q answer e.
Definition all_accepted (sent : list (bytes * (Z * bytes))) : Prop := Forall (fun x => accepted x.2) sent.
(** What ended the stream after [sent]: its error when all was taken, the context's, a
    host that is gone, a payload that cannot be written, or the host, which did not take
    the last payload. *)
Inductive pump_error (cancelled : option Err) (streamID : string) (chunks : list StreamChunk) (sent : list (bytes * (Z * bytes))) : Err -> Prop :=
  | pump_failed e : first_error chunks = Some e -> sent.*1 = deliverable chunks -> all_accepted sent -> pump_error cancelled streamID chunks sent e
  | pump_cancelled e : cancelled = Some e -> all_accepted sent -> pump_error cancelled streamID chunks sent e
  | pump_no_host : all_accepted sent -> pump_error cancelled streamID chunks sent errNoHost
  | pump_unencoded payload e : sent.*1 ++ [payload] `prefix_of` deliverable chunks -> all_accepted sent ->
      enc_host (QStreamEmit streamID payload) = Fail e -> pump_error cancelled streamID chunks sent e
  | pump_refused payload answer e : last sent = Some (payload, answer) -> ~ accepted answer -> refusal (QStreamEmit streamID payload) answer e ->
      pump_error cancelled streamID chunks sent e.
(** The text a stream is closed with. *)
Definition close_reason cancelled streamID chunks (sent : list (bytes * (Z * bytes))) (errorMessage : string) : Prop :=
  (errorMessage = "" /\ sent.*1 = deliverable chunks /\ first_error chunks = None /\ all_accepted sent) \/
  exists e, errorMessage = error_text e /\ pump_error cancelled streamID chunks sent e.
(** The requests to the host so far: payloads, each after those before it were taken, and
    then at most one close. *)
Definition pumped cancelled streamID chunks (t : list abiEvent) : Prop :=
  exists sent, sent.*1 `prefix_of` deliverable chunks /\ (forall l x, sent = l ++ [x] -> all_accepted l) /\
    (t = emits streamID sent \/
     exists errorMessage answer, t = emits streamID sent ++ [EvHost (QStreamClose streamID errorMessage) answer] /\
       close_reason cancelled streamID chunks sent errorMessage).

Lemma read_accepted q answer u : read_answer q tt dec_empty answer = Ok u -> accepted answer.
Proof.
  destruct answer as [code raw]. unfold read_answer, accepted. cbn [fst snd]. destruct (code =? 0) eqn:Ec; cbn [negb]; [|done]. apply Z.eqb_eq in Ec.
  destruct (dec_envelope raw) as [envelope|]; cbn [rbind]; [|done]. destruct (en_OK envelope) eqn:Eo; cbn [negb]; [|done].
  intros Hr. split; [done|]. exists envelope. split_and!; [done|done|]. destruct (en_Result envelope); [by left|right; by exists u].
Qed.
Lemma read_refused q answer e : read_answer q tt dec_empty answer = Fail e -> ~ accepted answer /\ refusal q answer e.
Proof.
  destruct answer as [code raw]. unfold read_answer, accepted. cbn [fst snd]. destruct (code =? 0) eqn:Ec; cbn [negb]; [apply Z.eqb_eq in Ec|].
  2: { intros [= <-]. apply Z.eqb_neq in Ec. split; [by intros [? _]|]. by apply (refused_code q (code, raw)). }
  destruct (dec_envelope raw) as [envelope|e'] eqn:Ed; cbn [rbind].
  2: { intros [= <-]. split; [by intros [_ (? & ? & _)]|]. by apply (refused_unread q (code, raw)). }
  destruct (en_OK envelope) eqn:Eo; cbn [negb].
  2: { intros [= <-]. split; [intros [_ (? & [= <-] & Ho & _)]; by rewrite Eo in Ho|]. by apply (refused_envelope q (code, raw)). }
  destruct (en_Result envelope) as [|c result] eqn:Er; [done|]. intros Hd. split.
  - intros [_ (? & [= <-] & _ & [Hn|[u Hu]])]; [by rewrite Er in Hn|]. rewrite Er, Hd in Hu. done.
  - apply (refused_result q (code, raw) envelope); [done|done|done|by rewrite Er|by rewrite Er].
Qed.
Lemma emits_snoc id sent p answer : emits id (sent ++ [(p, answer)]) = emits id sent ++ [EvHost (QStreamEmit id p) answer].
Proof. unfold emits. by rewrite fmap_app. Qed.
Lemma accepted_before sent : all_accepted sent -> forall l x, sent = l ++ [x] -> all_accepted l.
Proof. intros Ha l x ->. by apply Forall_app in Ha as [? _]. Qed.
Lemma pumped_sent cancelled id chunks sent : sent.*1 `prefix_of` deliverable chunks -> all_accepted sent -> pumped cancelled id chunks (emits id sent).
Proof. intros Hs Ha. exists sent. split; [done|]. split; [by apply accepted_before|by left]. Qed.

Lemma wp_callHost safe {T} q (zero : T) decode (Q : result T -> list abiEvent -> Prop) t :
  safe t -> (forall answer, safe (t ++ [EvHost q answer])) -> Q (Fail errNoHost) t -> (forall e, enc_host q = Fail e -> Q (Fail e) t) ->
  (forall answer, Q (read_answer q zero decode answer) (t ++ [EvHost q answer])) ->
  wp safe (callHost host_answers q zero decode) Q t.
Proof.
  intros Ht Hq H1 H2 H3. unfold callHost. apply wp_bind, wp_atomic; [done|]. intros s host s' _. destruct host; cbn [negb]; [|by apply wp_ret].
  destruct (enc_host q) as [raw|e] eqn:E; [|apply wp_ret; [done|by apply H2]].
  apply wp_bind, wp_labelled; [done|]. intros s1 answer s1' _. cbn [option_list].
  split; [apply Hq|]. apply wp_ret; [apply Hq|]. apply H3.
Qed.

(** The loop is over: [sent] was passed on, and it says why. *)
Definition ended cancelled streamID chunks (errorMessage : string) (t : list abiEvent) : Prop :=
  exists sent, sent.*1 `prefix_of` deliverable chunks /\ (forall l x, sent = l ++ [x] -> all_accepted l) /\ t = emits streamID sent /\
    close_reason cancelled streamID chunks sent errorMessage.
Lemma wp_ended cancelled id chunks sent m :
  sent.*1 `prefix_of` deliverable chunks -> all_accepted sent -> close_reason cancelled id chunks sent m ->
  wp (S := abiState) (pumped cancelled id chunks) (mret m) (ended cancelled id chunks) (emits id sent).
Proof. intros Hs Ha Hm. apply wp_ret; [by apply pumped_sent|]. exists sent. split_and!; [done|by apply accepted_before|done|done]. Qed.
Lemma pump_loop_wp cancelled id chunks rest sent :
  deliverable chunks = sent.*1 ++ deliverable rest -> first_error chunks = first_error rest -> all_accepted sent ->
  wp (pumped cancelled id chunks) (pump_loop host_answers cancelled id rest)
    (ended cancelled id chunks) (emits id sent).
Proof.
  revert sent. induction rest as [|chunk rest IH]; intros sent Hd He Hall; cbn [pump_loop];
    (assert (sent.*1 `prefix_of` deliverable chunks) as Hp by (rewrite Hd; by eexists));
    (apply wp_bind, wp_atomic; [by apply pumped_sent|]; intros s received s' [Hr _]%sect_choose; destruct received as [e|]);
    try (apply wp_ended; [done|done|]; right; exists e; split; [done|]; apply pump_cancelled; [destruct cancelled as [e'|]; set_solver|done]).
  - apply wp_ended; [done|done|]. left. cbn [deliverable first_error] in *. rewrite Hd, app_nil_r. done.
  - cbn [deliverable first_error] in Hd, He. destruct (ch_Err chunk) as [e|] eqn:Ee.
    + apply wp_ended; [done|done|]. right. exists e. split; [done|]. apply pump_failed; [done|by rewrite Hd, app_nil_r|done].
    + destruct (ch_Payload chunk) as [|c payload] eqn:Epay; [by apply IH|]. set (p := c :: payload) in *.
      assert (forall answer, deliverable chunks = (sent ++ [(p, answer)]).*1 ++ deliverable rest) as Hd'
        by (intros answer; rewrite fmap_app, <-app_assoc; exact Hd).
      assert (forall answer, (sent ++ [(p, answer)]).*1 `prefix_of` deliverable chunks) as Hp' by (intros answer; rewrite (Hd' answer); by eexists).
      assert (forall answer l x, sent ++ [(p, answer)] = l ++ [x] -> all_accepted l) as Hb by (by intros answer l x [-> _]%app_inj_tail).
      assert (forall answer, pumped cancelled id chunks (emits id (sent ++ [(p, answer)]))) as Hs
        by (intros answer; exists (sent ++ [(p, answer)]); split; [done|]; split; [apply Hb|by left]).
      apply wp_bind, wp_callHost; [by apply pumped_sent|intros answer; rewrite <-emits_snoc; apply Hs| | |].
      * apply wp_ended; [done|done|]. right. eexists. split; [done|]. by apply pump_no_host.
      * intros e E. apply wp_ended; [done|done|]. right. exists e. split; [done|]. eapply pump_unencoded; [|done|done].
        specialize (Hp' (0, [])). by rewrite fmap_app in Hp'.
      * intros answer. rewrite <-emits_snoc. destruct (read_answer _ _ _ _) as [u|e] eqn:Er.
        -- apply IH; [done|done|]. apply Forall_app. split; [done|]. apply Forall_singleton. by eapply read_accepted.
        -- apply read_refused in Er as [Hna Hrf]. apply wp_ret; [apply Hs|]. exists (sent ++ [(p, answer)]). split_and!; [done|apply Hb|done|].
           right. exists e. split; [done|]. eapply pump_refused; [apply last_snoc|done|done].
Qed.

(** C39 A stream pumped to the host reaches it in order: at every moment the host was
    sent the payloads that precede the stream's first error, without empty ones, up to
    some point, each only after it took the one before - answered code 0 and an envelope
    that says so - and then at most one close.  A payload it did not take ends the
    stream, with the error its answer stands for.  The close has an empty text only when
    everything was sent and taken and the stream did not fail, unless the error that
    ended it has itself an empty text; that is the stream's error after all of its
    payloads, the context's, a host that is gone, a payload that cannot be written, or
    the refusal of the last payload. *)
Theorem stream_pumped_in_order (cancelled : option Err) (streamID : string) (chunks : list StreamChunk) (t : list abiEvent) (r : option unit) :
  ptrace (pumpABIStream host_answers cancelled streamID chunks) t r -> pumped cancelled streamID chunks t.
Proof.
  intros Hp. apply (wp_sound (pumped cancelled streamID chunks) _ (fun _ _ => True) []) in Hp as [Hp _]; [done|].
  unfold pumpABIStream. apply wp_bind. eapply wp_mono; [by apply (pump_loop_wp _ _ _ chunks []); [| |constructor]|].
  intros m t' (sent & Hs & Hb & -> & Hm). unfold closeStream. apply wp_bind.
  assert (pumped cancelled streamID chunks (emits streamID sent)) as Hsent by (exists sent; split; [done|]; split; [done|by left]).
  assert (forall answer, pumped cancelled streamID chunks (emits streamID sent ++ [EvHost (QStreamClose streamID m) answer])) as Hc
    by (intros answer; exists sent; split; [done|]; split; [done|]; right; by exists m, answer).
  apply wp_callHost; [done|done|..]; intros; (apply wp_ret; [by (apply Hc || exact Hsent)|done]).
Qed.

(** ** Streams of the host
    Payloads that are not empty, and an error at the end only. *)
Definition host_chunks (r : list StreamChunk * bool) : Prop :=
  exists payloads e, r.1 = ((fun p => {| ch_Payload := p; ch_Err := None |}) <$> payloads) ++ (error_chunk <$> option_list e) /\
    Forall (fun p => p <> []) payloads /\ (e <> None -> r.2 = true).
Lemma host_chunks_end (b : bool) e : (e <> None -> b = true) -> host_chunks (error_chunk <$> option_list e, b).
Proof. intros He. by exists [], e. Qed.
Lemma host_chunks_payload payload r : host_chunks r -> host_chunks (payload_chunks payload ++ r.1, r.2).
Proof.
  intros (payloads & e & E & Hp & He). destruct payload as [|c payload]; [by exists payloads, e|]. exists ((c :: payload) :: payloads), e.
  cbn [fst snd payload_chunks]. rewrite E. split_and!; [done| |done]. by constructor.
Qed.
Definition any_events : list abiEvent -> Prop := fun _ => True.
Lemma host_stream_wp cancelled streamID fuel t :
  wp (S := abiState) any_events (readHostHTTPStream host_answers cancelled streamID fuel) (fun r _ => host_chunks r) t.
Proof.
  assert (forall (b : bool) e t, (e <> None -> b = true) -> wp (S := abiState) any_events (mret (error_chunk <$> option_list e, b)) (fun r _ => host_chunks r) t) as Hend
    by (intros b e t' He; apply wp_ret; [done|by apply host_chunks_end]).
  assert (forall e t, wp (S := abiState) any_events (_ ← closeHostHTTPStream host_answers streamID; mret (error_chunk <$> option_list e, true)) (fun r _ => host_chunks r) t) as Hclose.
  { intros e t'. unfold closeHostHTTPStream. apply wp_bind, wp_bind, wp_callHost; try done; intros; (apply wp_ret; [done|by apply Hend]). }
  revert t. induction fuel as [|fuel IH]; intros t; cbn [readHostHTTPStream]; [by apply (Hend false None)|].
  apply wp_bind, wp_atomic; [done|]. intros s done_ s' _. destruct done_; [apply (Hclose None)|].
  apply wp_bind, wp_callHost; [done|done|apply (Hclose (Some _))|intros e _; apply (Hclose (Some e))|].
  intros answer. destruct (read_answer _ _ _ _) as [resp|e]; [|apply (Hclose (Some e))].
  destruct (negb _); [by apply (Hend true (Some _))|]. destruct (rd_Done resp).
  - apply wp_ret; [done|]. rewrite <-(app_nil_r (payload_chunks _)). apply (host_chunks_payload _ ([], true)). by apply (host_chunks_end true None).
  - apply wp_bind. eapply wp_mono; [apply IH|]. intros r t' Hr. apply wp_ret; [done|]. by apply host_chunks_payload.
Qed.
(** Whatever the host answers, a stream read from it gives payloads and at most one
    error, which is its last chunk and ends it. *)
Theorem host_stream_read cancelled streamID fuel t r :
  ptrace (readHostHTTPStream host_answers cancelled streamID fuel) t (Some r) -> host_chunks r.
Proof. intros Hp. eapply (wp_sound any_events _ (fun r _ => host_chunks r) []) in Hp as [_ Hp]; [by apply Hp|]. apply host_stream_wp. Qed.
End streams.

(** ** The exported call *)
Section calls.
Context `{JSON} `{Platform} `{PluginExecutor} `{AbiCodec} (unicode_lower : string -> string) (now : nat -> Z).
Context {X : Type} (new_store : string -> Z -> result X) (new_request : string -> string -> option Err).
Context (host_answers : string -> bytes -> list (Z * bytes)).

(** An envelope has a result or an error, not both. *)
Definition well_formed (envelope : Envelope) : Prop :=
  if en_OK envelope then en_Error envelope = None else en_Result envelope = [] /\ exists e, en_Error envelope = Some e.
Definition enveloped (ok : Envelope -> Prop) (raw : bytes) : Prop :=
  raw = [] \/ exists envelope, enc_envelope envelope = Ok raw /\ well_formed envelope /\ ok envelope.
Definition refuses (envelope : Envelope) : Prop := en_OK envelope = false.
Definition answered_ok (r : result bytes) : Prop := forall raw, r = Ok raw -> enveloped (fun _ => True) raw.
Definition any_trace : list abiEvent -> Prop := fun _ => True.
Local Notation safely := (wp (S := abiState) any_trace).

Lemma error_enveloped code message status : enveloped refuses (abiErrorEnvelopeWithStatus code message status).
Proof. unfold abiErrorEnvelopeWithStatus. destruct (enc_envelope _) as [raw|e] eqn:E; [|by left]. right. eexists. split; [exact E|]. split; [|done]. split; [done|]. by eexists. Qed.
Lemma enveloped_any ok raw : enveloped ok raw -> enveloped (fun _ => True) raw.
Proof. intros [->|(envelope & E & Hw & _)]; [by left|right; by exists envelope]. Qed.
Lemma ok_answered v : answered_ok (abiOKEnvelope v).
Proof. unfold abiOKEnvelope, rbind. intros raw. destruct (enc_response v) as [result|e]; [|done]. intros E. right. eexists. by split. Qed.
Lemma ok_or_error_answered v : answered_ok (abiOKEnvelopeWithError v).
Proof. destruct v as [v|e]; [apply ok_answered|]. intros raw [= <-]. eapply enveloped_any, error_enveloped. Qed.
Lemma fail_answered e : answered_ok (Fail e).
Proof. done. Qed.
#[local] Hint Resolve error_enveloped ok_answered ok_or_error_answered fail_answered : core.

Lemma wp_any {A} (p : Prog abiState abiEvent A) t : safely p (fun _ _ => True) t.
Proof. revert t. by induction p as [A a|A B lab f k IH|A p _ k IH]; intros t; split; auto. Qed.
Lemma wp_answer r t : answered_ok r -> safely (mret r) (fun r _ => answered_ok r) t.
Proof. intros Hr. by apply wp_ret. Qed.
Lemma wp_after {A B} (p : Prog abiState abiEvent A) (q : A -> Prog abiState abiEvent B) Q t : (forall a t, safely (q a) Q t) -> safely (p ≫= q) Q t.
Proof. intros Hq. apply wp_bind. eapply wp_mono; [apply wp_any|]. intros a t' _. apply Hq. Qed.
Lemma wp_decoded {T} (req : result T) call t : safely (decoded req call) (fun r _ => answered_ok r) t.
Proof. destruct req as [req|e]; [|by apply wp_answer]. apply wp_after. intros r t'. by apply wp_answer. Qed.
Lemma handleRegister_wp request t : safely (handleRegister new_store request) (fun r _ => answered_ok r) t.
Proof. unfold handleRegister. destruct (rbind _ _) as [p|e]; [|by apply wp_answer]. apply wp_after. intros u t'. by apply wp_answer. Qed.
Lemma plugin_method_wp i m request t :
  safely (plugin_method unicode_lower now new_store new_request host_answers i m request) (fun r _ => answered_ok r) t.
Proof.
  destruct m; cbn [plugin_method]; try apply handleRegister_wp; try apply wp_decoded; try (by apply wp_answer).
  destruct (dec_execute request) as [[req streamID]|e]; [|by apply wp_answer]. apply wp_after. intros [resp|e] t'; [|by apply wp_answer].
  apply wp_after. intros streamResp t''. by apply wp_answer.
Qed.
Lemma handleABIMethod_wp method request t :
  safely (handleABIMethod unicode_lower now new_store new_request host_answers method request) (fun r _ => answered_ok r) t.
Proof.
  unfold handleABIMethod. destruct (method_of method) as [[]|]; try apply handleRegister_wp; apply wp_after; intros [i|e] t'; try (by apply wp_answer);
    try apply plugin_method_wp. apply wp_answer. intros raw [= <-]. eapply enveloped_any, error_enveloped.
Qed.
Lemma writeABIResponse_wp wanted data t : safely (writeABIResponse wanted data) (fun written _ => written = [] \/ wanted = true /\ written = data) t.
Proof.
  unfold writeABIResponse. destruct wanted; cbn [negb]; [|apply wp_ret; [done|by left]]. destruct data as [|c data]; [apply wp_ret; [done|by left]|].
  apply wp_after. intros allocated t'. apply wp_ret; [done|]. destruct allocated; auto.
Qed.

(** What a call may return. *)
Definition returned (wanted : bool) (code : Z) (response : bytes) : Prop :=
  (code = 0 /\ enveloped (fun _ => True) response \/ code = 1 /\ enveloped refuses response) /\ (wanted = false -> response = []).
Definition oversized (method : option string) (request : option bytes) (requestLen : Z) : Prop :=
  method <> None /\ request <> None /\ 0 < requestLen /\ wrap_i32 requestLen < 0.
Definition call_outcome (method : option string) (request : option bytes) (requestLen : Z) (wanted : bool) (o : abiOutcome) : Prop :=
  match o with Panicked => oversized method request requestLen /\ 2 ^ 31 <= requestLen | Returned code response => returned wanted code response end /\
  (oversized method request requestLen -> o = Panicked).
Lemma wp_written wanted code data (ok : Envelope -> Prop) P t :
  enveloped ok data -> (forall response, enveloped ok response -> (wanted = false -> response = []) -> P (Returned code response)) ->
  safely (written ← writeABIResponse wanted data; mret (Returned code written)) (fun o _ => P o) t.
Proof.
  intros Hd HP. apply wp_bind. eapply wp_mono; [apply writeABIResponse_wp|]. intros written t' Hw. apply wp_ret; [done|].
  apply HP; destruct Hw as [->|[-> ->]]; done || by left.
Qed.

(** C40 A call of the host returns 0 with an envelope, or 1 with an envelope that refuses
    it, or with no bytes, and always with none when no buffer was given; an envelope has
    a result or an error.  It panics exactly when the length of the request, as a 32-bit
    integer, is negative, which no request shorter than 2^31 bytes has. *)
Theorem abi_call_answered (method : option string) (request : option bytes) (requestLen : Z) (wanted : bool) (t : list abiEvent) (o : abiOutcome) :
  ptrace (CursorAgentPluginCall unicode_lower now new_store new_request host_answers method request requestLen wanted) t (Some o) ->
  call_outcome method request requestLen wanted o.
Proof.
  intros Hp. eapply (wp_sound any_trace _ (fun o _ => call_outcome method request requestLen wanted o) []) in Hp as [_ Hp]; [by apply (Hp o)|]. clear o Hp.
  unfold CursorAgentPluginCall. destruct method as [method|].
  2: { eapply (wp_written _ _ _ refuses (call_outcome _ _ _ _)); [apply error_enveloped|]. intros response Hr Hw. by split; [split; [right|]|intros []]. }
  destruct (match request with Some memory => _ | None => _ end) as [requestBytes|] eqn:E.
  - assert (~ oversized (Some method) request requestLen) as Ho.
    { intros (_ & Hr & Hl & Hn). destruct request as [memory|]; [|done]. rewrite (proj2 (Z.ltb_lt _ _) Hl) in E. unfold GoBytes in E. cbv zeta in E.
      by rewrite (proj2 (Z.ltb_lt _ _) Hn) in E. }
    apply wp_bind. eapply wp_mono; [apply handleABIMethod_wp|]. intros [raw|e] t' Hr.
    + eapply (wp_written _ _ _ (fun _ => True) (call_outcome _ _ _ _)); [by apply Hr|]. intros response He Hw. by split; [split; [left|]|].
    + eapply (wp_written _ _ _ refuses (call_outcome _ _ _ _)); [apply error_enveloped|]. intros response He Hw. by split; [split; [right|]|].
  - apply wp_ret; [done|]. split; [|done]. destruct request as [memory|]; [|done]. destruct (0 <? requestLen) eqn:El; [|done]. apply Z.ltb_lt in El.
    unfold GoBytes in E. cbv zeta in E. destruct (wrap_i32 requestLen <? 0) eqn:En; [|done]. apply Z.ltb_lt in En. split; [by split_and!|].
    unfold wrap_i32 in En. destruct (Z.lt_ge_cases requestLen (2 ^ 31)); [|done]. rewrite Z.mod_small in En by lia. lia.
Qed.
End calls.
