(* ===== verification/PluginSample.v ===== *)
(** * The plugin: examples

    A codec for objects of ASCII strings with the law the file theorem asks for, and two
    requests that share an activation. *)
From stdpp Require Import base tactics list gmap strings sorting.
From Stdlib Require Import Strings.Byte.
From S2P Require Import Prelude GoStrings Conc Rely Sha256 JsonValue Connect Data HostedPolicy Segment StoreState Manager Media HostedSearch Projection Translate TranslateRequest TranslateTurn Credentials Tokens Delivery Plugin PluginProps Abi AbiProps.
Open Scope Z_scope.

(** ** A codec
    Keys and values, each ended by a byte no ASCII string has. *)
Definition field_bytes (s : string) : bytes := to_bytes s ++ [xff].
Fixpoint entries_bytes (m : object) : option bytes :=
  match m with
  | [] => Some []
  | (k, AnyString v) :: m => rest ← entries_bytes m; Some (field_bytes k ++ field_bytes v ++ rest)
  | _ => None
  end.
Fixpoint read_fields (b : bytes) (field : bytes) : list string :=
  match b with
  | [] => []
  | c :: b => if bool_decide (c = xff) then of_bytes (reverse field) :: read_fields b [] else read_fields b (c :: field)
  end.
Fixpoint pair_up (l : list string) : object := match l with k :: v :: l => (k, AnyString v) :: pair_up l | _ => [] end.
Definition ascii_json : JSON :=
  {| json_unmarshal raw := Some (AnyMap (pair_up (read_fields raw []))); json_marshal v := match v with AnyMap m => entries_bytes m | _ => None end;
     json_valid _ := true |}.
Lemma read_field b rest acc :
  forallb (fun c => (Byte.to_N c <? 128)%N) b = true -> read_fields (b ++ xff :: rest) acc = of_bytes (reverse acc ++ b) :: read_fields rest [].
Proof.
  revert acc. induction b as [|c b IH]; intros acc; cbn [forallb app read_fields].
  - intros _. by rewrite bool_decide_eq_true_2, app_nil_r.
  - intros [Hc Hb]%andb_true_iff. rewrite bool_decide_eq_false_2 by (by intros ->). rewrite IH by done. by rewrite reverse_cons, <-app_assoc.
Qed.
Lemma entries_read m : forallb ascii_entry m = true -> exists raw, entries_bytes m = Some raw /\ pair_up (read_fields raw []) = m.
Proof.
  induction m as [|[k v] m IH]; cbn [forallb entries_bytes]; [by exists []|]. intros [He (raw & E & Hr)%IH]%andb_true_iff.
  unfold ascii_entry in He. cbn [fst snd] in He. destruct v as [| | | | |v| |]; try by rewrite andb_false_r in He. apply andb_true_iff in He as [Hk Hv].
  rewrite E. eexists. split; [done|]. unfold field_bytes. rewrite <-!app_assoc. cbn [app]. rewrite (read_field (to_bytes k)) by done.
  rewrite (read_field (to_bytes v)) by done. cbn [pair_up]. by rewrite Hr, !reverse_nil, !app_nil_l, !of_to_bytes.
Qed.
Lemma ascii_codec : @StorageCodec ascii_json.
Proof. intros m _ (raw & E & Hr)%entries_read. exists raw. cbn [json_marshal json_unmarshal ascii_json]. by rewrite Hr. Qed.

(** ** A platform and an executor
    Every exchange of a key gives a token of the number of the call. *)
Definition sample_platform : Platform :=
  {| yaml_state_dir _ := Ok ""; getenv _ := ""; user_home := Ok "/home/user"; path_join a b := a +:+ "/" +:+ b; path_abs := Ok;
     path_is_abs s := HasPrefix s "/"; make_dirs _ := None; parse_duration _ := None; parse_rfc3339 _ := None; sprint_value _ := "?";
     FromString s := if bool_decide (s = "claude") then FormatClaude else FormatOther s |}.
Definition exchanged (n : nat) (a : PluginAuth) : PluginAuth :=
  {| pa_ID := pa_ID a; pa_Provider := pa_Provider a; pa_FileName := pa_FileName a; pa_Label := pa_Label a; pa_Prefix := pa_Prefix a;
     pa_Disabled := pa_Disabled a;
     pa_Auth := {| au_Metadata := map_set (pa_Metadata a) "access_token" (AnyString ("token " +:+ Itoa (Z.of_nat n))); au_Attributes := []; au_ProxyURL := "" |} |}.
Definition sample_executor : PluginExecutor :=
  {| ex_Refresh n a := match a with
                       | Some a => if bool_decide (@metaString sample_platform (Some (exchanged n a)) "access_token" = "") then Fail (ErrMsg "refused") else Ok (exchanged n a)
                       | None => Fail (ErrMsg "refused") end;
     ex_Execute _ _ _ _ := Ok {| xr_Payload := []; xr_Headers := []; xr_Metadata := [] |};
     ex_ExecuteStream _ _ _ _ := Ok {| sr_Headers := []; sr_Chunks := [] |}; ex_CountTokens _ := Ok [] |}.
Lemma sample_laws : @RefreshLaws sample_platform sample_executor.
Proof.
  split; cbn [ex_Refresh sample_executor].
  - intros n auth next. case_bool_decide; [done|]. by intros [= <-].
  - intros n [auth|] next; [|done]. case_bool_decide; [done|]. by intros [= <-].
Qed.
Definition sample_lower (s : string) : string := s.
#[local] Existing Instances ascii_json ascii_codec sample_platform sample_executor sample_laws.

(** ** A refreshed file *)
Definition sample_storage : storageFile := set_field "email" "a@b" (set_field "api_key" "key_1" empty_storage).
Definition sample_file : bytes := encode_storage sample_storage.
Definition sample_auth : PluginAuth := authFromPlugin sample_lower "id" "" sample_file [] [].
Definition sample_next : PluginAuth := exchanged 7 sample_auth.
Lemma refreshed_storage_reloads_witness :
  exists d, parseStorage sample_lower (mergeStorage sample_lower sample_file (Some sample_next)) = Some d /\
    d "access_token" = "token 7" /\ d "api_key" = "key_1" /\ d "email" = "a@b".
Proof.
  destruct (refreshed_storage_reloads sample_lower (fun _ => 0) sample_file sample_next) as (d & Hp & Ht & Hr & Hk & _).
  - vm_compute. discriminate.
  - vm_compute. discriminate.
  - apply Forall_forall, (bool_decide_unpack _). vm_compute. exact I.
  - exists d. split; [exact Hp|]. split; [rewrite Ht; vm_compute; reflexivity|].
    split; [rewrite Hr; [vm_compute; reflexivity|apply (bool_decide_unpack _); vm_compute; exact I]|].
    rewrite Hk; [vm_compute; reflexivity|apply (bool_decide_unpack _); vm_compute; exact I|].
    intros Hi. apply (bool_decide_pack _) in Hi. vm_compute in Hi. exact Hi.
Defined.

(** ** Two requests for one credential
    The first exchanges the key, the second runs with the token of the first. *)
Definition sample_request : ExecutorRequest :=
  {| er_AuthID := "id"; er_AuthProvider := ""; er_StorageJSON := sample_file; er_AuthMetadata := []; er_AuthAttributes := []; er_SourceFormat := "claude";
     er_Format := ""; er_Model := "m"; er_Payload := []; er_Metadata := []; er_Stream := false; er_Alt := ""; er_Headers := []; er_Query := [];
     er_OriginalRequest := [] |}.
Definition sample_calls : list hostCall := [HostExecute sample_request; HostCountTokens sample_request].
Definition sample_plugin : Plugin := {| pl_stateDir := "/state"; pl_activated := ∅; pl_calls := 0 |}.
Definition sample_used : ran := {| rn_requested := sample_auth; rn_used := exchanged 0 sample_auth |}.
Definition sample_end : Plugin := {| pl_stateDir := "/state"; pl_activated := {["id" := exchanged 0 sample_auth]}; pl_calls := 3 |}.
Ltac quiet := repeat first [apply guarantees_bind | intros ? | apply guarantees_act; done | done | match goal with |- guarantees _ (match ?x with _ => _ end) => destruct x end].
Lemma with_credential_forkless {A} req (run : nat -> PluginAuth -> Request -> ExecutorOptions -> result A) :
  forkless (with_credential sample_lower (fun _ => 0) req run).
Proof.
  apply (guarantees_forkless (fun _ _ _ => True)). assert (forall auth, guarantees (fun _ _ _ => True) (activate auth)) as Ha by (intros auth; unfold activate; quiet).
  assert (forall auth, guarantees (fun _ _ _ => True) (ensureActivated (fun _ => 0) auth)) as He by (intros auth; unfold ensureActivated; quiet; apply Ha).
  unfold with_credential; quiet.
Qed.
Lemma sample_pool : pool_steps alone (host_pool sample_lower (fun _ => 0) sample_calls, sample_plugin) [sample_used; sample_used] ([mret tt; mret tt], sample_end).
Proof.
  cbn [host_pool sample_calls host_call].
  eapply (exec_turn alone (Execute _ _ _) _ [] _ _ _ [sample_used] _ [sample_used]); [apply with_credential_forkless|vm_compute; reflexivity|]. cbn [app].
  rewrite <-(app_nil_r [sample_used]).
  eapply (exec_turn alone (CountTokens _ _ _) _ [mret tt]); [apply with_credential_forkless|vm_compute; reflexivity|]. apply pool_refl.
Qed.
Lemma requests_run_activated_witness :
  Forall (used_ok (fun _ => 0)) [sample_used; sample_used] /\ forall id a, pl_activated sample_end !! id = Some a -> entry_ok id a.
Proof. exact (requests_run_activated sample_lower (fun _ => 0) "/state" sample_calls _ _ _ sample_pool). Defined.

(** ** A key replaced under the same identifier
    The cached token of the old key goes on being used. *)
Definition other_request : ExecutorRequest :=
  {| er_AuthID := "id"; er_AuthProvider := ""; er_StorageJSON := encode_storage (set_field "api_key" "key_2" sample_storage); er_AuthMetadata := [];
     er_AuthAttributes := []; er_SourceFormat := "claude"; er_Format := ""; er_Model := "m"; er_Payload := []; er_Metadata := []; er_Stream := false;
     er_Alt := ""; er_Headers := []; er_Query := []; er_OriginalRequest := [] |}.
Lemma replaced_key_ignored : exists requested used p,
  snd <$> (fst <$> exec (Execute sample_lower (fun _ => 0) other_request) sample_end) = Some [{| rn_requested := requested; rn_used := used |}] /\
  metaString (Some requested) "api_key" = "key_2" /\ metaString (Some used) "api_key" = "key_1" /\
  snd <$> exec (Execute sample_lower (fun _ => 0) other_request) sample_end = Some p /\ pl_activated p = pl_activated sample_end.
Proof. do 3 eexists. split; [vm_compute; reflexivity|]. split_and!; vm_compute; reflexivity. Qed.

(** ** The C interface
    A codec and a host that takes every call; a stream that fails half way, and calls of
    the plugin with and without a registration. *)

Definition undecoded {T} : result T := Fail (ErrMsg "decode").
Definition sample_abi : AbiCodec :=
  {| method_of s := if bool_decide (s = "register") then Some MRegister else if bool_decide (s = "identifier") then Some MExecutorIdentifier else None;
     host_method q := match q with QStreamEmit _ _ => "emit" | QStreamClose _ _ => "close" | _ => "other" end;
     error_text e := match e with ErrMsg s => s | _ => "error" end;
     dec_lifecycle := Ok; dec_auth_parse _ := undecoded; dec_login_start _ := undecoded; dec_login_poll _ := undecoded; dec_refresh _ := undecoded;
     dec_model_register _ := undecoded; dec_model_static _ := undecoded; dec_model_auth _ := undecoded; dec_execute _ := undecoded; dec_http _ := undecoded;
     enc_response r := Ok (match r with RIdentifier id => to_bytes id | _ => to_bytes "{}" end);
     enc_envelope e := Ok (if en_OK e then to_bytes "ok " ++ en_Result e else to_bytes ("error " +:+ match en_Error e with Some e => ee_Message e | None => "" end));
     enc_host q := Ok (match q with QStreamEmit _ payload => payload | _ => [] end); dec_envelope _ := Ok {| en_OK := true; en_Result := []; en_Error := None |}; dec_empty _ := Ok tt; dec_read _ := undecoded;
     dec_stream _ := undecoded; dec_http_response _ := undecoded |}.
#[local] Existing Instances ascii_json sample_platform sample_executor sample_abi.
(** A host that does not take the payload [c]. *)
Definition sample_host (_ : string) (raw : bytes) : list (Z * bytes) := [if bool_decide (raw = to_bytes "c") then (1, []) else (0, [])].
Definition sample_state : abiState := {| ab_host := true; ab_plugin := None; ab_plugins := [] |}.

(** ** A stream whose third payload is not taken *)
Definition data (s : string) : StreamChunk := {| ch_Payload := to_bytes s; ch_Err := None |}.
Definition sample_chunks : list StreamChunk := [data "a"; data ""; data "b"; data "c"; data "d"].
Lemma stream_pumped_in_order_witness :
  pumped None "stream" sample_chunks
    (emits "stream" [(to_bytes "a", (0, [])); (to_bytes "b", (0, [])); (to_bytes "c", (1, []))] ++
     [EvHost (QStreamClose "stream" "host callback emit failed with code 1") (0, [])]).
Proof.
  eapply (stream_pumped_in_order sample_host None "stream" sample_chunks _ (Some tt)).
  apply (exec_ptrace _ sample_state _ _ sample_state). vm_compute. reflexivity.
Defined.

(** ** Calls of the plugin *)
Definition sample_call (method : string) : Prog abiState abiEvent abiOutcome :=
  CursorAgentPluginCall sample_lower (fun _ => 0) (fun _ _ => Ok tt) (fun _ _ => None) sample_host (Some method) None 0 true.
Definition registered_state : abiState := use_plugin {| pl_stateDir := "/home/user/.cliproxy-cursor-agent-v1"; pl_activated := ∅; pl_calls := 0 |} sample_state.
Example call_before_registration :
  exec (sample_call "identifier") sample_state = Some (Returned 1 (to_bytes "error cursor-agent-v1 plugin is not registered"), [], sample_state).
Proof. vm_compute. reflexivity. Qed.
Example call_registers : exec (sample_call "register") sample_state = Some (Returned 0 (to_bytes "ok {}"), [], registered_state).
Proof. vm_compute. reflexivity. Qed.
Example call_of_unknown_method : exec (sample_call "nothing") registered_state = Some (Returned 0 (to_bytes "error unknown method: nothing"), [], registered_state).
Proof. vm_compute. reflexivity. Qed.
Lemma abi_call_answered_witness : call_outcome (Some "identifier") None 0 true (Returned 0 (to_bytes "ok cursor-agent-v1")).
Proof.
  eapply (abi_call_answered sample_lower (fun _ => 0) (fun _ _ => Ok tt) (fun _ _ => None) sample_host).
  apply (exec_ptrace _ registered_state _ _ registered_state). vm_compute. reflexivity.
Defined.
